(* ===== verification/_CoqProject ===== *)
-Q . S2P
Prelude.v
GoLib.v
Calls.v
GoFmt.v
GoJson.v
Types.v
TimeUtil.v
CelPolicy.v
Activity.v
Dlq.v
EventProc.v
GoSlice.v
PolicyCache.v
AuditProc.v
DlqRetry.v
CelFilter.v
Query.v
EventStore.v
Watch.v
Reindex.v
ReindexJob.v
JobController.v
PolicyController.v
Rest.v
EventsRest.v
ActivityRest.v
Strategy.v
Preview.v
ApiObjects.v
Exporter.v
Nkeys.v
Connect.v
Cli.v
CliQuery.v
CliHistory.v
CliServer.v
CliJobs.v
McpTools.v
McpServer.v
ProcStart.v
ProcLife.v
Server.v
Manager.v
ExportRun.v
