(* ===== verification/Prelude.v ===== *)
(** * Verification of the activity service

    The activity service records what happens in a multi-tenant Kubernetes
    control plane.  Audit records and Kubernetes events arrive over NATS
    JetStream; policies written in CEL turn them into human-readable
    activities; activities, audit logs and events are kept in ClickHouse and
    read back through an aggregated API: queries with filters and cursors,
    facets, lists and watches.  This library models the Go code under [src/]
    that does this, as executable definitions, and proves what it promises.

    ** The parts and the files

    - [Prelude], [GoLib]: integers at their width, errors with [errors.Is] and
      [errors.As], results ([Ok], [Err], [Panic]), strings; the parts of Go's
      standard library the code calls (JSON values, regular expressions,
      RFC 3339 times, integer scanning).
    - [Calls]: programs that call out: a run returns a result, the log of the
      calls it made and the world it left; with lemmas on what a log may hold.
      [GoFmt], [GoJson]: formatting and parsing of numbers, quoting, tables and
      JSON texts, as the commands and tools print them.
    - [Types] (internal/types): tenant types, cluster names, event subjects and
      the NATS matching of their grants.
    - [TimeUtil] (internal/timeutil): [now-7d] and RFC 3339 times.
    - [CelPolicy] (internal/cel/environment.go, policy.go): environments,
      validation and evaluation of policy expressions, summary templates.  The
      CEL engine is the class [CelEngine].
    - [Activity] (internal/processor/activity.go, utils.go, classifier.go): the
      activity built from an audit record or an event.
    - [Dlq] (internal/processor/dlq.go): dead letters; [JetStream] is the class
      of its publish call, [DLQPublisher] the interface the processors use,
      with its laws [DLQPublisherLaws] and the instance of the real publisher.
    - [EventProc] (internal/processor/event.go, evaluate.go, kind_resolver.go):
      the event processor, against the interfaces [EventPolicyLookup] and
      [DLQPublisher]; rule evaluation as previews and reindexing use it.
    - [GoSlice], [PolicyCache] (internal/activityprocessor/policycache.go): Go
      slices over a heap of shared arrays, and the cache of compiled policies
      built from them; it implements [EventPolicyLookup] ([cache_lookup]).
    - [AuditProc] (internal/activityprocessor/processor.go): the audit message
      handler, re-evaluation of dead letters, and the informer handlers;
      [ProcStart] (the same file and cmd/activity/processor.go): options,
      configuration, [Start] with the connections it opens and closes, health
      checks; [ProcLife]: the goroutines of a started processor, from [Start]
      to the end of [Stop], as interleaved steps.
    - [DlqRetry] (internal/activityprocessor/dlq_retry.go): retry of dead
      letters, one message, one batch, one drain, with back-off.
    - [CelFilter] (internal/cel/cel.go, filter.go, activity_filter.go,
      errors.go): query filters, their validation, their conversion to SQL, and
      their evaluation on watched activities.
    - [Query] (internal/storage/clickhouse.go, fields.go, registry/scope):
      audit-log, activity and facet queries, cursors and pages.
    - [EventStore] (internal/storage/events_*.go, event_query_clickhouse.go):
      the store of Kubernetes events, its field selectors and queries.
    - [Watch] (internal/watch): watches over JetStream: subjects, filters, and
      the delivering goroutine interleaved with its caller and its reader.
    - [Reindex] (internal/reindex): a run over pages of past records, their
      evaluation, publishing with retries and the rate limiter; [ReindexJob]
      (cmd/activity/reindex_worker.go): the worker and the phases it writes;
      [JobController], [PolicyController] (internal/controller): the two
      [Reconcile] functions and the Kubernetes Job they make.
    - [Rest] (internal/registry/activity: auditlog, activityquery, eventquery,
      facet, auditlogfacet, eventfacet; internal/apierrors): the handlers of the
      query resources over the storages of [Query] and [EventStore], with the
      validation of their specifications.
    - [EventsRest] (registry/activity/events): events under [v1] and
      [events.k8s.io/v1] over [EventStore] and [Watch]; [ActivityRest]
      (registry/activity/record): lists and watches of activities.
    - [Strategy] (registry/activity/policy, reindexjob): what the generic store
      calls on each write, and the objects it may hold; [Preview]
      (registry/activity/preview): policies tried on given or fetched samples;
      [ApiObjects] (pkg/apis/activity, the table converters of the registries):
      policies and jobs in both versions, their conversions, documents, tables.
    - [Exporter] (internal/eventexporter): scope and source of exported events
      and the queue between the informer and NATS as interleaved steps;
      [ExportRun] (the same and cmd/activity/event_exporter.go): its options,
      [Run] with its connection and shut-down, its health checks;
      [Nkeys] (internal/natsconn, internal/nkeygenerator): the endpoints, and
      the sync that gives each edge cluster its key and its grants.
    - [Connect]: the five loaders of TLS files and the connection options;
      [Server] (cmd/activity/main.go, internal/apiserver, the constructors of
      internal/storage and internal/watch): the API server from its options to
      its shut-down; [Manager] (cmd/activity/controller_manager.go,
      internal/controller/manager.go): the controller manager, and the flags
      it gives to the re-index workers, as the worker parses them.
    - [Cli], [CliQuery], [CliHistory], [CliJobs] (pkg/cmd): the commands, from
      options to printed lines, as runs over the requests they make;
      [CliServer]: the same runs against the handlers of [Rest] and the
      storages of [Query].
    - [McpTools] (pkg/mcp/tools): the fourteen tools, their queries and outputs;
      [McpServer] (pkg/mcp/httpserver, cmd/activity/mcp.go): whose credentials
      a call uses, the routes, the published documents.

    ** How the code is rendered

    A Go function is a definition of the same name (with a prefix where two
    files use one name); its [(value, error)] is a [res], with [Panic] for what
    would crash; calls that leave the process (publish, query, insert) are
    class members, and a publishing function returns the log of its calls with
    their outcomes.  Clocks are arguments, one per call of [time.Now].  Maps
    are [gmap]s, a nil map an [option]; what the code shares and mutates (the
    arrays behind the policy slices, the channel of a watch, the rows of the
    event table) is an explicit state.  Libraries (CEL, JSON, SHA-256, base64,
    NATS, ClickHouse) are parameters; what a theorem needs of them is a class
    of laws ([CursorLaws], [EventsDBLaws], [DLQPublisherLaws]...), each with a
    concrete instance ([ToyCel], [ToyStore], [ToyEvents]...) on which every
    theorem with hypotheses is run.

    ** What the theorems show

    - Nothing is lost: a message is acknowledged only when it is stored,
      dead-lettered or not wanted ([audit_ack], [processMessage_ack]); a dead
      letter only when it went back to ingest or back to the queue
      ([retry_no_loss]); a resolved one is not dead-lettered again
      ([resolved_dead_letter_reingests]); a watch settles and delivers every
      message once and in order ([watch_delivery]).
    - The policy cache refines the set of live policies ([PolicyCache_live]),
      stays in step with the informer ([informer_cache_in_step]), and its
      compiled rules agree with the interpreted ones ([compiled_audit_agrees]).
    - Tenants are kept apart: queries carry the conditions of their scope and
      filters only add parameterised text ([queries_sound],
      [filter_parameterised], [event_queries_sound]); the event store and the
      subjects of watches and edge clusters are confined to their tenant
      ([event_store_isolates], [events_api_isolates],
      [watch_subject_isolates], [EventSubjectGrant_isolates],
      [EventInboxGrant_isolates]); a filter made from field selectors means
      those selectors whatever they contain ([list_filter_reads_back]).
    - A re-indexing run returns, publishes each activity once and counts what it
      did ([reindex_run], [reindex_completes], [reindexed_audit_is_live]); the
      worker and the controller write only meant phases ([worker_phases],
      [status_writes_well_formed]), each reconciliation is the step the
      specification gives for what the API and the clock answer
      ([Reconcile_refines]), a finished job is deleted in time
      ([ttl_eventually_deletes]); a policy is ready exactly when it is
      valid ([policy_status_sound], [acceptable_policy_compiles]).
    - Requests: the query handlers refine one specification of which requests
      are refused and what the storage is asked ([query_requests_handled],
      [facet_requests_handled]); stored objects keep the invariants of their
      strategies ([policy_lifecycle], [job_lifecycle]); what the two event APIs
      lose between them ([event_conversion_roundtrip]); previews report the
      first rule that matches the data of each sample and the activity it makes,
      and fetch few samples
      ([preview_evaluates], [preview_fetch_bounded], [strip_tokens]).
    - Edge clusters: every event handed to an exporter is accounted for
      ([exporter_conserves]), shutdown ends and publishes nothing but what had
      passed its check ([exporter_shutdown]), the activity
      of an exported event has the scope and source of its exporter
      ([exported_event_activity]); the leaf users are written whole or not at
      all, and each is confined to its cluster ([sync_guarded],
      [leaf_users_isolated]).
    - Pages are complete and end ([activity_pages_complete],
      [event_pages_complete]); cursors are bound to their query and age
      ([audit_cursor_bound]).
    - Processes: a start of the processor leaves nothing open or running exactly
      what was asked for and found ([start_all_or_nothing]); in every
      interleaving its workers acknowledge or refuse each message they fetch by
      its result ([messages_settled_once]), and it stops ([processor_stops])
      unless a health server is left ([stop_waits_for_health_server]) or its
      retries have no positive interval ([retry_needs_interval]); the server
      installs its groups over one backend and one watcher, which receives what
      the server publishes when the prefix and the stream are right
      ([server_events_path]), and publishes only its own
      documents ([openapi_only_owned]); the manager runs or reports
      ([manager_runs]) and its workers connect as it does
      ([worker_connects_like_manager]); the exporter waits for its publishing
      goroutine before it closes ([exporter_run_order]); all loaders of TLS files agree on
      whole pairs ([tls_loaders_agree]); the versions of stored objects say the
      same ([conversion_roundtrip]).
    - Clients: the filters commands and tools build mean the values they are
      given ([cli_filters_read_back], [tool_arguments_stay_values]); fetching
      all pages shows everything once ([feed_shows_everything],
      [history_all_pages_diff]); what a command accepts, the server
      accepts when it can read its times ([create_flags_agree]); previews print one row per input
      ([preview_table_own_rows]); a tool call over HTTP reads with the
      credentials of its caller only ([http_reads_as_caller]).
    - Templates, matches and variables behave as validated
      ([evaluateSummaryTemplate_spec], [validated_match_evaluates],
      [validated_summary_compiles], [policy_variables_bound]); activities are
      well formed ([BuildFromAudit_coherent]); back-off and drains are bounded
      ([periodic_retry_backoff], [periodicRetry_bounded]).

    Where the code does not do what it means to, a lemma shows a run:
    [audit_pages_repeat], [activity_hash_ambiguous], [stop_may_panic],
    [dotted_tenant_leaks], [tenant_event_watch_silent], [list_skips_ties],
    [reader_skips_live_policy], [resolver_failure_leaves_stale],
    [limit_not_enforced], [failed_job_polled], [running_job_spec_mutable],
    [unknown_parent_unrestricted], [watch_selectors_ignored],
    [watch_without_nats], [failed_sync_closes_undrained],
    [ready_without_workers], [dry_run_never_valid], [tool_limit_wraps],
    [returned_version_not_stored], [continue_token_cut], [events_delivered],
    [create_flags_differ], [retry_needs_interval],
    [history_names_another_resource], [cli_escape_leaves_backslash] and others.

    ** Bounds and fuel

    Recursion is structural on the data (rules, policies, messages, rows,
    expressions), except: [list_activities] and [list_events], whose fuel is
    the number of requests, shown enough at [length T + 1]; [process_loop] of a
    re-indexing run, whose fuel is the number of pages, shown enough at one
    more than there are ([reindex_run]); [all_pages] of the
    commands, whose fuel is the number of requests, shown enough against the
    handlers and the storage ([feed_shows_everything]) and for every server
    whose pages end ([history_all_pages_diff]); the reader of filters in [ActivityRest],
    whose fuel is the number of conditions; and the drain loop, whose list of
    turns stands for what the server answers, shown to end within
    1 + min(interval, 2 minutes)/delta turns.  Resource versions and durations
    are [int64], limits and offsets [int32], with their wrap-around.

    ** What is not modelled

    Metrics, log lines and tracing spans: no decision of the program reads
    them.  The declarations and help texts of the flags, the descriptions of
    the tools and the version command: data for a reader.  Generated code (deep
    copies, clients, informers, OpenAPI definitions) and the registration of
    types with the scheme.  The libraries (CEL, NATS, ClickHouse, the generic
    API server, controller-runtime, client-go, cobra, the protocol library of
    the tools) are parameters.  The user interface is not Go. *)

From Stdlib Require Import Ascii String.
From stdpp Require Import base numbers list strings gmap pretty.
From Stdlib Require Import ZArith Lia.

#[export] Set Default Proof Using "Type".
#[export] Set Warnings "-register-all".

Declare Scope go_scope.
Delimit Scope go_scope with go.
#[global] Open Scope go_scope.
#[global] Arguments String.append : simpl nomatch.

(* ------------------------------------------------------------------ *)
(** ** Tactics and hints *)

Create HintDb go.

(** Case analysis on every [if] and [match] of the goal. *)
Ltac case_split :=
  repeat match goal with
  | |- context [if ?b then _ else _] => destruct b eqn:?
  | |- context [match ?x with _ => _ end] => destruct x eqn:?
  end.

(** Same on a hypothesis. *)
Ltac case_split_in H :=
  repeat match type of H with
  | context [if ?b then _ else _] => destruct b eqn:?
  | context [match ?x with _ => _ end] => destruct x eqn:?
  end.

(** Case analysis on the integer comparisons of the goal. *)
Ltac zcmp :=
  repeat match goal with
  | |- context [(?a <? ?b)%Z] => destruct (Z.ltb_spec a b)
  | |- context [(?a <=? ?b)%Z] => destruct (Z.leb_spec a b)
  | |- context [(?a =? ?b)%Z] => destruct (Z.eqb_spec a b)
  end.

(** A closed decidable proposition, by evaluation. *)
Ltac by_decide := refine (bool_decide_unpack _ _); vm_compute; exact I.

(** Turn boolean comparisons in the context into propositions. *)
Ltac breflect :=
  repeat match goal with
  | H : (_ && _)%bool = true |- _ => apply andb_true_iff in H; destruct H
  | H : (_ || _)%bool = false |- _ => apply orb_false_iff in H; destruct H
  | H : negb _ = true |- _ => apply negb_true_iff in H
  | H : negb _ = false |- _ => apply negb_false_iff in H
  | H : (_ =? _)%Z = true |- _ => apply Z.eqb_eq in H
  | H : (_ =? _)%Z = false |- _ => apply Z.eqb_neq in H
  | H : (_ <? _)%Z = true |- _ => apply Z.ltb_lt in H
  | H : (_ <? _)%Z = false |- _ => apply Z.ltb_ge in H
  | H : (_ <=? _)%Z = true |- _ => apply Z.leb_le in H
  | H : (_ <=? _)%Z = false |- _ => apply Z.leb_gt in H
  | H : bool_decide _ = true |- _ => apply bool_decide_eq_true in H
  | H : bool_decide _ = false |- _ => apply bool_decide_eq_false in H
  end.

(* ------------------------------------------------------------------ *)
(** ** Machine integers *)

Definition int64_min : Z := (- 2 ^ 63)%Z.
Definition int64_max : Z := (2 ^ 63 - 1)%Z.

(** Two's complement wrap-around of Go's [int64] ([int] on 64-bit
    platforms) and [int32]. *)
Definition wrap64 (z : Z) : Z := ((z + 2 ^ 63) mod 2 ^ 64 - 2 ^ 63)%Z.
Definition wrap32 (z : Z) : Z := ((z + 2 ^ 31) mod 2 ^ 32 - 2 ^ 31)%Z.

Lemma wrap64_id (z : Z) : (int64_min <= z <= int64_max)%Z -> wrap64 z = z.
Proof.
  unfold wrap64, int64_min, int64_max. intros Hz.
  rewrite Z.mod_small; lia.
Qed.

Lemma wrap64_range (z : Z) : (int64_min <= wrap64 z <= int64_max)%Z.
Proof.
  unfold wrap64, int64_min, int64_max.
  pose proof (Z.mod_pos_bound (z + 2 ^ 63) (2 ^ 64) eq_refl). lia.
Qed.

Lemma wrap32_id (z : Z) : (- 2 ^ 31 <= z < 2 ^ 31)%Z -> wrap32 z = z.
Proof. unfold wrap32. intros Hz. rewrite Z.mod_small; lia. Qed.

Lemma wrap32_range (z : Z) : (- 2 ^ 31 <= wrap32 z < 2 ^ 31)%Z.
Proof.
  unfold wrap32.
  pose proof (Z.mod_pos_bound (z + 2 ^ 31) (2 ^ 32) eq_refl). lia.
Qed.

(* ------------------------------------------------------------------ *)
(** ** Errors and results *)

(** A Go [error] value, structured so that [errors.Is] and [errors.As] can be
    computed: a sentinel of the program, an error a library returned, a
    [fmt.Errorf] whose operands are kept apart (only [%w] operands are
    unwrapped), [errors.Join], or the [PolicyEvaluationError] of
    [internal/processor/dlq.go]. *)
Inductive error : Type :=
| Sentinel (name : string)
| Ext (text : string)
| Errorf (parts : list epart)
| Join (errs : list error)
| PolicyEvaluationError (PolicyName : string) (RuleIndex : Z) (Err : error)
with epart : Type :=
| PStr (s : string)      (* literal text, %s, %q or %d operand *)
| PWrap (e : error)      (* %w *)
| PShow (e : error).     (* %v of an error *)

(** [err.Error()]. *)
Fixpoint error_text (e : error) : string :=
  match e with
  | Sentinel n => n
  | Ext t => t
  | Errorf ps =>
      String.concat "" (List.map (fun p => match p with
                              | PStr s => s
                              | PWrap e' | PShow e' => error_text e'
                              end) ps)
  | Join es => String.concat (String (ascii_of_nat 10) "") (List.map error_text es)
  | PolicyEvaluationError _ _ e' => error_text e'
  end.

(** [errors.Is(e, target)] for a sentinel target. *)
Fixpoint errors_Is (target : string) (e : error) : bool :=
  match e with
  | Sentinel n => (n =? target)%string
  | Ext _ => false
  | Errorf ps =>
      List.existsb (fun p => match p with
                        | PWrap e' => errors_Is target e'
                        | _ => false
                        end) ps
  | Join es => List.existsb (errors_Is target) es
  | PolicyEvaluationError _ _ e' => errors_Is target e'
  end.

(** First [Some] of a list. *)
Fixpoint first_some {A B} (f : A -> option B) (l : list A) : option B :=
  match l with
  | [] => None
  | a :: l' => match f a with Some b => Some b | None => first_some f l' end
  end.

(** [errors.As(e, &policyErr)]: the first [PolicyEvaluationError] of the tree. *)
Fixpoint errors_As_policy (e : error) : option (string * Z * error) :=
  match e with
  | Sentinel _ | Ext _ => None
  | Errorf ps =>
      first_some (fun p => match p with
                        | PWrap e' => errors_As_policy e'
                        | _ => None
                        end) ps
  | Join es => first_some errors_As_policy es
  | PolicyEvaluationError n i e' => Some (n, i, e')
  end.

(** Outcome of fallible code: a value, an [error], or a run-time panic. *)
Inductive res (A : Type) : Type :=
| Ok (a : A)
| Err (e : error)
| Panic (why : string).
Arguments Ok {A} a.
Arguments Err {A} e.
Arguments Panic {A} why.

Definition res_bind {A B} (m : res A) (f : A -> res B) : res B :=
  match m with
  | Ok a => f a
  | Err e => Err e
  | Panic w => Panic w
  end.

(** [x, err := m; if err != nil { return nil, wrap(err) }]. *)
Definition wrap_err {A} (m : res A) (w : error -> error) : res A :=
  match m with
  | Ok a => Ok a
  | Err e => Err (w e)
  | Panic p => Panic p
  end.

Notation "'let?' x ':=' m 'in' k" := (res_bind m (fun x => k))
  (at level 10, x pattern, m at level 100, k at level 200) : go_scope.

(** The result of library code that never panics. *)
Definition of_sum {A} (m : error + A) : res A :=
  match m with inl e => Err e | inr a => Ok a end.

Definition is_ok {A} (m : res A) : bool := match m with Ok _ => true | _ => false end.

Lemma res_bind_ok {A B} (m : res A) (f : A -> res B) (b : B) :
  res_bind m f = Ok b <-> exists a, m = Ok a /\ f a = Ok b.
Proof.
  destruct m; simpl; split; [eauto|intros (? & [= ->] & ?); done|done|by intros (? & ? & ?)|done|by intros (? & ? & ?)].
Qed.

Lemma wrap_err_ok {A} (m : res A) w (a : A) : wrap_err m w = Ok a <-> m = Ok a.
Proof. destruct m; simpl; split; congruence. Qed.

(** Inversion of a chain of [let?]. *)
Ltac inv_res :=
  repeat match goal with
  | H : res_bind _ _ = Ok _ |- _ =>
      apply res_bind_ok in H; destruct H as (? & ? & ?)
  | H : wrap_err _ _ = Ok _ |- _ => apply wrap_err_ok in H
  | H : Ok _ = Ok _ |- _ => injection H as H
  | H : Err _ = Ok _ |- _ => discriminate H
  | H : Panic _ = Ok _ |- _ => discriminate H
  end; subst.

(* ------------------------------------------------------------------ *)
(** ** Lists: exchanging two elements *)

Definition swap {A} (i j : nat) (l : list A) : list A :=
  match l !! i, l !! j with Some x, Some y => <[i := y]> (<[j := x]> l) | _, _ => l end.

Lemma length_swap {A} i j (l : list A) : length (swap i j l) = length l.
Proof. unfold swap. destruct (l !! i), (l !! j); by rewrite ?length_insert. Qed.
Lemma lookup_swap {A} i j (l : list A) k :
  (i < length l)%nat -> (j < length l)%nat ->
  swap i j l !! k = if decide (k = i) then l !! j else if decide (k = j) then l !! i else l !! k.
Proof.
  intros Hi Hj. unfold swap. destruct (lookup_lt_is_Some_2 l i Hi) as [x Ex], (lookup_lt_is_Some_2 l j Hj) as [y Ey].
  rewrite Ex, Ey. destruct (decide (k = i)) as [->|Hki].
  - by rewrite list_lookup_insert_eq by (by rewrite length_insert).
  - rewrite list_lookup_insert_ne by done. destruct (decide (k = j)) as [->|Hkj].
    + by rewrite list_lookup_insert_eq.
    + by rewrite list_lookup_insert_ne by done.
Qed.
Lemma swap_Permutation {A} i j (l : list A) : swap i j l ≡ₚ l.
Proof.
  destruct (decide (i < length l /\ j < length l)%nat) as [[Hi Hj]|Hn].
  - apply Permutation_inj. split; [apply length_swap|].
    exists (fun k => if decide (k = i) then j else if decide (k = j) then i else k). split.
    + intros a b. repeat case_decide; subst; congruence.
    + intros k. rewrite lookup_swap by done. by repeat case_decide.
  - unfold swap. destruct (l !! i) eqn:Ei, (l !! j) eqn:Ej; try done. apply lookup_lt_Some in Ei, Ej. tauto.
Qed.

(* ------------------------------------------------------------------ *)
(** ** Strings *)

Definition str (s : string) : epart := PStr s.

Fixpoint HasPrefix (s p : string) {struct p} : bool :=
  match p, s with
  | EmptyString, _ => true
  | String a p', String b s' => Ascii.eqb a b && HasPrefix s' p'
  | String _ _, EmptyString => false
  end.

Fixpoint drop_str (n : nat) (s : string) {struct n} : string :=
  match n, s with
  | O, _ => s
  | S n', String _ s' => drop_str n' s'
  | S _, EmptyString => EmptyString
  end.

Fixpoint take_str (n : nat) (s : string) {struct n} : string :=
  match n, s with
  | O, _ => EmptyString
  | S n', String a s' => String a (take_str n' s')
  | S _, EmptyString => EmptyString
  end.

Definition TrimPrefix (s p : string) : string :=
  if HasPrefix s p then drop_str (String.length p) s else s.

(** Membership of a byte; [strings.Contains(s, "c")] for one character. *)
Fixpoint has_byte (c : ascii) (s : string) : bool :=
  match s with
  | EmptyString => false
  | String a s' => Ascii.eqb a c || has_byte c s'
  end.

(** [strings.Index(s, sub)]; [None] is [-1]. *)
Fixpoint Index (s sub : string) : option nat :=
  if HasPrefix s sub then Some O
  else match s with
       | EmptyString => None
       | String _ s' => option_map S (Index s' sub)
       end.

Definition Contains (s sub : string) : bool :=
  match Index s sub with Some _ => true | None => false end.

(** [strings.Split(s, "c")] for a one-byte separator. *)
Fixpoint Split (c : ascii) (s : string) : list string :=
  match s with
  | EmptyString => [EmptyString]
  | String a s' =>
      if Ascii.eqb a c then EmptyString :: Split c s'
      else match Split c s' with
           | [] => [String a EmptyString]
           | t :: ts => String a t :: ts
           end
  end.

(** [strings.ReplaceAll(s, old, new)] for a non-empty [old]. *)
Fixpoint replace_go (old new : string) (skip : nat) (s : string) : string :=
  match s with
  | EmptyString => EmptyString
  | String a s' =>
      match skip with
      | S k => replace_go old new k s'
      | O => if HasPrefix s old
             then new +:+ replace_go old new (String.length old - 1) s'
             else String a (replace_go old new O s')
      end
  end.
Definition ReplaceAll (s old new : string) : string := replace_go old new O s.

Definition ascii_lower (a : ascii) : ascii :=
  let n := nat_of_ascii a in
  if (Nat.leb 65 n && Nat.leb n 90)%bool then ascii_of_nat (n + 32) else a.

(** [strings.ToLower] on ASCII text. *)
Fixpoint ToLower (s : string) : string :=
  match s with
  | EmptyString => EmptyString
  | String a s' => String (ascii_lower a) (ToLower s')
  end.

(** ASCII white space, as [unicode.IsSpace] has it below 0x80. *)
Definition is_space (a : ascii) : bool :=
  let n := nat_of_ascii a in
  (Nat.eqb n 32 || (Nat.leb 9 n && Nat.leb n 13))%bool.

Fixpoint trim_left (s : string) : string :=
  match s with
  | String a s' => if is_space a then trim_left s' else s
  | EmptyString => EmptyString
  end.

Fixpoint rev_string (s acc : string) : string :=
  match s with
  | EmptyString => acc
  | String a s' => rev_string s' (String a acc)
  end.

Definition TrimSpace (s : string) : string :=
  rev_string (trim_left (rev_string (trim_left s) "")) "".

(** All bytes of a string satisfy a predicate. *)
Fixpoint all_bytes (p : ascii -> bool) (s : string) : bool :=
  match s with
  | EmptyString => true
  | String a s' => p a && all_bytes p s'
  end.

Definition is_digit (a : ascii) : bool :=
  let n := nat_of_ascii a in (Nat.leb 48 n && Nat.leb n 57)%bool.
Definition digit_val (a : ascii) : Z := Z.of_nat (nat_of_ascii a - 48).

Definition dot : ascii := "."%char.

Lemma append_assoc (a b c : string) : (a +:+ b) +:+ c = a +:+ (b +:+ c).
Proof. induction a as [|x a IH]; simpl; congruence. Qed.

Lemma append_nil_r (a : string) : a +:+ "" = a.
Proof. induction a as [|x a IH]; simpl; congruence. Qed.

Lemma append_inj_l (p a b : string) : p +:+ a = p +:+ b -> a = b.
Proof. induction p as [|x p IH]; simpl; [done|]. intros H. injection H; auto. Qed.

Lemma length_append (a b : string) :
  String.length (a +:+ b) = (String.length a + String.length b)%nat.
Proof. induction a as [|x a IH]; simpl; congruence. Qed.

Lemma HasPrefix_spec (s p : string) : HasPrefix s p = true <-> exists t, s = p +:+ t.
Proof.
  revert s. induction p as [|a p IH]; intros s; simpl.
  - by split; [intros _; exists s|].
  - destruct s as [|b s]; [by split; [|intros [t Ht]]|].
    rewrite andb_true_iff, IH. split.
    + intros [He [t ->]]. apply Ascii.eqb_eq in He. subst. by exists t.
    + intros [t Ht]. injection Ht as -> ->. rewrite Ascii.eqb_refl. eauto.
Qed.

Lemma HasPrefix_append (p t : string) : HasPrefix (p +:+ t) p = true.
Proof. apply HasPrefix_spec. eauto. Qed.

Lemma drop_str_append (p t : string) : drop_str (String.length p) (p +:+ t) = t.
Proof. induction p as [|x p IH]; [by destruct t|exact IH]. Qed.

Lemma take_drop_str (n : nat) (s : string) : take_str n s +:+ drop_str n s = s.
Proof.
  revert s; induction n as [|n IH]; intros [|a s]; try done.
  simpl. by rewrite IH.
Qed.

Lemma take_str_append (p t : string) : take_str (String.length p) (p +:+ t) = p.
Proof.
  induction p as [|x p IH]; [by destruct t|].
  change (String x (take_str (String.length p) (p +:+ t)) = String x p). by rewrite IH.
Qed.

Lemma TrimPrefix_append (p t : string) : TrimPrefix (p +:+ t) p = t.
Proof. unfold TrimPrefix. by rewrite HasPrefix_append, drop_str_append. Qed.

Lemma has_byte_append (c : ascii) (a b : string) :
  has_byte c (a +:+ b) = (has_byte c a || has_byte c b)%bool.
Proof. induction a as [|x a IH]; simpl; [done|]. by rewrite IH, orb_assoc. Qed.

Lemma all_bytes_append (p : ascii -> bool) (a b : string) :
  all_bytes p (a +:+ b) = (all_bytes p a && all_bytes p b)%bool.
Proof. induction a as [|x a IH]; simpl; [done|]. by rewrite IH, andb_assoc. Qed.

Lemma all_bytes_has_byte (p : ascii -> bool) (c : ascii) (s : string) :
  all_bytes p s = true -> p c = false -> has_byte c s = false.
Proof.
  intros Hs Hc. induction s as [|x s IH]; [done|]. simpl in *.
  apply andb_true_iff in Hs as [Hx Hs]. rewrite (IH Hs), orb_false_r.
  apply Ascii.eqb_neq. intros ->. congruence.
Qed.

Lemma Split_cons_ne (c : ascii) (s : string) : exists t ts, Split c s = t :: ts.
Proof.
  induction s as [|a s (t & ts & IH)]; simpl; [eauto|].
  destruct (Ascii.eqb a c); rewrite ?IH; eauto.
Qed.

Lemma Split_no_sep (c : ascii) (s : string) : has_byte c s = false -> Split c s = [s].
Proof.
  induction s as [|a s IH]; simpl; [done|].
  intros [Ha Hs]%orb_false_iff. rewrite Ha, (IH Hs). done.
Qed.

(** Splitting distributes over a separator. *)
Lemma Split_append (c : ascii) (a b : string) :
  Split c (a +:+ String c b) = Split c a ++ Split c b.
Proof.
  induction a as [|x a IH]; simpl.
  - by rewrite Ascii.eqb_refl.
  - destruct (Ascii.eqb x c); [by rewrite IH|].
    rewrite IH. destruct (Split_cons_ne c a) as (t & ts & ->). done.
Qed.

(** [strings.Join(strings.Split(s, c), c) = s]. *)
Lemma concat_Split (c : ascii) (s : string) :
  String.concat (String c EmptyString) (Split c s) = s.
Proof.
  induction s as [|a s IH]; [done|]. simpl Split.
  destruct (Split_cons_ne c s) as (t & ts & E). rewrite E in IH.
  destruct (Ascii.eqb_spec a c) as [->|?].
  - rewrite E. change (String c EmptyString +:+ String.concat (String c EmptyString) (t :: ts)
                       = String c s). by rewrite IH.
  - rewrite E. destruct ts; simpl in *; by rewrite <- IH.
Qed.

Lemma Split_inj (c : ascii) (a b : string) : Split c a = Split c b -> a = b.
Proof. intros H. by rewrite <- (concat_Split c a), H, concat_Split. Qed.

(** Joining, element by element. *)
Lemma join_cons (sep x : string) (l : list string) :
  String.concat sep (x :: l) = x +:+ match l with [] => "" | _ => sep +:+ String.concat sep l end.
Proof. destruct l; [by rewrite append_nil_r|done]. Qed.
Lemma Split_without (b c : ascii) (s : string) : has_byte b s = false -> Forall (fun t => has_byte b t = false) (Split c s).
Proof.
  induction s as [|a s IH]; [by constructor|]. cbn [has_byte Split]. intros [Ha Hs]%orb_false_iff. specialize (IH Hs).
  destruct (Ascii.eqb a c); [by constructor|]. destruct (Split_cons_ne c s) as (t & ts & E). rewrite E in *.
  apply Forall_cons in IH as [Ht Hts]. constructor; [|done]. cbn [has_byte]. by rewrite Ha, Ht.
Qed.

Create Rewrite HintDb go.
#[export] Hint Rewrite append_assoc append_nil_r : go.
#[export] Hint Resolve HasPrefix_append : go.
