(* ===== verification/GoLib.v ===== *)
(** * The parts of Go's standard library the modelled code relies on

    Dynamically typed JSON values ([map[string]any]), regular expressions
    ([regexp] with derivatives; only whole-match questions are asked),
    instants and [time.Parse] for RFC 3339, and [fmt.Sscanf(s, "%d", &v)].
    None of this is code of the repository, so none of it is claimed about:
    it is the executable meaning of the calls the repository makes. *)

From Stdlib Require Import Ascii String.
From stdpp Require Import base numbers list strings gmap pretty.
From Stdlib Require Import ZArith Lia.
From S2P Require Import Prelude.

(* ------------------------------------------------------------------ *)
(** ** [any] and [map[string]any] *)

(** What [json.Unmarshal] puts in an [any], plus [time.Time] (which the
    reindexer puts there itself).  Numbers are only ever passed on, so they are
    kept as their literal. *)
Inductive any : Type :=
| ANull
| ABool (b : bool)
| ANum (lit : string)
| AStr (s : string)
| ATime (t : Z)
| AList (l : list any)
| AMap (m : gmap string any).

Abbreviation gomap := (gmap string any).

(** [v.(string)], [v.(map[string]any)] and [v.(bool)] with their [ok]. *)
Definition as_string (v : option any) : option string :=
  match v with Some (AStr s) => Some s | _ => None end.
Definition as_map (v : option any) : option gomap :=
  match v with Some (AMap m) => Some m | _ => None end.
Definition as_bool (v : option any) : option bool :=
  match v with Some (ABool b) => Some b | _ => None end.

(** Reading a possibly nil map: a nil map has no keys. *)
Definition nil_map (m : option gomap) : gomap := default ∅ m.

(* ------------------------------------------------------------------ *)
(** ** Regular expressions *)

Inductive re : Type :=
| REmp
| REps
| RChr (p : ascii -> bool)
| RCat (r1 r2 : re)
| RAlt (r1 r2 : re)
| RStar (r : re).

Fixpoint nullable (r : re) : bool :=
  match r with
  | REmp | RChr _ => false
  | REps | RStar _ => true
  | RCat a b => nullable a && nullable b
  | RAlt a b => nullable a || nullable b
  end.

Fixpoint deriv (c : ascii) (r : re) : re :=
  match r with
  | REmp | REps => REmp
  | RChr p => if p c then REps else REmp
  | RCat a b => if nullable a then RAlt (RCat (deriv c a) b) (deriv c b)
                else RCat (deriv c a) b
  | RAlt a b => RAlt (deriv c a) (deriv c b)
  | RStar a => RCat (deriv c a) (RStar a)
  end.

(** [regexp.MatchString] of an expression anchored on both sides. *)
Fixpoint re_matches (r : re) (s : string) : bool :=
  match s with
  | EmptyString => nullable r
  | String c s' => re_matches (deriv c r) s'
  end.

(** [r?] and [r{0,n}]. *)
Definition ROpt (r : re) : re := RAlt REps r.
Fixpoint rep_upto (n : nat) (r : re) : re :=
  match n with O => REps | S n' => RAlt REps (RCat r (rep_upto n' r)) end.

Lemma re_matches_emp (s : string) : re_matches REmp s = false.
Proof. by induction s. Qed.

Lemma re_matches_eps (s : string) : re_matches REps s = (s =? "")%string.
Proof. destruct s; [done|]. apply re_matches_emp. Qed.

Lemma re_matches_alt (a b : re) (s : string) :
  re_matches (RAlt a b) s = (re_matches a s || re_matches b s)%bool.
Proof. revert a b. by induction s as [|c s IH]; intros a b; [|apply IH]. Qed.

Lemma re_matches_chr (p : ascii -> bool) (s : string) :
  re_matches (RChr p) s = true <-> exists c, s = String c "" /\ p c = true.
Proof.
  destruct s as [|c s]; simpl; [split; [done|by intros (? & ? & ?)]|].
  destruct (p c) eqn:E; rewrite ?re_matches_emp, ?re_matches_eps.
  - rewrite String.eqb_eq. split; [intros ->; eauto|by intros (? & [= -> ->] & ?)].
  - split; [done|intros (? & [= -> ->] & ?); congruence].
Qed.

Lemma re_matches_cat (a b : re) (s : string) :
  re_matches (RCat a b) s = true <->
  exists s1 s2, s = s1 +:+ s2 /\ re_matches a s1 = true /\ re_matches b s2 = true.
Proof.
  revert a. induction s as [|c s IH]; intros a; simpl.
  - rewrite andb_true_iff. split.
    + intros []. by exists "", "".
    + by intros ([] & [] & ? & ? & ?).
  - transitivity (re_matches (RCat (deriv c a) b) s = true
                  \/ (nullable a = true /\ re_matches (deriv c b) s = true)).
    { destruct (nullable a); [rewrite re_matches_alt, orb_true_iff; tauto|].
      split; [by left|intros [?|[? ?]]; done]. }
    rewrite IH. split.
    + intros [(s1 & s2 & -> & ? & ?)|[? ?]].
      * by exists (String c s1), s2.
      * by exists "", (String c s).
    + intros ([|d s1] & s2 & E & ? & ?).
      * simpl in E. subst. right. done.
      * injection E as -> ->. left. eauto.
Qed.

Lemma re_matches_opt (r : re) (s : string) :
  re_matches (ROpt r) s = true <-> s = "" \/ re_matches r s = true.
Proof.
  unfold ROpt. rewrite re_matches_alt, re_matches_eps, orb_true_iff, String.eqb_eq. done.
Qed.

Lemma re_matches_rep_chr (n : nat) (p : ascii -> bool) (s : string) :
  re_matches (rep_upto n (RChr p)) s = true <->
  all_bytes p s = true /\ (String.length s <= n)%nat.
Proof.
  revert s. induction n as [|n IH]; intros s; simpl rep_upto.
  - rewrite re_matches_eps, String.eqb_eq. destruct s; simpl; [split; auto|].
    split; [done|]. intros [_ ?]; lia.
  - rewrite re_matches_alt, orb_true_iff, re_matches_eps, String.eqb_eq, re_matches_cat.
    split.
    + intros [->|(s1 & s2 & -> & (c & -> & Hc)%re_matches_chr & [? ?]%IH)].
      * simpl. split; [done|lia].
      * simpl. split; [by apply andb_true_iff|lia].
    + intros [Hs Hl]. destruct s as [|c s]; [by left|right].
      simpl in *. apply andb_true_iff in Hs as [Hc Hs].
      exists (String c ""), s. split; [done|]. rewrite re_matches_chr, IH.
      split; [eauto|]. split; [done|lia].
Qed.

(* ------------------------------------------------------------------ *)
(** ** Integers from text *)

(** The longest prefix of decimal digits and the rest. *)
Fixpoint span_digits (s : string) : string * string :=
  match s with
  | String a s' =>
      if is_digit a then let (d, r) := span_digits s' in (String a d, r) else ("", s)
  | EmptyString => ("", "")
  end.

Fixpoint dec_val (acc : Z) (s : string) : Z :=
  match s with
  | EmptyString => acc
  | String a s' => dec_val (acc * 10 + digit_val a)%Z s'
  end.

(** [fmt.Sscanf(s, "%d", &v)] on ASCII input: blanks are skipped (a newline is
    an error), an optional sign and the digits are read, what follows is left
    unread; [strconv.ParseInt(tok, 10, 64)] then rejects a token out of
    range. *)
Fixpoint skip_blanks (s : string) : option string :=
  match s with
  | String a s' =>
      if (Ascii.eqb a (ascii_of_nat 10) || Ascii.eqb a (ascii_of_nat 13))%bool then None
      else if is_space a then skip_blanks s' else Some s
  | EmptyString => Some ""
  end.

Definition Sscanf_d (s : string) : option Z :=
  match skip_blanks s with
  | None => None
  | Some s1 =>
      let '(neg, s2) := match s1 with
                        | String "-" r => (true, r)
                        | String "+" r => (false, r)
                        | _ => (false, s1)
                        end in
      let (d, _) := span_digits s2 in
      if (d =? "")%string then None
      else let v := dec_val 0 d in
           let v := if neg : bool then (- v)%Z else v in
           if ((int64_min <=? v) && (v <=? int64_max))%Z%bool then Some v else None
  end.

(* ------------------------------------------------------------------ *)
(** ** Instants *)

(** An instant is the number of nanoseconds since 0001-01-01T00:00:00Z, the
    instant of Go's zero [time.Time]: [t.IsZero()] is [t = 0].  [t.After(u)] is
    [u < t]. *)
Definition time := Z.
Definition nano : Z := 1000000000.
Definition IsZero (t : time) : bool := (t =? 0)%Z.
Definition After (t u : time) : bool := (u <? t)%Z.

(** Seconds of [1970-01-01T00:00:00Z] on this scale. *)
Definition unix_epoch : Z := 62135596800.
Definition of_unix_nano (n : Z) : time := (unix_epoch * nano + n)%Z.

(** [t.Add(d)] for a [time.Duration] (a count of nanoseconds). *)
Definition Add (t : time) (d : Z) : time := (t + d)%Z.

(** [t.AddDate(0, 0, n)] in a location with a fixed offset: the seconds are an
    [int64] computed modulo 2^64. *)
Definition AddDays (t : time) (n : Z) : time :=
  (wrap64 (t / nano + n * 86400) * nano + t mod nano)%Z.

(** The proleptic Gregorian calendar. *)
Definition is_leap (y : Z) : bool :=
  ((y mod 4 =? 0) && (negb (y mod 100 =? 0) || (y mod 400 =? 0)))%Z%bool.
Definition days_in (m y : Z) : Z :=
  if (m =? 2)%Z then (if is_leap y then 29 else 28)%Z
  else if ((m =? 4) || (m =? 6) || (m =? 9) || (m =? 11))%Z%bool then 30%Z else 31%Z.

(** Days from 0001-01-01 to the given civil date. *)
Definition days_before_month (m y : Z) : Z :=
  (nth (Z.to_nat (m - 1)) [0; 31; 59; 90; 120; 151; 181; 212; 243; 273; 304; 334]%Z 0
   + (if (is_leap y && (2 <? m)%Z)%bool then 1 else 0))%Z.
Definition civil_days (y m d : Z) : Z :=
  let p := (y - 1)%Z in
  (365 * p + p / 4 - p / 100 + p / 400 + days_before_month m y + (d - 1))%Z.

(* ------------------------------------------------------------------ *)
(** ** [time.Parse] with [time.RFC3339] and [time.RFC3339Nano]

    The two layouts accept the same strings: a fractional second is accepted
    whether the layout has one or not. *)

(** [n] digits at the front. *)
Fixpoint num_fixed (n : nat) (acc : Z) (s : string) : option (Z * string) :=
  match n with
  | O => Some (acc, s)
  | S n' => match s with
            | String a s' => if is_digit a then num_fixed n' (acc * 10 + digit_val a)%Z s' else None
            | EmptyString => None
            end
  end.

(** One or two digits (the hour). *)
Definition num_1_2 (s : string) : option (Z * string) :=
  match s with
  | String a s' =>
      if is_digit a then
        match s' with
        | String b s'' => if is_digit b then Some ((digit_val a * 10 + digit_val b)%Z, s'')
                          else Some (digit_val a, s')
        | EmptyString => Some (digit_val a, s')
        end
      else None
  | EmptyString => None
  end.

Definition lit (c : ascii) (s : string) : option string :=
  match s with String a s' => if Ascii.eqb a c then Some s' else None | _ => None end.

Definition in_range (lo hi v : Z) : option unit :=
  if ((lo <=? v) && (v <=? hi))%Z%bool then Some tt else None.

(** A fraction: [.] or [,] and at least one digit; digits past the ninth are
    read and ignored. *)
Definition parse_fraction (s : string) : Z * string :=
  match s with
  | String p (String a s' as ds) =>
      if ((Ascii.eqb p "." || Ascii.eqb p ",") && is_digit a)%bool then
        let (d, rest) := span_digits ds in
        let d9 := take_str 9 d in
        ((dec_val 0 d9 * 10 ^ (9 - Z.of_nat (String.length d9)))%Z, rest)
      else (0%Z, s)
  | _ => (0%Z, s)
  end.

(** [Z] or [±hh:mm]; the offset in seconds. *)
Definition parse_zone (s : string) : option (Z * string) :=
  match s with
  | String "Z" s' => Some (0%Z, s')
  | String sg s' =>
      '(h, s1) ← num_fixed 2 0 s';
      s2 ← lit ":" s1;
      '(m, s3) ← num_fixed 2 0 s2;
      in_range 0 24 h ≫= fun _ =>
      in_range 0 60 m ≫= fun _ =>
      let off := (h * 3600 + m * 60)%Z in
      if Ascii.eqb sg "+" then Some (off, s3)
      else if Ascii.eqb sg "-" then Some ((- off)%Z, s3) else None
  | EmptyString => None
  end.

Definition Parse_RFC3339 (s : string) : option time :=
  '(y, s) ← num_fixed 4 0 s;
  s ← lit "-" s;
  '(mo, s) ← num_fixed 2 0 s;
  _ ← in_range 1 12 mo;
  s ← lit "-" s;
  '(d, s) ← num_fixed 2 0 s;
  s ← lit "T" s;
  '(h, s) ← num_1_2 s;
  _ ← in_range 0 23 h;
  s ← lit ":" s;
  '(mi, s) ← num_fixed 2 0 s;
  _ ← in_range 0 59 mi;
  s ← lit ":" s;
  '(se, s) ← num_fixed 2 0 s;
  _ ← in_range 0 59 se;
  let (ns, s) := parse_fraction s in
  '(off, s) ← parse_zone s;
  if (s =? "")%string then
    _ ← in_range 1 (days_in mo y) d;
    Some (((civil_days y mo d * 86400 + h * 3600 + mi * 60 + se - off) * nano + ns)%Z)
  else None.

Example Parse_RFC3339_epoch :
  Parse_RFC3339 "1970-01-01T00:00:00Z" = Some (of_unix_nano 0).
Proof. reflexivity. Qed.
Example Parse_RFC3339_nano :
  Parse_RFC3339 "2024-02-29T12:30:45.5+02:00" = Some (of_unix_nano 1709202645500000000).
Proof. reflexivity. Qed.
Example Parse_RFC3339_bad_day : Parse_RFC3339 "2023-02-29T00:00:00Z" = None.
Proof. reflexivity. Qed.

(* ------------------------------------------------------------------ *)
(** ** Runes: how many bytes [range] takes at the front of a string *)

(** A continuation byte between two bounds. *)
Definition cont_byte (lo hi : nat) (s : string) : bool :=
  match s with
  | String a _ => let n := nat_of_ascii a in (Nat.leb lo n && Nat.leb n hi)%bool
  | EmptyString => false
  end.
Definition tail_str (s : string) : string := match s with String _ s' => s' | EmptyString => "" end.

(** [utf8.DecodeRuneInString]: the width; 1 for an invalid encoding. *)
Definition rune_width (s : string) : nat :=
  match s with
  | EmptyString => 0
  | String a s1 =>
      let n := nat_of_ascii a in
      let s2 := tail_str s1 in let s3 := tail_str s2 in
      let two lo hi := if cont_byte lo hi s1 then 2 else 1 in
      let three lo hi := if (cont_byte lo hi s1 && cont_byte 128 191 s2)%bool then 3 else 1 in
      let four lo hi := if (cont_byte lo hi s1 && cont_byte 128 191 s2 && cont_byte 128 191 s3)%bool then 4 else 1 in
      if Nat.ltb n 194 then 1
      else if Nat.ltb n 224 then two 128 191
      else if Nat.eqb n 224 then three 160 191
      else if Nat.eqb n 237 then three 128 159
      else if Nat.ltb n 240 then three 128 191
      else if Nat.eqb n 240 then four 144 191
      else if Nat.ltb n 244 then four 128 191
      else if Nat.eqb n 244 then four 128 143
      else 1
  end%nat.

(* ------------------------------------------------------------------ *)
(** ** [t.Format(time.RFC3339)] of an instant of the years 0 to 9999, in UTC *)

(** [n] decimal digits of a number. *)
Fixpoint pad (n : nat) (z : Z) (acc : string) : string :=
  match n with
  | O => acc
  | S n' => pad n' (z / 10) (String (ascii_of_nat (48 + Z.to_nat (z mod 10))) acc)
  end.

(** The civil date of a day count: the year is one of three candidates. *)
Definition year_of (days : Z) : Z :=
  let y0 := (days * 400 / 146097 + 1)%Z in
  default y0 (List.find (fun y => (civil_days y 1 1 <=? days) && (days <? civil_days (y + 1) 1 1))%Z%bool
                        [y0 - 1; y0; y0 + 1]%Z).
Definition month_of (y days : Z) : Z :=
  default 12%Z (List.find (fun m => (days <? civil_days y m 1 + days_in m y)%Z)
                          [1; 2; 3; 4; 5; 6; 7; 8; 9; 10; 11; 12]%Z).

Definition Format_RFC3339 (t : time) : string :=
  let secs := (t / nano)%Z in
  let days := (secs / 86400)%Z in
  let s := (secs mod 86400)%Z in
  let y := year_of days in
  let m := month_of y days in
  let d := (days - civil_days y m 1 + 1)%Z in
  pad 4 y "-" +:+ pad 2 m "-" +:+ pad 2 d "T" +:+ pad 2 (s / 3600)%Z ":" +:+ pad 2 (s / 60 mod 60)%Z ":"
    +:+ pad 2 (s mod 60)%Z "Z".

Example Format_RFC3339_leap : Format_RFC3339 (of_unix_nano 1709202645500000000) = "2024-02-29T10:30:45Z".
Proof. reflexivity. Qed.

(** The offset, in seconds, of the location of [time.Parse(time.RFC3339, s)]:
    the zone the text ends with; 0 for another text. *)
Definition zone_of_RFC3339 (s : string) : Z :=
  match Parse_RFC3339 s with
  | None => 0%Z
  | Some _ => match parse_zone (drop_str (String.length s - 6) s) with Some (off, _) => off | None => 0%Z end
  end.

(** [Format] in a location with a fixed offset: [Z] for UTC, else [±hh:mm]. *)
Definition Format_RFC3339_in (off : Z) (t : time) : string :=
  let text := Format_RFC3339 (t + off * nano)%Z in
  if (off =? 0)%Z then text
  else let m := (Z.abs off / 60)%Z in
       take_str (String.length text - 1) text +:+ (if (off <? 0)%Z then "-" else "+")
         +:+ pad 2 (m / 60)%Z ":" +:+ pad 2 (m mod 60)%Z "".

Example Format_RFC3339_zone :
  let s := "2024-02-29T12:30:45+02:00" in
  Format_RFC3339_in (zone_of_RFC3339 s) (default 0%Z (Parse_RFC3339 s)) = s.
Proof. reflexivity. Qed.

(* ------------------------------------------------------------------ *)
(** ** Durations: [int64] nanoseconds *)

(** [t.Sub(u)] saturates. *)
Definition Sub (t u : time) : Z := Z.max int64_min (Z.min int64_max (t - u)).

(** The decimals of [v / 10^prec], without trailing zeros. *)
Fixpoint strip_zeros (s : string) : string :=
  match s with
  | EmptyString => ""
  | String a s' => match strip_zeros s' with
                   | EmptyString => if Ascii.eqb a "0" then "" else String a ""
                   | r => String a r
                   end
  end.
Definition fmtFrac (prec : nat) (v : Z) : string :=
  match strip_zeros (pad prec (v mod 10 ^ Z.of_nat prec)%Z "") with
  | EmptyString => ""
  | d => "." +:+ d
  end.

(** [d.String()] *)
Definition Duration_String (d : Z) : string :=
  let u := Z.abs d in
  let frac prec := pretty (u / 10 ^ Z.of_nat prec)%Z +:+ fmtFrac prec u in
  let body :=
    if (u =? 0)%Z then "0s"
    else if (u <? 1000)%Z then pretty u +:+ "ns"
    else if (u <? 1000000)%Z then frac 3%nat +:+ "µs"
    else if (u <? nano)%Z then frac 6%nat +:+ "ms"
    else
      let s := (u / nano)%Z in
      let m := (s / 60)%Z in
      let h := (m / 60)%Z in
      (if (0 <? h)%Z then pretty h +:+ "h" else "")
        +:+ (if (0 <? m)%Z then pretty (m mod 60)%Z +:+ "m" else "")
        +:+ pretty (s mod 60)%Z +:+ fmtFrac 9 u +:+ "s" in
  if (d <? 0)%Z then "-" +:+ body else body.

Example Duration_String_days : Duration_String (720 * 3600 * nano) = "720h0m0s".
Proof. reflexivity. Qed.
Example Duration_String_frac : Duration_String (-90500000000) = "-1m30.5s".
Proof. reflexivity. Qed.
