(* ===== verification/Calls.v ===== *)
(** * Code that makes calls: state, errors and a log

    Code that calls services passes their state [W] along, stops with a Go
    [error], and logs what it did in a list of [L]: the monad of the key
    generator ([Nkeys]), of the command-line clients ([Cli] and the files after
    it) and of the MCP tools ([McpTools]). *)

From Stdlib Require Import Ascii String.
From stdpp Require Import base numbers list strings.
From S2P Require Import Prelude.

(** The log is what is claimed about: two runs that log the same calls with the
    same answers did the same. *)
Definition Calls (L W A : Type) : Type := W -> (error + A) * list L * W.

Section Calls.
Context {L W : Type}.

Definition nret {A} (a : A) : Calls L W A := fun w => (inr a, [], w).
Definition nfail {A} (e : error) : Calls L W A := fun w => (inl e, [], w).
(** [x, err := m; if err != nil { return h(err) }]. *)
Definition ntry {A B} (m : Calls L W A) (h : error -> Calls L W B) (f : A -> Calls L W B) : Calls L W B :=
  fun w => let '(a, l, w1) := m w in
           let '(b, l', w2) := (match a with inl e => h e | inr a => f a end) w1 in (b, l ++ l', w2).
Definition nbind {A B} (m : Calls L W A) (f : A -> Calls L W B) : Calls L W B := ntry m nfail f.
Definition nask {A} (f : W -> (error + A) * W) (c : (error + A) -> list L) : Calls L W A :=
  fun w => let (r, w') := f w in (r, c r, w').
Definition ndo (f : W -> option error * W) (c : option error -> L) : Calls L W unit :=
  fun w => let (r, w') := f w in (match r with Some e => inl e | None => inr tt end, [c r], w').
Definition nlift {A} (x : error + A) : Calls L W A := fun w => (x, [], w).
(** What is logged and cannot fail. *)
Definition nsay (l : list L) : Calls L W unit := fun w => (inr tt, l, w).

Lemma ntry_inv {A B} (m : Calls L W A) (h : error -> Calls L W B) (f : A -> Calls L W B) w r l w' :
  ntry m h f w = (r, l, w') ->
  exists a l1 w1 l2, m w = (a, l1, w1) /\ (match a with inl e => h e | inr x => f x end) w1 = (r, l2, w') /\ l = l1 ++ l2.
Proof.
  unfold ntry. destruct (m w) as [[a l1] w1]. destruct ((match a with inl e => h e | inr x => f x end) w1) as [[b l2] w2] eqn:E.
  intros [= <- <- <-]. by exists a, l1, w1, l2.
Qed.

Lemma ntry_ok {A B} (m : Calls L W A) (h : error -> Calls L W B) (f : A -> Calls L W B) w a l1 w1 r l2 w' :
  m w = (inr a, l1, w1) -> f a w1 = (r, l2, w') -> ntry m h f w = (r, l1 ++ l2, w').
Proof. unfold ntry. intros -> E. by rewrite E. Qed.
Lemma nbind_ok {A B} (m : Calls L W A) (f : A -> Calls L W B) w a l1 w1 r l2 w' :
  m w = (inr a, l1, w1) -> f a w1 = (r, l2, w') -> nbind m f w = (r, l1 ++ l2, w').
Proof. apply ntry_ok. Qed.
Lemma nbind_err {A B} (m : Calls L W A) (f : A -> Calls L W B) w e l1 w1 :
  m w = (inl e, l1, w1) -> nbind m f w = (inl e, l1, w1).
Proof. unfold nbind, ntry, nfail. intros ->. by rewrite app_nil_r. Qed.

(** Getting past an error check whose branch fails. *)
Definition always_fails {A} (m : Calls L W A) : Prop := forall w, exists e log w', m w = (inl e, log, w').
Lemma nfail_fails {A} (e : error) : always_fails (@nfail A e).
Proof. intros w. by eexists _, _, _. Qed.
Lemma try_success {A B} (m : Calls L W A) h (f : A -> Calls L W B) w b log w' :
  ntry m h f w = (inr b, log, w') -> (forall e, always_fails (h e)) ->
  exists a l1 w1 l2, m w = (inr a, l1, w1) /\ f a w1 = (inr b, l2, w') /\ log = l1 ++ l2.
Proof.
  intros (a & l1 & w1 & l2 & E1 & E2 & ->)%ntry_inv Hh. destruct a as [e|a]; [|by exists a, l1, w1, l2].
  destruct (Hh e w1) as (e' & l & w2 & Eh). by rewrite Eh in E2.
Qed.
Lemma bind_success {A B} (m : Calls L W A) (f : A -> Calls L W B) w b log w' :
  nbind m f w = (inr b, log, w') ->
  exists a l1 w1 l2, m w = (inr a, l1, w1) /\ f a w1 = (inr b, l2, w') /\ log = l1 ++ l2.
Proof. intros E. by apply try_success in E; [|intros e; apply nfail_fails]. Qed.

(** All a run logs has a property. *)
Definition logs {A} (P : L -> Prop) (m : Calls L W A) : Prop := forall w r l w', m w = (r, l, w') -> Forall P l.
Lemma logs_ret {A} P (a : A) : logs P (nret a).
Proof. by intros w r l w' [= <- <- <-]. Qed.
Lemma logs_fail {A} P e : logs P (@nfail A e).
Proof. by intros w r l w' [= <- <- <-]. Qed.
Lemma logs_lift {A} P (x : error + A) : logs P (nlift x).
Proof. by intros w r l w' [= <- <- <-]. Qed.
Lemma logs_say (P : L -> Prop) l : Forall P l -> logs P (nsay l).
Proof. by intros Hl w r l' w' [= <- <- <-]. Qed.
Lemma logs_do (P : L -> Prop) f c : (forall r, P (c r)) -> logs P (ndo f c).
Proof. intros Hc w r l w'. unfold ndo. destruct (f w) as [x w1]. intros [= <- <- <-]. by constructor. Qed.
Lemma logs_try {A B} P (m : Calls L W A) h (f : A -> Calls L W B) :
  logs P m -> (forall e, logs P (h e)) -> (forall a, logs P (f a)) -> logs P (ntry m h f).
Proof.
  intros Hm Hh Hf w r l w' (a & l1 & w1 & l2 & E1 & E2 & ->)%ntry_inv. apply Forall_app. split; [by eapply Hm|].
  destruct a; [by eapply Hh|by eapply Hf].
Qed.
Lemma logs_bind {A B} P (m : Calls L W A) (f : A -> Calls L W B) : logs P m -> (forall a, logs P (f a)) -> logs P (nbind m f).
Proof. intros Hm Hf. apply logs_try; [done|intros e; apply logs_fail|done]. Qed.
End Calls.
Create HintDb calls.
#[export] Hint Resolve logs_ret logs_fail logs_lift logs_say logs_do logs_try logs_bind : calls.

Definition wrap_with (text : string) (e : error) : error := Errorf [PStr text; PWrap e].
Notation "'try!' x ':=' m 'or' h 'in' k" := (ntry m h (fun x => k))
  (at level 10, x pattern, m at level 100, h at level 100, k at level 200) : go_scope.
Notation "'get!' x ':=' m 'in' k" := (nbind m (fun x => k))
  (at level 10, x pattern, m at level 100, k at level 200) : go_scope.
