(* ===== verification/GoFmt.v ===== *)
(** * More of Go's standard library: [strconv.Quote] and [float64]

    What the clients print: quoted strings ([%q], [strconv.Quote]) and
    percentages ([float64] arithmetic, [%.1f]).  Floats are the binary64 of the
    Standard Library's [SpecFloat], rounding to nearest even.  Like [GoLib],
    this is the meaning of library calls and nothing is claimed about it. *)

From Stdlib Require Import Ascii String ZArith SpecFloat.
From stdpp Require Import base numbers list strings pretty.
From Stdlib Require Import Lia.
From S2P Require Import Prelude GoLib.

(* ------------------------------------------------------------------ *)
(** ** [strconv.Quote] *)

(** [unicode.IsPrint] of the runes past ASCII: tables of the library. *)
Class GoUnicode := { IsPrint : Z -> bool }.

(** The rune of a valid encoding of [w] bytes. *)
Definition byte_val (a : ascii) : Z := Z.of_nat (nat_of_ascii a).
Definition head_byte (s : string) : Z := match s with String a _ => byte_val a | EmptyString => 0%Z end.
Definition rune_value (w : nat) (s : string) : Z :=
  let low t := (head_byte t mod 64)%Z in
  let s1 := tail_str s in let s2 := tail_str s1 in let s3 := tail_str s2 in
  match w with
  | 2%nat => ((head_byte s mod 32) * 64 + low s1)%Z
  | 3%nat => ((head_byte s mod 16) * 4096 + low s1 * 64 + low s2)%Z
  | 4%nat => ((head_byte s mod 8) * 262144 + low s1 * 4096 + low s2 * 64 + low s3)%Z
  | _ => head_byte s
  end.

Definition hex_digit (n : Z) : ascii := ascii_of_nat (Z.to_nat (if (n <? 10)%Z then 48 + n else 87 + n)).
Fixpoint hex (digits : nat) (z : Z) (acc : string) : string :=
  match digits with
  | O => acc
  | S n => hex n (z / 16) (String (hex_digit (z mod 16)) acc)
  end.

Definition dquote_byte : ascii := ascii_of_nat 34.

(** An ASCII byte between the quotes. *)
Definition quote_ascii (a : ascii) : string :=
  let n := byte_val a in
  if (Ascii.eqb a dquote_byte || Ascii.eqb a "\")%bool then String "\" (String a "")
  else if ((32 <=? n) && (n <? 127))%Z%bool then String a ""
  else if (n =? 7)%Z then "\a" else if (n =? 8)%Z then "\b" else if (n =? 12)%Z then "\f"
  else if (n =? 10)%Z then "\n" else if (n =? 13)%Z then "\r" else if (n =? 9)%Z then "\t"
  else if (n =? 11)%Z then "\v" else "\x" +:+ hex 2 n "".

(** [skip]: bytes of a rune already emitted. *)
Fixpoint quote_go `{GoUnicode} (skip : nat) (s : string) : string :=
  match s with
  | EmptyString => ""
  | String a s' =>
      match skip with
      | S k => quote_go k s'
      | O =>
          if (byte_val a <? 128)%Z then quote_ascii a +:+ quote_go 0 s'
          else
            let w := rune_width s in
            if (w =? 1)%nat then "\x" +:+ hex 2 (byte_val a) "" +:+ quote_go 0 s'
            else
              let r := rune_value w s in
              (if IsPrint r then take_str w s
               else if (r <? 65536)%Z then "\u" +:+ hex 4 r "" else "\U" +:+ hex 8 r "")
                +:+ quote_go (w - 1) s'
      end
  end.
Definition Quote `{GoUnicode} (s : string) : string :=
  String dquote_byte (quote_go 0 s +:+ String dquote_byte "").

Definition latin : GoUnicode := {| IsPrint r := (160 <? r)%Z |}.
Example Quote_mixed :
  @Quote latin (String (ascii_of_nat 10) "a\é" +:+ String (ascii_of_nat 200) "!")
  = String dquote_byte ("\na\\é\xc8!" +:+ String dquote_byte "").
Proof. vm_compute. reflexivity. Qed.

(** [strconv.ParseBool] *)
Definition ParseBool (s : string) : option bool :=
  if bool_decide (s ∈ ["1"; "t"; "T"; "TRUE"; "true"; "True"]) then Some true
  else if bool_decide (s ∈ ["0"; "f"; "F"; "FALSE"; "false"; "False"]) then Some false else None.

(* ------------------------------------------------------------------ *)
(** ** [float64] *)

Definition float64 : Type := spec_float.
Definition f64_of_int (z : Z) : float64 := binary_normalize 53 1024 z 0 false.
Definition fdiv (a b : float64) : float64 := SFdiv 53 1024 a b.
Definition fmul (a b : float64) : float64 := SFmul 53 1024 a b.
Definition flt (a b : float64) : bool := SFltb a b.
Definition fge (a b : float64) : bool := SFleb b a.
Definition fneg (a : float64) : float64 := SFopp a.
Definition f64_zero : float64 := S754_zero false.

(** [float64(a) / float64(b) * 100] *)
Definition percent (a b : Z) : float64 := fmul (fdiv (f64_of_int a) (f64_of_int b)) (f64_of_int 100).

(** [m * 2^e * 10^n] rounded to an integer, ties to even. *)
Definition scaled (m : Z) (e : Z) (n : nat) : Z :=
  let v := (m * 10 ^ Z.of_nat n)%Z in
  if (0 <=? e)%Z then (v * 2 ^ e)%Z
  else let d := (2 ^ (- e))%Z in
       let q := (v / d)%Z in
       match (2 * (v mod d) ?= d)%Z with
       | Lt => q
       | Gt => (q + 1)%Z
       | Eq => if Z.even q then q else (q + 1)%Z
       end.

(** [%.nf] *)
Definition Format_f (n : nat) (f : float64) : string :=
  let digits s v :=
    (if s : bool then "-" else "") +:+ pretty (v / 10 ^ Z.of_nat n)%Z
      +:+ (if (n =? 0)%nat then "" else "." +:+ pad n (v mod 10 ^ Z.of_nat n)%Z "") in
  match f with
  | S754_zero s => digits s 0%Z
  | S754_infinity s => if s then "-Inf" else "+Inf"
  | S754_nan => "NaN"
  | S754_finite s m e => digits s (scaled (Zpos m) e n)
  end.

Example Format_third : Format_f 1 (percent 1 3) = "33.3". Proof. vm_compute. reflexivity. Qed.
Example Format_half : Format_f 0 (percent 1 8) = "12". Proof. vm_compute. reflexivity. Qed.
Example Format_minus : Format_f 1 (percent (-7) 4) = "-175.0". Proof. vm_compute. reflexivity. Qed.

(** The shortest decimal that reads back as the number, as [encoding/json]
    writes one of magnitude 10^-6 to 10^21: [n] significant digits are tried up
    to 17, the first whose nearest decimal rounds to the number. *)
Definition pow_pos (b e : Z) : Z := if (0 <=? e)%Z then (b ^ e)%Z else 1%Z.
Fixpoint leading (fuel : nat) (m e : Z) (k : Z) : Z :=
  match fuel with
  | O => k
  | S fuel' => if (0 <? m * 10 ^ k * pow_pos 2 e / pow_pos 2 (- e))%Z then k else leading fuel' m e (k + 1)
  end.
(** The exponent of ten above the number [m * 2^e]. *)
Definition decimal_exponent (m e : Z) : Z :=
  let n := (m * pow_pos 2 e / pow_pos 2 (- e))%Z in
  if (0 <? n)%Z then Z.of_nat (String.length (pretty n)) else (1 - leading 330 m e 1)%Z.
Definition nearest (num den : Z) : Z :=
  let q := (num / den)%Z in
  match (2 * (num mod den) ?= den)%Z with
  | Lt => q | Gt => (q + 1)%Z | Eq => if Z.even q then q else (q + 1)%Z
  end.
Fixpoint shortest (fuel : nat) (p m e : Z) : Z * Z :=
  let x := (decimal_exponent m e - p)%Z in
  let d := nearest (m * pow_pos 2 e * pow_pos 10 (- x)) (pow_pos 2 (- e) * pow_pos 10 x) in
  match fuel with
  | O => (d, x)
  | S fuel' =>
      let here := (d * pow_pos 10 x * pow_pos 2 (2 - e))%Z in
      let bound k := (k * pow_pos 2 (e - 2) * pow_pos 10 (- x))%Z in
      let lo := bound (if (m =? 2 ^ 52)%Z then 4 * m - 1 else 4 * m - 2)%Z in
      let hi := bound (4 * m + 2)%Z in
      if (if Z.even m then (lo <=? here) && (here <=? hi) else (lo <? here) && (here <? hi))%Z%bool
      then (d, x) else shortest fuel' (p + 1) m e
  end.
Definition FormatFloat_json (f : float64) : string :=
  match f with
  | S754_zero s => if s then "-0" else "0"
  | S754_infinity _ | S754_nan => "" (* an error of the encoder *)
  | S754_finite s m e =>
      let (d, x) := shortest 16 1 (Zpos m) e in
      (if s then "-" else "")
      +:+ (if (0 <=? x)%Z then pretty (d * 10 ^ x)%Z
           else let k := Z.to_nat (- x) in pretty (d / 10 ^ (- x))%Z +:+ "." +:+ pad k (d mod 10 ^ (- x))%Z "")
  end.
Example FormatFloat_examples :
  map FormatFloat_json [fdiv (f64_of_int 1) (f64_of_int 3); percent 1 3; percent 150 100; fdiv (f64_of_int 1) (f64_of_int 10);
                        fneg (percent 7 8); f64_of_int 1000; percent 2 3]
  = ["0.3333333333333333"; "33.33333333333333"; "150"; "0.1"; "-87.5"; "1000"; "66.66666666666666"].
Proof. vm_compute. reflexivity. Qed.
