(* ===== verification/GoJson.v ===== *)
(** * More of Go's standard library: [encoding/json] printing

    [json.Marshal] and [json.MarshalIndent] of decoded values, and the padding
    verbs of [fmt].  Like [GoLib], this is the meaning of library calls and
    nothing is claimed about it. *)

From Stdlib Require Import Ascii String.
From stdpp Require Import base numbers list strings gmap pretty.
From Stdlib Require Import ZArith Lia.
From S2P Require Import Prelude GoLib Calls GoFmt.

(* ------------------------------------------------------------------ *)
(** ** Strings *)

(** An ASCII byte inside a JSON string, as the encoder writes it (with the
    characters of HTML escaped). *)
Definition json_ascii (a : ascii) : string :=
  let n := byte_val a in
  if (Ascii.eqb a dquote_byte || Ascii.eqb a "\")%bool then String "\" (String a "")
  else if (n =? 8)%Z then "\b" else if (n =? 12)%Z then "\f" else if (n =? 10)%Z then "\n"
  else if (n =? 13)%Z then "\r" else if (n =? 9)%Z then "\t"
  else if ((n <? 32) || Ascii.eqb a "<" || Ascii.eqb a ">" || Ascii.eqb a "&")%Z%bool then "\u" +:+ hex 4 n ""
  else String a "".

Fixpoint json_text (skip : nat) (s : string) : string :=
  match s with
  | EmptyString => ""
  | String a s' =>
      match skip with
      | S k => json_text k s'
      | O =>
          if (byte_val a <? 128)%Z then json_ascii a +:+ json_text 0 s'
          else
            let w := rune_width s in
            if (w =? 1)%nat then "\ufffd" +:+ json_text 0 s'
            else
              let r := rune_value w s in
              (if ((r =? 8232) || (r =? 8233))%Z%bool then "\u" +:+ hex 4 r "" else take_str w s) +:+ json_text (w - 1) s'
      end
  end.
Definition json_string (s : string) : string := String dquote_byte (json_text 0 s +:+ String dquote_byte "").

(* ------------------------------------------------------------------ *)
(** ** Values *)

(** The fields of an object, by key. *)
Fixpoint insert_field (kv : string * string) (l : list (string * string)) : list (string * string) :=
  match l with
  | [] => [kv]
  | kv' :: l' => if String.leb (fst kv) (fst kv') then kv :: l else kv' :: insert_field kv l'
  end.

Definition line_feed : string := String (ascii_of_nat 10) "".
Fixpoint spaces (n : nat) : string := match n with O => "" | S n' => String " " (spaces n') end.

(** Elements between brackets: on lines of their own if there is an
    indentation, at depth [d]. *)
Definition bracketed (opening closing : string) (indent : option nat) (d : nat) (items : list string) : string :=
  match items, indent with
  | [], _ => opening +:+ closing
  | _, None => opening +:+ String.concat "," items +:+ closing
  | _, Some w => opening +:+ line_feed +:+ spaces (w * S d)
                   +:+ String.concat ("," +:+ line_feed +:+ spaces (w * S d)) items
                   +:+ line_feed +:+ spaces (w * d) +:+ closing
  end.

(** [time.RFC3339Nano], in UTC *)
Definition Format_RFC3339Nano (t : time) : string :=
  take_str 19 (Format_RFC3339 t) +:+ fmtFrac 9 (t mod nano)%Z +:+ "Z".

Fixpoint json_value (indent : option nat) (d : nat) (v : any) : string :=
  match v with
  | ANull => "null"
  | ABool b => if b then "true" else "false"
  | ANum lit => lit
  | AStr s => json_string s
  | ATime t => json_string (Format_RFC3339Nano t)
  | AList l => bracketed "[" "]" indent d (List.map (json_value indent (S d)) l)
  | AMap m =>
      let fields := map_fold (fun k v acc => insert_field (k, json_value indent (S d) v) acc) [] m in
      bracketed "{" "}" indent d
        (map (fun '(k, text) => json_string k +:+ ":" +:+ match indent with Some _ => " " | None => "" end +:+ text) fields)
  end.

(** [json.Marshal(v)], and [json.MarshalIndent(v, "", "  ")]. *)
Definition Marshal (v : any) : string := json_value None 0 v.
Definition MarshalIndent (v : any) : string := json_value (Some 2%nat) 0 v.

Definition quotes (s : string) : string := ReplaceAll s "'" (String dquote_byte "").
Example Marshal_object :
  Marshal (AMap (<["b" := AList [ANum "1"; ANull]]> (<["a" := AStr "<x>"]> (<["c" := AMap ∅]> ∅))))
  = quotes "{'a':'\u003cx\u003e','b':[1,null],'c':{}}".
Proof. vm_compute. reflexivity. Qed.
Example MarshalIndent_object :
  MarshalIndent (AMap (<["b" := AList [ANum "1"]]> (<["a" := ABool true]> ∅)))
  = quotes (String.concat line_feed ["{"; "  'a': true,"; "  'b': ["; "    1"; "  ]"; "}"]).
Proof. vm_compute. reflexivity. Qed.

(* ------------------------------------------------------------------ *)
(** ** Padding: [%-nd] and [%-ns], by runes *)

Fixpoint rune_count_go (skip : nat) (s : string) : nat :=
  match s with
  | EmptyString => 0
  | String _ s' => match skip with S k => rune_count_go k s' | O => S (rune_count_go (rune_width s - 1) s') end
  end.
Definition RuneCount (s : string) : nat := rune_count_go 0 s.
Definition pad_right (n : nat) (s : string) : string := s +:+ spaces (n - RuneCount s).

Example pad_right_runes : pad_right 4 "né" = "né  ". Proof. reflexivity. Qed.
