(* ===== verification/Types.v ===== *)
(** * internal/types: tenant types, event subjects, federated sources

    Models [internal/types/tenant.go], [internal/types/subject.go],
    [internal/types/source.go] and the NATS matching function
    [subjectMatches] of [internal/types/subject_test.go], which states what a
    grant covers. *)

From Stdlib Require Import Ascii String.
From stdpp Require Import base numbers list strings gmap.
From Stdlib Require Import ZArith Lia.
From S2P Require Import Prelude GoLib.

Definition TenantTypePlatform : string := "platform".
Definition TenantTypeOrganization : string := "Organization".
Definition TenantTypeProject : string := "Project".
Definition TenantTypeUser : string := "User".

Definition ScopeTypeAnnotation : string := "platform.miloapis.com/scope.type".
Definition ScopeNameAnnotation : string := "platform.miloapis.com/scope.name".
Definition ScopeNamespaceAnnotation : string := "platform.miloapis.com/scope.namespace".

Definition SourcePlaneTypeAnnotation : string := "activity.miloapis.com/source-plane-type".
Definition SourceClusterAnnotation : string := "activity.miloapis.com/source-cluster".
Definition SourceRegionAnnotation : string := "activity.miloapis.com/source-region".
Definition SourceCityAnnotation : string := "activity.miloapis.com/source-city".

Definition NormalizeTenantType (tenantType : string) : string :=
  let l := ToLower tenantType in
  if (l =? ToLower TenantTypePlatform)%string then TenantTypePlatform
  else if (l =? ToLower TenantTypeOrganization)%string then TenantTypeOrganization
  else if (l =? ToLower TenantTypeProject)%string then TenantTypeProject
  else if (l =? ToLower TenantTypeUser)%string then TenantTypeUser
  else tenantType.

Definition PrefixWithSource (planeType cluster id : string) : string :=
  if ((planeType =? "") || (cluster =? ""))%string%bool then id
  else planeType +:+ "/" +:+ cluster +:+ "/" +:+ id.

(** [[a-z0-9]] and [[-a-z0-9]]. *)
Definition label_alnum (a : ascii) : bool :=
  let n := nat_of_ascii a in
  ((Nat.leb 97 n && Nat.leb n 122) || (Nat.leb 48 n && Nat.leb n 57))%bool.
Definition label_char (a : ascii) : bool := (Ascii.eqb a "-" || label_alnum a)%bool.

Definition clusterNameRE : re :=
  RCat (RChr label_alnum)
       (ROpt (RCat (rep_upto 61 (RChr label_char)) (RChr label_alnum))).

Definition ValidClusterName (name : string) : bool := re_matches clusterNameRE name.

Definition EventSubject (prefix cluster namespace : string) : string :=
  if (cluster =? "")%string then prefix +:+ "." +:+ namespace
  else prefix +:+ "." +:+ cluster +:+ "." +:+ namespace.

Definition EventSubjectGrant (prefix cluster : string) : string :=
  prefix +:+ "." +:+ cluster +:+ ".*".

Definition EventInboxPrefix (cluster : string) : string := "_INBOX_" +:+ cluster.

Definition EventInboxGrant (cluster : string) : string :=
  EventInboxPrefix cluster +:+ ".>".

(** The loop of [subjectMatches] over the tokens of the filter. *)
Fixpoint tokens_match (f s : list string) : bool :=
  match f with
  | [] => match s with [] => true | _ => false end
  | tok :: f' =>
      if (tok =? ">")%string then match s with [] => false | _ => true end
      else match s with
           | [] => false
           | x :: s' =>
               if (negb (tok =? "*") && negb (tok =? x))%string%bool then false
               else tokens_match f' s'
           end
  end.

Definition subjectMatches (filter subject : string) : bool :=
  tokens_match (Split dot filter) (Split dot subject).

(* ------------------------------------------------------------------ *)
(** ** Lemmas *)

(** What [clusterNameRE] says in words: an alphanumeric first byte, then
    nothing, or at most 61 label bytes and an alphanumeric last byte. *)
Lemma ValidClusterName_spec (s : string) :
  ValidClusterName s = true <->
  exists a t, s = String a t /\ label_alnum a = true /\
    (t = "" \/ exists m z, t = m +:+ String z "" /\ all_bytes label_char m = true /\
                       (String.length m <= 61)%nat /\ label_alnum z = true).
Proof.
  unfold ValidClusterName, clusterNameRE. rewrite re_matches_cat. split.
  - intros (s1 & s2 & -> & (a & -> & Ha)%re_matches_chr & Ht).
    exists a, s2. split; [done|split; [done|]].
    apply re_matches_opt in Ht as [->|Ht]; [by left|right].
    apply re_matches_cat in Ht as (m & z & -> & [? ?]%re_matches_rep_chr & Hz).
    apply re_matches_chr in Hz as (c & -> & Hc). eauto 10.
  - intros (a & t & -> & Ha & Ht). exists (String a ""), t.
    split; [done|]. split; [apply re_matches_chr; eauto|].
    apply re_matches_opt. destruct Ht as [->|(m & z & -> & Hm & Hl & Hz)]; [by left|right].
    apply re_matches_cat. exists m, (String z ""). split; [done|].
    split; [by apply re_matches_rep_chr|apply re_matches_chr; eauto].
Qed.

Lemma label_alnum_char (a : ascii) : label_alnum a = true -> label_char a = true.
Proof. unfold label_char. intros ->. apply orb_true_r. Qed.

Lemma ValidClusterName_bytes (s : string) :
  ValidClusterName s = true -> s <> "" /\ all_bytes label_char s = true.
Proof.
  intros (a & t & -> & Ha & Ht)%ValidClusterName_spec. split; [done|].
  simpl. rewrite label_alnum_char by done. simpl.
  destruct Ht as [->|(m & z & -> & Hm & _ & Hz)]; [done|].
  rewrite all_bytes_append, Hm. simpl. by rewrite label_alnum_char.
Qed.

Lemma ValidClusterName_no_dot (s : string) :
  ValidClusterName s = true -> has_byte dot s = false.
Proof.
  intros [_ H]%ValidClusterName_bytes. by apply (all_bytes_has_byte label_char).
Qed.

Lemma valid_not_wild (s : string) :
  ValidClusterName s = true -> s <> "*" /\ s <> ">".
Proof. intros [_ H]%ValidClusterName_bytes. split; intros ->; done. Qed.

Lemma tokens_match_common (p f s : list string) :
  ">" ∉ p -> tokens_match (p ++ f) (p ++ s) = tokens_match f s.
Proof.
  induction p as [|t p IH]; [done|]. intros Hn. simpl.
  destruct (String.eqb_spec t ">") as [->|?]; [set_solver|].
  rewrite String.eqb_refl, andb_false_r. apply IH. set_solver.
Qed.

Lemma EventSubject_tokens (p c ns : string) :
  ValidClusterName c = true -> has_byte dot ns = false ->
  Split dot (EventSubject p c ns) = Split dot p ++ [c; ns].
Proof.
  intros Hc Hns. pose proof (ValidClusterName_bytes c Hc) as [Hne _].
  unfold EventSubject. apply String.eqb_neq in Hne. rewrite Hne.
  change ("." +:+ c +:+ "." +:+ ns) with (String dot (c +:+ String dot ns)).
  rewrite !Split_append, (Split_no_sep dot c), (Split_no_sep dot ns);
    auto using ValidClusterName_no_dot.
Qed.

Lemma EventSubjectGrant_tokens (p c : string) :
  ValidClusterName c = true ->
  Split dot (EventSubjectGrant p c) = Split dot p ++ [c; "*"].
Proof.
  intros Hc. unfold EventSubjectGrant.
  change ("." +:+ c +:+ ".*") with (String dot (c +:+ String dot "*")).
  by rewrite !Split_append, (Split_no_sep dot c) by auto using ValidClusterName_no_dot.
Qed.

Lemma inbox_tokens (c rest : string) :
  ValidClusterName c = true ->
  Split dot (EventInboxPrefix c +:+ String dot rest) = EventInboxPrefix c :: Split dot rest.
Proof.
  intros Hc. rewrite Split_append, Split_no_sep; [done|].
  by apply ValidClusterName_no_dot in Hc.
Qed.

Lemma eqb_append_l (p a b : string) : (p +:+ a =? p +:+ b)%string = (a =? b)%string.
Proof.
  destruct (String.eqb_spec a b) as [->|Hn]; [apply String.eqb_refl|].
  apply String.eqb_neq. intros H. by apply append_inj_l in H.
Qed.

(** A separator that occurs on neither left part determines the parts. *)
Lemma sep_inj (c : ascii) (a a' b b' : string) :
  has_byte c a = false -> has_byte c a' = false ->
  a +:+ String c b = a' +:+ String c b' -> a = a' /\ b = b'.
Proof.
  intros Ha Ha' E. apply (f_equal (Split c)) in E.
  rewrite !Split_append, (Split_no_sep c a), (Split_no_sep c a') in E by done.
  simpl in E. injection E as -> E. split; [done|by apply (Split_inj c)].
Qed.

(* ------------------------------------------------------------------ *)
(** ** Properties *)

(** A leaf cluster's publish grant covers the event subjects of exactly
    that cluster: for names that pass [ValidClusterName], the grant of cluster
    [c] matches a subject published by cluster [c'] iff [c = c'], whatever the
    subject prefix (it has no [>] token) and the namespace (no dot). *)
Theorem EventSubjectGrant_isolates (p c c' ns : string) :
  ValidClusterName c = true -> ValidClusterName c' = true ->
  has_byte dot ns = false -> ">" ∉ Split dot p ->
  subjectMatches (EventSubjectGrant p c) (EventSubject p c' ns) = (c =? c')%string.
Proof.
  intros Hc Hc' Hns Hp. unfold subjectMatches.
  rewrite EventSubjectGrant_tokens, EventSubject_tokens, tokens_match_common by done.
  destruct (valid_not_wild c Hc) as [Hs%String.eqb_neq Hg%String.eqb_neq].
  simpl. rewrite Hs, Hg. simpl. by destruct (c =? c')%string.
Qed.

Lemma EventSubjectGrant_isolates_witness :
  subjectMatches (EventSubjectGrant "activity.federated" "us-east-1")
                 (EventSubject "activity.federated" "us-west-1" "default") = false.
Proof.
  rewrite EventSubjectGrant_isolates; [reflexivity..|].
  by apply (bool_decide_unpack _).
Defined.

(** A leaf cluster's inbox grant covers the reply subjects of that cluster
    only: it matches no other cluster's replies and nothing under the hub's
    [_INBOX.] space, and the hub's [_INBOX.>] matches no cluster's replies. *)
Theorem EventInboxGrant_isolates (c c' rest : string) :
  ValidClusterName c = true -> ValidClusterName c' = true ->
  subjectMatches (EventInboxGrant c) (EventInboxPrefix c' +:+ String dot rest) = (c =? c')%string
  /\ subjectMatches (EventInboxGrant c) ("_INBOX." +:+ rest) = false
  /\ subjectMatches "_INBOX.>" (EventInboxPrefix c' +:+ String dot rest) = false.
Proof.
  intros Hc Hc'. unfold subjectMatches, EventInboxGrant.
  change (EventInboxPrefix c +:+ ".>") with (EventInboxPrefix c +:+ String dot ">").
  change ("_INBOX." +:+ rest) with ("_INBOX" +:+ String dot rest).
  rewrite !inbox_tokens, Split_append by done.
  destruct (Split_cons_ne dot rest) as (t & ts & ->).
  assert (forall x, (EventInboxPrefix c =? x)%string = false \/ x = EventInboxPrefix c) as Hx.
  { intros x. destruct (String.eqb_spec (EventInboxPrefix c) x); auto. }
  split; [|split; reflexivity].
  cbn [tokens_match]. unfold EventInboxPrefix. rewrite eqb_append_l.
  simpl. by destruct (c =? c')%string.
Qed.

Lemma EventInboxGrant_isolates_witness :
  subjectMatches (EventInboxGrant "us-east-1")
    (EventInboxPrefix "us-west-1" +:+ String dot "pNXQ.xY7") = false.
Proof.
  rewrite (proj1 (EventInboxGrant_isolates "us-east-1" "us-west-1" "pNXQ.xY7" eq_refl eq_refl)).
  reflexivity.
Defined.

(** Tenant types have one spelling: [NormalizeTenantType] is idempotent,
    its result only depends on the lower-cased input when that names a
    canonical type, and a value it changes is one of the four canonical
    types. *)
Theorem NormalizeTenantType_canonical (s s' : string) :
  let canon := [TenantTypePlatform; TenantTypeOrganization; TenantTypeProject; TenantTypeUser] in
  NormalizeTenantType (NormalizeTenantType s) = NormalizeTenantType s
  /\ (NormalizeTenantType s ∈ canon <-> ToLower s ∈ map ToLower canon)
  /\ (ToLower s = ToLower s' -> NormalizeTenantType s ∈ canon ->
      NormalizeTenantType s' = NormalizeTenantType s)
  /\ (NormalizeTenantType s ∉ canon -> NormalizeTenantType s = s).
Proof.
  cbv zeta. unfold NormalizeTenantType.
  destruct (String.eqb_spec (ToLower s) (ToLower TenantTypePlatform)) as [E1|E1];
    [|destruct (String.eqb_spec (ToLower s) (ToLower TenantTypeOrganization)) as [E2|E2];
      [|destruct (String.eqb_spec (ToLower s) (ToLower TenantTypeProject)) as [E3|E3];
        [|destruct (String.eqb_spec (ToLower s) (ToLower TenantTypeUser)) as [E4|E4]]]].
  1-4: split; [reflexivity|split; [|split]];
    [rewrite ?E1, ?E2, ?E3, ?E4; split; intros _; simpl; set_solver
    |intros <- _; rewrite ?E1, ?E2, ?E3, ?E4; reflexivity
    |intros Hn; exfalso; apply Hn; set_solver].
  apply String.eqb_neq in E1, E2, E3, E4. rewrite E1, E2, E3, E4.
  apply String.eqb_neq in E1, E2, E3, E4.
  assert (ToLower s ∉ map ToLower
    [TenantTypePlatform; TenantTypeOrganization; TenantTypeProject; TenantTypeUser]) as Hn
    by (simpl; set_solver).
  assert (s ∈ [TenantTypePlatform; TenantTypeOrganization; TenantTypeProject; TenantTypeUser]
          -> False) as Hs.
  { intros Hin. apply Hn. rewrite !elem_of_cons in Hin.
    destruct Hin as [->|[->|[->|[->|?]]]]; simpl; set_solver. }
  split; [done|]. split; [|split; [|done]].
  - split; [intros ?; by exfalso; apply Hs|intros ?; by exfalso; apply Hn].
  - intros _ ?. by exfalso; apply Hs.
Qed.

Lemma NormalizeTenantType_canonical_witness :
  NormalizeTenantType "PROJECT" = NormalizeTenantType "project".
Proof.
  destruct (NormalizeTenantType_canonical "project" "PROJECT") as (_ & _ & H & _).
  apply H; [reflexivity|]. by apply (bool_decide_unpack _).
Defined.

(** Identifiers qualified with their federated source do not collide:
    when plane types and cluster names contain no slash, equal qualified
    identifiers come from the same plane, cluster and identifier. *)
Theorem PrefixWithSource_injective (p c i p' c' i' : string) :
  p <> "" -> c <> "" -> p' <> "" -> c' <> "" ->
  has_byte "/" p = false -> has_byte "/" c = false ->
  has_byte "/" p' = false -> has_byte "/" c' = false ->
  PrefixWithSource p c i = PrefixWithSource p' c' i' -> p = p' /\ c = c' /\ i = i'.
Proof.
  intros Hp%String.eqb_neq Hc%String.eqb_neq Hp'%String.eqb_neq Hc'%String.eqb_neq Sp Sc Sp' Sc'.
  unfold PrefixWithSource. rewrite Hp, Hc, Hp', Hc'. simpl orb. cbv iota.
  intros [-> H]%(sep_inj "/" _ _ (c +:+ "/" +:+ i) (c' +:+ "/" +:+ i')); [|done..].
  apply (sep_inj "/") in H as [-> ->]; done.
Qed.

Lemma PrefixWithSource_injective_witness :
  PrefixWithSource "edge" "dfw-1" "uid" = "edge/dfw-1/uid"
  /\ "edge" = "edge" /\ "dfw-1" = "dfw-1" /\ "uid" = "uid".
Proof.
  split; [reflexivity|].
  by apply (PrefixWithSource_injective "edge" "dfw-1" "uid" "edge" "dfw-1" "uid").
Defined.
