(* ===== verification/TimeUtil.v ===== *)
(** * internal/timeutil: flexible time expressions

    [ParseFlexibleTime], [ParseRelativeTime] and [applyOffset] of
    [internal/timeutil/timeutil.go], on instants of a location with a fixed
    offset (the service runs in UTC), with the [int64] arithmetic of
    [time.Duration] written out. *)

From Stdlib Require Import Ascii String.
From stdpp Require Import base numbers list strings pretty.
From Stdlib Require Import ZArith Lia.
From S2P Require Import Prelude GoLib.

Definition Second : Z := 1000000000.
Definition Minute : Z := 60 * Second.
Definition Hour : Z := 60 * Minute.

(** The last byte of a string and what precedes it. *)
Fixpoint split_last (s : string) : option (string * ascii) :=
  match s with
  | EmptyString => None
  | String a EmptyString => Some ("", a)
  | String a s' => option_map (fun '(r, z) => (String a r, z)) (split_last s')
  end.

Definition applyOffset (t : time) (offset : string) (sign : Z) : res time :=
  if (String.length offset <? 2)%nat
  then Err (Errorf [PStr "invalid duration: "; PStr offset;
                    PStr " (must be <number><unit>, e.g., '7d', '2h')"])
  else match split_last offset with
  | None => Panic "index out of range"
  | Some (valueStr, unit) =>
      match Sscanf_d valueStr with
      | None => Err (Errorf [PStr "invalid duration value: "; PStr offset;
                             PStr " (expected number before unit)"])
      | Some value =>
          if (value <? 0)%Z
          then Err (Errorf [PStr "invalid duration value: "; PStr offset;
                            PStr " (must be non-negative)"])
          else let v := wrap64 (sign * value) in
               if Ascii.eqb unit "d" then Ok (AddDays t v)
               else if Ascii.eqb unit "w" then Ok (AddDays t (wrap64 (v * 7)))
               else if Ascii.eqb unit "h" then Ok (Add t (wrap64 (v * Hour)))
               else if Ascii.eqb unit "m" then Ok (Add t (wrap64 (v * Minute)))
               else if Ascii.eqb unit "s" then Ok (Add t (wrap64 (v * Second)))
               else Err (Errorf [PStr "invalid duration unit: "; PStr (String unit "");
                                 PStr " (use s, m, h, d, or w)"])
      end
  end.

Definition ParseRelativeTime (expr : string) (now : time) : res time :=
  if (expr =? "now")%string then Ok now
  else if negb (HasPrefix expr "now-")
  then Err (Errorf [PStr "relative time must start with 'now' or 'now-' (e.g., 'now-7d'). Future times are not supported for audit log queries"])
  else applyOffset now (drop_str 4 expr) (-1).

Definition ParseFlexibleTime (timeStr : string) (now : time) : res time :=
  let? parsedTime :=
    match Parse_RFC3339 timeStr with
    | Some t => Ok t
    | None => if HasPrefix timeStr "now" then ParseRelativeTime timeStr now
              else Err (Errorf [PStr "invalid time format: "; PStr timeStr;
                     PStr " (use RFC3339 like '2024-01-01T00:00:00Z' or relative like 'now-7d')"])
    end in
  if After parsedTime now
  then Err (Errorf [PStr "time cannot be in the future: "; PStr timeStr;
                    PStr " (audit logs are historical records)"])
  else Ok parsedTime.

(** The units of a relative expression: byte and length in nanoseconds. *)
Inductive tunit := Us | Um | Uh | Ud | Uw.
Definition unit_char (u : tunit) : ascii :=
  match u with Us => "s" | Um => "m" | Uh => "h" | Ud => "d" | Uw => "w" end%char.
Definition unit_ns (u : tunit) : Z :=
  match u with Us => Second | Um => Minute | Uh => Hour
             | Ud => 24 * Hour | Uw => 7 * (24 * Hour) end.

(** The text ["now-<n><unit>"]. *)
Definition relative_expr (n : N) (u : tunit) : string :=
  "now-" +:+ pretty n +:+ String (unit_char u) "".

(* ------------------------------------------------------------------ *)
(** ** Lemmas *)

Lemma pretty_char_digit (d : N) : (d < 10)%N ->
  is_digit (pretty_N_char d) = true /\ digit_val (pretty_N_char d) = Z.of_N d.
Proof.
  intros Hd.
  assert (d = 0 \/ d = 1 \/ d = 2 \/ d = 3 \/ d = 4 \/ d = 5 \/ d = 6 \/ d = 7 \/ d = 8 \/ d = 9)%N
    as Hc by lia.
  repeat (destruct Hc as [->|Hc]; [by split|]). by subst.
Qed.

(** The decimal text of a number is digits only, and reads back. *)
Lemma pretty_go_spec (x : N) (s : string) : (0 < x)%N ->
  (all_bytes is_digit s = true -> all_bytes is_digit (pretty_N_go x s) = true)
  /\ dec_val 0 (pretty_N_go x s) = dec_val (Z.of_N x) s.
Proof.
  revert s. induction (N.lt_wf_0 x) as [x _ IH]; intros s Hx.
  rewrite pretty_N_go_step by done.
  pose proof (N.mod_lt x 10 ltac:(lia)) as Hm.
  pose proof (N.div_mod x 10 ltac:(lia)) as Hdm.
  destruct (pretty_char_digit (x mod 10) Hm) as [Hdig Hval].
  destruct (N.eq_dec (x / 10) 0) as [E|E].
  - rewrite E, pretty_N_go_0. split.
    + intros Hs. simpl. by rewrite Hdig.
    + simpl. rewrite Hval. f_equal. lia.
  - destruct (IH (x / 10)%N ltac:(apply N.div_lt; lia)
                (String (pretty_N_char (x mod 10)) s) ltac:(lia)) as [IH1 IH2].
    split.
    + intros Hs. apply IH1. simpl. by rewrite Hdig.
    + rewrite IH2. simpl. rewrite Hval. f_equal. lia.
Qed.

Lemma pretty_N_spec (x : N) :
  all_bytes is_digit (pretty x) = true /\ dec_val 0 (pretty x) = Z.of_N x /\ pretty x <> "".
Proof.
  unfold pretty, pretty_N. destruct (decide (x = 0)%N) as [->|Hx]; [done|].
  destruct (pretty_go_spec x "" ltac:(lia)) as [H1 H2]. split; [by apply H1|].
  split; [by rewrite H2|]. intros E. rewrite E in H2. simpl in H2. lia.
Qed.

Lemma span_digits_all (s : string) : all_bytes is_digit s = true -> span_digits s = (s, "").
Proof.
  induction s as [|a s IH]; [done|]. simpl.
  intros [-> Hs]%andb_true_iff. by rewrite IH.
Qed.

Lemma digit_not_special (a : ascii) : is_digit a = true ->
  is_space a = false /\ a <> ascii_of_nat 10 /\ a <> ascii_of_nat 13 /\ a <> "-"%char /\ a <> "+"%char.
Proof.
  destruct a as [[] [] [] [] [] [] [] []]; vm_compute; intros [=]; repeat split; discriminate.
Qed.

Lemma Sscanf_d_pretty (n : N) : (Z.of_N n <= int64_max)%Z ->
  Sscanf_d (pretty n) = Some (Z.of_N n).
Proof.
  intros Hn. destruct (pretty_N_spec n) as (Hd & Hv & Hne).
  unfold Sscanf_d. destruct (pretty n) as [|a s] eqn:E; [done|].
  pose proof Hd as Hd'. simpl in Hd. apply andb_true_iff in Hd as [Ha _].
  destruct (digit_not_special a Ha) as (Hsp & H10 & H13 & Hm & Hp).
  assert (skip_blanks (String a s) = Some (String a s)) as ->.
  { cbn [skip_blanks]. apply Ascii.eqb_neq in H10, H13. by rewrite H10, H13, Hsp. }
  assert (match String a s with
          | String "-" r => (true, r) | String "+" r => (false, r)
          | _ => (false, String a s) end = (false, String a s)) as ->.
  { destruct a as [[] [] [] [] [] [] [] []]; try reflexivity; congruence. }
  rewrite span_digits_all, Hv by done. cbn [String.eqb].
  destruct (String.eqb_spec (String a s) "") as [?|_]; [done|].
  assert ((int64_min <=? Z.of_N n)%Z = true) as -> by (apply Z.leb_le; unfold int64_min; lia).
  assert ((Z.of_N n <=? int64_max)%Z = true) as -> by (by apply Z.leb_le).
  done.
Qed.

Lemma split_last_app (s : string) (a : ascii) : split_last (s +:+ String a "") = Some (s, a).
Proof.
  induction s as [|b s IH]; [done|].
  change (String b s +:+ String a "") with (String b (s +:+ String a "")).
  destruct (s +:+ String a "") as [|c r] eqn:E; [by destruct s|].
  change (option_map (fun '(r0, z) => (String b r0, z)) (split_last (String c r))
          = Some (String b s, a)).
  by rewrite IH.
Qed.

Lemma relative_no_rfc (s : string) : Parse_RFC3339 ("now-" +:+ s) = None.
Proof. reflexivity. Qed.

(** A relative expression with a value an [int] holds reaches the arithmetic. *)
Lemma applyOffset_relative (now : time) (n : N) (u : tunit) :
  (Z.of_N n <= int64_max)%Z ->
  ParseRelativeTime (relative_expr n u) now =
  let v := wrap64 (- Z.of_N n) in
  Ok match u with
     | Ud => AddDays now v
     | Uw => AddDays now (wrap64 (v * 7))
     | Us => Add now (wrap64 (v * Second))
     | Um => Add now (wrap64 (v * Minute))
     | Uh => Add now (wrap64 (v * Hour))
     end.
Proof.
  intros Hn. destruct (pretty_N_spec n) as (_ & _ & Hne).
  unfold ParseRelativeTime, relative_expr.
  set (off := pretty n +:+ String (unit_char u) "").
  change (("now-" +:+ off =? "now")%string) with false.
  change (HasPrefix ("now-" +:+ off) "now-") with true. cbn [negb].
  change (drop_str 4 ("now-" +:+ off)) with off. unfold applyOffset.
  destruct (Nat.ltb_spec (String.length off) 2) as [Hl|_].
  { exfalso. unfold off in Hl. rewrite length_append in Hl.
    destruct (pretty n); [done|simpl in Hl; lia]. }
  unfold off. rewrite split_last_app, Sscanf_d_pretty by done.
  destruct (Z.ltb_spec (Z.of_N n) 0); [lia|].
  replace (-1 * Z.of_N n)%Z with (- Z.of_N n)%Z by lia.
  by destruct u.
Qed.

Lemma AddDays_exact (t n : Z) :
  (int64_min <= t / nano + n * 86400 <= int64_max)%Z ->
  AddDays t n = (t + n * 86400 * nano)%Z.
Proof.
  intros H. unfold AddDays. rewrite wrap64_id by done.
  pose proof (Z.div_mod t nano ltac:(done)). lia.
Qed.

(* ------------------------------------------------------------------ *)
(** ** Properties *)

Lemma ParseFlexibleTime_le (now : time) s t : ParseFlexibleTime s now = Ok t -> (t <= now)%Z.
Proof.
  unfold ParseFlexibleTime. intros (t' & _ & H)%res_bind_ok.
  unfold After in H. destruct (Z.ltb_spec now t'); [done|]. by injection H as <-.
Qed.

(** Whatever the expression, an instant [ParseFlexibleTime] accepts is not
    after [now]; and "now-<n><unit>" is accepted and means exactly [n] units
    before [now], as long as the offset fits a [time.Duration] and the result
    is not before the first representable second. *)
Theorem ParseFlexibleTime_past (now : time) :
  (forall s t, ParseFlexibleTime s now = Ok t -> (t <= now)%Z)
  /\ (forall n u, (0 <= now / nano <= int64_max)%Z -> (Z.of_N n * unit_ns u <= int64_max)%Z ->
      ParseFlexibleTime (relative_expr n u) now = Ok (now - Z.of_N n * unit_ns u)%Z).
Proof.
  split.
  - intros s t. apply ParseFlexibleTime_le.
  - intros n u Hs Hn. unfold ParseFlexibleTime.
    assert (Z.of_N n <= int64_max)%Z as Hn'.
    { destruct u; unfold unit_ns, Hour, Minute, Second, int64_max in *; lia. }
    change (Parse_RFC3339 (relative_expr n u)) with (@None time).
    change (HasPrefix (relative_expr n u) "now") with true. cbv iota.
    rewrite applyOffset_relative by done. cbv zeta. cbn [res_bind].
    assert (match u with
     | Ud => AddDays now (wrap64 (- Z.of_N n))
     | Uw => AddDays now (wrap64 (wrap64 (- Z.of_N n) * 7))
     | Us => Add now (wrap64 (wrap64 (- Z.of_N n) * Second))
     | Um => Add now (wrap64 (wrap64 (- Z.of_N n) * Minute))
     | Uh => Add now (wrap64 (wrap64 (- Z.of_N n) * Hour))
     end = now - Z.of_N n * unit_ns u)%Z as ->.
    { unfold unit_ns, Hour, Minute, Second in *. unfold Add.
      destruct u; rewrite ?(wrap64_id (- Z.of_N n)) by (unfold int64_min, int64_max in *; lia);
        rewrite ?wrap64_id by (unfold int64_min, int64_max in *; lia);
        rewrite ?AddDays_exact by (unfold int64_min, int64_max in *; lia);
        unfold nano; lia. }
    unfold After. destruct (Z.ltb_spec now (now - Z.of_N n * unit_ns u)) as [Hlt|_]; [|done].
    exfalso. assert (0 <= Z.of_N n * unit_ns u)%Z by (destruct u; unfold unit_ns, Hour, Minute, Second; lia).
    lia.
Qed.

Lemma ParseFlexibleTime_past_witness :
  ParseFlexibleTime "now-7d" (of_unix_nano 0) = Ok (of_unix_nano 0 - 7 * (24 * Hour))%Z.
Proof. apply (proj2 (ParseFlexibleTime_past (of_unix_nano 0)) 7%N Ud); by vm_compute. Defined.

(** An hour count whose nanoseconds do not fit 64 bits wraps around:
    "now-5124096h", 584 years, is accepted as 1526 seconds ago. *)
Lemma relative_hours_wrap (now : time) :
  ParseFlexibleTime "now-5124096h" now = Ok (now - 1526290448384)%Z.
Proof.
  unfold ParseFlexibleTime.
  change (Parse_RFC3339 "now-5124096h") with (@None time).
  change (HasPrefix "now-5124096h" "now") with true. cbv iota.
  change "now-5124096h" with (relative_expr 5124096 Uh) at 1.
  rewrite (applyOffset_relative now 5124096 Uh) by (by vm_compute).
  cbv zeta. cbn [res_bind]. unfold Add.
  change (wrap64 (wrap64 (- Z.of_N 5124096) * Hour)) with (-1526290448384)%Z.
  unfold After. destruct (Z.ltb_spec now (now + -1526290448384)); [lia|]. f_equal; lia.
Qed.
