(* ===== verification/CelPolicy.v ===== *)
(** * internal/cel: policy expressions

    Models [internal/cel/environment.go] (the variables a rule sees) and
    [internal/cel/policy.go] (validation and evaluation of match expressions
    and [{{ }}] summary templates).  The CEL implementation itself, cel-go, is
    a parameter: the class [CelEngine]. *)

From Stdlib Require Import Ascii String.
From stdpp Require Import base numbers list strings gmap.
From Stdlib Require Import ZArith Lia.
From S2P Require Import Prelude GoLib Types.

(** ** cel-go *)

Inductive cel_type := BoolType | StringType | DynType | IntType | TimestampType | ListType | MapType (k v : cel_type).
#[export] Instance cel_type_eq_dec : EqDecision cel_type.
Proof. solve_decision. Defined.

(** Options of [cel.NewEnv]: variables and functions. *)
Inductive cel_decl :=
| Variable_ (name : string) (ty : cel_type)
| Function_ (name overload : string) (args : list cel_type) (result : cel_type).

(** The dynamic type of a value handed to a bound function: a Go map, a CEL
    map (keys and values already unwrapped by [Value()]), or anything else. *)
Inductive link_arg :=
| GoMap (m : gomap)
| RefMap (kvs : list (any * any))
| OtherArg.

(** cel-go: compile against declarations, type of the checked expression,
    program construction and evaluation.  Evaluation yields the calls made to
    the bound function [link], in order, and the result. *)
Class CelEngine := {
  cel_ast : Type;
  cel_program : Type;
  cel_NewEnv : list cel_decl -> error + unit;
  cel_Compile : list cel_decl -> string -> error + cel_ast;
  cel_OutputType : cel_ast -> cel_type;
  cel_Program : list cel_decl -> cel_ast -> error + cel_program;
  cel_Eval : cel_program -> gomap -> list (string * link_arg) * (error + any);
  go_fmt_v : any -> string  (* fmt.Sprintf("%v", x) *)
}.

(** ** policy.go: links *)

Record Link := { Marker : string; Resource : gomap }.

(** [linkCollector.addLink], appending to the collector's slice. *)
Definition addLink (links : list Link) (displayText : string) (resource : link_arg) : list Link :=
  match resource with
  | GoMap m => links ++ [{| Marker := displayText; Resource := m |}]
  | RefMap kvs =>
      let goMap := fold_left (fun acc '(k, v) => match k with
                                               | AStr s => <[s := v]> acc
                                               | _ => acc
                                               end) kvs (∅ : gomap) in
      links ++ [{| Marker := displayText; Resource := goMap |}]
  | OtherArg => links
  end.

(** ** environment.go *)

(** An environment: its declarations, and whether [link] has a collector. *)
Record cel_env := { env_decls : list cel_decl; env_collects : bool }.

Definition link_decl : cel_decl :=
  Function_ "link" "link_string_dyn" [StringType; DynType] StringType.

Section Env.
Context `{CelEngine}.

Definition NewAuditEnvironment (collector : bool) : res cel_env :=
  let actorRefType := MapType StringType DynType in
  let decls := [Variable_ "audit" (MapType StringType DynType);
                Variable_ "actor" StringType;
                Variable_ "actorRef" actorRefType;
                Variable_ "kind" StringType;
                link_decl] in
  let? _ := of_sum (cel_NewEnv decls) in
  Ok {| env_decls := decls; env_collects := collector |}.

Definition NewEventEnvironment (collector : bool) : res cel_env :=
  let eventType := MapType StringType DynType in
  let actorRefType := MapType StringType DynType in
  let sourceType := MapType StringType StringType in
  let decls := [Variable_ "event" eventType;
                Variable_ "actor" StringType;
                Variable_ "actorRef" actorRefType;
                Variable_ "source" sourceType;
                link_decl] in
  let? _ := of_sum (cel_NewEnv decls) in
  Ok {| env_decls := decls; env_collects := collector |}.

(** [prg.Eval(vars)] in an environment: the bound [link] forwards each call to
    the collector when there is one. *)
Definition env_Eval (env : cel_env) (prg : cel_program) (vars : gomap) (links : list Link)
  : list Link * (error + any) :=
  let (calls, out) := cel_Eval prg vars in
  (if env_collects env then fold_left (fun ls '(text, r) => addLink ls text r) calls links
   else links, out).

Definition auditEnvironment (collector : bool) : res cel_env := NewAuditEnvironment collector.
Definition eventEnvironment (collector : bool) : res cel_env := NewEventEnvironment collector.
End Env.

Fixpoint ExtractString (m : gomap) (keys : list string) : string :=
  match keys with
  | [] => ""
  | [key] => default "" (as_string (m !! key))
  | key :: rest =>
      match as_map (m !! key) with
      | Some nested => ExtractString nested rest
      | None => ""
      end
  end.

Fixpoint ExtractMap (m : gomap) (keys : list string) : gomap :=
  match keys with
  | [] => m
  | key :: rest =>
      match as_map (m !! key) with
      | Some nested => ExtractMap nested rest
      | None => ∅
      end
  end.

Definition BuildActorRef (auditMap : gomap) : gomap :=
  let username := ExtractString auditMap ["user"; "username"] in
  if (username =? "")%string
  then <["type" := AStr "unknown"]> (<["name" := AStr ""]> ∅)
  else
    let actorType :=
      if HasPrefix username "system:serviceaccount:" then "serviceaccount"
      else if HasPrefix username "system:" then "system" else "user" in
    <["type" := AStr actorType]> (<["name" := AStr username]> ∅).

Definition ExtractEventActor (eventMap : gomap) : string :=
  let controller := ExtractString eventMap ["reportingController"] in
  if negb (controller =? "")%string then controller
  else ExtractString eventMap ["source"; "component"].

Definition BuildEventActorRef (eventMap : gomap) : gomap :=
  let controller := ExtractEventActor eventMap in
  <["type" := AStr "controller"]> (<["name" := AStr controller]> ∅).

Definition BuildEventSourceVars (eventMap : gomap) : gomap :=
  let annotations := ExtractMap eventMap ["metadata"; "annotations"] in
  <["planeType" := AStr (ExtractString annotations [SourcePlaneTypeAnnotation])]>
  (<["cluster" := AStr (ExtractString annotations [SourceClusterAnnotation])]>
  (<["region" := AStr (ExtractString annotations [SourceRegionAnnotation])]>
  (<["city" := AStr (ExtractString annotations [SourceCityAnnotation])]> ∅))).

Definition audit_default_fields : list string :=
  ["objectRef"; "user"; "responseStatus"; "responseObject"; "requestObject"].

(** The copy of the audit map, then the loop that adds the missing maps. *)
Definition audit_with_defaults (auditMap : gomap) : gomap :=
  fold_left (fun m field => match m !! field with
                          | Some _ => m
                          | None => <[field := AMap ∅]> m
                          end) audit_default_fields auditMap.

Definition BuildAuditVars (auditMap : gomap) : gomap :=
  let auditWithDefaults := audit_with_defaults auditMap in
  let vars := <["audit" := AMap auditWithDefaults]>
              (<["actor" := AStr (ExtractString auditMap ["user"; "username"])]>
              (<["actorRef" := AMap (BuildActorRef auditMap)]> ∅)) in
  match as_map (auditWithDefaults !! "objectRef") with
  | Some objRef =>
      match as_string (objRef !! "resource") with
      | Some kind => <["kind" := AStr kind]> vars
      | None => <["kind" := AStr ""]> vars
      end
  | None => <["kind" := AStr ""]> vars
  end.

Definition BuildEventVars (eventMap : gomap) : gomap :=
  <["event" := AMap eventMap]>
  (<["actor" := AStr (ExtractEventActor eventMap)]>
  (<["actorRef" := AMap (BuildEventActorRef eventMap)]>
  (<["source" := AMap (BuildEventSourceVars eventMap)]> ∅))).

(** ** policy.go: the template expression

    [\{\{\s*(.+?)\s*\}\}] with Go's leftmost-first semantics: blanks greedily
    (giving some back when nothing else matches), then the shortest non-empty
    run of non-newline bytes that blanks and [}}] can follow. *)

(** [\s] *)
Definition re_space (a : ascii) : bool :=
  let n := nat_of_ascii a in
  (Nat.eqb n 9 || Nat.eqb n 10 || Nat.eqb n 12 || Nat.eqb n 13 || Nat.eqb n 32)%bool.

(** [\s*\}\}]: what follows it. *)
Fixpoint close_delim (s : string) : option string :=
  match s with
  | EmptyString => None
  | String a s' =>
      if Ascii.eqb a "}" then match s' with
                              | String b r => if Ascii.eqb b "}" then Some r else None
                              | EmptyString => None
                              end
      else if re_space a then close_delim s' else None
  end.

(** [(.+?)\s*\}\}]: the group and what follows the match. *)
Fixpoint lazy_group (s : string) : option (string * string) :=
  match s with
  | EmptyString => None
  | String a s' =>
      if Ascii.eqb a (ascii_of_nat 10) then None
      else match close_delim s' with
           | Some r => Some (String a "", r)
           | None => '(g, r) ← lazy_group s'; Some (String a g, r)
           end
  end.

(** [\s*(.+?)\s*\}\}] *)
Fixpoint group_after_blanks (s : string) : option (string * string) :=
  match s with
  | EmptyString => None
  | String a s' =>
      if re_space a
      then match group_after_blanks s' with
           | Some x => Some x
           | None => lazy_group s
           end
      else lazy_group s
  end.

(** The whole expression at the front of a string. *)
Definition template_at (s : string) : option (string * string) :=
  match s with
  | String a (String b s') =>
      if (Ascii.eqb a "{" && Ascii.eqb b "{")%bool then group_after_blanks s' else None
  | _ => None
  end.

(** A piece of a template: a byte outside every match, or a match with its
    first group. *)
Inductive tpiece := TByte (a : ascii) | TExpr (mtext group : string).

(** All non-overlapping matches, left to right; every step consumes at least
    one byte, so [String.length s] steps are enough. *)
Fixpoint template_scan (fuel : nat) (s : string) : list tpiece :=
  match fuel, s with
  | O, _ | _, EmptyString => []
  | S f, String a s' =>
      match template_at s with
      | Some (g, r) =>
          TExpr (take_str (String.length s - String.length r) s) g :: template_scan f r
      | None => TByte a :: template_scan f s'
      end
  end.
Definition template_pieces (s : string) : list tpiece := template_scan (String.length s) s.

(** [FindAllStringSubmatch(s, -1)]: text and group of each match. *)
Definition summary_matches (s : string) : list (string * string) :=
  omap (fun p => match p with TExpr m g => Some (m, g) | TByte _ => None end) (template_pieces s).

(** [strings.Count(s, "xx")] for a doubled byte: non-overlapping. *)
Fixpoint count_pairs (c : ascii) (s : string) : nat :=
  match s with
  | String a ((String b s'') as s') =>
      if (Ascii.eqb a c && Ascii.eqb b c)%bool then S (count_pairs c s'') else count_pairs c s'
  | _ => O
  end.

(** ** policy.go: validation *)

Inductive PolicyExpressionType := MatchExpression | SummaryExpression | OtherExpression (s : string).
Inductive PolicyRuleType := AuditRule | EventRule | OtherRule (s : string).

Definition formatPolicyError (err : error) (context : string) : error :=
  let errStr := error_text err in
  if Contains errStr "undeclared reference"
  then Errorf [PStr "invalid "; PStr context; PStr " expression: "; PStr errStr;
               PStr ". For audit rules: audit.verb, audit.objectRef, audit.user, audit.responseStatus, audit.responseObject, audit.requestObject, actor, actorRef, kind. For event rules: event.reason, event.type, event.regarding.name, actor, actorRef. Also available: link(displayText, resourceRef)"]
  else if Contains errStr "found no matching overload"
  then Errorf [PStr "invalid "; PStr context; PStr " expression: function call error - ";
               PStr errStr; PStr ". Available function: link(displayText, resourceRef)"]
  else Errorf [PStr "invalid "; PStr context; PStr " expression: "; PStr errStr].

Section Policy.
Context `{CelEngine}.

Definition validateMatchExpression (env : cel_env) (expression : string) : res unit :=
  let? ast := wrap_err (of_sum (cel_Compile (env_decls env) expression))
                (fun e => formatPolicyError e "match") in
  if bool_decide (cel_OutputType ast = BoolType) then Ok tt
  else Err (Errorf [PStr "match expression must return a boolean"]).

(** One iteration of the loop over the embedded expressions. *)
Definition validate_embedded (env : cel_env) (mg : string * string) : res unit :=
  let embeddedExpr := TrimSpace (snd mg) in
  if (embeddedExpr =? "")%string
  then Err (Errorf [PStr "empty expression in template: "; PStr (fst mg)])
  else
    let? ast := wrap_err (of_sum (cel_Compile (env_decls env) embeddedExpr))
                  (fun e => formatPolicyError e "summary") in
    if bool_decide (cel_OutputType ast = StringType \/ cel_OutputType ast = DynType) then Ok tt
    else Err (Errorf [PStr "expression '{{ "; PStr embeddedExpr;
                      PStr " }}' in summary must return a string"]).

Fixpoint validate_all (env : cel_env) (ms : list (string * string)) : res unit :=
  match ms with
  | [] => Ok tt
  | m :: ms' => let? _ := validate_embedded env m in validate_all env ms'
  end.

Definition validateSummaryExpression (env : cel_env) (expression : string) : res unit :=
  if negb (Nat.eqb (count_pairs "{" expression) (count_pairs "}" expression))
  then Err (Errorf [PStr "error compiling template: missing closing delimiter"])
  else validate_all env (summary_matches expression).

Definition ValidatePolicyExpression (expression : string) (exprType : PolicyExpressionType)
    (ruleType : PolicyRuleType) : res unit :=
  if (expression =? "")%string then Err (Errorf [PStr "expression cannot be empty"])
  else match ruleType with
  | OtherRule s => Err (Errorf [PStr "unknown rule type: "; PStr s])
  | _ =>
      let? env := wrap_err (match ruleType with
                            | AuditRule => auditEnvironment false
                            | _ => eventEnvironment false
                            end)
                    (fun e => Errorf [PStr "failed to create CEL environment: "; PWrap e]) in
      match exprType with
      | MatchExpression => validateMatchExpression env expression
      | SummaryExpression => validateSummaryExpression env expression
      | OtherExpression s => Err (Errorf [PStr "unknown expression type: "; PStr s])
      end
  end.

(** ** policy.go: evaluation *)

Definition eval_match (env : res cel_env) (envErr : string) (expression : string) (vars : gomap)
  : res bool :=
  let? env := wrap_err env (fun e => Errorf [PStr envErr; PWrap e]) in
  let? ast := wrap_err (of_sum (cel_Compile (env_decls env) expression))
                (fun e => Errorf [PStr "failed to compile match expression: "; PWrap e]) in
  let? prg := wrap_err (of_sum (cel_Program (env_decls env) ast))
                (fun e => Errorf [PStr "failed to create program: "; PWrap e]) in
  let? out := wrap_err (of_sum (snd (env_Eval env prg vars [])))
                (fun e => Errorf [PStr "failed to evaluate match expression: "; PWrap e]) in
  match out with
  | ABool b => Ok b
  | _ => Err (Errorf [PStr "match expression did not return a boolean"])
  end.

Definition EvaluateAuditMatchMap (expression : string) (auditMap : gomap) : res bool :=
  eval_match (auditEnvironment false) "failed to create audit environment: " expression
    (BuildAuditVars auditMap).

Definition EvaluateEventMatch (expression : string) (event : gomap) : res bool :=
  eval_match (eventEnvironment false) "failed to create event environment: " expression
    (BuildEventVars event).

(** [cel.toMap]: only a [map[string]any] is accepted. *)
Definition toMap (v : any) : res gomap :=
  match v with
  | AMap m => Ok m
  | _ => Err (Errorf [PStr "unsupported type for map conversion"])
  end.

Definition EvaluateAuditMatch (expression : string) (audit : any) : res bool :=
  let? auditMap := wrap_err (toMap audit)
                     (fun e => Errorf [PStr "failed to convert audit to map: "; PWrap e]) in
  EvaluateAuditMatchMap expression auditMap.

(** State of [evaluateSummaryTemplate]: [evalErrors] and the collector. *)
Record tstate := { evalErrors : list error; clinks : list Link }.

(** The function given to [ReplaceAllStringFunc]. *)
Definition replace_expr (env : cel_env) (vars : gomap) (st : tstate) (match_ : string)
  : string * tstate :=
  match template_at match_ with
  | None => (match_, st)
  | Some (sub, _) =>
      let expr := TrimSpace sub in
      let fail st what e :=
        ("[ERROR: " +:+ error_text e +:+ "]",
         {| evalErrors := evalErrors st ++ [Errorf [PStr what; PStr expr; PStr ": "; PWrap e]];
            clinks := clinks st |}) in
      match cel_Compile (env_decls env) expr with
      | inl e => fail st "compile " e
      | inr ast =>
          match cel_Program (env_decls env) ast with
          | inl e => fail st "program " e
          | inr prg =>
              let (links', out) := env_Eval env prg vars (clinks st) in
              let st' := {| evalErrors := evalErrors st; clinks := links' |} in
              match out with
              | inl e => fail st' "eval " e
              | inr v => (go_fmt_v v, st')
              end
          end
      end
  end.

(** [ReplaceAllStringFunc] over the pieces of the template. *)
Fixpoint replace_pieces (env : cel_env) (vars : gomap) (st : tstate) (ps : list tpiece)
  : string * tstate :=
  match ps with
  | [] => ("", st)
  | TByte a :: ps' => let (r, st') := replace_pieces env vars st ps' in (String a r, st')
  | TExpr m _ :: ps' =>
      let (t, st1) := replace_expr env vars st m in
      let (r, st2) := replace_pieces env vars st1 ps' in (t +:+ r, st2)
  end.

Definition evaluateSummaryTemplate (env : cel_env) (template : string) (vars : gomap)
  : list Link * res string :=
  let (result, st) := replace_pieces env vars {| evalErrors := []; clinks := [] |}
                        (template_pieces template) in
  (clinks st,
   match evalErrors st with
   | [] => Ok result
   | es => Err (Errorf [PStr "summary template evaluation failed: "; PWrap (Join es)])
   end).

Definition eval_summary (env : res cel_env) (envErr : string) (template : string) (vars : gomap)
  : res (string * list Link) :=
  let? env := wrap_err env (fun e => Errorf [PStr envErr; PWrap e]) in
  let (links, r) := evaluateSummaryTemplate env template vars in
  let? result := r in Ok (result, links).

Definition EvaluateAuditSummaryMap (template : string) (auditMap : gomap) : res (string * list Link) :=
  eval_summary (auditEnvironment true) "failed to create audit environment: " template
    (BuildAuditVars auditMap).

Definition EvaluateEventSummary (template : string) (event : gomap) : res (string * list Link) :=
  eval_summary (eventEnvironment true) "failed to create event environment: " template
    (BuildEventVars event).

Definition EvaluateAuditSummary (template : string) (audit : any) : res (string * list Link) :=
  let? auditMap := wrap_err (toMap audit)
                     (fun e => Errorf [PStr "failed to convert audit to map: "; PWrap e]) in
  EvaluateAuditSummaryMap template auditMap.
End Policy.

(* ------------------------------------------------------------------ *)
(** ** Lemmas: the template expression *)

Lemma close_delim_app (m r r' : string) :
  close_delim m = Some r' -> close_delim (m +:+ r) = Some (r' +:+ r).
Proof.
  induction m as [|a m IH]; [done|]. cbn [close_delim String.append].
  destruct (Ascii.eqb a "}").
  - destruct m as [|b m]; [done|]. cbn [String.append].
    destruct (Ascii.eqb b "}"); [by intros [= ->]|done].
  - destruct (re_space a); [exact IH|done].
Qed.

(** A successful [\s*}}] reads a prefix that matches on its own. *)
Lemma close_delim_split (s r : string) :
  close_delim s = Some r -> exists m, s = m +:+ r /\ close_delim m = Some "".
Proof.
  induction s as [|a s IH]; [done|]. cbn [close_delim].
  destruct (Ascii.eqb a "}") eqn:Ea.
  - destruct s as [|b s]; [done|]. destruct (Ascii.eqb b "}") eqn:Eb; [|done].
    intros [= ->]. exists (String a (String b "")). split; [done|].
    cbn [close_delim]. by rewrite Ea, Eb.
  - destruct (re_space a) eqn:E; [|done]. intros H.
    destruct (IH H) as (m & -> & Hm). exists (String a m). split; [done|].
    cbn [close_delim]. by rewrite Ea, E.
Qed.

Lemma close_delim_prefix_none (m r : string) :
  close_delim (m +:+ r) = None -> close_delim m = None.
Proof.
  intros H. destruct (close_delim m) eqn:E; [|done].
  by rewrite (close_delim_app m r s E) in H.
Qed.

Lemma lazy_group_split (s g r : string) :
  lazy_group s = Some (g, r) -> exists m, s = m +:+ r /\ lazy_group m = Some (g, "").
Proof.
  revert g. induction s as [|a s IH]; intros g; [done|]. cbn [lazy_group].
  destruct (Ascii.eqb a (ascii_of_nat 10)) eqn:En; [done|].
  destruct (close_delim s) as [r'|] eqn:Ec.
  - intros [= <- <-]. destruct (close_delim_split _ _ Ec) as (m & -> & Hm).
    exists (String a m). split; [done|]. cbn [lazy_group]. by rewrite En, Hm.
  - destruct (lazy_group s) as [[g' r']|] eqn:El; [|done].
    intros [= <- <-]. destruct (IH g' eq_refl) as (m & -> & Hm).
    exists (String a m). split; [done|]. cbn [lazy_group].
    by rewrite En, (close_delim_prefix_none _ _ Ec), Hm.
Qed.

Lemma lazy_group_app (m r : string) :
  is_Some (lazy_group m) -> is_Some (lazy_group (m +:+ r)).
Proof.
  induction m as [|a m IH]; [by intros [? ?]|]. cbn [lazy_group String.append].
  destruct (Ascii.eqb a (ascii_of_nat 10)); [done|].
  destruct (close_delim m) as [r'|] eqn:Ec.
  - rewrite (close_delim_app _ r _ Ec). eauto.
  - destruct (close_delim (m +:+ r)); [eauto|].
    destruct (lazy_group m) as [[? ?]|]; [|by intros [? ?]].
    intros _. destruct IH as [[? ?] ->]; eauto.
Qed.

Lemma group_after_blanks_app (m r : string) :
  is_Some (group_after_blanks m) -> is_Some (group_after_blanks (m +:+ r)).
Proof.
  induction m as [|a m IH]; [by intros [? ?]|].
  cbn [group_after_blanks String.append]. destruct (re_space a); [|apply (lazy_group_app (String a m))].
  destruct (group_after_blanks m) as [x|]; intros H.
  - destruct IH as [y ->]; eauto.
  - destruct (group_after_blanks (m +:+ r)); [eauto|]. by apply (lazy_group_app (String a m)).
Qed.

Lemma group_after_blanks_split (s g r : string) :
  group_after_blanks s = Some (g, r) ->
  exists m, s = m +:+ r /\ group_after_blanks m = Some (g, "").
Proof.
  induction s as [|a s IH]; [done|]. cbn [group_after_blanks].
  assert (forall x, lazy_group (String a s) = Some x -> x = (g, r) ->
    (re_space a = true -> group_after_blanks s = None) ->
    exists m, String a s = m +:+ r /\ group_after_blanks m = Some (g, "")) as Hlazy.
  { intros x Hl -> Hn. destruct (lazy_group_split _ _ _ Hl) as (m & E & Hm).
    exists m. split; [done|]. destruct m as [|b m]; [done|].
    injection E as <- ->. cbn [group_after_blanks]. destruct (re_space a); [|done].
    destruct (group_after_blanks m) eqn:Eg; [|done].
    destruct (group_after_blanks_app m r) as [y Hy]; [by rewrite Eg|].
    by rewrite (Hn eq_refl) in Hy. }
  destruct (re_space a) eqn:E.
  - destruct (group_after_blanks s) as [x|] eqn:Eg.
    + intros [= ->]. destruct (IH eq_refl) as (m & -> & Hm).
      exists (String a m). split; [done|]. cbn [group_after_blanks]. by rewrite E, Hm.
    + intros Hl. by eapply Hlazy.
  - intros Hl. by eapply Hlazy.
Qed.

(** [FindStringSubmatch] on the text of a match finds the same group. *)
Lemma template_at_again (s g r : string) :
  template_at s = Some (g, r) ->
  let m := take_str (String.length s - String.length r) s in
  s = m +:+ r /\ template_at m = Some (g, "").
Proof.
  intros H. destruct s as [|a [|b s]]; [done|done|]. cbn [template_at] in H.
  destruct (Ascii.eqb a "{" && Ascii.eqb b "{")%bool eqn:E; [|done].
  destruct (group_after_blanks_split _ _ _ H) as (m & -> & Hm). cbv zeta.
  change (String a (String b (m +:+ r))) with (String a (String b m) +:+ r).
  rewrite length_append, Nat.add_sub, take_str_append.
  cbn [template_at]. by rewrite E.
Qed.

Lemma template_scan_groups (n : nat) (s m g : string) :
  TExpr m g ∈ template_scan n s -> template_at m = Some (g, "").
Proof.
  revert s. induction n as [|n IH]; intros s; [destruct s; set_solver|].
  destruct s as [|a s]; [set_solver|]. cbn [template_scan].
  destruct (template_at (String a s)) as [[g' r]|] eqn:E; rewrite elem_of_cons.
  - intros [[= -> ->]|?]; [|eauto]. exact (proj2 (template_at_again _ _ _ E)).
  - intros [?|?]; [done|eauto].
Qed.

(** The pure meaning of one piece of a template: the [link] calls it makes and
    its text or its error. *)
Definition piece_outcome `{CelEngine} (env : cel_env) (vars : gomap) (p : tpiece)
  : list (string * link_arg) * (error + string) :=
  match p with
  | TByte a => ([], inr (String a ""))
  | TExpr _ g =>
      let expr := TrimSpace g in
      let bad what e := inl (Errorf [PStr what; PStr expr; PStr ": "; PWrap e]) in
      match cel_Compile (env_decls env) expr with
      | inl e => ([], bad "compile " e)
      | inr ast =>
          match cel_Program (env_decls env) ast with
          | inl e => ([], bad "program " e)
          | inr prg =>
              let (calls, out) := cel_Eval prg vars in
              (calls, match out with inl e => bad "eval " e | inr v => inr (go_fmt_v v) end)
          end
      end
  end.

Definition outcome_errors (os : list (list (string * link_arg) * (error + string))) : list error :=
  omap (fun o => match snd o with inl e => Some e | inr _ => None end) os.
Definition outcome_texts (os : list (list (string * link_arg) * (error + string))) : list string :=
  omap (fun o => match snd o with inl _ => None | inr t => Some t end) os.
Definition outcome_links (os : list (list (string * link_arg) * (error + string))) (links : list Link)
  : list Link :=
  fold_left (fun ls '(text, r) => addLink ls text r) (concat (map fst os)) links.

Section PolicyLemmas.
Context `{CelEngine}.

Lemma concat_cons (s : string) (l : list string) :
  String.concat "" (s :: l) = s +:+ String.concat "" l.
Proof. destruct l; [by rewrite append_nil_r|done]. Qed.

Lemma outcome_links_cons o os links :
  outcome_links (o :: os) links
  = outcome_links os (fold_left (fun ls '(text, r) => addLink ls text r) (fst o) links).
Proof. unfold outcome_links. simpl. by rewrite fold_left_app. Qed.

(** [replace_expr] does to the state what the outcome of the piece says. *)
Lemma replace_expr_outcome (env : cel_env) (vars : gomap) (st : tstate) (m g : string) :
  env_collects env = true -> template_at m = Some (g, "") ->
  let o := piece_outcome env vars (TExpr m g) in
  let (t, st') := replace_expr env vars st m in
  clinks st' = fold_left (fun ls '(text, r) => addLink ls text r) (fst o) (clinks st)
  /\ match snd o with
     | inl e => evalErrors st' = evalErrors st ++ [e]
     | inr t' => evalErrors st' = evalErrors st /\ t = t'
     end.
Proof.
  intros Hc Hm. cbv zeta. unfold replace_expr, piece_outcome, env_Eval.
  rewrite Hm, Hc.
  destruct (cel_Compile (env_decls env) (TrimSpace g)) as [e|ast]; [done|].
  destruct (cel_Program (env_decls env) ast) as [e|prg]; [done|].
  by destruct (cel_Eval prg vars) as [calls [e|v]].
Qed.

Lemma replace_pieces_outcomes (env : cel_env) (vars : gomap) (ps : list tpiece) (st : tstate) :
  env_collects env = true ->
  (forall m g, TExpr m g ∈ ps -> template_at m = Some (g, "")) ->
  let os := map (piece_outcome env vars) ps in
  let (t, st') := replace_pieces env vars st ps in
  clinks st' = outcome_links os (clinks st)
  /\ evalErrors st' = evalErrors st ++ outcome_errors os
  /\ (outcome_errors os = [] -> t = String.concat "" (outcome_texts os)).
Proof.
  intros Hc. revert st. induction ps as [|p ps IH]; intros st Hm; cbv zeta.
  - simpl. by rewrite app_nil_r.
  - assert (forall m g, TExpr m g ∈ ps -> template_at m = Some (g, "")) as Hm'
      by (intros; apply Hm; set_solver).
    cbn [map]. rewrite outcome_links_cons. destruct p as [a|m g]; cbn [replace_pieces].
    + specialize (IH st Hm'). cbv zeta in IH.
      destruct (replace_pieces env vars st ps) as [t st'].
      destruct IH as (-> & -> & Ht). split; [done|]. split; [done|].
      intros E. unfold outcome_texts. cbn [omap list_omap piece_outcome snd].
      change (omap _ (map (piece_outcome env vars) ps))
        with (outcome_texts (map (piece_outcome env vars) ps)).
      by rewrite concat_cons, <- Ht.
    + pose proof (replace_expr_outcome env vars st m g Hc (Hm m g ltac:(set_solver))) as Ho.
      cbv zeta in Ho. destruct (replace_expr env vars st m) as [t st1].
      specialize (IH st1 Hm'). cbv zeta in IH.
      destruct (replace_pieces env vars st1 ps) as [r st2].
      destruct Ho as [Hl Ho]. destruct IH as (-> & -> & Hr). rewrite Hl.
      split; [done|]. unfold outcome_errors, outcome_texts in *.
      set (o := piece_outcome env vars (TExpr m g)) in *. cbn [omap list_omap].
      destruct (snd o) as [e|t'].
      * rewrite Ho, <- app_assoc. by split.
      * destruct Ho as [-> ->]. split; [done|]. intros E.
        by rewrite concat_cons, <- Hr.
Qed.

Lemma template_pieces_groups (t m g : string) :
  TExpr m g ∈ template_pieces t -> template_at m = Some (g, "").
Proof. apply template_scan_groups. Qed.

Lemma summary_matches_in (t m g : string) :
  (m, g) ∈ summary_matches t <-> TExpr m g ∈ template_pieces t.
Proof.
  unfold summary_matches. rewrite list_elem_of_omap. split.
  - intros ([?|? ?] & Hin & [=]); by subst.
  - intros Hin. by exists (TExpr m g).
Qed.

Lemma validate_all_in (env : cel_env) ms :
  validate_all env ms = Ok tt <-> (forall x, x ∈ ms -> validate_embedded env x = Ok tt).
Proof.
  induction ms as [|m ms IH]; cbn [validate_all].
  - split; [set_solver|done].
  - rewrite res_bind_ok. setoid_rewrite IH. setoid_rewrite elem_of_cons. split.
    + intros ([] & Hm & Hms) x [->|?]; auto.
    + intros Hx. exists tt. auto.
Qed.

Lemma validate_embedded_ok (env : cel_env) m g :
  validate_embedded env (m, g) = Ok tt ->
  exists ast, cel_Compile (env_decls env) (TrimSpace g) = inr ast
    /\ (cel_OutputType ast = StringType \/ cel_OutputType ast = DynType).
Proof.
  unfold validate_embedded. cbn [fst snd].
  destruct (TrimSpace g =? "")%string; [done|].
  destruct (cel_Compile (env_decls env) (TrimSpace g)) as [e|ast]; [done|].
  cbn [of_sum wrap_err res_bind].
  destruct (bool_decide _) eqn:E; [|done]. apply bool_decide_eq_true in E. eauto.
Qed.

Lemma validateMatchExpression_ok (env : cel_env) (e : string) :
  validateMatchExpression env e = Ok tt ->
  exists ast, cel_Compile (env_decls env) e = inr ast /\ cel_OutputType ast = BoolType.
Proof.
  unfold validateMatchExpression.
  destruct (cel_Compile (env_decls env) e) as [er|ast]; [done|].
  cbn [of_sum wrap_err res_bind].
  destruct (bool_decide _) eqn:E; [|done]. apply bool_decide_eq_true in E. eauto.
Qed.

(** The environments of validation and of evaluation declare the same things. *)
Lemma audit_env_decls (b b' : bool) env :
  auditEnvironment b = Ok env ->
  exists env', auditEnvironment b' = Ok env' /\ env_decls env' = env_decls env
    /\ env_collects env' = b'.
Proof.
  unfold auditEnvironment, NewAuditEnvironment. destruct (cel_NewEnv _); [done|].
  cbn. intros [= <-]. eexists; split; [reflexivity|done].
Qed.

Lemma event_env_decls (b b' : bool) env :
  eventEnvironment b = Ok env ->
  exists env', eventEnvironment b' = Ok env' /\ env_decls env' = env_decls env
    /\ env_collects env' = b'.
Proof.
  unfold eventEnvironment, NewEventEnvironment. destruct (cel_NewEnv _); [done|].
  cbn. intros [= <-]. eexists; split; [reflexivity|done].
Qed.

Lemma ValidatePolicyExpression_env e et rt :
  ValidatePolicyExpression e et rt = Ok tt ->
  exists env, (rt = AuditRule /\ auditEnvironment false = Ok env
               \/ rt = EventRule /\ eventEnvironment false = Ok env)
    /\ (et = MatchExpression /\ validateMatchExpression env e = Ok tt
        \/ et = SummaryExpression /\ validateSummaryExpression env e = Ok tt).
Proof.
  unfold ValidatePolicyExpression. destruct (e =? "")%string; [done|].
  destruct rt; [..|done]; intros (env & Henv%wrap_err_ok & He)%res_bind_ok;
    exists env; destruct et; try done; eauto 10.
Qed.

(** A validated match expression compiles in the evaluation environment. *)
Lemma eval_match_validated (env : cel_env) msg e vars ast :
  (forall ast prg vars v, cel_OutputType ast = BoolType ->
     cel_Program (env_decls env) ast = inr prg ->
     snd (cel_Eval prg vars) = inr v -> exists b, v = ABool b) ->
  cel_Compile (env_decls env) e = inr ast -> cel_OutputType ast = BoolType ->
  (exists b, eval_match (Ok env) msg e vars = Ok b)
  \/ (exists e', eval_match (Ok env) msg e vars
                 = Err (Errorf [PStr "failed to create program: "; PWrap e']))
  \/ (exists e', eval_match (Ok env) msg e vars
                 = Err (Errorf [PStr "failed to evaluate match expression: "; PWrap e'])).
Proof.
  intros Hbool Hast Hty. unfold eval_match, env_Eval. cbn [wrap_err res_bind].
  rewrite Hast. cbn [of_sum wrap_err res_bind].
  destruct (cel_Program (env_decls env) ast) as [ep|prg] eqn:Hp; [eauto|].
  cbn [of_sum wrap_err res_bind]. specialize (Hbool ast prg vars).
  destruct (cel_Eval prg vars) as [calls [ev|v]] eqn:Hv; cbn in *; [eauto|].
  destruct (Hbool v Hty Hp eq_refl) as [b ->]. eauto.
Qed.
End PolicyLemmas.

(** A small engine for the examples: names of variables, [true], [link] (one
    call on the actor reference) and [fail]. *)
Module ToyCel.
Definition toy_eval (p : string) (vars : gomap) : list (string * link_arg) * (error + any) :=
  if (p =? "true")%string then ([], inr (ABool true))
  else if (p =? "fail")%string then ([], inl (Ext "no such key"))
  else if (p =? "link")%string then
    ([(ExtractString vars ["actor"], match as_map (vars !! "actorRef") with
                                     | Some m => GoMap m | None => OtherArg end)],
     inr (AStr (ExtractString vars ["actor"])))
  else ([], inr (AStr (ExtractString vars [p]))).

Definition toy : CelEngine := {|
  cel_ast := string;
  cel_program := string;
  cel_NewEnv := fun _ => inr tt;
  cel_Compile := fun _ s => if (s =? "")%string then inl (Ext "syntax error") else inr s;
  cel_OutputType := fun s => if (s =? "true")%string then BoolType else StringType;
  cel_Program := fun _ s => inr s;
  cel_Eval := toy_eval;
  go_fmt_v := fun v => match v with AStr s => s | ABool true => "true" | _ => "?" end
|}.
End ToyCel.

Definition jane : gomap :=
  <["user" := AMap (<["username" := AStr "jane@x.io"]> ∅)]> (<["verb" := AStr "create"]> ∅).

Example summary_jane :
  @EvaluateAuditSummaryMap ToyCel.toy "{{ link }} did it ({{actor }}" jane
  = Ok ("jane@x.io did it (jane@x.io",
        [{| Marker := "jane@x.io"; Resource := BuildActorRef jane |}]).
Proof. vm_compute. reflexivity. Qed.

(** What a variable declaration requires of a value. *)
Definition value_has_type (v : any) (ty : cel_type) : Prop :=
  match ty with
  | StringType => exists s, v = AStr s
  | MapType StringType DynType => exists m, v = AMap m
  | MapType StringType StringType =>
      exists m, v = AMap m /\ forall k x, m !! k = Some x -> exists s, x = AStr s
  | _ => False
  end.

Definition binds_declarations (decls : list cel_decl) (vars : gomap) : Prop :=
  forall name ty, Variable_ name ty ∈ decls ->
    exists v, vars !! name = Some v /\ value_has_type v ty.

Lemma audit_with_defaults_lookup (m : gomap) (k : string) :
  audit_with_defaults m !! k =
  match m !! k with
  | Some v => Some v
  | None => if bool_decide (k ∈ audit_default_fields) then Some (AMap ∅) else None
  end.
Proof.
  unfold audit_with_defaults.
  assert (forall fs (m : gomap),
    fold_left (fun m field => match m !! field with
                          | Some _ => m
                          | None => <[field := AMap ∅]> m
                          end) fs m !! k =
    match m !! k with
    | Some v => Some v
    | None => if bool_decide (k ∈ fs) then Some (AMap ∅) else None
    end) as Hgen; [|apply Hgen].
  clear m. induction fs as [|f fs IH]; intros m; cbn [fold_left].
  - by destruct (m !! k).
  - rewrite IH. destruct (decide (f = k)) as [->|Hne].
    + rewrite (bool_decide_eq_true_2 (k ∈ k :: fs)) by set_solver.
      destruct (m !! k) eqn:E; [by rewrite E|by rewrite lookup_insert_eq].
    + assert ((match m !! f with Some _ => m | None => <[f := AMap ∅]> m end) !! k = m !! k) as ->
        by (destruct (m !! f); [done|by rewrite lookup_insert_ne]).
      destruct (m !! k); [done|].
      rewrite (bool_decide_ext (k ∈ f :: fs) (k ∈ fs)); [done|]. set_solver.
Qed.

Ltac lookup_simp :=
  repeat first [rewrite lookup_insert_eq | rewrite lookup_insert_ne by done].

(* ------------------------------------------------------------------ *)
(** ** Properties *)

(** C40: A summary template evaluates to the concatenation of its literal
    bytes and the values of its embedded expressions, in order, and collects
    exactly the links its [link()] calls name, in evaluation order; it fails
    iff some expression fails, with the errors of all failing expressions
    joined in order. *)
Theorem evaluateSummaryTemplate_spec `{CelEngine} (env : cel_env) (template : string) (vars : gomap) :
  env_collects env = true ->
  let os := map (piece_outcome env vars) (template_pieces template) in
  evaluateSummaryTemplate env template vars
  = (outcome_links os [],
     match outcome_errors os with
     | [] => Ok (String.concat "" (outcome_texts os))
     | es => Err (Errorf [PStr "summary template evaluation failed: "; PWrap (Join es)])
     end).
Proof.
  intros Hc. cbv zeta. unfold evaluateSummaryTemplate.
  pose proof (replace_pieces_outcomes env vars (template_pieces template)
    {| evalErrors := []; clinks := [] |} Hc (template_pieces_groups template)) as Hr.
  cbv zeta in Hr. destruct (replace_pieces _ _ _ _) as [t st].
  destruct Hr as (-> & -> & Ht). cbn [evalErrors app clinks].
  destruct (outcome_errors _); [by rewrite Ht|done].
Qed.

Lemma evaluateSummaryTemplate_spec_witness :
  exists env, env_collects env = true /\
  snd (@evaluateSummaryTemplate ToyCel.toy env "a{{ fail }}b{{ actor }}" ∅)
  = Err (Errorf [PStr "summary template evaluation failed: ";
      PWrap (Join [Errorf [PStr "eval "; PStr "fail"; PStr ": "; PWrap (Ext "no such key")]])]).
Proof.
  exists {| env_decls := []; env_collects := true |}. split; [reflexivity|].
  rewrite (@evaluateSummaryTemplate_spec ToyCel.toy); reflexivity.
Defined.

(** A match expression that passes validation gives a boolean or fails in
    the CEL run time (program construction or evaluation): it never fails to
    compile, and never with a non-boolean value, as long as the checker's type
    of an expression is the type of its values. *)
Theorem validated_match_evaluates `{CelEngine} (e : string) (m : gomap) :
  (forall decls ast prg vars v, cel_OutputType ast = BoolType ->
     cel_Program decls ast = inr prg ->
     snd (cel_Eval prg vars) = inr v -> exists b, v = ABool b) ->
  forall rt, ValidatePolicyExpression e MatchExpression rt = Ok tt ->
  let r := match rt with AuditRule => EvaluateAuditMatchMap e m | _ => EvaluateEventMatch e m end in
  (exists b, r = Ok b)
  \/ (exists e', r = Err (Errorf [PStr "failed to create program: "; PWrap e']))
  \/ (exists e', r = Err (Errorf [PStr "failed to evaluate match expression: "; PWrap e'])).
Proof.
  intros Hbool rt (env & Hrt & Het)%ValidatePolicyExpression_env. cbv zeta.
  destruct Het as [[_ (ast & Hast & Hty)%validateMatchExpression_ok]|[? _]]; [|done].
  destruct Hrt as [[-> Henv]|[-> Henv]];
    unfold EvaluateAuditMatchMap, EvaluateEventMatch; rewrite Henv;
    eapply eval_match_validated; eauto.
Qed.

Lemma validated_match_evaluates_witness :
  exists b, @EvaluateAuditMatchMap ToyCel.toy "true" jane = Ok b.
Proof.
  destruct (@validated_match_evaluates ToyCel.toy "true" jane) with (rt := AuditRule)
    as [Hb|[[e He]|[e He]]].
  - intros decls ast prg vars v Hty [= <-]. cbn in *. unfold ToyCel.toy_eval.
    destruct (ast =? "true")%string; [|done]. cbn. intros [= <-]. eauto.
  - reflexivity.
  - exact Hb.
  - vm_compute in He. discriminate He.
  - vm_compute in He. discriminate He.
Defined.

(** Every expression embedded in a summary template that passes validation
    compiles in the evaluation environment, to a string or a dynamic type: the
    text re-extracted from the match at evaluation is the text that was
    validated. *)
Theorem validated_summary_compiles `{CelEngine} (t : string) (rt : PolicyRuleType) :
  ValidatePolicyExpression t SummaryExpression rt = Ok tt ->
  exists env, match rt with AuditRule => auditEnvironment true | _ => eventEnvironment true end = Ok env
  /\ forall m g, TExpr m g ∈ template_pieces t ->
     template_at m = Some (g, "") /\
     exists ast, cel_Compile (env_decls env) (TrimSpace g) = inr ast
       /\ (cel_OutputType ast = StringType \/ cel_OutputType ast = DynType).
Proof.
  intros (env & Hrt & Het)%ValidatePolicyExpression_env.
  destruct Het as [[? _]|[_ Hs]]; [done|].
  unfold validateSummaryExpression in Hs. destruct (negb _); [done|].
  rewrite validate_all_in in Hs.
  assert (exists env', match rt with AuditRule => auditEnvironment true
                                   | _ => eventEnvironment true end = Ok env'
                       /\ env_decls env' = env_decls env) as (env' & Henv' & Hd).
  { destruct Hrt as [[-> Henv]|[-> Henv]].
    - destruct (audit_env_decls false true env Henv) as (env' & ? & ? & _). eauto.
    - destruct (event_env_decls false true env Henv) as (env' & ? & ? & _). eauto. }
  exists env'. split; [done|]. intros m g Hin. rewrite Hd.
  split; [by apply (template_pieces_groups t)|].
  apply (validate_embedded_ok env m g), Hs. by apply summary_matches_in.
Qed.

Lemma validated_summary_compiles_witness :
  exists env, @eventEnvironment ToyCel.toy true = Ok env
    /\ TExpr "{{ actor }}" "actor" ∈ template_pieces "{{ actor }} did it"
    /\ exists ast, @cel_Compile ToyCel.toy (env_decls env) "actor" = inr ast.
Proof.
  destruct (@validated_summary_compiles ToyCel.toy "{{ actor }} did it" EventRule)
    as (env & Henv & Hall); [reflexivity|].
  exists env. split; [exact Henv|].
  assert (TExpr "{{ actor }}" "actor" ∈ template_pieces "{{ actor }} did it") as Hin by left.
  split; [exact Hin|]. destruct (Hall _ _ Hin) as (_ & ast & Hast & _). eauto.
Defined.

(** Whatever the input, every variable an environment declares is bound by
    the variable builder of that environment, at a value of the declared type
    (so [source] is always there, with strings only); and the five nested maps
    of an audit record are always present, the fields that were there being
    unchanged. *)
Theorem policy_variables_bound `{CelEngine} (m : gomap) (collector : bool) :
  (forall env, NewAuditEnvironment collector = Ok env ->
     binds_declarations (env_decls env) (BuildAuditVars m))
  /\ (forall env, NewEventEnvironment collector = Ok env ->
     binds_declarations (env_decls env) (BuildEventVars m))
  /\ (exists a, BuildAuditVars m !! "audit" = Some (AMap a)
       /\ (forall f, f ∈ audit_default_fields -> is_Some (a !! f))
       /\ (forall f v, m !! f = Some v -> a !! f = Some v)).
Proof.
  assert (exists kind, BuildAuditVars m = <["kind" := AStr kind]>
      (<["audit" := AMap (audit_with_defaults m)]>
      (<["actor" := AStr (ExtractString m ["user"; "username"])]>
      (<["actorRef" := AMap (BuildActorRef m)]> ∅)))) as [kind Hvars].
  { unfold BuildAuditVars. destruct (as_map _) as [o|]; [destruct (as_string _)|]; eauto. }
  split; [|split].
  - unfold NewAuditEnvironment. intros env. destruct (cel_NewEnv _); [done|].
    intros [= <-] name ty. cbn [env_decls]. rewrite !elem_of_cons, Hvars.
    intros [[= -> ->]|[[= -> ->]|[[= -> ->]|[[= -> ->]|[?|?]]]]]; [..|done|set_solver];
      lookup_simp; eexists; (split; [reflexivity|]); cbn; eauto.
  - unfold NewEventEnvironment. intros env. destruct (cel_NewEnv _); [done|].
    intros [= <-] name ty. cbn [env_decls]. rewrite !elem_of_cons. unfold BuildEventVars.
    intros [[= -> ->]|[[= -> ->]|[[= -> ->]|[[= -> ->]|[?|?]]]]]; [..|done|set_solver];
      lookup_simp; eexists; (split; [reflexivity|]); cbn; eauto.
    eexists; split; [reflexivity|]. intros k x. unfold BuildEventSourceVars.
    rewrite !lookup_insert_Some, lookup_empty. naive_solver.
  - exists (audit_with_defaults m). rewrite Hvars. lookup_simp. split; [done|].
    setoid_rewrite audit_with_defaults_lookup. split.
    + intros f Hf. rewrite (bool_decide_eq_true_2 _ Hf). destruct (m !! f); eauto.
    + intros f v ->. done.
Qed.

Lemma policy_variables_bound_witness :
  exists v, BuildEventVars ∅ !! "source" = Some v /\ value_has_type v (MapType StringType StringType).
Proof.
  destruct (@policy_variables_bound ToyCel.toy ∅ false) as (_ & He & _).
  apply (He _ eq_refl). right. right. right. left.
Defined.
