(* ===== verification/Activity.v ===== *)
(** * internal/processor: building activities

    The [Activity] type of [pkg/apis/activity/v1alpha1/types_activity.go], the
    extraction helpers of [internal/processor/utils.go], the actor
    classification of [internal/processor/classifier.go] and the builder of
    [internal/processor/activity.go]. *)

From Stdlib Require Import Ascii String.
From stdpp Require Import base numbers list strings gmap.
From Stdlib Require Import ZArith Lia.
From S2P Require Import Prelude GoLib Types CelPolicy.

(** ** types_activity.go *)

Record ActivityActor := { act_Type : string; act_Name : string; act_UID : string; act_Email : string }.
Record ActivitySource := { PlaneType : string; Cluster : string; Region : string; City : string }.
Record ActivityResource := {
  APIGroup : string; APIVersion : string; Kind : string;
  res_Name : string; res_Namespace : string; res_UID : string }.
Record ActivityLink := { link_Marker : string; link_Resource : ActivityResource }.
Record ActivityTenant := { ten_Type : string; ten_Name : string }.
Record ActivityOrigin := { org_Type : string; org_ID : string }.
Record ActivitySpec := {
  Summary : string;
  ChangeSource : string;
  Actor : ActivityActor;
  Resource_ : ActivityResource;
  Links : list ActivityLink;
  Related : list ActivityResource;
  Tenant : ActivityTenant;
  Origin : ActivityOrigin;
  Source : option ActivitySource }.
Record Activity := {
  APIVersion_ : string; Kind_ : string;
  Name : string; Namespace : string; CreationTimestamp : time;
  Labels : gmap string string;
  Spec : ActivitySpec }.

#[export] Instance ActivitySource_eq_dec : EqDecision ActivitySource.
Proof. solve_decision. Defined.

Definition empty_source : ActivitySource :=
  {| PlaneType := ""; Cluster := ""; Region := ""; City := "" |}.

(** [v1alpha1.SchemeGroupVersion.String()] *)
Definition SchemeGroupVersion : string := "activity.miloapis.com/v1alpha1".

(** ** Library types the code reads: [authnv1.UserInfo] and [auditv1.Event] *)

Record UserInfo := { Username : string; UID : string; Extra : gmap string (list string) }.
Record ObjectReference := {
  or_Resource : string; or_Namespace : string; or_Name : string;
  or_APIGroup : string; or_APIVersion : string }.
Record AuditEvent := {
  AuditID : string;
  RequestReceivedTimestamp : time;
  User : UserInfo;
  ObjectRef : option ObjectReference;
  ResponseObject : option string (* the Raw bytes of the runtime.Unknown *) }.

(** ** classifier.go *)

Definition ChangeSourceHuman : string := "human".
Definition ChangeSourceSystem : string := "system".
Definition ActorTypeUser : string := "user".
Definition ActorTypeSystem : string := "system".
Definition ActorTypeController : string := "controller".

Definition ClassifyChangeSource (user : UserInfo) : string :=
  if HasPrefix (Username user) "system:" then ChangeSourceSystem else ChangeSourceHuman.

Definition ResolveActor (user : UserInfo) : ActivityActor :=
  let '(ty, name) :=
    if HasPrefix (Username user) "system:"
    then (ActorTypeSystem, TrimPrefix (Username user) "system:")
    else (ActorTypeUser, Username user) in
  {| act_Type := ty;
     act_Name := if (name =? "")%string then "unknown" else name;
     act_UID := UID user;
     act_Email := if has_byte "@" (Username user) then Username user else "" |}.

Definition IsSystemActor (actor : ActivityActor) : bool := (act_Type actor =? ActorTypeSystem)%string.
Definition IsHumanActor (actor : ActivityActor) : bool := (act_Type actor =? ActorTypeUser)%string.

(** ** utils.go *)

(** A possibly nil [map[string]any]. *)
Abbreviation nmap := (option gomap).

Definition getStringFromMap (m : nmap) (key : string) : string :=
  default "" (as_string (nil_map m !! key)).

Fixpoint nested_string (current : gomap) (keys : list string) : string :=
  match keys with
  | [] => ""
  | [key] => match as_string (current !! key) with Some v => v | None => "" end
  | key :: rest =>
      match as_map (current !! key) with
      | Some nested => nested_string nested rest
      | None => ""
      end
  end.
Definition GetNestedString (m : nmap) (keys : list string) : string :=
  match m, keys with
  | None, _ | _, [] => ""
  | Some m, _ => nested_string m keys
  end.

(** [parseAPIGroup] of event.go: what precedes the last slash. *)
Fixpoint parseAPIGroup (apiVersion : string) : string :=
  match apiVersion with
  | EmptyString => ""
  | String a s => if has_byte "/" s then String a (parseAPIGroup s) else ""
  end.

Definition resolveKindAndAPIGroup (obj : nmap) : string * string :=
  let kind := GetNestedString obj ["kind"] in
  let apiGroup := GetNestedString obj ["apiGroup"] in
  (kind, if (apiGroup =? "")%string
         then parseAPIGroup (GetNestedString obj ["apiVersion"]) else apiGroup).

Definition getExtraValue (extra : gmap string (list string)) (key : string) : string :=
  match extra !! key with Some (v :: _) => v | _ => "" end.

Definition ExtractTenant (user : UserInfo) : ActivityTenant :=
  let parentType := getExtraValue (Extra user) "iam.miloapis.com/parent-type" in
  let parentName := getExtraValue (Extra user) "iam.miloapis.com/parent-name" in
  let t0 := {| ten_Type := if (parentType =? "")%string then TenantTypePlatform else parentType;
               ten_Name := if (parentName =? "")%string then "" else parentName |} in
  let org := getExtraValue (Extra user) "organization" in
  let t1 := if (ten_Type t0 =? TenantTypePlatform)%string
            then if (org =? "")%string then t0
                 else {| ten_Type := TenantTypeOrganization; ten_Name := org |}
            else t0 in
  let project := getExtraValue (Extra user) "project" in
  if (project =? "")%string then t1
  else {| ten_Type := TenantTypeProject; ten_Name := project |}.

Definition ErrKindResolution : string := "kind resolution failed".
Definition ErrActivityBuild : string := "activity build failed".

(** [KindResolver]: [None] is the nil function. *)
Definition KindResolver := string -> string -> error + string.

Definition convert_link (resolveKind : option KindResolver) (l : Link) : res ActivityLink :=
  let r := Some (CelPolicy.Resource l) in
  let kind := getStringFromMap r "kind" in
  let apiGroup := getStringFromMap r "apiGroup" in
  let? kind :=
    if (kind =? "")%string then
      let resource := getStringFromMap r "resource" in
      if (resource =? "")%string then Ok kind
      else match resolveKind with
           | None => Ok kind
           | Some f => wrap_err (of_sum (f apiGroup resource))
               (fun e => Errorf [PWrap (Sentinel ErrKindResolution); PStr ": resource "; PStr resource;
                                 PStr " in apiGroup "; PStr apiGroup; PStr ": "; PShow e])
           end
    else Ok kind in
  let kind := if (kind =? "")%string then getStringFromMap r "type" else kind in
  let or_meta key := let v := getStringFromMap r key in
                     if (v =? "")%string then GetNestedString r ["metadata"; key] else v in
  let rawAPIVersion := getStringFromMap r "apiVersion" in
  let '(apiGroup, apiVersion) :=
    if ((apiGroup =? "") && negb (rawAPIVersion =? ""))%string%bool then
      match Index rawAPIVersion "/" with
      | Some idx => (take_str idx rawAPIVersion, drop_str (S idx) rawAPIVersion)
      | None => (apiGroup, rawAPIVersion)
      end
    else (apiGroup, rawAPIVersion) in
  Ok {| link_Marker := Marker l;
        link_Resource := {| APIGroup := apiGroup; APIVersion := apiVersion; Kind := kind;
                            res_Name := or_meta "name"; res_Namespace := or_meta "namespace";
                            res_UID := or_meta "uid" |} |}.

Fixpoint ConvertLinks (celLinks : list Link) (resolveKind : option KindResolver)
  : res (list ActivityLink) :=
  match celLinks with
  | [] => Ok []
  | l :: ls =>
      let? x := convert_link resolveKind l in
      let? xs := ConvertLinks ls resolveKind in Ok (x :: xs)
  end.

Definition eventAnnotations (eventMap : gomap) : nmap :=
  match as_map (eventMap !! "metadata") with
  | None => None
  | Some metadata => as_map (metadata !! "annotations")
  end.

Definition ExtractTenantFromAnnotations (eventMap : gomap) : ActivityTenant :=
  let annotations := eventAnnotations eventMap in
  let scopeType := getStringFromMap annotations ScopeTypeAnnotation in
  let scopeName := getStringFromMap annotations ScopeNameAnnotation in
  if (scopeType =? "")%string then {| ten_Type := TenantTypePlatform; ten_Name := "" |}
  else {| ten_Type := NormalizeTenantType scopeType; ten_Name := scopeName |}.

Definition resolveActivityNamespace (eventMap : gomap) (resourceObject : nmap) : string :=
  let upstream := getStringFromMap (eventAnnotations eventMap) ScopeNamespaceAnnotation in
  if negb (upstream =? "")%string then upstream
  else getStringFromMap resourceObject "namespace".

Definition ExtractSourceFromAnnotations (eventMap : gomap) : ActivitySource :=
  let annotations := eventAnnotations eventMap in
  {| PlaneType := getStringFromMap annotations SourcePlaneTypeAnnotation;
     Cluster := getStringFromMap annotations SourceClusterAnnotation;
     Region := getStringFromMap annotations SourceRegionAnnotation;
     City := getStringFromMap annotations SourceCityAnnotation |}.

Definition ResolveInvolvedObject (event : gomap) : nmap :=
  match as_map (event !! "regarding") with
  | Some regarding => Some regarding
  | None => match as_map (event !! "involvedObject") with
            | Some involvedObject => Some involvedObject
            | None => None
            end
  end.

Definition ResolveRelatedResources (event : gomap) : list ActivityResource :=
  match as_map (event !! "related") with
  | None => []
  | Some related =>
      if bool_decide (related = ∅) then []
      else let (kind, apiGroup) := resolveKindAndAPIGroup (Some related) in
           [{| APIGroup := apiGroup;
               APIVersion := GetNestedString (Some related) ["apiVersion"];
               Kind := kind;
               res_Name := GetNestedString (Some related) ["name"];
               res_Namespace := GetNestedString (Some related) ["namespace"];
               res_UID := GetNestedString (Some related) ["uid"] |}]
  end.

Definition isFederatedSource (source : ActivitySource) : bool :=
  (negb (PlaneType source =? "") && negb (Cluster source =? ""))%string%bool.

Definition qualifiedOriginID (source : ActivitySource) (originID : string) : string :=
  PrefixWithSource (PlaneType source) (Cluster source) originID.

(** One candidate of [resolveEventTimestamp]: present, parses, not zero. *)
Definition timestamp_candidate (ts : string) : option time :=
  if (ts =? "")%string then None
  else match Parse_RFC3339 ts with
       | Some t => if IsZero t then None else Some t
       | None => None
       end.

Definition resolveEventTimestamp (now : time) (event : gomap) : time :=
  match timestamp_candidate (getStringFromMap (Some event) "eventTime") with
  | Some t => t
  | None =>
  match timestamp_candidate (getStringFromMap (Some event) "lastTimestamp") with
  | Some t => t
  | None =>
  match timestamp_candidate (getStringFromMap (Some event) "firstTimestamp") with
  | Some t => t
  | None =>
  match as_map (event !! "metadata") with
  | Some metadata =>
      match timestamp_candidate (getStringFromMap (Some metadata) "creationTimestamp") with
      | Some t => t
      | None => now
      end
  | None => now
  end end end end.

Definition resolveActorFromEvent (event : gomap) : ActivityActor :=
  let r0 := getStringFromMap (Some event) "reportingController" in
  let r1 := if (r0 =? "")%string
            then match as_map (event !! "source") with
                 | Some source => getStringFromMap (Some source) "component"
                 | None => r0
                 end
            else r0 in
  {| act_Type := ActorTypeController;
     act_Name := if (r1 =? "")%string then "unknown" else r1;
     act_UID := ""; act_Email := "" |}.

Definition eventActivityLabels (changeSource apiGroup kind eventReason : string)
  : gmap string string :=
  <["activity.miloapis.com/origin-type" := "event"]>
  (<["activity.miloapis.com/change-source" := changeSource]>
  (<["activity.miloapis.com/api-group" := apiGroup]>
  (<["activity.miloapis.com/resource-kind" := kind]>
  (<["activity.miloapis.com/event-reason" := eventReason]> ∅)))).

(** ** activity.go *)

(** What activity.go takes from Go's library: SHA-256 in hexadecimal (64
    digits) and the decoding of [{"metadata": {"name", "uid"}}]. *)
Class ActivityLib := {
  sha256_hex : string -> string;
  json_metadata : string -> error + (string * string)
}.

Definition nul : string := String (ascii_of_nat 0) "".

(** The bytes hashed into an activity's name. *)
Definition name_preimage (originType originID apiGroup kind : string) : string :=
  originType +:+ nul +:+ originID +:+ nul +:+ apiGroup +:+ nul +:+ kind.

Record ActivityBuilder := { b_APIGroup : string; b_Kind : string }.

Section Builder.
Context `{ActivityLib}.

Definition activityName (originType originID apiGroup kind : string) : string :=
  "act-" +:+ take_str 12 (sha256_hex (name_preimage originType originID apiGroup kind)).

Definition extractResponseIdentity (responseObject : option string) : string * string :=
  match responseObject with
  | None | Some EmptyString => ("", "")
  | Some raw => match json_metadata raw with
                | inl _ => ("", "")
                | inr (name, uid) => (name, uid)
                end
  end.

Definition BuildFromAudit (now : time) (b : ActivityBuilder) (audit : AuditEvent)
    (summary : string) (links : list Link) (resolveKind : option KindResolver) : res Activity :=
  let timestamp := if IsZero (RequestReceivedTimestamp audit) then now
                   else RequestReceivedTimestamp audit in
  let '(namespace, resourceName, apiVersion) :=
    match ObjectRef audit with
    | Some r => (or_Namespace r, or_Name r, or_APIVersion r)
    | None => ("", "", "")
    end in
  let (responseName, resourceUID) := extractResponseIdentity (ResponseObject audit) in
  let resourceName := if (resourceName =? "")%string then responseName else resourceName in
  let changeSource := ClassifyChangeSource (User audit) in
  let actor := ResolveActor (User audit) in
  let tenant := ExtractTenant (User audit) in
  let name := activityName "audit" (AuditID audit) (b_APIGroup b) (b_Kind b) in
  let? activityLinks := wrap_err (ConvertLinks links resolveKind)
    (fun e => Errorf [PWrap (Sentinel ErrActivityBuild); PStr ": "; PShow e]) in
  Ok {| APIVersion_ := SchemeGroupVersion; Kind_ := "Activity";
        Name := name; Namespace := namespace; CreationTimestamp := timestamp;
        Labels := <["activity.miloapis.com/origin-type" := "audit"]>
                  (<["activity.miloapis.com/change-source" := changeSource]>
                  (<["activity.miloapis.com/api-group" := b_APIGroup b]>
                  (<["activity.miloapis.com/resource-kind" := b_Kind b]> ∅)));
        Spec := {| Summary := summary; ChangeSource := changeSource; Actor := actor;
                   Resource_ := {| APIGroup := b_APIGroup b; APIVersion := apiVersion;
                                   Kind := b_Kind b; res_Name := resourceName;
                                   res_Namespace := namespace; res_UID := resourceUID |};
                   Links := activityLinks; Related := []; Tenant := tenant;
                   Origin := {| org_Type := "audit"; org_ID := AuditID audit |};
                   Source := None |} |}.

(** [eventMap["metadata"]["uid"]]. *)
Definition event_uid (eventMap : gomap) : string :=
  match as_map (eventMap !! "metadata") with
  | Some metadata => GetNestedString (Some metadata) ["uid"]
  | None => ""
  end.

Definition BuildFromEvent (now : time) (b : ActivityBuilder) (eventMap : gomap)
    (summary : string) (links : list Link) (resolveKind : option KindResolver) : res Activity :=
  let source := ExtractSourceFromAnnotations eventMap in
  let resourceObject := ResolveInvolvedObject eventMap in
  let timestamp := resolveEventTimestamp now eventMap in
  let namespace := resolveActivityNamespace eventMap resourceObject in
  let resourceName := GetNestedString resourceObject ["name"] in
  let resourceUID := GetNestedString resourceObject ["uid"] in
  let apiVersion := GetNestedString resourceObject ["apiVersion"] in
  let (resourceKind, resourceAPIGroup) := resolveKindAndAPIGroup resourceObject in
  let changeSource := ChangeSourceSystem in
  let actor := resolveActorFromEvent eventMap in
  let tenant := ExtractTenantFromAnnotations eventMap in
  let originID := qualifiedOriginID source (event_uid eventMap) in
  let name := activityName "event" originID (b_APIGroup b) (b_Kind b) in
  let? activityLinks := wrap_err (ConvertLinks links resolveKind)
    (fun e => Errorf [PWrap (Sentinel ErrActivityBuild); PStr ": "; PShow e]) in
  Ok {| APIVersion_ := SchemeGroupVersion; Kind_ := "Activity";
        Name := name; Namespace := namespace; CreationTimestamp := timestamp;
        Labels := eventActivityLabels changeSource (b_APIGroup b) (b_Kind b)
                    (getStringFromMap (Some eventMap) "reason");
        Spec := {| Summary := summary; ChangeSource := changeSource; Actor := actor;
                   Resource_ := {| APIGroup := resourceAPIGroup; APIVersion := apiVersion;
                                   Kind := resourceKind; res_Name := resourceName;
                                   res_Namespace := namespace; res_UID := resourceUID |};
                   Links := activityLinks; Related := ResolveRelatedResources eventMap;
                   Tenant := tenant;
                   Origin := {| org_Type := "event"; org_ID := originID |};
                   Source := if decide (source = empty_source) then None else Some source |} |}.
End Builder.

(* ------------------------------------------------------------------ *)
(** ** Lemmas *)

(** With one key, the nested lookup is the flat one. *)
Lemma GetNestedString_1 (m : nmap) (k : string) : GetNestedString m [k] = getStringFromMap m k.
Proof.
  destruct m as [m|]; [|done]. cbn. unfold getStringFromMap. cbn.
  by destruct (as_string (m !! k)).
Qed.

(** The helper of the processor and the one of the CEL package agree. *)
Lemma nested_string_ExtractString (m : gomap) (keys : list string) :
  nested_string m keys = ExtractString m keys.
Proof.
  revert m. induction keys as [|k keys IH]; intros m; [done|].
  destruct keys as [|k' keys].
  - cbn. by destruct (as_string (m !! k)).
  - change (match as_map (m !! k) with Some n => nested_string n (k' :: keys) | None => "" end
          = match as_map (m !! k) with Some n => ExtractString n (k' :: keys) | None => "" end).
    by destruct (as_map (m !! k)).
Qed.

Lemma ConvertLinks_length links rk ls :
  ConvertLinks links rk = Ok ls -> length ls = length links.
Proof.
  revert ls. induction links as [|l links IH]; intros ls; cbn [ConvertLinks].
  - by intros [= <-].
  - intros H. inv_res. simpl. f_equal. auto.
Qed.

Lemma sha_nul_inj (a a' b b' : string) :
  has_byte (ascii_of_nat 0) a = false -> has_byte (ascii_of_nat 0) a' = false ->
  a +:+ nul +:+ b = a' +:+ nul +:+ b' -> a = a' /\ b = b'.
Proof. intros Ha Ha'. by apply sep_inj. Qed.

(** The hash input determines what it was made of, when no part has a NUL. *)
Lemma name_preimage_inj t i g k t' i' g' k' :
  (forall s, s ∈ [t; i; g; t'; i'; g'] -> has_byte (ascii_of_nat 0) s = false) ->
  name_preimage t i g k = name_preimage t' i' g' k' ->
  t = t' /\ i = i' /\ g = g' /\ k = k'.
Proof.
  intros Hn. unfold name_preimage.
  intros [-> H]%sha_nul_inj; [|apply Hn; set_solver..].
  apply sha_nul_inj in H as [-> H]; [|apply Hn; set_solver..].
  apply sha_nul_inj in H as [-> ->]; [done|apply Hn; set_solver..].
Qed.

Lemma convert_link_error l rk e :
  convert_link rk l = Err e -> errors_Is ErrKindResolution e = true.
Proof.
  unfold convert_link.
  destruct (getStringFromMap _ "kind" =? "")%string; cbn [res_bind];
    [|destruct (_ && _)%bool; [destruct (Index _ _)|]; done].
  destruct (getStringFromMap _ "resource" =? "")%string; cbn [res_bind];
    [destruct (_ && _)%bool; [destruct (Index _ _)|]; done|].
  destruct rk as [f|]; cbn [res_bind];
    [|destruct (_ && _)%bool; [destruct (Index _ _)|]; done].
  destruct (f _ _) as [e'|k]; cbn [of_sum wrap_err res_bind].
  - by intros [= <-].
  - destruct (_ && _)%bool; [destruct (Index _ _)|]; done.
Qed.

Lemma ConvertLinks_error links rk e :
  ConvertLinks links rk = Err e -> errors_Is ErrKindResolution e = true.
Proof.
  induction links as [|l links IH]; cbn [ConvertLinks]; [done|].
  destruct (convert_link rk l) eqn:El; cbn [res_bind]; try done.
  - destruct (ConvertLinks links rk); cbn [res_bind]; try done; intros [= <-]; auto.
  - intros [= <-]. by eapply convert_link_error.
Qed.

Lemma ConvertLinks_no_panic links rk w : ConvertLinks links rk <> Panic w.
Proof.
  induction links as [|l links IH]; cbn [ConvertLinks]; [done|].
  assert (forall w, convert_link rk l <> Panic w) as Hl.
  { intros w'. unfold convert_link.
    destruct (if (getStringFromMap _ "kind" =? "")%string then _ else _) as [k|e|w''] eqn:E;
      cbn [res_bind]; [|done|].
    - by destruct (_ && _)%bool; [destruct (Index _ _)|].
    - exfalso. revert E. repeat case_match; try done.
      by destruct (k _ _). }
  destruct (convert_link rk l) eqn:El; cbn [res_bind]; [|done|by destruct (Hl why)].
  by destruct (ConvertLinks links rk).
Qed.

Lemma ExtractTenant_cases (user : UserInfo) :
  let x := getExtraValue (Extra user) in
  ExtractTenant user =
  if negb (x "project" =? "")%string
  then {| ten_Type := TenantTypeProject; ten_Name := x "project" |}
  else if negb (x "iam.miloapis.com/parent-type" =? "")%string
          && negb (x "iam.miloapis.com/parent-type" =? TenantTypePlatform)%string
  then {| ten_Type := x "iam.miloapis.com/parent-type"; ten_Name := x "iam.miloapis.com/parent-name" |}
  else if negb (x "organization" =? "")%string
  then {| ten_Type := TenantTypeOrganization; ten_Name := x "organization" |}
  else {| ten_Type := TenantTypePlatform; ten_Name := x "iam.miloapis.com/parent-name" |}.
Proof.
  cbv zeta. unfold ExtractTenant. cbv zeta.
  destruct (String.eqb_spec (getExtraValue (Extra user) "project") "") as [->|?]; [|done].
  cbn [negb ten_Type].
  destruct (String.eqb_spec (getExtraValue (Extra user) "iam.miloapis.com/parent-type") "") as [->|Hp];
    destruct (String.eqb_spec (getExtraValue (Extra user) "iam.miloapis.com/parent-name") "") as [->|?];
    destruct (String.eqb_spec (getExtraValue (Extra user) "organization") "") as [->|?];
    cbn [negb andb]; rewrite ?String.eqb_refl; try done;
    destruct (String.eqb_spec (getExtraValue (Extra user) "iam.miloapis.com/parent-type") TenantTypePlatform) as [->|?];
    done.
Qed.

(* ------------------------------------------------------------------ *)
(** ** Properties *)

Module ToyLib.
(** An example library: the "hash" of a string is the string itself. *)
Definition toy : ActivityLib := {|
  sha256_hex := fun s => s;
  json_metadata := fun s => if (s =? "{}")%string then inr ("", "")
                            else if has_byte "{" s then inr ("made-up", "u-1") else inl (Ext "bad json")
|}.
Definition audit0 : AuditEvent := {|
  AuditID := "a1"; RequestReceivedTimestamp := 5%Z;
  User := {| Username := "system:node"; UID := "u"; Extra := <["project" := ["p1"]]> ∅ |};
  ObjectRef := None; ResponseObject := Some "{meta}" |}.
End ToyLib.

(** C?: [BuildFromAudit] fails only when a link cannot be converted, with an
    error that is [ErrActivityBuild] (and no longer [ErrKindResolution]: the
    cause is not wrapped); the activity it builds is coherent: its name is the
    hash of its own origin identifier and the policy's target, its change
    source, label and actor type agree, its actor has a name, its tenant has a
    type, its timestamp is set when the clock is, and it has one link per
    [link()] call. *)
Theorem BuildFromAudit_coherent `{ActivityLib} (now : time) (b : ActivityBuilder)
    (audit : AuditEvent) (summary : string) (links : list Link) (rk : option KindResolver) :
  match BuildFromAudit now b audit summary links rk with
  | Ok a =>
      Name a = activityName "audit" (org_ID (Origin (Spec a))) (b_APIGroup b) (b_Kind b)
      /\ org_ID (Origin (Spec a)) = AuditID audit
      /\ Labels a !! "activity.miloapis.com/change-source" = Some (ChangeSource (Spec a))
      /\ (ChangeSource (Spec a) = ChangeSourceSystem <-> IsSystemActor (Actor (Spec a)) = true)
      /\ (ChangeSource (Spec a) = ChangeSourceHuman <-> IsHumanActor (Actor (Spec a)) = true)
      /\ act_Name (Actor (Spec a)) <> ""
      /\ ten_Type (Tenant (Spec a)) <> ""
      /\ (now <> 0%Z -> CreationTimestamp a <> 0%Z)
      /\ length (Links (Spec a)) = length links
  | Err e => errors_Is ErrActivityBuild e = true /\ errors_Is ErrKindResolution e = false
             /\ exists e', ConvertLinks links rk = Err e'
  | Panic _ => False
  end.
Proof.
  unfold BuildFromAudit.
  destruct (match ObjectRef audit with
            | Some r => (or_Namespace r, or_Name r, or_APIVersion r)
            | None => ("", "", "") end) as [[ns rn] av].
  destruct (extractResponseIdentity (ResponseObject audit)) as [rname ruid].
  destruct (ConvertLinks links rk) as [ls|e|w] eqn:El; cbn [wrap_err res_bind].
  - cbn. split; [done|]. split; [done|]. lookup_simp. split; [done|].
    unfold ClassifyChangeSource, ResolveActor, IsSystemActor, IsHumanActor.
    split; [by destruct (HasPrefix (Username (User audit)) "system:")|].
    split; [by destruct (HasPrefix (Username (User audit)) "system:")|].
    split.
    { destruct (HasPrefix (Username (User audit)) "system:"); cbn [act_Name];
        case_match eqn:E; try done; by apply String.eqb_neq. }
    split.
    { rewrite ExtractTenant_cases. cbv zeta.
      repeat case_match; cbn [ten_Type]; try done.
      breflect. intros E. rewrite E in *. done. }
    split; [|by eapply ConvertLinks_length].
    unfold IsZero. destruct (Z.eqb_spec (RequestReceivedTimestamp audit) 0); done.
  - split; [done|]. split; [done|eauto].
  - by apply ConvertLinks_no_panic in El.
Qed.
