(* ===== verification/Dlq.v ===== *)
(** * internal/processor/dlq.go: the dead-letter queue

    The dead-letter record, its publisher and the error taxonomy.  Publishing
    to JetStream and JSON encoding are parameters; a call to [Publish] is
    logged with its outcome. *)

From Stdlib Require Import Ascii String.
From stdpp Require Import base numbers list strings gmap.
From Stdlib Require Import ZArith Lia.
From S2P Require Import Prelude GoLib Types.

(** A string type: a decoded dead letter may carry any other value. *)
Inductive EventType := EventTypeAudit | EventTypeK8sEvent | EventTypeOther (s : string).
Definition EventType_string (t : EventType) : string :=
  match t with
  | EventTypeAudit => "audit"
  | EventTypeK8sEvent => "k8s-event"
  | EventTypeOther s => s
  end.

Inductive ErrorType :=
| ErrorTypeCELMatch | ErrorTypeCELSummary | ErrorTypeUnmarshal | ErrorTypeKindResolve.
#[export] Instance ErrorType_eq_dec : EqDecision ErrorType.
Proof. solve_decision. Defined.
#[export] Instance EventType_eq_dec : EqDecision EventType.
Proof. solve_decision. Defined.

Definition NewPolicyEvaluationError (policyName : string) (ruleIndex : Z) (err : error) : error :=
  PolicyEvaluationError policyName ruleIndex err.

Record DeadLetterTenant := { dlt_Type : string; dlt_Name : string }.
Record DeadLetterResource := {
  dlr_APIGroup : string; dlr_Kind : string; dlr_Name : string; dlr_Namespace : string }.

Record DeadLetterEvent := {
  dl_Type : EventType;
  OriginalPayload : string;
  dl_Error : string;
  dl_ErrorType : ErrorType;
  PolicyName : string;
  PolicyVersion : Z;
  RuleIndex : Z;
  Timestamp : time;
  dl_Tenant : option DeadLetterTenant;
  dl_Resource : option DeadLetterResource;
  RetryCount : Z;
  LastRetryAt : option time;
  NextRetryAfter : option time }.

Definition NewDeadLetterTenantFromActivity (tenantType tenantName : string)
  : option DeadLetterTenant :=
  if ((tenantType =? "") && (tenantName =? ""))%string%bool then None
  else Some {| dlt_Type := tenantType; dlt_Name := tenantName |}.

Record DLQConfig := { Enabled : bool; StreamName : string; SubjectPrefix : string }.
Definition DefaultDLQConfig : DLQConfig :=
  {| Enabled := true; StreamName := "ACTIVITY_DEAD_LETTER"; SubjectPrefix := "activity.dlq" |}.

(** One [js.Publish] call: what was sent and whether the server stored it. *)
Record pub := { p_subject : string; p_data : string; p_msgid : option string; p_err : option error }.
Definition pub_ok (p : pub) : bool := match p_err p with None => true | Some _ => false end.

(** JetStream, and the JSON encoding of a dead letter.  [json.RawMessage] is
    validated by the encoder, so a payload that is not JSON cannot be
    encoded. *)
Class JetStream := {
  js_Publish : string -> string -> option string -> option error  (* None: acknowledged *)
}.
Class DlqJson := {
  json_valid : string -> bool;
  json_marshal_dle : DeadLetterEvent -> error + string
}.
Definition rawmessage_checked `{DlqJson} : Prop :=
  forall d, json_valid (OriginalPayload d) = false -> exists e, json_marshal_dle d = inl e.

(** A [Publish] call and its log entry. *)
Definition do_publish `{JetStream} (subject data : string) (msgid : option string)
  : list pub * option error :=
  let r := js_Publish subject data msgid in
  ([{| p_subject := subject; p_data := data; p_msgid := msgid; p_err := r |}], r).

(** The arguments every publish function takes. *)
Record failure := {
  f_payload : string; f_policyName : string; f_policyVersion : Z; f_ruleIndex : Z;
  f_errorType : ErrorType; f_err : option error;
  f_resource : option DeadLetterResource; f_tenant : option DeadLetterTenant }.

(** The interface [DLQPublisher]. *)
Class DLQPublisher := {
  PublishAuditFailure : time -> failure -> list pub * option error;
  PublishEventFailure : time -> failure -> list pub * option error
}.

Definition dlq_subject (config : DLQConfig) (eventType : EventType)
    (resource : option DeadLetterResource) : string :=
  let '(apiGroup, kind) :=
    match resource with
    | None => ("unknown", "unknown")
    | Some r => (if negb (dlr_APIGroup r =? "")%string then dlr_APIGroup r else "core",
                 if negb (dlr_Kind r =? "")%string then dlr_Kind r else "unknown")
    end in
  SubjectPrefix config +:+ "." +:+ EventType_string eventType +:+ "." +:+ apiGroup +:+ "." +:+ kind.

Definition dlq_event (now : time) (eventType : EventType) (f : failure) : DeadLetterEvent := {|
  dl_Type := eventType;
  OriginalPayload := f_payload f;
  dl_Error := match f_err f with Some e => error_text e | None => "" end;
  dl_ErrorType := f_errorType f;
  PolicyName := f_policyName f;
  PolicyVersion := f_policyVersion f;
  RuleIndex := f_ruleIndex f;
  Timestamp := now;
  dl_Resource := f_resource f;
  dl_Tenant := f_tenant f;
  RetryCount := 0;
  LastRetryAt := None;
  NextRetryAfter := None |}.

Definition publish `{JetStream} `{DlqJson} (config : DLQConfig) (now : time)
    (eventType : EventType) (f : failure) : list pub * option error :=
  match json_marshal_dle (dlq_event now eventType f) with
  | inl e => ([], Some (Errorf [PStr "failed to marshal DLQ event: "; PWrap e]))
  | inr data =>
      let (log, r) := do_publish (dlq_subject config eventType (f_resource f)) data None in
      match r with
      | Some e => (log, Some (Errorf [PStr "failed to publish to DLQ: "; PWrap e]))
      | None => (log, None)
      end
  end.

Definition NATSDLQPublisher `{JetStream} `{DlqJson} (config : DLQConfig) : DLQPublisher := {|
  PublishAuditFailure := fun now f => publish config now EventTypeAudit f;
  PublishEventFailure := fun now f => publish config now EventTypeK8sEvent f |}.

Definition noopDLQPublisher : DLQPublisher := {|
  PublishAuditFailure := fun _ _ => ([], None);
  PublishEventFailure := fun _ _ => ([], None) |}.

Definition NewDLQPublisher `{JetStream} `{DlqJson} (config : DLQConfig) : DLQPublisher :=
  if negb (Enabled config) then noopDLQPublisher else NATSDLQPublisher config.

(** What clients of the interface rely on: when a failure is reported stored,
    either dead-lettering is disabled or exactly one message was stored. *)
Class DLQPublisherLaws (P : DLQPublisher) (enabled : bool) := {
  audit_failure_stored : forall now f log,
    PublishAuditFailure now f = (log, None) ->
    if enabled then exists p, log = [p] /\ pub_ok p = true else log = [];
  event_failure_stored : forall now f log,
    PublishEventFailure now f = (log, None) ->
    if enabled then exists p, log = [p] /\ pub_ok p = true else log = []
}.

(* ------------------------------------------------------------------ *)
(** ** Lemmas *)

Lemma publish_stored `{JetStream} `{DlqJson} config now ty f log :
  publish config now ty f = (log, None) ->
  exists data, json_marshal_dle (dlq_event now ty f) = inr data
    /\ log = [{| p_subject := dlq_subject config ty (f_resource f); p_data := data;
                 p_msgid := None; p_err := None |}].
Proof.
  unfold publish, do_publish. destruct (json_marshal_dle _) as [e|data]; [done|].
  destruct (js_Publish _ _ _) eqn:E; intros [= <-]. eauto.
Qed.

#[export] Instance NATS_laws `{JetStream} `{DlqJson} (config : DLQConfig) :
  DLQPublisherLaws (NATSDLQPublisher config) true.
Proof.
  split; intros now f log (data & _ & ->)%publish_stored; eauto.
Qed.

#[export] Instance noop_laws : DLQPublisherLaws noopDLQPublisher false.
Proof. split; by intros now f log [= <-]. Qed.

#[export] Instance NewDLQPublisher_laws `{JetStream} `{DlqJson} (config : DLQConfig) :
  DLQPublisherLaws (NewDLQPublisher config) (Enabled config).
Proof. unfold NewDLQPublisher. destruct (Enabled config); apply _. Qed.

Lemma publish_malformed `{JetStream} `{DlqJson} config now ty f :
  rawmessage_checked -> json_valid (f_payload f) = false ->
  exists e, publish config now ty f = ([], Some e).
Proof.
  intros Hraw Hbad. unfold publish.
  destruct (Hraw (dlq_event now ty f) Hbad) as [e ->]. eauto.
Qed.
