(* ===== verification/EventProc.v ===== *)
(** * internal/processor: the event processor and rule evaluation

    [internal/processor/event.go] (the pull-consumer worker that turns
    Kubernetes events into activities), [internal/processor/evaluate.go] (the
    rule evaluation shared by preview and reindexing) and
    [internal/processor/kind_resolver.go]. *)

From Stdlib Require Import Ascii String.
From stdpp Require Import base numbers list strings gmap pretty.
From Stdlib Require Import ZArith Lia.
From S2P Require Import Prelude GoLib Types CelPolicy Activity Dlq.

(** ** policy.go *)

Record MatchedPolicy := {
  mp_PolicyName : string; mp_Generation : Z; mp_APIGroup : string; mp_Kind : string;
  mp_Summary : string; mp_Links : list Link }.

(** The interface [EventPolicyLookup]. *)
Class EventPolicyLookup := {
  MatchEvent : string -> string -> gomap -> error + option MatchedPolicy
}.

(** ** kind_resolver.go

    A resettable REST mapper, with the discovery cache as explicit state. *)

Class RESTMapper := {
  mapper : Type;
  KindsFor : mapper -> string -> string -> error + list string;
  RESTMapping : mapper -> string -> string -> error + string;
  Reset_ : mapper -> mapper;
  IsNoMatchError : error -> bool
}.

Section Resolver.
Context `{RESTMapper}.

(** Look up, resetting the cache and trying once more on a no-match error. *)
Definition NewKindResolver (m : mapper) (apiGroup resource : string) : mapper * res string :=
  let failed e := Err (Errorf [PStr "failed to find kind for "; PStr apiGroup; PStr "/";
                               PStr resource; PStr ": "; PWrap e]) in
  let finish kinds :=
    match kinds with
    | [] => Err (Errorf [PStr "no kind found for "; PStr apiGroup; PStr "/"; PStr resource])
    | k :: _ => Ok k
    end in
  match KindsFor m apiGroup resource with
  | inl err =>
      if IsNoMatchError err then
        let m' := Reset_ m in
        match KindsFor m' apiGroup resource with
        | inl err' => (m', failed err')
        | inr kinds => (m', finish kinds)
        end
      else (m, failed err)
  | inr kinds => (m, finish kinds)
  end.

Definition NewResourceResolver (m : mapper) (apiGroup kind : string) : mapper * res string :=
  let failed e := Err (Errorf [PStr "failed to find resource mapping for "; PStr apiGroup; PStr "/";
                               PStr kind; PStr ": "; PWrap e]) in
  match RESTMapping m apiGroup kind with
  | inl err =>
      if IsNoMatchError err then
        let m' := Reset_ m in
        match RESTMapping m' apiGroup kind with
        | inl err' => (m', failed err')
        | inr r => (m', Ok r)
        end
      else (m, failed err)
  | inr r => (m, Ok r)
  end.
End Resolver.

(** ** evaluate.go *)

Record PolicyRule := { rule_Name : string; rule_Match : string; rule_Summary : string }.
Record PolicySpec := {
  ps_APIGroup : string; ps_Kind : string;
  AuditRules : list PolicyRule; EventRules : list PolicyRule }.

Record EvaluationResult := {
  er_Activity : option Activity;
  MatchedRuleIndex : Z;
  MatchedRuleType : string;
  MatchedRuleName : string }.

Definition no_match : EvaluationResult :=
  {| er_Activity := None; MatchedRuleIndex := -1; MatchedRuleType := ""; MatchedRuleName := "" |}.

(** What [toMap] may be given: a map, a map pointer, or a value that goes
    through JSON. *)
Inductive map_input :=
| InMap (m : gomap)
| InPtr (m : option gomap)
| InOther (marshalled : error + string).

Class EvalJson := {
  json_unmarshal_map : string -> error + option gomap;  (* [null] gives a nil map *)
  audit_json : AuditEvent -> error + string;
  activity_json : Activity -> error + string
}.

Section Evaluate.
Context `{CelEngine} `{ActivityLib} `{EvalJson}.

Definition toMap (data : map_input) : res gomap :=
  match data with
  | InMap m => Ok m
  | InPtr None => Err (Errorf [PStr "nil map pointer"])
  | InPtr (Some m) => Ok m
  | InOther j =>
      let? jsonData := wrap_err (of_sum j) (fun e => Errorf [PStr "failed to marshal data: "; PWrap e]) in
      let? m := wrap_err (of_sum (json_unmarshal_map jsonData))
                  (fun e => Errorf [PStr "failed to unmarshal to map: "; PWrap e]) in
      Ok (nil_map m)
  end.

(** [fmt.Errorf("failed to ... rule %d ...: %w", i, err)] *)
Definition rule_error (what : string) (i : Z) (rest : string) (e : error) : error :=
  Errorf [PStr what; PStr (pretty i); PStr rest; PWrap e].

(** The loop over the rules, from index [i]. *)
Fixpoint eval_rules (ruleType : string) (matches : string -> res bool)
    (summarize : string -> res (string * list Link))
    (build : string -> list Link -> res Activity) (i : Z) (rules : list PolicyRule)
  : res EvaluationResult :=
  match rules with
  | [] => Ok no_match
  | rule :: rest =>
      let? matched := wrap_err (matches (rule_Match rule))
                        (rule_error "failed to evaluate rule " i " match: ") in
      if matched : bool then
        let? sl := wrap_err (summarize (rule_Summary rule))
                     (rule_error "failed to evaluate rule " i " summary: ") in
        let? activity := wrap_err (build (fst sl) (snd sl))
                     (rule_error "failed to build activity for rule " i ": ") in
        Ok {| er_Activity := Some activity; MatchedRuleIndex := i;
              MatchedRuleType := ruleType; MatchedRuleName := rule_Name rule |}
      else eval_rules ruleType matches summarize build (i + 1) rest
  end.

Definition EvaluateAuditRules (now : time) (spec : PolicySpec) (audit : AuditEvent)
    (resolveKind : option KindResolver) : res EvaluationResult :=
  let? auditMap := wrap_err (toMap (InOther (audit_json audit)))
                     (fun e => Errorf [PStr "failed to convert audit data: "; PWrap e]) in
  let builder := {| b_APIGroup := ps_APIGroup spec; b_Kind := ps_Kind spec |} in
  eval_rules "audit" (fun m => EvaluateAuditMatchMap m auditMap)
    (fun s => EvaluateAuditSummaryMap s auditMap)
    (fun summary links => BuildFromAudit now builder audit summary links resolveKind)
    0 (AuditRules spec).

Definition EvaluateEventRules (now : time) (spec : PolicySpec) (eventData : map_input)
    (resolveKind : option KindResolver) : res EvaluationResult :=
  let? eventMap := wrap_err (toMap eventData)
                     (fun e => Errorf [PStr "failed to convert event data: "; PWrap e]) in
  let builder := {| b_APIGroup := ps_APIGroup spec; b_Kind := ps_Kind spec |} in
  eval_rules "event" (fun m => EvaluateEventMatch m eventMap)
    (fun s => EvaluateEventSummary s eventMap)
    (fun summary links => BuildFromEvent now builder eventMap summary links resolveKind)
    0 (EventRules spec).
End Evaluate.

(** ** event.go *)

Section EventProcessor.
Context `{ActivityLib} `{EvalJson} `{JetStream} `{EventPolicyLookup} (DLQ : DLQPublisher).
Context (activityPrefix : string).

Definition normalizeEvent (event involvedObject : gomap) : gomap :=
  match event !! "regarding" with
  | Some _ => event
  | None => <["regarding" := AMap involvedObject]> event
  end.

(** The link conversion of the live path. *)
Definition live_link (link : Link) : ActivityLink :=
  let r := Some (CelPolicy.Resource link) in
  {| link_Marker := Marker link;
     link_Resource := {| APIGroup := getStringFromMap r "apiGroup"; APIVersion := "";
                         Kind := getStringFromMap r "kind";
                         res_Name := getStringFromMap r "name";
                         res_Namespace := getStringFromMap r "namespace";
                         res_UID := getStringFromMap r "uid" |} |}.

Definition buildActivity (now : time) (event : gomap) (matched : MatchedPolicy)
    (summary : string) (links : list Link) : Activity :=
  let timestamp := resolveEventTimestamp now event in
  let source := ExtractSourceFromAnnotations event in
  let resourceObject := ResolveInvolvedObject event in
  let namespace := resolveActivityNamespace event resourceObject in
  let resourceName := getStringFromMap resourceObject "name" in
  let resourceUID := getStringFromMap resourceObject "uid" in
  let apiVersion := getStringFromMap resourceObject "apiVersion" in
  let (resourceKind, resourceAPIGroup) := resolveKindAndAPIGroup resourceObject in
  let actor := resolveActorFromEvent event in
  let changeSource := ChangeSourceSystem in
  let eventUID := match as_map (event !! "metadata") with
                  | Some metadata => getStringFromMap (Some metadata) "uid"
                  | None => ""
                  end in
  let originID := qualifiedOriginID source eventUID in
  let name := activityName "event" originID (mp_APIGroup matched) (mp_Kind matched) in
  {| APIVersion_ := SchemeGroupVersion; Kind_ := "Activity";
     Name := name; Namespace := namespace; CreationTimestamp := timestamp;
     Labels := eventActivityLabels changeSource (mp_APIGroup matched) (mp_Kind matched)
                 (getStringFromMap (Some event) "reason");
     Spec := {| Summary := summary; ChangeSource := changeSource; Actor := actor;
                Resource_ := {| APIGroup := resourceAPIGroup; APIVersion := apiVersion;
                                Kind := resourceKind; res_Name := resourceName;
                                res_Namespace := namespace; res_UID := resourceUID |};
                Links := map live_link links; Related := ResolveRelatedResources event;
                Tenant := ExtractTenantFromAnnotations event;
                Origin := {| org_Type := "event"; org_ID := originID |};
                Source := if decide (source = empty_source) then None else Some source |} |}.

Definition buildActivitySubject (activity : Activity) : string :=
  let or d s := if (s =? "")%string then d else s in
  let tenantType := or "platform" (ten_Type (Tenant (Spec activity))) in
  let tenantName := or "_" (ten_Name (Tenant (Spec activity))) in
  let apiGroup := or "core" (APIGroup (Resource_ (Spec activity))) in
  let origin := org_Type (Origin (Spec activity)) in
  let kind := Kind (Resource_ (Spec activity)) in
  let namespace := or "_" (res_Namespace (Resource_ (Spec activity))) in
  let name := Name activity in
  String.concat "." [activityPrefix; tenantType; tenantName; apiGroup; origin; kind; namespace; name].

Definition publishActivity (activity : Activity) : list pub * option error :=
  match activity_json activity with
  | inl e => ([], Some (Errorf [PStr "failed to marshal activity: "; PWrap e]))
  | inr data =>
      let (log, r) := do_publish (buildActivitySubject activity) data (Some (Name activity)) in
      match r with
      | Some e => (log, Some (Errorf [PStr "failed to publish activity to NATS: "; PWrap e]))
      | None => (log, None)
      end
  end.

(** The failure handed to the dead-letter queue for a payload. *)
Definition event_failure (payload : string) (policyName : string) (ruleIndex : Z)
    (ty : ErrorType) (err : error) (resource : option DeadLetterResource) : failure := {|
  f_payload := payload; f_policyName := policyName; f_policyVersion := 0;
  f_ruleIndex := ruleIndex; f_errorType := ty; f_err := Some err;
  f_resource := resource; f_tenant := None |}.

(** Dead-letter, or report the original error when that fails too. *)
Definition dead_letter (now : time) (f : failure) (what : string) (err : error)
  : list pub * option error :=
  let (log, r) := PublishEventFailure now f in
  match r with
  | Some _ => (log, Some (Errorf [PStr what; PWrap err]))
  | None => (log, None)
  end.

(** [processMessage]: the messages published and the error returned. *)
Definition processMessage (now : time) (data : string) : list pub * option error :=
  match json_unmarshal_map data with
  | inl err =>
      dead_letter now (event_failure data "" (-1) ErrorTypeUnmarshal err None)
        "failed to unmarshal event: " err
  | inr m =>
      let event := nil_map m in
      match ResolveInvolvedObject event with
      | None => ([], None)
      | Some involvedObject =>
          let (kind, apiGroup) := resolveKindAndAPIGroup (Some involvedObject) in
          if (kind =? "")%string then ([], None)
          else
            let dlqResource :=
              {| dlr_APIGroup := apiGroup; dlr_Kind := kind;
                 dlr_Name := getStringFromMap (Some involvedObject) "name";
                 dlr_Namespace := getStringFromMap (Some involvedObject) "namespace" |} in
            match MatchEvent apiGroup kind (normalizeEvent event involvedObject) with
            | inl err =>
                let '(policyName, ruleIndex) :=
                  match errors_As_policy err with
                  | Some (n, i, _) => (n, i)
                  | None => ("", (-1)%Z)
                  end in
                dead_letter now
                  (event_failure data policyName ruleIndex ErrorTypeCELSummary err (Some dlqResource))
                  "failed to match event against policies: " err
            | inr None => ([], None)
            | inr (Some matched) =>
                let activity := buildActivity now event matched (mp_Summary matched) (mp_Links matched) in
                let (log, r) := publishActivity activity in
                match r with
                | Some e => (log, Some (Errorf [PStr "failed to publish activity: "; PWrap e]))
                | None => (log, None)
                end
            end
      end
  end.

Inductive disposition := Acked | Naked.

(** The loop of [worker] over one fetched batch. *)
Fixpoint worker_batch (now : time) (msgs : list string) : list pub * list disposition :=
  match msgs with
  | [] => ([], [])
  | msg :: rest =>
      let (log, r) := processMessage now msg in
      let d := match r with Some _ => Naked | None => Acked end in
      let (log', ds) := worker_batch now rest in
      (log ++ log', d :: ds)
  end.
End EventProcessor.

(* ------------------------------------------------------------------ *)
(** ** Lemmas *)

(** An activity with other links. *)
Definition with_links (a : Activity) (ls : list ActivityLink) : Activity :=
  {| APIVersion_ := APIVersion_ a; Kind_ := Kind_ a; Name := Name a; Namespace := Namespace a;
     CreationTimestamp := CreationTimestamp a; Labels := Labels a;
     Spec := {| Summary := Summary (Spec a); ChangeSource := ChangeSource (Spec a);
                Actor := Actor (Spec a); Resource_ := Resource_ (Spec a); Links := ls;
                Related := Related (Spec a); Tenant := Tenant (Spec a);
                Origin := Origin (Spec a); Source := Source (Spec a) |} |}.

(** A link whose resource names everything at top level and carries no
    [apiVersion]: both conversions agree on it. *)
Definition plain_link (l : Link) : Prop :=
  let get := getStringFromMap (Some (CelPolicy.Resource l)) in
  get "kind" <> "" /\ get "apiVersion" = "" /\ CelPolicy.Resource l !! "metadata" = None.

Lemma plain_link_convert (l : Link) (rk : option KindResolver) :
  plain_link l -> convert_link rk l = Ok (live_link l).
Proof.
  intros (Hk & Hv & Hm). unfold convert_link, live_link.
  apply String.eqb_neq in Hk. rewrite Hk. cbn [res_bind]. rewrite Hv.
  assert (forall k, GetNestedString (Some (CelPolicy.Resource l)) ["metadata"; k] = "") as Hn
    by (intros k; cbn; by rewrite Hm).
  rewrite !Hn, Hk, String.eqb_refl, andb_false_r.
  repeat f_equal;
    match goal with
    | |- (if (?x =? "")%string then "" else ?x) = ?x => by destruct (String.eqb_spec x "") as [->|]
    end.
Qed.

Lemma plain_links_convert links rk :
  Forall plain_link links -> ConvertLinks links rk = Ok (map live_link links).
Proof.
  induction 1 as [|l links Hl _ IH]; [done|]. cbn [ConvertLinks map].
  by rewrite plain_link_convert, IH.
Qed.

Section EvalLemmas.
Context `{CelEngine} `{ActivityLib} `{EvalJson}.

(** First-match semantics of the rule loop. *)
Lemma eval_rules_spec ty matches summarize build i rules r :
  eval_rules ty matches summarize build i rules = Ok r <->
  (r = no_match /\ forall rule, rule ∈ rules -> matches (rule_Match rule) = Ok false)
  \/ exists k rule s ls a,
       rules !! k = Some rule
       /\ (forall j rule', (j < k)%nat -> rules !! j = Some rule' ->
           matches (rule_Match rule') = Ok false)
       /\ matches (rule_Match rule) = Ok true
       /\ summarize (rule_Summary rule) = Ok (s, ls)
       /\ build s ls = Ok a
       /\ r = {| er_Activity := Some a; MatchedRuleIndex := i + Z.of_nat k;
                 MatchedRuleType := ty; MatchedRuleName := rule_Name rule |}.
Proof.
  revert i. induction rules as [|rule rules IH]; intros i; cbn [eval_rules].
  - split.
    + intros [= <-]. left. split; [done|set_solver].
    + intros [[-> _]|(k & ? & ? & ? & ? & Hk & _)]; [done|by rewrite lookup_nil in Hk].
  - rewrite res_bind_ok. setoid_rewrite wrap_err_ok. split.
    + intros (b & Hb & Hr). destruct b.
      * right. apply res_bind_ok in Hr as ([s ls] & Hs%wrap_err_ok & Hr).
        apply res_bind_ok in Hr as (a & Ha%wrap_err_ok & [= <-]).
        exists O, rule, s, ls, a. cbn. rewrite Z.add_0_r. split_and!; try done.
        intros; lia.
      * apply IH in Hr as [[-> Hall]|(k & rule' & s & ls & a & Hk & Hbefore & Hm & Hs & Ha & ->)].
        -- left. split; [done|]. intros x. rewrite elem_of_cons. intros [->|?]; auto.
        -- right. exists (S k), rule', s, ls, a. split_and!; try done.
           ++ intros [|j] x Hj Hx; [by injection Hx as <-|]. apply (Hbefore j); [lia|done].
           ++ f_equal. lia.
    + intros [[-> Hall]|(k & rule' & s & ls & a & Hk & Hbefore & Hm & Hs & Ha & ->)].
      * exists false. split; [apply Hall; set_solver|]. apply IH. left.
        split; [done|]. intros; apply Hall; set_solver.
      * destruct k as [|k].
        -- injection Hk as ->. exists true. split; [done|].
           rewrite Hs. cbn [wrap_err res_bind fst snd]. rewrite Ha. cbn. do 2 f_equal; lia.
        -- exists false. split; [apply (Hbefore O); [lia|done]|]. apply IH. right.
           exists k, rule', s, ls, a. split_and!; try done.
           ++ intros j x Hj Hx. apply (Hbefore (S j)); [lia|done].
           ++ f_equal. lia.
Qed.
End EvalLemmas.

Section EventLemmas.
Context `{ActivityLib} `{EvalJson} `{JetStream} `{EventPolicyLookup}.

Lemma dead_letter_ack (DLQ : DLQPublisher) (enabled : bool) `{!DLQPublisherLaws DLQ enabled} now f what err log :
  dead_letter DLQ now f what err = (log, None) ->
  if enabled then exists p, log = [p] /\ pub_ok p = true else log = [].
Proof.
  unfold dead_letter. destruct (PublishEventFailure now f) as [l r] eqn:E.
  destruct r; intros [= <-]. by apply (event_failure_stored now f).
Qed.

Lemma publishActivity_ack prefix a log :
  publishActivity prefix a = (log, None) ->
  exists data, activity_json a = inr data
    /\ log = [{| p_subject := buildActivitySubject prefix a; p_data := data;
                 p_msgid := Some (Name a); p_err := None |}].
Proof.
  unfold publishActivity, do_publish. destruct (activity_json a) as [e|data]; [done|].
  destruct (js_Publish _ _ _) eqn:E; intros [= <-]. eauto.
Qed.
End EventLemmas.

(** Concrete services for the examples: the JSON documents are those listed in
    [valid_docs] (anything else is malformed), every publish succeeds except on
    subjects under [down.]. *)
Module ToyServices.
Definition event0 : gomap :=
  <["reason" := AStr "Scaled"]>
  (<["metadata" := AMap (<["uid" := AStr "e1"]> ∅)]>
  (<["involvedObject" := AMap (<["kind" := AStr "Deployment"]>
       (<["name" := AStr "web"]> (<["apiVersion" := AStr "apps/v1"]> ∅)))]> ∅)).

Definition json : EvalJson := {|
  json_unmarshal_map := fun s =>
    if (s =? "event0")%string then inr (Some event0)
    else if (s =? "null")%string then inr None else inl (Ext "invalid character");
  audit_json := fun a => inr (AuditID a);
  activity_json := fun a => inr (Name a) |}.
Definition js : JetStream := {|
  js_Publish := fun subj _ _ => if HasPrefix subj "down." then Some (Ext "no responders") else None |}.
Definition valid_docs : list string := ["event0"; "null"; "[]"; "audit1"].
Definition dlqjson : DlqJson := {|
  json_valid := fun s => bool_decide (s ∈ valid_docs);
  json_marshal_dle := fun d =>
    if bool_decide (OriginalPayload d ∈ valid_docs)
    then inr (dl_Error d) else inl (Ext "invalid character in RawMessage") |}.
Definition lookup : EventPolicyLookup := {|
  MatchEvent := fun g k _ =>
    if (k =? "Deployment")%string
    then inr (Some {| mp_PolicyName := "p"; mp_Generation := 1; mp_APIGroup := g; mp_Kind := k;
                      mp_Summary := "scaled"; mp_Links := [] |})
    else inr None |}.
Definition publisher : DLQPublisher := @NewDLQPublisher js dlqjson DefaultDLQConfig.
End ToyServices.

Definition toy_process (payload : string) : list pub * option error :=
  @processMessage ToyLib.toy ToyServices.json ToyServices.js ToyServices.lookup
    ToyServices.publisher "act" 7%Z payload.

Example toy_process_event0 :
  map p_subject (fst (toy_process "event0")) = ["act.platform._.apps.event.Deployment._.act-event" +:+ nul +:+ "e1" +:+ nul +:+ "app"].
Proof. vm_compute. reflexivity. Qed.

(* ------------------------------------------------------------------ *)
(** ** Properties *)

(** C4: the event processor acknowledges a message only when its fate is
    settled: a message that is skipped publishes nothing; one that could not be
    parsed, or on which a policy failed, has been stored in the dead-letter
    queue (when that is enabled); and one a policy matched has exactly one
    activity stored, on the subject of that activity and with its name as
    message identifier. *)
Theorem processMessage_ack `{ActivityLib} `{EvalJson} `{JetStream} `{EventPolicyLookup}
    (DLQ : DLQPublisher) (enabled : bool) `{!DLQPublisherLaws DLQ enabled}
    (prefix : string) (now : time) (data : string) (log : list pub) :
  processMessage DLQ prefix now data = (log, None) ->
  let dead_lettered := if enabled then exists p, log = [p] /\ pub_ok p = true else log = [] in
  match json_unmarshal_map data with
  | inl _ => dead_lettered
  | inr m =>
      match ResolveInvolvedObject (nil_map m) with
      | None => log = []
      | Some obj =>
          let (kind, apiGroup) := resolveKindAndAPIGroup (Some obj) in
          kind = "" /\ log = []
          \/ kind <> "" /\
             match MatchEvent apiGroup kind (normalizeEvent (nil_map m) obj) with
             | inl _ => dead_lettered
             | inr None => log = []
             | inr (Some matched) =>
                 let a := buildActivity now (nil_map m) matched (mp_Summary matched) (mp_Links matched) in
                 exists d, activity_json a = inr d
                   /\ log = [{| p_subject := buildActivitySubject prefix a; p_data := d;
                                p_msgid := Some (Name a); p_err := None |}]
             end
      end
  end.
Proof.
  intros Hp. cbv zeta. unfold processMessage in Hp.
  destruct (json_unmarshal_map data) as [e|m]; [by eapply dead_letter_ack|].
  destruct (ResolveInvolvedObject (nil_map m)) as [obj|]; [|by injection Hp].
  destruct (resolveKindAndAPIGroup (Some obj)) as [kind apiGroup].
  destruct (String.eqb_spec kind "") as [->|Hk]; [left; by injection Hp|right; split; [done|]].
  destruct (MatchEvent apiGroup kind _) as [e|[matched|]].
  - destruct (match errors_As_policy e with Some (n, i, _) => (n, i) | None => ("", (-1)%Z) end).
    by eapply dead_letter_ack.
  - destruct (publishActivity prefix _) as [l r] eqn:E.
    destruct r; [done|]. injection Hp as <-. by apply publishActivity_ack in E.
  - by injection Hp.
Qed.

Lemma processMessage_ack_witness :
  exists p, fst (toy_process "event0") = [p] /\ p_err p = None.
Proof.
  pose proof (@processMessage_ack ToyLib.toy ToyServices.json ToyServices.js ToyServices.lookup
    ToyServices.publisher true _ "act" 7%Z "event0" (fst (toy_process "event0")) eq_refl) as Hw.
  cbv zeta in Hw. cbn [json_unmarshal_map ToyServices.json String.eqb Ascii.eqb Bool.eqb] in Hw.
  destruct Hw as [[Hw _]|[_ (d & _ & Hw)]]; [discriminate Hw|].
  eexists. split; [exact Hw|reflexivity].
Defined.

(** A payload that is not JSON is never dead-lettered: the dead letter
    embeds it as a raw JSON message, which the encoder rejects, so nothing is
    published and the message is negatively acknowledged, to be redelivered. *)
Theorem malformed_event_naked `{ActivityLib} `{EvalJson} `{JetStream} `{EventPolicyLookup} `{DlqJson}
    (config : DLQConfig) (prefix : string) (now : time) (data : string) :
  Enabled config = true ->
  rawmessage_checked ->
  (json_valid data = false -> exists e, json_unmarshal_map data = inl e) ->
  json_valid data = false ->
  exists e, processMessage (NewDLQPublisher config) prefix now data = ([], Some e).
Proof.
  intros Hen Hraw Hun Hbad. destruct (Hun Hbad) as [e He].
  unfold processMessage. rewrite He. unfold dead_letter, NewDLQPublisher. rewrite Hen.
  cbn [negb PublishEventFailure NATSDLQPublisher].
  destruct (publish_malformed config now EventTypeK8sEvent
    (event_failure data "" (-1) ErrorTypeUnmarshal e None) Hraw Hbad) as [e' ->].
  eauto.
Qed.

Lemma malformed_event_naked_witness :
  exists e, toy_process "{oops" = ([], Some e).
Proof.
  apply (@malformed_event_naked ToyLib.toy ToyServices.json ToyServices.js ToyServices.lookup
    ToyServices.dlqjson DefaultDLQConfig); [reflexivity| |intros _; eexists; reflexivity|reflexivity].
  intros d Hd. cbn [json_valid json_marshal_dle ToyServices.dlqjson] in *. rewrite Hd.
  eexists. reflexivity.
Defined.

(** The live event processor and the builder used by preview and
    reindexing make the same activity of the same event and policy, links
    apart; they agree on the links too when every linked resource gives its
    kind, name, namespace and UID at top level and no [apiVersion].  In
    particular both give the activity the same name, hence the same message
    identifier, at any time and with any summary. *)
Theorem event_paths_agree `{ActivityLib} (now now' : time) (event : gomap)
    (matched : MatchedPolicy) (s s' : string) (links links' : list Link)
    (rk : option KindResolver) (a : Activity) :
  BuildFromEvent now {| b_APIGroup := mp_APIGroup matched; b_Kind := mp_Kind matched |}
    event s links rk = Ok a ->
  a = with_links (buildActivity now event matched s links) (Links (Spec a))
  /\ (Forall plain_link links -> a = buildActivity now event matched s links)
  /\ Name a = Name (buildActivity now' event matched s' links')
  /\ Name a = activityName "event" (org_ID (Origin (Spec a))) (mp_APIGroup matched) (mp_Kind matched).
Proof.
  unfold BuildFromEvent, buildActivity, event_uid.
  destruct (resolveKindAndAPIGroup (ResolveInvolvedObject event)) as [kind group].
  rewrite !GetNestedString_1.
  assert (match as_map (event !! "metadata") with
          | Some metadata => GetNestedString (Some metadata) ["uid"] | None => "" end
          = match as_map (event !! "metadata") with
            | Some metadata => getStringFromMap (Some metadata) "uid" | None => "" end) as ->
    by (destruct (as_map _); [apply GetNestedString_1|done]).
  intros (ls & Hls%wrap_err_ok & [= <-])%res_bind_ok. unfold with_links. cbn.
  split; [done|]. split; [|done].
  intros Hp. rewrite (plain_links_convert _ _ Hp) in Hls. by injection Hls as <-.
Qed.

Definition toy_matched : MatchedPolicy :=
  {| mp_PolicyName := "p"; mp_Generation := 1; mp_APIGroup := "apps"; mp_Kind := "Deployment";
     mp_Summary := "x"; mp_Links := [] |}.

Lemma event_paths_agree_witness :
  exists a, @BuildFromEvent ToyLib.toy 9%Z {| b_APIGroup := "apps"; b_Kind := "Deployment" |}
              ToyServices.event0 "x" [] None = Ok a
    /\ Name a = Name (@buildActivity ToyLib.toy 10%Z ToyServices.event0 toy_matched "y" []).
Proof.
  eexists. split; [reflexivity|].
  exact (proj1 (proj2 (proj2 (@event_paths_agree ToyLib.toy 9%Z 10%Z ToyServices.event0 toy_matched
    "x" "y" [] [] None _ eq_refl)))).
Defined.

(** A link to an object that has a combined [apiVersion] gets its API group on
    one path only. *)
Example link_group_divergence :
  let l := {| Marker := "web"; CelPolicy.Resource := <["kind" := AStr "Deployment"]>
                                 (<["apiVersion" := AStr "apps/v1"]> ∅) |} in
  APIGroup (link_Resource (live_link l)) = ""
  /\ exists x, convert_link None l = Ok x /\ APIGroup (link_Resource x) = "apps".
Proof. split; [reflexivity|]. eexists. split; [vm_compute|]; reflexivity. Qed.

(** Rule evaluation is first match: [EvaluateEventRules] gives an activity
    iff some rule matches, every rule before it evaluates to false (a rule whose
    match fails ends the evaluation), and its summary and activity can be
    built; the index and name reported are that rule's.  It reports no match
    iff every rule evaluates to false. *)
Theorem EvaluateEventRules_first_match `{CelEngine} `{ActivityLib} `{EvalJson}
    (now : time) (spec : PolicySpec) (event : gomap) (rk : option KindResolver)
    (r : EvaluationResult) :
  let rules := EventRules spec in
  let matches rule := EvaluateEventMatch (rule_Match rule) event in
  EvaluateEventRules now spec (InMap event) rk = Ok r <->
  (r = no_match /\ forall rule, rule ∈ rules -> matches rule = Ok false)
  \/ exists k rule s ls a,
       rules !! k = Some rule
       /\ (forall j rule', (j < k)%nat -> rules !! j = Some rule' -> matches rule' = Ok false)
       /\ matches rule = Ok true
       /\ EvaluateEventSummary (rule_Summary rule) event = Ok (s, ls)
       /\ BuildFromEvent now {| b_APIGroup := ps_APIGroup spec; b_Kind := ps_Kind spec |}
            event s ls rk = Ok a
       /\ r = {| er_Activity := Some a; MatchedRuleIndex := Z.of_nat k;
                 MatchedRuleType := "event"; MatchedRuleName := rule_Name rule |}.
Proof.
  exact (eval_rules_spec "event" (fun m => EvaluateEventMatch m event)
    (fun s => EvaluateEventSummary s event)
    (fun summary links => BuildFromEvent now
       {| b_APIGroup := ps_APIGroup spec; b_Kind := ps_Kind spec |} event summary links rk)
    0 (EventRules spec) r).
Qed.

(** Kind resolution refreshes the discovery cache at most once and only
    when the mapper reports no match; a kind it returns is the first kind the
    mapper lists for the resource, in the cache it leaves behind. *)
Theorem NewKindResolver_spec `{RESTMapper} (m : mapper) (g r : string) :
  let (m', res) := NewKindResolver m g r in
  (m' = m \/ m' = Reset_ m /\ exists e, KindsFor m g r = inl e /\ IsNoMatchError e = true)
  /\ match res with
     | Ok k => exists ks, KindsFor m' g r = inr (k :: ks)
     | Err e => KindsFor m' g r = inr [] \/ exists e', KindsFor m' g r = inl e'
     | Panic _ => False
     end.
Proof.
  unfold NewKindResolver.
  destruct (KindsFor m g r) as [e|[|k ks]] eqn:E1; [|split; [by left|eauto]..].
  destruct (IsNoMatchError e) eqn:E2; [|split; [by left|eauto]].
  destruct (KindsFor (Reset_ m) g r) as [e'|[|k ks]] eqn:E3; (split; [right; split; eauto|eauto]).
Qed.
