(* ===== verification/GoSlice.v ===== *)
(** * Go slices that share backing arrays

    A heap of backing arrays and slices that point into it, with [append]
    (in place when there is capacity, in a fresh array otherwise), element
    assignment and reslicing from the front, as the policy cache uses them.
    Two maps of slices over one heap, the separation invariant under which
    they behave as maps of lists, and the refinement of their operations to
    operations on lists. *)

From stdpp Require Import base numbers list gmap strings.
From Stdlib Require Import Lia.
From S2P Require Import Prelude.

(** A backing array: the elements written so far and the capacity. *)
Record cell (A : Type) := { written : list A; ccap : nat }.
Arguments written {A}.
Arguments ccap {A}.

Record heap (A : Type) := { cells : gmap nat (cell A); next : nat }.
Arguments cells {A}.
Arguments next {A}.

(** A slice starts at index 0 of its array; the nil slice has no array. *)
Record slice := { sptr : option nat; slen : nat }.
Definition nil_slice : slice := {| sptr := None; slen := 0 |}.

Section Slices.
Context {A : Type}.
Implicit Types (h : heap A) (s : slice) (m : gmap string slice).

Definition empty_heap : heap A := {| cells := ∅; next := 0 |}.

Definition slice_elems h s : list A :=
  match sptr s with
  | None => []
  | Some p => match cells h !! p with
              | Some c => take (slen s) (written c)
              | None => []
              end
  end.

(** [s[i]] read through the heap as it is now. *)
Definition slice_get h s (i : nat) : option A :=
  match sptr s with
  | None => None
  | Some p => match cells h !! p with
              | Some c => if (i <? slen s)%nat then written c !! i else None
              | None => None
              end
  end.

(** [s[i] = x] *)
Definition slice_set h s (i : nat) (x : A) : heap A :=
  match sptr s with
  | None => h
  | Some p => match cells h !! p with
              | Some c => {| cells := <[p := {| written := <[i := x]> (written c); ccap := ccap c |}]> (cells h);
                             next := next h |}
              | None => h
              end
  end.

(** [append(s, x)]; [grow n] is the capacity chosen when [n] elements are full. *)
Definition slice_append (grow : nat -> nat) h s (x : A) : heap A * slice :=
  let realloc :=
    let c := {| written := slice_elems h s ++ [x]; ccap := Nat.max (S (slen s)) (grow (slen s)) |} in
    ({| cells := <[next h := c]> (cells h); next := S (next h) |},
     {| sptr := Some (next h); slen := S (slen s) |}) in
  match sptr s with
  | None => realloc
  | Some p =>
      match cells h !! p with
      | None => realloc
      | Some c =>
          if (slen s <? ccap c)%nat then
            let w := if (slen s <? length (written c))%nat
                     then <[slen s := x]> (written c) else written c ++ [x] in
            ({| cells := <[p := {| written := w; ccap := ccap c |}]> (cells h); next := next h |},
             {| sptr := Some p; slen := S (slen s) |})
          else realloc
      end
  end.

(** [s[:len(s)-1]] *)
Definition slice_drop_last s : slice := {| sptr := sptr s; slen := pred (slen s) |}.

(** *** Lists *)

(** [l[i] = l[len-1]; l = l[:len-1]] *)
Definition swap_remove (i : nat) (l : list A) : list A :=
  match l !! pred (length l) with
  | Some z => take (pred (length l)) (<[i := z]> l)
  | None => l
  end.

Fixpoint find_index (f : A -> bool) (l : list A) : option nat :=
  match l with
  | [] => None
  | a :: l' => if f a then Some 0%nat else option_map S (find_index f l')
  end.

(** *** Lemmas on lists *)

Lemma swap_remove_snoc (l : list A) (z : A) (i : nat) :
  (i <= length l)%nat -> swap_remove i (l ++ [z]) = if decide (i = length l) then l else <[i := z]> l.
Proof.
  intros Hi. unfold swap_remove. rewrite length_app. simpl.
  replace (pred (length l + 1)) with (length l) by lia.
  rewrite lookup_app_r, Nat.sub_diag by lia. simpl.
  destruct (decide (i = length l)) as [->|Hne].
  - rewrite insert_app_r_alt, Nat.sub_diag by lia. simpl. by rewrite take_app_length.
  - rewrite insert_app_l by lia. rewrite <- (length_insert l i z) at 1. by rewrite take_app_length.
Qed.

(** Swap-removal drops exactly one occurrence of the element at the index. *)
Lemma swap_remove_perm (l : list A) (i : nat) (x : A) :
  l !! i = Some x -> l ≡ₚ x :: swap_remove i l.
Proof.
  intros Hx. destruct l as [|z l _] using rev_ind; [done|].
  pose proof (lookup_lt_Some _ _ _ Hx) as Hi. rewrite length_app in Hi. simpl in Hi.
  rewrite swap_remove_snoc by lia.
  destruct (decide (i = length l)) as [->|Hne].
  - rewrite lookup_app_r, Nat.sub_diag in Hx by lia. injection Hx as ->.
    by rewrite Permutation_app_comm.
  - rewrite lookup_app_l in Hx by lia.
    rewrite <- (take_drop_middle l i x Hx) at 1.
    rewrite insert_take_drop by lia.
    rewrite (Permutation_app_comm _ [z]). simpl.
    rewrite <- !Permutation_middle. apply perm_swap.
Qed.

Lemma swap_remove_length (l : list A) (i : nat) :
  (i < length l)%nat -> length (swap_remove i l) = pred (length l).
Proof.
  intros Hi. destruct (lookup_lt_is_Some_2 l i Hi) as [x Hx].
  pose proof (Permutation_length (swap_remove_perm l i x Hx)) as E. simpl in E. lia.
Qed.

Lemma find_index_Some (f : A -> bool) (l : list A) (i : nat) :
  find_index f l = Some i -> exists x, l !! i = Some x /\ f x = true.
Proof.
  revert i. induction l as [|a l IH]; intros i; [done|]. cbn.
  destruct (f a) eqn:E; [intros [= <-]; eauto|].
  destruct (find_index f l) as [j|]; [|done]. intros [= <-]. exact (IH j eq_refl).
Qed.

Lemma find_index_None (f : A -> bool) (l : list A) :
  find_index f l = None <-> forall x, x ∈ l -> f x = false.
Proof.
  induction l as [|a l IH]; cbn; [split; [intros _ x; set_solver|done]|].
  setoid_rewrite elem_of_cons. destruct (f a) eqn:E.
  - split; [done|]. intros H. specialize (H a (or_introl eq_refl)). congruence.
  - assert (option_map S (find_index f l) = None <-> find_index f l = None) as ->
      by (by destruct (find_index f l)).
    rewrite IH. naive_solver.
Qed.
End Slices.

(** ** Two maps of slices over one heap *)

Section SliceMaps.
Context {A : Type}.
Implicit Types (h : heap A) (s : slice) (m : gmap string slice).

Definition get_slice m (k : string) : slice := default nil_slice (m !! k).

(** [m[k] = append(m[k], x)] *)
Definition append_key (grow : nat -> nat) h m (k : string) (x : A) : heap A * gmap string slice :=
  let (h', s') := slice_append grow h (get_slice m k) x in (h', <[k := s']> m).

(** Search by predicate, swap with the last element, truncate, and delete the
    key when nothing is left. *)
Definition remove_key (f : A -> bool) h m (k : string) : heap A * gmap string slice :=
  let s := get_slice m k in
  let '(h', m') :=
    match find_index f (slice_elems h s) with
    | Some i =>
        match slice_get h s (pred (slen s)) with
        | Some z => (slice_set h s i z, <[k := slice_drop_last s]> m)
        | None => (h, m)
        end
    | None => (h, m)
    end in
  (h', if (slen (get_slice m' k) =? 0)%nat then delete k m' else m').

(** The specification: a map of lists, without empty lists. *)
Definition spec_append (v : gmap string (list A)) (k : string) (x : A) : gmap string (list A) :=
  <[k := default [] (v !! k) ++ [x]]> v.
Definition spec_remove (f : A -> bool) (v : gmap string (list A)) (k : string) : gmap string (list A) :=
  let l := default [] (v !! k) in
  let l' := match find_index f l with Some i => swap_remove i l | None => l end in
  match l' with [] => delete k v | _ => <[k := l']> v end.

Definition view h m : gmap string (list A) := slice_elems h <$> m.

Definition slice_ok h s : Prop :=
  exists p c, sptr s = Some p /\ cells h !! p = Some c /\ (0 < slen s <= length (written c))%nat
              /\ (p < next h)%nat.

(** Every slice of either map points to its own live array. *)
Definition Sep h (sel : bool -> gmap string slice) : Prop :=
  (forall b k s, sel b !! k = Some s -> slice_ok h s)
  /\ (forall b k s b' k' s', sel b !! k = Some s -> sel b' !! k' = Some s' ->
      (b, k) <> (b', k') -> sptr s <> sptr s').

Definition upd (sel : bool -> gmap string slice) (b : bool) m : bool -> gmap string slice :=
  fun b' => if Bool.eqb b' b then m else sel b'.

Lemma slice_elems_frame h h' s :
  (forall p, sptr s = Some p -> cells h' !! p = cells h !! p) -> slice_elems h' s = slice_elems h s.
Proof. unfold slice_elems. intros H. destruct (sptr s) as [p|]; [|done]. by rewrite H. Qed.

Lemma slice_ok_length h s : slice_ok h s -> length (slice_elems h s) = slen s.
Proof.
  intros (p & c & Hp & Hc & Hl & _). unfold slice_elems. rewrite Hp, Hc, length_take. lia.
Qed.

Lemma get_slice_elems h m k : slice_elems h (get_slice m k) = default [] (view h m !! k).
Proof. unfold get_slice, view. rewrite lookup_fmap. by destruct (m !! k). Qed.

(** A change confined to the array of one key (or to a fresh one). *)
Lemma Sep_update h h' sel b k s' :
  Sep h sel ->
  (forall p, (p < next h)%nat -> sptr (get_slice (sel b) k) <> Some p -> cells h' !! p = cells h !! p) ->
  (next h <= next h')%nat ->
  sptr s' = sptr (get_slice (sel b) k) \/ sptr s' = Some (next h) ->
  slice_ok h' s' ->
  Sep h' (upd sel b (<[k := s']> (sel b)))
  /\ view h' (<[k := s']> (sel b)) = <[k := slice_elems h' s']> (view h (sel b))
  /\ view h' (sel (negb b)) = view h (sel (negb b)).
Proof.
  intros [Hok Hdis] Hframe Hnext Hptr Hs'.
  assert (forall b' k' s, sel b' !! k' = Some s -> (b', k') <> (b, k) ->
    sptr s <> sptr s' /\ slice_ok h' s /\ slice_elems h' s = slice_elems h s) as Hother.
  { intros b' k' s Hs Hne. destruct (Hok _ _ _ Hs) as (p & c & Hp & Hc & Hl & Hlt).
    assert (sptr (get_slice (sel b) k) <> Some p) as Hnp.
    { unfold get_slice. destruct (sel b !! k) as [s0|] eqn:E0; [|done]. simpl.
      rewrite <- Hp. intros Heq. exact (Hdis _ _ _ _ _ _ Hs E0 Hne (eq_sym Heq)). }
    assert (cells h' !! p = cells h !! p) as Hcp by (by apply Hframe).
    split; [|split].
    - destruct Hptr as [-> | ->]; [congruence|rewrite Hp; intros [=]; lia].
    - exists p, c. rewrite Hcp. split_and!; try done; lia.
    - apply slice_elems_frame. intros q Hq. congruence. }
  split; [split|split].
  - intros b' k' s. unfold upd. destruct (Bool.eqb_spec b' b) as [->|Hb].
    + destruct (decide (k' = k)) as [->|Hk].
      * rewrite lookup_insert_eq. by intros [= <-].
      * rewrite lookup_insert_ne by done. intros Hs. by apply (Hother b k' s); [|congruence].
    + intros Hs. by apply (Hother b' k' s); [|congruence].
  - intros b1 k1 s1 b2 k2 s2. unfold upd.
    assert (forall b' k' s, (if Bool.eqb b' b then <[k:=s']> (sel b) else sel b') !! k' = Some s ->
      (b', k') = (b, k) /\ s = s' \/ (b', k') <> (b, k) /\ sel b' !! k' = Some s) as Hcase.
    { intros b' k' s. destruct (Bool.eqb_spec b' b) as [->|Hb].
      - destruct (decide (k' = k)) as [->|Hk]; [rewrite lookup_insert_eq|rewrite lookup_insert_ne by done].
        + intros [= <-]. by left.
        + intros. right. split; [congruence|done].
      - intros. right. split; [congruence|done]. }
    intros [[E1 ->]|[N1 H1]]%Hcase [[E2 ->]|[N2 H2]]%Hcase Hne.
    + congruence.
    + intros E. symmetry in E. revert E. by apply (Hother b2 k2 s2).
    + by apply (Hother b1 k1 s1).
    + exact (Hdis _ _ _ _ _ _ H1 H2 Hne).
  - unfold view. rewrite fmap_insert. apply map_eq. intros k'.
    destruct (decide (k' = k)) as [->|Hk]; [by rewrite !lookup_insert_eq|].
    rewrite !lookup_insert_ne, !lookup_fmap by done.
    destruct (sel b !! k') as [s|] eqn:E; [|done]. simpl. f_equal.
    by apply (Hother b k' s); [|congruence].
  - unfold view. apply map_fmap_ext. intros k' s E.
    apply (Hother (negb b) k' s); [done|]. intros [= Hb _]; by destruct b.
Qed.

Lemma take_S_insert (l : list A) (n : nat) (x : A) :
  (n < length l)%nat -> take (S n) (<[n := x]> l) = take n l ++ [x].
Proof.
  intros Hn. rewrite (take_S_r _ _ x) by (by apply list_lookup_insert_eq).
  by rewrite take_insert_ge.
Qed.

Lemma slice_append_spec grow h sel b k x :
  Sep h sel ->
  let s := get_slice (sel b) k in
  let (h', s') := slice_append grow h s x in
  (forall p, (p < next h)%nat -> sptr s <> Some p -> cells h' !! p = cells h !! p)
  /\ (next h <= next h')%nat
  /\ (sptr s' = sptr s \/ sptr s' = Some (next h))
  /\ slice_ok h' s'
  /\ slice_elems h' s' = slice_elems h s ++ [x].
Proof.
  intros [Hok _]. cbv zeta. set (s := get_slice (sel b) k).
  assert (s = nil_slice \/ slice_ok h s) as Hs.
  { unfold s, get_slice. destruct (sel b !! k) eqn:E; [right; by eapply Hok|by left]. }
  assert (length (slice_elems h s) = slen s) as Hlen.
  { destruct Hs as [->|Hs]; [done|by apply slice_ok_length]. }
  assert (let c := {| written := slice_elems h s ++ [x]; ccap := Nat.max (S (slen s)) (grow (slen s)) |} in
    let h' := {| cells := <[next h := c]> (cells h); next := S (next h) |} in
    let s' := {| sptr := Some (next h); slen := S (slen s) |} in
    (forall p, (p < next h)%nat -> sptr s <> Some p -> cells h' !! p = cells h !! p)
    /\ (next h <= next h')%nat /\ (sptr s' = sptr s \/ sptr s' = Some (next h))
    /\ slice_ok h' s' /\ slice_elems h' s' = slice_elems h s ++ [x]) as Hrealloc.
  { revert Hlen. generalize (slice_elems h s) as l. intros l Hlen. cbn.
    split_and!; try lia; auto.
    - intros p Hp _. by rewrite lookup_insert_ne by lia.
    - eexists _, _. cbn. rewrite lookup_insert_eq. split_and!; try done; try lia.
      cbn [written slice_elems]; rewrite length_app, Hlen; simpl; lia.
    - unfold slice_elems. cbn. rewrite lookup_insert_eq. cbn.
      rewrite take_ge; [done|]. rewrite length_app, Hlen. simpl. lia. }
  cbv zeta in Hrealloc. unfold slice_append. destruct Hs as [Hnil|(p & c & Hp & Hc & Hl & Hlt)].
  { rewrite Hnil in *. exact Hrealloc. }
  rewrite Hp, Hc in *. destruct (Nat.ltb_spec (slen s) (ccap c)) as [Hcap|_]; [clear Hrealloc|exact Hrealloc].
  set (w := if (slen s <? length (written c))%nat
            then <[slen s := x]> (written c) else written c ++ [x]).
  assert ((slen s < length w)%nat /\ take (S (slen s)) w = take (slen s) (written c) ++ [x]) as [Hlw Htw].
  { unfold w. destruct (Nat.ltb_spec (slen s) (length (written c))).
    - split; [by rewrite length_insert|by apply take_S_insert].
    - rewrite length_app. simpl. split; [lia|].
      rewrite !take_ge; [done|lia|]. rewrite length_app. simpl. lia. }
  clearbody w. cbn. split_and!; auto.
  - intros q _ Hq. rewrite lookup_insert_ne; [done|congruence].
  - exists p. eexists. cbn. rewrite lookup_insert_eq. split_and!; try done; cbn; lia.
  - unfold slice_elems. cbn. by rewrite lookup_insert_eq, Hp, Hc.
Qed.

(** Appending refines the specification. *)
Lemma append_key_refines grow h sel b k x :
  Sep h sel ->
  let (h', m') := append_key grow h (sel b) k x in
  Sep h' (upd sel b m')
  /\ view h' m' = spec_append (view h (sel b)) k x
  /\ view h' (sel (negb b)) = view h (sel (negb b)).
Proof.
  intros HS. unfold append_key. pose proof (slice_append_spec grow h sel b k x HS) as H.
  cbv zeta in H. destruct (slice_append grow h (get_slice (sel b) k) x) as [h' s'].
  destruct H as (Hf & Hn & Hp & Hok & He).
  destruct (Sep_update h h' sel b k s' HS Hf Hn Hp Hok) as (? & -> & ?).
  split_and!; try done. unfold spec_append. by rewrite He, get_slice_elems.
Qed.

Lemma Sep_delete h sel b k :
  Sep h sel -> Sep h (upd sel b (delete k (sel b))).
Proof.
  intros [Hok Hdis].
  assert (forall b' k' s, upd sel b (delete k (sel b)) b' !! k' = Some s -> sel b' !! k' = Some s) as Hsub.
  { intros b' k' s. unfold upd. destruct (Bool.eqb_spec b' b) as [->|]; [|done].
    by intros [_ ?]%lookup_delete_Some. }
  split; [intros; eapply Hok; eauto|intros; eapply (Hdis b0 k0 s b' k' s'); eauto].
Qed.

Lemma find_index_lt (f : A -> bool) (l : list A) (i : nat) :
  find_index f l = Some i -> (i < length l)%nat.
Proof. intros (x & Hx & _)%find_index_Some. by eapply lookup_lt_Some. Qed.

(** The element write and the truncation are [swap_remove] on the elements. *)
Lemma swap_step h s i :
  slice_ok h s -> (i < slen s)%nat ->
  exists z, slice_get h s (pred (slen s)) = Some z
    /\ (forall p, sptr s <> Some p -> cells (slice_set h s i z) !! p = cells h !! p)
    /\ next (slice_set h s i z) = next h
    /\ slice_ok (slice_set h s i z) s
    /\ slice_elems (slice_set h s i z) (slice_drop_last s) = swap_remove i (slice_elems h s).
Proof.
  intros Hok Hi. pose proof (slice_ok_length h s Hok) as Hlen.
  destruct Hok as (p & c & Hp & Hc & Hl & Hlt).
  destruct (lookup_lt_is_Some_2 (written c) (pred (slen s)) ltac:(lia)) as [z Hz].
  exists z. unfold slice_get, slice_set, slice_elems, slice_drop_last, slice_ok in *.
  rewrite Hp, Hc in *. cbn [sptr slen cells next written ccap].
  destruct (Nat.ltb_spec (pred (slen s)) (slen s)); [|lia].
  split_and!; try done.
  - intros q Hq. rewrite lookup_insert_ne; [done|congruence].
  - exists p. eexists. rewrite lookup_insert_eq. split_and!; try done; cbn;
      rewrite ?length_insert; lia.
  - rewrite lookup_insert_eq. cbn [written]. unfold swap_remove.
    rewrite Hlen, lookup_take_lt, Hz by lia.
    rewrite <- take_insert_lt by lia. rewrite take_take. f_equal. lia.
Qed.

(** Removing refines the specification. *)
Lemma remove_key_refines (f : A -> bool) h sel b k :
  Sep h sel ->
  let (h', m') := remove_key f h (sel b) k in
  Sep h' (upd sel b m')
  /\ view h' m' = spec_remove f (view h (sel b)) k
  /\ view h' (sel (negb b)) = view h (sel (negb b)).
Proof.
  intros HS. unfold remove_key, spec_remove.
  rewrite <- (get_slice_elems h (sel b) k).
  assert (forall h', Sep h' sel -> Sep h' (upd sel b (sel b))) as Hid.
  { intros h' [H1 H2]. split; unfold upd.
    - intros b' k' s'. destruct (Bool.eqb_spec b' b) as [->|]; eauto.
    - intros b1 k1 s1 b2 k2 s2.
      destruct (Bool.eqb_spec b1 b) as [->|], (Bool.eqb_spec b2 b) as [->|]; eauto. }
  destruct (sel b !! k) as [s|] eqn:Ek.
  2:{ assert (get_slice (sel b) k = nil_slice) as -> by (unfold get_slice; by rewrite Ek).
      cbn. assert (get_slice (sel b) k = nil_slice) as -> by (unfold get_slice; by rewrite Ek).
      cbn. unfold view. rewrite !delete_id by (rewrite ?lookup_fmap, ?Ek; done). split_and!; auto. }
  assert (get_slice (sel b) k = s) as Hget by (unfold get_slice; by rewrite Ek).
  pose proof (proj1 HS b k s Ek) as Hok. pose proof (slice_ok_length h s Hok) as Hlen.
  assert (0 < slen s)%nat as Hpos by (destruct Hok as (? & ? & ? & ? & ? & ?); lia).
  rewrite Hget. destruct (find_index f (slice_elems h s)) as [i|] eqn:Ef.
  - pose proof (find_index_lt _ _ _ Ef) as Hi. rewrite Hlen in Hi.
    destruct (swap_step h s i Hok Hi) as (z & Hz & Hframe & Hnext & Hok' & Hel).
    rewrite Hz. pose proof (swap_remove_length (slice_elems h s) i ltac:(lia)) as Hsl.
    assert (get_slice (<[k:=slice_drop_last s]> (sel b)) k = slice_drop_last s) as ->
      by (unfold get_slice; by rewrite lookup_insert_eq).
    cbn [slen slice_drop_last]. destruct (Nat.eqb_spec (pred (slen s)) 0) as [Hz0|Hnz].
    + (* the last element of the key: it is deleted *)
      destruct (Sep_update h (slice_set h s i z) sel b k s HS) as (HS' & Hv & Hv'); try done;
        [rewrite Hget; auto|lia|by left; rewrite Hget|].
      destruct (swap_remove i (slice_elems h s)) eqn:Esr; [|simpl in Hsl; lia].
      rewrite delete_insert_eq. pose proof (Sep_delete _ _ b k HS') as HS''.
      assert (delete k (<[k := s]> (sel b)) = delete k (sel b)) as Edel by apply delete_insert_eq.
      assert (forall b', upd (upd sel b (<[k:=s]> (sel b))) b (delete k (upd sel b (<[k:=s]> (sel b)) b)) b'
              = upd sel b (delete k (sel b)) b') as Eupd.
      { intros b'. unfold upd. rewrite eqb_reflx. destruct (Bool.eqb b' b); [exact Edel|done]. }
      split_and!; [| |done].
      * destruct HS'' as [H1 H2]. split; intros *; rewrite <- !Eupd; eauto.
      * rewrite <- Edel. unfold view in *. by rewrite fmap_delete, Hv, delete_insert_eq.
    + destruct (Sep_update h (slice_set h s i z) sel b k (slice_drop_last s) HS) as (HS' & Hv & Hv'); try done;
        [rewrite Hget; auto|lia|by left; rewrite Hget| |].
      * destruct Hok' as (p & c & Hp & Hc & Hl & Hlt). exists p, c. cbn. split_and!; try done; lia.
      * destruct (swap_remove i (slice_elems h s)) eqn:Esr; [simpl in Hsl; lia|].
        rewrite Hv, Hel. done.
  - rewrite Hget. destruct (Nat.eqb_spec (slen s) 0); [lia|].
    destruct (slice_elems h s) as [|x l] eqn:El; [simpl in Hlen; lia|].
    split_and!; [auto| |done]. symmetry. apply insert_id. unfold view. by rewrite lookup_fmap, Ek, <- El.
Qed.
End SliceMaps.
