(* ===== verification/PolicyCache.v ===== *)
(** * internal/activityprocessor/policycache.go: the compiled policy cache

    Compiled rules and policies, the two indexes (by plural resource for audit
    records, by kind for events) as maps of Go slices over one heap of backing
    arrays ([GoSlice]), rule evaluation with the compiled programs, and
    [MatchEvent], through which the cache implements the interface
    [EventPolicyLookup] of the event processor. *)

From Stdlib Require Import Ascii String.
From stdpp Require Import base numbers list strings gmap pretty.
From Stdlib Require Import ZArith Lia.
From S2P Require Import Prelude GoLib Types CelPolicy Activity Dlq EventProc GoSlice.

(** An [ActivityPolicy] object: metadata, spec and status conditions. *)
Record ActivityPolicy := {
  pol_Name : string;
  pol_ResourceVersion : string;
  pol_Generation : Z;
  pol_Labels : gmap string string;
  pol_Spec : PolicySpec;
  Conditions : list (string * string) (* type and status *) }.

Definition policyKey (apiGroup kindOrResource : string) : string :=
  apiGroup +:+ "/" +:+ kindOrResource.

(** [meta.IsStatusConditionTrue(conditions, "Ready")] *)
Definition isPolicyReady (policy : ActivityPolicy) : bool :=
  match List.find (fun c => (fst c =? "Ready")%string) (Conditions policy) with
  | Some (_, status) => (status =? "True")%string
  | None => false
  end.

Section Compiled.
Context `{CelEngine}.

Record compiledTemplate := { FullMatch : string; Expression : string; Program : cel_program }.

Record CompiledRule := {
  cr_Match : string;
  cr_Summary : string;
  MatchProgram : option cel_program;
  SummaryTemplates : list compiledTemplate;
  Valid : bool;
  CompileError : string }.

Record CompiledPolicy := {
  cp_Name : string;
  cp_APIGroup : string;
  cp_Kind : string;
  cp_Resource : string;
  cp_AuditRules : list CompiledRule;
  cp_EventRules : list CompiledRule;
  cp_ResourceVersion : string;
  OriginalPolicy : ActivityPolicy }.

(** The loop of [compileSummaryTemplate]. *)
Fixpoint compile_templates (env : cel_env) (ms : list (string * string))
  : res (list compiledTemplate) :=
  match ms with
  | [] => Ok []
  | (full, group) :: ms' =>
      let expr := TrimSpace group in
      let in_expr e := Errorf [PStr "expression '"; PStr expr; PStr "': "; PWrap e] in
      if (expr =? "")%string then Err (Errorf [PStr "empty expression in template: "; PStr full])
      else
        let? ast := wrap_err (of_sum (cel_Compile (env_decls env) expr)) in_expr in
        let? prg := wrap_err (of_sum (cel_Program (env_decls env) ast)) in_expr in
        let? ts := compile_templates env ms' in
        Ok ({| FullMatch := full; Expression := expr; Program := prg |} :: ts)
  end.

Definition compileSummaryTemplate (env : cel_env) (template : string) : res (list compiledTemplate) :=
  compile_templates env (summary_matches template).

(** The body shared, line for line, by [compileAuditRule] and
    [compileEventRule]; they differ in the environment. *)
Definition compile_rule (env : res cel_env) (rule : PolicyRule) : CompiledRule :=
  let mk prog tmpls valid msg :=
    {| cr_Match := rule_Match rule; cr_Summary := rule_Summary rule; MatchProgram := prog;
       SummaryTemplates := tmpls; Valid := valid; CompileError := msg |} in
  match env with
  | Err e => mk None [] false ("failed to create CEL environment: " +:+ error_text e)
  | Panic w => mk None [] false w
  | Ok env =>
      match cel_Compile (env_decls env) (rule_Match rule) with
      | inl e => mk None [] false ("match: " +:+ error_text e)
      | inr matchAST =>
          match cel_Program (env_decls env) matchAST with
          | inl e => mk None [] false ("match program: " +:+ error_text e)
          | inr matchProgram =>
              match compileSummaryTemplate env (rule_Summary rule) with
              | Ok templates => mk (Some matchProgram) templates true ""
              | Err e => mk (Some matchProgram) [] false ("summary: " +:+ error_text e)
              | Panic w => mk (Some matchProgram) [] false w
              end
          end
      end
  end.

Definition compileAuditRule (rule : PolicyRule) : CompiledRule :=
  compile_rule (NewAuditEnvironment false) rule.
Definition compileEventRule (rule : PolicyRule) : CompiledRule :=
  compile_rule (NewEventEnvironment false) rule.

Definition compile (policy : ActivityPolicy) (resource : string) : CompiledPolicy := {|
  cp_Name := pol_Name policy;
  cp_APIGroup := ps_APIGroup (pol_Spec policy);
  cp_Kind := ps_Kind (pol_Spec policy);
  cp_Resource := resource;
  cp_ResourceVersion := pol_ResourceVersion policy;
  cp_AuditRules := map compileAuditRule (AuditRules (pol_Spec policy));
  cp_EventRules := map compileEventRule (EventRules (pol_Spec policy));
  OriginalPolicy := policy |}.

(** ** The cache *)

Record PolicyCache := {
  ph : heap CompiledPolicy;
  policies : gmap string slice;
  policiesByKind : gmap string slice }.

Definition NewPolicyCache : PolicyCache :=
  {| ph := empty_heap; policies := ∅; policiesByKind := ∅ |}.

Definition policy_key (policy : ActivityPolicy) (resource : string) : string :=
  policyKey (ps_APIGroup (pol_Spec policy)) resource.
Definition policy_kind_key (policy : ActivityPolicy) : string :=
  policyKey (ps_APIGroup (pol_Spec policy)) (ps_Kind (pol_Spec policy)).

(** The two appends of [Add] and [Update]. *)
Definition index_policy (grow : nat -> nat) (c : PolicyCache) (policy : ActivityPolicy)
    (resource : string) : PolicyCache :=
  let compiled := compile policy resource in
  let (h1, ps) := append_key grow (ph c) (policies c) (policy_key policy resource) compiled in
  let (h2, ks) := append_key grow h1 (policiesByKind c) (policy_kind_key policy) compiled in
  {| ph := h2; policies := ps; policiesByKind := ks |}.

(** [compile] always succeeds: a rule that does not compile is kept as invalid. *)
Definition Add (grow : nat -> nat) (c : PolicyCache) (policy : ActivityPolicy) (resource : string)
  : PolicyCache * option error :=
  (index_policy grow c policy resource, None).

Definition removeLocked (c : PolicyCache) (key policyName : string) : PolicyCache :=
  let (h, ps) := remove_key (fun p => (cp_Name p =? policyName)%string) (ph c) (policies c) key in
  {| ph := h; policies := ps; policiesByKind := policiesByKind c |}.

Definition removeKindLocked (c : PolicyCache) (kindKey policyName : string) : PolicyCache :=
  let (h, ks) := remove_key (fun p => (cp_Name p =? policyName)%string) (ph c) (policiesByKind c) kindKey in
  {| ph := h; policies := policies c; policiesByKind := ks |}.

Definition Remove (c : PolicyCache) (policy : ActivityPolicy) (resource : string) : PolicyCache :=
  let c1 := removeLocked c (policy_key policy resource) (pol_Name policy) in
  removeKindLocked c1 (policy_kind_key policy) (pol_Name policy).

Definition Update (grow : nat -> nat) (c : PolicyCache) (oldPolicy newPolicy : ActivityPolicy)
    (oldResource newResource : string) : PolicyCache * option error :=
  let c1 := removeLocked c (policy_key oldPolicy oldResource) (pol_Name oldPolicy) in
  let c2 := removeKindLocked c1 (policy_kind_key oldPolicy) (pol_Name oldPolicy) in
  (index_policy grow c2 newPolicy newResource, None).

Definition Get_slice (c : PolicyCache) (apiGroup resource : string) : slice :=
  get_slice (policies c) (policyKey apiGroup resource).
Definition Get (c : PolicyCache) (apiGroup resource : string) : list CompiledPolicy :=
  slice_elems (ph c) (Get_slice c apiGroup resource).
Definition GetByKind (c : PolicyCache) (apiGroup kind : string) : list CompiledPolicy :=
  slice_elems (ph c) (get_slice (policiesByKind c) (policyKey apiGroup kind)).

Definition Len (c : PolicyCache) : nat :=
  fold_right (fun ks n => (slen (snd ks) + n)%nat) 0%nat (map_to_list (policies c)).

(** [Generation]: first policy of that name, in map order. *)
Definition Generation (c : PolicyCache) (name : string) : Z :=
  match List.find (fun p => (cp_Name p =? name)%string)
          (concat (map (fun ks => slice_elems (ph c) (snd ks)) (map_to_list (policies c)))) with
  | Some p => pol_Generation (OriginalPolicy p)
  | None => 0
  end.

(** ** Rule evaluation *)

Context `{ActivityLib}.

Definition eval_program (r : CompiledRule) (vars : gomap) : res bool :=
  if negb (Valid r) then Ok false
  else match MatchProgram r with
  | None => Ok false
  | Some prg =>
      let? out := wrap_err (of_sum (snd (cel_Eval prg vars)))
                    (fun e => Errorf [PStr "failed to evaluate match: "; PWrap e]) in
      match out with
      | ABool b => Ok b
      | _ => Err (Errorf [PStr "match expression did not return boolean"])
      end
  end.

Definition rule_EvaluateAuditMatch (r : CompiledRule) (auditMap : gomap) : res bool :=
  eval_program r (BuildAuditVars auditMap).
Definition rule_EvaluateEventMatch (r : CompiledRule) (eventMap : gomap) : res bool :=
  eval_program r (BuildEventVars eventMap).

(** [strings.Replace(s, old, new, 1)] *)
Definition replace_first (s old new : string) : string :=
  match Index s old with
  | Some i => take_str i s +:+ new +:+ drop_str (i + String.length old) s
  | None => s
  end.

Fixpoint eval_templates (result : string) (ts : list compiledTemplate) (vars : gomap) : res string :=
  match ts with
  | [] => Ok result
  | t :: ts' =>
      let? out := wrap_err (of_sum (snd (cel_Eval (Program t) vars)))
                    (fun e => Errorf [PStr "failed to evaluate summary expression '";
                                      PStr (Expression t); PStr "': "; PWrap e]) in
      eval_templates (replace_first result (FullMatch t) (go_fmt_v out)) ts' vars
  end.
Definition rule_EvaluateSummary (r : CompiledRule) (vars : gomap) : res string :=
  match SummaryTemplates r with
  | [] => Ok (cr_Summary r)
  | ts => eval_templates (cr_Summary r) ts vars
  end.

(** [EvaluateCompiledAuditRules]: the rule index and the activity or error. *)
Fixpoint eval_compiled_audit (now : time) (policy : CompiledPolicy) (auditMap : gomap)
    (audit : AuditEvent) (resolveKind : option KindResolver) (i : Z) (rules : list CompiledRule)
  : Z * res (option Activity) :=
  match rules with
  | [] => (-1, Ok None)%Z
  | rule :: rest =>
      if negb (Valid rule) then eval_compiled_audit now policy auditMap audit resolveKind (i + 1) rest
      else match rule_EvaluateAuditMatch rule auditMap with
      | Err e => (i, Err (rule_error "rule " i " match: " e))
      | Panic w => (i, Panic w)
      | Ok false => eval_compiled_audit now policy auditMap audit resolveKind (i + 1) rest
      | Ok true =>
          (i, let? sl := wrap_err (EvaluateAuditSummaryMap (cr_Summary rule) auditMap)
                           (rule_error "rule " i " summary: ") in
              let? activity := wrap_err
                (BuildFromAudit now {| b_APIGroup := cp_APIGroup policy; b_Kind := cp_Kind policy |}
                   audit (fst sl) (snd sl) resolveKind)
                (rule_error "rule " i " build: ") in
              Ok (Some activity))
      end
  end.
Definition EvaluateCompiledAuditRules (now : time) (policy : CompiledPolicy) (auditMap : gomap)
    (audit : AuditEvent) (resolveKind : option KindResolver) : Z * res (option Activity) :=
  eval_compiled_audit now policy auditMap audit resolveKind 0 (cp_AuditRules policy).

(** The inner loop of [MatchEvent]: [None] when no rule of the policy decides. *)
Fixpoint match_event_rules (policy : CompiledPolicy) (eventMap : gomap) (i : Z)
    (rules : list CompiledRule) : option (error + MatchedPolicy) :=
  match rules with
  | [] => None
  | rule :: rest =>
      let continue_ := match_event_rules policy eventMap (i + 1) rest in
      if negb (Valid rule) then continue_
      else match rule_EvaluateEventMatch rule eventMap with
      | Err _ | Panic _ | Ok false => continue_
      | Ok true =>
          Some match EvaluateEventSummary (cr_Summary rule) eventMap with
               | Ok (summary, links) =>
                   inr {| mp_PolicyName := cp_Name policy;
                          mp_Generation := pol_Generation (OriginalPolicy policy);
                          mp_APIGroup := cp_APIGroup policy; mp_Kind := cp_Kind policy;
                          mp_Summary := summary; mp_Links := links |}
               | Err e =>
                   inl (NewPolicyEvaluationError (cp_Name policy) i
                          (Errorf [PStr "failed to evaluate summary: "; PWrap e]))
               | Panic w => inl (Ext w)
               end
      end
  end.

Definition match_event_policies (policies : list CompiledPolicy) (eventMap : gomap)
  : error + option MatchedPolicy :=
  match first_some (fun p => match_event_rules p eventMap 0 (cp_EventRules p)) policies with
  | None => inr None
  | Some (inl e) => inl e
  | Some (inr m) => inr (Some m)
  end.

Definition cache_MatchEvent (c : PolicyCache) (apiGroup kind : string) (eventMap : gomap)
  : error + option MatchedPolicy :=
  match_event_policies (GetByKind c apiGroup kind) eventMap.

(** The cache as the policy lookup of the event processor. *)
Definition cache_lookup (c : PolicyCache) : EventPolicyLookup :=
  {| MatchEvent := cache_MatchEvent c |}.
End Compiled.

(* ------------------------------------------------------------------ *)
(** ** The specification: the set of live policies *)

(** Live policies by name, each with the plural resource it was indexed
    under. *)
Abbreviation live := (gmap string (ActivityPolicy * string)).

Section Spec.
Context `{CelEngine}.

(** The compiled policies an index should list under a key. *)
Definition targeting (keyf : ActivityPolicy * string -> string) (k : string) (l : live)
  : list CompiledPolicy :=
  map (fun x => compile (fst x) (snd x)) (filter (fun x => keyf x = k) (map snd (map_to_list l))).

Definition res_key (x : ActivityPolicy * string) : string := policy_key (fst x) (snd x).
Definition kind_key (x : ActivityPolicy * string) : string := policy_kind_key (fst x).

Inductive cache_op :=
| OpAdd (policy : ActivityPolicy) (resource : string)
| OpUpdate (oldP newP : ActivityPolicy) (oldR newR : string)
| OpRemove (policy : ActivityPolicy) (resource : string).

Definition cache_step (grow : nat -> nat) (c : PolicyCache) (op : cache_op) : PolicyCache :=
  match op with
  | OpAdd p r => fst (Add grow c p r)
  | OpUpdate p p' r r' => fst (Update grow c p p' r r')
  | OpRemove p r => Remove c p r
  end.

(** The caller's obligations: a policy is added when none of its name is live,
    and updated or removed under the group, kind and resource it is live
    under. *)
Definition removable (l : live) (p : ActivityPolicy) (r : string) : bool :=
  match l !! pol_Name p with
  | Some x => ((res_key x =? res_key (p, r)) && (kind_key x =? kind_key (p, r)))%string%bool
  | None => false
  end.
Definition live_step (l : live) (op : cache_op) : option live :=
  match op with
  | OpAdd p r => match l !! pol_Name p with
                 | None => Some (<[pol_Name p := (p, r)]> l)
                 | Some _ => None
                 end
  | OpUpdate p p' r r' =>
      if (removable l p r && (pol_Name p' =? pol_Name p)%string)%bool
      then Some (<[pol_Name p' := (p', r')]> l) else None
  | OpRemove p r => if removable l p r then Some (delete (pol_Name p) l) else None
  end.
Fixpoint live_run (l : live) (ops : list cache_op) : option live :=
  match ops with
  | [] => Some l
  | op :: ops' => l' ← live_step l op; live_run l' ops'
  end.

(** *** Representation

    What each index lists is, up to order, what the specification says. *)

Definition index_ok (keyf : ActivityPolicy * string -> string) (v : gmap string (list CompiledPolicy))
    (l : live) : Prop :=
  forall k, default [] (v !! k) ≡ₚ targeting keyf k l.
Definition names_ok (l : live) : Prop :=
  forall n x, l !! n = Some x -> pol_Name (fst x) = n.
Definition sel (c : PolicyCache) : bool -> gmap string slice :=
  fun b => if b then policies c else policiesByKind c.
Definition Rep (c : PolicyCache) (l : live) : Prop :=
  Sep (ph c) (sel c) /\ names_ok l
  /\ index_ok res_key (view (ph c) (policies c)) l
  /\ index_ok kind_key (view (ph c) (policiesByKind c)) l.

Lemma targeting_insert keyf k (l : live) n x :
  l !! n = None ->
  targeting keyf k (<[n := x]> l) ≡ₚ
  (if decide (keyf x = k) then [compile (fst x) (snd x)] else []) ++ targeting keyf k l.
Proof.
  intros Hn. unfold targeting. rewrite (map_to_list_insert l n x Hn). cbn [map snd].
  rewrite filter_cons. by destruct (decide (keyf x = k)).
Qed.

Lemma spec_append_lookup {A} (v : gmap string (list A)) k x k' :
  default [] (spec_append v k x !! k') = default [] (v !! k') ++ (if decide (k = k') then [x] else []).
Proof.
  unfold spec_append. destruct (decide (k = k')) as [->|Hk].
  - by rewrite lookup_insert_eq.
  - by rewrite lookup_insert_ne, app_nil_r.
Qed.

Lemma index_append keyf v (l : live) n x :
  l !! n = None -> index_ok keyf v l ->
  index_ok keyf (spec_append v (keyf x) (compile (fst x) (snd x))) (<[n := x]> l).
Proof.
  intros Hn HR k. rewrite spec_append_lookup, (HR k), (targeting_insert _ _ _ _ _ Hn).
  destruct (decide (keyf x = k)); [apply Permutation_app_comm|by rewrite app_nil_r].
Qed.

Lemma spec_remove_lookup {A} (f : A -> bool) (v : gmap string (list A)) k k' :
  default [] (spec_remove f v k !! k') =
  if decide (k = k') then
    let l := default [] (v !! k) in
    match find_index f l with Some i => swap_remove i l | None => l end
  else default [] (v !! k').
Proof.
  unfold spec_remove. cbv zeta. set (l' := match find_index f _ with Some _ => _ | None => _ end).
  destruct (decide (k = k')) as [->|Hk].
  - destruct l'; [by rewrite lookup_delete_eq|by rewrite lookup_insert_eq].
  - destruct l'; [by rewrite lookup_delete_ne|by rewrite lookup_insert_ne].
Qed.

(** Under a key only live policies are listed. *)
Lemma targeting_in keyf k (l : live) p :
  p ∈ targeting keyf k l <-> exists n x, l !! n = Some x /\ keyf x = k /\ p = compile (fst x) (snd x).
Proof.
  unfold targeting. rewrite list_elem_of_fmap. setoid_rewrite list_elem_of_filter.
  setoid_rewrite list_elem_of_fmap. split.
  - intros (x & -> & <- & [n y] & -> & Hin%elem_of_map_to_list). eauto.
  - intros (n & x & Hl & <- & ->). exists x. split; [done|]. split; [done|].
    exists (n, x). split; [done|]. by apply elem_of_map_to_list.
Qed.

Lemma index_remove keyf v (l : live) n x :
  names_ok l -> l !! n = Some x -> index_ok keyf v l ->
  index_ok keyf (spec_remove (fun p => (cp_Name p =? n)%string) v (keyf x)) (delete n l).
Proof.
  intros Hnames Hn HR k. rewrite spec_remove_lookup. cbv zeta.
  assert (targeting keyf k l ≡ₚ
    (if decide (keyf x = k) then [compile (fst x) (snd x)] else []) ++ targeting keyf k (delete n l)) as Hins.
  { rewrite <- targeting_insert by (by rewrite lookup_delete_eq). by rewrite insert_delete_id. }
  destruct (decide (keyf x = k)) as [Hk|Hk]; [|by rewrite (HR k), Hins].
  rewrite Hk. set (lst := default [] (v !! k)). specialize (HR k). fold lst in HR.
  destruct (find_index _ lst) as [i|] eqn:Ef.
  - apply find_index_Some in Ef as (p & Hp & Hname%String.eqb_eq).
    assert (p = compile (fst x) (snd x)) as ->.
    { assert (p ∈ targeting keyf k l) as (m & y & Hy & _ & ->)%targeting_in.
      { rewrite <- HR. by eapply list_elem_of_lookup_2. }
      cbn in Hname. rewrite (Hnames _ _ Hy) in Hname. subst m. by rewrite Hn in Hy; injection Hy as ->. }
    apply (Permutation_cons_inv (a := compile (fst x) (snd x))).
    rewrite <- (swap_remove_perm lst i _ Hp), HR, Hins. done.
  - exfalso. rewrite find_index_None in Ef.
    assert (compile (fst x) (snd x) ∈ lst) as Hin
      by (rewrite HR, Hins; set_solver).
    specialize (Ef _ Hin). cbn in Ef. rewrite (Hnames _ _ Hn), String.eqb_refl in Ef. done.
Qed.
End Spec.

(** *** Refinement of the cache operations *)

Section Refinement.
Context `{CelEngine}.

Lemma Sep_ext {A} (h : heap A) s1 s2 : (forall b, s1 b = s2 b) -> Sep h s1 -> Sep h s2.
Proof.
  intros E [H1 H2]. split; intros *; rewrite <- !E; eauto.
Qed.

Lemma removeLocked_refines c key name :
  Sep (ph c) (sel c) ->
  let c' := removeLocked c key name in
  Sep (ph c') (sel c')
  /\ view (ph c') (policies c')
     = spec_remove (fun p => (cp_Name p =? name)%string) (view (ph c) (policies c)) key
  /\ view (ph c') (policiesByKind c') = view (ph c) (policiesByKind c).
Proof.
  intros HS. cbv zeta. unfold removeLocked.
  pose proof (remove_key_refines (fun p => (cp_Name p =? name)%string) (ph c) (sel c) true key HS) as Hr.
  cbn [sel negb] in Hr. destruct (remove_key _ _ _ _) as [h m]. destruct Hr as (HS' & Hv & Hv').
  cbn. split_and!; try done. eapply Sep_ext; [|exact HS']. by intros [].
Qed.

Lemma removeKindLocked_refines c key name :
  Sep (ph c) (sel c) ->
  let c' := removeKindLocked c key name in
  Sep (ph c') (sel c')
  /\ view (ph c') (policiesByKind c')
     = spec_remove (fun p => (cp_Name p =? name)%string) (view (ph c) (policiesByKind c)) key
  /\ view (ph c') (policies c') = view (ph c) (policies c).
Proof.
  intros HS. cbv zeta. unfold removeKindLocked.
  pose proof (remove_key_refines (fun p => (cp_Name p =? name)%string) (ph c) (sel c) false key HS) as Hr.
  cbn [sel negb] in Hr. destruct (remove_key _ _ _ _) as [h m]. destruct Hr as (HS' & Hv & Hv').
  cbn. split_and!; try done. eapply Sep_ext; [|exact HS']. by intros [].
Qed.

Lemma index_policy_refines grow c p r :
  Sep (ph c) (sel c) ->
  let c' := index_policy grow c p r in
  Sep (ph c') (sel c')
  /\ view (ph c') (policies c') = spec_append (view (ph c) (policies c)) (policy_key p r) (compile p r)
  /\ view (ph c') (policiesByKind c')
     = spec_append (view (ph c) (policiesByKind c)) (policy_kind_key p) (compile p r).
Proof.
  intros HS. cbv zeta. unfold index_policy.
  pose proof (append_key_refines grow (ph c) (sel c) true (policy_key p r) (compile p r) HS) as Hr.
  cbn [sel negb] in Hr. destruct (append_key _ _ _ _ _) as [h1 ps]. destruct Hr as (HS1 & Hv1 & Hv1').
  pose proof (append_key_refines grow h1 _ false (policy_kind_key p) (compile p r) HS1) as Hr.
  unfold upd in Hr. cbn [sel negb Bool.eqb] in Hr.
  destruct (append_key grow h1 _ _ _) as [h2 ks]. destruct Hr as (HS2 & Hv2 & Hv2').
  cbn [ph policies policiesByKind]. rewrite Hv2', Hv2, Hv1', Hv1. split_and!; try done.
  eapply Sep_ext; [|exact HS2]. by intros [].
Qed.

Lemma Rep_index grow c l p r :
  l !! pol_Name p = None -> Rep c l -> Rep (index_policy grow c p r) (<[pol_Name p := (p, r)]> l).
Proof.
  intros Hn (HS & Hnames & HA & HK).
  destruct (index_policy_refines grow c p r HS) as (HS' & HvA & HvK).
  split_and!; [done| |rewrite HvA; by apply (index_append res_key _ _ _ (p, r))
              |rewrite HvK; by apply (index_append kind_key _ _ _ (p, r))].
  intros n x [[<- <-]|[_ ?]]%lookup_insert_Some; [done|eauto].
Qed.

Lemma Rep_remove c l p r :
  removable l p r = true -> Rep c l ->
  Rep (removeKindLocked (removeLocked c (policy_key p r) (pol_Name p)) (policy_kind_key p) (pol_Name p))
      (delete (pol_Name p) l).
Proof.
  unfold removable. destruct (l !! pol_Name p) as [x|] eqn:Hx; [|done].
  intros [Hk%String.eqb_eq Hkk%String.eqb_eq]%andb_true_iff (HS & Hnames & HA & HK).
  destruct (removeLocked_refines c (policy_key p r) (pol_Name p) HS) as (HS1 & HvA & HvK).
  destruct (removeKindLocked_refines _ (policy_kind_key p) (pol_Name p) HS1) as (HS2 & HvK2 & HvA2).
  split_and!; [done| |rewrite HvA2, HvA|rewrite HvK2, HvK].
  - intros n y [_ ?]%lookup_delete_Some; eauto.
  - change (policy_key p r) with (res_key (p, r)). rewrite <- Hk. by apply index_remove.
  - change (policy_kind_key p) with (kind_key (p, r)). rewrite <- Hkk. by apply index_remove.
Qed.

Lemma Rep_step grow c l l' op : Rep c l -> live_step l op = Some l' -> Rep (cache_step grow c op) l'.
Proof.
  intros HR. destruct op as [p r|p p' r r'|p r]; cbn [live_step cache_step Add Update Remove fst].
  - destruct (l !! pol_Name p) eqn:E; [done|]. intros [= <-]. by apply Rep_index.
  - destruct (removable l p r) eqn:E; [|done]. cbn [andb].
    destruct (String.eqb_spec (pol_Name p') (pol_Name p)) as [En|]; [|done]. intros [= <-].
    rewrite <- (insert_delete_eq l (pol_Name p')).
    apply Rep_index; [by rewrite lookup_delete_eq|]. rewrite En. by apply Rep_remove.
  - destruct (removable l p r) eqn:E; [|done]. intros [= <-]. by apply Rep_remove.
Qed.

Lemma Rep_run grow ops c l l' :
  Rep c l -> live_run l ops = Some l' -> Rep (fold_left (cache_step grow) ops c) l'.
Proof.
  revert c l. induction ops as [|op ops IH]; intros c l HR; cbn [live_run fold_left].
  - by intros [= <-].
  - intros (l1 & Hstep & Hrun)%bind_Some. eapply IH; [|exact Hrun]. by eapply Rep_step.
Qed.

Lemma Rep_new : Rep NewPolicyCache ∅.
Proof.
  split_and!.
  - split; intros [] *; cbn; by rewrite lookup_empty.
  - by intros n x ?%lookup_empty_Some.
  - intros k. cbn. unfold view. rewrite fmap_empty, lookup_empty. done.
  - intros k. cbn. unfold view. rewrite fmap_empty, lookup_empty. done.
Qed.

(** Everything the audit index lists, whatever the key. *)
Lemma listed_iff c l p :
  Rep c l ->
  p ∈ concat (map (fun ks => slice_elems (ph c) (snd ks)) (map_to_list (policies c))) <->
  exists n x, l !! n = Some x /\ p = compile (fst x) (snd x).
Proof.
  intros (HS & Hnames & HA & HK). rewrite list_elem_of_In, in_concat.
  setoid_rewrite in_map_iff. split.
  - intros (xs & ([k s] & <- & Hks) & Hin).
    apply list_elem_of_In, elem_of_map_to_list in Hks. apply list_elem_of_In in Hin.
    cbn in Hin. assert (p ∈ targeting res_key k l) as (n & x & Hl & _ & ->)%targeting_in; [|eauto].
    rewrite <- (HA k). unfold view. by rewrite lookup_fmap, Hks.
  - intros (n & x & Hl & ->).
    assert (compile (fst x) (snd x) ∈ default [] (view (ph c) (policies c) !! res_key x)) as Hin.
    { rewrite (HA (res_key x)). apply targeting_in. eauto. }
    unfold view in Hin. rewrite lookup_fmap in Hin.
    destruct (policies c !! res_key x) as [s|] eqn:Es; cbn in Hin; [|set_solver].
    exists (slice_elems (ph c) s). split; [|by apply list_elem_of_In].
    exists (res_key x, s). split; [done|]. by apply list_elem_of_In, elem_of_map_to_list.
Qed.

Lemma Rep_Generation c l name :
  Rep c l ->
  Generation c name = match l !! name with Some x => pol_Generation (fst x) | None => 0%Z end.
Proof.
  intros HR. unfold Generation. set (ps := concat _).
  assert (forall p, p ∈ ps <-> exists n x, l !! n = Some x /\ p = compile (fst x) (snd x)) as Hps
    by (intros; by apply listed_iff).
  destruct HR as (_ & Hnames & _).
  destruct (List.find (fun p => (cp_Name p =? name)%string) ps) as [p|] eqn:Ef.
  - apply List.find_some in Ef as [Hin Hname%String.eqb_eq].
    apply list_elem_of_In, Hps in Hin as (n & x & Hl & ->). cbn in *.
    rewrite (Hnames _ _ Hl) in Hname. subst n. by rewrite Hl.
  - destruct (l !! name) as [x|] eqn:El; [|done]. exfalso.
    assert (compile (fst x) (snd x) ∈ ps) as Hin by (apply Hps; eauto).
    apply list_elem_of_In in Hin. apply (List.find_none _ _ Ef) in Hin. cbn in Hin.
    by rewrite (Hnames _ _ El), String.eqb_refl in Hin.
Qed.
End Refinement.

(** *** Compiled and interpreted rules *)

Section CompiledLemmas.
Context `{CelEngine}.

Lemma compile_rule_valid env rule :
  Valid (compile_rule (Ok env) rule) = true ->
  exists ast prg, cel_Compile (env_decls env) (rule_Match rule) = inr ast
    /\ cel_Program (env_decls env) ast = inr prg
    /\ MatchProgram (compile_rule (Ok env) rule) = Some prg.
Proof.
  unfold compile_rule. destruct (cel_Compile _ _) as [e|ast] eqn:Ea; [done|].
  destruct (cel_Program _ ast) as [e|prg] eqn:Ep; [done|].
  destruct (compileSummaryTemplate env (rule_Summary rule)); try done. eauto.
Qed.

Lemma compile_rule_text env rule :
  cr_Match (compile_rule env rule) = rule_Match rule
  /\ cr_Summary (compile_rule env rule) = rule_Summary rule.
Proof.
  unfold compile_rule. destruct env as [env|e|w]; [|done..].
  destruct (cel_Compile _ _) as [e|ast]; [done|].
  destruct (cel_Program _ ast) as [e|prg]; [done|].
  by destruct (compileSummaryTemplate env (rule_Summary rule)).
Qed.

(** The compiled match of a valid rule answers what interpreting it answers. *)
Lemma compiled_match_interpreted (mkenv : bool -> res cel_env) msg rule vars b :
  Valid (compile_rule (mkenv false) rule) = true ->
  eval_program (compile_rule (mkenv false) rule) vars = Ok b <->
  eval_match (mkenv false) msg (rule_Match rule) vars = Ok b.
Proof.
  intros Hv. destruct (mkenv false) as [env|e|w] eqn:Eenv; [|done..].
  destruct (compile_rule_valid env rule Hv) as (ast & prg & Ha & Hp & Hm).
  unfold eval_program, eval_match, env_Eval. rewrite Hv, Hm. cbn [negb wrap_err res_bind].
  rewrite Ha. cbn [of_sum wrap_err res_bind]. rewrite Hp. cbn [of_sum wrap_err res_bind].
  destruct (cel_Eval prg vars) as [calls [e|v]]; cbn; [done|].
  by destruct v.
Qed.

Lemma compiled_audit_match rule am b :
  Valid (compileAuditRule rule) = true ->
  rule_EvaluateAuditMatch (compileAuditRule rule) am = Ok b
  <-> EvaluateAuditMatchMap (rule_Match rule) am = Ok b.
Proof. apply (compiled_match_interpreted NewAuditEnvironment). Qed.

Lemma compiled_event_match rule em b :
  Valid (compileEventRule rule) = true ->
  rule_EvaluateEventMatch (compileEventRule rule) em = Ok b
  <-> EvaluateEventMatch (rule_Match rule) em = Ok b.
Proof. apply (compiled_match_interpreted NewEventEnvironment). Qed.
End CompiledLemmas.

Section CompiledAudit.
Context `{CelEngine} `{ActivityLib} `{EvalJson}.

(** The compiled rule loop and the interpreted one give the same activity when
    every rule compiled. *)
Lemma eval_compiled_audit_rules now p res am audit rk i rules a :
  Forall (fun rule => Valid (compileAuditRule rule) = true) rules ->
  snd (eval_compiled_audit now (compile p res) am audit rk i (map compileAuditRule rules)) = Ok (Some a)
  <-> exists r, eval_rules "audit" (fun m => EvaluateAuditMatchMap m am)
                  (fun s => EvaluateAuditSummaryMap s am)
                  (fun summary links => BuildFromAudit now
                     {| b_APIGroup := ps_APIGroup (pol_Spec p); b_Kind := ps_Kind (pol_Spec p) |}
                     audit summary links rk) i rules = Ok r
               /\ er_Activity r = Some a.
Proof.
  intros Hall. revert i. induction Hall as [|rule rules Hv _ IH]; intros i.
  { cbn. split; [done|by intros (? & [= <-] & ?)]. }
  cbn [map eval_compiled_audit eval_rules]. rewrite Hv. cbn [negb].
  pose proof (compiled_audit_match rule am true Hv) as Ht.
  pose proof (compiled_audit_match rule am false Hv) as Hf.
  destruct (compile_rule_text (NewAuditEnvironment false) rule) as [_ Hs].
  destruct (rule_EvaluateAuditMatch (compileAuditRule rule) am) as [[]|e|w] eqn:Em.
  - rewrite (proj1 Ht eq_refl). cbn [wrap_err res_bind snd]. unfold compileAuditRule. rewrite Hs.
    destruct (EvaluateAuditSummaryMap (rule_Summary rule) am) as [[s ls]|e|w];
      cbn [wrap_err res_bind fst snd]; [|by split; [|intros (? & ? & ?)]..].
    change (cp_APIGroup (compile p res)) with (ps_APIGroup (pol_Spec p)).
    change (cp_Kind (compile p res)) with (ps_Kind (pol_Spec p)).
    destruct (BuildFromAudit _ _ _ _ _ _) as [x|e|w]; cbn [wrap_err res_bind];
      [|by split; [|intros (? & ? & ?)]..].
    split; [intros [= ->]; eauto|by intros (? & [= <-] & [= ->])].
  - rewrite (proj1 Hf eq_refl). cbn [wrap_err res_bind]. apply IH.
  - cbn [snd]. split; [done|]. intros (r & Hr & _).
    apply res_bind_ok in Hr as ([] & Hb%wrap_err_ok & _);
      [apply Ht in Hb|apply Hf in Hb]; congruence.
  - cbn [snd]. split; [done|]. intros (r & Hr & _).
    apply res_bind_ok in Hr as ([] & Hb%wrap_err_ok & _);
      [apply Ht in Hb|apply Hf in Hb]; congruence.
Qed.
End CompiledAudit.

(** Examples: three policies on one resource. *)
Module ToyPolicies.
Definition mk (name : string) : ActivityPolicy := {|
  pol_Name := name; pol_ResourceVersion := "1"; pol_Generation := 4; pol_Labels := ∅;
  pol_Spec := {| ps_APIGroup := "apps"; ps_Kind := "Deployment";
                 AuditRules := [{| rule_Name := "r"; rule_Match := "true"; rule_Summary := "{{ actor }} acted" |}];
                 EventRules := [{| rule_Name := "e"; rule_Match := "true"; rule_Summary := "it happened" |}] |};
  Conditions := [("Ready", "True")] |}.
Definition double (n : nat) : nat := Nat.max 1 (2 * n).
Definition run := fold_left (@cache_step ToyCel.toy double).
Definition abc : @PolicyCache ToyCel.toy :=
  run [OpAdd (mk "A") "deployments"; OpAdd (mk "B") "deployments"; OpAdd (mk "C") "deployments"]
      (@NewPolicyCache ToyCel.toy).
End ToyPolicies.

Example toy_get :
  map (@cp_Name ToyCel.toy) (@Get ToyCel.toy ToyPolicies.abc "apps" "deployments") = ["A"; "B"; "C"].
Proof. vm_compute. reflexivity. Qed.

(** A reader that holds the slice [Get] returned sees the writers' moves: with
    A, B, C cached, a reader that has seen A, then a removal of A and its
    addition again (an update), sees B and A: C, live all along, is skipped. *)
Lemma reader_skips_live_policy :
  let c0 := ToyPolicies.abc in
  let s := @Get_slice ToyCel.toy c0 "apps" "deployments" in
  let c1 := ToyPolicies.run [OpUpdate (ToyPolicies.mk "A") (ToyPolicies.mk "A") "deployments" "deployments"] c0 in
  slen s = 3%nat
  /\ option_map (@cp_Name ToyCel.toy) (slice_get (ph c0) s 0) = Some "A"
  /\ option_map (@cp_Name ToyCel.toy) (slice_get (ph c1) s 1) = Some "B"
  /\ option_map (@cp_Name ToyCel.toy) (slice_get (ph c1) s 2) = Some "A"
  /\ "C" ∈ map (@cp_Name ToyCel.toy) (@Get ToyCel.toy c1 "apps" "deployments").
Proof. vm_compute. split_and!; try reflexivity. left. Qed.

(* ------------------------------------------------------------------ *)
(** ** Properties *)

(** C3: the policy cache lists exactly the live policies: after any sequence
    of [Add], [Update] and [Remove] calls in which names are unique and a policy
    is updated or removed under the group, kind and resource it was added under,
    [Get] (and [GetByKind]) gives, up to order, the compiled forms of the live
    policies that target the resource (the kind), and [Generation] the
    generation of the live policy of a name, 0 when there is none; the slices of
    the two indexes never share a backing array, whatever capacities [append]
    chooses. *)
Theorem PolicyCache_live `{CelEngine} (grow : nat -> nat) (ops : list cache_op) (l : live) :
  live_run ∅ ops = Some l ->
  let c := fold_left (cache_step grow) ops NewPolicyCache in
  (forall g r, Get c g r ≡ₚ targeting res_key (policyKey g r) l)
  /\ (forall g k, GetByKind c g k ≡ₚ targeting kind_key (policyKey g k) l)
  /\ (forall n, Generation c n = match l !! n with Some x => pol_Generation (fst x) | None => 0%Z end)
  /\ Sep (ph c) (sel c).
Proof.
  intros Hrun. cbv zeta. pose proof (Rep_run grow ops _ _ _ Rep_new Hrun) as HR.
  pose proof HR as (HS & _ & HA & HK). split_and!; try done.
  - intros g r. rewrite <- (HA (policyKey g r)). unfold Get, Get_slice. by rewrite get_slice_elems.
  - intros g k. rewrite <- (HK (policyKey g k)). unfold GetByKind. by rewrite get_slice_elems.
  - intros n. by apply Rep_Generation.
Qed.

Lemma PolicyCache_live_witness :
  @Generation ToyCel.toy ToyPolicies.abc "B" = 4%Z.
Proof.
  destruct (@PolicyCache_live ToyCel.toy ToyPolicies.double
    [OpAdd (ToyPolicies.mk "A") "deployments"; OpAdd (ToyPolicies.mk "B") "deployments";
     OpAdd (ToyPolicies.mk "C") "deployments"] _ eq_refl) as (_ & _ & Hg & _).
  exact (Hg "B").
Defined.

(** C6: evaluating a policy's compiled audit rules gives the same activity as
    interpreting its rules, as preview and reindexing do, when all of its rules
    compiled: the live path and the reindex path agree on audit records. *)
Theorem compiled_audit_agrees `{CelEngine} `{ActivityLib} `{EvalJson} (now : time)
    (p : ActivityPolicy) (resource : string) (audit : AuditEvent) (am : gomap)
    (rk : option KindResolver) (a : Activity) :
  EventProc.toMap (InOther (audit_json audit)) = Ok am ->
  Forall (fun rule => Valid (compileAuditRule rule) = true) (AuditRules (pol_Spec p)) ->
  snd (EvaluateCompiledAuditRules now (compile p resource) am audit rk) = Ok (Some a)
  <-> exists r, EvaluateAuditRules now (pol_Spec p) audit rk = Ok r /\ er_Activity r = Some a.
Proof.
  intros Ham Hall. unfold EvaluateAuditRules. rewrite Ham. cbn [wrap_err res_bind].
  by apply eval_compiled_audit_rules.
Qed.

Definition toy_json : EvalJson := {|
  json_unmarshal_map := fun _ => inr (Some jane);
  audit_json := fun _ => inr "jane";
  activity_json := fun a => inr (Name a) |}.

Lemma compiled_audit_agrees_witness :
  exists r, @EvaluateAuditRules ToyCel.toy ToyLib.toy toy_json 9%Z (pol_Spec (ToyPolicies.mk "A"))
              ToyLib.audit0 None = Ok r /\ er_Activity r <> None.
Proof.
  destruct (snd (@EvaluateCompiledAuditRules ToyCel.toy ToyLib.toy 9%Z
    (@compile ToyCel.toy (ToyPolicies.mk "A") "deployments") jane ToyLib.audit0 None)) as [[a|]| |] eqn:E;
    [|vm_compute in E; discriminate E..].
  apply (@compiled_audit_agrees ToyCel.toy ToyLib.toy toy_json) in E.
  - destruct E as (r & Hr & Ha). exists r. rewrite Ha. split; [exact Hr|discriminate].
  - reflexivity.
  - repeat constructor.
Defined.
