(* ===== verification/AuditProc.v ===== *)
(** * internal/activityprocessor/processor.go: the audit processor

    The handler of audit messages, the re-evaluation of dead letters, the
    classification of evaluation errors, the subject and publication of
    activities, and the informer handlers that keep the policy cache in step
    with the [ActivityPolicy] objects of the cluster. *)

From Stdlib Require Import Ascii String.
From stdpp Require Import base numbers list strings gmap pretty.
From Stdlib Require Import ZArith Lia.
From S2P Require Import Prelude GoLib Types CelPolicy Activity Dlq EventProc GoSlice PolicyCache.

(** Effects of handling an audit message: a publish, or a Warning event on a
    policy ([EventEmitter.EmitEvaluationError]). *)
Inductive effect :=
| EPub (p : pub)
| EWarn (policyName message : string).

Definition pubs_of (l : list effect) : list pub :=
  omap (fun e => match e with EPub p => Some p | EWarn _ _ => None end) l.

(** [truncateString] *)
Definition truncateString (s : string) (maxLen : nat) : string :=
  if (String.length s <=? maxLen)%nat then s else take_str maxLen s.


(** What the handler takes from JSON and the API server: decoding an audit
    record, its map form ([auditToMap]), and the fetch of a policy by name. *)
Class AuditIO := {
  json_unmarshal_audit : string -> error + AuditEvent;
  json_of_audit : AuditEvent -> error + string;
  json_to_map : string -> error + option gomap;
  json_of_activity : Activity -> error + string;
  policy_exists : string -> bool  (* client.Get succeeds *)
}.

(** [classifyEvaluationError] *)
Definition classifyEvaluationError (err : error) (ruleIndex : Z) : ErrorType :=
  if (ruleIndex <? 0)%Z then ErrorTypeCELMatch
  else if (errors_Is ErrKindResolution err || errors_Is ErrActivityBuild err)%bool
  then ErrorTypeKindResolve
  else ErrorTypeCELSummary.

Section Audit.
Context `{CelEngine} `{ActivityLib} `{JetStream} `{AuditIO} (DLQ : DLQPublisher).
Context (OutputSubjectPrefix : string).
(** [resourceToKind], the kind resolver of the process. *)
Context (resourceToKind : KindResolver).

Definition EmitEvaluationError (policyName : string) (ruleIndex : Z) (err : error) : list effect :=
  if policy_exists policyName
  then [EWarn policyName ("CEL evaluation failed on rule " +:+ pretty ruleIndex +:+ ": "
                          +:+ truncateString (error_text err) 200)]
  else [].

Definition auditToMap (audit : AuditEvent) : error + gomap :=
  match json_of_audit audit with
  | inl e => inl e
  | inr data => match json_to_map data with
                | inl e => inl e
                | inr m => inr (nil_map m)
                end
  end.

Definition audit_buildActivitySubject (activity : Activity) : string :=
  let tenantType := let t := ten_Type (Tenant (Spec activity)) in
                    if (t =? "")%string then "platform" else t in
  let tenantName := let t := ten_Name (Tenant (Spec activity)) in
                    if (t =? "")%string then "_" else t in
  let apiGroup := let g := APIGroup (Resource_ (Spec activity)) in
                  if (g =? "")%string then "core" else g in
  let origin := org_Type (Origin (Spec activity)) in
  let kind := Kind (Resource_ (Spec activity)) in
  let namespace := let n := res_Namespace (Resource_ (Spec activity)) in
                   if (n =? "")%string then "_" else n in
  let name := Name activity in
  OutputSubjectPrefix +:+ "." +:+ tenantType +:+ "." +:+ tenantName +:+ "." +:+ apiGroup +:+ "."
    +:+ origin +:+ "." +:+ kind +:+ "." +:+ namespace +:+ "." +:+ name.

Definition audit_publishActivity (activity : Activity) : list effect * option error :=
  match json_of_activity activity with
  | inl e => ([], Some (Errorf [PStr "failed to marshal activity: "; PWrap e]))
  | inr data =>
      let (log, r) := do_publish (audit_buildActivitySubject activity) data (Some (Name activity)) in
      (map EPub log,
       match r with
       | Some e => Some (Errorf [PStr "failed to publish to NATS: "; PWrap e])
       | None => None
       end)
  end.

(** Reporting a failure to the dead-letter queue. *)
Definition dlq_audit (now : time) (payload policyName : string) (policyVersion ruleIndex : Z)
    (ty : ErrorType) (err : error) (resource : option DeadLetterResource)
    (tenant : option DeadLetterTenant) : list effect * option error :=
  let (log, r) := PublishAuditFailure now
    {| f_payload := payload; f_policyName := policyName; f_policyVersion := policyVersion;
       f_ruleIndex := ruleIndex; f_errorType := ty; f_err := Some err;
       f_resource := resource; f_tenant := tenant |} in
  (map EPub log, r).

(** The error of an evaluation, a library panic counting as one. *)
Definition evaluation_error {A} (r : res A) : option error :=
  match r with Err e => Some e | Panic w => Some (Ext w) | Ok _ => None end.

(** A policy that failed: a Warning event on it and a dead letter. *)
Definition policy_failure (now : time) (payload : string) (policy : CompiledPolicy) (ruleIndex : Z)
    (err : error) (resource : DeadLetterResource) (tenant : option DeadLetterTenant)
  : list effect * option error :=
  let warn := EmitEvaluationError (cp_Name policy) ruleIndex err in
  let errorType := classifyEvaluationError err ruleIndex in
  let policyVersion := pol_Generation (OriginalPolicy policy) in
  let (log, e) := dlq_audit now payload (cp_Name policy) policyVersion ruleIndex errorType err
                    (Some resource) tenant in
  (warn ++ log, e).

(** The loop over the policies of the resource: first match wins. *)
Fixpoint policy_loop (now : time) (payload : string) (audit : AuditEvent) (auditMap : gomap)
    (dlqResource : DeadLetterResource) (dlqTenant : option DeadLetterTenant)
    (ps : list CompiledPolicy) : list effect * option error :=
  match ps with
  | [] => ([], None)
  | policy :: rest =>
      let dlqResource := {| dlr_APIGroup := dlr_APIGroup dlqResource; dlr_Kind := cp_Kind policy;
                            dlr_Name := dlr_Name dlqResource;
                            dlr_Namespace := dlr_Namespace dlqResource |} in
      let (ruleIndex, r) := EvaluateCompiledAuditRules now policy auditMap audit (Some resourceToKind) in
      match r with
      | Ok None => policy_loop now payload audit auditMap dlqResource dlqTenant rest
      | Ok (Some activity) =>
          let (log, e) := audit_publishActivity activity in
          match e with
          | Some e => (log, Some (Errorf [PStr "failed to publish activity: "; PWrap e]))
          | None => (log, None)
          end
      | _ =>
          let err := default (Ext "") (evaluation_error r) in
          let (log, e) := policy_failure now payload policy ruleIndex err dlqResource dlqTenant in
          match e with
          | Some dlqErr =>
              (log, Some (Errorf [PStr "failed to evaluate policy and publish to DLQ: "; PWrap dlqErr]))
          | None =>
              let (log', e') := policy_loop now payload audit auditMap dlqResource dlqTenant rest in
              (log ++ log', e')
          end
      end
  end.

(** The audit [processMessage]: effects and returned error ([None]: Ack). *)
Definition audit_processMessage (now : time) (c : PolicyCache) (data : string)
  : list effect * option error :=
  match json_unmarshal_audit data with
  | inl err =>
      let (log, e) := dlq_audit now data "" 0 (-1) ErrorTypeUnmarshal err None None in
      match e with
      | Some _ => (log, Some (Errorf [PStr "failed to unmarshal audit event: "; PWrap err]))
      | None => (log, None)
      end
  | inr audit =>
      let activityTenant := ExtractTenant (User audit) in
      let dlqTenant := NewDeadLetterTenantFromActivity (ten_Type activityTenant) (ten_Name activityTenant) in
      match ObjectRef audit with
      | None => ([], None)
      | Some ref =>
          let policies := Get c (or_APIGroup ref) (or_Resource ref) in
          match policies with
          | [] => ([], None)
          | _ =>
              let kind := match resourceToKind (or_APIGroup ref) (or_Resource ref) with
                          | inr kind => kind
                          | inl _ => ""
                          end in
              let dlqResource := {| dlr_APIGroup := or_APIGroup ref; dlr_Kind := kind;
                                    dlr_Name := or_Name ref; dlr_Namespace := or_Namespace ref |} in
              match auditToMap audit with
              | inl err =>
                  let (log, e) := dlq_audit now data "" 0 (-1) ErrorTypeUnmarshal err
                                    (Some dlqResource) dlqTenant in
                  match e with
                  | Some _ => (log, Some (Errorf [PStr "failed to convert audit to map: "; PWrap err]))
                  | None => (log, None)
                  end
              | inr auditMap => policy_loop now data audit auditMap dlqResource dlqTenant policies
              end
          end
      end
  end.

(** [RetryOutcome] and [reEvaluateDeadLetter]: all policies of the resource are
    evaluated.  A record without [ObjectRef] is a nil dereference. *)
Record RetryOutcome := { Resolved : bool; ro_ErrorType : option ErrorType; ro_Err : option error }.

Fixpoint reevaluate_loop (now : time) (audit : AuditEvent) (auditMap : gomap)
    (ps : list CompiledPolicy) : RetryOutcome :=
  match ps with
  | [] => {| Resolved := true; ro_ErrorType := None; ro_Err := None |}
  | policy :: rest =>
      let (ruleIndex, r) := EvaluateCompiledAuditRules now policy auditMap audit (Some resourceToKind) in
      match evaluation_error r with
      | Some err => {| Resolved := false;
                       ro_ErrorType := Some (classifyEvaluationError err ruleIndex);
                       ro_Err := Some err |}
      | None => reevaluate_loop now audit auditMap rest
      end
  end.

Definition reEvaluateDeadLetter (now : time) (c : PolicyCache) (event : DeadLetterEvent)
  : res RetryOutcome :=
  match json_unmarshal_audit (OriginalPayload event) with
  | inl err => Ok {| Resolved := false; ro_ErrorType := Some ErrorTypeUnmarshal; ro_Err := Some err |}
  | inr audit =>
      match auditToMap audit with
      | inl err => Ok {| Resolved := false; ro_ErrorType := Some ErrorTypeUnmarshal; ro_Err := Some err |}
      | inr auditMap =>
          match ObjectRef audit with
          | None => Panic "nil pointer dereference"
          | Some ref => Ok (reevaluate_loop now audit auditMap (Get c (or_APIGroup ref) (or_Resource ref)))
          end
      end
  end.
End Audit.

(** ** The informer handlers *)

Section Informer.
Context `{CelEngine} (grow : nat -> nat).

(** [kindToResource] as answered at the time of the call. *)
Definition resolution := (error + string)%type.

Definition onPolicyAdd (c : PolicyCache) (policy : ActivityPolicy) (r : resolution) : PolicyCache :=
  if negb (isPolicyReady policy) then c
  else match r with
  | inl _ => c
  | inr resource => fst (PolicyCache.Add grow c policy resource)
  end.

(** The new cache, and whether a retry of the policy's dead letters starts. *)
Definition onPolicyUpdate (c : PolicyCache) (oldPolicy newPolicy : ActivityPolicy)
    (oldR newR : resolution) : PolicyCache * bool :=
  let wasReady := isPolicyReady oldPolicy in
  let isReady := isPolicyReady newPolicy in
  match newR, isReady with
  | inl _, true => (c, false)
  | _, _ =>
      let c1 := match wasReady, oldR with
                | true, inr oldResource => Remove c oldPolicy oldResource
                | _, _ => c
                end in
      match isReady, newR with
      | true, inr newResource => (fst (PolicyCache.Add grow c1 newPolicy newResource), true)
      | _, _ => (c1, false)
      end
  end.

Definition onPolicyDelete (c : PolicyCache) (policy : ActivityPolicy) (r : resolution) : PolicyCache :=
  match r with
  | inl _ => c
  | inr resource => Remove c policy resource
  end.

(** What the informer delivers, with the resolver's answers. *)
Inductive informer_event :=
| EvAdd (p : ActivityPolicy)
| EvUpdate (oldP newP : ActivityPolicy)
| EvDelete (p : ActivityPolicy).

Definition handle (resolve : ActivityPolicy -> resolution) (c : PolicyCache) (e : informer_event)
  : PolicyCache :=
  match e with
  | EvAdd p => onPolicyAdd c p (resolve p)
  | EvUpdate p p' => fst (onPolicyUpdate c p p' (resolve p) (resolve p'))
  | EvDelete p => onPolicyDelete c p (resolve p)
  end.

(** The informer's store: an event is delivered for the object it holds. *)
Definition store_step (st : gmap string ActivityPolicy) (e : informer_event)
    (st' : gmap string ActivityPolicy) : Prop :=
  match e with
  | EvAdd p => st !! pol_Name p = None /\ st' = <[pol_Name p := p]> st
  | EvUpdate p p' => st !! pol_Name p = Some p /\ pol_Name p' = pol_Name p
                     /\ st' = <[pol_Name p' := p']> st
  | EvDelete p => st !! pol_Name p = Some p /\ st' = delete (pol_Name p) st
  end.

Inductive store_run : gmap string ActivityPolicy -> list informer_event ->
                      gmap string ActivityPolicy -> Prop :=
| store_nil st : store_run st [] st
| store_cons st e st1 es st2 :
    store_step st e st1 -> store_run st1 es st2 -> store_run st (e :: es) st2.

(** The policies the cache should serve: the ready ones of the store. *)
Definition ready_live (R : ActivityPolicy -> string) (st : gmap string ActivityPolicy) : live :=
  omap (fun p => if isPolicyReady p then Some (p, R p) else None) st.
End Informer.

(* ------------------------------------------------------------------ *)
(** ** Lemmas: the policy loop *)

Section AuditLemmas.
Context `{CelEngine} `{ActivityLib} `{JetStream} `{AuditIO}.

(** The activity of the first policy that yields one. *)
Definition first_winner (rk : KindResolver) (now : time) (audit : AuditEvent) (am : gomap)
    (ps : list CompiledPolicy) : option Activity :=
  first_some (fun p => match snd (EvaluateCompiledAuditRules now p am audit (Some rk)) with
                    | Ok (Some a) => Some a
                    | _ => None
                    end) ps.

(** How many policies before it fail. *)
Fixpoint failing_before (rk : KindResolver) (now : time) (audit : AuditEvent) (am : gomap)
    (ps : list CompiledPolicy) : nat :=
  match ps with
  | [] => O
  | p :: ps' =>
      match snd (EvaluateCompiledAuditRules now p am audit (Some rk)) with
      | Ok (Some _) => O
      | Ok None => failing_before rk now audit am ps'
      | _ => S (failing_before rk now audit am ps')
      end
  end.

(** The publish of an activity, acknowledged. *)
Definition activity_stored (prefix : string) (a : Activity) (p : pub) : Prop :=
  p_err p = None /\ p_msgid p = Some (Name a) /\ p_subject p = audit_buildActivitySubject prefix a
  /\ json_of_activity a = inr (p_data p).

Lemma pubs_of_app l l' : pubs_of (l ++ l') = pubs_of l ++ pubs_of l'.
Proof. apply omap_app. Qed.

Lemma pubs_of_map l : pubs_of (map EPub l) = l.
Proof. induction l as [|p l IH]; [done|]. cbn. f_equal. exact IH. Qed.

Lemma pubs_of_warn p i e : pubs_of (EmitEvaluationError p i e) = [].
Proof. unfold EmitEvaluationError. by destruct (policy_exists p). Qed.

Lemma audit_publish_ack prefix a log :
  audit_publishActivity prefix a = (log, None) ->
  exists p, pubs_of log = [p] /\ activity_stored prefix a p.
Proof.
  unfold audit_publishActivity, do_publish, activity_stored.
  destruct (json_of_activity a) as [e|d]; [done|].
  destruct (js_Publish _ _ _) eqn:E; intros [= <-]. cbn. eexists. by split_and!.
Qed.

Lemma dlq_audit_ack (DLQ : DLQPublisher) (enabled : bool) `{!DLQPublisherLaws DLQ enabled}
    now payload pn pv ri ty err r t log :
  dlq_audit DLQ now payload pn pv ri ty err r t = (log, None) ->
  Forall (fun p => pub_ok p = true) (pubs_of log)
  /\ length (pubs_of log) = if enabled then 1%nat else 0%nat.
Proof.
  unfold dlq_audit. destruct (PublishAuditFailure now _) as [l e] eqn:E. intros [= <- ->].
  rewrite pubs_of_map. apply audit_failure_stored in E. destruct enabled.
  - destruct E as (p & -> & Hp). split; [by constructor|done].
  - by subst l.
Qed.

Lemma policy_failure_ack (DLQ : DLQPublisher) (enabled : bool) `{!DLQPublisherLaws DLQ enabled}
    now payload policy ri err res ten log :
  policy_failure DLQ now payload policy ri err res ten = (log, None) ->
  Forall (fun p => pub_ok p = true) (pubs_of log)
  /\ length (pubs_of log) = if enabled then 1%nat else 0%nat.
Proof.
  unfold policy_failure. destruct (dlq_audit _ _ _ _ _ _ _ _ _ _) as [l e] eqn:Ed.
  intros [= <- ->]. rewrite pubs_of_app, pubs_of_warn. by apply (dlq_audit_ack DLQ enabled) in Ed.
Qed.

Lemma policy_loop_ack (DLQ : DLQPublisher) (enabled : bool) `{!DLQPublisherLaws DLQ enabled}
    prefix rk now payload audit am res ten ps log :
  policy_loop DLQ prefix rk now payload audit am res ten ps = (log, None) ->
  exists dls acts, pubs_of log = dls ++ acts
    /\ Forall (fun p => pub_ok p = true) dls
    /\ length dls = (if enabled then failing_before rk now audit am ps else 0)%nat
    /\ match first_winner rk now audit am ps with
       | Some a => exists p, acts = [p] /\ activity_stored prefix a p
       | None => acts = []
       end.
Proof.
  unfold first_winner. revert res log.
  induction ps as [|policy ps IH]; intros res log; cbn [policy_loop first_some failing_before].
  { intros [= <-]. exists [], []. split_and!; try done. by destruct enabled. }
  destruct (EvaluateCompiledAuditRules now policy am audit (Some rk)) as [ri r] eqn:Er. cbn [snd].
  destruct r as [[a|]|e|w]; [|apply IH|..].
  { destruct (audit_publishActivity prefix a) as [l e] eqn:Ep.
    destruct e; [done|]. intros [= <-]. apply audit_publish_ack in Ep as (p & Hp & Hs).
    exists [], [p]. split_and!; try done; [by destruct enabled|eauto]. }
  all: destruct (policy_failure _ _ _ _ _ _ _ _) as [l oe] eqn:Ed; destruct oe; [done|];
    apply (policy_failure_ack DLQ enabled) in Ed as [Hok Hlen];
    destruct (policy_loop _ _ _ _ _ _ _ _ _ ps) as [l' e'] eqn:El; intros [= <- ->];
    destruct (IH _ _ El) as (dls & acts & Hp & Hdls & Hn & Hw);
    exists (pubs_of l ++ dls), acts; rewrite pubs_of_app, Hp, length_app, Hlen, Hn;
    (split_and!; [by rewrite app_assoc|by apply Forall_app|by destruct enabled|done]).
Qed.

(** Building an activity fails or not whatever the clock says. *)
Lemma BuildFromAudit_clock now now' b audit s ls rk :
  match BuildFromAudit now b audit s ls rk, BuildFromAudit now' b audit s ls rk with
  | Ok _, Ok _ => True
  | Err e, Err e' => e = e'
  | Panic w, Panic w' => w = w'
  | _, _ => False
  end.
Proof.
  unfold BuildFromAudit. destruct (match ObjectRef audit with Some _ => _ | None => _ end) as [[? ?] ?].
  destruct (extractResponseIdentity _). by destruct (ConvertLinks ls rk).
Qed.

Lemma eval_compiled_clock now now' policy am audit rk i rules :
  evaluation_error (snd (eval_compiled_audit now policy am audit rk i rules))
  = evaluation_error (snd (eval_compiled_audit now' policy am audit rk i rules)).
Proof.
  revert i. induction rules as [|rule rules IH]; intros i; [done|]. cbn [eval_compiled_audit].
  destruct (negb (Valid rule)); [apply IH|].
  destruct (rule_EvaluateAuditMatch rule am) as [[]| |]; [|apply IH|done..]. cbn [snd].
  destruct (EvaluateAuditSummaryMap _ _) as [[s ls]| |]; [|done..]. cbn [wrap_err res_bind fst snd].
  pose proof (BuildFromAudit_clock now now'
    {| b_APIGroup := cp_APIGroup policy; b_Kind := cp_Kind policy |} audit s ls rk) as Hc.
  destruct (BuildFromAudit now _ _ _ _ _), (BuildFromAudit now' _ _ _ _ _); try done; cbn; by subst.
Qed.

(** When no policy of the resource fails, the loop publishes the winner and
    nothing else. *)
Lemma policy_loop_no_error (DLQ : DLQPublisher) prefix rk now payload audit am res ten ps :
  (forall p, p ∈ ps -> evaluation_error (snd (EvaluateCompiledAuditRules now p am audit (Some rk))) = None) ->
  let (log, e) := policy_loop DLQ prefix rk now payload audit am res ten ps in
  match first_winner rk now audit am ps with
  | None => log = [] /\ e = None
  | Some a => log = fst (audit_publishActivity prefix a)
              /\ (e = None <-> snd (audit_publishActivity prefix a) = None)
  end.
Proof.
  unfold first_winner. revert res. induction ps as [|policy ps IH]; intros res Hps; [done|].
  cbn [policy_loop first_some]. specialize (Hps policy ltac:(set_solver)) as Hp.
  destruct (EvaluateCompiledAuditRules now policy am audit (Some rk)) as [ri r]. cbn [snd] in *.
  destruct r as [[a|]|e|w]; cbn [evaluation_error] in Hp; try done.
  - destruct (audit_publishActivity prefix a) as [l []]; done.
  - apply IH. intros; apply Hps; set_solver.
Qed.

Lemma reevaluate_resolved rk now audit am ps :
  Resolved (reevaluate_loop rk now audit am ps) = true ->
  forall p, p ∈ ps -> evaluation_error (snd (EvaluateCompiledAuditRules now p am audit (Some rk))) = None.
Proof.
  induction ps as [|policy ps IH]; [set_solver|]. cbn [reevaluate_loop].
  destruct (EvaluateCompiledAuditRules now policy am audit (Some rk)) as [ri r] eqn:E.
  destruct (evaluation_error r) eqn:Ee; [done|]. intros HR p [->|Hp]%elem_of_cons; [by rewrite E|auto].
Qed.

(** An error of the compiled rules comes with the index of the rule. *)
Lemma eval_compiled_error now policy am audit rk i rules j r e :
  (0 <= i)%Z ->
  eval_compiled_audit now policy am audit rk i rules = (j, r) -> evaluation_error r = Some e -> (i <= j)%Z.
Proof.
  revert i. induction rules as [|rule rules IH]; intros i Hi; cbn [eval_compiled_audit].
  { by intros [= <- <-]. }
  destruct (negb (Valid rule)); [intros Hr He; specialize (IH (i + 1)%Z ltac:(lia) Hr He); lia|].
  destruct (rule_EvaluateAuditMatch rule am) as [[]| |].
  1, 3, 4: intros [= <- <-] _; lia.
  intros Hr He; specialize (IH (i + 1)%Z ltac:(lia) Hr He); lia.
Qed.
End AuditLemmas.

(** ** Lemmas: the informer *)

Section InformerLemmas.
Context `{CelEngine}.

Lemma index_remove_absent keyf v (l : live) n k :
  names_ok l -> l !! n = None -> index_ok keyf v l ->
  index_ok keyf (spec_remove (fun p => (cp_Name p =? n)%string) v k) l.
Proof.
  intros Hnames Hn HR k'. rewrite spec_remove_lookup. cbv zeta.
  destruct (decide (k = k')) as [->|]; [|apply HR].
  assert (find_index (fun p => (cp_Name p =? n)%string) (default [] (v !! k')) = None) as ->; [|apply HR].
  apply find_index_None. intros p Hin. rewrite (HR k') in Hin.
  apply targeting_in in Hin as (m & x & Hx & _ & ->). cbn.
  apply String.eqb_neq. intros Hm. rewrite (Hnames _ _ Hx) in Hm. congruence.
Qed.

Lemma Rep_remove_absent c l p r :
  l !! pol_Name p = None -> Rep c l -> Rep (Remove c p r) l.
Proof.
  intros Hn (HS & Hnames & HA & HK). unfold Remove.
  destruct (removeLocked_refines c (policy_key p r) (pol_Name p) HS) as (HS1 & HvA & HvK).
  destruct (removeKindLocked_refines _ (policy_kind_key p) (pol_Name p) HS1) as (HS2 & HvK2 & HvA2).
  split_and!; [done|done|rewrite HvA2, HvA|rewrite HvK2, HvK]; by apply index_remove_absent.
Qed.

Lemma removable_same (l : live) p r : l !! pol_Name p = Some (p, r) -> removable l p r = true.
Proof. unfold removable. intros ->. by rewrite !String.eqb_refl. Qed.

(** One informer event, the resolver answering. *)
Lemma handle_Rep grow R c st e st' :
  Rep c (ready_live R st) -> store_step st e st' ->
  Rep (handle grow (fun p => inr (R p)) c e) (ready_live R st').
Proof.
  intros HR Hstep.
  assert (forall n, ready_live R st !! n
                    = st !! n ≫= fun p => if isPolicyReady p then Some (p, R p) else None) as Hlk
    by (intros; apply lookup_omap).
  assert (forall p c1, Rep c1 (delete (pol_Name p) (ready_live R st)) ->
     Rep (if isPolicyReady p then fst (PolicyCache.Add grow c1 p (R p)) else c1)
         (ready_live R (<[pol_Name p := p]> st))) as Hadd.
  { intros p c1 HR1. unfold ready_live. rewrite omap_insert. destruct (isPolicyReady p); [|done].
    rewrite <- insert_delete_eq. apply Rep_index; [by rewrite lookup_delete_eq|done]. }
  destruct e as [p|p p'|p]; cbn [handle store_step] in *.
  - destruct Hstep as [Hn ->]. unfold onPolicyAdd.
    specialize (Hadd p c). rewrite delete_id in Hadd by (by rewrite Hlk, Hn).
    specialize (Hadd HR). by destruct (isPolicyReady p).
  - destruct Hstep as (Hp & Hname & ->). unfold onPolicyUpdate.
    specialize (Hadd p' (if isPolicyReady p then Remove c p (R p) else c)).
    rewrite Hname in Hadd. rewrite Hname.
    assert (Rep (if isPolicyReady p then Remove c p (R p) else c)
                (delete (pol_Name p) (ready_live R st))) as HR1.
    { specialize (Hlk (pol_Name p)). rewrite Hp in Hlk. cbn in Hlk.
      destruct (isPolicyReady p).
      - apply Rep_remove; [by apply removable_same|done].
      - by rewrite delete_id. }
    specialize (Hadd HR1). by destruct (isPolicyReady p), (isPolicyReady p').
  - destruct Hstep as [Hp ->]. unfold onPolicyDelete, ready_live.
    rewrite omap_delete. fold (ready_live R st).
    specialize (Hlk (pol_Name p)). rewrite Hp in Hlk. cbn in Hlk.
    destruct (isPolicyReady p).
    + apply Rep_remove; [by apply removable_same|done].
    + rewrite delete_id by done. by apply Rep_remove_absent.
Qed.

Lemma handle_run_Rep grow R es c st st' :
  Rep c (ready_live R st) -> store_run st es st' ->
  Rep (fold_left (handle grow (fun p => inr (R p))) es c) (ready_live R st').
Proof.
  intros HR Hrun. revert c HR. induction Hrun as [|st e st1 es st2 Hstep _ IH]; intros c HR; [done|].
  cbn [fold_left]. apply IH. by eapply handle_Rep.
Qed.
End InformerLemmas.

(** Concrete services for the examples, with the policies of [ToyPolicies]. *)
Module ToyAudit.
Definition audit1 : AuditEvent := {|
  AuditID := "a1"; RequestReceivedTimestamp := 5%Z;
  User := {| Username := "jane@x.io"; UID := "u"; Extra := ∅ |};
  ObjectRef := Some {| or_Resource := "deployments"; or_Namespace := "default"; or_Name := "web";
                       or_APIGroup := "apps"; or_APIVersion := "v1" |};
  ResponseObject := None |}.
Definition io : AuditIO := {|
  json_unmarshal_audit := fun s => if (s =? "audit1")%string then inr audit1 else inl (Ext "bad json");
  json_of_audit := fun a => inr (AuditID a);
  json_to_map := fun _ => inr (Some jane);
  json_of_activity := fun a => inr (Name a);
  policy_exists := fun _ => true |}.
Definition kinds : KindResolver := fun _ _ => inr "Deployment".
Definition process :=
  @audit_processMessage ToyCel.toy ToyLib.toy ToyServices.js io ToyServices.publisher "act" kinds 7%Z.
(** A policy whose rule matches and whose summary fails at run time. *)
Definition failing : ActivityPolicy := {|
  pol_Name := "F"; pol_ResourceVersion := "1"; pol_Generation := 2; pol_Labels := ∅;
  pol_Spec := {| ps_APIGroup := "apps"; ps_Kind := "Deployment";
                 AuditRules := [{| rule_Name := "r"; rule_Match := "true"; rule_Summary := "{{ fail }}" |}];
                 EventRules := [] |};
  Conditions := [("Ready", "True")] |}.
Definition cache (ps : list ActivityPolicy) : @PolicyCache ToyCel.toy :=
  ToyPolicies.run (map (fun p => OpAdd p "deployments") ps) (@NewPolicyCache ToyCel.toy).
End ToyAudit.

Example toy_audit :
  map p_subject (pubs_of (fst (ToyAudit.process (ToyAudit.cache [ToyAudit.failing; ToyPolicies.mk "A"]) "audit1")))
  = ["activity.dlq.audit.apps.Deployment";
     "act.platform._.apps.audit.Deployment.default.act-audit" +:+ nul +:+ "a1" +:+ nul +:+ "app"].
Proof. vm_compute. reflexivity. Qed.

(** A transient failure to resolve the old policy's resource on an update leaves
    the old compiled policy in the cache beside the new one; a failure on a
    deletion leaves the deleted policy in the cache. *)
Lemma resolver_failure_leaves_stale :
  let A := ToyPolicies.mk "A" in
  let c0 := ToyAudit.cache [A] in
  map (@cp_Name ToyCel.toy) (@Get ToyCel.toy
     (fst (@onPolicyUpdate ToyCel.toy ToyPolicies.double c0 A A (inl (Ext "discovery")) (inr "deployments")))
     "apps" "deployments") = ["A"; "A"]
  /\ map (@cp_Name ToyCel.toy) (@Get ToyCel.toy
       (@onPolicyDelete ToyCel.toy c0 A (inl (Ext "discovery"))) "apps" "deployments") = ["A"].
Proof. vm_compute. done. Qed.

(** With the matching policy first and a failing one second, ingestion never
    reaches the failure, but re-evaluation reports it. *)
Lemma reevaluation_stricter_than_ingest :
  let c := ToyAudit.cache [ToyPolicies.mk "A"; ToyAudit.failing] in
  let ev := dlq_event 0%Z EventTypeAudit {| f_payload := "audit1"; f_policyName := "F"; f_policyVersion := 1%Z;
              f_ruleIndex := 0%Z; f_errorType := ErrorTypeCELSummary; f_err := None;
              f_resource := None; f_tenant := None |} in
  length (pubs_of (fst (ToyAudit.process c "audit1"))) = 1%nat
  /\ snd (ToyAudit.process c "audit1") = None
  /\ exists o, @reEvaluateDeadLetter ToyCel.toy ToyLib.toy ToyAudit.io ToyAudit.kinds 7%Z c ev = Ok o
       /\ Resolved o = false.
Proof.
  split; [vm_compute; reflexivity|]. split; [vm_compute; reflexivity|].
  eexists. split; [vm_compute; reflexivity|reflexivity].
Qed.

(* ------------------------------------------------------------------ *)
(** ** Properties *)

(** C1: an acknowledged audit message is accounted for: when it could not be
    decoded or turned into a map, it was dead-lettered; when no policy targets
    its resource, nothing happened; otherwise every policy that failed before
    the first policy yielding an activity has its dead letter stored (one each,
    when dead-lettering is enabled), and exactly the activity of that first
    policy is stored, under its own subject and with its name as message
    identifier - at most one activity per message. *)
Theorem audit_ack `{CelEngine} `{ActivityLib} `{JetStream} `{AuditIO}
    (DLQ : DLQPublisher) (enabled : bool) `{!DLQPublisherLaws DLQ enabled}
    (prefix : string) (rk : KindResolver) (now : time) (c : PolicyCache) (data : string)
    (log : list effect) :
  audit_processMessage DLQ prefix rk now c data = (log, None) ->
  let dead_lettered :=
    Forall (fun p => pub_ok p = true) (pubs_of log)
    /\ length (pubs_of log) = (if enabled then 1 else 0)%nat in
  match json_unmarshal_audit data with
  | inl _ => dead_lettered
  | inr audit =>
      match ObjectRef audit with
      | None => log = []
      | Some ref =>
          let ps := Get c (or_APIGroup ref) (or_Resource ref) in
          match auditToMap audit with
          | inl _ => ps = [] /\ log = [] \/ dead_lettered
          | inr am =>
              exists dls acts, pubs_of log = dls ++ acts
                /\ Forall (fun p => pub_ok p = true) dls
                /\ length dls = (if enabled then failing_before rk now audit am ps else 0)%nat
                /\ match first_winner rk now audit am ps with
                   | Some a => exists p, acts = [p] /\ activity_stored prefix a p
                   | None => acts = []
                   end
          end
      end
  end.
Proof.
  intros Hp. cbv zeta. unfold audit_processMessage in Hp.
  destruct (json_unmarshal_audit data) as [err|audit].
  { destruct (dlq_audit _ _ _ _ _ _ _ _ _ _) as [l e] eqn:Ed. destruct e; [done|].
    injection Hp as <-. by apply (dlq_audit_ack DLQ enabled) in Ed. }
  destruct (ObjectRef audit) as [ref|]; [|by injection Hp].
  destruct (Get c (or_APIGroup ref) (or_Resource ref)) as [|p0 ps] eqn:Eg.
  { injection Hp as <-. destruct (auditToMap audit); [by left|].
    exists [], []. split_and!; try done. by destruct enabled. }
  destruct (auditToMap audit) as [err|am].
  - destruct (dlq_audit _ _ _ _ _ _ _ _ _ _) as [l e] eqn:Ed. destruct e; [done|].
    injection Hp as <-. right. by apply (dlq_audit_ack DLQ enabled) in Ed.
  - by apply (policy_loop_ack DLQ enabled) in Hp.
Qed.

Lemma audit_ack_witness :
  exists dls acts, pubs_of (fst (ToyAudit.process
      (ToyAudit.cache [ToyAudit.failing; ToyPolicies.mk "A"]) "audit1")) = dls ++ acts
    /\ length dls = 1%nat.
Proof.
  destruct (@audit_ack ToyCel.toy ToyLib.toy ToyServices.js ToyAudit.io ToyServices.publisher true _
    "act" ToyAudit.kinds 7%Z (ToyAudit.cache [ToyAudit.failing; ToyPolicies.mk "A"]) "audit1"
    (fst (ToyAudit.process (ToyAudit.cache [ToyAudit.failing; ToyPolicies.mk "A"]) "audit1")))
    as (dls & acts & Hl & _ & Hn & _); [vm_compute; reflexivity|].
  exists dls, acts. split; [exact Hl|]. rewrite Hn. vm_compute. reflexivity.
Defined.

(** C7: a dead letter that re-evaluation resolves does not come back: with the
    same policies, the audit handler then dead-letters nothing on its payload -
    it publishes the first winner's activity and returns an error only if that
    publish fails, or does nothing when no policy yields one. *)
Theorem resolved_dead_letter_reingests `{CelEngine} `{ActivityLib} `{JetStream} `{AuditIO}
    (DLQ : DLQPublisher) (prefix : string) (rk : KindResolver) (now now' : time) (c : PolicyCache)
    (ev : DeadLetterEvent) (o : RetryOutcome) :
  reEvaluateDeadLetter rk now c ev = Ok o -> Resolved o = true ->
  let (log, e) := audit_processMessage DLQ prefix rk now' c (OriginalPayload ev) in
  log = [] /\ e = None
  \/ exists a, log = fst (audit_publishActivity prefix a)
       /\ (e = None <-> snd (audit_publishActivity prefix a) = None).
Proof.
  unfold reEvaluateDeadLetter, audit_processMessage.
  destruct (json_unmarshal_audit (OriginalPayload ev)) as [e|audit]; [by intros [= <-]|].
  destruct (auditToMap audit) as [e|am]; [by intros [= <-]|].
  destruct (ObjectRef audit) as [ref|]; [|done]. intros [= <-] HR.
  destruct (Get c (or_APIGroup ref) (or_Resource ref)) as [|p0 ps] eqn:Eg; [by left|].
  pose proof (reevaluate_resolved rk now audit am _ HR) as Hps.
  set (dres := {| dlr_APIGroup := _ |}). set (dten := NewDeadLetterTenantFromActivity _ _).
  pose proof (policy_loop_no_error DLQ prefix rk now' (OriginalPayload ev) audit am dres dten (p0 :: ps)) as Hl.
  destruct (policy_loop _ _ _ _ _ _ _ _ _ _) as [log e].
  destruct (first_winner _ _ _ _ _) as [a|].
  - right. exists a. apply Hl. intros p Hp. rewrite <- (Hps p Hp).
    symmetry. apply eval_compiled_clock.
  - left. apply Hl. intros p Hp. rewrite <- (Hps p Hp). symmetry. apply eval_compiled_clock.
Qed.

Lemma resolved_dead_letter_reingests_witness :
  let c := ToyAudit.cache [ToyPolicies.mk "A"] in
  snd (ToyAudit.process c "audit1") = None
  \/ exists a, fst (ToyAudit.process c "audit1")
               = fst (@audit_publishActivity ToyServices.js ToyAudit.io "act" a).
Proof.
  set (c := ToyAudit.cache [ToyPolicies.mk "A"]).
  pose proof (@resolved_dead_letter_reingests ToyCel.toy ToyLib.toy ToyServices.js ToyAudit.io
    ToyServices.publisher "act" ToyAudit.kinds 3%Z 7%Z c
    (dlq_event 0%Z EventTypeAudit {| f_payload := "audit1"; f_policyName := "A"; f_policyVersion := 1%Z;
              f_ruleIndex := 0%Z; f_errorType := ErrorTypeCELSummary; f_err := None;
              f_resource := None; f_tenant := None |})
    {| Resolved := true; ro_ErrorType := None; ro_Err := None |}) as Hw.
  destruct Hw as [[_ He]|(a & He & _)]; [vm_compute; reflexivity|reflexivity|left; exact He|].
  right. exists a. exact He.
Defined.

(** The error type of a failed policy evaluation: it is [kind_resolve]
    when the activity could not be built and [cel_summary] otherwise - match
    expression failures included: [cel_match] is never reported by the audit
    path. *)
Theorem evaluation_error_classified `{CelEngine} `{ActivityLib} (now : time) (policy : CompiledPolicy)
    (am : gomap) (audit : AuditEvent) (rk : option KindResolver) (e : error) :
  let (ruleIndex, r) := EvaluateCompiledAuditRules now policy am audit rk in
  evaluation_error r = Some e ->
  (0 <= ruleIndex)%Z
  /\ classifyEvaluationError e ruleIndex <> ErrorTypeCELMatch
  /\ (classifyEvaluationError e ruleIndex = ErrorTypeKindResolve
      <-> errors_Is ErrKindResolution e = true \/ errors_Is ErrActivityBuild e = true).
Proof.
  destruct (EvaluateCompiledAuditRules now policy am audit rk) as [ri r] eqn:E. intros He.
  assert (0 <= ri)%Z as Hri by (eapply (eval_compiled_error now policy am audit rk 0); eauto; lia).
  unfold classifyEvaluationError. destruct (Z.ltb_spec ri 0); [lia|].
  split; [done|]. rewrite <- orb_true_iff.
  destruct (errors_Is ErrKindResolution e || errors_Is ErrActivityBuild e)%bool; done.
Qed.

(** C5: the informer handlers keep the cache equal to the ready policies of
    the informer's store: after any run of additions, updates and deletions
    that the store can deliver, with a resolver that answers, [Get] and
    [GetByKind] list exactly the compiled ready policies of the store that
    target the resource or kind, however readiness changed on the way. *)
Theorem informer_cache_in_step `{CelEngine} (grow : nat -> nat) (R : ActivityPolicy -> string)
    (es : list informer_event) (st : gmap string ActivityPolicy) :
  store_run ∅ es st ->
  let c := fold_left (handle grow (fun p => inr (R p))) es NewPolicyCache in
  let l := ready_live R st in
  (forall g r, Get c g r ≡ₚ targeting res_key (policyKey g r) l)
  /\ (forall g k, GetByKind c g k ≡ₚ targeting kind_key (policyKey g k) l)
  /\ (forall n p, l !! n = Some p <-> exists q, st !! n = Some q /\ isPolicyReady q = true /\ p = (q, R q)).
Proof.
  intros Hrun. cbv zeta.
  assert (Rep NewPolicyCache (ready_live R ∅)) as H0 by (unfold ready_live; rewrite omap_empty; apply Rep_new).
  pose proof (handle_run_Rep grow R es _ _ _ H0 Hrun) as (HS & _ & HA & HK). split_and!.
  - intros g r. rewrite <- (HA (policyKey g r)). unfold Get, Get_slice. by rewrite get_slice_elems.
  - intros g k. rewrite <- (HK (policyKey g k)). unfold GetByKind. by rewrite get_slice_elems.
  - intros n p. unfold ready_live. rewrite lookup_omap.
    destruct (st !! n) as [q|]; cbn; [|naive_solver].
    destruct (isPolicyReady q) eqn:E; naive_solver congruence.
Qed.

Lemma informer_cache_in_step_witness :
  exists c : @PolicyCache ToyCel.toy,
    @Get ToyCel.toy c "apps" "deployments"
    ≡ₚ @targeting ToyCel.toy res_key (policyKey "apps" "deployments")
         (ready_live (fun _ => "deployments") (<["A" := ToyPolicies.mk "A"]> ∅)).
Proof.
  eexists.
  apply (@informer_cache_in_step ToyCel.toy ToyPolicies.double (fun _ => "deployments")
    [EvAdd (ToyPolicies.mk "A")] (<["A" := ToyPolicies.mk "A"]> ∅)).
  econstructor; [|constructor]. split; reflexivity.
Defined.
