(* ===== verification/DlqRetry.v ===== *)
(** * internal/activityprocessor/dlq_retry.go: retrying dead letters

    The retry controller: one batch of dead letters ([processRetryBatch]),
    eligibility and back-off, republication to the source streams, the update
    of the retry metadata, and the periodic and policy-triggered drains.
    Floating point enters through one parameter, the value of
    [time.Duration(float64(base) * math.Pow(multiplier, n))], about which
    nothing is assumed. *)

From Stdlib Require Import Ascii String.
From stdpp Require Import base numbers list strings gmap pretty.
From Stdlib Require Import ZArith Lia.
From S2P Require Import Prelude GoLib Types CelPolicy Activity Dlq EventProc GoSlice PolicyCache TimeUtil AuditProc.

Record DLQRetryConfig := {
  rc_Enabled : bool;
  Interval : Z;
  BatchSize : Z;
  BackoffBase : Z;
  BackoffMultiplier : Z * Z;  (* a float64, as a ratio *)
  BackoffMax : Z;
  AlertThreshold : Z;
  AuditRetrySubject : string;
  EventRetrySubject : string }.

Definition DefaultDLQRetryConfig : DLQRetryConfig := {|
  rc_Enabled := true; Interval := 5 * Minute; BatchSize := 100; BackoffBase := 1 * Minute;
  BackoffMultiplier := (2, 1)%Z; BackoffMax := 24 * Hour; AlertThreshold := 10;
  AuditRetrySubject := "audit.k8s.retry"; EventRetrySubject := "events.retry" |}.

Definition maxPeriodicRunDuration : Z := 2 * Minute.
Definition maxPolicyRunDuration : Z := 30 * Second.
Definition policySkipRedeliveryDelay : Z := maxPolicyRunDuration + 5 * Second.

(** The controller: its wiring.  A nil evaluator or generation function is
    [None]. *)
Record DLQRetryController := {
  config : DLQRetryConfig;
  evaluator : option (DeadLetterEvent -> RetryOutcome);
  policyGeneration : option (string -> Z);
  auditStreamName : string;
  eventStreamName : string;
  dlqStreamName : string;
  dlqSubjectPrefix : string }.

(** What happens to a fetched message. *)
Inductive settlement :=
| SAck
| SNak
| SNakDelay (d : Z).

Record retryFilter := {
  rf_apiGroup : string; rf_kind : string; rf_policyName : string; maxPolicyVersion : Z }.

Definition extractResourceInfo (event : DeadLetterEvent) : string * string :=
  match dl_Resource event with
  | None => ("unknown", "unknown")
  | Some r => (if negb (dlr_APIGroup r =? "")%string then dlr_APIGroup r else "core",
               if negb (dlr_Kind r =? "")%string then dlr_Kind r else "unknown")
  end.

(** What the file takes from its libraries: the float computation of the
    back-off, the rendering of a timestamp, the decoding of a dead letter, and a
    publish that names the stream it expects. *)
Class RetryLib := {
  float_backoff : Z -> Z * Z -> Z -> Z;
  format_time : time -> string;
  json_unmarshal_dle : string -> error + DeadLetterEvent;
  js_PublishExpect : string -> string -> string -> string -> option error
}.

Section Retry.
Context `{ActivityLib} `{JetStream} `{DlqJson} `{RetryLib} (c : DLQRetryController).

(** The first 4 bytes of the hash: 8 hexadecimal digits. *)
Definition computePayloadHash (payload : string) : string := take_str 8 (sha256_hex payload).

Definition calculateBackoff (retryCount : Z) : Z :=
  if (40 <? retryCount)%Z then BackoffMax (config c)
  else
    let backoff := float_backoff (BackoffBase (config c)) (BackoffMultiplier (config c)) retryCount in
    if ((BackoffMax (config c) <? backoff) || (backoff <? 0))%Z%bool then BackoffMax (config c)
    else backoff.

Definition isEligibleForRetry (event : DeadLetterEvent) (now : time) : bool :=
  let newer := match policyGeneration c with
               | Some g => (PolicyVersion event <? g (PolicyName event))%Z
               | None => false
               end in
  if newer then true
  else match NextRetryAfter event with
       | None => true
       | Some t => After now t
       end.

Definition republishEvent (event : DeadLetterEvent) : list pub * option error :=
  let target :=
    match dl_Type event with
    | EventTypeAudit => inr (auditStreamName c, AuditRetrySubject (config c))
    | EventTypeK8sEvent => inr (eventStreamName c, EventRetrySubject (config c))
    | EventTypeOther s => inl (Errorf [PStr "unknown event type: "; PStr s])
    end in
  match target with
  | inl e => ([], Some e)
  | inr (targetStream, subject) =>
      let msgID := "dlq-retry-" +:+ EventType_string (dl_Type event) +:+ "-" +:+ PolicyName event
        +:+ "-" +:+ computePayloadHash (OriginalPayload event) +:+ "-" +:+ format_time (Timestamp event) in
      let r := js_PublishExpect targetStream subject (OriginalPayload event) msgID in
      ([{| p_subject := subject; p_data := OriginalPayload event; p_msgid := Some msgID; p_err := r |}],
       match r with
       | Some e => Some (Errorf [PStr "failed to publish to "; PStr targetStream; PStr ": "; PWrap e])
       | None => None
       end)
  end.

(** The event with its retry metadata advanced. *)
Definition advance_retry (event : DeadLetterEvent) (now : time) : DeadLetterEvent :=
  let count := wrap64 (RetryCount event + 1) in
  {| dl_Type := dl_Type event; OriginalPayload := OriginalPayload event; dl_Error := dl_Error event;
     dl_ErrorType := dl_ErrorType event; PolicyName := PolicyName event;
     PolicyVersion := PolicyVersion event; RuleIndex := RuleIndex event; Timestamp := Timestamp event;
     dl_Tenant := dl_Tenant event; dl_Resource := dl_Resource event;
     RetryCount := count;
     LastRetryAt := Some now;
     NextRetryAfter := Some (GoLib.Add now (calculateBackoff count)) |}.

Definition updateAndRepublishMetadata (event : DeadLetterEvent) (now : time)
  : list pub * option error :=
  let event := advance_retry event now in
  match json_marshal_dle event with
  | inl e => ([], Some (Errorf [PStr "failed to marshal updated DLQ event: "; PWrap e]))
  | inr data =>
      let (apiGroup, kind) := extractResourceInfo event in
      let subject := dlqSubjectPrefix c +:+ "." +:+ EventType_string (dl_Type event) +:+ "." +:+ apiGroup
        +:+ "." +:+ kind in
      let msgID := "dlq-" +:+ EventType_string (dl_Type event) +:+ "-" +:+ PolicyName event
        +:+ "-" +:+ computePayloadHash (OriginalPayload event) +:+ "-" +:+ format_time (Timestamp event)
        +:+ "-" +:+ pretty (RetryCount event) in
      let (log, r) := do_publish subject data (Some msgID) in
      match r with
      | Some e => (log, Some (Errorf [PStr "failed to republish updated DLQ event: "; PWrap e]))
      | None => (log, None)
      end
  end.

(** Keep a failed event in the queue: Ack only when its copy is stored. *)
Definition keep_in_queue (event : DeadLetterEvent) (now : time) : list pub * settlement :=
  let (log, r) := updateAndRepublishMetadata event now in
  (log, match r with Some _ => SNak | None => SAck end).

Definition handleReEvaluationFailure (event : DeadLetterEvent) (now : time) (outcome : RetryOutcome)
  : list pub * settlement :=
  keep_in_queue event now.

(** The event with the version of the policy it is retried under. *)
Definition record_version (event : DeadLetterEvent) : DeadLetterEvent :=
  match policyGeneration c with
  | None => event
  | Some g =>
      let generation := g (PolicyName event) in
      if (PolicyVersion event <? generation)%Z then
        {| dl_Type := dl_Type event; OriginalPayload := OriginalPayload event; dl_Error := dl_Error event;
           dl_ErrorType := dl_ErrorType event; PolicyName := PolicyName event;
           PolicyVersion := generation; RuleIndex := RuleIndex event; Timestamp := Timestamp event;
           dl_Tenant := dl_Tenant event; dl_Resource := dl_Resource event;
           RetryCount := RetryCount event; LastRetryAt := LastRetryAt event;
           NextRetryAfter := NextRetryAfter event |}
      else event
  end.

(** Counters of a batch. *)
Record counts := { processed : nat; succeeded : nat; failed : nat }.
Definition c_skip : counts := {| processed := 1; succeeded := 0; failed := 0 |}.
Definition c_ok : counts := {| processed := 1; succeeded := 1; failed := 0 |}.
Definition c_fail : counts := {| processed := 1; succeeded := 0; failed := 1 |}.
Definition c_add (a b : counts) : counts :=
  {| processed := processed a + processed b; succeeded := succeeded a + succeeded b;
     failed := failed a + failed b |}.
Definition c_zero : counts := {| processed := 0; succeeded := 0; failed := 0 |}.

(** The attempt itself: re-evaluate audit events, then republish. *)
Definition retry_attempt (event : DeadLetterEvent) (now : time) : list pub * settlement * counts :=
  let event := record_version event in
  let outcome := match evaluator c, dl_Type event with
                 | Some ev, EventTypeAudit => Some (ev event)
                 | _, _ => None
                 end in
  let republish :=
    let (log, r) := republishEvent event in
    match r with
    | Some _ => let (log', s) := keep_in_queue event now in (log ++ log', s, c_fail)
    | None => (log, SAck, c_ok)
    end in
  match outcome with
  | Some o => if negb (Resolved o)
              then let (log, s) := handleReEvaluationFailure event now o in (log, s, c_fail)
              else republish
  | None => republish
  end.

(** Delay of an event that is not eligible yet; [clock] is the time read by
    [time.Until]. *)
Definition backoff_delay (event : DeadLetterEvent) (clock : time) : Z :=
  let delay := match NextRetryAfter event with
               | Some t => if (0 <? t - clock)%Z then (t - clock)%Z else BackoffBase (config c)
               | None => BackoffBase (config c)
               end in
  if (Interval (config c) <? delay)%Z then Interval (config c) else delay.

(** The body of the loop of [processRetryBatch] for one message. *)
Definition process_one (filter : option retryFilter) (now clock : time) (data : string)
  : list pub * settlement * counts :=
  match json_unmarshal_dle data with
  | inl _ => ([], SAck, c_fail)
  | inr dlEvent =>
      match filter with
      | Some f =>
          if (negb (rf_policyName f =? "") && negb (PolicyName dlEvent =? rf_policyName f))%string%bool
          then ([], SNakDelay policySkipRedeliveryDelay, c_skip)
          else if ((0 <? maxPolicyVersion f) && (maxPolicyVersion f <=? PolicyVersion dlEvent))%Z%bool
          then ([], SNakDelay policySkipRedeliveryDelay, c_skip)
          else retry_attempt dlEvent now
      | None =>
          if negb (isEligibleForRetry dlEvent now)
          then ([], SNakDelay (backoff_delay dlEvent clock), c_skip)
          else retry_attempt dlEvent now
      end
  end.

Fixpoint process_all (filter : option retryFilter) (now clock : time) (msgs : list string)
  : list pub * list settlement * counts :=
  match msgs with
  | [] => ([], [], c_zero)
  | m :: ms =>
      let '(log, s, n) := process_one filter now clock m in
      let '(log', ss, n') := process_all filter now clock ms in
      (log ++ log', s :: ss, c_add n n')
  end.

(** [processRetryBatch]: [fetched] is what binding and [Fetch] gave; an error
    other than a timeout ends the batch (a timeout comes with the messages got
    so far). *)
Definition processRetryBatch (filter : option retryFilter) (fetched : error + list string)
    (now clock : time) : list pub * list settlement * counts :=
  match fetched with
  | inl _ => ([], [], c_zero)
  | inr msgs => process_all filter now clock msgs
  end.

(** One turn of a drain loop, as the environment answers: whether the context
    is cancelled, the time, and the batch. *)
Record turn := { t_cancelled : bool; t_now : time; t_fetched : error + list string }.

(** The loop shared by [periodicRetry] and [RetryForPolicy]: stop when
    cancelled, past the deadline, or on an empty batch.  Returns the
    settlements, the totals and the number of turns taken. *)
Fixpoint drain (filter : option retryFilter) (deadline : time) (turns : list turn)
  : list pub * list settlement * counts * nat :=
  match turns with
  | [] => ([], [], c_zero, O)
  | t :: ts =>
      if t_cancelled t then ([], [], c_zero, O)
      else if After (t_now t) deadline then ([], [], c_zero, O)
      else
        let '(log, ss, n) := processRetryBatch filter (t_fetched t) (t_now t) (t_now t) in
        if Nat.eqb (processed n) 0 then (log, ss, n, 1%nat)
        else let '(log', ss', n', k) := drain filter deadline ts in
             (log ++ log', ss ++ ss', c_add n n', S k)
  end.

Definition periodicRetry (start : time) (turns : list turn) : list pub * list settlement * counts * nat :=
  let runDuration := if (Interval (config c) <? maxPeriodicRunDuration)%Z
                     then Interval (config c) else maxPeriodicRunDuration in
  drain None (GoLib.Add start runDuration) turns.

Definition policy_filter (policy : ActivityPolicy) : retryFilter :=
  let apiGroup := ps_APIGroup (pol_Spec policy) in
  {| rf_apiGroup := if (apiGroup =? "")%string then "core" else apiGroup;
     rf_kind := ps_Kind (pol_Spec policy);
     rf_policyName := pol_Name policy;
     maxPolicyVersion := pol_Generation policy |}.

(** [RetryForPolicy] with the set of policies being retried: a second call for
    the same policy returns at once; the mark is removed at the end. *)
Definition RetryForPolicy (active : gset string) (policy : option ActivityPolicy) (start : time)
    (turns : list turn) : gset string * (list pub * list settlement * counts * nat) :=
  match policy with
  | None => (active, ([], [], c_zero, O))
  | Some p =>
      if negb (rc_Enabled (config c)) then (active, ([], [], c_zero, O))
      else if bool_decide (pol_Name p ∈ active) then (active, ([], [], c_zero, O))
      else
        let active' := {[pol_Name p]} ∪ active in
        let r := drain (Some (policy_filter p)) (GoLib.Add start maxPolicyRunDuration) turns in
        (active' ∖ {[pol_Name p]}, r)
  end.
End Retry.

(* ------------------------------------------------------------------ *)
(** ** Lemmas *)

Section RetryLemmas.
Context `{ActivityLib} `{JetStream} `{DlqJson} `{RetryLib}.

(** The dead letter [ev] was put back on its source stream: the stream of its
    type acknowledged its payload under the subject of its type. *)
Definition republished (c : DLQRetryController) (ev : DeadLetterEvent) (log : list pub) : Prop :=
  exists p id stream, p ∈ log /\ pub_ok p = true /\ p_data p = OriginalPayload ev
    /\ p_msgid p = Some id /\ js_PublishExpect stream (p_subject p) (p_data p) id = None
    /\ (dl_Type ev = EventTypeAudit /\ stream = auditStreamName c
           /\ p_subject p = AuditRetrySubject (config c)
        \/ dl_Type ev = EventTypeK8sEvent /\ stream = eventStreamName c
           /\ p_subject p = EventRetrySubject (config c)).

(** A copy of [ev] with advanced retry metadata is in the queue: it was
    acknowledged under the subject its first publisher uses, with a message id
    that ends in its new retry count. *)
Definition kept (c : DLQRetryController) (ev : DeadLetterEvent) (now : time) (log : list pub) : Prop :=
  exists p id, p ∈ log /\ pub_ok p = true
    /\ json_marshal_dle (advance_retry c ev now) = inr (p_data p)
    /\ p_msgid p = Some (id +:+ "-" +:+ pretty (RetryCount (advance_retry c ev now)))
    /\ js_Publish (p_subject p) (p_data p) (p_msgid p) = None
    /\ forall cfg : DLQConfig, SubjectPrefix cfg = dlqSubjectPrefix c ->
         p_subject p = dlq_subject cfg (dl_Type ev) (dl_Resource ev).

Lemma republishEvent_ok c ev log :
  republishEvent c ev = (log, None) -> republished c ev log /\ length log = 1%nat.
Proof.
  unfold republishEvent, republished.
  destruct (dl_Type ev) as [| |s]; [..|done]; destruct (js_PublishExpect _ _ _ _) eqn:E;
    intros [= <-]; (split; [|done]); do 3 eexists; (split; [left|]);
    split_and!; eauto; cbn [p_subject p_data pub_ok p_err]; by rewrite ?E.
Qed.

Lemma keep_in_queue_ack c ev now log :
  keep_in_queue c ev now = (log, SAck) -> kept c ev now log.
Proof.
  unfold keep_in_queue, updateAndRepublishMetadata, kept, do_publish.
  destruct (json_marshal_dle (advance_retry c ev now)) as [e|d] eqn:Ed; [done|].
  destruct (extractResourceInfo _) as [g k] eqn:Er.
  destruct (js_Publish _ _ _) eqn:E; intros [= <-].
  eexists _, ("dlq-" +:+ EventType_string (dl_Type ev) +:+ "-" +:+ PolicyName ev +:+ "-"
    +:+ computePayloadHash (OriginalPayload ev) +:+ "-" +:+ format_time (Timestamp ev)).
  split; [left|]. split_and!; [done|done| |exact E|].
  { cbn [p_msgid]. f_equal. by rewrite !append_assoc. }
  intros cfg Hcfg. unfold dlq_subject. rewrite Hcfg. unfold extractResourceInfo in Er.
  cbn [dl_Resource advance_retry] in Er. by rewrite Er.
Qed.

Lemma kept_app c ev now l l' : kept c ev now l' -> kept c ev now (l ++ l').
Proof. intros (p & d & Hp & ?). exists p, d. split; [apply elem_of_app; auto|done]. Qed.

Lemma retry_attempt_ack c ev now log n :
  retry_attempt c ev now = (log, SAck, n) ->
  republished c (record_version c ev) log \/ kept c (record_version c ev) now log.
Proof.
  unfold retry_attempt, handleReEvaluationFailure. set (ev' := record_version c ev).
  assert (forall l s n', (let (log, r) := republishEvent c ev' in
      match r with
      | Some _ => let (log', s) := keep_in_queue c ev' now in (log ++ log', s, c_fail)
      | None => (log, SAck, c_ok)
      end) = (l, s, n') -> s = SAck -> republished c ev' l \/ kept c ev' now l) as Hrep.
  { intros l s n'. destruct (republishEvent c ev') as [lg [e|]] eqn:Er.
    - destruct (keep_in_queue c ev' now) as [lg' s'] eqn:Ek. intros [= <- <- <-] ->.
      right. by apply kept_app, keep_in_queue_ack.
    - intros [= <- <- <-] _. left. by apply republishEvent_ok. }
  destruct (match evaluator c with Some _ => _ | None => _ end) as [o|].
  - destruct (negb (Resolved o)); [|intros Hl; eapply Hrep; eauto].
    destruct (keep_in_queue c ev' now) as [lg s] eqn:Ek. intros [= <- -> <-].
    right. by apply keep_in_queue_ack.
  - intros Hl. eapply Hrep; eauto.
Qed.

Lemma record_version_type c ev :
  dl_Type (record_version c ev) = dl_Type ev
  /\ OriginalPayload (record_version c ev) = OriginalPayload ev
  /\ RetryCount (record_version c ev) = RetryCount ev
  /\ PolicyName (record_version c ev) = PolicyName ev
  /\ dl_Resource (record_version c ev) = dl_Resource ev
  /\ dl_Error (record_version c ev) = dl_Error ev
  /\ dl_ErrorType (record_version c ev) = dl_ErrorType ev
  /\ Timestamp (record_version c ev) = Timestamp ev.
Proof.
  unfold record_version. destruct (policyGeneration c); [|done]. by destruct (_ <? _)%Z.
Qed.

Lemma calculateBackoff_bounds c n :
  (0 <= BackoffMax (config c))%Z -> (0 <= calculateBackoff c n <= BackoffMax (config c))%Z.
Proof.
  intros Hm. unfold calculateBackoff. destruct (40 <? n)%Z; [lia|].
  destruct (_ || _)%bool eqn:E; [lia|]. breflect. lia.
Qed.

Lemma retry_attempt_counts c ev now log s n :
  retry_attempt c ev now = (log, s, n) -> n = c_ok \/ n = c_fail.
Proof.
  unfold retry_attempt, handleReEvaluationFailure. set (ev' := record_version c ev).
  destruct (match evaluator c with Some _ => _ | None => _ end) as [o|];
    [destruct (negb (Resolved o)); [destruct (keep_in_queue c ev' now); intros [= <- <- <-]; auto|]|];
    (destruct (republishEvent c ev') as [lg [e|]];
     [destruct (keep_in_queue c ev' now)|]; intros [= <- <- <-]; auto).
Qed.

Lemma process_one_counts c f now clock m log s n :
  process_one c f now clock m = (log, s, n) -> n = c_ok \/ n = c_fail \/ n = c_skip.
Proof.
  unfold process_one. destruct (json_unmarshal_dle m) as [e|ev]; [intros [= <- <- <-]; auto|].
  destruct f as [f|].
  - do 2 (destruct (_ && _)%bool; [intros [= <- <- <-]; auto|]).
    intros Hr%retry_attempt_counts. tauto.
  - destruct (negb _); [intros [= <- <- <-]; auto|]. intros Hr%retry_attempt_counts. tauto.
Qed.

Lemma process_all_counts c f now clock ms log ss n :
  process_all c f now clock ms = (log, ss, n) ->
  processed n = length ms /\ length ss = length ms /\ (succeeded n + failed n <= processed n)%nat.
Proof.
  revert log ss n. induction ms as [|m ms IH]; intros log ss n; cbn [process_all].
  { by intros [= <- <- <-]. }
  destruct (process_one c f now clock m) as [[l s] n1] eqn:E1.
  destruct (process_all c f now clock ms) as [[l' ss'] n2] eqn:E2. intros [= <- <- <-].
  destruct (IH _ _ _ eq_refl) as (Hp & Hs & Hle). cbn [processed succeeded failed c_add length].
  destruct (process_one_counts _ _ _ _ _ _ _ _ E1) as [->|[-> | ->]]; cbn; lia.
Qed.
End RetryLemmas.

Section DrainLemmas.
Context `{ActivityLib} `{JetStream} `{DlqJson} `{RetryLib}.

(** Every settled message was counted, and the turns taken fit before the
    deadline. *)
Lemma drain_spec c f deadline turns log ss n k :
  drain c f deadline turns = (log, ss, n, k) ->
  processed n = length ss /\ (succeeded n + failed n <= processed n)%nat /\ (k <= length turns)%nat
  /\ (forall i t, (i < k)%nat -> turns !! i = Some t -> (t_now t <= deadline)%Z /\ t_cancelled t = false).
Proof.
  revert log ss n k. induction turns as [|t ts IH]; intros log ss n k; cbn [drain].
  { intros [= <- <- <- <-]. split_and!; try done; intros; lia. }
  destruct (t_cancelled t) eqn:Ec; [intros [= <- <- <- <-]; split_and!; try done; intros; lia|].
  destruct (After (t_now t) deadline) eqn:Ea; [intros [= <- <- <- <-]; split_and!; try done; intros; lia|].
  unfold After in Ea. apply Z.ltb_ge in Ea.
  destruct (processRetryBatch c f (t_fetched t) (t_now t) (t_now t)) as [[l s] n1] eqn:Eb.
  assert (processed n1 = length s /\ (succeeded n1 + failed n1 <= processed n1)%nat) as [Hn1 Hle1].
  { unfold processRetryBatch in Eb. destruct (t_fetched t) as [e|ms]; [by injection Eb as <- <- <-|].
    apply process_all_counts in Eb as (? & ? & ?). split; congruence. }
  assert (forall (k' : nat), (k' <= length ts)%nat ->
    (forall i t', (i < k')%nat -> ts !! i = Some t' -> (t_now t' <= deadline)%Z /\ t_cancelled t' = false) ->
    (S k' <= length (t :: ts))%nat /\
    forall i t', (i < S k')%nat -> (t :: ts) !! i = Some t' -> (t_now t' <= deadline)%Z /\ t_cancelled t' = false)
    as Hk.
  { intros k' Hk' Hts. split; [simpl; lia|]. intros [|i] t' Hi; cbn; [by intros [= <-]|].
    apply Hts. lia. }
  destruct (Nat.eqb (processed n1) 0).
  - intros [= <- <- <- <-]. destruct (Hk 0%nat ltac:(lia) ltac:(intros; lia)) as [? ?]. split_and!; try done; lia.
  - destruct (drain c f deadline ts) as [[[l' s'] n2] k'] eqn:Ed. intros [= <- <- <- <-].
    destruct (IH _ _ _ _ eq_refl) as (Hn2 & Hle2 & Hk' & Hts).
    destruct (Hk k' Hk' Hts) as [Hlen Hall]. rewrite length_app. cbn. split_and!; try done; lia.
Qed.
End DrainLemmas.

(** Concrete services for the examples. *)
Module ToyRetry.
Definition ev0 : DeadLetterEvent :=
  dlq_event 100%Z EventTypeK8sEvent
    (event_failure "event0" "p" 0 ErrorTypeCELSummary (Ext "boom") None).
Definition ctl : DLQRetryController := {|
  config := DefaultDLQRetryConfig; evaluator := None; policyGeneration := None;
  auditStreamName := "A"; eventStreamName := "E"; dlqStreamName := "D"; dlqSubjectPrefix := "dlq" |}.
(** The same event after one failed retry. *)
Definition ev1 : DeadLetterEvent := {|
  dl_Type := EventTypeK8sEvent; OriginalPayload := "event0"; dl_Error := "boom";
  dl_ErrorType := ErrorTypeCELSummary; PolicyName := "p"; PolicyVersion := 0; RuleIndex := 0;
  Timestamp := 100%Z; dl_Tenant := None; dl_Resource := None; RetryCount := 1;
  LastRetryAt := Some 1000%Z; NextRetryAfter := Some 120000001000%Z |}.
Definition lib : RetryLib := {|
  float_backoff := fun base m n => (base * 2 ^ n)%Z;
  format_time := fun _ => "t";
  json_unmarshal_dle := fun s =>
    if (s =? "ev0")%string then inr ev0 else if (s =? "ev1")%string then inr ev1
    else inl (Ext "corrupt");
  js_PublishExpect := fun _ _ _ _ => None |}.
Definition one := @process_one ToyLib.toy ToyServices.js ToyServices.dlqjson lib ctl.
End ToyRetry.

(* ------------------------------------------------------------------ *)
(** ** Properties *)

(** C2: no dead letter is lost to a retry: a message of the queue is
    acknowledged only when it cannot be decoded at all, or the source stream of
    its type has acknowledged its payload under the subject of its type, or a
    copy of it has been acknowledged under the subject the dead letter was first
    published under - same payload, type, resource, policy and failure, retry
    count one higher (also in its message id), and the next retry after a
    back-off between 0 and the configured maximum. *)
Theorem retry_no_loss `{ActivityLib} `{JetStream} `{DlqJson} `{RetryLib}
    (c : DLQRetryController) (f : option retryFilter) (now clock : time) (data : string)
    (log : list pub) (n : counts) :
  process_one c f now clock data = (log, SAck, n) ->
  (exists e, json_unmarshal_dle data = inl e)
  \/ exists ev, json_unmarshal_dle data = inr ev
     /\ let ev' := record_version c ev in
        (republished c ev' log
         \/ kept c ev' now log
            /\ let next := advance_retry c ev' now in
               OriginalPayload next = OriginalPayload ev /\ PolicyName next = PolicyName ev
               /\ dl_Type next = dl_Type ev /\ dl_Resource next = dl_Resource ev
               /\ dl_Error next = dl_Error ev /\ dl_ErrorType next = dl_ErrorType ev
               /\ Timestamp next = Timestamp ev
               /\ (RetryCount ev < int64_max -> 0 <= RetryCount ev -> RetryCount next = RetryCount ev + 1)%Z
               /\ exists b, NextRetryAfter next = Some (now + b)%Z
                    /\ (0 <= BackoffMax (config c) -> 0 <= b <= BackoffMax (config c))%Z).
Proof.
  unfold process_one. destruct (json_unmarshal_dle data) as [e|ev]; [eauto|]. intros Hp. right.
  exists ev. split; [done|]. cbv zeta. destruct (record_version_type c ev) as (Hty & Hpay & Hcnt & Hpol & Hres & Herr & Hety & Hts).
  assert (retry_attempt c ev now = (log, SAck, n)) as Hr.
  { destruct f as [f|].
    - destruct (negb (rf_policyName f =? "") && _)%string%bool; [done|].
      destruct ((0 <? maxPolicyVersion f) && _)%Z%bool; [done|exact Hp].
    - destruct (negb (isEligibleForRetry c ev now)); [done|exact Hp]. }
  apply retry_attempt_ack in Hr as [Hr|Hr]; [by left|right]. split; [done|].
  cbn. rewrite Hpay, Hpol, Hcnt, Hty, Hres, Herr, Hety, Hts. split_and!; try done.
  - intros Hlt Hge. rewrite wrap64_id; [done|]. unfold int64_min, int64_max in *. lia.
  - eexists. split; [reflexivity|]. apply calculateBackoff_bounds.
Qed.

Lemma retry_no_loss_witness :
  exists p, p ∈ fst (fst (ToyRetry.one None 200%Z 200%Z "ev0")) /\ pub_ok p = true.
Proof.
  destruct (@retry_no_loss ToyLib.toy ToyServices.js ToyServices.dlqjson ToyRetry.lib ToyRetry.ctl None
    200%Z 200%Z "ev0" (fst (fst (ToyRetry.one None 200%Z 200%Z "ev0"))) c_ok)
    as [[e He]|(ev & _ & [(p & id & st & Hp & Hok & _)|[(p & id & Hp & Hok & _) _]])].
  - vm_compute. reflexivity.
  - vm_compute in He. discriminate He.
  - exists p. split; [exact Hp|exact Hok].
  - exists p. split; [exact Hp|exact Hok].
Defined.

(** A policy-triggered retry touches only that policy's dead letters that
    failed under an older version: any other message gets exactly one answer, a
    delayed redelivery that outlasts the whole scan, and publishes nothing. *)
Theorem policy_retry_selective `{ActivityLib} `{JetStream} `{DlqJson} `{RetryLib}
    (c : DLQRetryController) (p : ActivityPolicy) (now clock : time) (data : string)
    (ev : DeadLetterEvent) :
  json_unmarshal_dle data = inr ev ->
  pol_Name p <> "" ->
  (maxPolicyRunDuration < policySkipRedeliveryDelay)%Z
  /\ (process_one c (Some (policy_filter p)) now clock data
      = ([], SNakDelay policySkipRedeliveryDelay, c_skip)
      \/ PolicyName ev = pol_Name p
         /\ (pol_Generation p <= 0 \/ PolicyVersion ev < pol_Generation p)%Z
         /\ process_one c (Some (policy_filter p)) now clock data = retry_attempt c ev now).
Proof.
  intros Hd Hn. split; [by vm_compute|]. unfold process_one. rewrite Hd. cbn [policy_filter rf_policyName maxPolicyVersion].
  apply String.eqb_neq in Hn. rewrite Hn. cbn [negb andb].
  destruct (String.eqb_spec (PolicyName ev) (pol_Name p)) as [Hname|]; cbn [negb]; [|by left].
  destruct ((0 <? pol_Generation p) && (pol_Generation p <=? PolicyVersion ev))%Z%bool eqn:E; [by left|right].
  split_and!; try done. apply andb_false_iff in E as [E|E]; breflect; lia.
Qed.

Lemma policy_retry_selective_witness :
  ToyRetry.one (Some (policy_filter (ToyPolicies.mk "A"))) 5%Z 5%Z "ev0"
  = ([], SNakDelay policySkipRedeliveryDelay, c_skip).
Proof.
  destruct (@policy_retry_selective ToyLib.toy ToyServices.js ToyServices.dlqjson ToyRetry.lib ToyRetry.ctl
    (ToyPolicies.mk "A") 5%Z 5%Z "ev0" ToyRetry.ev0) as [_ [Hs|[Hn _]]];
    [reflexivity|discriminate|exact Hs|vm_compute in Hn; discriminate Hn].
Defined.

(** C8: the periodic retry respects the back-off: a message that is not
    eligible - no newer policy version, and its next retry not in the past - is
    answered with a delayed redelivery of more than zero and at most one retry
    interval, publishing nothing; an eligible one is attempted.  Back-offs are
    between 0 and the maximum for every retry count, whatever the floating-point
    computation gives. *)
Theorem periodic_retry_backoff `{ActivityLib} `{JetStream} `{DlqJson} `{RetryLib}
    (c : DLQRetryController) (now clock : time) (data : string) (ev : DeadLetterEvent) :
  json_unmarshal_dle data = inr ev ->
  (0 < BackoffBase (config c))%Z -> (0 < Interval (config c))%Z -> (0 <= BackoffMax (config c))%Z ->
  (if isEligibleForRetry c ev now
   then process_one c None now clock data = retry_attempt c ev now
   else exists d, process_one c None now clock data = ([], SNakDelay d, c_skip)
          /\ (0 < d <= Interval (config c))%Z
          /\ exists t, NextRetryAfter ev = Some t /\ (now <= t)%Z)
  /\ forall k, (0 <= calculateBackoff c k <= BackoffMax (config c))%Z
               /\ ((40 < k)%Z -> calculateBackoff c k = BackoffMax (config c)).
Proof.
  intros Hd Hb Hi Hm. split.
  - unfold process_one. rewrite Hd. destruct (isEligibleForRetry c ev now) eqn:E; [done|].
    cbn [negb]. eexists. split; [done|]. split.
    + unfold backoff_delay. destruct (NextRetryAfter ev) as [t|]; zcmp; lia.
    + unfold isEligibleForRetry in E.
      destruct (match policyGeneration c with Some _ => _ | None => _ end); [done|].
      destruct (NextRetryAfter ev) as [t|]; [|done]. exists t. split; [done|].
      unfold After in E. by apply Z.ltb_ge in E.
  - intros k. split; [by apply calculateBackoff_bounds|].
    unfold calculateBackoff. intros Hk. destruct (Z.ltb_spec 40 k); [done|lia].
Qed.

Lemma periodic_retry_backoff_witness :
  exists d, ToyRetry.one None 1001%Z 1001%Z "ev1" = ([], SNakDelay d, c_skip) /\ (0 < d)%Z.
Proof.
  destruct (@periodic_retry_backoff ToyLib.toy ToyServices.js ToyServices.dlqjson ToyRetry.lib ToyRetry.ctl
    1001%Z 1001%Z "ev1" ToyRetry.ev1) as [He _];
    [reflexivity|reflexivity|reflexivity|discriminate|].
  destruct He as (d & Hd & Hpos & _). exists d. split; [exact Hd|apply Hpos].
Defined.

(** A dead letter of the event path never backs off: it is written with no
    retry history, so it is eligible at any time and under any policy version;
    it is not re-evaluated, so as long as the source stream accepts it each
    attempt republishes it and acknowledges, without advancing its retry
    count. *)
Theorem event_dead_letter_no_backoff `{ActivityLib} `{JetStream} `{DlqJson} `{RetryLib}
    (c : DLQRetryController) (t0 now clock : time) (f : failure) (data : string) :
  json_unmarshal_dle data = inr (dlq_event t0 EventTypeK8sEvent f) ->
  (forall s d id, js_PublishExpect (eventStreamName c) s d id = None) ->
  isEligibleForRetry c (dlq_event t0 EventTypeK8sEvent f) now = true
  /\ exists p, process_one c None now clock data = ([p], SAck, c_ok)
       /\ p_subject p = EventRetrySubject (config c) /\ p_data p = f_payload f /\ p_err p = None.
Proof.
  intros Hd Hpub. set (ev := dlq_event t0 EventTypeK8sEvent f) in *.
  assert (isEligibleForRetry c ev now = true) as He.
  { unfold isEligibleForRetry. cbn. by destruct (match policyGeneration c with Some _ => _ | None => _ end). }
  split; [done|]. unfold process_one. rewrite Hd, He. cbn [negb]. unfold retry_attempt.
  destruct (record_version_type c ev) as (Hty & Hpay & _). rewrite Hty.
  unfold republishEvent. rewrite Hty. change (dl_Type ev) with EventTypeK8sEvent. cbv iota beta.
  rewrite Hpub.
  replace (match evaluator c with Some _ | _ => None end) with (@None RetryOutcome)
    by (by destruct (evaluator c)).
  eexists. split; [reflexivity|]. by rewrite Hpay.
Qed.

Lemma event_dead_letter_no_backoff_witness :
  exists p, ToyRetry.one None 101%Z 101%Z "ev0" = ([p], SAck, c_ok).
Proof.
  destruct (@event_dead_letter_no_backoff ToyLib.toy ToyServices.js ToyServices.dlqjson ToyRetry.lib
    ToyRetry.ctl 100%Z 101%Z 101%Z
    (event_failure "event0" "p" 0 ErrorTypeCELSummary (Ext "boom") None) "ev0")
    as [_ (p & Hp & _)]; [reflexivity|reflexivity|]. exists p. exact Hp.
Defined.

(** A drain is bounded by its deadline and accounts for every message:
    the totals it reports are the number of messages settled; every turn it
    takes starts before the deadline with the context alive; and when each turn
    starts at least [delta] after the previous one, a periodic run takes at most
    [1 + min(interval, 2 minutes) / delta] turns. *)
Theorem periodicRetry_bounded `{ActivityLib} `{JetStream} `{DlqJson} `{RetryLib}
    (c : DLQRetryController) (start delta : Z) (turns : list turn)
    (log : list pub) (ss : list settlement) (n : counts) (k : nat) :
  (0 < delta)%Z ->
  (forall i t, turns !! i = Some t -> (start + Z.of_nat i * delta <= t_now t)%Z) ->
  periodicRetry c start turns = (log, ss, n, k) ->
  processed n = length ss /\ (succeeded n + failed n <= processed n)%nat
  /\ (Z.of_nat k <= 1 + Z.max 0 (Z.min (Interval (config c)) maxPeriodicRunDuration) / delta)%Z.
Proof.
  intros Hdelta Hclock Hrun. unfold periodicRetry in Hrun.
  apply drain_spec in Hrun as (Hn & Hle & Hk & Hturns). split_and!; try done.
  set (dur := Z.max 0 (Z.min (Interval (config c)) maxPeriodicRunDuration)).
  assert (0 <= dur / delta)%Z as Hpos by (apply Z.div_pos; lia).
  destruct k as [|k]; [lia|].
  destruct (lookup_lt_is_Some_2 turns k ltac:(lia)) as [t Ht].
  destruct (Hturns k t ltac:(lia) Ht) as [Hlate _]. specialize (Hclock k t Ht).
  unfold GoLib.Add in Hlate.
  assert (delta * Z.of_nat k <= dur)%Z as Hb
    by (unfold dur; destruct (Z.ltb_spec (Interval (config c)) maxPeriodicRunDuration); lia).
  apply Z.div_le_lower_bound in Hb; lia.
Qed.

Lemma periodicRetry_bounded_witness :
  exists n k, @periodicRetry ToyLib.toy ToyServices.js ToyServices.dlqjson ToyRetry.lib ToyRetry.ctl 0%Z
      [{| t_cancelled := false; t_now := 5%Z; t_fetched := inr ["ev0"] |}] = (n, k)
    /\ (Z.of_nat k <= 1 + maxPeriodicRunDuration / 1)%Z.
Proof.
  destruct (@periodicRetry ToyLib.toy ToyServices.js ToyServices.dlqjson ToyRetry.lib ToyRetry.ctl 0%Z
      [{| t_cancelled := false; t_now := 5%Z; t_fetched := inr ["ev0"] |}]) as [[[log ss] n] k] eqn:E.
  exists (log, ss, n), k. split; [reflexivity|].
  apply (@periodicRetry_bounded ToyLib.toy ToyServices.js ToyServices.dlqjson ToyRetry.lib ToyRetry.ctl
    0%Z 1%Z _ log ss n k eq_refl) in E.
  - apply E.
  - intros [|i] t Ht; cbn in Ht; [injection Ht as <-; vm_compute; discriminate|discriminate Ht].
Defined.
