(* ===== verification/CelFilter.v ===== *)
(** * internal/cel: query filters

    Models [internal/cel/cel.go] (validation of a filter's field accesses and
    its conversion to a ClickHouse condition), [internal/cel/filter.go] and
    [internal/cel/activity_filter.go] (the fields of audit logs and of
    activities, compilation, and evaluation of activity filters on watched
    objects) and [internal/cel/errors.go] (error texts).  The expression
    trees are those of the checked AST; cel-go itself is the class
    [CelEngine] of [CelPolicy.v] with the [Expr] accessor of [FilterLib]. *)

From Stdlib Require Import Ascii String.
From stdpp Require Import base numbers list strings gmap pretty.
From Stdlib Require Import ZArith Lia.
From S2P Require Import Prelude GoLib Types CelPolicy Activity.

(* ------------------------------------------------------------------ *)
(** ** Expression trees (google.api.expr.v1alpha1.Expr) *)

(** [Constant]: the kinds the converter tells apart; [COther] is any other
    kind (null, bytes, duration, timestamp).  A double is kept as its bits. *)
Inductive Constant :=
| CString (s : string) | CInt64 (z : Z) | CUint64 (z : Z) | CDouble (bits : Z)
| CBool (b : bool) | COther.

(** [None] is a nil pointer.  [test_only] marks the select of a [has()] macro. *)
Inductive Expr :=
| SelectExpr (operand : option Expr) (field : string) (test_only : bool)
| CallExpr (target : option Expr) (function : string) (args : list Expr)
| IdentExpr (name : string)
| ConstExpr (c : Constant)
| ListExpr (elements : list Expr)
| StructExpr (entry_values : list (option Expr))
| ComprehensionExpr (iter_range accu_init loop_condition loop_step result : option Expr)
| NoExpr.

Definition GetIdentExpr (e : option Expr) : option string :=
  match e with Some (IdentExpr n) => Some n | _ => None end.
Definition GetSelectExpr (e : option Expr) : option (option Expr * string) :=
  match e with Some (SelectExpr o f _) => Some (o, f) | _ => None end.

(** [for _, x := range l { if err := f(x); err != nil { return err } }] *)
Definition for_each {A} (f : A -> res unit) : list A -> res unit :=
  fix go l := match l with
              | [] => Ok tt
              | a :: l' => let? _ := f a in go l'
              end.

Definition on_some {A} (f : A -> res unit) (o : option A) : res unit :=
  match o with Some a => f a | None => Ok tt end.

(** ** cel.go: interfaces *)

(** [FieldValidator.ValidateSelectExpr], given the operand and the field. *)
Definition FieldValidator := option Expr -> string -> res unit.

(** [FieldMapper], with the method of [ArrayFieldMapper] when it is
    implemented. *)
Record FieldMapper := {
  MapSelectExpr : option Expr -> string -> res string;
  MapIdentExpr : string -> res string;
  MapArraySelectExpr : option (option Expr -> string -> option string) }.

Fixpoint ValidateFieldAccess (validator : FieldValidator) (e : Expr) {struct e} : res unit :=
  match e with
  | SelectExpr operand field _ =>
      let? _ := validator operand field in
      on_some (ValidateFieldAccess validator) operand
  | CallExpr target _ args =>
      let? _ := on_some (ValidateFieldAccess validator) target in
      for_each (ValidateFieldAccess validator) args
  | ListExpr elements => for_each (ValidateFieldAccess validator) elements
  | StructExpr entries => for_each (on_some (ValidateFieldAccess validator)) entries
  | ComprehensionExpr r a c s x =>
      let? _ := on_some (ValidateFieldAccess validator) r in
      let? _ := on_some (ValidateFieldAccess validator) a in
      let? _ := on_some (ValidateFieldAccess validator) c in
      let? _ := on_some (ValidateFieldAccess validator) s in
      on_some (ValidateFieldAccess validator) x
  | IdentExpr _ | ConstExpr _ | NoExpr => Ok tt
  end.

(** ** cel.go: conversion to SQL *)

(** The Go values passed as query arguments. *)
Inductive sqlArg :=
| GoString (s : string) | GoInt64 (z : Z) | GoUint64 (z : Z) | GoFloat64 (bits : Z) | GoTime (t : time).

(** The mutable fields of [BaseSQLConverter].  [argIndex] counts the arguments:
    it stays far below the range of [int]. *)
Record BaseSQLConverter := { c_args : list sqlArg; argIndex : Z; paramName : gmap Z string }.

Definition NewBaseSQLConverter : BaseSQLConverter :=
  {| c_args := []; argIndex := 1; paramName := ∅ |}.

Definition addArg (c : BaseSQLConverter) (value : sqlArg) : BaseSQLConverter * string :=
  let name := "arg" +:+ pretty (argIndex c) in
  ({| c_args := c_args c ++ [value]; argIndex := (argIndex c + 1)%Z;
      paramName := <[argIndex c := name]> (paramName c) |},
   "{" +:+ name +:+ "}").

(** A conversion step: it reads and updates the converter. *)
Definition conv := BaseSQLConverter -> res (BaseSQLConverter * string).

Definition pure (s : res string) : conv := fun c => let? t := s in Ok (c, t).

(** [call.Args[i]] of an argument list, converted. *)
Definition nth_arg (convs : list conv) (i : nat) : conv := fun c =>
  match convs !! i with
  | Some f => f c
  | None => Panic "index out of range"
  end.

(** Two conversions in order, joined in a text. *)
Definition conv2 (f g : conv) (text : string -> string -> string) : conv := fun c =>
  let? (c1, l) := f c in
  let? (c2, r) := g c1 in
  Ok (c2, text l r).

Definition convertBinaryOp (convs : list conv) (op : string) : conv :=
  conv2 (nth_arg convs 0) (nth_arg convs 1) (fun l r => l +:+ " " +:+ op +:+ " " +:+ r).

Definition arrayColumn (mapper : FieldMapper) (e : option Expr) : option string :=
  match GetSelectExpr e, MapArraySelectExpr mapper with
  | Some (operand, field), Some f => f operand field
  | _, _ => None
  end.

Definition constant_type (c : Constant) : string :=
  match c with
  | CString _ => "*expr.Constant_StringValue" | CInt64 _ => "*expr.Constant_Int64Value"
  | CUint64 _ => "*expr.Constant_Uint64Value" | CDouble _ => "*expr.Constant_DoubleValue"
  | CBool _ => "*expr.Constant_BoolValue" | COther => "*expr.Constant"
  end.

Definition convertConstExpr (constant : Constant) : conv := fun c =>
  match constant with
  | CString s => Ok (addArg c (GoString s))
  | CInt64 z => Ok (addArg c (GoInt64 z))
  | CUint64 z => Ok (addArg c (GoUint64 z))
  | CDouble d => Ok (addArg c (GoFloat64 d))
  | CBool b => Ok (c, if b then "1" else "0")
  | COther => Err (Errorf [PStr "unsupported constant type: "; PStr (constant_type constant)])
  end.

Definition unsupported_function (fn : string) : conv := fun _ =>
  Err (Errorf [PStr "unsupported CEL function: "; PStr fn]).

(** A method of a string: the target, then the first argument. *)
Definition convertMethod (target : option conv) (convs : list conv) (fn : string)
    (text : string -> string -> string) : conv :=
  match target with
  | Some t => conv2 t (nth_arg convs 0) text
  | None => unsupported_function fn
  end.

(** [convertCallExpr]: [target] and [convs] convert the target and the
    arguments [args]. *)
Definition convertCallExpr (mapper : FieldMapper) (target : option conv) (convs : list conv)
    (fn : string) (args : list Expr) : conv :=
  if (fn =? "!_")%string then fun c =>
    let? (c1, arg) := nth_arg convs 0 c in Ok (c1, "NOT (" +:+ arg +:+ ")")
  else if (fn =? "_==_")%string then convertBinaryOp convs "="
  else if (fn =? "_!=_")%string then convertBinaryOp convs "!="
  else if (fn =? "_&&_")%string then
    conv2 (nth_arg convs 0) (nth_arg convs 1) (fun l r => "(" +:+ l +:+ " AND " +:+ r +:+ ")")
  else if (fn =? "_||_")%string then
    conv2 (nth_arg convs 0) (nth_arg convs 1) (fun l r => "(" +:+ l +:+ " OR " +:+ r +:+ ")")
  else if (fn =? "_>=_")%string then convertBinaryOp convs ">="
  else if (fn =? "_<=_")%string then convertBinaryOp convs "<="
  else if (fn =? "_>_")%string then convertBinaryOp convs ">"
  else if (fn =? "_<_")%string then convertBinaryOp convs "<"
  else if (fn =? "@in")%string then fun c =>
    let? (c1, l) := nth_arg convs 0 c in
    match args !! 1%nat with
    | None => Panic "index out of range"
    | Some a1 =>
        match arrayColumn mapper (Some a1) with
        | Some column => Ok (c1, "has(" +:+ column +:+ ", " +:+ l +:+ ")")
        | None =>
            let? (c2, r) := nth_arg convs 1 c1 in
            Ok (c2, l +:+ " IN " +:+ r)
        end
    end
  else if (fn =? "startsWith")%string then
    convertMethod target convs fn (fun t p => "startsWith(" +:+ t +:+ ", " +:+ p +:+ ")")
  else if (fn =? "endsWith")%string then
    convertMethod target convs fn (fun t p => "endsWith(" +:+ t +:+ ", " +:+ p +:+ ")")
  else if (fn =? "contains")%string then
    convertMethod target convs fn (fun t p => "position(" +:+ t +:+ ", " +:+ p +:+ ") > 0")
  else if (fn =? "timestamp")%string then
    match args with
    | [ConstExpr (CString strVal)] =>
        if (strVal =? "")%string then unsupported_function fn
        else fun c =>
          match Parse_RFC3339 strVal with
          | None => Err (Errorf [PStr "invalid timestamp format: "; PWrap (Ext strVal)])
          | Some t => Ok (addArg c (GoTime t))
          end
    | _ => unsupported_function fn
    end
  else unsupported_function fn.

(** The elements of a list in order, and their texts. *)
Fixpoint conv_list (fs : list conv) : BaseSQLConverter -> res (BaseSQLConverter * list string) :=
  fun c =>
    match fs with
    | [] => Ok (c, [])
    | f :: fs' =>
        let? (c1, s) := f c in
        let? (c2, ss) := conv_list fs' c1 in
        Ok (c2, s :: ss)
    end.

Definition convertListExpr (fs : list conv) : conv := fun c =>
  let? (c1, elements) := conv_list fs c in
  Ok (c1, "[" +:+ String.concat ", " elements +:+ "]").

Definition unsupported_expression (ty : string) : conv := fun _ =>
  Err (Errorf [PStr "unsupported expression type: "; PStr ty]).

Fixpoint ConvertExpr (mapper : FieldMapper) (e : Expr) {struct e} : conv :=
  match e with
  | CallExpr target fn args =>
      convertCallExpr mapper
        (match target with Some t => Some (ConvertExpr mapper t) | None => None end)
        (List.map (ConvertExpr mapper) args) fn args
  | IdentExpr name => pure (MapIdentExpr mapper name)
  | ConstExpr c => convertConstExpr c
  | SelectExpr operand field _ => pure (MapSelectExpr mapper operand field)
  | ListExpr elements => convertListExpr (List.map (ConvertExpr mapper) elements)
  | StructExpr _ => unsupported_expression "*expr.Expr_StructExpr"
  | ComprehensionExpr _ _ _ _ _ => unsupported_expression "*expr.Expr_ComprehensionExpr"
  | NoExpr => unsupported_expression "<nil>"
  end.

(* ------------------------------------------------------------------ *)
(** ** errors.go *)

(** RE2's [\s]. *)
Definition re_space (a : ascii) : bool :=
  let n := nat_of_ascii a in
  (Nat.eqb n 9 || Nat.eqb n 10 || Nat.eqb n 12 || Nat.eqb n 13 || Nat.eqb n 32)%bool.
Definition newline : ascii := ascii_of_nat 10.

(** [\s+(.+)] at the head: a blank, then later in the run of blanks or right
    after it a byte other than a newline. *)
Fixpoint blanks_then_text (s : string) : bool :=
  match s with
  | String a (String b _ as s') =>
      re_space a && (negb (Ascii.eqb b newline) || blanks_then_text s')
  | _ => false
  end.

Fixpoint drop_spaces (s : string) : string :=
  match s with
  | String a s' => if re_space a then drop_spaces s' else s
  | EmptyString => EmptyString
  end.

(** [celErrorRegex] at the head of a text: the two groups of digits. *)
Definition cel_error_at (s : string) : option (string * string) :=
  if HasPrefix s "ERROR:" then
    let s1 := drop_str 6 s in
    let s2 := drop_spaces s1 in
    if (s1 =? s2)%string then None
    else if HasPrefix s2 "<input>:" then
      let (l, s3) := span_digits (drop_str 8 s2) in
      if (l =? "")%string then None
      else if HasPrefix s3 ":" then
        let (c, s4) := span_digits (drop_str 1 s3) in
        if (c =? "")%string then None
        else if HasPrefix s4 ":" then
          if blanks_then_text (drop_str 1 s4) then Some (l, c) else None
        else None
      else None
    else None
  else None.

(** [FindStringSubmatch]: the leftmost match. *)
Fixpoint find_cel_error (s : string) : option (string * string) :=
  match cel_error_at s with
  | Some m => Some m
  | None => match s with String _ s' => find_cel_error s' | EmptyString => None end
  end.

(** [strconv.Atoi] of digits, 0 when it is out of range. *)
Definition Atoi_or_0 (d : string) : Z :=
  let v := dec_val 0 d in if (v <=? int64_max)%Z then v else 0%Z.

Definition extractErrorPosition (err : error) : Z * Z :=
  match find_cel_error (error_text err) with
  | Some (l, c) => (Atoi_or_0 l, Atoi_or_0 c)
  | None => (0, 0)%Z
  end.

Definition simplifyErrorMessage (celError : string) : string :=
  let msg := ReplaceAll celError "ERROR: <input>:" "" in
  let msg := match Index msg ": " with
             | Some idx => if Nat.ltb idx 10 then drop_str (idx + 2) msg else msg
             | None => msg
             end in
  let msg := match Index msg (String newline "") with
             | Some idx => take_str idx msg
             | None => msg
             end in
  TrimSpace msg.

Definition audit_filter_help : string :=
  ". Available fields: auditID, verb, requestReceivedTimestamp, objectRef.namespace, objectRef.resource, objectRef.name, user.username, user.groups, responseStatus.code. See https://cel.dev for CEL syntax".

Definition formatFilterError (err : error) : string :=
  let (line, column) := extractErrorPosition err in
  let errMsg := simplifyErrorMessage (error_text err) in
  (if (0 <? column)%Z
   then "Invalid filter at line " +:+ pretty line +:+ ", column " +:+ pretty column +:+ ": " +:+ errMsg
   else "Invalid filter: " +:+ errMsg) +:+ audit_filter_help.

Definition quoted (s : string) : string :=
  String (ascii_of_nat 34) (s +:+ String (ascii_of_nat 34) "").

(** The help text of [formatActivityFilterError]. *)
Definition activity_filter_help : string :=
"

Available fields for activity filtering:
  - spec.changeSource - " +:+ quoted "human" +:+ " or " +:+ quoted "system" +:+ "
  - spec.actor.name, spec.actor.type, spec.actor.uid
  - spec.resource.apiGroup, spec.resource.kind, spec.resource.name
  - spec.resource.namespace, spec.resource.uid
  - spec.summary, spec.origin.type
  - spec.source.planeType, spec.source.cluster, spec.source.region, spec.source.city
  - spec.relatedUIDs (list; use " +:+ quoted "<uid>" +:+ " in spec.relatedUIDs)
  - metadata.namespace, metadata.name

Example: spec.changeSource == " +:+ quoted "human" +:+ " && spec.resource.kind == " +:+ quoted "Deployment".

Definition formatActivityFilterError (err : error) : string :=
  let errMsg := error_text err in
  if Contains errMsg "undeclared reference" then errMsg +:+ activity_filter_help else errMsg.

(* ------------------------------------------------------------------ *)
(** ** filter.go: audit logs *)

(** A two-level table of allowed fields ([map[string]map[string]bool]). *)
Definition field_table := list (string * list string).

Fixpoint table_get (t : field_table) (k : string) : option (list string) :=
  match t with
  | [] => None
  | (k', fs) :: t' => if (k =? k')%string then Some fs else table_get t' k
  end.

Definition not_available (parts : list string) : error :=
  Errorf [PStr "field '"; PStr (String.concat "." parts); PStr "' is not available for filtering"].

Definition validFields : field_table := [
  ("objectRef", ["apiGroup"; "namespace"; "resource"; "name"]);
  ("user", ["username"; "uid"]);
  ("responseStatus", ["code"])].

(** The error lists the available fields in the order of the table (Go's map
    order is unspecified). *)
Definition AuditLogFieldValidator : FieldValidator := fun operand field =>
  match GetIdentExpr operand with
  | Some baseObject =>
      match table_get validFields baseObject with
      | Some allowed =>
          if bool_decide (field ∈ allowed) then Ok tt
          else Err (Errorf [PStr "field '"; PStr (baseObject +:+ "." +:+ field);
                            PStr "' is not available for filtering. Available fields for ";
                            PStr baseObject; PStr ": [";
                            PStr (String.concat " " (map (fun f => baseObject +:+ "." +:+ f) allowed));
                            PStr "]"])
      | None => Ok tt
      end
  | None => Ok tt
  end.

Definition audit_MapIdentExpr (name : string) : res string :=
  if (name =? "auditID")%string then Ok "audit_id"
  else if (name =? "verb")%string then Ok "verb"
  else if (name =? "requestReceivedTimestamp")%string then Ok "timestamp"
  else if bool_decide (name ∈ ["objectRef"; "user"; "responseStatus"]) then
    Err (Errorf [PStr "field '"; PStr name; PStr "' must be accessed with dot notation (e.g., objectRef.namespace, user.username, responseStatus.code)"])
  else Err (not_available [name]).

Definition audit_MapSelectExpr (operand : option Expr) (field : string) : res string :=
  match operand with
  | None => Err (Errorf [PStr "select expression missing operand"])
  | Some _ =>
      match GetIdentExpr operand with
      | None => Err (Errorf [PStr "select expression operand must be an identifier"])
      | Some baseObject =>
          let sel b f := ((baseObject =? b)%string && (field =? f)%string)%bool in
          if sel "objectRef" "namespace" then Ok "namespace"
          else if sel "objectRef" "resource" then Ok "resource"
          else if sel "objectRef" "name" then Ok "resource_name"
          else if sel "objectRef" "apiGroup" then Ok "api_group"
          else if sel "user" "username" then Ok "user"
          else if sel "user" "uid" then Ok "user_uid"
          else if sel "responseStatus" "code" then Ok "status_code"
          else Err (not_available [baseObject; field])
      end
  end.

Definition AuditLogFieldMapper : FieldMapper := {|
  MapSelectExpr := audit_MapSelectExpr;
  MapIdentExpr := audit_MapIdentExpr;
  MapArraySelectExpr := None |}.

(** The variables of [Environment]. *)
Definition audit_filter_decls : list cel_decl :=
  let m := MapType StringType DynType in
  [Variable_ "auditID" StringType; Variable_ "verb" StringType;
   Variable_ "requestReceivedTimestamp" TimestampType;
   Variable_ "objectRef" m; Variable_ "user" m; Variable_ "responseStatus" m].

(* ------------------------------------------------------------------ *)
(** ** activity_filter.go: activities *)

Definition activityValidFields : field_table := [
  ("spec", ["changeSource"; "summary"; "relatedUIDs"; "actor"; "resource"; "origin"; "source"]);
  ("spec.actor", ["name"; "type"; "uid"]);
  ("spec.resource", ["apiGroup"; "kind"; "name"; "namespace"; "uid"]);
  ("spec.origin", ["type"]);
  ("spec.source", ["planeType"; "cluster"; "region"; "city"]);
  ("metadata", ["namespace"; "name"])].

Definition ActivityFieldValidator : FieldValidator := fun operand field =>
  let check path :=
    match table_get activityValidFields path with
    | Some allowed =>
        if bool_decide (field ∈ allowed) then Ok tt else Err (not_available [path; field])
    | None => Ok tt
    end in
  match GetSelectExpr operand with
  | Some (nested_operand, parentField) =>
      match GetIdentExpr nested_operand with
      | Some baseName => check (baseName +:+ "." +:+ parentField)
      | None => Ok tt
      end
  | None =>
      match GetIdentExpr operand with
      | Some baseObject => check baseObject
      | None => Ok tt
      end
  end.

Definition activity_MapIdentExpr (name : string) : res string :=
  if bool_decide (name ∈ ["spec"; "metadata"]) then
    Err (Errorf [PStr "field '"; PStr name; PStr "' must be accessed with dot notation (e.g., spec.changeSource, metadata.namespace)"])
  else Err (not_available [name]).

Definition mapNestedField (baseName parentField field : string) : res string :=
  let sel p f := ((baseName =? "spec") && (parentField =? p) && (field =? f))%string%bool in
  if sel "actor" "name" then Ok "actor_name"
  else if sel "actor" "type" then Ok "actor_type"
  else if sel "actor" "uid" then Ok "actor_uid"
  else if sel "resource" "apiGroup" then Ok "api_group"
  else if sel "resource" "kind" then Ok "resource_kind"
  else if sel "resource" "name" then Ok "resource_name"
  else if sel "resource" "namespace" then Ok "resource_namespace"
  else if sel "resource" "uid" then Ok "resource_uid"
  else if sel "origin" "type" then Ok "origin_type"
  else if sel "source" "planeType" then Ok "source_plane_type"
  else if sel "source" "cluster" then Ok "source_cluster"
  else if sel "source" "region" then Ok "source_region"
  else if sel "source" "city" then Ok "source_city"
  else Err (not_available [baseName; parentField; field]).

Definition mapDirectField (baseName field : string) : res string :=
  let sel b f := ((baseName =? b) && (field =? f))%string%bool in
  if sel "spec" "changeSource" then Ok "change_source"
  else if sel "spec" "summary" then Ok "summary"
  else if sel "metadata" "namespace" then Ok "activity_namespace"
  else if sel "metadata" "name" then Ok "activity_name"
  else if sel "spec" "relatedUIDs" then
    Err (Errorf [PStr "field 'spec.relatedUIDs' is a list and only supports 'in', e.g. 'abc-123' in spec.relatedUIDs"])
  else Err (not_available [baseName; field]).

Definition activity_MapSelectExpr (operand : option Expr) (field : string) : res string :=
  let direct :=
    match GetIdentExpr operand with
    | Some baseName => mapDirectField baseName field
    | None => Err (Errorf [PStr "unsupported select expression structure"])
    end in
  match operand with
  | None => Err (Errorf [PStr "select expression missing operand"])
  | Some _ =>
      match GetSelectExpr operand with
      | Some (nested_operand, parentField) =>
          match GetIdentExpr nested_operand with
          | Some baseName => mapNestedField baseName parentField field
          | None => direct
          end
      | None => direct
      end
  end.

Definition activity_MapArraySelectExpr (operand : option Expr) (field : string) : option string :=
  match GetIdentExpr operand with
  | Some name => if ((name =? "spec") && (field =? "relatedUIDs"))%string%bool
                 then Some "related_uids" else None
  | None => None
  end.

Definition ActivityFieldMapper : FieldMapper := {|
  MapSelectExpr := activity_MapSelectExpr;
  MapIdentExpr := activity_MapIdentExpr;
  MapArraySelectExpr := Some activity_MapArraySelectExpr |}.

Definition activity_filter_decls : list cel_decl :=
  let m := MapType StringType DynType in [Variable_ "spec" m; Variable_ "metadata" m].

(** The closure [add] of [RelatedUIDs]. *)
Definition add_uid (st : list string * gset string) (uid : string) : list string * gset string :=
  let (uids, seen) := st in
  if (negb (uid =? "")%string && negb (bool_decide (uid ∈ seen)))%bool
  then (uids ++ [uid], {[uid]} ∪ seen) else st.

Definition RelatedUIDs (activity : Activity) : list string :=
  let st := add_uid ([], ∅) (res_UID (Resource_ (Spec activity))) in
  let st := fold_left (fun st r => add_uid st (res_UID r)) (Related (Spec activity)) st in
  fst (fold_left (fun st l => add_uid st (res_UID (link_Resource l))) (Links (Spec activity)) st).

(** A map literal of strings. *)
Definition str_map (kvs : list (string * string)) : any :=
  AMap (list_to_map (map (fun '(k, v) => (k, AStr v)) kvs)).

Definition ActivityToMap (activity : Activity) : gomap :=
  let spec := Spec activity in
  let source := default empty_source (Source spec) in
  list_to_map [
    ("spec", AMap (list_to_map [
      ("changeSource", AStr (ChangeSource spec));
      ("summary", AStr (Summary spec));
      ("relatedUIDs", AList (map AStr (RelatedUIDs activity)));
      ("source", str_map [("planeType", PlaneType source); ("cluster", Cluster source);
                          ("region", Region source); ("city", City source)]);
      ("actor", str_map [("name", act_Name (Actor spec)); ("type", act_Type (Actor spec));
                         ("uid", act_UID (Actor spec))]);
      ("resource", str_map [("apiGroup", APIGroup (Resource_ spec)); ("kind", Kind (Resource_ spec));
                            ("name", res_Name (Resource_ spec));
                            ("namespace", res_Namespace (Resource_ spec));
                            ("uid", res_UID (Resource_ spec))]);
      ("origin", str_map [("type", org_Type (Origin spec))])]));
    ("metadata", str_map [("namespace", Namespace activity); ("name", Name activity)])].

(* ------------------------------------------------------------------ *)
(** ** Compilation and conversion *)

(** cel-go: the tree of a checked AST, and the text of a type. *)
Class FilterLib `{CelEngine} := {
  cel_Expr : cel_ast -> Expr;
  cel_type_text : cel_type -> string }.

Section Filters.
Context `{FilterLib}.

Definition env_unavailable : error :=
  Errorf [PStr "unable to process filter expression. Try again or contact support if the problem persists"].

(** The body shared by [CompileFilter], [CompileActivityFilter] and
    [CompileActivityFilterProgram]: environment, compilation, output type and
    field check, with the error formatter of the domain. *)
Definition compile_checked (decls : list cel_decl) (format : error -> string)
    (validator : FieldValidator) (filterExpr : string) : res cel_ast :=
  if (filterExpr =? "")%string then Err (Errorf [PStr "filter expression cannot be empty"])
  else
    let? _ := wrap_err (of_sum (cel_NewEnv decls)) (fun _ => env_unavailable) in
    let fmt e := Errorf [PStr (format e)] in
    let? ast := wrap_err (of_sum (cel_Compile decls filterExpr)) fmt in
    if bool_decide (cel_OutputType ast = BoolType) then
      let? _ := wrap_err (ValidateFieldAccess validator (cel_Expr ast)) fmt in
      Ok ast
    else Err (fmt (Errorf [PStr "filter expression must return a boolean, got ";
                           PStr (cel_type_text (cel_OutputType ast))])).

Definition CompileFilter : string -> res cel_ast :=
  compile_checked audit_filter_decls formatFilterError AuditLogFieldValidator.

Definition CompileActivityFilter : string -> res cel_ast :=
  compile_checked activity_filter_decls formatActivityFilterError ActivityFieldValidator.

Definition convert_with (compile : string -> res cel_ast) (mapper : FieldMapper)
    (filterExpr : string) : res (string * list sqlArg) :=
  if (filterExpr =? "")%string then Ok ("", [])
  else
    let? ast := compile filterExpr in
    let? (c, sql) := ConvertExpr mapper (cel_Expr ast) NewBaseSQLConverter in
    Ok (sql, c_args c).

Definition ConvertToClickHouseSQL : string -> res (string * list sqlArg) :=
  convert_with CompileFilter AuditLogFieldMapper.

Definition ConvertActivityToClickHouseSQL : string -> res (string * list sqlArg) :=
  convert_with CompileActivityFilter ActivityFieldMapper.

(** [CompiledActivityFilter]: the program, or the nil filter. *)
Definition CompiledActivityFilter := option cel_program.

Definition CompileActivityFilterProgram (filterExpr : string) : res CompiledActivityFilter :=
  let? ast := CompileActivityFilter filterExpr in
  let? program := wrap_err (of_sum (cel_Program activity_filter_decls ast)) (fun _ => env_unavailable) in
  Ok (Some program).

Definition EvaluateActivity (f : CompiledActivityFilter) (activity : Activity) : res bool :=
  match f with
  | None => Ok true
  | Some program =>
      match snd (cel_Eval program (ActivityToMap activity)) with
      | inl _ => Err (Errorf [PStr "unable to evaluate filter expression. Verify the filter syntax is correct"])
      | inr (ABool b) => Ok b
      | inr _ => Err (Errorf [PStr "filter expression must return a boolean result. Verify your filter uses comparison operators"])
      end
  end.
End Filters.

(* ------------------------------------------------------------------ *)
(** ** The converted text *)

(** The fixed texts of the converter: opening and closing ones, and others. *)
Definition sql_opening : list string :=
  ["NOT ("; "("; "has("; "startsWith("; "endsWith("; "position("; "["].
Definition sql_closing : list string := [")"; ") > 0"; "]"].
Definition sql_plain : list string :=
  [" AND "; " = "; " != "; " >= "; " <= "; " > "; " < "; " IN "; ", "; "1"; "0"].
Definition sql_vocabulary : list string := sql_opening ++ sql_closing ++ sql_plain ++ [" OR "].

Inductive piece := PText (s : string) | PColumn (c : string) | PArg (n : nat).
Definition piece_text (p : piece) : string :=
  match p with
  | PText s => s
  | PColumn c => c
  | PArg n => "{arg" +:+ pretty (Z.of_nat n) +:+ "}"
  end.
Definition piece_ok (cols : list string) (p : piece) : Prop :=
  match p with PText s => s ∈ sql_vocabulary | PColumn c => c ∈ cols | PArg _ => True end.
Definition piece_arg (p : piece) : option nat := match p with PArg n => Some n | _ => None end.

(** Nesting depth after some pieces: closing more than was opened, or an [OR]
    outside any parenthesis, is refused. *)
Definition scan1 (d : nat) (p : piece) : option nat :=
  match p with
  | PText s =>
      if bool_decide (s ∈ sql_opening) then Some (S d)
      else if bool_decide (s ∈ sql_closing) then match d with O => None | S d' => Some d' end
      else if (s =? " OR ")%string then match d with O => None | S _ => Some d end
      else Some d
  | _ => Some d
  end.
Fixpoint scan (d : nat) (ps : list piece) : option nat :=
  match ps with
  | [] => Some d
  | p :: ps' => d' ← scan1 d p; scan d' ps'
  end.

(** How many arguments of a call are converted, and whether its target is. *)
Definition call_arity (fn : string) : nat :=
  if bool_decide (fn ∈ ["!_"; "startsWith"; "endsWith"; "contains"]) then 1 else 2.
Definition is_method (fn : string) : bool := bool_decide (fn ∈ ["startsWith"; "endsWith"; "contains"]).

(** The literals of an expression, left to right. *)
Fixpoint literals (e : Expr) : list sqlArg :=
  match e with
  | ConstExpr (CString s) => [GoString s]
  | ConstExpr (CInt64 z) => [GoInt64 z]
  | ConstExpr (CUint64 z) => [GoUint64 z]
  | ConstExpr (CDouble d) => [GoFloat64 d]
  | CallExpr target fn args =>
      if (fn =? "timestamp")%string then
        match args with
        | [ConstExpr (CString s)] => match Parse_RFC3339 s with Some t => [GoTime t] | None => [] end
        | _ => []
        end
      else
        (if is_method fn then match target with Some t => literals t | None => [] end else [])
        ++ List.concat (take (call_arity fn) (List.map literals args))
  | ListExpr es => List.concat (List.map literals es)
  | _ => []
  end.

(** A condition and its arguments are parameterised: the text is made of fixed
    words, columns and placeholders; placeholders are numbered in order from 1
    and stand for the arguments; parentheses match and enclose every [OR]. *)
Definition parameterised (cols : list string) (sql : string) (args : list sqlArg) : Prop :=
  exists ps, sql = String.concat "" (map piece_text ps) /\ Forall (piece_ok cols) ps
    /\ omap piece_arg ps = seq 1 (length args) /\ scan 0 ps = Some O.

Definition audit_columns : list string :=
  ["audit_id"; "verb"; "timestamp"; "namespace"; "resource"; "resource_name"; "api_group";
   "user"; "user_uid"; "status_code"].
Definition activity_columns : list string :=
  ["actor_name"; "actor_type"; "actor_uid"; "api_group"; "resource_kind"; "resource_name";
   "resource_namespace"; "resource_uid"; "origin_type"; "source_plane_type"; "source_cluster";
   "source_region"; "source_city"; "change_source"; "summary"; "activity_namespace";
   "activity_name"; "related_uids"].

(** What the converter relies on: a mapper only names columns of its table. *)
Class MapperColumns (m : FieldMapper) (cols : list string) := {
  select_column o f c : MapSelectExpr m o f = Ok c -> c ∈ cols;
  ident_column n c : MapIdentExpr m n = Ok c -> c ∈ cols;
  array_column g o f c : MapArraySelectExpr m = Some g -> g o f = Some c -> c ∈ cols }.

(* ------------------------------------------------------------------ *)
(** ** Lemmas *)

(** Induction on the subexpressions the converter visits. *)
Section ExprInd.
Variable P : Expr -> Prop.
Hypothesis Hcall : forall target fn args,
  (forall t, target = Some t -> P t) -> Forall P args -> P (CallExpr target fn args).
Hypothesis Hlist : forall es, Forall P es -> P (ListExpr es).
Hypothesis Hother : forall e,
  match e with CallExpr _ _ _ | ListExpr _ => False | _ => True end -> P e.

Fixpoint Expr_visit (e : Expr) : P e :=
  let all := fix all (l : list Expr) : Forall P l :=
    match l with
    | [] => List.Forall_nil P
    | a :: l' => List.Forall_cons P a l' (Expr_visit a) (all l')
    end in
  match e with
  | CallExpr target fn args =>
      Hcall target fn args
        match target return forall t, target = Some t -> P t with
        | Some t0 => fun t Ht => match Ht in _ = o return match o with Some t1 => P t1 | None => True end
                                 with eq_refl => Expr_visit t0 end
        | None => fun t Ht => match Ht in _ = o return match o with Some t1 => P t1 | None => True end
                              with eq_refl => I end
        end (all args)
  | ListExpr es => Hlist es (all es)
  | SelectExpr o f b => Hother (SelectExpr o f b) I
  | IdentExpr n => Hother (IdentExpr n) I
  | ConstExpr c => Hother (ConstExpr c) I
  | StructExpr vs => Hother (StructExpr vs) I
  | ComprehensionExpr r a c s x => Hother (ComprehensionExpr r a c s x) I
  | NoExpr => Hother NoExpr I
  end.
End ExprInd.

Section Emits.
Context (cols : list string).

(** The converter has numbered its arguments. *)
Definition numbered (c : BaseSQLConverter) : Prop := argIndex c = Z.of_nat (S (length (c_args c))).

(** Text [s] is made of acceptable pieces, with placeholders [i .. i+n-1], and
    is balanced at depths from [lo] on. *)
Definition emits_text (lo : nat) (s : string) (i n : nat) : Prop :=
  exists ps, s = String.concat "" (map piece_text ps) /\ Forall (piece_ok cols) ps
    /\ omap piece_arg ps = seq i n /\ forall d, (lo <= d)%nat -> scan d ps = Some d.

(** A conversion step appends the literals [lits] and writes their
    placeholders in order. *)
Definition emits (f : conv) (lits : list sqlArg) : Prop :=
  forall c c' s, numbered c -> f c = Ok (c', s) ->
    numbered c' /\ c_args c' = c_args c ++ lits
    /\ emits_text 0 s (S (length (c_args c))) (length lits).

Lemma emits_text_weaken (s : string) (i n : nat) : emits_text 0 s i n -> emits_text 1 s i n.
Proof. intros (ps & ? & ? & ? & Hs). exists ps. split_and!; [done..|]. intros d _. apply Hs. lia. Qed.

Lemma emits_text_empty (i : nat) : emits_text 0 "" i 0.
Proof. exists []. by repeat constructor. Qed.

Lemma emits_text_vocab (s : string) (i : nat) : s ∈ sql_plain -> emits_text 0 s i 0.
Proof.
  intros Hs. exists [PText s]. split_and!; [by cbn; rewrite ?append_nil_r| |done|].
  - constructor; [|done]. cbn [piece_ok]. unfold sql_vocabulary. set_solver.
  - intros d _. cbn [scan scan1]. unfold sql_plain in Hs. rewrite !elem_of_cons, elem_of_nil in Hs.
    by repeat destruct Hs as [->|Hs].
Qed.

Lemma emits_text_or (i : nat) : emits_text 1 " OR " i 0.
Proof.
  exists [PText " OR "]. split_and!; [done| |done|by intros [|d] ?; [lia|]].
  constructor; [|done]. change (" OR " ∈ sql_vocabulary).
  by_decide.
Qed.

Lemma emits_text_column (s : string) (i : nat) : s ∈ cols -> emits_text 0 s i 0.
Proof. intros Hs. exists [PColumn s]. split_and!; [done|by repeat constructor|done|done]. Qed.

Lemma concat_app_empty (a b : list string) :
  String.concat "" (a ++ b) = String.concat "" a +:+ String.concat "" b.
Proof.
  induction a as [|x a IH]; [done|]. rewrite <- app_comm_cons, !concat_cons, IH.
  by rewrite append_assoc.
Qed.

Lemma scan_app (ps qs : list piece) (d : nat) : scan d (ps ++ qs) = d' ← scan d ps; scan d' qs.
Proof.
  revert d. induction ps as [|p ps IH]; intros d; [done|]. cbn [scan app].
  destruct (scan1 d p); [apply IH|done].
Qed.

Lemma emits_text_app (lo : nat) (s t : string) (i n m : nat) :
  emits_text lo s i n -> emits_text lo t (i + n) m -> emits_text lo (s +:+ t) i (n + m).
Proof.
  intros (ps & -> & Hp & Ha & Hs) (qs & -> & Hq & Hb & Ht). exists (ps ++ qs). split_and!.
  - by rewrite map_app, concat_app_empty.
  - by apply Forall_app.
  - by rewrite omap_app, Ha, Hb, seq_app.
  - intros d Hd. by rewrite scan_app, Hs by done; cbn; apply Ht.
Qed.

(** A parenthesised text may have an [OR] at its top. *)
Lemma emits_text_wrap (p s q : string) (i n : nat) :
  p ∈ sql_opening -> q ∈ sql_closing -> emits_text 1 s i n -> emits_text 0 (p +:+ s +:+ q) i n.
Proof.
  intros Hp Hq (ps & -> & Hps & Ha & Hs). exists (PText p :: ps ++ [PText q]). split_and!.
  - cbn [map]. rewrite map_app, concat_cons, concat_app_empty. cbn. by rewrite ?append_nil_r.
  - constructor; [|apply Forall_app; split; [done|constructor; [|done]]];
      cbn [piece_ok]; unfold sql_vocabulary; set_solver.
  - cbn. by rewrite omap_app, Ha, app_nil_r.
  - intros d _. cbn [scan scan1]. rewrite bool_decide_eq_true_2 by done. cbn.
    rewrite scan_app, Hs by lia. cbn [mbind option_bind scan scan1].
    rewrite bool_decide_eq_false_2, bool_decide_eq_true_2; [done..|].
    unfold sql_opening, sql_closing in *. set_solver.
Qed.

(** Two conversions joined by a fixed text. *)
Lemma emits_join (lo : nat) (f g : conv) (lf lg : list sqlArg) (m : string) c c1 c2 l r :
  (forall i, emits_text lo m i 0) -> (forall s i n, emits_text 0 s i n -> emits_text lo s i n) ->
  emits f lf -> emits g lg -> numbered c -> f c = Ok (c1, l) -> g c1 = Ok (c2, r) ->
  numbered c2 /\ c_args c2 = c_args c ++ lf ++ lg
  /\ emits_text lo (l +:+ m +:+ r) (S (length (c_args c))) (length (lf ++ lg)).
Proof.
  intros Hm Hlo Hf Hg Hc Ef Eg.
  destruct (Hf _ _ _ Hc Ef) as (Hc1 & Ha1 & Ht1).
  destruct (Hg _ _ _ Hc1 Eg) as (Hc2 & Ha2 & Ht2).
  split_and!; [done|by rewrite Ha2, Ha1, app_assoc|]. rewrite length_app.
  apply emits_text_app; [by apply Hlo|]. apply (emits_text_app lo m r _ 0); [done|].
  rewrite Nat.add_0_r. rewrite Ha1, length_app in Ht2. by apply Hlo.
Qed.

Lemma emits_conv2_infix (f g : conv) (text : string -> string -> string) (lf lg : list sqlArg) (m : string) :
  m ∈ sql_plain -> (forall l r, text l r = l +:+ m +:+ r) ->
  emits f lf -> emits g lg -> emits (conv2 f g text) (lf ++ lg).
Proof.
  intros Hm Htext Hf Hg c c' s Hc Heq. unfold conv2 in Heq.
  destruct (f c) as [[c1 l]| |] eqn:Ef; [|done..]. cbn [res_bind] in Heq.
  destruct (g c1) as [[c2 r]| |] eqn:Eg; [|done..]. injection Heq as <- <-. rewrite Htext.
  eapply (emits_join 0 f g); [intros i; by apply emits_text_vocab|done..].
Qed.

Lemma emits_conv2_framed (f g : conv) (text : string -> string -> string) (lf lg : list sqlArg)
    (p m q : string) :
  p ∈ sql_opening -> q ∈ sql_closing -> m ∈ " OR " :: sql_plain ->
  (forall l r, text l r = p +:+ (l +:+ m +:+ r) +:+ q) ->
  emits f lf -> emits g lg -> emits (conv2 f g text) (lf ++ lg).
Proof.
  intros Hp Hq Hm Htext Hf Hg c c' s Hc Heq. unfold conv2 in Heq.
  destruct (f c) as [[c1 l]| |] eqn:Ef; [|done..]. cbn [res_bind] in Heq.
  destruct (g c1) as [[c2 r]| |] eqn:Eg; [|done..]. injection Heq as <- <-. rewrite Htext.
  destruct (emits_join 1 f g lf lg m c c1 c2 l r) as (? & ? & ?); try done.
  - intros i. apply elem_of_cons in Hm as [->|Hm]; [apply emits_text_or|].
    by apply emits_text_weaken, emits_text_vocab.
  - intros. by apply emits_text_weaken.
  - split_and!; [done..|]. by apply emits_text_wrap.
Qed.

Lemma emits_addArg (v : sqlArg) : emits (fun c => Ok (addArg c v)) [v].
Proof.
  intros c c' s Hc [= <- <-]. unfold numbered in *. cbn -[Z.of_nat]. split; [|split; [done|]].
  - rewrite length_app. cbn -[Z.of_nat]. lia.
  - exists [PArg (S (length (c_args c)))]. split_and!; [|by repeat constructor|done|done].
    cbn -[Z.of_nat]. by rewrite Hc.
Qed.

Lemma emits_const (s : string) : s ∈ sql_plain -> emits (fun c => Ok (c, s)) [].
Proof.
  intros Hs c c' s' Hc [= <- <-]. split; [done|]. split; [by rewrite app_nil_r|].
  by apply emits_text_vocab.
Qed.

Lemma emits_fail (f : conv) (lits : list sqlArg) :
  (forall c, is_ok (f c) = false) -> emits f lits.
Proof. intros Hf c c' s _ Heq. specialize (Hf c). by rewrite Heq in Hf. Qed.

Lemma emits_nth_arg (convs : list conv) (lits : list (list sqlArg)) (i : nat) :
  Forall2 emits convs lits -> emits (nth_arg convs i) (default [] (lits !! i)).
Proof.
  intros Hall. unfold nth_arg.
  destruct (convs !! i) as [f|] eqn:Hf.
  - destruct (Forall2_lookup_l _ _ _ _ _ Hall Hf) as (l & -> & He). exact He.
  - by apply emits_fail.
Qed.
End Emits.

Lemma concat_take_1 {A} (L : list (list A)) : List.concat (take 1 L) = default [] (L !! 0%nat).
Proof. destruct L; cbn; by rewrite ?app_nil_r. Qed.
Lemma concat_take_2 {A} (L : list (list A)) :
  List.concat (take 2 L) = default [] (L !! 0%nat) ++ default [] (L !! 1%nat).
Proof. destruct L as [|a [|b L]]; cbn; by rewrite ?app_nil_r. Qed.

Lemma String_eqb_ne (a b : string) : a <> b -> (a =? b)%string = false.
Proof. apply String.eqb_neq. Qed.

Section Conversion.
Context (m : FieldMapper) (cols : list string) `{!MapperColumns m cols}.

(** The literals a call contributes, from those of its parts. *)
Definition call_literals (target : option (list sqlArg)) (L : list (list sqlArg)) (fn : string)
    (args : list Expr) : list sqlArg :=
  if (fn =? "timestamp")%string then
    match args with
    | [ConstExpr (CString s)] => match Parse_RFC3339 s with Some t => [GoTime t] | None => [] end
    | _ => []
    end
  else (if is_method fn then default [] target else []) ++ List.concat (take (call_arity fn) L).

Lemma emits_binary convs L op :
  " " +:+ op +:+ " " ∈ sql_plain ->
  Forall2 (emits cols) convs L ->
  emits cols (convertBinaryOp convs op) (List.concat (take 2 L)).
Proof.
  intros Hop Hall. rewrite concat_take_2.
  apply (emits_conv2_infix cols _ _ _ _ _ (" " +:+ op +:+ " ")); [done| |by apply emits_nth_arg..].
  intros l r. by rewrite !append_assoc.
Qed.

Lemma emits_and_or p mid convs L :
  p ∈ sql_opening -> mid ∈ " OR " :: sql_plain ->
  Forall2 (emits cols) convs L ->
  emits cols (conv2 (nth_arg convs 0) (nth_arg convs 1) (fun l r => p +:+ l +:+ mid +:+ r +:+ ")"))
    (List.concat (take 2 L)).
Proof.
  intros Hp Hmid Hall. rewrite concat_take_2.
  apply (emits_conv2_framed cols _ _ _ _ _ p mid ")"); [done|by_decide|done| |by apply emits_nth_arg..].
  intros l r. by rewrite !append_assoc.
Qed.

Lemma emits_method target T convs L fn text w :
  w ∈ sql_opening -> (forall l r, text l r = w +:+ (l +:+ ", " +:+ r) +:+ ")")
                        \/ (forall l r, text l r = w +:+ (l +:+ ", " +:+ r) +:+ ") > 0") ->
  (forall f, target = Some f -> emits cols f (default [] T)) ->
  Forall2 (emits cols) convs L ->
  emits cols (convertMethod target convs fn text) (default [] T ++ List.concat (take 1 L)).
Proof.
  intros Hw Htext HT Hall. destruct target as [f|]; [|by apply emits_fail].
  rewrite concat_take_1. destruct Htext as [Htext|Htext];
    [apply (emits_conv2_framed cols _ _ _ _ _ w ", " ")")
    |apply (emits_conv2_framed cols _ _ _ _ _ w ", " ") > 0")];
    try by_decide; try done; try (by apply HT); by apply emits_nth_arg.
Qed.

Lemma emits_not convs L :
  Forall2 (emits cols) convs L ->
  emits cols (fun c => let? (c1, arg) := nth_arg convs 0 c in Ok (c1, "NOT (" +:+ arg +:+ ")"))
    (List.concat (take 1 L)).
Proof.
  intros Hall c c' s Hc Heq. rewrite concat_take_1.
  destruct (nth_arg convs 0 c) as [[c1 l]| |] eqn:E; [|done..]. injection Heq as <- <-.
  destruct (emits_nth_arg cols _ _ 0 Hall _ _ _ Hc E) as (? & ? & ?).
  split_and!; [done..|]. apply (emits_text_wrap cols "NOT (" l ")"); [by_decide..|by apply emits_text_weaken].
Qed.

Lemma arrayColumn_literals e column : arrayColumn m (Some e) = Some column -> literals e = [] /\ column ∈ cols.
Proof using MapperColumns0.
  unfold arrayColumn, GetSelectExpr. destruct e; try done.
  destruct (MapArraySelectExpr m) as [g|] eqn:Hg; [|done].
  intros Hc. split; [done|]. by eapply array_column.
Qed.

Lemma emits_in convs L args :
  Forall2 (emits cols) convs L -> L = map literals args ->
  emits cols (fun c =>
    let? (c1, l) := nth_arg convs 0 c in
    match args !! 1%nat with
    | None => Panic "index out of range"
    | Some a1 =>
        match arrayColumn m (Some a1) with
        | Some column => Ok (c1, "has(" +:+ column +:+ ", " +:+ l +:+ ")")
        | None => let? (c2, r) := nth_arg convs 1 c1 in Ok (c2, l +:+ " IN " +:+ r)
        end
    end) (List.concat (take 2 L)).
Proof using MapperColumns0.
  intros Hall HL c c' s Hc Heq. rewrite concat_take_2.
  destruct (nth_arg convs 0 c) as [[c1 l]| |] eqn:E; [|done..]. cbn [res_bind] in Heq.
  destruct (emits_nth_arg cols _ _ 0 Hall _ _ _ Hc E) as (Hc1 & Ha1 & Ht1).
  destruct (args !! 1%nat) as [a1|] eqn:Hargs; [|done].
  assert (L !! 1%nat = Some (literals a1)) as HL1 by by rewrite HL, list_lookup_fmap, Hargs.
  destruct (arrayColumn m (Some a1)) as [column|] eqn:Hcol.
  - apply arrayColumn_literals in Hcol as [Hlit Hin]. injection Heq as <- <-.
    rewrite HL1. cbn [default]. rewrite Hlit, app_nil_r. split_and!; [done..|].
    enough (emits_text cols 0 ("has(" +:+ (column +:+ ", " +:+ l) +:+ ")") (S (length (c_args c)))
              (length (default [] (L !! 0%nat)))) as Hgoal by by rewrite !append_assoc in Hgoal.
    apply (emits_text_wrap cols "has(" (column +:+ ", " +:+ l) ")"); [by_decide..|].
    apply emits_text_weaken.
    apply (emits_text_app cols 0 column (", " +:+ l) _ 0); [by apply emits_text_column|].
    apply (emits_text_app cols 0 ", " l _ 0); [apply emits_text_vocab; by_decide|].
    by rewrite !Nat.add_0_r.
  - destruct (nth_arg convs 1 c1) as [[c2 r]| |] eqn:E2; [|done..]. injection Heq as <- <-.
    destruct (emits_nth_arg cols _ _ 1 Hall _ _ _ Hc1 E2) as (Hc2 & Ha2 & Ht2).
    split; [done|]. split; [by rewrite Ha2, Ha1, app_assoc|]. rewrite length_app.
    apply (emits_text_app cols 0 l (" IN " +:+ r)); [done|].
    apply (emits_text_app cols 0 " IN " r _ 0); [apply emits_text_vocab; by_decide|].
    rewrite Nat.add_0_r. rewrite Ha1, length_app in Ht2. exact Ht2.
Qed.

Lemma emits_timestamp fn args :
  emits cols
    match args with
    | [ConstExpr (CString strVal)] =>
        if (strVal =? "")%string then unsupported_function fn
        else fun c =>
          match Parse_RFC3339 strVal with
          | None => Err (Errorf [PStr "invalid timestamp format: "; PWrap (Ext strVal)])
          | Some t => Ok (addArg c (GoTime t))
          end
    | _ => unsupported_function fn
    end (call_literals None [] "timestamp" args).
Proof.
  unfold call_literals. cbn [String.eqb Ascii.eqb Bool.eqb].
  destruct args as [|[| | |c| | | |] [|]]; try (by apply emits_fail);
    destruct c; try (by apply emits_fail).
  destruct (s =? "")%string; [by apply emits_fail|].
  destruct (Parse_RFC3339 s); [|by apply emits_fail]. apply emits_addArg.
Qed.

Lemma emits_call target T convs L fn args :
  (forall f, target = Some f -> emits cols f (default [] T)) ->
  Forall2 (emits cols) convs L -> L = map literals args ->
  emits cols (convertCallExpr m target convs fn args) (call_literals T L fn args).
Proof using MapperColumns0.
  intros HT Hall HL. unfold convertCallExpr.
  repeat match goal with
  | |- emits _ (if (fn =? ?s)%string then _ else _) _ =>
      destruct (String.eqb_spec fn s) as [->|?]
  end;
  [by apply emits_not
  |by apply emits_binary; [by_decide|]
  |by apply emits_binary; [by_decide|]
  |by apply (emits_and_or "(" " AND "); [by_decide..|]
  |by apply (emits_and_or "(" " OR "); [by_decide..|]
  |by apply emits_binary; [by_decide|]
  |by apply emits_binary; [by_decide|]
  |by apply emits_binary; [by_decide|]
  |by apply emits_binary; [by_decide|]
  |by apply emits_in
  |by apply (emits_method _ _ _ _ _ _ "startsWith("); [by_decide|left; intros; by rewrite append_assoc|..]
  |by apply (emits_method _ _ _ _ _ _ "endsWith("); [by_decide|left; intros; by rewrite append_assoc|..]
  |by apply (emits_method _ _ _ _ _ _ "position("); [by_decide|right; intros; by rewrite append_assoc|..]
  |apply emits_timestamp
  |by apply emits_fail].
Qed.

Lemma emits_conv_list fs L :
  Forall2 (emits cols) fs L ->
  forall c c' ss, numbered c -> conv_list fs c = Ok (c', ss) ->
    numbered c' /\ c_args c' = c_args c ++ List.concat L
    /\ emits_text cols 0 (String.concat ", " ss) (S (length (c_args c))) (length (List.concat L)).
Proof.
  induction 1 as [|f l fs L Hf Hall IH]; intros c c' ss Hc Heq; cbn [conv_list] in Heq.
  - injection Heq as <- <-. split_and!; [done|by rewrite app_nil_r|by apply emits_text_empty].
  - destruct (f c) as [[c1 s]| |] eqn:E; [|done..]. cbn [res_bind] in Heq.
    destruct (conv_list fs c1) as [[c2 ss']| |] eqn:E2; [|done..]. injection Heq as <- <-.
    destruct (Hf _ _ _ Hc E) as (Hc1 & Ha1 & Ht1).
    destruct (IH _ _ _ Hc1 E2) as (Hc2 & Ha2 & Ht2). cbn [List.concat].
    split_and!; [done|by rewrite Ha2, Ha1, app_assoc|].
    rewrite Ha1, length_app in Ht2. rewrite length_app.
    destruct ss' as [|s' ss'].
    + change (String.concat ", " [s]) with s. rewrite <- (append_nil_r s).
      by apply (emits_text_app cols 0 s "").
    + change (String.concat ", " (s :: s' :: ss')) with (s +:+ (", " +:+ String.concat ", " (s' :: ss'))).
      apply emits_text_app; [done|].
      apply (emits_text_app cols 0 ", " _ _ 0); [apply emits_text_vocab; by_decide|].
      by rewrite Nat.add_0_r.
Qed.

Lemma emits_list fs L :
  Forall2 (emits cols) fs L -> emits cols (convertListExpr fs) (List.concat L).
Proof.
  intros Hall c c' s Hc Heq. unfold convertListExpr in Heq.
  destruct (conv_list fs c) as [[c1 ss]| |] eqn:E; [|done..]. injection Heq as <- <-.
  destruct (emits_conv_list _ _ Hall _ _ _ Hc E) as (? & ? & ?).
  split_and!; [done..|]. apply (emits_text_wrap cols "[" _ "]"); [by_decide..|by apply emits_text_weaken].
Qed.

(** Conversion writes the literals of the expression as its arguments. *)
Lemma ConvertExpr_emits (e : Expr) : emits cols (ConvertExpr m e) (literals e).
Proof using MapperColumns0.
  assert (forall args, Forall (fun e => emits cols (ConvertExpr m e) (literals e)) args ->
            Forall2 (emits cols) (List.map (ConvertExpr m) args) (List.map literals args)) as Hmap.
  { induction 1; cbn; by constructor. }
  induction e as [target fn args Ht Hargs|es Hes|e He] using Expr_visit.
  - replace (literals (CallExpr target fn args))
      with (call_literals (option_map literals target) (List.map literals args) fn args)
      by by destruct target.
    apply emits_call; [|by apply Hmap|done].
    destruct target as [t|]; [|done]. intros f [= <-]. by apply Ht.
  - by apply emits_list, Hmap.
  - destruct e as [o f t| |n|c| | | |]; try (by destruct He); try (by apply emits_fail).
    + intros c c' s Hc Heq. cbn in Heq.
      destruct (MapSelectExpr m o f) eqn:E; [|done..]. injection Heq as <- <-.
      split_and!; [done|by rewrite app_nil_r|]. apply emits_text_column. by eapply select_column.
    + intros c c' s Hc Heq. cbn in Heq.
      destruct (MapIdentExpr m n) eqn:E; [|done..]. injection Heq as <- <-.
      split_and!; [done|by rewrite app_nil_r|]. apply emits_text_column. by eapply ident_column.
    + destruct c; try apply emits_addArg; [|by apply emits_fail].
      destruct b; apply emits_const; by_decide.
Qed.
End Conversion.

(** The mappers of the two domains name the columns of their tables only. *)
Ltac mapper_cases :=
  repeat match goal with
  | H : (if ?b then _ else _) = Ok _ |- _ => destruct b; [injection H as <-|]
  | H : (if ?b then _ else _) = Some _ |- _ => destruct b; [injection H as <-|]
  | H : Err _ = Ok _ |- _ => discriminate H
  | H : None = Some _ |- _ => discriminate H
  | H : match ?x with _ => _ end = Ok _ |- _ => destruct x
  | H : match ?x with _ => _ end = Some _ |- _ => destruct x
  end.

#[export] Instance audit_mapper_columns : MapperColumns AuditLogFieldMapper audit_columns.
Proof.
  split; cbn.
  - unfold audit_MapSelectExpr. intros o f c H.
    mapper_cases; by_decide.
  - unfold audit_MapIdentExpr. intros n c H.
    mapper_cases; by_decide.
  - done.
Qed.

#[export] Instance activity_mapper_columns : MapperColumns ActivityFieldMapper activity_columns.
Proof.
  split; cbn.
  - unfold activity_MapSelectExpr, mapNestedField, mapDirectField. intros o f c H.
    mapper_cases; by_decide.
  - unfold activity_MapIdentExpr. intros n c H. mapper_cases.
  - intros g o f c [= <-]. unfold activity_MapArraySelectExpr. intros H.
    mapper_cases; by_decide.
Qed.

(** Looking a path up in nested maps. *)
Fixpoint lookup_path (m : gomap) (path : list string) : option any :=
  match path with
  | [] => None
  | [k] => m !! k
  | k :: rest => match m !! k with Some (AMap m') => lookup_path m' rest | _ => None end
  end.

Definition spec_ (field : string) (test_only : bool) : Expr :=
  SelectExpr (Some (IdentExpr "spec")) field test_only.

(** The UIDs of an activity, in the order [RelatedUIDs] visits them. *)
Definition all_uids (a : Activity) : list string :=
  res_UID (Resource_ (Spec a)) :: map res_UID (Related (Spec a))
  ++ map (fun l => res_UID (link_Resource l)) (Links (Spec a)).

Lemma RelatedUIDs_fold (a : Activity) : RelatedUIDs a = fst (fold_left add_uid (all_uids a) ([], ∅)).
Proof.
  unfold RelatedUIDs, all_uids. cbn [fold_left]. rewrite fold_left_app.
  assert (forall {A} (f : A -> string) (l : list A) st,
            fold_left add_uid (map f l) st = fold_left (fun st x => add_uid st (f x)) l st) as Hmap.
  { intros A f l. induction l as [|x l IH]; intros st; [done|]. apply IH. }
  by rewrite !Hmap.
Qed.

Lemma add_uid_spec (l : list string) (uids : list string) (seen : gset string) :
  NoDup uids -> (forall u, u ∈ seen <-> u ∈ uids) -> "" ∉ uids ->
  let uids' := fst (fold_left add_uid l (uids, seen)) in
  NoDup uids' /\ ("" ∉ uids') /\ (forall u, u ∈ uids' <-> u ∈ uids \/ u <> "" /\ u ∈ l)
  /\ exists new, uids' = uids ++ new /\ (new `sublist_of` l).
Proof.
  revert uids seen. induction l as [|x l IH]; intros uids seen Hnd Hseen Hne; cbn [fold_left].
  - split_and!; [done..| |exists []; by rewrite app_nil_r]. intros u. set_solver.
  - unfold add_uid at 2 4 6 8. destruct (String.eqb_spec x "") as [->|Hx]; cbn [negb andb].
    + destruct (IH uids seen Hnd Hseen Hne) as (H1 & H2 & H3 & new & H4 & H5).
      split_and!; [done..| |exists new; split; [done|by constructor]].
      intros u. rewrite H3. set_solver.
    + case_bool_decide as Hin; cbn [negb].
      * destruct (IH uids seen Hnd Hseen Hne) as (H1 & H2 & H3 & new & H4 & H5).
        split_and!; [done..| |exists new; split; [done|by constructor]].
        intros u. rewrite H3. apply Hseen in Hin. set_solver.
      * destruct (IH (uids ++ [x]) ({[x]} ∪ seen)) as (H1 & H2 & H3 & new & H4 & H5).
        { apply NoDup_app. rewrite Hseen in Hin. split_and!; [done|set_solver|apply NoDup_singleton]. }
        { set_solver. }
        { set_solver. }
        split_and!; [done..| |exists (x :: new)].
        { intros u. rewrite H3. set_solver. }
        split; [by rewrite H4, <- app_assoc|by constructor].
Qed.

(** Case analysis on a field name against the literals it is compared with. *)
Ltac field_cases f :=
  repeat match goal with
  | |- context [(f =? ?s)%string] => destruct (String.eqb_spec f s) as [->|?]
  end.

(** The goal where [f] differs from every listed field. *)
Ltac no_field := rewrite bool_decide_eq_false_2 by set_solver; split; [done|by intros [? ?]].

Lemma audit_field_agree base f :
  base ∈ ["objectRef"; "user"; "responseStatus"] ->
  (AuditLogFieldValidator (Some (IdentExpr base)) f = Ok tt
   <-> exists c, MapSelectExpr AuditLogFieldMapper (Some (IdentExpr base)) f = Ok c).
Proof.
  unfold AuditLogFieldValidator, MapSelectExpr, AuditLogFieldMapper, audit_MapSelectExpr.
  intros Hb. rewrite !elem_of_cons, elem_of_nil in Hb. destruct Hb as [->|[->|[->|[]]]];
    cbn [GetIdentExpr table_get validFields String.eqb Ascii.eqb Bool.eqb andb];
    field_cases f; try (split; [by eexists|by intros _]); no_field.
Qed.

Lemma activity_nested_agree p f t :
  p ∈ ["actor"; "resource"; "origin"; "source"] ->
  (ActivityFieldValidator (Some (spec_ p t)) f = Ok tt
   <-> exists c, MapSelectExpr ActivityFieldMapper (Some (spec_ p t)) f = Ok c)
  /\ (ActivityFieldValidator (Some (spec_ p t)) f = Ok tt ->
      forall a, exists s, lookup_path (ActivityToMap a) ["spec"; p; f] = Some (AStr s)).
Proof.
  unfold ActivityFieldValidator, MapSelectExpr, ActivityFieldMapper, activity_MapSelectExpr, mapNestedField, spec_.
  intros Hb. rewrite !elem_of_cons, elem_of_nil in Hb. destruct Hb as [->|[->|[->|[->|[]]]]];
    cbn [GetIdentExpr GetSelectExpr String.append table_get activityValidFields String.eqb Ascii.eqb Bool.eqb andb];
    (split;
     [field_cases f; try (split; [by eexists|by intros _]); no_field
     |case_bool_decide as Hf; [|done]; intros _ a;
      rewrite ?elem_of_cons, elem_of_nil in Hf;
      repeat (destruct Hf as [->|Hf]; [by eexists|]); done]).
Qed.

Lemma activity_direct_agree base f :
  base ∈ ["spec"; "metadata"] ->
  (ActivityFieldValidator (Some (IdentExpr base)) f = Ok tt
   <-> (exists c, MapSelectExpr ActivityFieldMapper (Some (IdentExpr base)) f = Ok c)
       \/ base = "spec" /\ f ∈ ["actor"; "resource"; "origin"; "source"; "relatedUIDs"])
  /\ (ActivityFieldValidator (Some (IdentExpr base)) f = Ok tt ->
      forall a, is_Some (lookup_path (ActivityToMap a) [base; f])).
Proof.
  unfold ActivityFieldValidator, MapSelectExpr, ActivityFieldMapper, activity_MapSelectExpr, mapDirectField.
  intros Hb. rewrite !elem_of_cons, elem_of_nil in Hb. destruct Hb as [->|[->|[]]];
    cbn [GetIdentExpr GetSelectExpr table_get activityValidFields String.eqb Ascii.eqb Bool.eqb andb];
    (split;
     [field_cases f; try (split; [intros _; left; by eexists|by intros _]);
      case_bool_decide; set_solver
     |case_bool_decide as Hf; [|done]; intros _ a;
      rewrite ?elem_of_cons, elem_of_nil in Hf;
      repeat (destruct Hf as [->|Hf]; [by eexists|]); done]).
Qed.

(** The path a column stands for. *)
Fixpoint assoc {A} (t : list (string * A)) (k : string) : option A :=
  match t with
  | [] => None
  | (k', a) :: t' => if (k =? k')%string then Some a else assoc t' k
  end.

Definition audit_column_field : list (string * (string * string)) := [
  ("namespace", ("objectRef", "namespace")); ("resource", ("objectRef", "resource"));
  ("resource_name", ("objectRef", "name")); ("api_group", ("objectRef", "apiGroup"));
  ("user", ("user", "username")); ("user_uid", ("user", "uid"));
  ("status_code", ("responseStatus", "code"))].

Definition activity_column_field : list (string * (option string * string * string)) := [
  ("actor_name", (Some "spec", "actor", "name")); ("actor_type", (Some "spec", "actor", "type"));
  ("actor_uid", (Some "spec", "actor", "uid"));
  ("api_group", (Some "spec", "resource", "apiGroup")); ("resource_kind", (Some "spec", "resource", "kind"));
  ("resource_name", (Some "spec", "resource", "name"));
  ("resource_namespace", (Some "spec", "resource", "namespace"));
  ("resource_uid", (Some "spec", "resource", "uid")); ("origin_type", (Some "spec", "origin", "type"));
  ("source_plane_type", (Some "spec", "source", "planeType"));
  ("source_cluster", (Some "spec", "source", "cluster"));
  ("source_region", (Some "spec", "source", "region")); ("source_city", (Some "spec", "source", "city"));
  ("change_source", (None, "spec", "changeSource")); ("summary", (None, "spec", "summary"));
  ("activity_namespace", (None, "metadata", "namespace")); ("activity_name", (None, "metadata", "name"))].

(** Split an [if] chain of a hypothesis on the names it compares. *)
Ltac name_cases H :=
  repeat match type of H with
  | (if ?b then _ else _) = _ =>
      destruct b eqn:?; [injection H as <-; breflect;
        repeat match goal with E : (_ =? _)%string = true |- _ => apply String.eqb_eq in E; subst end|]
  end.

Lemma audit_column_inverse o f c :
  MapSelectExpr AuditLogFieldMapper o f = Ok c ->
  exists b, GetIdentExpr o = Some b /\ assoc audit_column_field c = Some (b, f).
Proof.
  cbn [MapSelectExpr AuditLogFieldMapper]. unfold audit_MapSelectExpr. intros H.
  destruct o as [e|]; [|done]. destruct (GetIdentExpr (Some e)) as [b|]; [|done].
  exists b. split; [done|]. name_cases H; [reflexivity..|done].
Qed.

Lemma activity_column_inverse o f c :
  MapSelectExpr ActivityFieldMapper o f = Ok c ->
  exists q b, assoc activity_column_field c = Some (q, b, f)
    /\ match q with
       | Some s => exists e, GetSelectExpr o = Some (e, b) /\ GetIdentExpr e = Some s
       | None => GetIdentExpr o = Some b /\ GetSelectExpr o = None
       end.
Proof.
  cbn [MapSelectExpr ActivityFieldMapper].
  unfold activity_MapSelectExpr, mapNestedField, mapDirectField. intros H.
  destruct o as [e|]; [|done]. destruct (GetSelectExpr (Some e)) as [[n p]|] eqn:Hs.
  - destruct (GetIdentExpr n) as [b|] eqn:Hn.
    + name_cases H; [by eexists (Some _), _; split; [reflexivity|eauto]..|done].
    + by destruct e.
  - destruct (GetIdentExpr (Some e)) as [b|] eqn:Hb; [|done].
    name_cases H; [by eexists None, _; split; [reflexivity|by split]..|by case_split_in H].
Qed.

(** A checker that knows two texts. *)
Module ToyFilter.
Definition nested (p f : string) : Expr := SelectExpr (Some (spec_ p false)) f false.
Definition call (fn : string) (a b : Expr) : Expr := CallExpr None fn [a; b].
Definition s_ (s : string) : Expr := ConstExpr (CString s).
Definition jane_filter : Expr :=
  call "_&&_" (call "_==_" (nested "actor" "name") (s_ "jane"))
              (call "@in" (s_ "u-1") (spec_ "relatedUIDs" false)).

Definition engine : CelEngine := {|
  cel_ast := Expr; cel_program := unit;
  cel_NewEnv := fun _ => inr tt;
  cel_Compile := fun _ s =>
    if (s =? "jane")%string then inr jane_filter
    else if (s =? "verb")%string then inr (call "_==_" (IdentExpr "verb") (s_ "get"))
    else inl (Ext "ERROR: <input>:1:3: undeclared reference");
  cel_OutputType := fun _ => BoolType;
  cel_Program := fun _ _ => inr tt;
  cel_Eval := fun _ _ => ([], inr (ABool true));
  go_fmt_v := fun _ => "" |}.

Definition lib : @FilterLib engine :=
  @Build_FilterLib engine (fun e => e) (fun _ => "bool").
End ToyFilter.

Example toy_filter_sql :
  @ConvertActivityToClickHouseSQL ToyFilter.engine ToyFilter.lib "jane"
  = Ok ("(actor_name = {arg1} AND has(related_uids, {arg2}))", [GoString "jane"; GoString "u-1"]).
Proof. vm_compute. reflexivity. Qed.

Example toy_filter_error :
  @ConvertToClickHouseSQL ToyFilter.engine ToyFilter.lib "x y"
  = Err (Errorf [PStr ("Invalid filter at line 1, column 3: undeclared reference" +:+ audit_filter_help)]).
Proof. vm_compute. reflexivity. Qed.

(** Comparisons are not parenthesised: two filters that group their operands
    differently have one SQL text, with the same arguments. *)
Lemma comparison_grouping_lost (m : FieldMapper) (a b c : bool) :
  let k b := ConstExpr (CBool b) in
  ConvertExpr m (CallExpr None "_==_" [CallExpr None "_==_" [k a; k b]; k c])
  = ConvertExpr m (CallExpr None "_==_" [k a; CallExpr None "_==_" [k b; k c]]).
Proof. destruct a, b, c; reflexivity. Qed.

(** The [has()] macro is converted to the bare column. *)
Lemma has_macro_is_column (m : FieldMapper) (o : option Expr) (f : string) :
  ConvertExpr m (SelectExpr o f true) = ConvertExpr m (SelectExpr o f false).
Proof. reflexivity. Qed.

Lemma convert_with_parameterised `{FilterLib} decls fmt v m cols `{!MapperColumns m cols}
    (filterExpr sql : string) (args : list sqlArg) :
  convert_with (compile_checked decls fmt v) m filterExpr = Ok (sql, args) ->
  parameterised cols sql args
  /\ (filterExpr <> "" -> exists ast, cel_Compile decls filterExpr = inr ast
        /\ args = literals (cel_Expr ast)).
Proof.
  intros Heq. unfold convert_with, compile_checked in Heq.
  destruct (String.eqb_spec filterExpr "") as [->|Hne].
  { injection Heq as <- <-. split; [|done]. exists []. by repeat constructor. }
  apply res_bind_ok in Heq as (ast & Hast & Heq).
  destruct (ConvertExpr m (cel_Expr ast) NewBaseSQLConverter) as [[c s]| |] eqn:Hc; [|done..].
  injection Heq as <- <-.
  destruct (ConvertExpr_emits m cols (cel_Expr ast) NewBaseSQLConverter c s eq_refl Hc)
    as (_ & Hargs & ps & -> & Hps & Hseq & Hscan).
  cbn in Hargs, Hseq. rewrite Hargs. split; [exists ps; split_and!; [done..|by apply Hscan]|]. intros _. exists ast. split; [|done].
  unfold of_sum in Hast. destruct (cel_NewEnv decls); [done|]. cbn [wrap_err res_bind] in Hast.
  destruct (cel_Compile decls filterExpr) as [|ast']; [done|]. cbn [wrap_err res_bind] in Hast.
  case_bool_decide; [|done]. destruct (ValidateFieldAccess _ _); [|done..]. by injection Hast as ->.
Qed.

(** Converted filters of both domains are parameterised. *)
Lemma convert_parameterised `{FilterLib} (f sql : string) (args : list sqlArg) :
  (ConvertToClickHouseSQL f = Ok (sql, args) -> parameterised audit_columns sql args)
  /\ (ConvertActivityToClickHouseSQL f = Ok (sql, args) -> parameterised activity_columns sql args).
Proof. split; intros Heq; by eapply convert_with_parameterised in Heq as [? _]; [|apply _]. Qed.

(** C15: query filters cannot inject SQL: whatever the filter, the condition is
    made of the converter's fixed words, columns of the queried table and
    placeholders only - no byte of it comes from the filter's literals - and
    its placeholders are numbered in order from 1 and are exactly the returned
    arguments, which are the literals of the expression from left to right. *)
Theorem filter_parameterised `{FilterLib} (filterExpr sql : string) (args : list sqlArg) :
  (ConvertToClickHouseSQL filterExpr = Ok (sql, args) ->
   parameterised audit_columns sql args
   /\ (filterExpr <> "" -> exists ast, cel_Compile audit_filter_decls filterExpr = inr ast
         /\ args = literals (cel_Expr ast)))
  /\ (ConvertActivityToClickHouseSQL filterExpr = Ok (sql, args) ->
   parameterised activity_columns sql args
   /\ (filterExpr <> "" -> exists ast, cel_Compile activity_filter_decls filterExpr = inr ast
         /\ args = literals (cel_Expr ast))).
Proof. split; eapply convert_with_parameterised; apply _. Qed.

Lemma filter_parameterised_witness :
  exists sql args, @ConvertActivityToClickHouseSQL ToyFilter.engine ToyFilter.lib "jane" = Ok (sql, args)
    /\ parameterised activity_columns sql args.
Proof.
  eexists _, _. split; [vm_compute; reflexivity|].
  exact (proj1 (proj2 (@filter_parameterised ToyFilter.engine ToyFilter.lib "jane" _ _)
                 (ltac:(vm_compute; reflexivity)))).
Defined.

(** The UIDs an activity is found by are the distinct non-empty UIDs of its
    resource, its related resources and its links, in order of appearance. *)
Theorem RelatedUIDs_spec (a : Activity) :
  NoDup (RelatedUIDs a)
  /\ (forall u, u ∈ RelatedUIDs a <-> u <> "" /\
        (u = res_UID (Resource_ (Spec a)) \/ (exists r, r ∈ Related (Spec a) /\ u = res_UID r)
         \/ exists l, l ∈ Links (Spec a) /\ u = res_UID (link_Resource l)))
  /\ (RelatedUIDs a `sublist_of` all_uids a).
Proof.
  rewrite RelatedUIDs_fold.
  destruct (add_uid_spec (all_uids a) [] ∅) as (Hnd & Hne & Hin & new & Hnew & Hsub);
    [constructor|set_solver|set_solver|].
  split_and!; [done| |by rewrite Hnew].
  intros u. rewrite Hin. unfold all_uids.
  rewrite elem_of_cons, elem_of_app, !list_elem_of_fmap. set_solver.
Qed.

(** Validation, conversion and evaluation know the same fields: of the
    records a filter can name, the fields the validator accepts are exactly
    those with a column - apart from the four intermediate objects of [spec],
    and [relatedUIDs], which has an array column - different fields have
    different columns, and every accepted path is present in the map a watched
    activity is evaluated on. *)
Theorem filter_fields_agree :
  (forall base f, base ∈ ["objectRef"; "user"; "responseStatus"] ->
     (AuditLogFieldValidator (Some (IdentExpr base)) f = Ok tt
      <-> exists c, MapSelectExpr AuditLogFieldMapper (Some (IdentExpr base)) f = Ok c))
  /\ (forall p f t, p ∈ ["actor"; "resource"; "origin"; "source"] ->
     (ActivityFieldValidator (Some (spec_ p t)) f = Ok tt
      <-> exists c, MapSelectExpr ActivityFieldMapper (Some (spec_ p t)) f = Ok c)
     /\ (ActivityFieldValidator (Some (spec_ p t)) f = Ok tt ->
         forall a, exists s, lookup_path (ActivityToMap a) ["spec"; p; f] = Some (AStr s)))
  /\ (forall base f, base ∈ ["spec"; "metadata"] ->
     (ActivityFieldValidator (Some (IdentExpr base)) f = Ok tt
      <-> (exists c, MapSelectExpr ActivityFieldMapper (Some (IdentExpr base)) f = Ok c)
          \/ base = "spec" /\ f ∈ ["actor"; "resource"; "origin"; "source"; "relatedUIDs"])
     /\ (ActivityFieldValidator (Some (IdentExpr base)) f = Ok tt ->
         forall a, is_Some (lookup_path (ActivityToMap a) [base; f])))
  /\ (forall o f o' f' c,
     (MapSelectExpr AuditLogFieldMapper o f = Ok c -> MapSelectExpr AuditLogFieldMapper o' f' = Ok c ->
      f = f' /\ GetIdentExpr o = GetIdentExpr o')
     /\ (MapSelectExpr ActivityFieldMapper o f = Ok c -> MapSelectExpr ActivityFieldMapper o' f' = Ok c ->
      f = f' /\ GetIdentExpr o = GetIdentExpr o'
      /\ option_map snd (GetSelectExpr o) = option_map snd (GetSelectExpr o'))).
Proof.
  split_and!.
  - intros base f Hbase. apply audit_field_agree. exact Hbase.
  - intros p f t Hp. by apply activity_nested_agree.
  - intros base f Hbase. by apply activity_direct_agree.
  - intros o f o' f' c. split.
    + intros (b & -> & Hc)%audit_column_inverse (b' & -> & Hc')%audit_column_inverse. by simplify_eq.
    + intros (q & b & Hc & Hq)%activity_column_inverse (q' & b' & Hc' & Hq')%activity_column_inverse.
      rewrite Hc in Hc'. injection Hc' as <- <- <-. destruct q; [|by destruct Hq as [-> ->], Hq' as [-> ->]].
      destruct Hq as (e & He & ?), Hq' as (e' & He' & ?). rewrite He, He'.
      split_and!; [done| |done]. by destruct o as [[]|], o' as [[]|].
Qed.

Lemma filter_fields_agree_witness :
  (exists c, MapSelectExpr AuditLogFieldMapper (Some (IdentExpr "user")) "uid" = Ok c)
  /\ forall a, exists s, lookup_path (ActivityToMap a) ["spec"; "actor"; "uid"] = Some (AStr s).
Proof.
  split.
  - apply (proj1 filter_fields_agree); [|vm_compute; reflexivity].
    by_decide.
  - apply (proj1 (proj2 filter_fields_agree) "actor" "uid" false); [|vm_compute; reflexivity].
    by_decide.
Defined.
