(* ===== verification/Query.v ===== *)
(** * internal/storage: queries on audit logs and activities

    Models [internal/storage/clickhouse.go]: the SQL text and arguments built
    for audit-log, activity and facet queries, tenant scoping, pagination
    cursors, and the assembly of result pages from the rows ClickHouse returns;
    the facet tables of [internal/storage/fields.go]; and the scope of a
    request, [internal/registry/scope/scope.go].  ClickHouse, SHA-256, base64
    and the JSON codec are parameters (classes [ClickHouse] and [CursorLib]). *)

From Stdlib Require Import Ascii String.
From stdpp Require Import base numbers list strings gmap pretty.
From Stdlib Require Import ZArith Lia Sorting.Sorted.
From S2P Require Import Prelude GoLib Types TimeUtil CelPolicy Activity CelFilter.

(* ------------------------------------------------------------------ *)
(** ** Scopes *)

Record ScopeContext := { sc_Type : string; sc_Name : string }.

Definition ParentKindExtraKey : string := "iam.miloapis.com/parent-type".
Definition ParentNameExtraKey : string := "iam.miloapis.com/parent-name".

(** [ExtractScopeFromUser], on the extra fields of the user ([None]: nil). *)
Definition ExtractScopeFromUser (extra : option (gmap string (list string))) : ScopeContext :=
  let platform := {| sc_Type := TenantTypePlatform; sc_Name := "" |} in
  match extra with
  | None => platform
  | Some m =>
      match default [] (m !! ParentKindExtraKey), default [] (m !! ParentNameExtraKey) with
      | kind :: _, name :: _ =>
          if (kind =? "Organization")%string then {| sc_Type := TenantTypeOrganization; sc_Name := name |}
          else if (kind =? "Project")%string then {| sc_Type := TenantTypeProject; sc_Name := name |}
          else if (kind =? "User")%string then {| sc_Type := TenantTypeUser; sc_Name := name |}
          else platform
      | _, _ => platform
      end
  end.

(* ------------------------------------------------------------------ *)
(** ** Query parameters *)

(** A query argument: a Go value or a list of strings. *)
Inductive qarg := QVal (v : sqlArg) | QStrings (l : list string).
Definition qstr (s : string) : qarg := QVal (GoString s).
Definition qtime (t : time) : qarg := QVal (GoTime t).

Record ClickHouseConfig := { Database : string; MaxQueryWindow : Z; MaxPageSize : Z }.

Record AuditLogQuerySpec := {
  aq_StartTime : string; aq_EndTime : string; aq_Filter : string;
  aq_Limit : Z (* int32 *); aq_Continue : string }.

Record ActivityQuerySpec := {
  StartTime : string; EndTime : string; Search : string; Filter : string;
  Limit : Z (* int32 *); Continue_ : string }.

(** The page size: default 100, at most [MaxPageSize]. *)
Definition page_limit (config : ClickHouseConfig) (limit : Z) : Z :=
  let limit := if (limit <=? 0)%Z then 100%Z else limit in
  if (MaxPageSize config <? limit)%Z then MaxPageSize config else limit.

(** [strings.Fields] on ASCII text. *)
Fixpoint fields_go (cur : string) (s : string) : list string :=
  match s with
  | EmptyString => if (cur =? "")%string then [] else [cur]
  | String a s' =>
      if is_space a then (if (cur =? "")%string then [] else [cur]) ++ fields_go "" s'
      else fields_go (cur +:+ String a "") s'
  end.
Definition Fields (s : string) : list string := fields_go "" s.

(* ------------------------------------------------------------------ *)
(** ** Conditions *)

(** Conditions and their arguments, as they are appended. *)
Definition cond : Type := string * list qarg.

Definition audit_scope (scope : ScopeContext) : list cond :=
  if (sc_Type scope =? TenantTypePlatform)%string then []
  else if (sc_Type scope =? TenantTypeUser)%string then [("user_uid = ?", [qstr (sc_Name scope)])]
  else [("scope_type = ?", [qstr (sc_Type scope)]); ("scope_name = ?", [qstr (sc_Name scope)])].

Definition userScopeActivityCondition (userUID : string) : cond :=
  ("(actor_uid = ? OR (origin_type = 'event' AND api_group = 'iam.miloapis.com' AND resource_kind = 'User' AND resource_name = ?))",
   [qstr userUID; qstr userUID]).

Definition activity_scope (scope : ScopeContext) : list cond :=
  if (sc_Type scope =? TenantTypePlatform)%string then []
  else if (sc_Type scope =? TenantTypeUser)%string then [userScopeActivityCondition (sc_Name scope)]
  else [("tenant_type = ?", [qstr (sc_Type scope)]); ("tenant_name = ?", [qstr (sc_Name scope)])].

Definition time_bound (value text field : string) (now : time) : res (list cond) :=
  if (value =? "")%string then Ok []
  else
    let? t := wrap_err (ParseFlexibleTime value now)
                (fun e => Errorf [PStr "invalid "; PStr field; PStr ": "; PWrap e]) in
    Ok [(text, [qtime t])].

(** [startTime] and [endTime] against one reference time. *)
Definition time_range (start end_ column : string) (now : time) : res (list cond) :=
  let? s := time_bound start (column +:+ " >= ?") "startTime" now in
  let? e := time_bound end_ (column +:+ " < ?") "endTime" now in
  Ok (s ++ e).

(** [for i := range celArgs { where = ReplaceAll(where, "{arg<i+1>}", "?") }] *)
Fixpoint replace_params (i n : nat) (where_ : string) : string :=
  match n with
  | O => where_
  | S n' => replace_params (S i) n'
              (ReplaceAll where_ ("{arg" +:+ pretty (Z.of_nat (i + 1)) +:+ "}") "?")
  end.

Definition filter_cond (convert : string -> res (string * list sqlArg)) (filter : string)
  : res (list cond) :=
  if (filter =? "")%string then Ok []
  else
    let? (celWhere, celArgs) := convert filter in
    if (celWhere =? "")%string then Ok []
    else Ok [(replace_params 0 (length celArgs) celWhere, map QVal celArgs)].

Definition search_cond (search : string) : list cond :=
  if (search =? "")%string then []
  else match Fields search with
       | [] => []
       | terms => [("multiSearchAnyCaseInsensitive(summary, ?) > 0", [QStrings terms])]
       end.

(** Rows after a position, in the order of the query. *)
Definition cursor_cond (tie_column : string) (t : time) (tie : string) : cond :=
  ("(toStartOfHour(timestamp) < toStartOfHour(?) OR (toStartOfHour(timestamp) = toStartOfHour(?) AND timestamp < ?) OR (timestamp = ? AND "
     +:+ tie_column +:+ " < ?))",
   [qtime t; qtime t; qtime t; qtime t; qstr tie]).

(** [if len(conditions) > 0 { query += " WHERE " + strings.Join(conditions, " AND ") }] *)
Definition where_clause (cs : list cond) : string :=
  match cs with
  | [] => ""
  | _ => " WHERE " +:+ String.concat " AND " (map fst cs)
  end.
Definition cond_args (cs : list cond) : list qarg := List.concat (map snd cs).

(* ------------------------------------------------------------------ *)
(** ** Cursors *)

Definition cursorTTL : Z := Hour.

Record cursorData := {
  c_Timestamp : time; c_Key : string (* audit ID or activity name *);
  QueryHash : string; IssuedAt : time }.

(** base64 and JSON of the standard library, SHA-256 (its first 16 bytes), and
    the fields read from stored JSON documents. *)
Class CursorLib := {
  b64_encode : string -> string;
  b64_decode : string -> error + string;
  sha256_16 : string -> string;
  json_marshal_cursor : cursorData -> string          (* "" when it fails *);
  json_unmarshal_cursor : string -> error + cursorData;
  json_marshal_acursor : cursorData -> string;
  json_unmarshal_acursor : string -> error + cursorData;
  json_activity_meta : string -> error + (string * string) (* name, creationTimestamp *) }.

Section Cursors.
Context `{CursorLib}.

Definition hashQueryParams (spec : AuditLogQuerySpec) : string :=
  b64_encode (sha256_16 (aq_StartTime spec +:+ "|" +:+ aq_EndTime spec +:+ "|"
    +:+ aq_Filter spec +:+ "|" +:+ pretty (aq_Limit spec))).

Definition encodeCursor (now timestamp : time) (auditID : string) (spec : AuditLogQuerySpec) : string :=
  b64_encode (json_marshal_cursor
    {| c_Timestamp := timestamp; c_Key := auditID; QueryHash := hashQueryParams spec; IssuedAt := now |}).

(** The age in an error message is rounded; its text is not modelled. *)
Definition cursor_expired (text : string) : error := Errorf [PStr text].

Definition decodeCursor (now : time) (cursor : string) (spec : AuditLogQuerySpec) : res (time * string) :=
  let? decoded := wrap_err (of_sum (b64_decode cursor))
                    (fun e => Errorf [PStr "cannot decode pagination cursor: "; PWrap e]) in
  let invalid := Errorf [PStr "cursor format is invalid. Start a new query"] in
  let? data := wrap_err (of_sum (json_unmarshal_cursor decoded)) (fun _ => invalid) in
  if negb (QueryHash data =? hashQueryParams spec)%string then
    Err (Errorf [PStr "cannot use cursor because query parameters changed. Start a new query without the continueAfter parameter"])
  else if IsZero (IssuedAt data) then Err invalid
  else if (cursorTTL <? now - IssuedAt data)%Z then Err (cursor_expired "cursor expired")
  else Ok (c_Timestamp data, c_Key data).

Definition ValidateCursor (now : time) (cursor : string) (spec : AuditLogQuerySpec) : res unit :=
  let? _ := decodeCursor now cursor spec in Ok tt.

Definition hashActivityQueryParams (spec : ActivityQuerySpec) : string :=
  b64_encode (sha256_16 (StartTime spec +:+ "|" +:+ EndTime spec +:+ "|" +:+ Filter spec +:+ "|"
    +:+ Search spec +:+ "|" +:+ pretty (Limit spec))).

(** An unreadable document gives no token; an unreadable time the zero time. *)
Definition encodeActivityCursor (now : time) (lastActivityJSON : string) (spec : ActivityQuerySpec) : string :=
  match json_activity_meta lastActivityJSON with
  | inl _ => ""
  | inr (name, creationTimestamp) =>
      b64_encode (json_marshal_acursor
        {| c_Timestamp := default 0%Z (Parse_RFC3339 creationTimestamp); c_Key := name;
           QueryHash := hashActivityQueryParams spec; IssuedAt := now |})
  end.

Definition decodeActivityCursor (now : time) (cursor : string) (spec : ActivityQuerySpec)
  : res (time * string) :=
  let invalid := Errorf [PStr "the continue token is invalid. Remove the continue parameter to start a new query"] in
  let? decoded := wrap_err (of_sum (b64_decode cursor)) (fun _ => invalid) in
  let? data := wrap_err (of_sum (json_unmarshal_acursor decoded)) (fun _ => invalid) in
  if (c_Key data =? "")%string then Err invalid
  else if negb (QueryHash data =? hashActivityQueryParams spec)%string then
    Err (Errorf [PStr "query parameters changed since the continue token was issued. Remove the continue parameter and use consistent query parameters when paginating"])
  else if (cursorTTL <? now - IssuedAt data)%Z then Err (cursor_expired "the continue token expired")
  else Ok (c_Timestamp data, c_Key data).
End Cursors.

(* ------------------------------------------------------------------ *)
(** ** Query texts *)

Definition hasUserFilter (filter : string) : bool :=
  if (filter =? "")%string then false
  else (Contains filter "user.username" || Contains filter "user.groups" || Contains filter "user.uid"
        || (Contains filter "user" && (Contains filter "==" || Contains filter "!=")))%bool.

Definition audit_order (scope : ScopeContext) (filter : string) : string :=
  " ORDER BY toStartOfHour(timestamp) DESC, timestamp DESC, " +:+
  (if (sc_Type scope =? "platform")%string then
     (if hasUserFilter filter then "user DESC, api_group DESC, resource DESC, audit_id DESC"
      else "api_group DESC, resource DESC, audit_id DESC")
   else if (sc_Type scope =? TenantTypeUser)%string
   then "user_uid DESC, api_group DESC, resource DESC, audit_id DESC"
   else "scope_type DESC, scope_name DESC, user DESC, audit_id DESC").

Definition activity_order : string :=
  " ORDER BY toStartOfHour(timestamp) DESC, timestamp DESC, activity_name DESC".

(** [int32] arithmetic: [limit+1] wraps. *)
Definition limit_clause (limit : Z) : string := " LIMIT " +:+ pretty (wrap32 (limit + 1)).

(** [fields.go]: facet columns. *)
Definition auditLogFacetColumnMapping : list (string * string) := [
  ("verb", "verb"); ("user.username", "user"); ("user.uid", "user_uid");
  ("responseStatus.code", "status_code"); ("objectRef.namespace", "namespace");
  ("objectRef.resource", "resource"); ("objectRef.apiGroup", "api_group")].

Definition activityFacetColumnMapping : list (string * string) := [
  ("spec.actor.name", "actor_name"); ("spec.actor.type", "actor_type");
  ("spec.resource.apiGroup", "api_group"); ("spec.resource.kind", "resource_kind");
  ("spec.resource.namespace", "resource_namespace"); ("spec.changeSource", "change_source");
  ("spec.source.planeType", "source_plane_type"); ("spec.source.cluster", "source_cluster");
  ("spec.source.region", "source_region"); ("spec.source.city", "source_city")].

Definition eventFacetColumnMapping : list (string * string) := [
  ("regarding.kind", "regarding_kind"); ("regarding.namespace", "regarding_namespace");
  ("related.kind", "related_kind"); ("related.namespace", "related_namespace");
  ("reason", "reason"); ("type", "type"); ("source.component", "source_component");
  ("namespace", "namespace"); ("sourcePlaneType", "source_plane_type");
  ("sourceCluster", "source_cluster"); ("sourceRegion", "source_region"); ("sourceCity", "source_city")].

Definition facet_column (table : list (string * string)) (what field : string) : res string :=
  match assoc table field with
  | Some col => Ok col
  | None => Err (Errorf [PStr "unsupported "; PStr what; PStr " facet field: "; PStr field])
  end.
Definition GetAuditLogFacetColumn := facet_column auditLogFacetColumnMapping "audit log".
Definition GetActivityFacetColumn := facet_column activityFacetColumnMapping "activity".
Definition GetEventFacetColumn := facet_column eventFacetColumnMapping "event".

Record FacetFieldSpec := { ff_Field : string; ff_Limit : Z }.
Record FacetQuerySpec := { fq_StartTime : string; fq_EndTime : string; fq_Filter : string;
                           fq_Facets : list FacetFieldSpec }.

Definition facet_limit (limit : Z) : Z :=
  let limit := if (limit <=? 0)%Z then 20%Z else limit in
  if (100 <? limit)%Z then 100%Z else limit.

Section Build.
Context `{FilterLib} `{CursorLib} (config : ClickHouseConfig).

(** The conditions of [buildQuery]; [clock] is the time [decodeCursor] reads. *)
Definition audit_conditions (now clock : time) (spec : AuditLogQuerySpec) (scope : ScopeContext)
  : res (list cond) :=
  let? range := time_range (aq_StartTime spec) (aq_EndTime spec) "timestamp" now in
  let? filter := filter_cond ConvertToClickHouseSQL (aq_Filter spec) in
  let? cursor := if (aq_Continue spec =? "")%string then Ok []
                 else let? (t, id) := decodeCursor clock (aq_Continue spec) spec in
                      Ok [cursor_cond "audit_id" t id] in
  Ok (audit_scope scope ++ range ++ filter ++ cursor).

Definition buildQuery (now clock : time) (spec : AuditLogQuerySpec) (scope : ScopeContext)
  : res (string * list qarg) :=
  let? cs := audit_conditions now clock spec scope in
  Ok ("SELECT event_json FROM " +:+ Database config +:+ ".audit_logs" +:+ where_clause cs
      +:+ audit_order scope (aq_Filter spec) +:+ limit_clause (page_limit config (aq_Limit spec)),
      cond_args cs).

Definition activity_conditions (now clock : time) (spec : ActivityQuerySpec) (scope : ScopeContext)
  : res (list cond) :=
  let? range := time_range (StartTime spec) (EndTime spec) "timestamp" now in
  let? filter := filter_cond ConvertActivityToClickHouseSQL (Filter spec) in
  let? cursor := if (Continue_ spec =? "")%string then Ok []
                 else let? (t, name) := decodeActivityCursor clock (Continue_ spec) spec in
                      Ok [cursor_cond "activity_name" t name] in
  Ok (activity_scope scope ++ range ++ search_cond (Search spec) ++ filter ++ cursor).

Definition buildActivityQuery (now clock : time) (spec : ActivityQuerySpec) (scope : ScopeContext)
  : res (string * list qarg) :=
  let? cs := activity_conditions now clock spec scope in
  Ok ("SELECT activity_json FROM " +:+ Database config +:+ ".activities" +:+ where_clause cs
      +:+ activity_order +:+ limit_clause (page_limit config (Limit spec)),
      cond_args cs).

(** The queries of [queryAuditLogFacet] and [queryFacet]. *)
Definition audit_facet_query (now : time) (facet : FacetFieldSpec) (spec : FacetQuerySpec)
    (scope : ScopeContext) : res (string * list qarg) :=
  let? column := GetAuditLogFacetColumn (ff_Field facet) in
  let? range := time_range (fq_StartTime spec) (fq_EndTime spec) "timestamp" now in
  let? filter := filter_cond ConvertToClickHouseSQL (fq_Filter spec) in
  let cs := audit_scope scope ++ range ++ filter in
  Ok ("SELECT toString(" +:+ column +:+ ") as value, COUNT(*) as count FROM " +:+ Database config
      +:+ ".audit_logs" +:+ where_clause cs +:+ " GROUP BY " +:+ column
      +:+ " ORDER BY count DESC, value ASC LIMIT " +:+ pretty (facet_limit (ff_Limit facet)),
      cond_args cs).

Definition activity_facet_query (now : time) (facet : FacetFieldSpec) (spec : FacetQuerySpec)
    (scope : ScopeContext) : res (string * list qarg) :=
  let? column := GetActivityFacetColumn (ff_Field facet) in
  let? range := time_range (fq_StartTime spec) (fq_EndTime spec) "timestamp" now in
  let? filter := filter_cond ConvertActivityToClickHouseSQL (fq_Filter spec) in
  let cs := activity_scope scope ++ range ++ filter in
  Ok ("SELECT " +:+ column +:+ ", COUNT(*) as count FROM " +:+ Database config
      +:+ ".activities" +:+ where_clause cs +:+ " GROUP BY " +:+ column
      +:+ " ORDER BY count DESC, " +:+ column +:+ " ASC LIMIT " +:+ pretty (facet_limit (ff_Limit facet)),
      cond_args cs).
End Build.

(* ------------------------------------------------------------------ *)
(** ** Running queries *)

(** The rows of a driver result: each [Scan], then [rows.Err()]. *)
Record rows (A : Type) := { scanned : list (error + A); rows_err : option error }.
Arguments scanned {A}. Arguments rows_err {A}.

(** The fields of a stored audit event the code reads. *)
Record StoredEvent := { se_StageTimestamp : time; se_AuditID : string; se_json : string }.

Class ClickHouse := {
  ch_query : string -> list qarg -> error + rows string;
  ch_query_counts : string -> list qarg -> error + rows (string * Z) (* uint64 counts *);
  json_unmarshal_audit_event : string -> error + StoredEvent }.

Record QueryResult := { qr_Events : list StoredEvent; qr_Continue : string }.
Record ActivityQueryResult := { Activities : list string; ar_Continue : string }.
Record FacetFieldResult := { fr_Field : string; fr_Values : list (string * Z) }.

Definition unavailable (what : string) : error :=
  Errorf [PStr "unable to retrieve "; PStr what; PStr ". Try again or contact support if the problem persists"].

(** [for rows.Next() { Scan }; rows.Err()] *)
Fixpoint scan_rows {A} (e : error) (l : list (error + A)) : res (list A) :=
  match l with
  | [] => Ok []
  | inl _ :: _ => Err e
  | inr a :: l' => let? r := scan_rows e l' in Ok (a :: r)
  end.
Definition read_rows {A} (e : error) (r : rows A) : res (list A) :=
  let? l := scan_rows e (scanned r) in
  match rows_err r with Some _ => Err e | None => Ok l end.

(** [items[:limit]] when there are more than [limit]; [None]: no more pages. *)
Definition cut_page {A} (items : list A) (limit : Z) : res (list A * option A) :=
  if (limit <? wrap32 (Z.of_nat (length items)))%Z then
    if (limit <? 0)%Z then Panic "slice bounds out of range"
    else let page := take (Z.to_nat limit) items in Ok (page, last page)
  else Ok (items, None).

Section Run.
Context `{FilterLib} `{CursorLib} `{ClickHouse} (config : ClickHouseConfig).

(** The query text as sent: prefixed by the trace comment, if any. *)
Definition traced (traceparent : option string) (query : string) : string :=
  match traceparent with
  | Some tp => "/* traceparent: " +:+ tp +:+ " */ " +:+ query
  | None => query
  end.

(** The events of the rows; rows that cannot be decoded are dropped. *)
Definition decode_events (docs : list string) : list StoredEvent :=
  omap (fun d => match json_unmarshal_audit_event d with inr e => Some e | inl _ => None end) docs.

Definition QueryAuditLogs (traceparent : option string) (now clock issued : time)
    (spec : AuditLogQuerySpec) (scope : ScopeContext) : res QueryResult :=
  let? (query, args) := buildQuery config now clock spec scope in
  let err := unavailable "audit logs" in
  let? r := wrap_err (of_sum (ch_query (traced traceparent query) args)) (fun _ => err) in
  let? docs := read_rows err r in
  let? (events, last_) := cut_page (decode_events docs) (page_limit config (aq_Limit spec)) in
  Ok {| qr_Events := events;
        qr_Continue := match last_ with
                       | Some e => encodeCursor issued (se_StageTimestamp e) (se_AuditID e) spec
                       | None => ""
                       end |}.

Definition QueryActivities (traceparent : option string) (now clock issued : time)
    (spec : ActivityQuerySpec) (scope : ScopeContext) : res ActivityQueryResult :=
  let? (query, args) := buildActivityQuery config now clock spec scope in
  let err := unavailable "activities" in
  let? r := wrap_err (of_sum (ch_query (traced traceparent query) args)) (fun _ => err) in
  let? docs := read_rows err r in
  let? (activities, last_) := cut_page docs (page_limit config (Limit spec)) in
  Ok {| Activities := activities;
        ar_Continue := match last_ with
                       | Some d => encodeActivityCursor issued d spec
                       | None => ""
                       end |}.

Definition facet_unavailable (field : string) : error :=
  Errorf [PStr "unable to retrieve facet data for field '"; PStr field;
          PStr "'. Try again or contact support if the problem persists"].

(** [int64(count)] of a [uint64]. *)
Definition facet_values (field : string) (q : string * list qarg) : res FacetFieldResult :=
  let err := facet_unavailable field in
  let? r := wrap_err (of_sum (ch_query_counts (fst q) (snd q))) (fun _ => err) in
  let? vs := read_rows err r in
  Ok {| fr_Field := field; fr_Values := map (fun '(v, c) => (v, wrap64 c)) vs |}.

Definition queryAuditLogFacet (now : time) (spec : FacetQuerySpec) (scope : ScopeContext)
    (facet : FacetFieldSpec) : res FacetFieldResult :=
  let? q := audit_facet_query config now facet spec scope in facet_values (ff_Field facet) q.

Definition queryFacet (now : time) (spec : FacetQuerySpec) (scope : ScopeContext)
    (facet : FacetFieldSpec) : res FacetFieldResult :=
  let? q := activity_facet_query config now facet spec scope in facet_values (ff_Field facet) q.

(** [for _, facet := range spec.Facets]; each facet reads the clock again. *)
Fixpoint query_facets (query : FacetFieldSpec -> res FacetFieldResult) (facets : list FacetFieldSpec)
  : res (list FacetFieldResult) :=
  match facets with
  | [] => Ok []
  | f :: fs => let? r := query f in let? rs := query_facets query fs in Ok (r :: rs)
  end.

Definition QueryAuditLogFacets (now : FacetFieldSpec -> time) (spec : FacetQuerySpec) (scope : ScopeContext)
  : res (list FacetFieldResult) :=
  query_facets (fun f => queryAuditLogFacet (now f) spec scope f) (fq_Facets spec).

Definition QueryFacets (now : FacetFieldSpec -> time) (spec : FacetQuerySpec) (scope : ScopeContext)
  : res (list FacetFieldResult) :=
  query_facets (fun f => wrap_err (queryFacet (now f) spec scope f)
      (fun e => Errorf [PStr "failed to query facet "; PStr (ff_Field f); PStr ": "; PWrap e]))
    (fq_Facets spec).
End Run.

(* ------------------------------------------------------------------ *)
(** ** Well-formed conditions *)

Fixpoint count_byte (c : ascii) (s : string) : nat :=
  match s with
  | EmptyString => O
  | String a s' => (if Ascii.eqb a c then 1 else 0) + count_byte c s'
  end.

(** What a text says outside its parentheses and brackets, and the depth it
    ends at; [None] when it closes more than it opened. *)
Fixpoint outside (d : nat) (s : string) : option (nat * string) :=
  match s with
  | EmptyString => Some (d, "")
  | String a s' =>
      if bool_decide (a ∈ ["("; "["]%char) then outside (S d) s'
      else if bool_decide (a ∈ [")"; "]"]%char) then
        match d with O => None | S d' => outside d' s' end
      else '(d', t) ← outside d s';
           Some (d', match d with O => String a t | S _ => t end)
  end.

(** A condition that can be joined with [AND]: as many [?] as arguments, its
    parentheses match, and no [OR] stands outside them. *)
Definition cond_wf (c : cond) : Prop :=
  count_byte "?" (fst c) = length (snd c)
  /\ exists t, outside 0 (fst c) = Some (O, t) /\ has_byte "R" t = false.

Lemma count_byte_append (c : ascii) (a b : string) :
  count_byte c (a +:+ b) = (count_byte c a + count_byte c b)%nat.
Proof. induction a as [|x a IH]; [done|]. cbn [String.append count_byte]. rewrite IH. lia. Qed.

Lemma count_byte_none (c : ascii) (s : string) : has_byte c s = false -> count_byte c s = O.
Proof.
  induction s as [|a s IH]; [done|]. cbn [has_byte count_byte]. intros (Ha & Hs)%orb_false_iff.
  by rewrite Ha, IH.
Qed.

Lemma outside_append (d : nat) (s t : string) :
  outside d (s +:+ t) = '(d1, u) ← outside d s; '(d2, v) ← outside d1 t; Some (d2, u +:+ v).
Proof.
  revert d. induction s as [|a s IH]; intros d.
  - cbn. by destruct (outside d t) as [[??]|].
  - cbn [String.append outside]. case_bool_decide; [apply IH|].
    case_bool_decide; [destruct d; [done|apply IH]|].
    rewrite IH. destruct (outside d s) as [[d1 u]|]; [|done]. cbn [mbind option_bind].
    destruct (outside d1 t) as [[d2 v]|]; [|done]. by destruct d.
Qed.

(** No parenthesis and no capital [R]. *)
Definition plain_byte (a : ascii) : bool := bool_decide (a ∉ ["("; ")"; "["; "]"; "R"; "?"; "{"]%char).

Lemma outside_plain (d : nat) (s : string) :
  all_bytes plain_byte s = true -> outside d s = Some (d, match d with O => s | S _ => "" end).
Proof.
  induction s as [|a s IH]; [by destruct d|]. cbn [all_bytes outside]. intros (Ha & Hs)%andb_true_iff.
  apply bool_decide_eq_true in Ha. rewrite !bool_decide_eq_false_2 by set_solver.
  rewrite IH by done. by destruct d.
Qed.

Lemma plain_has_byte (c : ascii) (s : string) :
  plain_byte c = false -> all_bytes plain_byte s = true -> has_byte c s = false.
Proof. intros Hc Hs. by apply (all_bytes_has_byte plain_byte). Qed.

(** The pieces of a converted filter once the placeholders up to [k] are
    replaced. *)
Definition bind_piece (k : nat) (p : piece) : string :=
  match p with
  | PArg n => if bool_decide (n <= k)%nat then "?" else piece_text p
  | _ => piece_text p
  end.

Lemma replace_go_skip (old : string) (new s t : string) (c : ascii) :
  has_byte c s = false ->
  replace_go (String c old) new 0 (s +:+ t) = s +:+ replace_go (String c old) new 0 t.
Proof.
  induction s as [|a s IH]; [done|]. cbn [has_byte String.append]. intros (Ha & Hs)%orb_false_iff.
  cbn [replace_go HasPrefix]. rewrite Ascii.eqb_sym, Ha. cbn [andb]. by rewrite IH.
Qed.

Lemma replace_go_drop (old new s t : string) :
  replace_go old new (String.length s) (s +:+ t) = replace_go old new 0 t.
Proof. induction s as [|a s IH]; [done|]. exact IH. Qed.

Lemma pretty_nat_digits (n : nat) : all_bytes is_digit (pretty (Z.of_nat n)) = true.
Proof.
  destruct n as [|n]; [done|]. change (pretty (Z.of_nat (S n))) with (pretty (N.pos (Pos.of_succ_nat n))).
  apply pretty_N_spec.
Qed.

Lemma pretty_nat_inj (m n : nat) : pretty (Z.of_nat m) = pretty (Z.of_nat n) -> m = n.
Proof. intros E. apply (inj pretty) in E. lia. Qed.

Lemma arg_prefix (m n : nat) (t : string) :
  HasPrefix ("{arg" +:+ pretty (Z.of_nat m) +:+ "}" +:+ t) ("{arg" +:+ pretty (Z.of_nat n) +:+ "}")
  = bool_decide (m = n).
Proof.
  apply eq_bool_prop_intro. rewrite !Is_true_true, bool_decide_eq_true, HasPrefix_spec.
  assert (forall k, has_byte "}" (pretty (Z.of_nat k)) = false) as Hd
    by (intros k; by apply (all_bytes_has_byte is_digit); [apply pretty_nat_digits|]).
  split.
  - intros [u E]. cbn in E. injection E as E. rewrite append_assoc in E.
    apply (sep_inj "}") in E as [E _]; [by apply pretty_nat_inj|apply Hd..].
  - intros ->. exists t. cbn. by rewrite append_assoc.
Qed.

Lemma replace_go_match (c : ascii) (o new t : string) :
  replace_go (String c o) new 0 (String c o +:+ t) = new +:+ replace_go (String c o) new 0 t.
Proof.
  cbn [String.append replace_go]. change (String c (o +:+ t)) with (String c o +:+ t).
  rewrite HasPrefix_append. cbn [String.length]. rewrite Nat.sub_succ, Nat.sub_0_r.
  by rewrite replace_go_drop.
Qed.

Lemma replace_go_miss (c : ascii) (o new s t : string) :
  HasPrefix (String c s +:+ t) (String c o) = false -> has_byte c s = false ->
  replace_go (String c o) new 0 (String c s +:+ t) = String c s +:+ replace_go (String c o) new 0 t.
Proof.
  intros Hp Hs. cbn [String.append replace_go] in *. rewrite Hp. f_equal. by apply replace_go_skip.
Qed.

Section Replace.
Context (cols : list string) (Hcols : Forall (fun c => all_bytes plain_byte c = true) cols).

(** The fixed words have no brace or question mark. *)
Lemma vocabulary_bytes (s : string) :
  s ∈ sql_vocabulary -> has_byte "{" s = false /\ has_byte "?" s = false.
Proof.
  assert (forallb (fun s => negb (has_byte "{" s) && negb (has_byte "?" s)) sql_vocabulary = true)%bool as Hall
    by reflexivity.
  intros Hs. rewrite forallb_forall in Hall. apply list_elem_of_In in Hs. apply Hall in Hs. by breflect.
Qed.

Lemma piece_no_brace (p : piece) :
  piece_ok cols p -> match p with PArg _ => True | _ => has_byte "{" (piece_text p) = false end.
Proof using Hcols.
  destruct p as [s|c|n]; cbn [piece_ok piece_text]; [|intros Hc|done].
  - intros Hs. by apply vocabulary_bytes.
  - rewrite Forall_forall in Hcols. by apply (plain_has_byte "{"), Hcols.
Qed.

(** One replacement pass binds one more placeholder. *)
Lemma replace_pieces (k : nat) (ps : list piece) :
  Forall (piece_ok cols) ps ->
  ReplaceAll (String.concat "" (map (bind_piece k) ps)) ("{arg" +:+ pretty (Z.of_nat (S k)) +:+ "}") "?"
  = String.concat "" (map (bind_piece (S k)) ps).
Proof using Hcols.
  unfold ReplaceAll. induction 1 as [|p ps Hp Hps IH]; [done|].
  cbn [map]. rewrite !concat_cons.
  set (old := "{arg" +:+ pretty (Z.of_nat (S k)) +:+ "}") in *.
  assert (exists o, old = String "{" o) as [o Ho] by by eexists.
  pose proof (piece_no_brace p Hp) as Hb.
  assert (forall s, bind_piece k p = s -> bind_piece (S k) p = s -> has_byte "{" s = false ->
    replace_go old "?" 0 (bind_piece k p +:+ String.concat "" (map (bind_piece k) ps))
    = bind_piece (S k) p +:+ String.concat "" (map (bind_piece (S k)) ps)) as Hskip.
  { intros s -> -> Hs. rewrite Ho. rewrite replace_go_skip by done. by rewrite <- Ho, IH. }
  destruct p as [s|c|n]; [by eapply Hskip..|]. cbn [bind_piece] in *.
  destruct (decide (n <= k)%nat) as [Hn|Hn].
  { apply (Hskip "?"); [by rewrite bool_decide_eq_true_2|by rewrite bool_decide_eq_true_2 by lia|done]. }
  rewrite (bool_decide_eq_false_2 (n <= k)%nat) by done. cbn [piece_text].
  destruct (decide (n = S k)) as [->|Hne].
  - rewrite bool_decide_eq_true_2 by done. fold old.
    rewrite Ho, replace_go_match. by rewrite <- Ho, IH.
  - rewrite bool_decide_eq_false_2 by lia.
    assert (HasPrefix (("{arg" +:+ pretty (Z.of_nat n) +:+ "}")
                       +:+ String.concat "" (map (bind_piece k) ps)) old = false) as Hmiss.
    { unfold old. rewrite !append_assoc. rewrite arg_prefix. by apply bool_decide_eq_false_2. }
    rewrite Ho in Hmiss |- *.
    change ("{arg" +:+ pretty (Z.of_nat n) +:+ "}") with (String "{" ("arg" +:+ pretty (Z.of_nat n) +:+ "}")) in *.
    rewrite replace_go_miss; [by rewrite <- Ho, IH|done|].
    cbn. rewrite has_byte_append. cbn.
    by rewrite (all_bytes_has_byte is_digit "{" _ (pretty_nat_digits n) eq_refl).
Qed.

Lemma replace_params_pieces (n k : nat) (ps : list piece) :
  Forall (piece_ok cols) ps ->
  replace_params k n (String.concat "" (map (bind_piece k) ps))
  = String.concat "" (map (bind_piece (k + n)) ps).
Proof using Hcols.
  intros Hps. revert k. induction n as [|n IH]; intros k; cbn [replace_params].
  - by rewrite Nat.add_0_r.
  - rewrite Nat.add_1_r, replace_pieces, IH by done. by rewrite <- Nat.add_succ_comm.
Qed.

Lemma bind_pieces_0 (ps : list piece) (n : nat) :
  omap piece_arg ps = seq 1 n -> map (bind_piece 0) ps = map piece_text ps.
Proof.
  intros Hseq. apply map_ext_in. intros p Hp. destruct p as [| |m]; [done..|]. cbn [bind_piece].
  rewrite bool_decide_eq_false_2; [done|].
  assert (m ∈ omap piece_arg ps) as Hm.
  { apply list_elem_of_omap. exists (PArg m). split; [by apply list_elem_of_In|done]. }
  rewrite Hseq in Hm. apply elem_of_seq in Hm. lia.
Qed.

Lemma count_bound_pieces (ps : list piece) (n : nat) :
  Forall (piece_ok cols) ps -> (forall m, m ∈ omap piece_arg ps -> (m <= n)%nat) ->
  count_byte "?" (String.concat "" (map (bind_piece n) ps)) = length (omap piece_arg ps).
Proof using Hcols.
  induction 1 as [|p ps Hp Hps IH]; intros Hle; [done|].
  cbn [map]. rewrite concat_cons, count_byte_append.
  destruct p as [s|c|m]; cbn [piece_ok omap list_omap piece_arg bind_piece piece_text] in *.
  - rewrite count_byte_none by by apply vocabulary_bytes. by apply IH.
  - rewrite count_byte_none; [by apply IH|].
    apply plain_has_byte; [done|]. rewrite Forall_forall in Hcols. by apply Hcols.
  - rewrite bool_decide_eq_true_2 by (apply Hle; set_solver).
    rewrite IH; [done|]. intros x Hx. apply Hle. set_solver.
Qed.

Lemma outside_vocabulary (s : string) (d d' : nat) :
  s ∈ sql_vocabulary -> scan1 d (PText s) = Some d' ->
  exists t, outside d s = Some (d', t) /\ has_byte "R" t = false.
Proof.
  intros Hs. unfold sql_vocabulary, sql_opening, sql_closing, sql_plain in Hs. cbn [app] in Hs.
  rewrite !elem_of_cons, elem_of_nil in Hs.
  repeat (destruct Hs as [->|Hs];
    [destruct d as [|[|d]]; intros [= <-]; by (eexists; split; [reflexivity|])|]). done.
Qed.

Lemma outside_bound_pieces (ps : list piece) (n d d' : nat) :
  Forall (piece_ok cols) ps -> (forall m, m ∈ omap piece_arg ps -> (m <= n)%nat) ->
  scan d ps = Some d' ->
  exists t, outside d (String.concat "" (map (bind_piece n) ps)) = Some (d', t) /\ has_byte "R" t = false.
Proof using Hcols.
  intros Hps. revert d. induction Hps as [|p ps Hp Hps IH]; intros d Hle Hscan.
  - injection Hscan as <-. by eexists.
  - cbn [scan] in Hscan. apply bind_Some in Hscan as (d1 & H1 & H2).
    cbn [map]. rewrite concat_cons, outside_append.
    assert (exists u, outside d (bind_piece n p) = Some (d1, u) /\ has_byte "R" u = false) as (u & Hu & HR).
    { destruct p as [s|c|m]; cbn [piece_ok bind_piece piece_text] in *.
      - by apply outside_vocabulary.
      - injection H1 as <-. rewrite Forall_forall in Hcols. rewrite outside_plain by by apply Hcols.
        eexists. split; [done|]. destruct d; [|done]. apply plain_has_byte; [done|by apply Hcols].
      - injection H1 as <-. rewrite bool_decide_eq_true_2 by (apply Hle; set_solver).
        exists (match d with O => "?" | S _ => "" end). split; by destruct d. }
    destruct (IH d1) as (v & Hv & HR'); [|done|].
    { intros m Hm. apply Hle. destruct p; set_solver. }
    rewrite Hu. cbn [mbind option_bind]. rewrite Hv. cbn [mbind option_bind].
    eexists. split; [done|]. by rewrite has_byte_append, HR.
Qed.

(** The condition of a filter is well formed once its parameters are bound. *)
Lemma parameterised_wf (sql : string) (args : list sqlArg) :
  parameterised cols sql args -> cond_wf (replace_params 0 (length args) sql, map QVal args).
Proof using Hcols.
  intros (ps & -> & Hps & Hseq & Hscan).
  rewrite <- (bind_pieces_0 ps (length args)) by done.
  rewrite replace_params_pieces by done. cbn [Nat.add].
  assert (forall m, m ∈ omap piece_arg ps -> (m <= length args)%nat) as Hle.
  { intros m. rewrite Hseq, elem_of_seq. lia. }
  split; cbn [fst snd].
  - rewrite count_bound_pieces, Hseq, length_seq, length_map by done. done.
  - by apply outside_bound_pieces.
Qed.
End Replace.

Lemma audit_columns_plain : Forall (fun c => all_bytes plain_byte c = true) audit_columns.
Proof. repeat (constructor; [reflexivity|]). constructor. Qed.
Lemma activity_columns_plain : Forall (fun c => all_bytes plain_byte c = true) activity_columns.
Proof. repeat (constructor; [reflexivity|]). constructor. Qed.

Definition text_ok (s : string) : bool :=
  match outside 0 s with Some (O, t) => negb (has_byte "R" t) | _ => false end.

Lemma cond_wf_const (s : string) (args : list qarg) :
  count_byte "?" s = length args -> text_ok s = true -> cond_wf (s, args).
Proof.
  unfold text_ok. intros Hn Ht. split; [done|]. cbn [fst].
  destruct (outside 0 s) as [[[|] t]|]; [|done..]. exists t. split; [done|]. by breflect.
Qed.

(** A condition with a constant text. *)
Ltac wf_const := apply cond_wf_const; [reflexivity|vm_compute; reflexivity].

Ltac wf_consts := repeat first [apply List.Forall_nil | apply List.Forall_cons; [wf_const|]].

Lemma audit_scope_wf scope : Forall cond_wf (audit_scope scope).
Proof. unfold audit_scope. case_split; wf_consts. Qed.
Lemma activity_scope_wf scope : Forall cond_wf (activity_scope scope).
Proof. unfold activity_scope. case_split; wf_consts. Qed.
Lemma search_cond_wf s : Forall cond_wf (search_cond s).
Proof. unfold search_cond. case_split; wf_consts. Qed.
Lemma cursor_cond_wf k t s : k ∈ ["audit_id"; "activity_name"] -> cond_wf (cursor_cond k t s).
Proof.
  rewrite !elem_of_cons, elem_of_nil. intros [->|[->|[]]]; wf_const.
Qed.

Lemma time_bound_wf value text field now cs :
  time_bound value text field now = Ok cs -> (forall q, cond_wf (text, [q])) -> Forall cond_wf cs.
Proof.
  unfold time_bound. intros H Hwf. destruct (value =? "")%string; [by injection H as <-|].
  inv_res. by constructor.
Qed.

Lemma time_range_wf s e now cs :
  time_range s e "timestamp" now = Ok cs -> Forall cond_wf cs.
Proof.
  unfold time_range. intros H. inv_res. apply Forall_app. split.
  - eapply time_bound_wf; [done|]. intros q. wf_const.
  - eapply time_bound_wf; [done|]. intros q. wf_const.
Qed.

Lemma count_concat_and cs :
  Forall cond_wf cs ->
  count_byte "?" (String.concat " AND " (map fst cs)) = length (cond_args cs).
Proof.
  induction 1 as [|c cs [Hc _] Hcs IH]; [done|]. unfold cond_args in *. cbn [map List.concat].
  rewrite length_app, <- IH, <- Hc. destruct cs as [|c' cs]; [cbn; lia|].
  change (String.concat " AND " (fst c :: map fst (c' :: cs)))
    with (fst c +:+ (" AND " +:+ String.concat " AND " (map fst (c' :: cs)))).
  by rewrite !count_byte_append.
Qed.

Lemma count_where cs : Forall cond_wf cs -> count_byte "?" (where_clause cs) = length (cond_args cs).
Proof.
  intros Hcs. destruct cs as [|c cs]; [done|]. unfold where_clause.
  rewrite count_byte_append, count_concat_and by done. done.
Qed.

Lemma pretty_Z_plain (z : Z) : has_byte "?" (pretty z) = false.
Proof.
  assert (forall n : N, has_byte "?" (pretty n) = false) as Hn.
  { intros n. by apply (all_bytes_has_byte is_digit); [apply pretty_N_spec|]. }
  destruct z as [|p|p]; [done|exact (Hn (N.pos p))|]. exact (Hn (N.pos p)).
Qed.

Section Texts.
Context `{FilterLib} `{CursorLib}.

Lemma audit_filter_wf f cs : filter_cond ConvertToClickHouseSQL f = Ok cs -> Forall cond_wf cs.
Proof.
  unfold filter_cond. intros Hf. destruct (f =? "")%string; [by injection Hf as <-|].
  apply res_bind_ok in Hf as ([w a] & Hconv & Hf). destruct (w =? "")%string; injection Hf as <-; [done|].
  constructor; [|done]. apply (parameterised_wf audit_columns audit_columns_plain).
  by apply (convert_parameterised f).
Qed.

Lemma activity_filter_wf f cs : filter_cond ConvertActivityToClickHouseSQL f = Ok cs -> Forall cond_wf cs.
Proof.
  unfold filter_cond. intros Hf. destruct (f =? "")%string; [by injection Hf as <-|].
  apply res_bind_ok in Hf as ([w a] & Hconv & Hf). destruct (w =? "")%string; injection Hf as <-; [done|].
  constructor; [|done]. apply (parameterised_wf activity_columns activity_columns_plain).
  by apply (convert_parameterised f).
Qed.

Lemma audit_conditions_wf now clock spec scope cs :
  audit_conditions now clock spec scope = Ok cs ->
  Forall cond_wf cs /\ exists cs', cs = audit_scope scope ++ cs'.
Proof.
  unfold audit_conditions. intros Hcs.
  apply res_bind_ok in Hcs as (range & Hrange & Hcs). apply res_bind_ok in Hcs as (fc & Hfc & Hcs).
  apply res_bind_ok in Hcs as (cur & Hcur & Hcs). injection Hcs as <-.
  split; [|by eexists]. rewrite !Forall_app. split_and!.
  - apply audit_scope_wf.
  - by eapply time_range_wf.
  - by eapply audit_filter_wf.
  - destruct (aq_Continue spec =? "")%string; [by injection Hcur as <-|].
    apply res_bind_ok in Hcur as ([t id] & _ & [= <-]). constructor; [|done].
    apply cursor_cond_wf. by_decide.
Qed.

Lemma activity_conditions_wf now clock spec scope cs :
  activity_conditions now clock spec scope = Ok cs ->
  Forall cond_wf cs /\ exists cs', cs = activity_scope scope ++ cs'.
Proof.
  unfold activity_conditions. intros Hcs.
  apply res_bind_ok in Hcs as (range & Hrange & Hcs). apply res_bind_ok in Hcs as (fc & Hfc & Hcs).
  apply res_bind_ok in Hcs as (cur & Hcur & Hcs). injection Hcs as <-.
  split; [|by eexists]. rewrite !Forall_app. split_and!.
  - apply activity_scope_wf.
  - by eapply time_range_wf.
  - apply search_cond_wf.
  - by eapply activity_filter_wf.
  - destruct (Continue_ spec =? "")%string; [by injection Hcur as <-|].
    apply res_bind_ok in Hcur as ([t id] & _ & [= <-]). constructor; [|done].
    apply cursor_cond_wf. by_decide.
Qed.

Lemma count_audit_order scope f : count_byte "?" (audit_order scope f) = O.
Proof. unfold audit_order. by case_split. Qed.

Lemma count_limit n : count_byte "?" (limit_clause n) = O.
Proof.
  unfold limit_clause. by rewrite count_byte_append, (count_byte_none _ (pretty _)) by apply pretty_Z_plain.
Qed.
End Texts.

(** A query text made of a head, the joined conditions and a tail: those of the
    scope first, all of them well formed, their arguments in order, and no
    other placeholder. *)
Definition sound_query (scope : list cond) (q : string) (args : list qarg) : Prop :=
  exists head cs tail, q = head +:+ where_clause (scope ++ cs) +:+ tail
    /\ args = cond_args (scope ++ cs) /\ Forall cond_wf (scope ++ cs)
    /\ count_byte "?" q = length args.

(** A scope that restricts: its conditions mention its name. *)
Definition restricts (scope : ScopeContext) (cs : list cond) : Prop :=
  (sc_Type scope = TenantTypePlatform /\ cs = [])
  \/ (sc_Type scope <> TenantTypePlatform /\ exists c, c ∈ cs /\ qstr (sc_Name scope) ∈ snd c).

Lemma sound_query_intro head scope cs cs' tail :
  cs = scope ++ cs' -> Forall cond_wf cs ->
  has_byte "?" head = false -> count_byte "?" tail = O ->
  sound_query scope (head +:+ where_clause cs +:+ tail) (cond_args cs).
Proof.
  intros -> Hcs Hh Ht. exists head, cs', tail. split_and!; [done..|].
  by rewrite !count_byte_append, count_where, (count_byte_none _ _ Hh), Ht, Nat.add_0_r.
Qed.

Lemma Ok_pair_inj {A B} (a a' : A) (b b' : B) : Ok (a, b) = Ok (a', b') -> a' = a /\ b' = b.
Proof. by intros [= -> ->]. Qed.

Lemma audit_scope_restricts scope : restricts scope (audit_scope scope).
Proof.
  unfold audit_scope, restricts. destruct (String.eqb_spec (sc_Type scope) TenantTypePlatform); [by left|].
  right. split; [done|]. destruct (_ =? _)%string; eexists;
    [split; [left|cbn [snd]; left]|split; [right; left|cbn [snd]; left]].
Qed.

Lemma activity_scope_restricts scope : restricts scope (activity_scope scope).
Proof.
  unfold activity_scope, restricts. destruct (String.eqb_spec (sc_Type scope) TenantTypePlatform); [by left|].
  right. split; [done|]. destruct (_ =? _)%string; eexists;
    [split; [left|cbn [snd]; left]|split; [right; left|cbn [snd]; left]].
Qed.

Lemma facet_column_plain table what f c :
  facet_column table what f = Ok c -> Forall (fun kv => has_byte "?" (snd kv) = false) table ->
  has_byte "?" c = false.
Proof.
  unfold facet_column. intros Hc Ht. destruct (assoc table f) as [col|] eqn:E; [|done].
  injection Hc as <-. induction Ht as [|[k v] t Hk Ht IH]; [done|]. cbn [assoc] in E.
  destruct (f =? k)%string; [by injection E as <-|by apply IH].
Qed.

(** C14: every query of the service is parameterised and scoped: its
    placeholders are as many as its arguments, which are those of its conditions
    in order; conditions cannot capture one another - parentheses match and no
    [OR] is outside them, whatever the filter; and unless the scope is the
    platform's, the conditions of the scope come first and carry its name. *)
Theorem queries_sound `{FilterLib} `{CursorLib} (config : ClickHouseConfig) (now clock : time)
    (scope : ScopeContext) (q : string) (args : list qarg) :
  has_byte "?" (Database config) = false ->
  (restricts scope (audit_scope scope) /\ restricts scope (activity_scope scope))
  /\ (forall spec, buildQuery config now clock spec scope = Ok (q, args) ->
        sound_query (audit_scope scope) q args)
  /\ (forall spec, buildActivityQuery config now clock spec scope = Ok (q, args) ->
        sound_query (activity_scope scope) q args)
  /\ (forall f spec, audit_facet_query config now f spec scope = Ok (q, args) ->
        sound_query (audit_scope scope) q args)
  /\ (forall f spec, activity_facet_query config now f spec scope = Ok (q, args) ->
        sound_query (activity_scope scope) q args).
Proof.
  intros Hdb.
  split; [split; [apply audit_scope_restricts|apply activity_scope_restricts]|].
  split_and!.
  - intros spec Hq. apply res_bind_ok in Hq as (cs & Hcs & [-> ->]%Ok_pair_inj).
    apply audit_conditions_wf in Hcs as (Hwf & cs' & Hcs).
    rewrite <- !(append_assoc _ _ (where_clause _ +:+ _)).
    eapply sound_query_intro; [done|done| |by rewrite count_byte_append, count_audit_order, count_limit].
    by rewrite !has_byte_append, Hdb.
  - intros spec Hq. apply res_bind_ok in Hq as (cs & Hcs & [-> ->]%Ok_pair_inj).
    apply activity_conditions_wf in Hcs as (Hwf & cs' & Hcs).
    rewrite <- !(append_assoc _ _ (where_clause _ +:+ _)).
    eapply sound_query_intro; [done|done| |by rewrite count_byte_append, count_limit].
    by rewrite !has_byte_append, Hdb.
  - intros f spec Hq. apply res_bind_ok in Hq as (col & Hcol & Hq).
    apply res_bind_ok in Hq as (range & Hrange & Hq).
    apply res_bind_ok in Hq as (fc & Hfc & [-> ->]%Ok_pair_inj).
    apply facet_column_plain in Hcol; [|by repeat constructor].
    rewrite <- !(append_assoc _ _ (where_clause _ +:+ _)).
    eapply sound_query_intro; [done| | |].
    + rewrite !Forall_app. split_and!; [apply audit_scope_wf|by eapply time_range_wf|by eapply audit_filter_wf].
    + by rewrite !has_byte_append, Hdb, Hcol.
    + rewrite !count_byte_append, (count_byte_none _ _ Hcol), (count_byte_none _ (pretty _)); [done|].
      apply pretty_Z_plain.
  - intros f spec Hq. apply res_bind_ok in Hq as (col & Hcol & Hq).
    apply res_bind_ok in Hq as (range & Hrange & Hq).
    apply res_bind_ok in Hq as (fc & Hfc & [-> ->]%Ok_pair_inj).
    apply facet_column_plain in Hcol; [|by repeat constructor].
    rewrite <- !(append_assoc _ _ (where_clause _ +:+ _)).
    eapply sound_query_intro; [done| | |].
    + rewrite !Forall_app. split_and!; [apply activity_scope_wf|by eapply time_range_wf|by eapply activity_filter_wf].
    + by rewrite !has_byte_append, Hdb, Hcol.
    + rewrite !count_byte_append, (count_byte_none _ _ Hcol), (count_byte_none _ (pretty _)); [done|].
      apply pretty_Z_plain.
Qed.

(* ------------------------------------------------------------------ *)
(** ** Cursors and pages *)

(** Times [time.Time] marshals to JSON: years 0 to 9999 (here from year 1). *)
Definition json_time (t : time) : Prop := (0 <= t < 315537897600 * nano)%Z.

(** What the code relies on in base64 and JSON. *)
Class CursorLaws `{CursorLib} := {
  b64_round s : b64_decode (b64_encode s) = inr s;
  b64_nonempty s : s <> "" -> b64_encode s <> "";
  cursor_round c : json_time (c_Timestamp c) -> json_time (IssuedAt c) ->
    json_unmarshal_cursor (json_marshal_cursor c) = inr c;
  acursor_round c : json_time (c_Timestamp c) -> json_time (IssuedAt c) ->
    json_unmarshal_acursor (json_marshal_acursor c) = inr c;
  acursor_nonempty c : json_time (c_Timestamp c) -> json_time (IssuedAt c) ->
    json_marshal_acursor c <> "" }.

Lemma pretty_Z_bytes (c : ascii) (z : Z) :
  is_digit c = false -> c <> "-"%char -> has_byte c (pretty z) = false.
Proof.
  intros Hc Hm.
  assert (forall n : N, has_byte c (pretty n) = false) as Hn.
  { intros n. apply (all_bytes_has_byte is_digit); [apply pretty_N_spec|done]. }
  destruct z as [|p|p]; [exact (Hn 0%N)|exact (Hn (N.pos p))|].
  change (pretty (Z.neg p)) with (String "-" (pretty (N.pos p))). cbn [has_byte].
  rewrite Hn, orb_false_r. apply Ascii.eqb_neq. congruence.
Qed.

(** The last separator of a text is where its last field starts. *)
Lemma last_sep_inj (c : ascii) (a a' d d' : string) :
  has_byte c d = false -> has_byte c d' = false ->
  a +:+ String c d = a' +:+ String c d' -> a = a' /\ d = d'.
Proof.
  intros Hd Hd' E. apply (f_equal (Split c)) in E. rewrite !Split_append in E.
  rewrite (Split_no_sep c d), (Split_no_sep c d') in E by done.
  apply app_inj_tail in E as [E ->]. split; [|done]. by apply (Split_inj c).
Qed.

(** A position in the order of the activity query, and the condition of
    [cursor_cond] on a row. *)
Record arow := { r_ts : time; r_name : string; r_doc : string }.
Definition toStartOfHour (t : time) : Z := (t / Hour)%Z.
Definition after_cursor (t : time) (name : string) (r : arow) : bool :=
  ((toStartOfHour (r_ts r) <? toStartOfHour t)%Z
   || ((toStartOfHour (r_ts r) =? toStartOfHour t)%Z && (r_ts r <? t)%Z)
   || ((r_ts r =? t)%Z && String.ltb (r_name r) name))%bool.

(** Descending in time, then in name: the order of [activity_order]. *)
Definition row_before (r r' : arow) : Prop :=
  (r_ts r' < r_ts r)%Z \/ (r_ts r' = r_ts r /\ String.ltb (r_name r') (r_name r) = true).

(** The three-level condition is the lexicographic order. *)
Lemma after_cursor_spec (c r : arow) :
  after_cursor (r_ts c) (r_name c) r = true <-> row_before c r.
Proof.
  unfold after_cursor, row_before, toStartOfHour.
  rewrite !orb_true_iff, !andb_true_iff, !Z.ltb_lt, !Z.eqb_eq.
  assert (0 < Hour)%Z by done.
  pose proof (Z.div_le_mono (r_ts c) (r_ts r) Hour ltac:(done)).
  pose proof (Z.div_le_mono (r_ts r) (r_ts c) Hour ltac:(done)). split.
  - intros [[?|[? ?]]|[? ?]]; [left; lia|by left|by right].
  - intros [?|[? ?]]; [|by right]. left.
    destruct (Z.eq_dec (r_ts r / Hour) (r_ts c / Hour)); [by right|left; lia].
Qed.

Lemma ltb_asym (a b : string) : String.ltb a b = true -> String.ltb b a = false.
Proof.
  unfold String.ltb. rewrite (String.compare_antisym b a).
  by destruct (String.compare a b).
Qed.

Lemma row_before_asym (r r' : arow) : row_before r r' -> ~ row_before r' r.
Proof.
  unfold row_before. intros [?|[? H]] [?|[? H']]; [lia..|]. apply ltb_asym in H. congruence.
Qed.

(** Resuming after a row of a sorted table gives the rows that follow it. *)
Lemma resume_after (P R : list arow) (r : arow) :
  StronglySorted row_before (P ++ r :: R) ->
  List.filter (after_cursor (r_ts r) (r_name r)) (P ++ r :: R) = R.
Proof.
  intros Hs. rewrite List.filter_app. induction P as [|p P IH].
  - cbn [app] in Hs |- *. apply StronglySorted_inv in Hs as [Hs Hall]. cbn [List.filter app].
    destruct (after_cursor (r_ts r) (r_name r) r) eqn:E.
    { apply after_cursor_spec in E. by destruct (row_before_asym _ _ E). }
    clear E Hs. induction Hall as [|x R Hx Hall IH]; [done|]. cbn [List.filter].
    apply after_cursor_spec in Hx. by rewrite Hx, IH.
  - cbn [app] in Hs. apply StronglySorted_inv in Hs as [Hs Hall]. cbn [List.filter app].
    destruct (after_cursor (r_ts r) (r_name r) p) eqn:E; [|by apply IH].
    apply after_cursor_spec in E. rewrite Forall_forall in Hall.
    destruct (row_before_asym _ _ E). apply Hall. set_solver.
Qed.

Section CursorFacts.
Context `{CursorLib} `{!CursorLaws}.

Lemma decode_encode_audit (now issued t : time) (id : string) (spec spec' : AuditLogQuerySpec) :
  json_time t -> json_time issued -> issued <> 0%Z ->
  decodeCursor now (encodeCursor issued t id spec) spec'
  = if (hashQueryParams spec =? hashQueryParams spec')%string then
      if (cursorTTL <? now - issued)%Z then Err (cursor_expired "cursor expired") else Ok (t, id)
    else Err (Errorf [PStr "cannot use cursor because query parameters changed. Start a new query without the continueAfter parameter"]).
Proof using All.
  intros Ht Hi Hz. unfold decodeCursor, encodeCursor. rewrite b64_round.
  cbn [of_sum wrap_err res_bind]. rewrite cursor_round by done. cbn [of_sum wrap_err res_bind QueryHash IssuedAt c_Timestamp c_Key].
  destruct (_ =? _)%string; [|done]. cbn [negb]. unfold IsZero. apply Z.eqb_neq in Hz. by rewrite Hz.
Qed.

Lemma decode_encode_activity (now issued t : time) (doc name s : string) (spec spec' : ActivityQuerySpec) :
  json_activity_meta doc = inr (name, s) -> Parse_RFC3339 s = Some t -> name <> "" ->
  json_time t -> json_time issued ->
  decodeActivityCursor now (encodeActivityCursor issued doc spec) spec'
  = if (hashActivityQueryParams spec =? hashActivityQueryParams spec')%string then
      if (cursorTTL <? now - issued)%Z then Err (cursor_expired "the continue token expired") else Ok (t, name)
    else Err (Errorf [PStr "query parameters changed since the continue token was issued. Remove the continue parameter and use consistent query parameters when paginating"]).
Proof using All.
  intros Hdoc Hs Hne Ht Hi. unfold decodeActivityCursor, encodeActivityCursor. rewrite Hdoc, Hs. cbn [default].
  rewrite b64_round. cbn [of_sum wrap_err res_bind]. rewrite acursor_round by done.
  cbn [of_sum wrap_err res_bind QueryHash IssuedAt c_Timestamp c_Key].
  apply String.eqb_neq in Hne. rewrite Hne.
  destruct (hashActivityQueryParams spec =? hashActivityQueryParams spec')%string; reflexivity.
Qed.

Lemma activity_cursor_nonempty (issued t : time) (doc name s : string) (spec : ActivityQuerySpec) :
  json_activity_meta doc = inr (name, s) -> Parse_RFC3339 s = Some t -> json_time t -> json_time issued ->
  encodeActivityCursor issued doc spec <> "".
Proof using All.
  intros Hdoc Hs Ht Hi. unfold encodeActivityCursor. rewrite Hdoc, Hs.
  apply b64_nonempty. by apply acursor_nonempty.
Qed.

Lemma b64_inj (a b : string) : b64_encode a = b64_encode b -> a = b.
Proof using All. intros E. apply (f_equal b64_decode) in E. rewrite !b64_round in E. by injection E. Qed.
End CursorFacts.

(** Audit cursors are bound to their query and expire: a cursor decodes to
    the position it was made for when it is at most one hour old and presented
    with a query of the same hash; it is refused after that, and with any query
    of another hash.  As far as SHA-256 does not collide, the same hash means
    the same start, end, filter and limit. *)
Theorem audit_cursor_bound `{CursorLib} `{!CursorLaws} (issued now t : time) (id : string)
    (spec spec' : AuditLogQuerySpec) :
  json_time t -> json_time issued -> issued <> 0%Z ->
  (decodeCursor now (encodeCursor issued t id spec) spec' = Ok (t, id)
   <-> hashQueryParams spec = hashQueryParams spec' /\ (now - issued <= Hour)%Z)
  /\ (is_ok (decodeCursor now (encodeCursor issued t id spec) spec') = true ->
      (forall a b, sha256_16 a = sha256_16 b -> a = b) ->
      Forall (fun s => has_byte "|" s = false)
        [aq_StartTime spec; aq_EndTime spec; aq_StartTime spec'; aq_EndTime spec'] ->
      aq_StartTime spec = aq_StartTime spec' /\ aq_EndTime spec = aq_EndTime spec'
      /\ aq_Filter spec = aq_Filter spec' /\ aq_Limit spec = aq_Limit spec').
Proof.
  intros Ht Hi Hz. rewrite (decode_encode_audit now issued t id spec spec') by done.
  destruct (String.eqb_spec (hashQueryParams spec) (hashQueryParams spec')) as [E|E].
  - unfold cursorTTL. destruct (Z.ltb_spec Hour (now - issued)).
    { split; [|done]. split; [done|]. intros [_ ?]. lia. }
    split; [by split|]. intros _ Hsha Hbar. unfold hashQueryParams in E. apply b64_inj, Hsha in E.
    rewrite !Forall_cons in Hbar. destruct Hbar as (Hs & He & Hs' & He' & _).
    apply (sep_inj "|") in E as [-> E]; [|done..]. apply (sep_inj "|") in E as [-> E]; [|done..].
    apply (last_sep_inj "|") in E as [-> E]; [|by apply pretty_Z_bytes..].
    by apply (inj pretty) in E as ->.
  - split; [|done]. split; [done|]. by intros [? _].
Qed.

(** The activity hash does not separate the filter from the search: two
    different queries have one hash, whatever the hash function. *)
Lemma activity_hash_ambiguous `{CursorLib} :
  let spec f s := {| StartTime := "now-1h"; EndTime := "now"; Search := s; Filter := f; Limit := 10;
                     Continue_ := "" |} in
  hashActivityQueryParams (spec "spec.summary == 'a' || spec.summary == 'b'" "")
  = hashActivityQueryParams (spec "spec.summary == 'a' " "| spec.summary == 'b'|").
Proof. reflexivity. Qed.

(* ------------------------------------------------------------------ *)
(** ** Listing every page of a query *)

Section Pages.
Context `{FilterLib} `{CursorLib} `{!CursorLaws} `{ClickHouse} (config : ClickHouseConfig).
Context (tp : option string) (scope : ScopeContext).

(** The clocks of request number [i]: parsing, cursor check, token issue. *)
Record page_clock := { pc_now : time; pc_check : time; pc_issue : time }.
Context (clocks : nat -> page_clock).

Definition with_continue (spec : ActivityQuerySpec) (token : string) : ActivityQuerySpec :=
  {| StartTime := StartTime spec; EndTime := EndTime spec; Search := Search spec;
     Filter := Filter spec; Limit := Limit spec; Continue_ := token |}.

(** A client that follows continue tokens to the end, from request [i]; [None]
    when the requests run out. *)
Fixpoint list_activities (fuel i : nat) (spec : ActivityQuerySpec) : res (option (list string)) :=
  match fuel with
  | O => Ok None
  | S fuel' =>
      let c := clocks i in
      let? r := QueryActivities config tp (pc_now c) (pc_check c) (pc_issue c) spec scope in
      if (ar_Continue r =? "")%string then Ok (Some (Activities r))
      else
        let? rest := list_activities fuel' (S i) (with_continue spec (ar_Continue r)) in
        Ok (option_map (app (Activities r)) rest)
  end.

Definition page_conds (cs : list cond) (cursor : option arow) : list cond :=
  cs ++ match cursor with Some r => [cursor_cond "activity_name" (r_ts r) (r_name r)] | None => [] end.

(** ClickHouse on a table whose rows satisfying [cs] are [T] in the order of
    the query: [WHERE], [ORDER BY] and [LIMIT] as documented. *)
Definition answers (cs : list cond) (T : list arow) (limit : Z) : Prop :=
  forall cursor,
  let conds := page_conds cs cursor in
  let rest := match cursor with Some r => List.filter (after_cursor (r_ts r) (r_name r)) T | None => T end in
  ch_query (traced tp ("SELECT activity_json FROM " +:+ Database config +:+ ".activities"
              +:+ where_clause conds +:+ activity_order +:+ limit_clause limit)) (cond_args conds)
  = inr {| scanned := map (fun r => inr (r_doc r)) (take (Z.to_nat (limit + 1)) rest); rows_err := None |}.

(** The document of a row says its name and time. *)
Definition row_ok (r : arow) : Prop :=
  r_name r <> "" /\ json_time (r_ts r)
  /\ exists s, json_activity_meta (r_doc r) = inr (r_name r, s) /\ Parse_RFC3339 s = Some (r_ts r).

Lemma scan_rows_ok {A} (e : error) (l : list A) : scan_rows e (map inr l) = Ok l.
Proof. induction l as [|a l IH]; [done|]. cbn. by rewrite IH. Qed.

Lemma last_take_snoc {A} (l : list A) (n : nat) :
  (0 < n < length l)%nat -> exists P x R, l = P ++ x :: R /\ take n l = P ++ [x].
Proof.
  intros Hn. destruct (lookup_lt_is_Some_2 l (pred n)) as [x Hx]; [lia|].
  exists (take (pred n) l), x, (drop n l). split.
  - replace n with (S (pred n)) at 2 by lia. symmetry. by apply take_drop_middle.
  - replace n with (S (pred n)) at 1 by lia. by apply take_S_r.
Qed.

(** The conditions of a spec without its cursor. *)
Definition base_conds (spec : ActivityQuerySpec) (range fc : list cond) : list cond :=
  activity_scope scope ++ range ++ search_cond (Search spec) ++ fc.

(** One request: the rows that remain, cut to a page. *)
Lemma query_page (spec : ActivityQuerySpec) (range fc : list cond) (T R : list arow) (limit : Z)
    (i : nat) (tok : string) (cursor : option arow) :
  page_limit config (Limit spec) = limit ->
  time_range (StartTime spec) (EndTime spec) "timestamp" (pc_now (clocks i)) = Ok range ->
  filter_cond ConvertActivityToClickHouseSQL (Filter spec) = Ok fc ->
  answers (base_conds spec range fc) T limit ->
  match cursor with
  | None => tok = "" /\ T = R
  | Some c => tok <> "" /\ List.filter (after_cursor (r_ts c) (r_name c)) T = R
      /\ decodeActivityCursor (pc_check (clocks i)) tok (with_continue spec tok) = Ok (r_ts c, r_name c)
  end ->
  QueryActivities config tp (pc_now (clocks i)) (pc_check (clocks i)) (pc_issue (clocks i))
    (with_continue spec tok) scope
  = let? (docs, last_) := cut_page (map r_doc (take (Z.to_nat (limit + 1)) R)) limit in
    Ok {| Activities := docs;
          ar_Continue := match last_ with
                         | Some d => encodeActivityCursor (pc_issue (clocks i)) d (with_continue spec tok)
                         | None => ""
                         end |}.
Proof.
  intros Hl Hrange Hfc Hans Hcur.
  assert (buildActivityQuery config (pc_now (clocks i)) (pc_check (clocks i)) (with_continue spec tok) scope
    = Ok ("SELECT activity_json FROM " +:+ Database config +:+ ".activities"
            +:+ where_clause (page_conds (base_conds spec range fc) cursor) +:+ activity_order
            +:+ limit_clause limit, cond_args (page_conds (base_conds spec range fc) cursor))) as Hb.
  { unfold buildActivityQuery, activity_conditions.
    cbn [StartTime EndTime Filter Search Limit Continue_ with_continue].
    rewrite Hrange, Hfc, Hl. cbn [res_bind]. unfold base_conds, page_conds. destruct cursor as [c|].
    - destruct Hcur as (Hne & _ & Hdec). apply String.eqb_neq in Hne. rewrite Hne, Hdec.
      cbn [res_bind]. by rewrite <- !app_assoc.
    - destruct Hcur as [-> _]. cbn [String.eqb res_bind]. by rewrite <- !app_assoc. }
  unfold QueryActivities. rewrite Hb. cbn [res_bind]. rewrite Hans.
  cbn [of_sum wrap_err res_bind]. unfold read_rows. cbn [scanned rows_err].
  cbn [Limit with_continue]. rewrite Hl.
  assert (match cursor with
          | Some r => List.filter (after_cursor (r_ts r) (r_name r)) T | None => T end = R) as ->
    by by destruct cursor; destruct Hcur as (? & ?); [destruct_and?|].
  rewrite <- map_map, scan_rows_ok. reflexivity.
Qed.

Lemma cut_page_all {A} (l : list A) (limit : Z) :
  (0 < limit < 2 ^ 31 - 1)%Z -> (Z.of_nat (length l) <= limit)%Z -> cut_page l limit = Ok (l, None).
Proof.
  intros Hl Hlen. unfold cut_page. rewrite wrap32_id by lia.
  destruct (Z.ltb_spec limit (Z.of_nat (length l))); [lia|done].
Qed.

Lemma cut_page_more {A} (P : list A) (x y : A) (limit : Z) :
  (0 < limit < 2 ^ 31 - 1)%Z -> Z.of_nat (length (P ++ [x])) = limit ->
  cut_page (P ++ [x; y]) limit = Ok (P ++ [x], Some x).
Proof.
  intros Hl Hlen. unfold cut_page. rewrite length_app in *. cbn [length] in *.
  rewrite wrap32_id by lia.
  destruct (Z.ltb_spec limit (Z.of_nat (length P + 2))); [|lia].
  destruct (Z.ltb_spec limit 0); [lia|].
  replace (Z.to_nat limit) with (length (P ++ [x])) by (rewrite length_app; cbn [length]; lia).
  replace (P ++ [x; y]) with ((P ++ [x]) ++ [y]) by by rewrite <- app_assoc.
  by rewrite take_app_length, last_snoc.
Qed.

Lemma list_pages (spec : ActivityQuerySpec) (range fc : list cond) (T : list arow) (limit : Z) :
  page_limit config (Limit spec) = limit -> (0 < limit < 2 ^ 31 - 1)%Z ->
  (forall i, time_range (StartTime spec) (EndTime spec) "timestamp" (pc_now (clocks i)) = Ok range) ->
  filter_cond ConvertActivityToClickHouseSQL (Filter spec) = Ok fc ->
  StronglySorted row_before T -> Forall row_ok T -> answers (base_conds spec range fc) T limit ->
  (forall i, json_time (pc_issue (clocks i))) ->
  (forall i, (pc_check (clocks (S i)) - pc_issue (clocks i) <= Hour)%Z) ->
  forall fuel R i tok cursor,
  (length R < fuel)%nat ->
  match cursor with
  | None => tok = "" /\ T = R
  | Some c => tok <> "" /\ (exists P, T = P ++ c :: R)
      /\ decodeActivityCursor (pc_check (clocks i)) tok (with_continue spec tok) = Ok (r_ts c, r_name c)
  end ->
  list_activities fuel i (with_continue spec tok) = Ok (Some (map r_doc R)).
Proof using All.
  intros Hl Hlim Hrange Hfc Hsort Hrows Hans Hiss Httl fuel.
  induction fuel as [|fuel IH]; intros R i tok cursor Hfuel Hcur; [lia|].
  assert (exists P, T = P ++ R) as [P HT].
  { destruct cursor as [c|]; [destruct Hcur as (_ & [P ->] & _)|destruct Hcur as [_ ->]; by exists []].
    exists (P ++ [c]). by rewrite <- app_assoc. }
  cbn [list_activities].
  rewrite (query_page spec range fc T R limit i tok cursor); [|done..|].
  2:{ destruct cursor as [c|]; [|done]. destruct Hcur as (? & [P' HT'] & ?).
      split_and!; [done| |done]. rewrite HT'. apply resume_after. by rewrite <- HT'. }
  destruct (decide (Z.of_nat (length R) <= limit)%Z) as [Hle|Hgt].
  - rewrite take_ge by lia. rewrite cut_page_all by (rewrite ?length_map; done || lia). reflexivity.
  - destruct (last_take_snoc R (Z.to_nat limit)) as (P1 & x & R1 & HR & Htake); [lia|].
    destruct R1 as [|y R1].
    { rewrite HR, length_app in Hgt. apply (f_equal length) in Htake.
      rewrite length_take, length_app in Htake. cbn [length] in *. lia. }
    assert (Z.of_nat (length (P1 ++ [x])) = limit) as HP1.
    { rewrite <- Htake, length_take. lia. }
    assert (take (Z.to_nat (limit + 1)) R = P1 ++ [x; y]) as ->.
    { rewrite HR. replace (P1 ++ x :: y :: R1) with ((P1 ++ [x; y]) ++ R1) by by rewrite <- app_assoc.
      apply take_app_length'. rewrite length_app in *. cbn [length] in *. lia. }
    rewrite map_app. cbn [map]. rewrite cut_page_more; [|lia|rewrite <- HP1, !length_app, length_map; done].
    cbn [res_bind Activities ar_Continue].
    assert (row_ok x) as (Hne & Hjt & s & Hdoc & Hs).
    { rewrite Forall_forall in Hrows. apply Hrows. rewrite HT, HR. set_solver. }
    pose proof (activity_cursor_nonempty (pc_issue (clocks i)) (r_ts x) _ _ s (with_continue spec tok)
                  Hdoc Hs Hjt (Hiss i)) as Htok.
    rewrite (proj2 (String.eqb_neq _ _) Htok).
    set (token := encodeActivityCursor _ _ _) in *.
    change (with_continue (with_continue spec tok) token) with (with_continue spec token).
    rewrite (IH (y :: R1) (S i) token (Some x)).
    + cbn [res_bind option_map]. rewrite HR, map_app. cbn [map app]. by rewrite <- app_assoc.
    + rewrite HR, length_app in Hfuel. cbn [length] in *. lia.
    + split_and!; [done| |].
      * exists (P ++ P1). by rewrite HT, HR, <- app_assoc.
      * unfold token. rewrite (decode_encode_activity _ _ (r_ts x) _ (r_name x) s) by done.
        rewrite String.eqb_refl. destruct (Z.ltb_spec cursorTTL (pc_check (clocks (S i)) - pc_issue (clocks i)));
          [|done]. specialize (Httl i). unfold cursorTTL in *. lia.
Qed.
End Pages.

(** Concrete parameters: cursors as decimal codes, hashes as their preimages,
    and a store of three activities, two of them at the same second. *)
Module ToyStore.
Definition code (c : cursorData) : string :=
  pretty (N.pos (encode (c_Timestamp c, c_Key c, QueryHash c, IssuedAt c))).
Definition decode_ (s : string) : error + cursorData :=
  match decode (Z.to_pos (dec_val 0 s)) with
  | Some (t, k, h, i) => inr {| c_Timestamp := t; c_Key := k; QueryHash := h; IssuedAt := i |}
  | None => inl (Ext "invalid character")
  end.

Definition t5 : string := "2024-05-01T10:00:05Z".
Definition t9 : string := "2024-05-01T09:59:59Z".
Definition at_ (s : string) : time := default 0%Z (Parse_RFC3339 s).

#[export] Instance lib : CursorLib := {|
  b64_encode s := String "b" s;
  b64_decode s := match s with String "b" s' => inr s' | _ => inl (Ext "illegal base64 data") end;
  sha256_16 s := s;
  json_marshal_cursor := code; json_unmarshal_cursor := decode_;
  json_marshal_acursor := code; json_unmarshal_acursor := decode_;
  json_activity_meta d :=
    if (d =? "doc-b")%string then inr ("b", t5) else if (d =? "doc-a")%string then inr ("a", t5)
    else if (d =? "doc-c")%string then inr ("c", t9) else inl (Ext "unexpected end of JSON input") |}.

Lemma decode_code (c : cursorData) : decode_ (code c) = inr c.
Proof.
  unfold decode_, code. destruct (pretty_N_spec (N.pos (encode (c_Timestamp c, c_Key c, QueryHash c, IssuedAt c))))
    as (_ & -> & _). cbn [Z.of_N Z.to_pos]. rewrite decode_encode. by destruct c.
Qed.

#[export] Instance laws : CursorLaws.
Proof.
  split; cbn; [done|done|intros; apply decode_code|intros; apply decode_code|].
  intros c _ _. apply pretty_N_spec.
Qed.

Definition table : list arow :=
  [{| r_ts := at_ t5; r_name := "b"; r_doc := "doc-b" |}; {| r_ts := at_ t5; r_name := "a"; r_doc := "doc-a" |};
   {| r_ts := at_ t9; r_name := "c"; r_doc := "doc-c" |}].

(** An audit event whose stage timestamp is [stage] seconds after the time it
    was received, [at_ t9] plus [off] seconds. *)
Definition audit_row (id : string) (off : Z) : arow :=
  {| r_ts := (at_ t9 + off * nano)%Z; r_name := id; r_doc := id |}.
Definition audit_table : list arow := [audit_row "a" 10; audit_row "b" 9; audit_row "c" 8].

Definition select (T : list arow) (n : nat) (args : list qarg) : list string :=
  map r_doc (take n match args with
                    | [QVal (GoTime t); _; _; _; QVal (GoString k)] => List.filter (after_cursor t k) T
                    | _ => T
                    end).

#[export] Instance store : ClickHouse := {|
  ch_query q args := inr {| scanned := map inr (select (if Contains q ".audit_logs" then audit_table else table) 2 args);
                            rows_err := None |};
  ch_query_counts q args := inl (Ext "connection refused");
  json_unmarshal_audit_event d :=
    match List.find (fun r => (r_name r =? d)%string) audit_table with
    | Some r => inr {| se_StageTimestamp := (r_ts r + 2 * nano)%Z; se_AuditID := d; se_json := d |}
    | None => inl (Ext "not an event")
    end |}.

Definition config : ClickHouseConfig := {| Database := "audit"; MaxQueryWindow := 0; MaxPageSize := 1000 |}.
Definition platform : ScopeContext := {| sc_Type := "platform"; sc_Name := "" |}.
Definition spec : ActivityQuerySpec :=
  {| StartTime := ""; EndTime := ""; Search := ""; Filter := ""; Limit := 1; Continue_ := "" |}.
Definition aspec (token : string) : AuditLogQuerySpec :=
  {| aq_StartTime := "now-90d"; aq_EndTime := "now"; aq_Filter := ""; aq_Limit := 1; aq_Continue := token |}.
Definition clock : time := (at_ t5 + Hour)%Z.
End ToyStore.

(** C16: following the continue tokens of an activity query lists every row of
    the result exactly once, in order, and ends: for a table whose rows, in the
    order of the query, are [T], a client that asks for pages until there is no
    token gets the documents of [T], in at most [length T + 1] requests,
    whatever the page size, as long as each token is used within an hour. *)
Theorem activity_pages_complete `{FilterLib} `{CursorLib} `{!CursorLaws} `{ClickHouse}
    (config : ClickHouseConfig) (tp : option string) (scope : ScopeContext) (clocks : nat -> page_clock)
    (spec : ActivityQuerySpec) (range fc : list cond) (T : list arow) :
  Continue_ spec = "" ->
  (0 < page_limit config (Limit spec) < 2 ^ 31 - 1)%Z ->
  (forall i, time_range (StartTime spec) (EndTime spec) "timestamp" (pc_now (clocks i)) = Ok range) ->
  filter_cond ConvertActivityToClickHouseSQL (Filter spec) = Ok fc ->
  StronglySorted row_before T -> Forall row_ok T ->
  answers config tp (base_conds scope spec range fc) T (page_limit config (Limit spec)) ->
  (forall i, json_time (pc_issue (clocks i))) ->
  (forall i, (pc_check (clocks (S i)) - pc_issue (clocks i) <= Hour)%Z) ->
  list_activities config tp scope clocks (S (length T)) 0 spec = Ok (Some (map r_doc T)).
Proof.
  intros Hc Hlim Hrange Hfc Hsort Hrows Hans Hiss Httl.
  replace spec with (with_continue spec "") at 1 by (destruct spec; cbn in *; by rewrite Hc).
  by apply (list_pages config tp scope clocks spec range fc T _ eq_refl Hlim Hrange Hfc Hsort Hrows Hans Hiss Httl
              (S (length T)) T 0 "" None); [lia|].
Qed.

Section Witnesses.
#[local] Existing Instance ToyFilter.engine.
#[local] Existing Instance ToyFilter.lib.
#[local] Existing Instance ToyStore.lib.
#[local] Existing Instance ToyStore.laws.
#[local] Existing Instance ToyStore.store.

Lemma toy_table_sorted : StronglySorted row_before ToyStore.table.
Proof.
  assert (forall r r', row_before r r' <-> after_cursor (r_ts r) (r_name r) r' = true) as Hb
    by (intros; by rewrite after_cursor_spec).
  unfold ToyStore.table. repeat apply SSorted_cons; [apply SSorted_nil|apply List.Forall_nil| |].
  - apply List.Forall_cons; [|apply List.Forall_nil]. apply Hb. vm_compute. reflexivity.
  - apply List.Forall_cons; [|apply List.Forall_cons; [|apply List.Forall_nil]];
      apply Hb; vm_compute; reflexivity.
Qed.

Lemma toy_table_ok : Forall row_ok ToyStore.table.
Proof.
  unfold ToyStore.table.
  apply List.Forall_cons; [|apply List.Forall_cons; [|apply List.Forall_cons; [|apply List.Forall_nil]]];
    (split; [discriminate|split; [vm_compute; split; congruence|]]).
  1,2: exists ToyStore.t5; split; [reflexivity|vm_compute; reflexivity].
  exists ToyStore.t9; split; [reflexivity|vm_compute; reflexivity].
Qed.

Lemma toy_answers :
  answers ToyStore.config None (base_conds ToyStore.platform ToyStore.spec [] []) ToyStore.table
    (page_limit ToyStore.config (Limit ToyStore.spec)).
Proof.
  intros cursor conds rest.
  transitivity (inr {| scanned := map inr (map r_doc (take 2 rest)); rows_err := None |} : error + rows string);
    [|by rewrite map_map].
  by destruct cursor.
Qed.

Lemma activity_pages_complete_witness :
  list_activities ToyStore.config None ToyStore.platform (fun _ => Build_page_clock 0%Z ToyStore.clock ToyStore.clock)
    4 0 ToyStore.spec = Ok (Some ["doc-b"; "doc-a"; "doc-c"]).
Proof.
  apply (activity_pages_complete ToyStore.config None ToyStore.platform _ ToyStore.spec [] [] ToyStore.table).
  - reflexivity.
  - by split.
  - reflexivity.
  - reflexivity.
  - exact toy_table_sorted.
  - exact toy_table_ok.
  - exact toy_answers.
  - intros i. vm_compute. split; congruence.
  - intros i. vm_compute. congruence.
Defined.

(** The audit cursor is the stage timestamp of the last event, but the column
    it is compared with is the time the request was received: the next page
    starts before the event, and here repeats it for ever. *)
Lemma audit_pages_repeat :
  exists tok, QueryAuditLogs ToyStore.config None ToyStore.clock ToyStore.clock ToyStore.clock
                (ToyStore.aspec "") ToyStore.platform
              = Ok {| qr_Events := [{| se_StageTimestamp := ToyStore.at_ "2024-05-01T10:00:11Z";
                                       se_AuditID := "a"; se_json := "a" |}];
                      qr_Continue := tok |}
  /\ tok <> ""
  /\ QueryAuditLogs ToyStore.config None ToyStore.clock ToyStore.clock ToyStore.clock
       (ToyStore.aspec tok) ToyStore.platform
     = QueryAuditLogs ToyStore.config None ToyStore.clock ToyStore.clock ToyStore.clock
         (ToyStore.aspec "") ToyStore.platform.
Proof.
  eexists. split; [vm_compute; reflexivity|]. split; [discriminate|]. vm_compute. reflexivity.
Qed.

Lemma queries_sound_witness :
  exists q args, buildActivityQuery ToyStore.config ToyStore.clock ToyStore.clock
    {| StartTime := "now-1h"; EndTime := "now"; Search := "pod"; Filter := "jane"; Limit := 10; Continue_ := "" |}
    {| sc_Type := "Project"; sc_Name := "p1" |} = Ok (q, args)
  /\ sound_query (activity_scope {| sc_Type := "Project"; sc_Name := "p1" |}) q args
  /\ q = "SELECT activity_json FROM audit.activities WHERE tenant_type = ? AND tenant_name = ? AND timestamp >= ? AND timestamp < ? AND multiSearchAnyCaseInsensitive(summary, ?) > 0 AND (actor_name = ? AND has(related_uids, ?)) ORDER BY toStartOfHour(timestamp) DESC, timestamp DESC, activity_name DESC LIMIT 11".
Proof.
  eexists _, _. split; [vm_compute; reflexivity|]. split; [|vm_compute; reflexivity].
  eapply (proj1 (proj2 (proj2 (queries_sound ToyStore.config ToyStore.clock ToyStore.clock
            {| sc_Type := "Project"; sc_Name := "p1" |} _ _ eq_refl)))
            {| StartTime := "now-1h"; EndTime := "now"; Search := "pod"; Filter := "jane"; Limit := 10; Continue_ := "" |}).
  vm_compute. reflexivity.
Defined.

Lemma audit_cursor_bound_witness :
  let spec := ToyStore.aspec "" in
  let t := ToyStore.at_ ToyStore.t5 in
  decodeCursor (ToyStore.clock + Hour)%Z (encodeCursor ToyStore.clock t "a" spec) spec = Ok (t, "a").
Proof.
  apply (audit_cursor_bound ToyStore.clock (ToyStore.clock + Hour)%Z (ToyStore.at_ ToyStore.t5) "a"
           (ToyStore.aspec "") (ToyStore.aspec "")); vm_compute; repeat split; congruence.
Defined.
End Witnesses.
