(* ===== verification/EventStore.v ===== *)
(** * internal/storage: the store of Kubernetes events

    Models [events_clickhouse.go] (create, get, list, update and delete),
    [events_fields.go] (field selectors), [event_query_clickhouse.go] (the
    event query with its offset cursors), [events_facets.go], and [Publish] of
    [events_publisher.go].  ClickHouse is a parameter with a state
    ([EventsDB]); what its SQL means is stated once, by [EventsDBLaws], for
    queries made of simple conditions, and a reference interpreter of those
    texts ([ToyEvents]) satisfies it. *)

From Stdlib Require Import Ascii String.
From stdpp Require Import base numbers list strings gmap pretty.
From Stdlib Require Import ZArith Lia.
From S2P Require Import Prelude GoLib Types TimeUtil CelPolicy Activity Dlq CelFilter Query.

(* ------------------------------------------------------------------ *)
(** ** Field selectors: events_fields.go *)

Definition EventsFieldSelectors : list (string * string) := [
  ("metadata.namespace", "namespace"); ("metadata.name", "name"); ("metadata.uid", "uid");
  ("regarding.apiVersion", "regarding_api_version"); ("regarding.kind", "regarding_kind");
  ("regarding.namespace", "regarding_namespace"); ("regarding.name", "regarding_name");
  ("regarding.uid", "regarding_uid"); ("regarding.fieldPath", "regarding_field_path");
  ("related.apiVersion", "related_api_version"); ("related.kind", "related_kind");
  ("related.namespace", "related_namespace"); ("related.name", "related_name");
  ("reason", "reason"); ("type", "type");
  ("source.component", "source_component"); ("source.host", "source_host");
  ("reportingComponent", "source_component"); ("reportingInstance", "source_host")].

Definition EventsFieldSelectorAliases : list (string * string) := [
  ("namespace", "metadata.namespace"); ("name", "metadata.name"); ("uid", "metadata.uid")].

Definition ResolveEventFieldSelector (field : string) : res string :=
  let field := default field (assoc EventsFieldSelectorAliases field) in
  match assoc EventsFieldSelectors field with
  | Some column => Ok column
  | None => Err (Errorf [PStr "unsupported field selector: "; PStr field])
  end.

Inductive FieldSelectorOp := FieldSelectorEqual | FieldSelectorNotEqual.
Record FieldSelectorTerm := { Column : string; Operator : FieldSelectorOp; Value : string }.

(** [strings.Join] of the supported fields, in the order of the map iteration
    [supported]. *)
Definition selector_term (supported : list string) (part : string) : res FieldSelectorTerm :=
  let cut n k op := Some (TrimSpace (take_str n part), TrimSpace (drop_str (n + k) part), op) in
  let split :=
    match Index part "!=" with
    | Some idx => cut idx 2 FieldSelectorNotEqual
    | None =>
        match Index part "==" with
        | Some idx => cut idx 2 FieldSelectorEqual
        | None =>
            match Index part "=" with
            | Some idx => cut idx 1 FieldSelectorEqual
            | None => None
            end
        end
    end in
  match split with
  | None => Err (Errorf [PStr "invalid field selector syntax: "; PStr part;
                         PStr " (expected field=value or field!=value)"])
  | Some (field, value, op) =>
      let? column := wrap_err (ResolveEventFieldSelector field)
                       (fun err => Errorf [PShow err; PStr ". Supported fields: ";
                                           PStr (String.concat ", " supported)]) in
      Ok {| Column := column; Operator := op; Value := value |}
  end.

Fixpoint selector_terms (supported parts : list string) : res (list FieldSelectorTerm) :=
  match parts with
  | [] => Ok []
  | part :: parts' =>
      let part := TrimSpace part in
      if (part =? "")%string then selector_terms supported parts'
      else
        let? t := selector_term supported part in
        let? ts := selector_terms supported parts' in
        Ok (t :: ts)
  end.

Definition ParseFieldSelector (supported : list string) (selector : string)
  : res (list FieldSelectorTerm) :=
  if (selector =? "")%string then Ok [] else selector_terms supported (Split "," selector).

Definition ToSQL (t : FieldSelectorTerm) : cond :=
  match Operator t with
  | FieldSelectorNotEqual => (Column t +:+ " != ?", [qstr (Value t)])
  | FieldSelectorEqual => (Column t +:+ " = ?", [qstr (Value t)])
  end.

Definition FieldSelectorTermsToSQL (terms : list FieldSelectorTerm) : list cond := map ToSQL terms.

(* ------------------------------------------------------------------ *)
(** ** Events *)

Record EventSeries := { es_Count : Z (* int32 *); es_LastObservedTime : time }.

(** [corev1.ObjectReference]; the resource version and field path are in
    [ref_other]. *)
Record ObjectRef_ := {
  ref_APIVersion : string; ref_Kind : string; ref_Name : string; ref_Namespace : string;
  ref_UID : string; ref_other : string }.
Definition no_ref : ObjectRef_ :=
  {| ref_APIVersion := ""; ref_Kind := ""; ref_Name := ""; ref_Namespace := ""; ref_UID := ""; ref_other := "" |}.

(** The fields of an event the store passes on untouched; the deprecated source
    (component and host), and in [ev_other] the rest of the object metadata
    (labels, owners, ...). *)
Record EventRest := {
  ev_Regarding : ObjectRef_; ev_Related : option ObjectRef_;
  ev_Reason : string; ev_Note : string; ev_Type : string; ev_Action : string;
  ev_ReportingController : string; ev_ReportingInstance : string;
  ev_DeprecatedSource : string * string; ev_other : string }.
Definition no_rest : EventRest :=
  {| ev_Regarding := no_ref; ev_Related := None; ev_Reason := ""; ev_Note := ""; ev_Type := ""; ev_Action := "";
     ev_ReportingController := ""; ev_ReportingInstance := ""; ev_DeprecatedSource := ("", ""); ev_other := "" |}.

(** [events.k8s.io/v1.Event]. [None] annotations: a nil map. *)
Record Event := {
  ev_Namespace : string; ev_Name : string; ev_UID : string; ev_ResourceVersion : string;
  ev_Annotations : option (gmap string string);
  ev_EventTime : time; ev_FirstTimestamp : time; ev_LastTimestamp : time;
  ev_Count : Z (* int32 *); ev_Series : option EventSeries; ev_rest : EventRest }.

Definition with_rv (e : Event) (rv : string) : Event :=
  {| ev_Namespace := ev_Namespace e; ev_Name := ev_Name e; ev_UID := ev_UID e; ev_ResourceVersion := rv;
     ev_Annotations := ev_Annotations e; ev_EventTime := ev_EventTime e;
     ev_FirstTimestamp := ev_FirstTimestamp e; ev_LastTimestamp := ev_LastTimestamp e;
     ev_Count := ev_Count e; ev_Series := ev_Series e; ev_rest := ev_rest e |}.

(** [strconv.FormatInt(t.UnixNano(), 10)]; [UnixNano] wraps. *)
Definition UnixNano (t : time) : Z := wrap64 (t - unix_epoch * nano).
Definition rv_of (t : time) : string := pretty (UnixNano t).

(** [strconv.ParseInt(s, 10, 64)]. *)
Definition ParseInt64 (s : string) : option Z :=
  let '(neg, d) := match s with
                   | String "-" r => (true, r)
                   | String "+" r => (false, r)
                   | _ => (false, s)
                   end in
  if ((d =? "") || negb (all_bytes is_digit d))%string%bool then None
  else let v := if neg : bool then (- dec_val 0 d)%Z else dec_val 0 d in
       if ((int64_min <=? v) && (v <=? int64_max))%Z%bool then Some v else None.

(** API status errors, by their text ([errors.NewNotFound] and
    [errors.NewBadRequest]); [errors.IsNotFound] reads the reason. *)
Definition dquote : string := String (ascii_of_nat 34) "".
Definition NewNotFound (name : string) : error :=
  Sentinel ("events.events.k8s.io " +:+ dquote +:+ name +:+ dquote +:+ " not found").
Definition NewBadRequest (text : string) : error := Sentinel text.
Definition IsNotFound (e : error) : bool :=
  match e with Sentinel s => HasPrefix s "events.events.k8s.io " | _ => false end.

(* ------------------------------------------------------------------ *)
(** ** The store: events_clickhouse.go *)

Class EventLib := {
  json_marshal_event : Event -> error + string;
  json_unmarshal_event : string -> error + Event }.

(** The [k8s_events] table behind a ClickHouse connection. *)
Class EventsDB := {
  edb : Type;
  ev_exec : edb -> string -> list qarg -> option error * edb;
  ev_query_row : edb -> string -> list qarg -> error + (string * time);
  ev_query : edb -> string -> list qarg -> error + rows (string * time);
  ev_query_docs : edb -> string -> list qarg -> error + rows string;
  ev_query_counts : edb -> string -> list qarg -> error + rows (string * Z) (* uint64 counts *) }.

Record EventsPublisher := { js_connected : bool; subjectPrefix : string }.

Record EventsBackend := { eb_Database : string; eb_publisher : option EventsPublisher }.

(** [buildScopeConditions] of both backends: an unknown scope type has no
    condition. *)
Definition event_scope (scope : ScopeContext) : list cond :=
  if ((sc_Type scope =? "") || (sc_Type scope =? TenantTypePlatform))%string%bool then []
  else if ((sc_Type scope =? TenantTypeUser) || (sc_Type scope =? TenantTypeOrganization)
           || (sc_Type scope =? TenantTypeProject))%string%bool
  then [("scope_type = ?", [qstr (sc_Type scope)]); ("scope_name = ?", [qstr (sc_Name scope)])]
  else [].

Definition scope_annotations (scope : ScopeContext) (a : option (gmap string string))
  : option (gmap string string) :=
  let a := default ∅ a in
  Some (if (negb (sc_Type scope =? "") && negb (sc_Type scope =? TenantTypePlatform))%string%bool
        then <[ScopeNameAnnotation := sc_Name scope]> (<[ScopeTypeAnnotation := sc_Type scope]> a)
        else a).

(** What [Create] fills in before it writes. *)
Definition prepare_create (uuid : string) (now : time) (scope : ScopeContext) (e : Event) : Event :=
  let or_now t := if IsZero t then now else t in
  {| ev_Namespace := ev_Namespace e; ev_Name := ev_Name e;
     ev_UID := if (ev_UID e =? "")%string then uuid else ev_UID e;
     ev_ResourceVersion := ev_ResourceVersion e;
     ev_Annotations := scope_annotations scope (ev_Annotations e);
     ev_EventTime := or_now (ev_EventTime e);
     ev_FirstTimestamp := or_now (ev_FirstTimestamp e); ev_LastTimestamp := or_now (ev_LastTimestamp e);
     ev_Count := if (ev_Count e =? 0)%Z then 1%Z else ev_Count e;
     ev_Series := ev_Series e; ev_rest := ev_rest e |}.

(** What [Update] fills in; the stored event's [Series] is dereferenced. *)
Definition prepare_update (now : time) (scope : ScopeContext) (existing e : Event) : res Event :=
  match ev_Series existing with
  | None => Panic "invalid memory address or nil pointer dereference"
  | Some series =>
      let count := wrap32 (es_Count series + 1) in
      Ok {| ev_Namespace := ev_Namespace e; ev_Name := ev_Name e;
            ev_UID := if (ev_UID e =? "")%string then ev_UID existing else ev_UID e;
            ev_ResourceVersion := ev_ResourceVersion e;
            ev_Annotations := scope_annotations scope (ev_Annotations e);
            ev_EventTime := now;
            ev_FirstTimestamp := if IsZero (ev_FirstTimestamp e) then ev_FirstTimestamp existing
                                 else ev_FirstTimestamp e;
            ev_LastTimestamp := now; ev_Count := count;
            ev_Series := Some {| es_Count := count; es_LastObservedTime := now |};
            ev_rest := ev_rest e |}
  end.

Section Store.
Context `{EventLib} `{EventsDB} `{JetStream} (b : EventsBackend).

(** [EventsPublisher.Publish]: a publisher without a connection accepts
    everything and sends nothing. *)
Definition Publish (p : EventsPublisher) (e : Event) : list pub * option error :=
  if negb (js_connected p) then ([], None)
  else match json_marshal_event e with
  | inl err => ([], Some (Errorf [PStr "failed to marshal event: "; PWrap err]))
  | inr data =>
      let subject := EventSubject (subjectPrefix p) "" (ev_Namespace e) in
      let rv := ev_ResourceVersion e in
      let msgID := if (negb (rv =? "") && negb (rv =? "0"))%string%bool
                   then ev_UID e +:+ "-" +:+ rv else ev_UID e in
      let (log, r) := do_publish subject data (Some msgID) in
      match r with
      | Some err => (log, Some (Errorf [PStr "failed to publish event to NATS: "; PWrap err]))
      | None => (log, None)
      end
  end.

Definition table : string := eb_Database b +:+ ".k8s_events".

Definition insert_query : string :=
  "INSERT INTO " +:+ table +:+ " (event_json, inserted_at) VALUES (?, ?)".

(** The common end of [Create] and [Update]: publish, or else insert. *)
Definition save (st : edb) (insertTime : time) (what_nats what_db : string) (e : Event)
  : edb * list pub * res Event :=
  let written := with_rv e (rv_of insertTime) in
  match eb_publisher b with
  | Some p =>
      let (log, r) := Publish p e in
      (st, log, match r with
                | Some err => Err (Errorf [PStr what_nats; PWrap err])
                | None => Ok written
                end)
  | None =>
      match json_marshal_event e with
      | inl err => (st, [], Err (Errorf [PStr "failed to marshal event: "; PWrap err]))
      | inr doc =>
          let (r, st') := ev_exec st insert_query [qstr doc; qtime insertTime] in
          (st', [], match r with
                    | Some err => Err (Errorf [PStr what_db; PWrap err])
                    | None => Ok written
                    end)
      end
  end.

Definition Create (st : edb) (uuid : string) (now insertTime : time) (scope : ScopeContext) (e : Event)
  : edb * list pub * res Event :=
  save st insertTime "failed to publish event to NATS: " "failed to insert event: "
    (prepare_create uuid now scope e).

Definition key_conds (namespace name : string) : list cond :=
  [("namespace = ?", [qstr namespace]); ("name = ?", [qstr name])].

(** The query texts of [Get] and [List]. *)
Definition select_query (cs : list cond) (limit : Z) : string :=
  "SELECT event_json, inserted_at FROM " +:+ table +:+ where_clause cs
    +:+ " ORDER BY inserted_at DESC LIMIT " +:+ pretty limit.

Definition Get (st : edb) (namespace name : string) (scope : ScopeContext) : res Event :=
  let cs := key_conds namespace name ++ event_scope scope in
  match ev_query_row st (select_query cs 1) (cond_args cs) with
  | inl err => if Contains (error_text err) "no rows" then Err (NewNotFound name)
               else Err (Errorf [PStr "failed to get event: "; PWrap err])
  | inr (eventJSON, insertedAt) =>
      let? event := wrap_err (of_sum (json_unmarshal_event eventJSON))
                      (fun err => Errorf [PStr "failed to unmarshal event: "; PWrap err]) in
      Ok (with_rv event (rv_of insertedAt))
  end.

Record ListOptions := { lo_FieldSelector : string; lo_Limit : Z (* int64 *); lo_Continue : string }.
Record EventList := { el_ResourceVersion : string; el_Continue : string; el_Items : list Event }.

(** The conditions of [List]: a continue token that is not a number is
    ignored. *)
Definition list_conds (supported : list string) (now : time) (namespace : string) (opts : ListOptions)
    (scope : ScopeContext) : res (list cond) :=
  let? terms := wrap_err (ParseFieldSelector supported (lo_FieldSelector opts))
                  (fun err => NewBadRequest ("invalid field selector: " +:+ error_text err)) in
  Ok ([("last_timestamp >= ?", [qtime (Add now (- (24 * Hour)))])]
      ++ (if (namespace =? "")%string then [] else [("namespace = ?", [qstr namespace])])
      ++ event_scope scope
      ++ FieldSelectorTermsToSQL terms
      ++ (if (lo_Continue opts =? "")%string then []
          else match ParseInt64 (lo_Continue opts) with
               | Some rv => [("inserted_at < ?", [qtime (of_unix_nano rv)])]
               | None => []
               end)).

Definition list_limit (opts : ListOptions) : Z := if (0 <? lo_Limit opts)%Z then lo_Limit opts else 500%Z.

(** Rows whose document cannot be decoded are skipped. *)
Definition decode_rows (l : list (string * time)) : list Event :=
  omap (fun '(doc, t) => match json_unmarshal_event doc with
                         | inr e => Some (with_rv e (rv_of t))
                         | inl _ => None
                         end) l.

(** The rows as [List] reads them, with the error of the row that fails. *)
Fixpoint scan_wrapped {A} (what : string) (l : list (error + A)) : res (list A) :=
  match l with
  | [] => Ok []
  | inl e :: _ => Err (Errorf [PStr what; PWrap e])
  | inr a :: l' => let? r := scan_wrapped what l' in Ok (a :: r)
  end.
Definition read_wrapped {A} (scan_what iter_what : string) (r : rows A) : res (list A) :=
  let? l := scan_wrapped scan_what (scanned r) in
  match rows_err r with Some e => Err (Errorf [PStr iter_what; PWrap e]) | None => Ok l end.

Definition rv_last (l : list Event) : string :=
  match last l with Some e => ev_ResourceVersion e | None => "" end.

Definition List (st : edb) (supported : list string) (now : time) (namespace : string)
    (opts : ListOptions) (scope : ScopeContext) : res EventList :=
  let? cs := list_conds supported now namespace opts scope in
  let limit := list_limit opts in
  let? r := wrap_err (of_sum (ev_query st (select_query cs (wrap64 (limit + 1))) (cond_args cs)))
              (fun err => Errorf [PStr "failed to list events: "; PWrap err]) in
  let? l := read_wrapped "failed to scan event: " "error iterating events: " r in
  let events := decode_rows l in
  let more := (limit <? Z.of_nat (length events))%Z in
  let page := if more then take (Z.to_nat limit) events else events in
  Ok {| el_ResourceVersion := rv_last events; el_Continue := if more then rv_last page else "";
        el_Items := page |}.

Definition Update (st : edb) (now insertTime : time) (scope : ScopeContext) (e : Event)
  : edb * list pub * res Event :=
  match Get st (ev_Namespace e) (ev_Name e) scope with
  | Err err => (st, [], Err err)
  | Panic w => (st, [], Panic w)
  | Ok existing =>
      match prepare_update now scope existing e with
      | Err err => (st, [], Err err)
      | Panic w => (st, [], Panic w)
      | Ok e' => save st insertTime "failed to publish event update to NATS: " "failed to update event: " e'
      end
  end.

Definition delete_query (cs : list cond) : string :=
  "ALTER TABLE " +:+ table +:+ " DELETE" +:+ where_clause cs.

Definition Delete (st : edb) (namespace name : string) (scope : ScopeContext) : edb * res unit :=
  match Get st namespace name scope with
  | Err err => (st, if IsNotFound err then Ok tt else Err err)
  | Panic w => (st, Panic w)
  | Ok _ =>
      let cs := key_conds namespace name ++ event_scope scope in
      let (r, st') := ev_exec st (delete_query cs) (cond_args cs) in
      (st', match r with
            | Some err => Err (Errorf [PStr "failed to delete event: "; PWrap err])
            | None => Ok tt
            end)
  end.
End Store.

(* ------------------------------------------------------------------ *)
(** ** The event query: event_query_clickhouse.go *)

Definition eventQueryMaxWindow : Z := 60 * 24 * Hour.
Definition eventQueryDefaultLimit : Z := 100.
Definition eventQueryMaxLimit : Z := 1000.

Record EventQuerySpec := {
  es_StartTime : string; es_EndTime : string; es_Namespace : string; es_FieldSelector : string;
  es_Limit : Z (* int32 *); es_Continue : string }.

Record EventRecord := { erec_APIVersion : string; erec_Kind : string; erec_Event : Event }.
Record EventQueryResult := { eq_Events : list EventRecord; eq_Continue : string }.

Definition convertEventsV1ToEventRecord (e : Event) : EventRecord :=
  {| erec_APIVersion := SchemeGroupVersion; erec_Kind := "EventRecord"; erec_Event := e |}.

Definition resolveEventQueryLimit (requested : Z) : Z :=
  if (requested <=? 0)%Z then eventQueryDefaultLimit
  else if (eventQueryMaxLimit <? requested)%Z then eventQueryMaxLimit
  else requested.

Record eventQueryCursorData := { ec_Offset : Z (* int32 *); ec_QueryHash : string; ec_IssuedAt : time }.

Class EventCursorLib := {
  json_marshal_ecursor : eventQueryCursorData -> string     (* "" when it fails *);
  json_unmarshal_ecursor : string -> error + eventQueryCursorData }.

Section EventQuery.
Context `{EventLib} `{EventsDB} `{CursorLib} `{EventCursorLib} (database : string).

Definition hashEventQueryParams (spec : EventQuerySpec) : string :=
  b64_encode (sha256_16 (es_StartTime spec +:+ "|" +:+ es_EndTime spec +:+ "|" +:+ es_Namespace spec
    +:+ "|" +:+ es_FieldSelector spec +:+ "|" +:+ pretty (es_Limit spec))).

(** The age in an error message is rounded; its text is not modelled. *)
Definition decodeEventQueryCursor (now : time) (cursor : string) (spec : EventQuerySpec) : res Z :=
  let? decoded := wrap_err (of_sum (b64_decode cursor))
                    (fun e => Errorf [PStr "cannot decode pagination cursor: "; PWrap e]) in
  let invalid := Errorf [PStr "cursor format is invalid. Start a new query"] in
  let? data := wrap_err (of_sum (json_unmarshal_ecursor decoded)) (fun _ => invalid) in
  if negb (ec_QueryHash data =? hashEventQueryParams spec)%string then
    Err (Errorf [PStr "cannot use cursor because query parameters changed. Start a new query without the continue parameter"])
  else if IsZero (ec_IssuedAt data) then Err invalid
  else if (cursorTTL <? now - ec_IssuedAt data)%Z then Err (cursor_expired "cursor expired")
  else Ok (ec_Offset data).

Definition ValidateEventQueryCursor (now : time) (cursor : string) (spec : EventQuerySpec) : res unit :=
  let? _ := decodeEventQueryCursor now cursor spec in Ok tt.

(** The offset of the next page, in [int32] arithmetic. *)
Definition encodeEventQueryCursor (check issued : time) (spec : EventQuerySpec) : string :=
  let currentOffset :=
    if (es_Continue spec =? "")%string then 0%Z
    else match decodeEventQueryCursor check (es_Continue spec) spec with Ok o => o | _ => 0%Z end in
  b64_encode (json_marshal_ecursor
    {| ec_Offset := wrap32 (currentOffset + resolveEventQueryLimit (es_Limit spec));
       ec_QueryHash := hashEventQueryParams spec; ec_IssuedAt := issued |}).

Definition buildEventQueryOrderBy (scope : ScopeContext) : string :=
  if ((sc_Type scope =? "") || (sc_Type scope =? TenantTypePlatform))%string%bool
  then " ORDER BY toStartOfHour(last_timestamp) DESC, last_timestamp DESC, regarding_api_group DESC, regarding_kind DESC, type DESC, uid DESC"
  else " ORDER BY toStartOfHour(last_timestamp) DESC, last_timestamp DESC, scope_type DESC, scope_name DESC, regarding_api_group DESC, regarding_kind DESC, type DESC, uid DESC".

Definition event_query_conds (supported : list string) (now : time) (spec : EventQuerySpec)
    (scope : ScopeContext) : res (list cond) :=
  let? range := time_range (es_StartTime spec) (es_EndTime spec) "last_timestamp" now in
  let? terms := wrap_err (ParseFieldSelector supported (es_FieldSelector spec))
                  (fun err => Errorf [PStr "invalid fieldSelector: "; PWrap err]) in
  Ok (event_scope scope
      ++ (if (es_Namespace spec =? "")%string then [] else [("namespace = ?", [qstr (es_Namespace spec)])])
      ++ range ++ FieldSelectorTermsToSQL terms).

Definition page_clause (limit : Z) (offset : option Z) : string :=
  limit_clause limit +:+ match offset with Some o => " OFFSET " +:+ pretty o | None => "" end.

Definition event_query_text (scope : ScopeContext) (cs : list cond) (limit : Z) (offset : option Z) : string :=
  "SELECT event_json FROM " +:+ database +:+ ".k8s_events" +:+ where_clause cs
    +:+ buildEventQueryOrderBy scope +:+ page_clause limit offset.

Definition buildEventQuery (supported : list string) (now clock : time) (spec : EventQuerySpec)
    (scope : ScopeContext) : res (string * list qarg) :=
  let? cs := event_query_conds supported now spec scope in
  let? offset := if (es_Continue spec =? "")%string then Ok None
                 else let? o := decodeEventQueryCursor clock (es_Continue spec) spec in Ok (Some o) in
  Ok (event_query_text scope cs (resolveEventQueryLimit (es_Limit spec)) offset, cond_args cs).

Definition decode_docs (docs : list string) : list EventRecord :=
  omap (fun d => match json_unmarshal_event d with
                 | inr e => Some (convertEventsV1ToEventRecord e)
                 | inl _ => None
                 end) docs.

(** [QueryEvents]: the clocks of the query, of its cursor check, and of the
    check and the issue of the next cursor. *)
Definition QueryEvents (st : edb) (supported : list string) (now clock check issued : time)
    (spec : EventQuerySpec) (scope : ScopeContext) : res EventQueryResult :=
  let? (query, args) := buildEventQuery supported now clock spec scope in
  let err := unavailable "events" in
  let? r := wrap_err (of_sum (ev_query_docs st query args)) (fun _ => err) in
  let? docs := read_rows err r in
  let? (events, last_) := cut_page (decode_docs docs) (resolveEventQueryLimit (es_Limit spec)) in
  Ok {| eq_Events := events;
        eq_Continue := match last_ with
                       | Some _ => encodeEventQueryCursor check issued spec
                       | None => ""
                       end |}.

(** events_facets.go: a facet over the events table. *)
Record EventFacetQuerySpec := { ef_StartTime : string; ef_EndTime : string; ef_Facets : list FacetFieldSpec }.

Definition event_facet_query (now : time) (facet : FacetFieldSpec) (spec : EventFacetQuerySpec)
    (scope : ScopeContext) : res (string * list qarg) :=
  let? column := GetEventFacetColumn (ff_Field facet) in
  let? range := time_range (ef_StartTime spec) (ef_EndTime spec) "last_timestamp" now in
  let cs := event_scope scope ++ range
              ++ (if HasPrefix (ff_Field facet) "related." then [(column +:+ " != ''", [])] else []) in
  Ok ("SELECT " +:+ column +:+ ", COUNT(*) as count FROM " +:+ database +:+ ".k8s_events"
      +:+ where_clause cs +:+ " GROUP BY " +:+ column +:+ " ORDER BY count DESC, " +:+ column
      +:+ " ASC LIMIT " +:+ pretty (facet_limit (ff_Limit facet)),
      cond_args cs).

Definition queryEventFacet (st : edb) (now : time) (spec : EventFacetQuerySpec) (scope : ScopeContext)
    (facet : FacetFieldSpec) : res FacetFieldResult :=
  let? (query, args) := event_facet_query now facet spec scope in
  let? r := wrap_err (of_sum (ev_query_counts st query args))
              (fun e => Errorf [PStr "failed to execute event facet query: "; PWrap e]) in
  let? vs := read_wrapped "failed to scan event facet row: " "error iterating event facet rows: " r in
  Ok {| fr_Field := ff_Field facet; fr_Values := map (fun '(v, c) => (v, wrap64 c)) vs |}.

Definition QueryEventFacets (st : edb) (now : FacetFieldSpec -> time) (spec : EventFacetQuerySpec)
    (scope : ScopeContext) : res (list FacetFieldResult) :=
  query_facets (fun f => wrap_err (queryEventFacet st (now f) spec scope f)
      (fun e => Errorf [PStr "failed to query event facet "; PStr (ff_Field f); PStr ": "; PWrap e]))
    (ef_Facets spec).
End EventQuery.

(* ------------------------------------------------------------------ *)
(** ** Field selectors: lemmas *)

Definition event_columns : list string := map snd EventsFieldSelectors.

Lemma assoc_snd (table : list (string * string)) k v : assoc table k = Some v -> v ∈ map snd table.
Proof.
  induction table as [|[k' v'] t IH]; [done|]. cbn [assoc map snd]. destruct (k =? k')%string.
  - intros [= ->]. by left.
  - intros ?. right. by apply IH.
Qed.

Lemma selector_term_column supported part t : selector_term supported part = Ok t -> Column t ∈ event_columns.
Proof.
  unfold selector_term. intros Ht.
  assert (forall o : option (string * string * FieldSelectorOp),
    match o with
    | None => Err (Errorf [PStr "invalid field selector syntax: "; PStr part;
                           PStr " (expected field=value or field!=value)"])
    | Some (field, value, op) =>
        let? column := wrap_err (ResolveEventFieldSelector field)
           (fun err => Errorf [PShow err; PStr ". Supported fields: "; PStr (String.concat ", " supported)]) in
        Ok {| Column := column; Operator := op; Value := value |}
    end = Ok t -> Column t ∈ event_columns) as Hgen.
  { intros [[[f v] op]|] Ho; [|done]. apply res_bind_ok in Ho as (c & Hc & [= <-]).
    apply wrap_err_ok in Hc. unfold ResolveEventFieldSelector in Hc. cbn [Column].
    destruct (assoc _ _) as [c'|] eqn:E; [|done]. injection Hc as ->. by apply assoc_snd in E. }
  by apply (Hgen _ Ht).
Qed.

Lemma ParseFieldSelector_columns supported s ts :
  ParseFieldSelector supported s = Ok ts -> Forall (fun t => Column t ∈ event_columns) ts.
Proof.
  unfold ParseFieldSelector. destruct (s =? "")%string; [by intros [= <-]|].
  generalize (Split "," s) as ps. intros ps. revert ts. induction ps as [|p ps IH]; intros ts; cbn [selector_terms].
  { by intros [= <-]. }
  destruct (TrimSpace p =? "")%string; [by apply IH|]. intros Hp.
  apply res_bind_ok in Hp as (t & Ht & Hp). apply res_bind_ok in Hp as (ts' & Hts & [= <-]).
  constructor; [by eapply selector_term_column|by apply IH].
Qed.

(** A selector as clients write it. *)
Inductive sel_op := OpEq | OpEqEq | OpNe.
Definition op_text (o : sel_op) : string := match o with OpEq => "=" | OpEqEq => "==" | OpNe => "!=" end.
Record selector := { s_field : string; s_op : sel_op; s_value : string }.
Definition render (s : selector) : string := s_field s +:+ op_text (s_op s) +:+ s_value s.

(** The fields a selector may name, aliases first resolved. *)
Definition selector_fields : list string := map fst EventsFieldSelectorAliases ++ map fst EventsFieldSelectors.
Definition field_column (f : string) : string :=
  match ResolveEventFieldSelector f with Ok c => c | _ => "" end.
Definition parsed (s : selector) : FieldSelectorTerm :=
  {| Column := field_column (s_field s);
     Operator := match s_op s with OpNe => FieldSelectorNotEqual | _ => FieldSelectorEqual end;
     Value := s_value s |}.

(** A value that the syntax can carry: no comma, no surrounding blanks, and
    nothing an operator could be read into. *)
Definition value_ok (s : selector) : Prop :=
  has_byte "," (s_value s) = false /\ TrimSpace (s_value s) = s_value s
  /\ match s_op s with
     | OpNe => True
     | OpEqEq => Index (s_value s) "!=" = None
     | OpEq => Index (s_value s) "!=" = None /\ Index ("=" +:+ s_value s) "==" = None
     end.
Definition field_byte (a : ascii) : bool :=
  negb (bool_decide (a ∈ [","; "!"; "="]%char) || is_space a)%bool.

Lemma selector_fields_ok :
  Forall (fun f => f <> "" /\ all_bytes field_byte f = true /\ ResolveEventFieldSelector f = Ok (field_column f))
    selector_fields.
Proof. repeat (constructor; [split; [discriminate|split; reflexivity]|]). constructor. Qed.

(** Searching past bytes the pattern does not start with. *)
Lemma Index_skip (f v : string) (c : ascii) (p : string) :
  has_byte c f = false -> Index (f +:+ v) (String c p) = (fun n => String.length f + n)%nat <$> Index v (String c p).
Proof.
  induction f as [|a f IH]; cbn [has_byte].
  - intros _. cbn. by destruct (Index v (String c p)).
  - intros (Ha & Hf)%orb_false_iff. change (String a f +:+ v) with (String a (f +:+ v)).
    cbn [Index HasPrefix]. rewrite Ascii.eqb_sym in Ha. rewrite Ha. cbn [andb]. rewrite IH by done.
    by destruct (Index v (String c p)).
Qed.

Lemma rev_string_app (s acc : string) : rev_string s acc = rev_string s "" +:+ acc.
Proof.
  revert acc. induction s as [|a s IH]; intros acc; [done|]. cbn [rev_string].
  rewrite IH, (IH (String a "")), append_assoc. done.
Qed.
Lemma rev_append (s t : string) : rev_string (s +:+ t) "" = rev_string t "" +:+ rev_string s "".
Proof.
  induction s as [|a s IH]; [by rewrite append_nil_r|].
  change (String a s +:+ t) with (String a (s +:+ t)). cbn [rev_string].
  by rewrite rev_string_app, IH, append_assoc, <- (rev_string_app s (String a "")).
Qed.
Lemma rev_rev (s : string) : rev_string (rev_string s "") "" = s.
Proof.
  induction s as [|a s IH]; [done|]. cbn [rev_string]. rewrite (rev_string_app s (String a "")), rev_append, IH. done.
Qed.
Lemma rev_length (s : string) : String.length (rev_string s "") = String.length s.
Proof.
  induction s as [|a s IH]; [done|]. cbn [rev_string]. rewrite rev_string_app, length_append, IH. cbn. lia.
Qed.

Definition starts_plain (s : string) : bool :=
  match s with String a _ => negb (is_space a) | EmptyString => false end.
Lemma trim_left_length (s : string) : (String.length (trim_left s) <= String.length s)%nat.
Proof. induction s as [|a s IH]; [done|]. cbn. destruct (is_space a); cbn; lia. Qed.
Lemma trim_left_id (s : string) :
  String.length (trim_left s) = String.length s <-> trim_left s = s.
Proof.
  split; [|by intros ->]. destruct s as [|a s]; [done|]. cbn [trim_left]. destruct (is_space a); [|done].
  pose proof (trim_left_length s). cbn. lia.
Qed.
Lemma trim_left_plain (s t : string) : starts_plain s = true -> trim_left (s +:+ t) = s +:+ t.
Proof.
  destruct s as [|a s]; [done|]. cbn [starts_plain]. intros Ha. apply negb_true_iff in Ha. cbn. by rewrite Ha.
Qed.

(** A trimmed text ends in a byte that is not blank. *)
Lemma TrimSpace_ends (v : string) :
  TrimSpace v = v -> v <> "" -> starts_plain (rev_string v "") = true.
Proof.
  unfold TrimSpace. intros E Hne.
  pose proof (f_equal String.length E) as Hl. rewrite rev_length in Hl.
  pose proof (trim_left_length (rev_string (trim_left v) "")) as H1. rewrite rev_length in H1.
  pose proof (trim_left_length v) as H2.
  assert (trim_left v = v) as Ev by (apply trim_left_id; lia). rewrite Ev in *.
  assert (trim_left (rev_string v "") = rev_string v "") as Er
    by (apply trim_left_id; rewrite rev_length in *; lia).
  destruct (rev_string v "") as [|a r] eqn:Erv.
  { apply (f_equal String.length) in Erv. rewrite rev_length in Erv. by destruct v. }
  cbn [trim_left] in Er. cbn [starts_plain]. destruct (is_space a) eqn:Ea; [|done].
  pose proof (trim_left_length r). apply (f_equal String.length) in Er. cbn in Er. lia.
Qed.

Lemma TrimSpace_plain (s : string) :
  starts_plain s = true -> starts_plain (rev_string s "") = true -> TrimSpace s = s.
Proof.
  intros Hs Hr. unfold TrimSpace. pose proof (trim_left_plain s "" Hs) as E.
  rewrite append_nil_r in E. rewrite E. pose proof (trim_left_plain _ "" Hr) as E'.
  rewrite append_nil_r in E'. by rewrite E', rev_rev.
Qed.

Lemma field_bytes_plain (f : string) :
  f <> "" -> all_bytes field_byte f = true -> starts_plain f = true /\ starts_plain (rev_string f "") = true.
Proof.
  intros Hne Hf. assert (forall g, g <> "" -> all_bytes field_byte g = true -> starts_plain g = true) as Hst.
  { intros [|a g] Hg Hall; [done|]. cbn [all_bytes starts_plain] in *. apply andb_true_iff in Hall as [Ha _].
    unfold field_byte in Ha. destruct (is_space a); [|done]. by rewrite orb_true_r in Ha. }
  split; [by apply Hst|]. apply Hst.
  - intros E. apply (f_equal String.length) in E. rewrite rev_length in E. by destruct f.
  - clear Hne Hst. induction f as [|a f IH]; [done|]. cbn [all_bytes rev_string] in *.
    apply andb_true_iff in Hf as [Ha Hf]. rewrite rev_string_app, all_bytes_append, IH by done.
    cbn [all_bytes]. by rewrite Ha.
Qed.

Lemma render_trimmed (s : selector) :
  s_field s ∈ selector_fields -> TrimSpace (s_value s) = s_value s -> TrimSpace (render s) = render s.
Proof.
  intros Hf Hv. pose proof selector_fields_ok as Hok. rewrite Forall_forall in Hok.
  destruct (Hok _ Hf) as (Hne & Hb & _). destruct (field_bytes_plain _ Hne Hb) as [Hs _].
  unfold render. apply TrimSpace_plain.
  - by destruct (s_field s).
  - rewrite !rev_append. destruct (decide (s_value s = "")) as [->|Hvne].
    + by destruct (s_op s).
    + pose proof (TrimSpace_ends _ Hv Hvne) as He. by destruct (rev_string (s_value s) "").
Qed.

Lemma drop_past (k : nat) (f a v : string) :
  String.length a = k -> drop_str (String.length f + k) (f +:+ (a +:+ v)) = v.
Proof.
  intros <-. rewrite <- length_append, <- append_assoc. apply drop_str_append.
Qed.

(** One term is read back. *)
Lemma selector_term_render supported (s : selector) :
  s_field s ∈ selector_fields -> value_ok s -> selector_term supported (render s) = Ok (parsed s).
Proof.
  intros Hf (Hc & Hv & Hop). pose proof selector_fields_ok as Hok. rewrite Forall_forall in Hok.
  destruct (Hok _ Hf) as (Hne & Hb & Hres). destruct (field_bytes_plain _ Hne Hb) as [Hs Hr].
  pose proof (TrimSpace_plain _ Hs Hr) as Htrim.
  pose proof (fun c => all_bytes_has_byte field_byte c (s_field s) Hb) as Hno.
  unfold selector_term, render, parsed.
  destruct s as [f op v]; cbn [s_field s_op s_value] in *. destruct op; cbn [op_text] in *.
  - destruct Hop as [Hne' Heq]. rewrite (Index_skip f ("=" +:+ v) "!" "=") by (by apply Hno).
    rewrite (Index_skip f ("=" +:+ v) "=" "=") by (by apply Hno).
    rewrite (Index_skip f ("=" +:+ v) "=" "") by (by apply Hno).
    change (Index ("=" +:+ v) "!=") with (option_map S (Index v "!=")). rewrite Hne', Heq.
    change (Index ("=" +:+ v) "=") with (Some O). cbn -[take_str drop_str String.append Index]. rewrite Nat.add_0_r, take_str_append, Htrim.
    rewrite (drop_past 1 f "=" v eq_refl), Hv, Hres. done.
  - rewrite (Index_skip f ("==" +:+ v) "!" "=") by (by apply Hno).
    rewrite (Index_skip f ("==" +:+ v) "=" "=") by (by apply Hno).
    change (Index ("==" +:+ v) "!=") with (option_map S (option_map S (Index v "!="))). rewrite Hop.
    change (Index ("==" +:+ v) "==") with (Some O). cbn -[take_str drop_str String.append Index]. rewrite Nat.add_0_r, take_str_append, Htrim.
    rewrite (drop_past 2 f "==" v eq_refl), Hv, Hres. done.
  - rewrite (Index_skip f ("!=" +:+ v) "!" "=") by (by apply Hno).
    change (Index ("!=" +:+ v) "!=") with (Some O). cbn -[take_str drop_str String.append Index]. rewrite Nat.add_0_r, take_str_append, Htrim.
    rewrite (drop_past 2 f "!=" v eq_refl), Hv, Hres. done.
Qed.

Lemma Split_concat (c : ascii) (l : list string) :
  l <> [] -> Forall (fun s => has_byte c s = false) l -> Split c (String.concat (String c "") l) = l.
Proof.
  intros Hne Hl. induction Hl as [|s l Hs Hl IH]; [done|]. destruct l as [|s' l].
  { cbn [String.concat]. by apply Split_no_sep. }
  change (String.concat (String c "") (s :: s' :: l)) with (s +:+ String c (String.concat (String c "") (s' :: l))).
  rewrite Split_append, IH, Split_no_sep by done. done.
Qed.

Lemma render_no_comma (s : selector) :
  s_field s ∈ selector_fields -> has_byte "," (s_value s) = false -> has_byte "," (render s) = false.
Proof.
  intros Hf Hv. pose proof selector_fields_ok as Hok. rewrite Forall_forall in Hok.
  destruct (Hok _ Hf) as (_ & Hb & _). unfold render. rewrite !has_byte_append, Hv.
  rewrite (all_bytes_has_byte field_byte "," _ Hb) by done. by destruct (s_op s).
Qed.

Lemma selector_terms_render supported (ss : list selector) :
  Forall (fun s => s_field s ∈ selector_fields /\ value_ok s) ss ->
  selector_terms supported (map render ss) = Ok (map parsed ss).
Proof.
  induction 1 as [|s ss (Hf & Hv) Hss IH]; [done|]. cbn [map selector_terms].
  rewrite render_trimmed by (done || apply Hv).
  assert (render s <> "") as Hne.
  { unfold render. pose proof selector_fields_ok as Hok. rewrite Forall_forall in Hok.
    destruct (Hok _ Hf) as (Hne & _). by destruct (s_field s). }
  apply String.eqb_neq in Hne. rewrite Hne, selector_term_render by done. cbn [res_bind].
  by rewrite IH.
Qed.

(* ------------------------------------------------------------------ *)
(** ** What the SQL of the store means *)

(** A row of [k8s_events], and the simple conditions: a text column equal to a
    value or not, an instant at or after, or before, another. *)
Record row := { row_doc : string; row_at : time }.
Inductive scond :=
| SEq (col v : string)
| SNe (col v : string)
| SGe (col : string) (t : time)
| SLt (col : string) (t : time).

Definition scol (c : scond) : string :=
  match c with SEq k _ | SNe k _ | SGe k _ | SLt k _ => k end.
Definition sop (c : scond) : string :=
  match c with SEq _ _ => "=" | SNe _ _ => "!=" | SGe _ _ => ">=" | SLt _ _ => "<" end.
Definition sarg (c : scond) : qarg :=
  match c with SEq _ v | SNe _ v => qstr v | SGe _ t | SLt _ t => qtime t end.
Definition sql (c : scond) : cond := (scol c +:+ " " +:+ sop c +:+ " ?", [sarg c]).
Definition plain_col (c : scond) : Prop := has_byte " " (scol c) = false.

Section Meaning.
Context (column : string -> string -> string) (instant : string -> string -> time) (bound_time : time -> time).

(** A condition on a row; [inserted_at] is stored beside the document, the
    other columns are materialised from it.  An instant is compared as the
    driver binds it. *)
Definition holds (r : row) (c : scond) : bool :=
  let inst k := if (k =? "inserted_at")%string then row_at r else instant (row_doc r) k in
  match c with
  | SEq k v => (column (row_doc r) k =? v)%string
  | SNe k v => negb (column (row_doc r) k =? v)%string
  | SGe k t => (bound_time t <=? inst k)%Z
  | SLt k t => (inst k <? bound_time t)%Z
  end.
Definition selected (cs : list scond) (r : row) : Prop := Forall (fun c => holds r c = true) cs.
End Meaning.

(** What the store relies on: the meaning of its statements on the rows of the
    table ([Exec] may drop old versions of a row at any time: the table is a
    ReplacingMergeTree), and of the columns migrations/008 materialises from
    the document of an event.  The driver binds a [time.Time] given for a [?] as
    a time of whole seconds ([bound_time]); a column reads back exactly. *)
Class EventsDBLaws `{EventLib} `{EventsDB} (b : EventsBackend) := {
  rows_of : edb -> list row;
  column : string -> string -> string;
  instant : string -> string -> time;
  bound_time : time -> time;
  bound_time_seconds t : bound_time t = (t / Second * Second)%Z;
  row_found st cs doc t : Forall plain_col cs ->
    ev_query_row st (select_query b (map sql cs) 1) (cond_args (map sql cs)) = inr (doc, t) ->
    {| row_doc := doc; row_at := t |} ∈ rows_of st
    /\ selected column instant bound_time cs {| row_doc := doc; row_at := t |}
    /\ forall r, r ∈ rows_of st -> selected column instant bound_time cs r -> (row_at r <= t)%Z;
  row_missing st cs e : Forall plain_col cs ->
    ev_query_row st (select_query b (map sql cs) 1) (cond_args (map sql cs)) = inl e ->
    Contains (error_text e) "no rows" = true ->
    forall r, r ∈ rows_of st -> ~ selected column instant bound_time cs r;
  rows_listed st cs n rs : Forall plain_col cs ->
    ev_query st (select_query b (map sql cs) n) (cond_args (map sql cs)) = inr rs ->
    forall doc t, inr (doc, t) ∈ scanned rs ->
      {| row_doc := doc; row_at := t |} ∈ rows_of st
      /\ selected column instant bound_time cs {| row_doc := doc; row_at := t |};
  row_inserted st doc t r st' :
    ev_exec st (insert_query b) [qstr doc; qtime t] = (r, st') ->
    (r = None -> {| row_doc := doc; row_at := bound_time t |} ∈ rows_of st')
    /\ forall x, x ∈ rows_of st' -> x = {| row_doc := doc; row_at := bound_time t |} \/ x ∈ rows_of st;
  rows_deleted st cs r st' : Forall plain_col cs ->
    ev_exec st (delete_query b (map sql cs)) (cond_args (map sql cs)) = (r, st') ->
    (forall x, x ∈ rows_of st' -> x ∈ rows_of st)
    /\ forall x, x ∈ rows_of st -> ~ selected column instant bound_time cs x -> x ∈ rows_of st';
  event_columns_of e doc : json_marshal_event e = inr doc ->
    column doc "namespace" = ev_Namespace e /\ column doc "name" = ev_Name e
    /\ (forall a, ev_Annotations e = Some a ->
          column doc "scope_type" = default "" (a !! ScopeTypeAnnotation)
          /\ column doc "scope_name" = default "" (a !! ScopeNameAnnotation));
  event_read_back e doc : json_marshal_event e = inr doc ->
    exists e', json_unmarshal_event doc = inr e' /\ ev_Namespace e' = ev_Namespace e
      /\ ev_Name e' = ev_Name e /\ ev_UID e' = ev_UID e
      /\ (ev_Series e' = None <-> ev_Series e = None) }.

(** The scopes of a tenant. *)
Definition tenant_scope (scope : ScopeContext) : Prop :=
  sc_Type scope ∈ [TenantTypeUser; TenantTypeOrganization; TenantTypeProject].
Definition tenant_conds (scope : ScopeContext) : list scond :=
  [SEq "scope_type" (sc_Type scope); SEq "scope_name" (sc_Name scope)].

Lemma event_scope_tenant scope : tenant_scope scope -> event_scope scope = map sql (tenant_conds scope).
Proof.
  unfold tenant_scope, event_scope. rewrite !elem_of_cons, elem_of_nil.
  intros [E|[E|[E|[]]]]; rewrite E; unfold tenant_conds; cbn [map sql scol sop sarg]; by rewrite E.
Qed.

Lemma scope_annotations_tenant scope a :
  tenant_scope scope -> exists m, scope_annotations scope a = Some m
    /\ m !! ScopeTypeAnnotation = Some (sc_Type scope) /\ m !! ScopeNameAnnotation = Some (sc_Name scope).
Proof.
  unfold tenant_scope, scope_annotations. rewrite !elem_of_cons, elem_of_nil. intros Hs.
  eexists. split; [reflexivity|].
  assert ((negb (sc_Type scope =? "") && negb (sc_Type scope =? TenantTypePlatform))%string%bool = true) as ->
    by (by destruct Hs as [->|[->|[->|[]]]]).
  split; [rewrite lookup_insert_ne by done|]; by rewrite lookup_insert_eq.
Qed.

(** Conditions of the code that are simple. *)
Lemma ToSQL_simple t : Column t ∈ event_columns -> exists c, ToSQL t = sql c /\ plain_col c.
Proof.
  intros Hc. assert (has_byte " " (Column t) = false) as Hp.
  { assert (Forall (fun k => has_byte " " k = false) event_columns) as Hall by by_decide.
    rewrite Forall_forall in Hall. by apply Hall. }
  unfold ToSQL. destruct (Operator t).
  - by exists (SEq (Column t) (Value t)).
  - by exists (SNe (Column t) (Value t)).
Qed.

Lemma simple_all {A} (f : A -> cond) (l : list A) :
  (forall x, x ∈ l -> exists c, f x = sql c /\ plain_col c) ->
  exists cs, map f l = map sql cs /\ Forall plain_col cs.
Proof.
  induction l as [|x l IH]; intros Hl; [by exists []|].
  destruct (Hl x) as (c & Hc & Hp); [by left|]. destruct IH as (cs & Hcs & Hps).
  { intros y Hy. apply Hl. by right. }
  exists (c :: cs). cbn [map]. by rewrite Hc, Hcs, Forall_cons.
Qed.

Lemma list_conds_simple supported now ns opts scope cs :
  tenant_scope scope -> list_conds supported now ns opts scope = Ok cs ->
  exists cs0 cs1, cs = map sql (cs0 ++ tenant_conds scope ++ cs1) /\ Forall plain_col (cs0 ++ cs1)
    /\ (ns <> "" -> SEq "namespace" ns ∈ cs0).
Proof.
  intros Hs Hcs. apply res_bind_ok in Hcs as (terms & Ht & [= <-]). apply wrap_err_ok in Ht.
  apply ParseFieldSelector_columns in Ht. rewrite Forall_forall in Ht.
  destruct (simple_all ToSQL terms) as (ts & Hts & Hps).
  { intros x Hx. by apply ToSQL_simple, Ht. }
  rewrite event_scope_tenant by done. unfold FieldSelectorTermsToSQL. rewrite Hts.
  set (nsc := if (ns =? "")%string then [] else [SEq "namespace" ns]).
  set (cont := if (lo_Continue opts =? "")%string then []
               else match ParseInt64 (lo_Continue opts) with
                    | Some rv => [SLt "inserted_at" (of_unix_nano rv)] | None => [] end).
  exists (SGe "last_timestamp" (Add now (- (24 * Hour))) :: nsc), (ts ++ cont). split_and!.
  - rewrite !map_app. cbn [map app]. f_equal. unfold nsc, cont.
    by destruct (ns =? "")%string, (lo_Continue opts =? "")%string, (ParseInt64 (lo_Continue opts)).
  - rewrite Forall_app, Forall_cons, Forall_app. unfold nsc, cont.
    split_and!; [done| |done|]; case_split; by repeat constructor.
  - intros Hne. unfold nsc. apply String.eqb_neq in Hne. rewrite Hne. right. by left.
Qed.

Lemma Forall_sub {A} (P : A -> Prop) (l l' : list A) : l' ⊆ l -> Forall P l -> Forall P l'.
Proof. rewrite !Forall_forall. set_solver. Qed.

Lemma elem_of_take_in {A} (l : list A) (n : nat) (x : A) : x ∈ take n l -> x ∈ l.
Proof. intros Hx. rewrite <- (take_drop n l). set_solver. Qed.

(** Rows read without an error are those scanned. *)
Lemma scan_read {A} (w1 w2 : string) (r : rows A) (l : list A) :
  read_wrapped w1 w2 r = Ok l ->
  l = omap (fun x => match x with inr y => Some y | inl _ => None end) (scanned r).
Proof.
  intros Hr. apply res_bind_ok in Hr as (l' & Hl & Hr). destruct (rows_err r); [done|]. injection Hr as ->.
  revert l Hl. induction (scanned r) as [|[e|a] s IH]; intros l Hl; cbn in *; [by injection Hl as <-|done|].
  apply res_bind_ok in Hl as (l' & Hl & [= <-]). by rewrite (IH l').
Qed.

Section StoreLemmas.
Context `{EventLib} `{EventsDB} `{JetStream} (b : EventsBackend) `{!EventsDBLaws b}.

(** A row of a tenant, of a key, and an event read from it. *)
Definition in_tenant (scope : ScopeContext) (doc : string) : Prop :=
  column doc "scope_type" = sc_Type scope /\ column doc "scope_name" = sc_Name scope.
Definition keyed (namespace name doc : string) : Prop :=
  column doc "namespace" = namespace /\ column doc "name" = name.
Definition read_from (r : row) (e : Event) : Prop :=
  exists e0, json_unmarshal_event (row_doc r) = inr e0 /\ e = with_rv e0 (rv_of (row_at r)).

Definition get_conds (ns name : string) (scope : ScopeContext) : list scond :=
  [SEq "namespace" ns; SEq "name" name] ++ tenant_conds scope.

Lemma get_conds_plain ns name scope : Forall plain_col (get_conds ns name scope).
Proof. by repeat constructor. Qed.

Lemma get_conds_sql ns name scope :
  tenant_scope scope -> key_conds ns name ++ event_scope scope = map sql (get_conds ns name scope).
Proof. intros Hs. by rewrite (event_scope_tenant _ Hs). Qed.

Lemma holds_eq (r : row) (k v : string) :
  holds column instant bound_time r (SEq k v) = true <-> column (row_doc r) k = v.
Proof. apply String.eqb_eq. Qed.

Lemma get_conds_selected ns name scope r :
  selected column instant bound_time (get_conds ns name scope) r <->
  keyed ns name (row_doc r) /\ in_tenant scope (row_doc r).
Proof.
  unfold selected, get_conds, tenant_conds, keyed, in_tenant. cbn [app].
  rewrite !Forall_cons, !holds_eq, Forall_nil. tauto.
Qed.

(** [Get] in a tenant scope reads the newest row of the key and the tenant. *)
Lemma Get_row st ns name scope e :
  tenant_scope scope -> Get b st ns name scope = Ok e ->
  exists r, r ∈ rows_of st /\ in_tenant scope (row_doc r) /\ keyed ns name (row_doc r) /\ read_from r e
    /\ forall r', r' ∈ rows_of st -> in_tenant scope (row_doc r') -> keyed ns name (row_doc r') ->
         (row_at r' <= row_at r)%Z.
Proof using All.
  intros Hs. unfold Get. rewrite (get_conds_sql _ _ _ Hs).
  destruct (ev_query_row _ _ _) as [err|[doc t]] eqn:Hq; [by destruct (Contains _ _)|].
  apply row_found in Hq as (Hin & Hsel & Hnew); [|apply get_conds_plain].
  intros Hget. apply res_bind_ok in Hget as (e0 & He0 & [= <-]).
  apply wrap_err_ok in He0. apply get_conds_selected in Hsel as [Hk Ht].
  eexists. split; [exact Hin|]. split_and!; [done|done| |].
  - exists e0. split; [|done]. cbn [row_doc]. destruct (json_unmarshal_event doc); [done|by injection He0 as ->].
  - intros r' Hr' Ht' Hk'. apply Hnew; [done|]. by apply get_conds_selected.
Qed.

(** A found row cannot be reported missing. *)
Lemma Get_found st ns name scope r :
  tenant_scope scope -> r ∈ rows_of st -> in_tenant scope (row_doc r) -> keyed ns name (row_doc r) ->
  Get b st ns name scope <> Err (NewNotFound name).
Proof using All.
  intros Hs Hr Ht Hk. unfold Get. rewrite (get_conds_sql _ _ _ Hs).
  destruct (ev_query_row _ _ _) as [err|[doc t]] eqn:Hq.
  - destruct (Contains (error_text err) "no rows") eqn:Hc; [|done].
    eapply row_missing in Hq; [|apply get_conds_plain|done|exact Hr].
    destruct Hq. by apply get_conds_selected.
  - destruct (json_unmarshal_event doc); done.
Qed.

(** What [List] returns in a tenant scope is read from rows of the tenant. *)
Lemma List_rows st supported now ns opts scope l :
  tenant_scope scope -> List b st supported now ns opts scope = Ok l ->
  Forall (fun e => exists r, r ∈ rows_of st /\ in_tenant scope (row_doc r)
            /\ (ns <> "" -> column (row_doc r) "namespace" = ns) /\ read_from r e) (el_Items l).
Proof using All.
  intros Hs Hl. apply res_bind_ok in Hl as (cs & Hcs & Hl).
  apply res_bind_ok in Hl as (rs & Hrs & Hl). apply res_bind_ok in Hl as (docs & Hdocs & Hl).
  apply (list_conds_simple supported now ns opts scope cs Hs) in Hcs as (cs0 & cs1 & -> & Hp & Hns).
  apply wrap_err_ok in Hrs. destruct (ev_query _ _ _) as [?|rs'] eqn:Hq; [done|]. injection Hrs as ->.
  assert (Forall plain_col (cs0 ++ tenant_conds scope ++ cs1)) as Hplain.
  { apply Forall_app in Hp as [? ?]. apply Forall_app. split; [done|]. apply Forall_app.
    split; [by repeat constructor|done]. }
  pose proof (rows_listed _ _ _ _ Hplain Hq) as Hrow.
  apply scan_read in Hdocs. apply (Forall_sub _ (decode_rows docs)).
  { injection Hl as <-. cbn [el_Items]. case_split; [|done]. intros x Hx. by eapply elem_of_take_in. }
  clear Hl l. subst docs. apply Forall_forall. intros e He.
  apply list_elem_of_omap in He as ([doc t] & Hin & He).
  apply list_elem_of_omap in Hin as ([?|?] & Hin & [= ->]).
  destruct (Hrow _ _ Hin) as [Hr Hsel]. exists {| row_doc := doc; row_at := t |}.
  unfold selected in Hsel. rewrite !Forall_app in Hsel. destruct Hsel as (Hk & Ht & _).
  unfold tenant_conds in Ht. rewrite !Forall_cons, !holds_eq in Ht. destruct Ht as (? & ? & _).
  split_and!; [done|done| |].
  - intros Hne. rewrite Forall_forall in Hk. by apply (holds_eq {| row_doc := doc; row_at := t |}), Hk, Hns.
  - destruct (json_unmarshal_event doc) as [?|e0] eqn:E0; [done|]. injection He as <-. by exists e0.
Qed.

(** What a write leaves: old rows and rows of the tenant, and only documents of
    the tenant are published. *)
Definition tenant_only (scope : ScopeContext) (st st' : edb) (log : list pub) : Prop :=
  (forall r, r ∈ rows_of st' -> r ∈ rows_of st \/ in_tenant scope (row_doc r))
  /\ Forall (fun p => in_tenant scope (p_data p)) log.

Lemma doc_in_tenant scope a e doc :
  tenant_scope scope -> ev_Annotations e = scope_annotations scope a ->
  json_marshal_event e = inr doc -> in_tenant scope doc.
Proof using All.
  intros Hs Ha Hdoc. destruct (scope_annotations_tenant scope a Hs) as (m & Hm & Ht & Hn).
  rewrite Hm in Ha. apply event_columns_of in Hdoc as (_ & _ & Hc).
  destruct (Hc m Ha) as [Et En]. unfold in_tenant. by rewrite Et, En, Ht, Hn.
Qed.

Lemma save_tenant_only st t w1 w2 scope a e st' log r :
  tenant_scope scope -> ev_Annotations e = scope_annotations scope a ->
  save b st t w1 w2 e = (st', log, r) -> tenant_only scope st st' log.
Proof using All.
  intros Hs Ha. unfold save. destruct (eb_publisher b) as [p|].
  - unfold Publish. destruct (js_connected p); cbn [negb].
    + destruct (json_marshal_event e) as [err|doc] eqn:Hdoc.
      * intros [= <- <- _]. split; [by left|done].
      * unfold do_publish. destruct (js_Publish _ _ _) eqn:Hp; intros [= <- <- _];
          (split; [by left|]; constructor; [|done]; by eapply doc_in_tenant).
    + intros [= <- <- _]. split; [by left|done].
  - destruct (json_marshal_event e) as [err|doc] eqn:Hdoc.
    + intros [= <- <- _]. split; [by left|done].
    + destruct (ev_exec _ _ _) as [x st1] eqn:Hx. intros [= <- <- _].
      apply row_inserted in Hx as [_ Hx]. split; [|done].
      intros r' Hr'. destruct (Hx r' Hr') as [->|?]; [right|by left]. by eapply doc_in_tenant.
Qed.

Lemma Create_tenant_only st uuid now t scope e st' log r :
  tenant_scope scope -> Create b st uuid now t scope e = (st', log, r) -> tenant_only scope st st' log.
Proof using All.
  intros Hs Hc.
  exact (save_tenant_only st t _ _ scope (ev_Annotations e) (prepare_create uuid now scope e) _ _ _ Hs eq_refl Hc).
Qed.

Lemma Update_tenant_only st now t scope e st' log r :
  tenant_scope scope -> Update b st now t scope e = (st', log, r) -> tenant_only scope st st' log.
Proof using All.
  intros Hs. unfold Update.
  destruct (Get b st _ _ scope) as [ex|?|?]; [|by intros [= <- <- _]; split; [left|]..].
  unfold prepare_update. destruct (ev_Series ex); [|by intros [= <- <- _]; split; [left|]].
  intros Hc. by apply (save_tenant_only st t _ _ scope (ev_Annotations e) _ _ _ _ Hs) in Hc.
Qed.

Lemma Delete_keeps st ns name scope st' r :
  tenant_scope scope -> Delete b st ns name scope = (st', r) ->
  (forall x, x ∈ rows_of st' -> x ∈ rows_of st)
  /\ forall x, x ∈ rows_of st -> ~ in_tenant scope (row_doc x) -> x ∈ rows_of st'.
Proof using All.
  intros Hs. unfold Delete. destruct (Get b st _ _ scope); [|by intros [= <- _]; split..].
  rewrite (get_conds_sql _ _ _ Hs). destruct (ev_exec _ _ _) as [x st1] eqn:Hx. intros [= <- _].
  apply rows_deleted in Hx as [Hsub Hkeep]; [|apply get_conds_plain]. split; [done|].
  intros y Hy Hn. apply Hkeep; [done|]. by intros [_ ?]%get_conds_selected.
Qed.
End StoreLemmas.

(** C17: the event store keeps tenants apart: in the scope of a user, an
    organization or a project, [Get] and [List] return only events of rows of
    that tenant (and of the namespace and name asked for), [Create] and
    [Update] write and publish only documents annotated with that tenant, and
    [Delete] leaves every row of other tenants. *)
Theorem event_store_isolates `{EventLib} `{EventsDB} `{JetStream} (b : EventsBackend) `{!EventsDBLaws b}
    (scope : ScopeContext) (st : edb) :
  tenant_scope scope ->
  (forall ns name e, Get b st ns name scope = Ok e ->
     exists r, r ∈ rows_of st /\ in_tenant b scope (row_doc r) /\ keyed b ns name (row_doc r) /\ read_from r e)
  /\ (forall supported now ns opts l, List b st supported now ns opts scope = Ok l ->
        Forall (fun e => exists r, r ∈ rows_of st /\ in_tenant b scope (row_doc r)
                  /\ (ns <> "" -> column (row_doc r) "namespace" = ns) /\ read_from r e) (el_Items l))
  /\ (forall uuid now t e st' log r, Create b st uuid now t scope e = (st', log, r) ->
        tenant_only b scope st st' log)
  /\ (forall now t e st' log r, Update b st now t scope e = (st', log, r) ->
        tenant_only b scope st st' log)
  /\ (forall ns name st' r, Delete b st ns name scope = (st', r) ->
        (forall x, x ∈ rows_of st' -> x ∈ rows_of st)
        /\ forall x, x ∈ rows_of st -> ~ in_tenant b scope (row_doc x) -> x ∈ rows_of st').
Proof.
  intros Hs. split_and!.
  - intros ns name e He. apply (Get_row b) in He as (r & ? & ? & ? & ? & _); [|done]. by exists r.
  - intros supported now ns opts l Hl. apply (List_rows b) in Hl; [exact Hl|done].
  - intros uuid now t e st' log r. by apply (Create_tenant_only b).
  - intros now t e st' log r. by apply (Update_tenant_only b).
  - intros ns name st' r. by apply (Delete_keeps b).
Qed.

(* ------------------------------------------------------------------ *)
(** ** Conditions of the event queries are well formed *)

(** A column of the table followed by an operator and a placeholder. *)
Lemma column_cond_wf (op col v : string) :
  col ∈ event_columns -> count_byte "?" op = 1 -> text_ok op = true -> cond_wf (col +:+ op, [qstr v]).
Proof.
  intros Hc Hn Ht.
  assert (Forall (fun k => has_byte "?" k = false /\ has_byte "R" k = false /\ outside 0 k = Some (O, k))
            event_columns) as Hall by by_decide.
  rewrite Forall_forall in Hall. destruct (Hall _ Hc) as (Hq & Hr & Ho). apply cond_wf_const.
  - by rewrite count_byte_append, (count_byte_none _ _ Hq), Hn.
  - unfold text_ok in *. rewrite outside_append, Ho. cbn [mbind option_bind].
    destruct (outside 0 op) as [[[|] u]|]; [|done..]. cbn [mbind option_bind].
    breflect. by rewrite has_byte_append, Hr, Ht.
Qed.

Lemma selector_conds_wf supported text ts :
  ParseFieldSelector supported text = Ok ts -> Forall cond_wf (FieldSelectorTermsToSQL ts).
Proof.
  intros Hts. apply ParseFieldSelector_columns in Hts. unfold FieldSelectorTermsToSQL.
  induction Hts as [|t ts Ht Hts IH]; [constructor|]. cbn [map]. constructor; [|exact IH].
  unfold ToSQL. destruct (Operator t); by apply column_cond_wf.
Qed.

Lemma event_scope_wf scope : Forall cond_wf (event_scope scope).
Proof. unfold event_scope. case_split; wf_consts. Qed.

Lemma last_range_wf s e now cs : time_range s e "last_timestamp" now = Ok cs -> Forall cond_wf cs.
Proof.
  unfold time_range. intros H. inv_res. apply Forall_app.
  split; (eapply time_bound_wf; [eassumption|]; intros q; wf_const).
Qed.

Lemma facet_cond_wf f col : GetEventFacetColumn f = Ok col -> cond_wf (col +:+ " != ''", []).
Proof.
  unfold GetEventFacetColumn, facet_column. intros Hc. destruct (assoc _ _) as [c|] eqn:E; [|done].
  injection Hc as <-. apply assoc_snd in E.
  assert (Forall (fun k => count_byte "?" (k +:+ " != ''") = O /\ text_ok (k +:+ " != ''") = true)
            (map snd eventFacetColumnMapping)) as Hall by by_decide.
  rewrite Forall_forall in Hall. destruct (Hall _ E). by apply cond_wf_const.
Qed.

(* ------------------------------------------------------------------ *)
(** ** Listing every page of an event query *)

Class EventCursorLaws `{EventCursorLib} := {
  ecursor_round c : (- 2 ^ 31 <= ec_Offset c < 2 ^ 31)%Z -> json_time (ec_IssuedAt c) ->
    json_unmarshal_ecursor (json_marshal_ecursor c) = inr c;
  ecursor_nonempty c : json_time (ec_IssuedAt c) -> json_marshal_ecursor c <> "" }.

(** One row more than the page decides whether there is another page. *)
Lemma cut_page_take {A} (R : list A) (limit : Z) :
  (0 < limit < 2 ^ 31 - 1)%Z ->
  cut_page (take (Z.to_nat (limit + 1)) R) limit
  = Ok (take (Z.to_nat limit) R,
        if (Z.of_nat (length R) <=? limit)%Z then None else list.last (take (Z.to_nat limit) R)).
Proof.
  intros Hl. unfold cut_page. rewrite wrap32_id by (rewrite length_take; lia).
  rewrite length_take. destruct (Z.leb_spec (Z.of_nat (length R)) limit).
  - rewrite (take_ge R (Z.to_nat limit)), (take_ge R (Z.to_nat (limit + 1))) by lia.
    by destruct (Z.ltb_spec limit (Z.of_nat (Z.to_nat (limit + 1) `min` length R))); [lia|].
  - destruct (Z.ltb_spec limit (Z.of_nat (Z.to_nat (limit + 1) `min` length R))); [|lia].
    destruct (Z.ltb_spec limit 0); [lia|]. by rewrite take_take, Nat.min_l by lia.
Qed.

Section EventPages.
Context `{EventLib} `{EventsDB} `{CursorLib} `{EventCursorLib} {CL : CursorLaws} {EL : EventCursorLaws}.
Context (database : string) (st : edb) (supported : list string) (scope : ScopeContext).

(** The clocks of request number [i]. *)
Record event_clock := { ek_now : time; ek_clock : time; ek_check : time; ek_issue : time }.
Context (clocks : nat -> event_clock).

Definition es_with_continue (spec : EventQuerySpec) (token : string) : EventQuerySpec :=
  {| es_StartTime := es_StartTime spec; es_EndTime := es_EndTime spec; es_Namespace := es_Namespace spec;
     es_FieldSelector := es_FieldSelector spec; es_Limit := es_Limit spec; es_Continue := token |}.

(** A client that follows continue tokens, from request [i]; [None] when the
    requests run out. *)
Fixpoint list_events (fuel i : nat) (spec : EventQuerySpec) : res (option (list EventRecord)) :=
  match fuel with
  | O => Ok None
  | S fuel' =>
      let c := clocks i in
      let? r := QueryEvents database st supported (ek_now c) (ek_clock c) (ek_check c) (ek_issue c) spec scope in
      if (eq_Continue r =? "")%string then Ok (Some (eq_Events r))
      else
        let? rest := list_events fuel' (S i) (es_with_continue spec (eq_Continue r)) in
        Ok (option_map (app (eq_Events r)) rest)
  end.

(** ClickHouse on a table whose rows satisfying [cs] are [T] in the order of
    the query. *)
Definition event_answers (cs : list cond) (T : list (string * Event)) (limit : Z) : Prop :=
  forall o : option Z, (0 <= default 0 o)%Z ->
  ev_query_docs st (event_query_text database scope cs limit o) (cond_args cs)
  = inr {| scanned := map inr (take (Z.to_nat (limit + 1)) (drop (Z.to_nat (default 0 o)%Z) (map fst T)));
           rows_err := None |}.

Definition readable (T : list (string * Event)) : Prop :=
  Forall (fun x => json_unmarshal_event (fst x) = inr (snd x)) T.
Definition records (T : list (string * Event)) : list EventRecord :=
  map (fun x => convertEventsV1ToEventRecord (snd x)) T.

Lemma decode_readable T : readable T -> decode_docs (map fst T) = records T.
Proof.
  induction 1 as [|[d e] T Hd HT IH]; [done|]. cbn [map fst snd] in *. unfold decode_docs in *.
  cbn [omap list_omap]. rewrite Hd. unfold records in *. cbn [map snd]. by rewrite <- IH.
Qed.

Lemma event_limit_range n : (0 < resolveEventQueryLimit n <= 1000)%Z.
Proof. unfold resolveEventQueryLimit, eventQueryDefaultLimit, eventQueryMaxLimit. zcmp; lia. Qed.

Lemma decode_encode_event now check issued tok (spec : EventQuerySpec) (o : Z) :
  json_time issued -> issued <> 0%Z -> (now - issued <= Hour)%Z ->
  (0 <= o < 2 ^ 31 - 1000)%Z ->
  match es_Continue spec with
  | "" => o = 0%Z
  | t => decodeEventQueryCursor check t spec = Ok o
  end ->
  decodeEventQueryCursor now (encodeEventQueryCursor check issued spec) (es_with_continue spec tok)
  = Ok (o + resolveEventQueryLimit (es_Limit spec))%Z.
Proof using CL EL.
  intros Hi Hz Hage Ho Hcur. pose proof (event_limit_range (es_Limit spec)) as Hl.
  unfold decodeEventQueryCursor at 1. unfold encodeEventQueryCursor. rewrite b64_round.
  assert ((if (es_Continue spec =? "")%string then 0%Z
           else match decodeEventQueryCursor check (es_Continue spec) spec with Ok o => o | _ => 0%Z end) = o) as ->.
  { destruct (es_Continue spec) as [|a t]; [done|]. cbn [String.eqb]. by rewrite Hcur. }
  cbn [of_sum wrap_err res_bind]. rewrite wrap32_id by lia.
  rewrite ecursor_round by (done || cbn [ec_Offset]; lia).
  cbn [of_sum wrap_err res_bind ec_QueryHash ec_IssuedAt ec_Offset].
  change (hashEventQueryParams (es_with_continue spec tok)) with (hashEventQueryParams spec).
  rewrite String.eqb_refl. cbn [negb]. unfold IsZero. apply Z.eqb_neq in Hz. rewrite Hz.
  destruct (Z.ltb_spec cursorTTL (now - issued)) as [Hlt|]; [unfold cursorTTL in Hlt; lia|done].
Qed.

(** One request: the page at the offset of its token. *)
Lemma query_events_page (spec : EventQuerySpec) (cs : list cond) (T : list (string * Event)) (i : nat) (o : Z) :
  event_query_conds supported (ek_now (clocks i)) spec scope = Ok cs ->
  event_answers cs T (resolveEventQueryLimit (es_Limit spec)) -> readable T -> (0 <= o)%Z ->
  match es_Continue spec with
  | "" => o = 0%Z
  | t => decodeEventQueryCursor (ek_clock (clocks i)) t spec = Ok o
  end ->
  let limit := resolveEventQueryLimit (es_Limit spec) in
  let R := drop (Z.to_nat o) T in
  QueryEvents database st supported (ek_now (clocks i)) (ek_clock (clocks i)) (ek_check (clocks i))
    (ek_issue (clocks i)) spec scope
  = Ok {| eq_Events := take (Z.to_nat limit) (records R);
          eq_Continue := if (Z.of_nat (length R) <=? limit)%Z then ""
                         else encodeEventQueryCursor (ek_check (clocks i)) (ek_issue (clocks i)) spec |}.
Proof.
  intros Hcs Hans HT Ho Hcur limit R. pose proof (event_limit_range (es_Limit spec)) as Hl.
  assert (exists off, default 0%Z off = o
    /\ buildEventQuery database supported (ek_now (clocks i)) (ek_clock (clocks i)) spec scope
       = Ok (event_query_text database scope cs limit off, cond_args cs)) as (off & Hoff & Hb).
  { unfold buildEventQuery. rewrite Hcs. cbn [res_bind]. destruct (es_Continue spec) as [|a t].
    - by exists None.
    - exists (Some o). split; [done|]. cbn [String.eqb]. by rewrite Hcur. }
  unfold QueryEvents. rewrite Hb. cbn [res_bind]. pose proof (Hans off) as Ha. fold limit in Ha.
  rewrite Ha by (rewrite Hoff; done).
  cbn [of_sum wrap_err res_bind]. unfold read_rows. cbn [scanned rows_err]. rewrite scan_rows_ok.
  cbn [res_bind]. rewrite Hoff, skipn_map, firstn_map.
  rewrite decode_readable by (unfold readable in *; apply Forall_take, Forall_drop, HT).
  fold R. unfold records. rewrite <- firstn_map, cut_page_take by lia.
  cbn [res_bind]. rewrite length_map. fold limit.
  destruct (Z.leb_spec (Z.of_nat (length R)) limit) as [|Hgt]; [done|].
  destruct (list.last _) eqn:E; [done|]. apply last_None in E.
  apply (f_equal length) in E. rewrite length_take, length_map in E. cbn in E. lia.
Qed.
End EventPages.

Section EventPagesAll.
Context `{EventLib} `{EventsDB} `{CursorLib} `{EventCursorLib} {CL : CursorLaws} {EL : EventCursorLaws}.
Context (database : string) (st : edb) (supported : list string) (scope : ScopeContext).
Context (clocks : nat -> event_clock).

Lemma list_event_pages (spec : EventQuerySpec) (cs : list cond) (T : list (string * Event)) :
  (forall i, event_query_conds supported (ek_now (clocks i)) spec scope = Ok cs) ->
  event_answers database st scope cs T (resolveEventQueryLimit (es_Limit spec)) -> readable T ->
  (Z.of_nat (length T) < 2 ^ 31 - 1000)%Z ->
  (forall i, json_time (ek_issue (clocks i)) /\ ek_issue (clocks i) <> 0%Z) ->
  (forall i, (ek_clock (clocks (S i)) - ek_issue (clocks i) <= Hour)%Z
             /\ (ek_check (clocks (S i)) - ek_issue (clocks i) <= Hour)%Z) ->
  forall fuel i tok (o : Z),
  (length (drop (Z.to_nat o) T) < fuel)%nat -> (0 <= o <= Z.of_nat (length T))%Z ->
  match tok with
  | "" => o = 0%Z
  | t => decodeEventQueryCursor (ek_clock (clocks i)) t (es_with_continue spec tok) = Ok o
         /\ decodeEventQueryCursor (ek_check (clocks i)) t (es_with_continue spec tok) = Ok o
  end ->
  list_events database st supported scope clocks fuel i (es_with_continue spec tok)
  = Ok (Some (records (drop (Z.to_nat o) T))).
Proof using CL EL.
  intros Hcs Hans HT Hlen Hiss Httl fuel. pose proof (event_limit_range (es_Limit spec)) as Hl.
  induction fuel as [|fuel IH]; intros i tok o Hfuel Ho Hcur; [lia|]. cbn [list_events].
  rewrite (query_events_page database st supported scope clocks (es_with_continue spec tok) cs T i o);
    [|exact (Hcs i)|exact Hans|exact HT|lia|by destruct tok; [|destruct Hcur]].
  cbn [res_bind eq_Events eq_Continue]. change (es_Limit (es_with_continue spec tok)) with (es_Limit spec).
  set (limit := resolveEventQueryLimit (es_Limit spec)) in *. set (R := drop (Z.to_nat o) T) in *.
  destruct (Z.leb_spec (Z.of_nat (length R)) limit) as [Hle|Hgt].
  { cbn [String.eqb]. rewrite take_ge; [done|]. unfold records. rewrite length_map. lia. }
  set (token := encodeEventQueryCursor _ _ _).
  assert (token <> "") as Hne.
  { unfold token, encodeEventQueryCursor. apply b64_nonempty, ecursor_nonempty. apply Hiss. }
  rewrite (proj2 (String.eqb_neq _ _) Hne).
  change (es_with_continue (es_with_continue spec tok) token) with (es_with_continue spec token).
  assert (R = drop (Z.to_nat o) T) as HR by done.
  assert (length R = length T - Z.to_nat o)%nat as HRl by (rewrite HR; apply length_drop).
  rewrite (IH (S i) token (o + limit)%Z).
  - cbn [res_bind option_map]. unfold records. rewrite firstn_map, <- map_app.
    replace (Z.to_nat (o + limit)) with (Z.to_nat o + Z.to_nat limit)%nat by lia.
    rewrite <- drop_drop. fold R. by rewrite take_drop.
  - rewrite length_drop. lia.
  - lia.
  - assert (forall now, (now - ek_issue (clocks i) <= Hour)%Z ->
      decodeEventQueryCursor now token (es_with_continue spec token) = Ok (o + limit)%Z) as Hdec.
    { intros now Hnow. change (es_with_continue spec token) with (es_with_continue (es_with_continue spec tok) token).
      unfold token. destruct (Hiss i). apply decode_encode_event; [done|done|done|lia|].
      cbn [es_Continue es_with_continue]. by destruct tok; [|destruct Hcur]. }
    destruct (Httl i). destruct token; [done|]. by split; apply Hdec.
Qed.
End EventPagesAll.

(** Following the continue tokens of an event query lists every event of
    the result exactly once, in order, and ends within [length T + 1] requests:
    for a table whose rows, in the order of the query, are [T], all of them
    readable and fewer than 2^31 - 1000, whatever the limit, as long as each
    token is used within an hour. *)
Theorem event_pages_complete `{EventLib} `{EventsDB} `{CursorLib} `{!CursorLaws} `{EventCursorLib}
    `{!EventCursorLaws} (database : string) (st : edb) (supported : list string) (scope : ScopeContext)
    (clocks : nat -> event_clock) (spec : EventQuerySpec) (cs : list cond) (T : list (string * Event)) :
  es_Continue spec = "" ->
  (forall i, event_query_conds supported (ek_now (clocks i)) spec scope = Ok cs) ->
  event_answers database st scope cs T (resolveEventQueryLimit (es_Limit spec)) -> readable T ->
  (Z.of_nat (length T) < 2 ^ 31 - 1000)%Z ->
  (forall i, json_time (ek_issue (clocks i)) /\ ek_issue (clocks i) <> 0%Z) ->
  (forall i, (ek_clock (clocks (S i)) - ek_issue (clocks i) <= Hour)%Z
             /\ (ek_check (clocks (S i)) - ek_issue (clocks i) <= Hour)%Z) ->
  list_events database st supported scope clocks (S (length T)) 0 spec = Ok (Some (records T)).
Proof.
  intros Hc Hcs Hans HT Hlen Hiss Httl.
  replace spec with (es_with_continue spec "") at 1 by (destruct spec; cbn in *; by rewrite Hc).
  apply (list_event_pages database st supported scope clocks spec cs T Hcs Hans HT Hlen Hiss Httl (S (length T)) 0 "" 0%Z);
    [change (length T < S (length T))%nat; lia|lia|done].
Qed.

(** A field selector says what it means: for supported fields and aliases,
    with any mix of [=], [==] and [!=], and values without commas, surrounding
    blanks or operators, parsing gives the columns, operators and values
    written, in order; and whatever parses names columns of the table only, one
    placeholder per term, the value being its argument. *)
Theorem ParseFieldSelector_roundtrip (supported : list string) :
  (forall ss, Forall (fun s => s_field s ∈ selector_fields /\ value_ok s) ss ->
     ParseFieldSelector supported (String.concat "," (map render ss)) = Ok (map parsed ss))
  /\ (forall text ts, ParseFieldSelector supported text = Ok ts ->
        Forall2 (fun t c => Column t ∈ event_columns /\ cond_wf c /\ snd c = [qstr (Value t)])
          ts (FieldSelectorTermsToSQL ts)).
Proof.
  split.
  - intros ss Hss. unfold ParseFieldSelector. destruct ss as [|s ss]; [done|].
    assert (Split "," (String.concat "," (map render (s :: ss))) = map render (s :: ss)) as Hsplit.
    { apply Split_concat; [discriminate|]. rewrite List.Forall_map. eapply Forall_impl; [exact Hss|].
      intros x [Hf (Hc & _)]. by apply render_no_comma. }
    rewrite Hsplit, (selector_terms_render supported (s :: ss)) by done.
    destruct (String.eqb_spec (String.concat "," (map render (s :: ss))) "") as [E|]; [|done].
    rewrite <- (selector_terms_render supported (s :: ss)) by done. by rewrite <- Hsplit, E.
  - intros text ts Hts. apply ParseFieldSelector_columns in Hts. unfold FieldSelectorTermsToSQL.
    induction Hts as [|t ts Ht Hts IH]; [constructor|]. cbn [map]. constructor; [|exact IH].
    split; [done|]. unfold ToSQL. destruct (Operator t); (split; [|done]).
    + apply (column_cond_wf " = ?"); [done|reflexivity|reflexivity].
    + apply (column_cond_wf " != ?"); [done|reflexivity|reflexivity].
Qed.

(* ------------------------------------------------------------------ *)
(** ** A reference interpreter of the store's SQL *)

Module ToyEvents.
(** Documents: the fields of an event as length-prefixed texts. *)
Definition net (s : string) : string := pretty (N.of_nat (String.length s)) +:+ ":" +:+ s.
Definition net_all (l : list string) : string := String.concat "" (map net l).
Fixpoint unnet (fuel : nat) (s : string) : option (list string) :=
  match fuel, s with
  | _, EmptyString => Some []
  | O, _ => None
  | S fuel', _ =>
      let (d, r) := span_digits s in
      match r with
      | String ":" t => let n := Z.to_nat (dec_val 0 d) in
                        cons (take_str n t) <$> unnet fuel' (drop_str n t)
      | _ => None
      end
  end.

Lemma span_digits_app (d : string) (c : ascii) (r : string) :
  all_bytes is_digit d = true -> is_digit c = false -> span_digits (d +:+ String c r) = (d, String c r).
Proof.
  intros Hd Hc. induction d as [|a d IH]; cbn [all_bytes] in *.
  - change ("" +:+ String c r) with (String c r). cbn [span_digits]. by rewrite Hc.
  - apply andb_true_iff in Hd as [Ha Hd]. change (String a d +:+ String c r) with (String a (d +:+ String c r)).
    cbn [span_digits]. by rewrite Ha, IH.
Qed.

Lemma unnet_net (l : list string) (fuel : nat) :
  (length l <= fuel)%nat -> unnet fuel (net_all l) = Some l.
Proof.
  revert fuel. induction l as [|s l IH]; intros fuel Hf; [by destruct fuel|].
  destruct fuel as [|fuel]; cbn [length] in Hf; [lia|].
  assert (net_all (s :: l) = pretty (N.of_nat (String.length s)) +:+ String ":" (s +:+ net_all l)) as ->.
  { unfold net_all. cbn [map]. rewrite concat_cons. unfold net. rewrite !append_assoc. done. }
  destruct (pretty_N_spec (N.of_nat (String.length s))) as (Hd & Hv & Hne).
  cbn [unnet]. rewrite span_digits_app by done. rewrite Hv.
  replace (Z.to_nat (Z.of_N (N.of_nat (String.length s)))) with (String.length s) by lia.
  rewrite take_str_append, drop_str_append, IH by lia.
  by destruct (pretty (N.of_nat (String.length s)) +:+ String ":" (s +:+ net_all l)) eqn:E;
    [destruct (pretty (N.of_nat (String.length s)))|].
Qed.

Definition z_write (z : Z) : string := (if (z <? 0)%Z then "-" else "+") +:+ pretty (Z.to_N (Z.abs z)).
Definition z_read (s : string) : Z :=
  match s with String a d => if Ascii.eqb a "-" then (- dec_val 0 d)%Z else dec_val 0 d | "" => 0%Z end.
Lemma z_read_write z : z_read (z_write z) = z.
Proof.
  unfold z_read, z_write. destruct (pretty_N_spec (Z.to_N (Z.abs z))) as (_ & Hv & _).
  destruct (Z.ltb_spec z 0); cbn [String.append Ascii.eqb Bool.eqb]; rewrite Hv; lia.
Qed.

Fixpoint flat (l : list (string * string)) : list string :=
  match l with [] => [] | (k, v) :: l' => k :: v :: flat l' end.
Fixpoint unflat (l : list string) : list (string * string) :=
  match l with k :: v :: l' => (k, v) :: unflat l' | _ => [] end.
Lemma unflat_flat l : unflat (flat l) = l.
Proof. induction l as [|[k v] l IH]; [done|]. cbn. by rewrite IH. Qed.

Definition ref_fields (r : ObjectRef_) : list string :=
  [ref_APIVersion r; ref_Kind r; ref_Name r; ref_Namespace r; ref_UID r; ref_other r].
Definition rest_fields (r : EventRest) : list string :=
  ref_fields (ev_Regarding r)
  ++ [ev_Reason r; ev_Note r; ev_Type r; ev_Action r; ev_ReportingController r; ev_ReportingInstance r;
      fst (ev_DeprecatedSource r); snd (ev_DeprecatedSource r); ev_other r]
  ++ match ev_Related r with Some o => ref_fields o | None => [] end.
Definition of_ref (l : list string) : option ObjectRef_ :=
  match l with
  | [v; k; n; ns; u; o] => Some {| ref_APIVersion := v; ref_Kind := k; ref_Name := n; ref_Namespace := ns;
                                   ref_UID := u; ref_other := o |}
  | _ => None
  end.
Definition write_rest (r : EventRest) : string := net_all (rest_fields r).
Definition read_rest (s : string) : option EventRest :=
  l ← unnet (String.length s) s;
  g ← of_ref (take 6 l);
  match drop 6 l with
  | re :: no :: ty :: ac :: rc :: ri :: dc :: dh :: ot :: rel =>
      Some {| ev_Regarding := g; ev_Related := of_ref rel; ev_Reason := re; ev_Note := no; ev_Type := ty;
              ev_Action := ac; ev_ReportingController := rc; ev_ReportingInstance := ri;
              ev_DeprecatedSource := (dc, dh); ev_other := ot |}
  | _ => None
  end.
Lemma net_all_length (l : list string) : (length l <= String.length (net_all l))%nat.
Proof.
  induction l as [|s l IH]; [done|]. unfold net_all in *. cbn [map length]. rewrite concat_cons, length_append.
  unfold net at 1. rewrite !length_append. cbn. lia.
Qed.
Lemma read_write_rest r : read_rest (write_rest r) = Some r.
Proof.
  unfold read_rest, write_rest. rewrite unnet_net by apply net_all_length.
  destruct r as [[] rel ? ? ? ? ? ? [] ?]. by destruct rel as [[]|].
Qed.

Definition fields_of (e : Event) : list string :=
  let series := match ev_Series e with
                | Some s => ["s"; z_write (es_Count s); z_write (es_LastObservedTime s)]
                | None => [""; ""; ""]
                end in
  [ev_Namespace e; ev_Name e; ev_UID e; ev_ResourceVersion e; z_write (ev_EventTime e);
   z_write (ev_FirstTimestamp e); z_write (ev_LastTimestamp e); z_write (ev_Count e);
   write_rest (ev_rest e)]
  ++ series
  ++ match ev_Annotations e with Some a => "a" :: flat (map_to_list a) | None => [""] end.
Definition of_fields (l : list string) : option Event :=
  match l with
  | ns :: name :: uid :: rv :: t :: first :: last_ :: n :: rest :: s :: sn :: st :: a :: kvs =>
      rest ← read_rest rest;
      Some {| ev_Namespace := ns; ev_Name := name; ev_UID := uid; ev_ResourceVersion := rv;
              ev_Annotations := if (a =? "")%string then None else Some (list_to_map (unflat kvs));
              ev_EventTime := z_read t; ev_FirstTimestamp := z_read first; ev_LastTimestamp := z_read last_;
              ev_Count := z_read n;
              ev_Series := if (s =? "")%string then None
                           else Some {| es_Count := z_read sn; es_LastObservedTime := z_read st |};
              ev_rest := rest |}
  | _ => None
  end.

Definition write (e : Event) : string := net_all (fields_of e).
Definition read (s : string) : option Event := unnet (String.length s) s ≫= of_fields.

Lemma of_fields_of e : of_fields (fields_of e) = Some e.
Proof.
  unfold of_fields, fields_of. destruct e as [ns name uid rv a t first last_ n s rest]. cbn [ev_Annotations ev_Series].
  destruct s as [[sn st]|], a as [a|]; cbn [app];
    rewrite ?read_write_rest; cbn [mbind option_bind];
    cbn [String.eqb ev_Namespace ev_Name ev_UID ev_ResourceVersion ev_EventTime ev_FirstTimestamp
         ev_LastTimestamp ev_Count ev_rest es_Count es_LastObservedTime];
    by rewrite ?unflat_flat, ?list_to_map_to_list, !z_read_write.
Qed.

Lemma read_write e : read (write e) = Some e.
Proof.
  unfold read, write. rewrite unnet_net by apply net_all_length. cbn [mbind option_bind]. apply of_fields_of.
Qed.

Definition annotation (e : Event) (k : string) : string := default "" (default ∅ (ev_Annotations e) !! k).
Definition col (doc k : string) : string :=
  match read doc with
  | None => ""
  | Some e =>
      if (k =? "namespace")%string then ev_Namespace e
      else if (k =? "name")%string then ev_Name e
      else if (k =? "scope_type")%string then annotation e ScopeTypeAnnotation
      else if (k =? "scope_name")%string then annotation e ScopeNameAnnotation
      else ""
  end.
Definition inst (doc k : string) : time := match read doc with Some e => ev_LastTimestamp e | None => 0%Z end.

(** The conditions of a text [... WHERE c1 o1 ? AND c2 o2 ? ...]. *)
Definition make (col op : string) (a : qarg) : option scond :=
  match a with
  | QVal (GoString v) => if (op =? "=")%string then Some (SEq col v)
                         else if (op =? "!=")%string then Some (SNe col v) else None
  | QVal (GoTime t) => if (op =? ">=")%string then Some (SGe col t)
                       else if (op =? "<")%string then Some (SLt col t) else None
  | _ => None
  end.
Fixpoint parse_conds (ws : list string) (args : list qarg) : list scond :=
  match ws, args with
  | c :: o :: _ :: rest, a :: args' =>
      match make c o a with
      | None => []
      | Some s => s :: match rest with _ :: rest' => parse_conds rest' args' | [] => [] end
      end
  | _, _ => []
  end.
Fixpoint after (w : string) (ws : list string) : list string :=
  match ws with
  | [] => []
  | x :: ws' => if (x =? w)%string then ws' else after w ws'
  end.
Definition conds (q : string) (args : list qarg) : list scond :=
  parse_conds (after "WHERE" (Split " " q)) args.
Definition bound (t : time) : time := (t / Second * Second)%Z.
Definition selb (q : string) (args : list qarg) (r : row) : bool :=
  forallb (holds col inst bound r) (conds q args).

Fixpoint newest (l : list row) : option row :=
  match l with
  | [] => None
  | r :: l' => match newest l' with
               | Some r' => if (row_at r <? row_at r')%Z then Some r' else Some r
               | None => Some r
               end
  end.
Definition number_after (w q : string) (d : Z) : Z :=
  match after w (Split " " q) with n :: _ => dec_val 0 n | [] => d end.

#[export] Instance lib : EventLib := {|
  json_marshal_event e := inr (write e);
  json_unmarshal_event s := match read s with Some e => inr e | None => inl (Ext "unexpected end of JSON input") end |}.

#[export] Instance db : EventsDB := {|
  edb := list row;
  ev_exec st q args :=
    if HasPrefix q "INSERT" then
      match args with
      | [QVal (GoString doc); QVal (GoTime t)] => (None, {| row_doc := doc; row_at := bound t |} :: st)
      | _ => (Some (Ext "code: 53"), st)
      end
    else (None, List.filter (fun r => negb (selb q args r)) st);
  ev_query_row st q args :=
    match newest (List.filter (selb q args) st) with
    | Some r => inr (row_doc r, row_at r)
    | None => inl (Ext "sql: no rows in result set")
    end;
  ev_query st q args :=
    inr {| scanned := map (fun r => inr (row_doc r, row_at r))
             (take (Z.to_nat (number_after "LIMIT" q 0)) (List.filter (selb q args) st)); rows_err := None |};
  ev_query_docs st q args :=
    inr {| scanned := map (fun r => inr (row_doc r))
             (take (Z.to_nat (number_after "LIMIT" q 0)) (drop (Z.to_nat (number_after "OFFSET" q 0))
               (List.filter (selb q args) st))); rows_err := None |};
  ev_query_counts st q args := inl (Ext "connection refused") |}.

Definition backend : EventsBackend := {| eb_Database := "audit"; eb_publisher := None |}.

Lemma make_sql (c : scond) : make (scol c) (sop c) (sarg c) = Some c.
Proof. by destruct c. Qed.

Lemma split_cond (c : scond) : plain_col c -> Split " " (fst (sql c)) = [scol c; sop c; "?"].
Proof.
  unfold plain_col, sql. cbn [fst]. intros Hc.
  change (" " +:+ sop c +:+ " ?") with (String " " (sop c +:+ String " " "?")).
  rewrite Split_append, (Split_no_sep " " (scol c)) by done.
  rewrite Split_append. by destruct c.
Qed.

Lemma parse_no_args ws : parse_conds ws [] = [].
Proof. by destruct ws as [|? [|? [|? ?]]]. Qed.

(** Reading back the conditions of a text. *)
Lemma parse_conds_sql (cs : list scond) (tail : list string) :
  cs <> [] -> Forall plain_col cs ->
  parse_conds (Split " " (String.concat " AND " (map fst (map sql cs))) ++ tail) (cond_args (map sql cs)) = cs.
Proof.
  intros Hne Hcs. induction Hcs as [|c cs Hc Hcs IH]; [done|]. destruct cs as [|c' cs].
  - cbn [map String.concat]. rewrite split_cond by done. unfold cond_args. cbn [map List.concat app snd sql].
    cbn [parse_conds]. rewrite make_sql. destruct tail; [done|]. by rewrite parse_no_args.
  - change (String.concat " AND " (map fst (map sql (c :: c' :: cs))))
      with (fst (sql c) +:+ String " " ("AND" +:+ String " " (String.concat " AND " (map fst (map sql (c' :: cs)))))).
    rewrite !Split_append, split_cond by done.
    change (cond_args (map sql (c :: c' :: cs))) with (sarg c :: cond_args (map sql (c' :: cs))).
    rewrite (Split_no_sep " " "AND") by done. rewrite <- !app_assoc. cbn [app parse_conds]. rewrite make_sql.
    f_equal. by apply IH.
Qed.

(** The conditions of a statement with [head], [WHERE] and [tail]. *)
Lemma conds_of (head : list string) (q tail : string) (cs : list scond) :
  Forall plain_col cs -> "WHERE" ∉ head -> "WHERE" ∉ Split " " tail ->
  Split " " q = head ->
  conds (q +:+ where_clause (map sql cs) +:+ String " " tail) (cond_args (map sql cs)) = cs
  /\ conds (q +:+ where_clause (map sql cs)) (cond_args (map sql cs)) = cs.
Proof.
  intros Hcs Hh Ht Hq. assert (forall l l', "WHERE" ∉ l -> after "WHERE" (l ++ l') = after "WHERE" l') as Hafter.
  { intros l l'. induction l as [|x l IH]; [done|]. rewrite not_elem_of_cons. intros [Hx Hl].
    cbn [app after]. destruct (String.eqb_spec x "WHERE"); [congruence|by apply IH]. }
  assert (forall l, "WHERE" ∉ l -> after "WHERE" l = []) as Hnone.
  { intros l Hl. rewrite <- (app_nil_r l). by rewrite Hafter. }
  unfold conds. destruct cs as [|c cs].
  - cbn [map where_clause]. change ("" +:+ String " " tail) with (String " " tail).
    rewrite append_nil_r, Split_append, Hq, !Hnone by (done || rewrite elem_of_app; tauto). done.
  - assert (where_clause (map sql (c :: cs))
            = String " " ("WHERE" +:+ String " " (String.concat " AND " (map fst (map sql (c :: cs)))))) as -> by done.
    split.
    + change (String " " ("WHERE" +:+ String " " (String.concat " AND " (map fst (map sql (c :: cs)))))
               +:+ String " " tail)
        with (String " " ("WHERE" +:+ String " "
               (String.concat " AND " (map fst (map sql (c :: cs))) +:+ String " " tail))).
      rewrite !Split_append, Hq, Hafter by done. rewrite (Split_no_sep " " "WHERE") by done.
      cbn [app after String.eqb Ascii.eqb Bool.eqb]. by apply parse_conds_sql.
    + rewrite !Split_append, Hq, Hafter by done. rewrite (Split_no_sep " " "WHERE") by done.
      cbn [app after String.eqb Ascii.eqb Bool.eqb].
      rewrite <- (app_nil_r (Split " " (String.concat _ _))). by apply parse_conds_sql.
Qed.

Lemma conds_select (cs : list scond) (n : Z) :
  Forall plain_col cs -> conds (select_query backend (map sql cs) n) (cond_args (map sql cs)) = cs.
Proof.
  intros Hcs. unfold select_query.
  apply (conds_of (Split " " ("SELECT event_json, inserted_at FROM " +:+ table backend))
           ("SELECT event_json, inserted_at FROM " +:+ table backend)
           ("ORDER BY inserted_at DESC LIMIT " +:+ pretty n) cs Hcs); [by_decide| |done].
  change ("ORDER BY inserted_at DESC LIMIT " +:+ pretty n)
    with ("ORDER BY inserted_at DESC LIMIT" +:+ String " " (pretty n)).
  rewrite Split_append, (Split_no_sep " " (pretty n)) by by apply pretty_Z_bytes.
  rewrite elem_of_app, list_elem_of_singleton. intros [Hin|E].
  - revert Hin. by_decide.
  - pose proof (pretty_Z_bytes "W" n eq_refl ltac:(discriminate)) as Hw. by rewrite <- E in Hw.
Qed.

Lemma conds_delete (cs : list scond) :
  Forall plain_col cs -> conds (delete_query backend (map sql cs)) (cond_args (map sql cs)) = cs.
Proof.
  intros Hcs. unfold delete_query. rewrite <- append_assoc, <- append_assoc.
  apply (conds_of (Split " " (("ALTER TABLE " +:+ table backend) +:+ " DELETE"))
           (("ALTER TABLE " +:+ table backend) +:+ " DELETE") "" cs Hcs); [by_decide|by_decide|done].
Qed.

Lemma selb_spec q args cs r :
  conds q args = cs -> selb q args r = true <-> selected col inst bound cs r.
Proof. unfold selb, selected. intros ->. by rewrite forallb_forall, List.Forall_forall. Qed.

Lemma newest_spec (l : list row) :
  match newest l with
  | None => l = []
  | Some r => r ∈ l /\ forall x, x ∈ l -> (row_at x <= row_at r)%Z
  end.
Proof.
  induction l as [|r l IH]; [done|]. cbn [newest]. destruct (newest l) as [r'|].
  - destruct IH as [Hin Hmax].
    assert (forall x, x ∈ r :: l -> x = r \/ (row_at x <= row_at r')%Z) as Hx.
    { intros x Hx. apply elem_of_cons in Hx as [->|Hx]; [by left|right; by apply Hmax]. }
    destruct (Z.ltb_spec (row_at r) (row_at r')); split; [set_solver| |set_solver|];
      intros x [->|?]%Hx; lia.
  - subst. split; [set_solver|]. intros x Hx. apply list_elem_of_singleton in Hx as ->. lia.
Qed.

Lemma annotation_of e a k : ev_Annotations e = Some a -> annotation e k = default "" (a !! k).
Proof. unfold annotation. by intros ->. Qed.

Lemma written e doc : json_marshal_event e = inr doc -> doc = write e.
Proof. intros Hd. change (inr (A := error) (write e) = inr doc) in Hd. congruence. Qed.

#[export] Instance laws : EventsDBLaws backend.
Proof.
  refine (Build_EventsDBLaws _ _ backend (fun st => st) col inst bound (fun t => eq_refl) _ _ _ _ _ _ _).
  - intros st cs doc t Hcs. cbn [ev_query_row db].
    pose proof (newest_spec (List.filter (selb (select_query backend (map sql cs) 1) (cond_args (map sql cs))) st)) as Hn.
    destruct (newest _) as [r|]; [|done]. intros [= <- <-]. destruct Hn as [Hin Hmax]. destruct r as [doc t].
    pose proof (conds_select cs 1 Hcs) as Hc. cbn [row_doc row_at] in *.
    apply list_elem_of_In, filter_In in Hin as [Hin Hs]. rewrite <- list_elem_of_In in Hin.
    split; [done|]. split; [by apply (selb_spec _ _ _ _ Hc)|].
    intros r Hr Hsel. apply Hmax. apply list_elem_of_In, filter_In. split; [by apply list_elem_of_In|].
    by apply (selb_spec _ _ _ _ Hc).
  - intros st cs e Hcs. cbn [ev_query_row db].
    pose proof (newest_spec (List.filter (selb (select_query backend (map sql cs) 1) (cond_args (map sql cs))) st)) as Hn.
    destruct (newest _) as [r|]; [done|]. intros _ _ r Hr Hsel.
    pose proof (conds_select cs 1 Hcs) as Hc. apply (selb_spec _ _ _ _ Hc) in Hsel.
    assert (r ∈ List.filter (selb (select_query backend (map sql cs) 1) (cond_args (map sql cs))) st) as Hin.
    { apply list_elem_of_In, filter_In. split; [by apply list_elem_of_In|done]. }
    rewrite Hn in Hin. by apply not_elem_of_nil in Hin.
  - intros st cs n rs Hcs. cbn [ev_query db]. intros [= <-] doc t Hin. cbn [scanned] in Hin.
    apply list_elem_of_In, in_map_iff in Hin as ([doc' t'] & [= <- <-] & Hin).
    apply list_elem_of_In, elem_of_take_in, list_elem_of_In, filter_In in Hin as [Hin Hs].
    split; [by apply list_elem_of_In|]. by apply (selb_spec _ _ _ _ (conds_select cs n Hcs)).
  - intros st doc t r st'. cbn. intros [= <- <-]. split; [intros _; left|]. intros x. by rewrite elem_of_cons.
  - intros st cs r st' Hcs. cbn. intros [= <- <-]. split.
    + intros x. rewrite list_elem_of_In, filter_In, <- list_elem_of_In. tauto.
    + intros x Hx Hn. rewrite list_elem_of_In, filter_In, <- list_elem_of_In. split; [done|].
      apply negb_true_iff, not_true_iff_false. intros Hs. apply Hn.
      by apply (selb_spec _ _ _ _ (conds_delete cs Hcs)).
  - intros e doc ->%written. unfold col. rewrite read_write. cbn [String.eqb Ascii.eqb Bool.eqb].
    split; [done|]. split; [done|]. intros a Ha. split; by apply annotation_of.
  - intros e doc ->%written. exists e. cbn [json_unmarshal_event lib].
    by rewrite read_write.
Defined.
End ToyEvents.

(** The resource version of a time cut to the second is another one. *)
Lemma rv_of_cut t : rv_of (t / Second * Second)%Z = rv_of t <-> (t mod Second = 0)%Z.
Proof.
  assert (Second = 1000000000)%Z as Hs by done. pose proof (Z.div_mod t Second ltac:(lia)) as Hd.
  pose proof (Z.mod_pos_bound t Second ltac:(lia)) as Hm. unfold rv_of. split.
  - intros Hw%pretty_Z_inj. unfold UnixNano, wrap64 in Hw.
    match type of Hw with (?x mod _ - _ = ?y mod _ - _)%Z => assert (x mod 2 ^ 64 = y mod 2 ^ 64)%Z as E by lia;
      assert (y - x = t mod Second)%Z as Hyx by lia;
      pose proof (Z.div_mod x (2 ^ 64) ltac:(lia)); pose proof (Z.div_mod y (2 ^ 64) ltac:(lia)) end.
    nia.
  - intros E. f_equal. f_equal. lia.
Qed.

(** C18: an event created in the scope of a tenant can be read back: when the
    store has no publisher, and the insert succeeds in a later second than every
    version of the key in that tenant, [Get] in that scope does not report it
    missing, and what it returns has the namespace, name and UID [Create]
    returned.  Its resource version is the time of the insert cut to the second,
    which is the one [Create] returned only when that time was a whole second.
    Unless the client itself sent a series, an [Update] that finds it does not
    return: it dereferences the missing series. *)
Theorem created_event_is_read `{EventLib} `{EventsDB} `{JetStream} (b : EventsBackend) `{!EventsDBLaws b}
    (scope : ScopeContext) (st st' : edb) (uuid : string) (now t : time) (e e' : Event) (log : list pub) :
  tenant_scope scope -> eb_publisher b = None ->
  Create b st uuid now t scope e = (st', log, Ok e') ->
  (forall r, r ∈ rows_of st -> in_tenant b scope (row_doc r) ->
     keyed b (ev_Namespace e) (ev_Name e) (row_doc r) -> (row_at r < bound_time t)%Z) ->
  log = [] /\ ev_ResourceVersion e' = rv_of t
  /\ Get b st' (ev_Namespace e) (ev_Name e) scope <> Err (NewNotFound (ev_Name e))
  /\ (forall g, Get b st' (ev_Namespace e) (ev_Name e) scope = Ok g ->
        ev_Namespace g = ev_Namespace e' /\ ev_Name g = ev_Name e' /\ ev_UID g = ev_UID e'
        /\ ev_ResourceVersion g = rv_of (t / Second * Second)%Z
        /\ (ev_ResourceVersion g = ev_ResourceVersion e' <-> (t mod Second = 0)%Z)
        /\ (ev_Series e = None -> forall u now' t', ev_Namespace u = ev_Namespace e -> ev_Name u = ev_Name e ->
              exists w, Update b st' now' t' scope u = (st', [], Panic w))).
Proof.
  intros Hs Hp Hc Hold. unfold Create, save in Hc. rewrite Hp in Hc.
  set (p := prepare_create uuid now scope e) in *.
  destruct (json_marshal_event p) as [?|doc] eqn:Hdoc; [done|].
  destruct (ev_exec st (insert_query b) [qstr doc; qtime t]) as [[?|] st1] eqn:Hx; [done|].
  injection Hc as -> <- <-. pose proof (row_inserted _ _ _ _ _ Hx) as [Hnew Hsub]. specialize (Hnew eq_refl).
  pose proof (doc_in_tenant b scope (ev_Annotations e) p doc Hs eq_refl Hdoc) as Hten.
  pose proof (event_columns_of _ _ Hdoc) as (Hns & Hname & _).
  assert (keyed b (ev_Namespace e) (ev_Name e) doc) as Hkey by done.
  split; [done|]. split; [done|]. split; [by eapply (Get_found b _ _ _ _ _ Hs Hnew)|].
  intros g Hg. pose proof Hg as Hget. apply (Get_row b) in Hg as (r & Hr & Htr & Hkr & (e0 & He0 & ->) & Hmax); [|done].
  pose proof (Hmax _ Hnew Hten Hkey) as Hge. cbn [row_at] in Hge.
  assert (r = {| row_doc := doc; row_at := bound_time t |}) as ->.
  { destruct (Hsub r Hr) as [|Hin]; [done|]. specialize (Hold r Hin Htr Hkr). lia. }
  cbn [row_doc row_at] in *. destruct (event_read_back _ _ Hdoc) as (e1 & He1 & E1 & E2 & E3 & E4).
  rewrite He1 in He0. injection He0 as <-. split_and!; [exact E1|exact E2|exact E3|by rewrite <- (bound_time_seconds (b := b))| |].
  { cbn. rewrite (bound_time_seconds (b := b)). apply rv_of_cut. }
  intros Hser u now' t' Hu1 Hu2. unfold Update. rewrite Hu1, Hu2, Hget. unfold prepare_update.
  cbn [with_rv ev_Series]. rewrite (proj2 E4 Hser). by eexists.
Qed.

(** The queries on events are parameterised and scoped: as many
    placeholders as arguments, well-formed conditions, the tenant's conditions
    among them, and no byte of a selector or a name in the text. *)
Theorem event_queries_sound `{EventLib} `{CursorLib} `{EventCursorLib} (database : string)
    (supported : list string) (now clock : time) (scope : ScopeContext) (q : string) (args : list qarg) :
  has_byte "?" database = false ->
  (forall spec, buildEventQuery database supported now clock spec scope = Ok (q, args) ->
     sound_query (event_scope scope) q args)
  /\ (forall f spec, event_facet_query database now f spec scope = Ok (q, args) ->
        sound_query (event_scope scope) q args)
  /\ (forall b ns opts cs limit, eb_Database b = database -> list_conds supported now ns opts scope = Ok cs ->
        q = select_query b cs limit -> args = cond_args cs ->
        count_byte "?" q = length args /\ Forall cond_wf cs /\ event_scope scope ⊆ cs).
Proof.
  intros Hdb. split_and!.
  - intros spec Hq. apply res_bind_ok in Hq as (cs & Hcs & Hq). apply res_bind_ok in Hq as (o & _ & [-> ->]%Ok_pair_inj).
    apply res_bind_ok in Hcs as (range & Hr & Hcs). apply res_bind_ok in Hcs as (ts & Hts & [= <-]).
    unfold event_query_text. rewrite <- !(append_assoc _ _ (where_clause _ +:+ _)).
    eapply sound_query_intro; [done| | |].
    + rewrite !Forall_app. split_and!; [apply event_scope_wf|case_split; wf_consts|by eapply last_range_wf|].
      apply wrap_err_ok in Hts. by eapply selector_conds_wf.
    + by rewrite !has_byte_append, Hdb.
    + unfold page_clause. rewrite !count_byte_append, count_limit. unfold buildEventQueryOrderBy.
      case_split; try done; cbn -[pretty]; by rewrite (count_byte_none _ _ (pretty_Z_plain _)).
  - intros f spec Hq. apply res_bind_ok in Hq as (col & Hcol & Hq).
    apply res_bind_ok in Hq as (range & Hr & [-> ->]%Ok_pair_inj).
    pose proof Hcol as Hplain. apply facet_column_plain in Hplain; [|by repeat constructor].
    rewrite <- !(append_assoc _ _ (where_clause _ +:+ _)). eapply sound_query_intro; [done| | |].
    + rewrite !Forall_app. split_and!; [apply event_scope_wf|by eapply last_range_wf|].
      case_split; [|done]. constructor; [|done]. by eapply facet_cond_wf.
    + by rewrite !has_byte_append, Hdb, Hplain.
    + rewrite !count_byte_append, (count_byte_none _ _ Hplain), (count_byte_none _ (pretty _)); [done|].
      apply pretty_Z_plain.
  - intros b ns opts cs limit Hb Hcs -> ->. apply res_bind_ok in Hcs as (ts & Hts & [= <-]).
    apply wrap_err_ok in Hts. match goal with |- context [cond_args ?l] => set (cs := l) in * end.
    assert (Forall cond_wf cs) as Hwf.
    { unfold cs. rewrite Forall_cons, !Forall_app. split_and!; [wf_const|case_split; wf_consts|apply event_scope_wf| |].
      - by eapply selector_conds_wf.
      - case_split; wf_consts. }
    split_and!; [|done|unfold cs; set_solver].
    unfold select_query, table. rewrite Hb, !count_byte_append, count_where by done.
    rewrite (count_byte_none _ _ Hdb), (count_byte_none _ _ (pretty_Z_plain limit)). cbn. lia.
Qed.

(* ------------------------------------------------------------------ *)
(** ** Concrete runs *)

Module ToyEventRuns.
Definition project (name : string) : ScopeContext := {| sc_Type := "Project"; sc_Name := name |}.
Definition noon : time := of_unix_nano 1714557600000000000.
Definition ev (name : string) : Event :=
  {| ev_Namespace := "default"; ev_Name := name; ev_UID := ""; ev_ResourceVersion := "";
     ev_Annotations := None; ev_EventTime := 0%Z; ev_FirstTimestamp := 0%Z; ev_LastTimestamp := 0%Z;
     ev_Count := 0%Z; ev_Series := None; ev_rest := no_rest |}.
Definition js : JetStream := {| js_Publish _ _ _ := None |}.

(** Offset cursors as decimal codes. *)
Definition ecode (c : eventQueryCursorData) : string :=
  pretty (N.pos (encode (ec_Offset c, ec_QueryHash c, ec_IssuedAt c))).
#[export] Instance ecursors : EventCursorLib := {|
  json_marshal_ecursor := ecode;
  json_unmarshal_ecursor s :=
    match decode (Z.to_pos (dec_val 0 s)) with
    | Some (o, h, i) => inr {| ec_Offset := o; ec_QueryHash := h; ec_IssuedAt := i |}
    | None => inl (Ext "invalid character")
    end |}.
#[export] Instance elaws : EventCursorLaws.
Proof.
  split.
  - intros c _ _. cbn [json_marshal_ecursor json_unmarshal_ecursor ecursors]. unfold ecode.
    destruct (pretty_N_spec (N.pos (encode (ec_Offset c, ec_QueryHash c, ec_IssuedAt c)))) as (_ & -> & _).
    cbn [Z.of_N Z.to_pos]. rewrite decode_encode. by destruct c.
  - intros c _. apply pretty_N_spec.
Qed.

(** Three stored events, and a query for pages of two. *)
Definition stored : list (string * Event) := map (fun n => (ToyEvents.write (ev n), ev n)) ["a"; "b"; "c"].
Definition rows3 : list row := map (fun x => {| row_doc := fst x; row_at := noon |}) stored.
Definition spec : EventQuerySpec :=
  {| es_StartTime := ""; es_EndTime := ""; es_Namespace := "default"; es_FieldSelector := "";
     es_Limit := 2; es_Continue := "" |}.
Definition conds : list scond := [SEq "namespace" "default"].
Definition scope : ScopeContext := {| sc_Type := "platform"; sc_Name := "" |}.
End ToyEventRuns.

Lemma filter_all {A} (f : A -> bool) (l : list A) :
  (forall x, List.In x l -> f x = true) -> List.filter f l = l.
Proof.
  induction l as [|x l IH]; intros Hl; [done|]. cbn [List.filter].
  rewrite Hl by by left. f_equal. apply IH. intros y Hy. apply Hl. by right.
Qed.

Section EventWitnesses.
#[local] Existing Instance ToyEvents.lib.
#[local] Existing Instance ToyEvents.db.
#[local] Existing Instance ToyEvents.laws.
#[local] Existing Instance ToyEventRuns.js.
#[local] Existing Instance ToyStore.lib.
#[local] Existing Instance ToyStore.laws.
#[local] Existing Instance ToyEventRuns.ecursors.
#[local] Existing Instance ToyEventRuns.elaws.
Import ToyEventRuns.

Definition empty_store : edb := @nil row.
Definition after_create : edb := fst (fst (Create ToyEvents.backend empty_store "u1" noon noon (project "p1") (ev "a"))).

Lemma event_store_isolates_witness :
  is_ok (Get ToyEvents.backend after_create "default" "a" (project "p1")) = true
  /\ Get ToyEvents.backend after_create "default" "a" (project "p2") = Err (NewNotFound "a")
  /\ forall ns name e, Get ToyEvents.backend after_create ns name (project "p1") = Ok e ->
       exists r, r ∈ rows_of (EventsDBLaws := ToyEvents.laws) after_create
         /\ in_tenant ToyEvents.backend (project "p1") (row_doc r)
         /\ keyed ToyEvents.backend ns name (row_doc r) /\ read_from r e.
Proof.
  split; [vm_compute; reflexivity|]. split; [vm_compute; reflexivity|].
  apply (event_store_isolates ToyEvents.backend (project "p1") after_create).
  unfold tenant_scope. by_decide.
Defined.

Lemma created_event_is_read_witness :
  exists e', Create ToyEvents.backend empty_store "u1" noon noon (project "p1") (ev "a") = (after_create, [], Ok e')
  /\ ev_UID e' = "u1" /\ ev_ResourceVersion e' = "1714557600000000000"
  /\ Get ToyEvents.backend after_create "default" "a" (project "p1") <> Err (NewNotFound "a").
Proof.
  eexists. split; [vm_compute; reflexivity|]. split; [reflexivity|]. split; [vm_compute; reflexivity|].
  eapply (created_event_is_read ToyEvents.backend (project "p1") empty_store after_create "u1" noon noon (ev "a")).
  - unfold tenant_scope. by_decide.
  - reflexivity.
  - vm_compute. reflexivity.
  - intros r Hr. change (r ∈ @nil row) in Hr. by apply not_elem_of_nil in Hr.
Defined.

(** The resource version [Create] returns is not the one that is read back: the
    time of the insert is cut to the second. *)
Example returned_version_not_stored :
  let t := (noon + 5)%Z in
  let '(st, _, r) := Create ToyEvents.backend empty_store "u1" t t (project "p1") (ev "a") in
  (let? e := r in Ok (ev_ResourceVersion e)) = Ok "1714557600000000005"
  /\ (let? e := Get ToyEvents.backend st "default" "a" (project "p1") in Ok (ev_ResourceVersion e)) = Ok "1714557600000000000".
Proof. vm_compute. done. Qed.

(** A continue token is cut in the same way: a page that starts in the second
    the last one ended in leaves out what was stored in that second. *)
Example continue_token_cut :
  let e := {| ev_Namespace := "default"; ev_Name := "a"; ev_UID := "u"; ev_ResourceVersion := "";
              ev_Annotations := Some {[ScopeTypeAnnotation := "Project"; ScopeNameAnnotation := "p1"]};
              ev_EventTime := noon; ev_FirstTimestamp := noon; ev_LastTimestamp := noon;
              ev_Count := 0%Z; ev_Series := None; ev_rest := no_rest |} in
  let st := map (fun t => {| row_doc := ToyEvents.write e; row_at := (noon + t)%Z |}) [900; 500]%Z in
  let page token := List ToyEvents.backend (st : edb) [] noon "default"
    {| lo_FieldSelector := ""; lo_Limit := 1; lo_Continue := token |} (project "p1") in
  (let? p1 := page "" in let? p2 := page (el_Continue p1) in
   Ok (map ev_ResourceVersion (el_Items p1), el_Continue p1, el_Items p2))
  = Ok (["1714557600000000900"], "1714557600000000900", []).
Proof. vm_compute. reflexivity. Qed.

Definition store3 : edb := rows3.

(** The interpreter answers the pages of the query. *)
Lemma toy_event_answers : event_answers "audit" store3 scope (map sql conds) stored 2.
Proof.
  intros [o|] Ho; [|vm_compute; reflexivity]. change (0 <= o)%Z in Ho. change (default 0%Z (Some o)) with o.
  set (head := "SELECT event_json FROM audit.k8s_events WHERE namespace = ? ORDER BY toStartOfHour(last_timestamp) DESC, last_timestamp DESC, regarding_api_group DESC, regarding_kind DESC, type DESC, uid DESC LIMIT 3 OFFSET").
  assert (event_query_text "audit" scope (map sql conds) 2 (Some o) = head +:+ String " " (pretty o)) as -> by reflexivity.
  assert (Split " " (head +:+ String " " (pretty o)) = Split " " head ++ [pretty o]) as Hsplit.
  { rewrite Split_append. f_equal. apply Split_no_sep. by apply pretty_Z_bytes. }
  cbn [ev_query_docs ToyEvents.db]. unfold ToyEvents.number_after, ToyEvents.selb, ToyEvents.conds, store3.
  rewrite Hsplit. assert (dec_val 0 (pretty o) = o) as Hdec.
  { destruct (pretty_N_spec (Z.to_N o)) as (_ & E & _).
    assert (pretty o = pretty (Z.to_N o)) as Hp by (by destruct o). rewrite Hp, E. lia. }
  revert Hdec. generalize (pretty o) as w. intros w Hdec.
  assert (match ToyEvents.after "OFFSET" (Split " " head ++ [w]) with n :: _ => dec_val 0 n | [] => 0%Z end = o)
    as -> by exact Hdec.
  assert (forall r, List.In r rows3 -> forallb (holds ToyEvents.col ToyEvents.inst ToyEvents.bound r)
      (ToyEvents.parse_conds (ToyEvents.after "WHERE" (Split " " head ++ [w])) (cond_args (map sql conds))) = true) as Hall.
  { intros r Hr. repeat destruct Hr as [<-|Hr]; [vm_compute; reflexivity..|destruct Hr]. }
  rewrite (filter_all _ _ Hall). unfold rows3. rewrite skipn_map, firstn_map, map_map.
  rewrite skipn_map, firstn_map, map_map. reflexivity.
Qed.

Lemma event_pages_complete_witness :
  list_events "audit" store3 [] scope (fun _ => {| ek_now := noon; ek_clock := noon; ek_check := noon; ek_issue := noon |})
    4 0 spec = Ok (Some (records stored)).
Proof.
  apply (event_pages_complete "audit" store3 [] scope _ spec (map sql conds) stored).
  - reflexivity.
  - reflexivity.
  - exact toy_event_answers.
  - repeat (apply List.Forall_cons; [vm_compute; reflexivity|]). apply List.Forall_nil.
  - reflexivity.
  - intros i. vm_compute. repeat split; congruence.
  - intros i. vm_compute. split; congruence.
Defined.

Lemma ParseFieldSelector_roundtrip_witness :
  ParseFieldSelector [] "regarding.name=my-pod,type!=Warning,name==a"
  = Ok [{| Column := "regarding_name"; Operator := FieldSelectorEqual; Value := "my-pod" |};
        {| Column := "type"; Operator := FieldSelectorNotEqual; Value := "Warning" |};
        {| Column := "name"; Operator := FieldSelectorEqual; Value := "a" |}].
Proof.
  apply (proj1 (ParseFieldSelector_roundtrip [])
    [{| s_field := "regarding.name"; s_op := OpEq; s_value := "my-pod" |};
     {| s_field := "type"; s_op := OpNe; s_value := "Warning" |};
     {| s_field := "name"; s_op := OpEqEq; s_value := "a" |}]).
  repeat (apply List.Forall_cons; [split; [by_decide|unfold value_ok; repeat split; vm_compute; reflexivity]|]).
  apply List.Forall_nil.
Defined.

Lemma event_queries_sound_witness :
  exists q args, buildEventQuery "audit" [] noon noon
    {| es_StartTime := ""; es_EndTime := ""; es_Namespace := "default"; es_FieldSelector := "type!=Warning";
       es_Limit := 5000; es_Continue := "" |} (project "p1") = Ok (q, args)
  /\ sound_query (event_scope (project "p1")) q args
  /\ q = "SELECT event_json FROM audit.k8s_events WHERE scope_type = ? AND scope_name = ? AND namespace = ? AND type != ? ORDER BY toStartOfHour(last_timestamp) DESC, last_timestamp DESC, scope_type DESC, scope_name DESC, regarding_api_group DESC, regarding_kind DESC, type DESC, uid DESC LIMIT 1001".
Proof.
  eexists _, _. split; [vm_compute; reflexivity|]. split; [|vm_compute; reflexivity].
  eapply (proj1 (event_queries_sound "audit" [] noon noon (project "p1") _ _ eq_refl)
            {| es_StartTime := ""; es_EndTime := ""; es_Namespace := "default";
               es_FieldSelector := "type!=Warning"; es_Limit := 5000; es_Continue := "" |}).
  vm_compute. reflexivity.
Defined.

(** A value holding [!=] is read as an inequality on a field of that name. *)
Lemma value_with_ne_misread :
  is_ok (ParseFieldSelector [] "reason=a!=b") = false
  /\ ParseFieldSelector [] "reason!=a=b"
     = Ok [{| Column := "reason"; Operator := FieldSelectorNotEqual; Value := "a=b" |}].
Proof. by vm_compute. Qed.

(** A continue token that is not a number restarts the list. *)
Lemma bad_list_token_restarts :
  List ToyEvents.backend after_create [] noon "" {| lo_FieldSelector := ""; lo_Limit := 1; lo_Continue := "x" |}
    (project "p1")
  = List ToyEvents.backend after_create [] noon "" {| lo_FieldSelector := ""; lo_Limit := 1; lo_Continue := "" |}
      (project "p1").
Proof. vm_compute. reflexivity. Qed.

(** Two events inserted at the same instant: the second page of [List] skips
    the one the first page did not return. *)
Lemma list_skips_ties :
  let opts tok := {| lo_FieldSelector := ""; lo_Limit := 1; lo_Continue := tok |} in
  let names r := match r with Ok l => Some (map ev_Name (el_Items l), el_Continue l) | _ => None end in
  names (List ToyEvents.backend store3 [] 0%Z "default" (opts "") scope)
    = Some (["a"], "1714557600000000000")
  /\ names (List ToyEvents.backend store3 [] 0%Z "default" (opts "1714557600000000000") scope) = Some ([], "").
Proof. by vm_compute. Qed.
End EventWitnesses.
