(* ===== verification/Watch.v ===== *)
(** * internal/watch: watching activities and events over JetStream

    Models [internal/watch/watcher.go] and [internal/watch/events_watcher.go]:
    the subject a watch subscribes to, the consumer it creates, the filters
    applied on the client side, and the goroutine that moves messages from the
    consumer to the result channel while the caller may stop the watch.  The
    goroutine, the caller and the reader of the channel are interleaved by a
    step relation on the shared state of the watch. *)

From Stdlib Require Import Ascii String.
From stdpp Require Import base numbers list strings gmap pretty.
From Stdlib Require Import ZArith Lia.
From S2P Require Import Prelude GoLib Types CelPolicy Activity Dlq EventProc AuditProc CelFilter Query EventStore.

(* ------------------------------------------------------------------ *)
(** ** Subjects *)

(** [uint64] resource version; the other fields are strings. *)
Record WatchFilter := {
  wf_ResourceVersion : Z; wf_Namespace : string; wf_ChangeSource : string;
  wf_APIGroup : string; wf_ResourceKind : string; wf_CELFilter : string }.

Record NATSWatcher := { nw_streamName : string; nw_subjectPrefix : string; nw_connected : bool }.

Definition or_star (s : string) : string := if (s =? "")%string then "*" else s.

Definition watch_buildSubject (w : NATSWatcher) (scope : ScopeContext) (filter : WatchFilter) : string :=
  if (sc_Type scope =? "platform")%string then String.concat "." [nw_subjectPrefix w; ">"]
  else
    let group := if (wf_APIGroup filter =? "")%string then "*"
                 else ReplaceAll (wf_APIGroup filter) "." "_" in
    String.concat "." [nw_subjectPrefix w; sc_Type scope; sc_Name scope; group; "*";
                       or_star (wf_ResourceKind filter); or_star (wf_Namespace filter); ">"].

Record EventsWatchFilter := {
  ewf_ResourceVersion : Z; ewf_Namespace : string; ewf_InvolvedObjectKind : string;
  ewf_InvolvedObjectNamespace : string; ewf_InvolvedObjectName : string; ewf_InvolvedObjectUID : string;
  ewf_Reason : string; ewf_Type : string; ewf_Source : string }.

Definition events_buildSubject (w : NATSWatcher) (scope : ScopeContext) (filter : EventsWatchFilter) : string :=
  let prefix := if (nw_subjectPrefix w =? "")%string then "events" else nw_subjectPrefix w in
  if (sc_Type scope =? "platform")%string then String.concat "." [prefix; ">"]
  else
    let namespace := if (ewf_Namespace filter =? "")%string then or_star (ewf_InvolvedObjectNamespace filter)
                     else ewf_Namespace filter in
    String.concat "." [prefix; sc_Type scope; sc_Name scope; namespace;
                       or_star (ewf_InvolvedObjectKind filter); ">"].

(* ------------------------------------------------------------------ *)
(** ** Starting a watch *)

(** The consumer asked for: deliver from a sequence number, or only new
    messages. *)
Record consumer := { co_stream : string; co_subject : string; co_start : option Z }.

Definition deliver_policy (resourceVersion : Z) : option Z :=
  if (0 <? resourceVersion)%Z then Some resourceVersion else None.

(** [AddConsumer] and [SubscribeSync]. *)
Class WatchJS := {
  js_AddConsumer : consumer -> option error;
  js_SubscribeSync : consumer -> option error }.

Section Start.
Context `{WatchJS} `{FilterLib}.

(** [Watch] of the activities watcher; [None]: a nil watcher. *)
Definition Watch (w : option NATSWatcher) (scope : ScopeContext) (filter : WatchFilter)
  : res (consumer * option CompiledActivityFilter) :=
  match w with
  | Some w =>
      if negb (nw_connected w) then Err (Errorf [PStr "Watch API is not available: NATS not configured"])
      else
        let? celFilter :=
          if (wf_CELFilter filter =? "")%string then Ok None
          else let? f := wrap_err (CompileActivityFilterProgram (wf_CELFilter filter))
                           (fun err => Errorf [PStr "invalid CEL filter: "; PWrap err]) in
               Ok (Some f) in
        let c := {| co_stream := nw_streamName w; co_subject := watch_buildSubject w scope filter;
                    co_start := deliver_policy (wf_ResourceVersion filter) |} in
        match js_AddConsumer c with
        | Some err => Err (Errorf [PStr "failed to create JetStream consumer: "; PWrap err])
        | None =>
            match js_SubscribeSync c with
            | Some err => Err (Errorf [PStr "failed to subscribe to consumer inbox: "; PWrap err])
            | None => Ok (c, celFilter)
            end
        end
  | None => Err (Errorf [PStr "Watch API is not available: NATS not configured"])
  end.

(** [Watch] of the events watcher. *)
Definition events_Watch (w : option NATSWatcher) (scope : ScopeContext) (filter : EventsWatchFilter)
  : res consumer :=
  let unavailable := Errorf [PStr "watch service temporarily unavailable, please try again later"] in
  match w with
  | None => Err (Errorf [PStr "Watch API is not available: NATS not configured"])
  | Some w =>
      let c := {| co_stream := if (nw_streamName w =? "")%string then "EVENTS" else nw_streamName w;
                  co_subject := events_buildSubject w scope filter;
                  co_start := deliver_policy (ewf_ResourceVersion filter) |} in
      if negb (nw_connected w) then Panic "invalid memory address or nil pointer dereference"
      else match js_AddConsumer c with
      | Some _ => Err unavailable
      | None => match js_SubscribeSync c with Some _ => Err unavailable | None => Ok c end
      end
  end.
End Start.

(* ------------------------------------------------------------------ *)
(** ** Client-side filters *)

(** A watched activity with its resource version, and the parts of a watched
    event its filter reads. *)
Record WatchedActivity := { wa_activity : Activity; wa_ResourceVersion : string }.
Record WatchedEvent := {
  we_event : Event; we_RegardingName : string; we_RegardingUID : string; we_Reason : string;
  we_Type : string; we_ReportingController : string }.

Section Filters.
Context `{FilterLib}.

(** [matchesFilter]: a filter that fails to evaluate lets nothing through. *)
Definition watch_matchesFilter (filter : WatchFilter) (celFilter : option CompiledActivityFilter)
    (activity : Activity) : bool :=
  if (negb (wf_ChangeSource filter =? "")
      && negb (ChangeSource (Spec activity) =? wf_ChangeSource filter))%string%bool then false
  else match celFilter with
       | None => true
       | Some f => match EvaluateActivity f activity with Ok true => true | _ => false end
       end.

Definition unless (want got : string) : bool := ((want =? "") || (got =? want))%string%bool.

Definition events_matchesFilter (filter : EventsWatchFilter) (event : WatchedEvent) : bool :=
  unless (ewf_InvolvedObjectName filter) (we_RegardingName event)
  && unless (ewf_InvolvedObjectUID filter) (we_RegardingUID event)
  && unless (ewf_Reason filter) (we_Reason event)
  && unless (ewf_Type filter) (we_Type event)
  && unless (ewf_Source filter) (we_ReportingController event).
End Filters.

(* ------------------------------------------------------------------ *)
(** ** The goroutine of a watch *)

(** A JetStream message; the sequence number is missing when its metadata
    cannot be read. *)
Record msg := { m_data : string; m_status100 : bool; m_seq : option Z }.

Section Processing.
Context {O : Type} (decode : string -> error + O) (set_rv : string -> O -> O) (matchesFilter : O -> bool).

(** What the loop body decides for a message. *)
Inductive reaction :=
| Heartbeat              (* Respond *)
| Malformed              (* Nak *)
| Skipped                (* Ack *)
| Deliver (o : O).       (* send, then Ack *)

Definition on_message (m : msg) : reaction :=
  if ((m_data m =? "")%string && m_status100 m)%bool then Heartbeat
  else match decode (m_data m) with
       | inl _ => Malformed
       | inr o =>
           let o := match m_seq m with Some n => set_rv (pretty n) o | None => o end in
           if matchesFilter o then Deliver o else Skipped
       end.

Inductive settled := Responded | WasNaked | WasAcked.

(** Where the goroutine is: at the top of the loop, in [NextMsgWithContext],
    in the select that sends, in its deferred [Stop], done, or crashed. *)
Inductive wpc := PTop | PRecv | PSend (m : msg) (o : O) | PStop | PEnd | PPanic.

(** Where the caller's [Stop] is: not called, cancelled but not closed, done. *)
Inductive spc := SNone | SClosing | SDone.

(** The state of a watch: the messages to come, the goroutine, the caller's
    [Stop], the [stopped] flag, the context, the channel (its buffer, whether
    it is closed, what the reader took), how each message was settled, and the
    last sequence number. *)
Record wstate := {
  w_pending : list msg; w_pc : wpc; w_stop : spc; w_stopped : bool; w_done : bool;
  w_buffer : list O; w_closed : bool; w_received : list O;
  w_settled : list (msg * settled); w_lastSequence : Z }.

Definition resultChan_cap : nat := 100.

Definition start (ms : list msg) : wstate :=
  {| w_pending := ms; w_pc := PTop; w_stop := SNone; w_stopped := false; w_done := false;
     w_buffer := []; w_closed := false; w_received := []; w_settled := []; w_lastSequence := 0%Z |}.

Definition set_pc (s : wstate) (pc : wpc) : wstate :=
  {| w_pending := w_pending s; w_pc := pc; w_stop := w_stop s; w_stopped := w_stopped s; w_done := w_done s;
     w_buffer := w_buffer s; w_closed := w_closed s; w_received := w_received s;
     w_settled := w_settled s; w_lastSequence := w_lastSequence s |}.

(** A message taken from the subscription, up to the select. *)
Definition take_message (s : wstate) (m : msg) (rest : list msg) : wstate :=
  let seq := match on_message m with
             | Heartbeat | Malformed => w_lastSequence s
             | _ => default (w_lastSequence s) (m_seq m)
             end in
  let with_ pc log := {| w_pending := rest; w_pc := pc; w_stop := w_stop s; w_stopped := w_stopped s;
                         w_done := w_done s; w_buffer := w_buffer s; w_closed := w_closed s;
                         w_received := w_received s; w_settled := w_settled s ++ log;
                         w_lastSequence := seq |} in
  match on_message m with
  | Heartbeat => with_ PTop [(m, Responded)]
  | Malformed => with_ PTop [(m, WasNaked)]
  | Skipped => with_ PTop [(m, WasAcked)]
  | Deliver o => with_ (PSend m o) []
  end.

(** The send and the Ack that follows it. *)
Definition send (s : wstate) (m : msg) (o : O) : wstate :=
  {| w_pending := w_pending s; w_pc := PTop; w_stop := w_stop s; w_stopped := w_stopped s; w_done := w_done s;
     w_buffer := w_buffer s ++ [o]; w_closed := w_closed s; w_received := w_received s;
     w_settled := w_settled s ++ [(m, WasAcked)]; w_lastSequence := w_lastSequence s |}.

(** The fields [Stop] changes, under its mutex. *)
Definition set_stop (s : wstate) (pc : wpc) (st : spc) (closed : bool) : wstate :=
  {| w_pending := w_pending s; w_pc := pc; w_stop := st; w_stopped := true; w_done := true;
     w_buffer := w_buffer s; w_closed := closed; w_received := w_received s;
     w_settled := w_settled s; w_lastSequence := w_lastSequence s |}.

Definition set_done (s : wstate) : wstate :=
  {| w_pending := w_pending s; w_pc := w_pc s; w_stop := w_stop s; w_stopped := w_stopped s; w_done := true;
     w_buffer := w_buffer s; w_closed := w_closed s; w_received := w_received s;
     w_settled := w_settled s; w_lastSequence := w_lastSequence s |}.

Definition receive (s : wstate) (rest : list O) (o : O) : wstate :=
  {| w_pending := w_pending s; w_pc := w_pc s; w_stop := w_stop s; w_stopped := w_stopped s; w_done := w_done s;
     w_buffer := rest; w_closed := w_closed s; w_received := w_received s ++ [o];
     w_settled := w_settled s; w_lastSequence := w_lastSequence s |}.

(** One step of the goroutine, the caller or the reader.  In the select, a
    closed channel is ready for sending, and sending on it panics. *)
Inductive step : wstate -> wstate -> Prop :=
| step_top s : w_pc s = PTop -> step s (set_pc s (if w_done s then PStop else PRecv))
| step_take s m rest : w_pc s = PRecv -> w_pending s = m :: rest -> step s (take_message s m rest)
| step_recv_error s : w_pc s = PRecv -> step s (set_pc s (if w_done s then PStop else PTop))
| step_send s m o : w_pc s = PSend m o -> w_closed s = false ->
    (length (w_buffer s) < resultChan_cap)%nat -> step s (send s m o)
| step_send_closed s m o : w_pc s = PSend m o -> w_closed s = true -> step s (set_pc s PPanic)
| step_send_done s m o : w_pc s = PSend m o -> w_done s = true -> step s (set_pc s PStop)
| step_stop s : w_pc s = PStop -> w_stop s <> SClosing ->
    step s (if w_stopped s then set_pc s PEnd else set_stop s PEnd (w_stop s) true)
| step_cancel s : step s (set_done s)
| step_caller_stop s : w_stopped s = false -> w_stop s = SNone ->
    step s (set_stop s (w_pc s) SClosing (w_closed s))
| step_caller_close s : w_stop s = SClosing -> step s (set_stop s (w_pc s) SDone true)
| step_receive s o rest : w_buffer s = o :: rest -> step s (receive s rest o).

Inductive reachable (ms : list msg) : wstate -> Prop :=
| reach_start : reachable ms (start ms)
| reach_step s s' : reachable ms s -> step s s' -> reachable ms s'.

(** ** The invariant *)

(** The disposition each message must end with, and the objects it yields. *)
Definition disposition_ok (x : msg * settled) : Prop :=
  match on_message (fst x) with
  | Heartbeat => snd x = Responded
  | Malformed => snd x = WasNaked
  | Skipped | Deliver _ => snd x = WasAcked
  end.
Definition yields (m : msg) : list O := match on_message m with Deliver o => [o] | _ => [] end.
Definition in_hand (pc : wpc) : list msg := match pc with PSend m _ => [m] | _ => [] end.

Definition over (pc : wpc) : bool := match pc with PStop | PEnd | PPanic => true | _ => false end.

(** Every message is settled, in hand, or still to come, in order - except the
    one a stop may drop; what was sent is what the settled messages yield. *)
Record inv (ms : list msg) (s : wstate) : Prop := {
  inv_order : exists lost, ms = map fst (w_settled s) ++ in_hand (w_pc s) ++ lost ++ w_pending s
      /\ (length lost <= 1)%nat /\ (lost <> [] -> over (w_pc s) = true);
  inv_settled : Forall disposition_ok (w_settled s);
  inv_sent : w_received s ++ w_buffer s = List.concat (map yields (map fst (w_settled s)));
  inv_hand : forall m o, w_pc s = PSend m o -> on_message m = Deliver o;
  inv_cap : (length (w_buffer s) <= resultChan_cap)%nat;
  inv_closed : w_closed s = true -> w_stopped s = true /\ (w_stop s = SDone \/ w_pc s = PEnd);
  inv_stopped : w_stopped s = true -> w_done s = true;
  inv_closing : w_stop s <> SNone -> w_stopped s = true;
  inv_panic : w_pc s = PPanic -> w_stop s = SDone }.

Lemma inv_start ms : inv ms (start ms).
Proof.
  split; cbn; try done; [exists []; split; [done|split; [cbn; lia|done]]|unfold resultChan_cap; lia].
Qed.

(** A step that only moves the goroutine. *)
Lemma inv_move ms s pc :
  inv ms s -> in_hand (w_pc s) = [] -> in_hand pc = [] -> (over (w_pc s) = true -> over pc = true) ->
  w_pc s <> PEnd -> pc <> PPanic -> inv ms (set_pc s pc).
Proof.
  intros [(lost & Ho & Hl & Hov) Hs Hsent Hh Hc Hcl Hst Hcg Hp] Hin Hin' Hovr Hne Hnp. split; cbn; try done.
  - exists lost. rewrite Hin in Ho. rewrite Hin'. split_and!; [done|done|]. intros ?. by apply Hovr, Hov.
  - intros m o ->. done.
  - intros Hclosed. destruct (Hcl Hclosed) as [? [?|?]]; [by split; [|left]|done].
Qed.

(** Dropping the message in hand. *)
Lemma inv_drop ms s m o pc :
  inv ms s -> w_pc s = PSend m o -> over pc = true -> (pc = PPanic -> w_closed s = true) -> inv ms (set_pc s pc).
Proof.
  intros [(lost & Ho & Hl & Hov) Hs Hsent Hh Hc Hcl Hst Hcg Hp] Hpc Hpo Hpanic.
  assert (in_hand pc = []) as Hin by by destruct pc. split; cbn; try done.
  - exists [m]. rewrite Hin. rewrite Hpc in Ho, Hov. cbn [in_hand] in Ho. split_and!; [|cbn; lia|done].
    destruct lost as [|x lost]; [done|]. by specialize (Hov ltac:(done)).
  - intros m' o' ->. done.
  - intros Hclosed. destruct (Hcl Hclosed) as [? [?|E]]; [by split; [|left]|]. by rewrite Hpc in E.
  - intros E. destruct (Hcl (Hpanic E)) as [_ [?|E']]; [done|]. by rewrite Hpc in E'.
Qed.

(** Taking a message keeps it accounted for. *)
Lemma inv_take ms s m rest :
  inv ms s -> w_pc s = PRecv -> w_pending s = m :: rest -> inv ms (take_message s m rest).
Proof.
  intros [(lost & Ho & Hl & Hov) Hs Hsent Hh Hc Hcl Hst Hcg Hp] Hpc Hpend.
  assert (lost = []) as -> by (destruct lost as [|x l]; [done|]; specialize (Hov ltac:(done)); by rewrite Hpc in Hov).
  rewrite Hpc, Hpend in Ho. cbn [in_hand app] in Ho.
  assert (forall d, ms = map fst (w_settled s ++ [(m, d)]) ++ rest) as Hmsg.
  { intros d. rewrite map_app, <- app_assoc. exact Ho. }
  assert (forall d, yields m = [] -> disposition_ok (m, d) ->
    Forall disposition_ok (w_settled s ++ [(m, d)])
    /\ w_received s ++ w_buffer s = List.concat (map yields (map fst (w_settled s ++ [(m, d)])))) as Hset.
  { intros d Hy Hd. split; [rewrite Forall_app; split; [done|by constructor]|].
    rewrite !map_app, concat_app. cbn [map fst List.concat]. rewrite Hy. cbn [app].
    by rewrite app_nil_r. }
  assert (w_closed s = true -> w_stopped s = true /\ (w_stop s = SDone \/ PTop = PEnd)) as Hcl'.
  { intros E. destruct (Hcl E) as [? [?|E']]; [by split; [|left]|]. by rewrite Hpc in E'. }
  unfold take_message. destruct (on_message m) as [| | |o] eqn:Em; split;
    cbn [w_pending w_pc w_stop w_stopped w_done w_buffer w_closed w_received w_settled]; try done;
    try (exists []; split; [apply Hmsg|split; [cbn; lia|done]]);
    try (apply Hset; [by unfold yields; rewrite Em|by unfold disposition_ok; cbn [fst snd]; rewrite Em]).
  - exists []. split; [|split; [cbn; lia|done]]. rewrite app_nil_r. exact Ho.
  - by rewrite app_nil_r.
  - by rewrite app_nil_r.
  - by intros m' o' [= <- <-].
  - intros E. destruct (Hcl' E) as [? [?|?]]; [by split; [|left]|done].
Qed.

Lemma inv_send ms s m o :
  inv ms s -> w_pc s = PSend m o -> w_closed s = false -> (length (w_buffer s) < resultChan_cap)%nat ->
  inv ms (send s m o).
Proof.
  intros [(lost & Ho & Hl & Hov) Hs Hsent Hh Hc Hcl Hst Hcg Hp] Hpc Hopen Hroom.
  assert (lost = []) as -> by (destruct lost as [|x l]; [done|]; specialize (Hov ltac:(done)); by rewrite Hpc in Hov).
  rewrite Hpc in Ho. cbn [in_hand app] in Ho. pose proof (Hh _ _ Hpc) as Em.
  split; cbn [send w_pending w_pc w_stop w_stopped w_done w_buffer w_closed w_received w_settled]; try done.
  - exists []. rewrite map_app, <- app_assoc. split; [exact Ho|split; [cbn; lia|done]].
  - rewrite Forall_app. split; [done|]. constructor; [|done]. unfold disposition_ok. cbn [fst snd]. by rewrite Em.
  - rewrite app_assoc, Hsent, !map_app, concat_app. cbn [map fst List.concat]. unfold yields at 3. by rewrite Em.
  - rewrite length_app. cbn [length]. lia.
  - by rewrite Hopen.
Qed.

Lemma inv_step ms s s' : inv ms s -> step s s' -> inv ms s'.
Proof.
  intros Hi Hstep. destruct Hstep as [s E|s m rest E Hp|s E|s m o E Hc Hb|s m o E Hc|s m o E Hd|s E Hc|s|s Hs Hn|s Hc|s o rest Hb].
  - apply inv_move; rewrite ?E; try done; by destruct (w_done s).
  - by apply inv_take.
  - apply inv_move; rewrite ?E; try done; by destruct (w_done s).
  - by apply inv_send.
  - by eapply inv_drop.
  - by eapply inv_drop.
  - destruct (w_stopped s) eqn:Est; [apply inv_move; by rewrite ?E|].
    destruct Hi as [(lost & Ho & Hl & Hov) Hs Hsent Hh Hcap Hcl Hst Hcg Hp]. rewrite E in *.
    split; cbn; try done.
    + by exists lost.
    + intros _. split; [done|by right].
  - destruct Hi. by split.
  - destruct Hi as [(lost & Ho & Hl & Hov) Hst Hsent Hh Hcap Hcl Hsd Hcg Hp]. split; cbn; try done.
    + by exists lost.
    + intros E. destruct (Hcl E) as [E' _]. congruence.
    + intros E. specialize (Hp E). congruence.
  - destruct Hi as [(lost & Ho & Hl & Hov) Hst Hsent Hh Hcap Hcl Hsd Hcg Hp]. split; cbn; try done.
    + by exists lost.
    + intros _. split; [done|by left].
  - destruct Hi as [(lost & Ho & Hl & Hov) Hst Hsent Hh Hcap Hcl Hsd Hcg Hp]. split; cbn; try done.
    + by exists lost.
    + rewrite <- Hsent, Hb, <- app_assoc. done.
    + rewrite Hb in Hcap. cbn [length] in Hcap. lia.
Qed.

Lemma reachable_inv ms s : reachable ms s -> inv ms s.
Proof. induction 1; [apply inv_start|by eapply inv_step]. Qed.
End Processing.

Section Progress.
Context {O : Type} (decode : string -> error + O) (set_rv : string -> O -> O) (matchesFilter : O -> bool).
Abbreviation wstate := (@wstate O).
Abbreviation step := (step decode set_rv matchesFilter).
Abbreviation reachable := (reachable decode set_rv matchesFilter).
Abbreviation on_message := (on_message decode set_rv matchesFilter).
Abbreviation yields := (yields decode set_rv matchesFilter).

(** The reader can empty the channel. *)
Lemma drain ms (s : wstate) :
  reachable ms s -> exists s', reachable ms s' /\ w_buffer s' = [] /\ w_pc s' = w_pc s
    /\ w_pending s' = w_pending s /\ w_done s' = w_done s.
Proof.
  remember (w_buffer s) as b eqn:Hb. revert s Hb. induction b as [|o b IH]; intros s Hb Hr.
  - by exists s.
  - destruct (IH (receive s b o)) as (s' & Hr' & ? & ? & ? & ?); [done| |by exists s'].
    eapply reach_step; [exact Hr|]. by apply step_receive.
Qed.

Lemma open_not_closed ms (s : wstate) : reachable ms s -> w_done s = false -> w_closed s = false.
Proof.
  intros Hr Hd. apply reachable_inv in Hr as []. destruct (w_closed s) eqn:E; [|done].
  destruct (inv_closed0 eq_refl) as [E' _]. apply inv_stopped0 in E'. congruence.
Qed.

(** A message in hand can be sent. *)
Lemma send_in_hand ms (s : wstate) m o :
  reachable ms s -> w_done s = false -> w_pc s = PSend m o ->
  exists s', reachable ms s' /\ w_pc s' = PTop /\ w_pending s' = w_pending s /\ w_done s' = false.
Proof.
  intros Hr Hd Hpc. destruct (drain ms s Hr) as (s1 & Hr1 & Hb & Hpc1 & Hp1 & Hd1).
  exists (send s1 m o). split; [|by rewrite <- Hp1, <- Hd, <- Hd1].
  eapply reach_step; [exact Hr1|]. apply step_send; [congruence| |rewrite Hb; unfold resultChan_cap; cbn; lia].
  eapply open_not_closed; [exact Hr1|congruence].
Qed.

(** As long as nobody stops it, the goroutine can process every message. *)
Lemma finish ms (pend : list msg) (s : wstate) :
  reachable ms s -> w_done s = false -> w_pc s = PTop -> w_pending s = pend ->
  exists s', reachable ms s' /\ w_pc s' = PTop /\ w_pending s' = [] /\ w_done s' = false.
Proof.
  revert s. induction pend as [|m pend IH]; intros s Hr Hd Hpc Hp; [by exists s|].
  assert (reachable ms (set_pc s PRecv)) as Hr1.
  { eapply reach_step; [exact Hr|]. pose proof (step_top decode set_rv matchesFilter s Hpc) as Ht. by rewrite Hd in Ht. }
  set (s1 := take_message decode set_rv matchesFilter (set_pc s PRecv) m pend).
  assert (reachable ms s1) as Hr2.
  { eapply reach_step; [exact Hr1|]. by apply step_take. }
  assert (w_pending s1 = pend /\ w_done s1 = false
          /\ (w_pc s1 = PTop \/ exists o, w_pc s1 = PSend m o)) as (Hp1 & Hd1 & [Hpc1|[o Hpc1]]).
  { unfold s1, take_message. destruct (on_message m); cbn; split_and!; try done; try (by left). right. by eexists. }
  - by apply (IH s1).
  - destruct (send_in_hand ms s1 m o Hr2 Hd1 Hpc1) as (s2 & ? & ? & ? & ?). apply (IH s2); congruence.
Qed.

Lemma to_top ms (s : wstate) :
  reachable ms s -> w_done s = false -> over (w_pc s) = false ->
  exists s', reachable ms s' /\ w_pc s' = PTop /\ w_pending s' = w_pending s /\ w_done s' = false.
Proof.
  intros Hr Hd Ho. destruct (w_pc s) as [| |m o| | |] eqn:E; try done.
  - by exists s.
  - exists (set_pc s PTop). split; [|done]. eapply reach_step; [exact Hr|].
    pose proof (step_recv_error decode set_rv matchesFilter s E) as Ht. by rewrite Hd in Ht.
  - by eapply send_in_hand.
Qed.

(** When the goroutine is over, it was told to stop. *)
Lemma over_done ms (s : wstate) : reachable ms s -> over (w_pc s) = true -> w_done s = true.
Proof.
  induction 1 as [|s s' Hr IH Hst]; [done|]. intros Ho.
  pose proof (reachable_inv _ _ _ _ _ Hr) as Hinv.
  destruct Hst as [s E|s m rest E Hp|s E|s m o E Hc Hb|s m o E Hc|s m o E Hd|s E Hc|s|s Hs Hn|s Hc|s o rest Hb];
    cbn in *; try (by apply IH); try done.
  - by destruct (w_done s).
  - unfold take_message in Ho. by destruct (on_message m).
  - by destruct (w_done s).
  - destruct Hinv. destruct (inv_closed0 Hc) as [? _]. by apply inv_stopped0.
  - destruct (w_stopped s); cbn; [apply IH; by rewrite E|done].
Qed.
End Progress.

(** C19: a watch neither loses, repeats nor reorders: in every state its
    goroutine, the caller and the reader can reach, the messages are settled in
    the order they came (at most the one in hand is dropped by a stop), each
    with its due - [Ack] for those sent or filtered out, [Nak] for malformed
    ones -, and what the reader got and what is buffered are the objects of the
    settled messages, in order; the channel never holds more than 100 and is
    closed at most once.  The goroutine panics only if the caller called
    [Stop]; and as long as nothing stops the watch, every message can be
    delivered. *)
Theorem watch_delivery {O : Type} (decode : string -> error + O) (set_rv : string -> O -> O)
    (matchesFilter : O -> bool) (ms : list msg) (s : wstate) :
  let yields := yields decode set_rv matchesFilter in
  reachable decode set_rv matchesFilter ms s ->
  (exists lost, ms = map fst (w_settled s) ++ in_hand (w_pc s) ++ lost ++ w_pending s
     /\ (length lost <= 1)%nat /\ (lost <> [] -> w_done s = true))
  /\ Forall (disposition_ok decode set_rv matchesFilter) (w_settled s)
  /\ w_received s ++ w_buffer s = List.concat (map yields (map fst (w_settled s)))
  /\ (length (w_buffer s) <= 100)%nat
  /\ (w_stop s = SNone -> w_pc s <> PPanic)
  /\ (w_done s = false ->
      exists s', reachable decode set_rv matchesFilter ms s' /\ w_pending s' = [] /\ w_done s' = false
        /\ w_received s' = List.concat (map yields ms)).
Proof.
  intros yields Hr. pose proof (reachable_inv _ _ _ _ _ Hr) as Hinv. pose proof (over_done _ _ _ _ _ Hr) as Hover.
  destruct Hinv as [(lost & Ho & Hl & Hov) Hs Hsent Hh Hc Hcl Hst Hcg Hp].
  split; [exists lost; split_and!; [done|done|by intros ?; apply Hover, Hov]|]. split_and!; [done|done|done| |].
  - intros Hn E. specialize (Hp E). congruence.
  - intros Hd. destruct (to_top _ _ _ ms s Hr Hd) as (s1 & Hr1 & Hpc1 & Hp1 & Hd1).
    { destruct (over (w_pc s)); [|done]. by rewrite Hover in Hd. }
    destruct (finish _ _ _ ms _ s1 Hr1 Hd1 Hpc1 eq_refl) as (s2 & Hr2 & Hpc2 & Hp2 & Hd2).
    destruct (drain _ _ _ ms s2 Hr2) as (s3 & Hr3 & Hb3 & Hpc3 & Hp3 & Hd3).
    exists s3. split; [done|]. split; [congruence|]. split; [congruence|].
    destruct (reachable_inv _ _ _ _ _ Hr3) as [(l3 & Ho3 & _ & Hov3) _ Hsent3 _ _ _ _ _ _].
    rewrite Hpc3, Hpc2 in Ho3, Hov3. assert (l3 = []) as -> by (destruct l3; [done|]; by specialize (Hov3 ltac:(done))).
    rewrite Hp3, Hp2 in Ho3. cbn [in_hand app] in Ho3. rewrite app_nil_r in Ho3.
    rewrite Hb3, app_nil_r, <- Ho3 in Hsent3. exact Hsent3.
Qed.

(** The caller's [Stop] can make the goroutine panic: it closes the channel
    while an object is in hand, and the select may then choose to send. *)
Lemma stop_may_panic {O : Type} (decode : string -> error + O) set_rv matchesFilter (m : msg) (o : O) :
  on_message decode set_rv matchesFilter m = Deliver o ->
  exists s, reachable decode set_rv matchesFilter [m] s /\ w_pc s = PPanic.
Proof.
  intros Em. set (s0 := start (O := O) [m]). set (s1 := set_pc s0 PRecv).
  set (s2 := take_message decode set_rv matchesFilter s1 m []).
  assert (reachable decode set_rv matchesFilter [m] s2) as Hr.
  { eapply reach_step; [eapply reach_step; [apply reach_start|]|].
    - exact (step_top decode set_rv matchesFilter s0 eq_refl).
    - by apply step_take. }
  assert (w_pc s2 = PSend m o) as Hpc by (unfold s2, take_message; by rewrite Em).
  assert (w_stopped s2 = false /\ w_stop s2 = SNone) as [Hs Hn] by (unfold s2, take_message; by rewrite Em).
  set (s3 := set_stop s2 (w_pc s2) SClosing (w_closed s2)). set (s4 := set_stop s3 (w_pc s3) SDone true).
  exists (set_pc s4 PPanic). split; [|done].
  eapply reach_step; [eapply reach_step; [eapply reach_step; [exact Hr|]|]|].
  - by apply step_caller_stop.
  - by apply (step_caller_close _ _ _ s3).
  - by apply (step_send_closed _ _ _ s4 m o).
Qed.

(** The two watches: the same goroutine over their objects and filters. *)
Definition activity_watch_step `{FilterLib} (decode : string -> error + WatchedActivity)
    (filter : WatchFilter) (celFilter : option CompiledActivityFilter)
  : wstate (O := WatchedActivity) -> wstate (O := WatchedActivity) -> Prop :=
  step decode (fun rv o => {| wa_activity := wa_activity o; wa_ResourceVersion := rv |})
    (fun o => watch_matchesFilter filter celFilter (wa_activity o)).

Definition events_watch_step (decode : string -> error + WatchedEvent) (filter : EventsWatchFilter)
  : wstate (O := WatchedEvent) -> wstate (O := WatchedEvent) -> Prop :=
  step decode
    (fun rv o => {| we_event := with_rv (we_event o) rv; we_RegardingName := we_RegardingName o;
                    we_RegardingUID := we_RegardingUID o; we_Reason := we_Reason o; we_Type := we_Type o;
                    we_ReportingController := we_ReportingController o |})
    (events_matchesFilter filter).

(** [LastResourceVersion] *)
Definition LastResourceVersion {O} (s : @wstate O) : string := pretty (w_lastSequence s).

(* ------------------------------------------------------------------ *)
(** ** Subjects: lemmas *)

(** A token that stands for itself in a subject filter. *)
Definition plain_token (s : string) : Prop := has_byte dot s = false /\ s <> "*" /\ s <> ">".
Definition publishable (s : string) : Prop := has_byte dot s = false.

Lemma Split_concat_all (l : list string) :
  l <> [] -> Split dot (String.concat "." l) = List.concat (map (Split dot) l).
Proof.
  induction l as [|x l IH]; [done|]. intros _. destruct l as [|y l].
  - cbn [String.concat map List.concat]. by rewrite app_nil_r.
  - change (String.concat "." (x :: y :: l)) with (x +:+ String dot (String.concat "." (y :: l))).
    rewrite Split_append, IH by done. done.
Qed.

Lemma tokens_plain (t x : string) (f s : list string) :
  plain_token t -> tokens_match (t :: f) (x :: s) = ((t =? x)%string && tokens_match f s)%bool.
Proof.
  intros (_ & H1 & H2). apply String.eqb_neq in H1, H2. cbn [tokens_match]. rewrite H1, H2. cbn [negb andb].
  by destruct (t =? x)%string.
Qed.

Lemma tokens_star (x : string) (f s : list string) : tokens_match ("*" :: f) (x :: s) = tokens_match f s.
Proof. done. Qed.

Lemma tokens_or_star (t x : string) (f s : list string) :
  t = "" \/ plain_token t ->
  tokens_match (or_star t :: f) (x :: s) = (((t =? "") || (t =? x))%string && tokens_match f s)%bool.
Proof.
  unfold or_star. intros [->|Ht]; [done|]. destruct (String.eqb_spec t "") as [->|]; [done|].
  by apply tokens_plain.
Qed.

Lemma tokens_stars (n : nat) (s : list string) :
  tokens_match (repeat "*" n ++ [">"]) s = (n <? length s)%nat.
Proof.
  revert s. induction n as [|n IH]; intros [|x s]; try done. change (repeat "*" (S n) ++ [">"]) with ("*" :: repeat "*" n ++ [">"]).
  rewrite tokens_star, IH. done.
Qed.

Lemma Split_length (s : string) : (1 <= length (Split dot s))%nat.
Proof. destruct (Split_cons_ne dot s) as (t & ts & ->). cbn. lia. Qed.

(** The tokens of the subject an activity is published on; both processors
    build the same one. *)
Definition subject_tenant (a : Activity) : string * string :=
  let or d s := if (s =? "")%string then d else s in
  (or "platform" (ten_Type (Tenant (Spec a))), or "_" (ten_Name (Tenant (Spec a)))).
Definition subject_group (a : Activity) : string :=
  if (APIGroup (Resource_ (Spec a)) =? "")%string then "core" else APIGroup (Resource_ (Spec a)).
Definition subject_namespace (a : Activity) : string :=
  if (res_Namespace (Resource_ (Spec a)) =? "")%string then "_" else res_Namespace (Resource_ (Spec a)).

Lemma subject_tokens (p : string) (a : Activity) :
  Split dot (audit_buildActivitySubject p a)
  = Split dot p ++ Split dot (fst (subject_tenant a)) ++ Split dot (snd (subject_tenant a))
    ++ Split dot (subject_group a) ++ Split dot (org_Type (Origin (Spec a)))
    ++ Split dot (Kind (Resource_ (Spec a))) ++ Split dot (subject_namespace a) ++ Split dot (Name a).
Proof.
  change (audit_buildActivitySubject p a)
    with (String.concat "." [p; fst (subject_tenant a); snd (subject_tenant a); subject_group a;
            org_Type (Origin (Spec a)); Kind (Resource_ (Spec a)); subject_namespace a; Name a]).
  rewrite Split_concat_all by done. cbn [map List.concat]. by rewrite app_nil_r.
Qed.

Lemma same_subject (p : string) (a : Activity) : EventProc.buildActivitySubject p a = audit_buildActivitySubject p a.
Proof. reflexivity. Qed.

(** The third token of a watch: any group, or the group with underscores. *)
Definition group_token (g : string) : string := if (g =? "")%string then "*" else ReplaceAll g "." "_".

Lemma underscored_cons (c : ascii) (s : string) :
  ReplaceAll (String c s) "." "_" = String (if Ascii.eqb c dot then "_"%char else c) (ReplaceAll s "." "_").
Proof.
  unfold ReplaceAll. cbn [replace_go HasPrefix].
  change (Ascii.eqb "." c) with (Ascii.eqb dot c). rewrite (Ascii.eqb_sym dot c).
  destruct (Ascii.eqb c dot); [|done]. by destruct s.
Qed.
Lemma underscored_plain (g : string) : has_byte dot (ReplaceAll g "." "_") = false.
Proof.
  induction g as [|c g IH]; [done|]. rewrite underscored_cons. cbn [has_byte]. rewrite IH, orb_false_r.
  destruct (Ascii.eqb c dot) eqn:E; [done|exact E].
Qed.
Lemma underscored_id (g : string) : has_byte dot g = false -> ReplaceAll g "." "_" = g.
Proof.
  induction g as [|c g IH]; [done|]. cbn [has_byte]. intros (Hc & Hg)%orb_false_iff.
  by rewrite underscored_cons, Hc, IH.
Qed.

Lemma plain_Split (t : string) : has_byte dot t = false -> Split dot t = [t].
Proof. apply Split_no_sep. Qed.

Lemma or_star_Split (t : string) : t = "" \/ plain_token t -> Split dot (or_star t) = [or_star t].
Proof. intros [->|(Ht & _)]; [done|]. unfold or_star. destruct (t =? "")%string; [done|by apply plain_Split]. Qed.

Lemma group_token_Split (g : string) : Split dot (group_token g) = [group_token g].
Proof. unfold group_token. destruct (g =? "")%string; [done|]. apply plain_Split, underscored_plain. Qed.

Lemma watch_tokens (w : NATSWatcher) (scope : ScopeContext) (filter : WatchFilter) :
  sc_Type scope <> "platform" -> plain_token (sc_Type scope) -> plain_token (sc_Name scope) ->
  (wf_ResourceKind filter = "" \/ plain_token (wf_ResourceKind filter)) ->
  (wf_Namespace filter = "" \/ plain_token (wf_Namespace filter)) ->
  Split dot (watch_buildSubject w scope filter)
  = Split dot (nw_subjectPrefix w)
    ++ [sc_Type scope; sc_Name scope; group_token (wf_APIGroup filter); "*";
        or_star (wf_ResourceKind filter); or_star (wf_Namespace filter); ">"].
Proof.
  intros Hp (Ht & _) (Hn & _) Hk Hns. unfold watch_buildSubject. apply String.eqb_neq in Hp. rewrite Hp.
  fold (group_token (wf_APIGroup filter)). rewrite Split_concat_all by done. cbn [map List.concat].
  rewrite (plain_Split _ Ht), (plain_Split _ Hn), group_token_Split, (or_star_Split _ Hk), (or_star_Split _ Hns). done.
Qed.

Lemma elem_two {A} (x a b : A) : x ∈ [a; b] <-> x = a \/ x = b.
Proof. set_solver. Qed.

(** A tenant's watch of activities receives that tenant's activities and no
    others: on the subject pattern it subscribes to (names without dots or
    wildcards), a published activity matches only if its tenant is the one of
    the scope; without further filters exactly then; and with filters, for
    activities whose API group, origin, kind and namespace have no dot, exactly
    when the API group, kind and namespace asked for are the activity's too. *)
Theorem watch_subject_isolates (w : NATSWatcher) (scope : ScopeContext) (filter : WatchFilter) (a : Activity) :
  sc_Type scope <> "platform" -> plain_token (sc_Type scope) -> plain_token (sc_Name scope) ->
  (wf_ResourceKind filter = "" \/ plain_token (wf_ResourceKind filter)) ->
  (wf_Namespace filter = "" \/ plain_token (wf_Namespace filter)) ->
  publishable (fst (subject_tenant a)) -> publishable (snd (subject_tenant a)) ->
  ">" ∉ Split dot (nw_subjectPrefix w) ->
  let received := subjectMatches (watch_buildSubject w scope filter)
                    (audit_buildActivitySubject (nw_subjectPrefix w) a) in
  let mine := (sc_Type scope, sc_Name scope) = subject_tenant a in
  (received = true -> mine)
  /\ (wf_APIGroup filter = "" -> wf_ResourceKind filter = "" -> wf_Namespace filter = "" ->
      (received = true <-> mine))
  /\ (publishable (subject_group a) -> publishable (org_Type (Origin (Spec a))) ->
      publishable (Kind (Resource_ (Spec a))) -> publishable (subject_namespace a) ->
      (wf_APIGroup filter = "" \/ plain_token (wf_APIGroup filter)) ->
      (received = true <-> mine
         /\ wf_APIGroup filter ∈ [""; subject_group a]
         /\ wf_ResourceKind filter ∈ [""; Kind (Resource_ (Spec a))]
         /\ wf_Namespace filter ∈ [""; subject_namespace a])).
Proof.
  intros Hnp Ht Hn Hk Hns Hat Han Hw received mine.
  assert (received = ((sc_Type scope =? fst (subject_tenant a))%string && ((sc_Name scope =? snd (subject_tenant a))%string
     && tokens_match [group_token (wf_APIGroup filter); "*"; or_star (wf_ResourceKind filter);
                      or_star (wf_Namespace filter); ">"]
          (Split dot (subject_group a) ++ Split dot (org_Type (Origin (Spec a)))
           ++ Split dot (Kind (Resource_ (Spec a))) ++ Split dot (subject_namespace a) ++ Split dot (Name a))))%bool) as Hrec.
  { unfold received, subjectMatches. rewrite watch_tokens, subject_tokens, tokens_match_common by done.
    rewrite (plain_Split _ Hat), (plain_Split _ Han). cbn [app]. by rewrite !tokens_plain. }
  assert (mine <-> ((sc_Type scope =? fst (subject_tenant a))%string = true
                    /\ (sc_Name scope =? snd (subject_tenant a))%string = true)) as Hmine.
  { unfold mine. rewrite !String.eqb_eq. destruct (subject_tenant a). cbn [fst snd]. split; [by intros [= -> ->]|by intros [-> ->]]. }
  rewrite Hrec, !andb_true_iff, Hmine. split_and!.
  - tauto.
  - intros -> -> ->. change [group_token ""; "*"; or_star ""; or_star ""; ">"] with (repeat "*" 4 ++ [">"]).
    rewrite tokens_stars, !length_app.
    pose proof (Split_length (subject_group a)). pose proof (Split_length (org_Type (Origin (Spec a)))).
    pose proof (Split_length (Kind (Resource_ (Spec a)))). pose proof (Split_length (subject_namespace a)).
    pose proof (Split_length (Name a)).
    match goal with |- context [(?x <? ?y)%nat] => destruct (Nat.ltb_spec x y); [tauto|lia] end.
  - intros Hg Ho Hki Hnsp Hgf. rewrite (plain_Split _ Hg), (plain_Split _ Ho), (plain_Split _ Hki), (plain_Split _ Hnsp).
    cbn [app]. assert (group_token (wf_APIGroup filter) = or_star (wf_APIGroup filter)) as ->.
    { unfold group_token, or_star. destruct (wf_APIGroup filter =? "")%string eqn:E; [done|].
      destruct Hgf as [Hg0|(Hd & _)]; [by rewrite Hg0 in E|].
      by apply underscored_id. }
    rewrite tokens_or_star, tokens_star, !tokens_or_star by done.
    destruct (Split_cons_ne dot (Name a)) as (t & ts & ->). cbn [tokens_match String.eqb Ascii.eqb Bool.eqb].
    rewrite !elem_two, !andb_true_iff, !orb_true_iff, !String.eqb_eq. tauto.
Qed.

Lemma Split_bytes (c : ascii) (s t : string) : has_byte c s = false -> t ∈ Split dot s -> has_byte c t = false.
Proof.
  revert t. induction s as [|a s IH]; intros t; cbn [Split has_byte].
  - intros _ Ht. by apply list_elem_of_singleton in Ht as ->.
  - intros (Ha & Hs)%orb_false_iff. destruct (Ascii.eqb a dot).
    + intros [->|Ht]%elem_of_cons; [done|by apply IH].
    + destruct (Split_cons_ne dot s) as (u & us & E). rewrite E in *.
      intros [->|Ht]%elem_of_cons; [|apply IH; [done|by right]].
      cbn [has_byte]. rewrite Ha. apply IH; [done|by left].
Qed.

Lemma underscored_has (g : string) : has_byte dot g = true -> has_byte "_" (ReplaceAll g "." "_") = true.
Proof.
  induction g as [|c g IH]; [done|]. rewrite underscored_cons. cbn [has_byte].
  destruct (Ascii.eqb c dot); [done|]. cbn [orb]. intros Hg. rewrite IH by done. apply orb_true_r.
Qed.

(** A watch of an API group with a dot receives no activity of that group: the
    watcher writes the group with underscores, the processors with dots. *)
Lemma dotted_group_not_received (w : NATSWatcher) (scope : ScopeContext) (filter : WatchFilter) (a : Activity) :
  sc_Type scope <> "platform" -> plain_token (sc_Type scope) -> plain_token (sc_Name scope) ->
  (wf_ResourceKind filter = "" \/ plain_token (wf_ResourceKind filter)) ->
  (wf_Namespace filter = "" \/ plain_token (wf_Namespace filter)) ->
  publishable (fst (subject_tenant a)) -> publishable (snd (subject_tenant a)) ->
  ">" ∉ Split dot (nw_subjectPrefix w) ->
  wf_APIGroup filter = APIGroup (Resource_ (Spec a)) ->
  has_byte dot (wf_APIGroup filter) = true -> has_byte "_" (wf_APIGroup filter) = false ->
  subjectMatches (watch_buildSubject w scope filter) (audit_buildActivitySubject (nw_subjectPrefix w) a) = false.
Proof.
  intros Hnp Ht Hn Hk Hns Hat Han Hw Hg Hdot Hus.
  unfold subjectMatches. rewrite watch_tokens, subject_tokens, tokens_match_common by done.
  rewrite (plain_Split _ Hat), (plain_Split _ Han). cbn [app]. rewrite !tokens_plain by done.
  assert (subject_group a = wf_APIGroup filter) as Hsg.
  { unfold subject_group. rewrite <- Hg. by destruct (wf_APIGroup filter). }
  rewrite Hsg. destruct (Split_cons_ne dot (wf_APIGroup filter)) as (t & ts & E). rewrite E. cbn [app].
  assert (has_byte "_" t = false) as Htu by (eapply Split_bytes; [exact Hus|rewrite E; by left]).
  assert (group_token (wf_APIGroup filter) = ReplaceAll (wf_APIGroup filter) "." "_") as Hgt.
  { unfold group_token. by destruct (wf_APIGroup filter). }
  pose proof (underscored_has _ Hdot) as Hu. rewrite <- Hgt in Hu.
  rewrite tokens_plain.
  - destruct (String.eqb_spec (group_token (wf_APIGroup filter)) t) as [E'|]; [congruence|]. by rewrite !andb_false_r.
  - split_and!; [rewrite Hgt; apply underscored_plain|intros E'; by rewrite E' in Hu..].
Qed.

(** A tenant's watch of events matches no published event: the publisher uses
    [<prefix>.<namespace>], the watcher expects the tenant and more. *)
Lemma tenant_event_watch_silent (w : NATSWatcher) (scope : ScopeContext) (filter : EventsWatchFilter) (ns : string) :
  sc_Type scope <> "platform" -> plain_token (sc_Type scope) -> publishable ns ->
  nw_subjectPrefix w <> "" -> ">" ∉ Split dot (nw_subjectPrefix w) ->
  subjectMatches (events_buildSubject w scope filter) (EventSubject (nw_subjectPrefix w) "" ns) = false.
Proof.
  intros Hnp Ht Hns Hne Hw. unfold subjectMatches, events_buildSubject.
  apply String.eqb_neq in Hnp, Hne. rewrite Hnp, Hne. rewrite Split_concat_all by done. cbn [map List.concat].
  unfold EventSubject. cbn [String.eqb].
  change (nw_subjectPrefix w +:+ "." +:+ ns) with (nw_subjectPrefix w +:+ String dot ns).
  rewrite Split_append, tokens_match_common by done.
  rewrite (plain_Split (sc_Type scope)), (plain_Split ns) by (done || apply Ht). cbn [app].
  rewrite tokens_plain by done. destruct (Split_cons_ne dot (sc_Name scope)) as (t & ts & ->). cbn [app tokens_match].
  destruct (t =? ">")%string; apply andb_false_r.
Qed.

(** A platform watch ignores the namespace, group and kind asked for. *)
Lemma platform_watch_unfiltered `{FilterLib} (w : NATSWatcher) (scope : ScopeContext) (f f' : WatchFilter) :
  sc_Type scope = "platform" -> wf_ChangeSource f = wf_ChangeSource f' ->
  watch_buildSubject w scope f = watch_buildSubject w scope f'
  /\ forall c a, watch_matchesFilter f c a = watch_matchesFilter f' c a.
Proof.
  intros Hp Hc. unfold watch_buildSubject, watch_matchesFilter. rewrite Hp, Hc. done.
Qed.

(* ------------------------------------------------------------------ *)
(** ** Concrete runs *)

Module ToyWatch.
Definition watcher : NATSWatcher :=
  {| nw_streamName := "ACTIVITIES"; nw_subjectPrefix := "activities"; nw_connected := true |}.
Definition project (n : string) : ScopeContext := {| sc_Type := "Project"; sc_Name := n |}.
Definition filter (kind : string) : WatchFilter :=
  {| wf_ResourceVersion := 0; wf_Namespace := ""; wf_ChangeSource := ""; wf_APIGroup := "";
     wf_ResourceKind := kind; wf_CELFilter := "" |}.
Definition activity (tenant group : string) : Activity :=
  {| APIVersion_ := SchemeGroupVersion; Kind_ := "Activity"; Name := "act-1"; Namespace := "default";
     CreationTimestamp := 0%Z; Labels := ∅;
     Spec := {| Summary := ""; ChangeSource := "human";
                Actor := {| act_Type := "user"; act_Name := "jane"; act_UID := ""; act_Email := "" |};
                Resource_ := {| APIGroup := group; APIVersion := "v1"; Kind := "Pod"; res_Name := "p";
                                res_Namespace := "default"; res_UID := "" |};
                Links := []; Related := []; Tenant := {| ten_Type := "Project"; ten_Name := tenant |};
                Origin := {| org_Type := "audit"; org_ID := "" |}; Source := None |} |}.

(** Objects are their text; "bad" does not decode, and "x" is filtered out. *)
Definition decode (s : string) : error + string := if (s =? "bad")%string then inl (Ext "bad") else inr s.
Definition matches (s : string) : bool := negb (HasPrefix s "x").
Definition m (s : string) (n : Z) : msg := {| m_data := s; m_status100 := (s =? "")%string; m_seq := Some n |}.
Definition ms : list msg := [m "a" 1; m "" 2; m "bad" 3; m "x" 4; m "b" 5].
Definition set_rv (rv s : string) : string := s +:+ "@" +:+ rv.
End ToyWatch.

Lemma watch_delivery_witness :
  exists s', reachable ToyWatch.decode ToyWatch.set_rv ToyWatch.matches ToyWatch.ms s'
    /\ w_pending s' = [] /\ w_done s' = false /\ w_received s' = ["a@1"; "b@5"].
Proof.
  apply (proj2 (proj2 (proj2 (proj2 (proj2 (watch_delivery ToyWatch.decode ToyWatch.set_rv ToyWatch.matches
           ToyWatch.ms (start ToyWatch.ms) (reach_start _ _ _ _))))))).
  reflexivity.
Defined.

Lemma watch_subject_isolates_witness :
  subjectMatches (watch_buildSubject ToyWatch.watcher (ToyWatch.project "p1") (ToyWatch.filter "Pod"))
    (audit_buildActivitySubject "activities" (ToyWatch.activity "p1" "apps")) = true.
Proof.
  apply (proj2 (proj2 (watch_subject_isolates ToyWatch.watcher (ToyWatch.project "p1") (ToyWatch.filter "Pod")
           (ToyWatch.activity "p1" "apps") ltac:(discriminate) ltac:(by repeat split) ltac:(by repeat split)
           ltac:(right; by repeat split) ltac:(by left) eq_refl eq_refl ltac:(by_decide)))); try reflexivity.
  - by left.
  - split; [reflexivity|]. split; [by_decide|]. split; by_decide.
Defined.

(** The name of a tenant is published as it is: a project whose name starts
    with another project's name and a dot is watched by the other. *)
Lemma dotted_tenant_leaks :
  subjectMatches (watch_buildSubject ToyWatch.watcher (ToyWatch.project "a") (ToyWatch.filter ""))
    (audit_buildActivitySubject "activities" (ToyWatch.activity "a.b" "apps")) = true.
Proof. reflexivity. Qed.

(** With a dotted group, the kind asked for is compared with another token. *)
Lemma kind_filter_misses_dotted_group :
  subjectMatches (watch_buildSubject ToyWatch.watcher (ToyWatch.project "p1") (ToyWatch.filter "Pod"))
    (audit_buildActivitySubject "activities" (ToyWatch.activity "p1" "networking.k8s.io")) = false.
Proof. reflexivity. Qed.
