(* ===== verification/Reindex.v ===== *)
(** * internal/reindex: re-indexing past records

    [Run] pages through the audit records and events of a time range, evaluates
    them against the current policies and publishes the activities.  The world
    (API server, JetStream, clock, context, timers) is a state [W] the calls
    thread; what the code does to it that the theorems speak of - publishes and
    progress reports - is returned as a list of actions. *)

From Stdlib Require Import Ascii String.
From stdpp Require Import base numbers list strings gmap pretty.
From Stdlib Require Import ZArith Lia.
From S2P Require Import Prelude GoLib Types TimeUtil CelFilter Query EventStore CelPolicy Activity Dlq EventProc GoSlice PolicyCache AuditProc.

(** ** publisher.go: subjects *)

Definition ReindexStreamName : string := "ACTIVITIES_REINDEX".
Definition ReindexSubjectPrefix : string := "activity_miloapis_com_reindex".
Definition defaultMaxRetries : nat := 3.
Definition defaultInitialBackoff : Z := 1 * Second.
Definition defaultMaxBackoff : Z := 30 * Second.
Definition defaultBackoffMultiplier : Z := 2.

Definition token_byte (a : ascii) : bool :=
  let n := nat_of_ascii a in
  ((Nat.leb 97 n && Nat.leb n 122) || (Nat.leb 65 n && Nat.leb n 90) || (Nat.leb 48 n && Nat.leb n 57)
   || Ascii.eqb a "-" || Ascii.eqb a "_")%bool.

(** One rune of [range s], by its bytes: the bytes that follow the first are
    skipped, and only ASCII runes survive. *)
Fixpoint sanitize_go (skip : nat) (s : string) : string :=
  match s with
  | EmptyString => ""
  | String a s' =>
      match skip with
      | S k => sanitize_go k s'
      | O =>
          (if Ascii.eqb a "." then "-" else if token_byte a then String a "" else "_")
          +:+ sanitize_go (rune_width s - 1) s'
      end
  end.
Definition sanitizeSubjectToken (s : string) : string := sanitize_go O s.

(** [None]: a nil activity. *)
Definition buildReindexSubject (activity : option Activity) : string :=
  match activity with
  | None => ReindexSubjectPrefix +:+ ".unknown.unknown.unknown"
  | Some activity =>
      let t := ten_Type (Tenant (Spec activity)) in
      let tenantType := if (t =? "")%string then "unknown" else sanitizeSubjectToken t in
      let g := APIGroup (Resource_ (Spec activity)) in
      let apiGroup := if (g =? "")%string then "core" else g in
      let k := Kind (Resource_ (Spec activity)) in
      let kind := if (k =? "")%string then "unknown" else k in
      ReindexSubjectPrefix +:+ "." +:+ tenantType +:+ "." +:+ sanitizeSubjectToken apiGroup +:+ "."
        +:+ sanitizeSubjectToken kind
  end.

(** ** reindexer.go: options and progress *)

Record Options := {
  o_StartTime : time; o_EndTime : time; BatchSize : Z (* int32 *); RateLimit : Z (* int32 *);
  DryRun : bool; PolicyNames : list string; MatchLabels : gmap string string }.

Record Progress := {
  TotalEvents : Z; ProcessedEvents : Z; ActivitiesGenerated : Z; Errors : Z (* int64 *);
  CurrentBatch : Z; TotalBatches : Z (* int32 *) }.
Definition no_progress : Progress :=
  {| TotalEvents := 0; ProcessedEvents := 0; ActivitiesGenerated := 0; Errors := 0;
     CurrentBatch := 0; TotalBatches := 0 |}.

(** [progress.CurrentBatch = batchNum] *)
Definition at_batch (p : Progress) (batchNum : Z) : Progress :=
  {| TotalEvents := TotalEvents p; ProcessedEvents := ProcessedEvents p;
     ActivitiesGenerated := ActivitiesGenerated p; Errors := Errors p;
     CurrentBatch := batchNum; TotalBatches := TotalBatches p |}.
(** The two counters a batch advances. *)
Definition count_batch (p : Progress) (records activities : nat) : Progress :=
  {| TotalEvents := TotalEvents p;
     ProcessedEvents := wrap64 (ProcessedEvents p + Z.of_nat records);
     ActivitiesGenerated := wrap64 (ActivitiesGenerated p + Z.of_nat activities); Errors := Errors p;
     CurrentBatch := CurrentBatch p; TotalBatches := TotalBatches p |}.

(** [resourceLabels[key] != value]: a missing key reads as the empty string. *)
Definition matchesLabels (resourceLabels selectorLabels : gmap string string) : bool :=
  if bool_decide (selectorLabels = ∅) then true
  else if bool_decide (resourceLabels = ∅) then false
  else forallb (fun kv => (default "" (resourceLabels !! fst kv) =? snd kv)%string)
               (map_to_list selectorLabels).

(** [fetchActivePolicies] on the listed policies. *)
Definition select_policies (policyNames : list string) (matchLabels : gmap string string)
    (items : list ActivityPolicy) : list ActivityPolicy :=
  match policyNames with
  | _ :: _ => List.filter (fun p => bool_decide (pol_Name p ∈ policyNames)) items
  | [] => if bool_decide (matchLabels = ∅) then items
          else List.filter (fun p => matchesLabels (pol_Labels p) matchLabels) items
  end.

Definition formatPolicyNames (names : list string) : string :=
  match names with
  | [] => "all"
  | [n] => n
  | _ => pretty (Z.of_nat (length names)) +:+ "_policies"
  end.
Definition formatBool (b : bool) : string := if b then "true" else "false".

(** ** The world *)

(** What a re-indexing worker does to the outside. *)
Inductive action :=
| APublish (p : pub)
| AProgress (p : Progress)
| AStatus (name phase : string) (r : option error) (* the phase of a ReindexJob is written *).

(** A step of the run: its result, what it did, and the world after. *)
Definition M (W A : Type) : Type := W -> A * list action * W.
Definition ret {W A} (a : A) : M W A := fun w => (a, [], w).
Definition bind {W A B} (m : M W A) (f : A -> M W B) : M W B :=
  fun w => let '(a, l, w1) := m w in let '(b, l', w2) := f a w1 in (b, l ++ l', w2).
Definition lift {W A} (f : W -> A * W) : M W A := fun w => let (a, w') := f w in (a, [], w').
Notation "'let!' x ':=' m 'in' k" := (bind m (fun x => k))
  (at level 10, x pattern, m at level 100, k at level 200) : go_scope.

(** The context, timers, clock, JetStream and API client the run uses.
    [ctx_done] is the outcome of a non-blocking [select] on [ctx.Done()],
    [ctx_after d] of a [select] between [time.After(d)] and [ctx.Done()]; both
    give [ctx.Err()] when the context is cancelled. *)
Class ReindexIO (W : Type) := {
  ctx_done : W -> option error * W;
  ctx_after : Z -> W -> option error * W;
  time_Now : W -> time * W;
  js_publish : string -> string -> W -> option error * W;
  list_policies : W -> (error + list ActivityPolicy) * W;
  create_AuditLogQuery : AuditLogQuerySpec -> W -> (error + (list AuditEvent * string)) * W;
  create_EventQuery : EventQuerySpec -> W -> (error + (list EventRecord * string)) * W }.

(** [golang.org/x/time/rate]: [ReserveN] gives no reservation, or a delay. *)
Class RateLib := {
  limiter : Type;
  rate_NewLimiter : Z -> Z -> limiter;
  rate_ReserveN : limiter -> time -> Z -> limiter * option Z }.

(** ** publisher.go: publishing with retries *)

Record Publisher := { maxRetries : nat; initialBackoff : Z; maxBackoff : Z; multiplier : Z }.
(** The float multiplier 2.0 is exact on these durations. *)
Definition NewPublisher : Publisher :=
  {| maxRetries := defaultMaxRetries; initialBackoff := defaultInitialBackoff;
     maxBackoff := defaultMaxBackoff; multiplier := defaultBackoffMultiplier |}.

Section Reindex.
Context `{CelEngine} `{ActivityLib} `{AuditIO} `{RateLib} {W : Type} `{ReindexIO W}.

Definition next_backoff (p : Publisher) (backoff : Z) : Z :=
  let b := (backoff * multiplier p)%Z in if (maxBackoff p <? b)%Z then maxBackoff p else b.

(** The attempts that remain, with the error of the last one. *)
Fixpoint publish_attempts (p : Publisher) (subject data : string) (remaining : nat) (backoff : Z)
    (lastErr : error) : M W (option error) :=
  match remaining with
  | O => ret (Some (Errorf [PStr "failed after "; PStr (pretty (Z.of_nat (maxRetries p)));
                            PStr " retries: "; PWrap lastErr]))
  | S remaining' =>
      let! cancelled := lift ctx_done in
      match cancelled with
      | Some e => ret (Some e)
      | None =>
          let! r := (fun w => let (r, w') := js_publish subject data w in
                     (r, [APublish {| p_subject := subject; p_data := data; p_msgid := None; p_err := r |}], w')) in
          match r with
          | None => ret None
          | Some err =>
              match remaining' with
              | O => publish_attempts p subject data remaining' backoff err
              | S _ =>
                  let! cancelled := lift (ctx_after backoff) in
                  match cancelled with
                  | Some e => ret (Some e)
                  | None => publish_attempts p subject data remaining' (next_backoff p backoff) err
                  end
              end
          end
      end
  end.

Definition publishWithRetry (p : Publisher) (activity : Activity) : M W (option error) :=
  match json_of_activity activity with
  | inl e => ret (Some (Errorf [PStr "failed to marshal activity: "; PWrap e]))
  | inr activityJSON =>
      publish_attempts p (buildReindexSubject (Some activity)) activityJSON (maxRetries p)
        (initialBackoff p) (Ext "%!w(<nil>)")
  end.

Fixpoint PublishActivities (p : Publisher) (activities : list Activity) : M W (option error) :=
  match activities with
  | [] => ret None
  | activity :: rest =>
      let! e := publishWithRetry p activity in
      match e with
      | Some e => ret (Some (Errorf [PStr "failed to publish activity "; PStr (Name activity);
                                     PStr ": "; PWrap e]))
      | None => PublishActivities p rest
      end
  end.

(** ** ratelimiter.go *)

Definition NewRateLimiter (eventsPerSecond batchSize : Z) : limiter :=
  let burst := (eventsPerSecond * 2)%Z in
  let burst := if (burst <? batchSize)%Z then batchSize else burst in
  let burst := if (burst <? 1)%Z then 1%Z else burst in
  rate_NewLimiter eventsPerSecond burst.

(** [Wait]: the limiter after, or the error. *)
Definition Wait (rl : limiter) (n : Z) : M W (res limiter) :=
  if (n <=? 0)%Z then ret (Ok rl)
  else
    let! now := lift time_Now in
    match rate_ReserveN rl now n with
    | (_, None) => ret (Err (Errorf [PStr "rate limit exceeded: cannot reserve "; PStr (pretty n); PStr " tokens"]))
    | (rl', Some delay) =>
        if (0 <? delay)%Z then
          let! cancelled := lift (ctx_after delay) in
          match cancelled with
          | Some e => ret (Err e)
          | None => ret (Ok rl')
          end
        else ret (Ok rl')
    end.

(** ** batch.go *)

Definition fetchAuditLogBatch (startTime endTime : time) (cursor : string) (batchSize : Z)
  : M W (res (list AuditEvent * string)) :=
  let! r := lift (create_AuditLogQuery
    {| aq_StartTime := Format_RFC3339 startTime; aq_EndTime := Format_RFC3339 endTime; aq_Filter := "";
       aq_Limit := batchSize; aq_Continue := cursor |}) in
  match r with
  | inl e => ret (Err (Errorf [PStr "failed to create AuditLogQuery: "; PWrap e]))
  | inr (results, next) => ret (Ok (results, next))
  end.

Definition reference_map (r : ObjectRef_) : any :=
  AMap (<["apiVersion" := AStr (ref_APIVersion r)]> (<["kind" := AStr (ref_Kind r)]>
       (<["name" := AStr (ref_Name r)]> (<["namespace" := AStr (ref_Namespace r)]>
       (<["uid" := AStr (ref_UID r)]> ∅))))).

(** The error result is always nil. *)
Definition eventRecordToMap (record : EventRecord) : gomap :=
  let e := erec_Event record in
  let r := ev_rest e in
  let eventMap : gomap :=
    <["metadata" := AMap (<["name" := AStr (ev_Name e)]> (<["namespace" := AStr (ev_Namespace e)]>
                         (<["uid" := AStr (ev_UID e)]> ∅)))]>
    (<["regarding" := reference_map (ev_Regarding r)]>
    (<["reason" := AStr (ev_Reason r)]>
    (<["note" := AStr (ev_Note r)]>
    (<["type" := AStr (ev_Type r)]>
    (<["eventTime" := ATime (ev_EventTime e)]>
    (<["reportingController" := AStr (ev_ReportingController r)]>
    (<["reportingInstance" := AStr (ev_ReportingInstance r)]>
    (<["action" := AStr (ev_Action r)]> ∅)))))))) in
  let eventMap :=
    match ev_Series e with
    | Some s => <["series" := AMap (<["count" := ANum (pretty (es_Count s))]>
                                   (<["lastObservedTime" := ATime (es_LastObservedTime s)]> ∅))]> eventMap
    | None => eventMap
    end in
  match ev_Related r with
  | Some o => <["related" := reference_map o]> eventMap
  | None => eventMap
  end.

Definition fetchEventBatch (startTime endTime : time) (cursor : string) (batchSize : Z)
  : M W (res (list gomap * string)) :=
  let! r := lift (create_EventQuery
    {| es_StartTime := Format_RFC3339 startTime; es_EndTime := Format_RFC3339 endTime; es_Namespace := "";
       es_FieldSelector := ""; es_Limit := batchSize; es_Continue := cursor |}) in
  match r with
  | inl e => ret (Err (Errorf [PStr "failed to create EventQuery: "; PWrap e]))
  | inr (results, next) => ret (Ok (map eventRecordToMap results, next))
  end.

Definition batch_auditToMap (audit : AuditEvent) : error + gomap :=
  match json_of_audit audit with
  | inl e => inl e
  | inr data => match json_to_map data with
                | inl e => inl e
                | inr m => inr (nil_map m)
                end
  end.

(** [activity.Labels["activity.miloapis.com/policy-name"] = name] *)
Definition label_policy (name : string) (a : Activity) : Activity :=
  {| APIVersion_ := APIVersion_ a; Kind_ := Kind_ a; Name := Name a; Namespace := Namespace a;
     CreationTimestamp := CreationTimestamp a;
     Labels := <["activity.miloapis.com/policy-name" := name]> (Labels a); Spec := Spec a |}.

(** The loop over the policies of a record: failures are skipped, the first
    activity wins. *)
Fixpoint audit_policies (now : time) (rk : option KindResolver) (auditMap : gomap) (audit : AuditEvent)
    (ps : list CompiledPolicy) : option Activity :=
  match ps with
  | [] => None
  | policy :: rest =>
      match snd (EvaluateCompiledAuditRules now policy auditMap audit rk) with
      | Ok (Some activity) => Some (label_policy (cp_Name policy) activity)
      | _ => audit_policies now rk auditMap audit rest
      end
  end.

Definition evaluate_audit (c : PolicyCache) (rk : option KindResolver) (now : time) (audit : AuditEvent)
  : option Activity :=
  match ObjectRef audit with
  | None => None
  | Some ref =>
      match Get c (or_APIGroup ref) (or_Resource ref) with
      | [] => None
      | compiledPolicies =>
          match batch_auditToMap audit with
          | inl _ => None
          | inr auditMap => audit_policies now rk auditMap audit compiledPolicies
          end
      end
  end.

(** The clock is read for records without a timestamp only; one reading per
    batch stands for all of them. *)
Definition evaluateAuditBatch (c : PolicyCache) (rk : option KindResolver) (now : time)
    (batch : list AuditEvent) : res (list Activity) :=
  Ok (omap (evaluate_audit c rk now) batch).

Definition evaluate_event (c : PolicyCache) (rk : option KindResolver) (now : time) (eventMap : gomap)
  : option Activity :=
  match ResolveInvolvedObject eventMap with
  | None => None
  | Some regarding =>
      let apiVersion := default "" (as_string (regarding !! "apiVersion")) in
      let kind := default "" (as_string (regarding !! "kind")) in
      let apiGroup := match Index apiVersion "/" with Some idx => take_str idx apiVersion | None => "" end in
      if (kind =? "")%string then None
      else match cache_MatchEvent c apiGroup kind eventMap with
      | inl _ => None
      | inr None => None
      | inr (Some matched) =>
          match BuildFromEvent now {| b_APIGroup := mp_APIGroup matched; b_Kind := mp_Kind matched |}
                  eventMap (mp_Summary matched) (mp_Links matched) rk with
          | Ok activity => Some (label_policy (mp_PolicyName matched) activity)
          | _ => None
          end
      end
  end.

Definition evaluateEventBatch (c : PolicyCache) (rk : option KindResolver) (now : time)
    (batch : list gomap) : res (list Activity) :=
  Ok (omap (evaluate_event c rk now) batch).

(** ** reindexer.go *)

(** [OnProgress]: [None] when not set. *)
Context (OnProgress : option (Progress -> W -> W)).
Definition report (p : Progress) : M W unit :=
  match OnProgress with
  | Some f => fun w => (tt, [AProgress p], f p w)
  | None => ret tt
  end.

(** The loop shared, line for line, by [processAuditLogs] and [processEvents],
    which differ in the fetch, the evaluation and the texts; [None] when the
    fuel runs out.  The progress and the rate limiter are returned. *)
Fixpoint process_loop {B} (what : string) (fetch : string -> M W (res (list B * string)))
    (evaluate : time -> list B -> res (list Activity)) (publisher : Publisher) (opts : Options)
    (fuel : nat) (cursor : string) (batchNum : Z) (progress : Progress) (rateLimiter : option limiter)
  : M W (option (res (Progress * option limiter))) :=
  match fuel with
  | O => ret None
  | S fuel' =>
      let! cancelled := lift ctx_done in
      match cancelled with
      | Some e => ret (Some (Err e))
      | None =>
          let batchNum := wrap32 (batchNum + 1) in
          let progress := at_batch progress batchNum in
          let fails verb e := ret (Some (Err (Errorf [PStr "failed to "; PStr verb; PStr (pretty batchNum);
                                                      PStr ": "; PWrap e]))) in
          let! fetched := fetch cursor in
          match fetched with
          | Panic w => ret (Some (Panic w))
          | Err e => fails ("fetch " +:+ what +:+ " batch ") e
          | Ok ([], _) => ret (Some (Ok (progress, rateLimiter)))
          | Ok (batch, nextCursor) =>
              let! now := lift time_Now in
              match evaluate now batch with
              | Panic w => ret (Some (Panic w))
              | Err e => fails ("evaluate " +:+ what +:+ " batch ") e
              | Ok activities =>
                  let! published :=
                    (if (negb (DryRun opts) && negb (bool_decide (activities = [])))%bool
                     then PublishActivities publisher activities else ret None) in
                  match published with
                  | Some e => fails "publish activities for batch " e
                  | None =>
                      let progress := count_batch progress (length batch) (length activities) in
                      let! _ := report progress in
                      let! waited :=
                        match rateLimiter with
                        | None => ret (Ok None)
                        | Some rl =>
                            let! r := Wait rl (Z.of_nat (length batch)) in
                            ret (let? rl' := r in Ok (Some rl'))
                        end in
                      match waited with
                      | Panic w => ret (Some (Panic w))
                      | Err e => ret (Some (Err e))
                      | Ok rateLimiter =>
                          if (nextCursor =? "")%string then ret (Some (Ok (progress, rateLimiter)))
                          else process_loop what fetch evaluate publisher opts fuel' nextCursor batchNum
                                 progress rateLimiter
                      end
                  end
              end
          end
      end
  end.

Context (kindResolver : KindResolver) (resourceResolver : string -> string -> error + string).
Context (grow : nat -> nat).

Definition processAuditLogs (c : PolicyCache) (opts : Options) (fuel : nat) (progress : Progress)
    (rateLimiter : option limiter) : M W (option (res (Progress * option limiter))) :=
  process_loop "audit log"
    (fun cursor => fetchAuditLogBatch (o_StartTime opts) (o_EndTime opts) cursor (BatchSize opts))
    (evaluateAuditBatch c (Some kindResolver)) NewPublisher opts fuel "" 0 progress rateLimiter.

Definition processEvents (c : PolicyCache) (opts : Options) (fuel : nat) (progress : Progress)
    (rateLimiter : option limiter) : M W (option (res (Progress * option limiter))) :=
  process_loop "event"
    (fun cursor => fetchEventBatch (o_StartTime opts) (o_EndTime opts) cursor (BatchSize opts))
    (evaluateEventBatch c (Some kindResolver)) NewPublisher opts fuel "" 0 progress rateLimiter.

Definition fetchActivePolicies (policyNames : list string) (matchLabels : gmap string string)
  : M W (res (list ActivityPolicy)) :=
  let! r := lift list_policies in
  match r with
  | inl e => ret (Err (Errorf [PStr "failed to list ActivityPolicy resources: "; PWrap e]))
  | inr items => ret (Ok (select_policies policyNames matchLabels items))
  end.

(** The policies whose resource resolves, compiled into the cache. *)
Definition compile_policies (policies : list ActivityPolicy) (c : PolicyCache) : PolicyCache :=
  fold_left (fun c policy =>
    match resourceResolver (ps_APIGroup (pol_Spec policy)) (ps_Kind (pol_Spec policy)) with
    | inl _ => c
    | inr resource => fst (PolicyCache.Add grow c policy resource)
    end) policies c.

(** [Run] of a reindexer just made ([NewReindexer]: an empty cache).  The final
    progress, a local variable of the code, is returned. *)
Definition Run (opts : Options) (fuel : nat) : M W (option (res Progress)) :=
  let rateLimiter := if (0 <? RateLimit opts)%Z
                     then Some (NewRateLimiter (RateLimit opts) (BatchSize opts)) else None in
  let! policies := fetchActivePolicies (PolicyNames opts) (MatchLabels opts) in
  match policies with
  | Panic w => ret (Some (Panic w))
  | Err e => ret (Some (Err (Errorf [PStr "failed to fetch policies: "; PWrap e])))
  | Ok [] => ret (Some (Ok no_progress))
  | Ok policies =>
      let c := compile_policies policies NewPolicyCache in
      let! audits := processAuditLogs c opts fuel no_progress rateLimiter in
      match audits with
      | None => ret None
      | Some (Panic w) => ret (Some (Panic w))
      | Some (Err e) => ret (Some (Err (Errorf [PStr "failed to process audit logs: "; PWrap e])))
      | Some (Ok (progress, rateLimiter)) =>
          let! events := processEvents c opts fuel progress rateLimiter in
          match events with
          | None => ret None
          | Some (Panic w) => ret (Some (Panic w))
          | Some (Err e) => ret (Some (Err (Errorf [PStr "failed to process events: "; PWrap e])))
          | Some (Ok (progress, _)) => ret (Some (Ok progress))
          end
      end
  end.
End Reindex.

(* ------------------------------------------------------------------ *)
(** ** Specification *)

(** The messages the server acknowledged, and the progress reported. *)
Definition acked (l : list action) : list (string * string) :=
  omap (fun a => match a with
                 | APublish p => if pub_ok p then Some (p_subject p, p_data p) else None
                 | _ => None
                 end) l.
Definition reports (l : list action) : list Progress :=
  omap (fun a => match a with AProgress p => Some p | _ => None end) l.
Definition publishes (l : list action) : list pub :=
  omap (fun a => match a with APublish p => Some p | _ => None end) l.

(** What is sent for an activity. *)
Definition message `{AuditIO} (a : Activity) : option (string * string) :=
  match json_of_activity a with
  | inr data => Some (buildReindexSubject (Some a), data)
  | inl _ => None
  end.

(** The pages a client gets that follows the continue tokens of [q]. *)
Inductive chain {B} (q : string -> res (list B * string)) : string -> list (list B) -> Prop :=
| chain_stop cur next : q cur = Ok ([], next) -> chain q cur []
| chain_last cur b : b <> [] -> q cur = Ok (b, "") -> chain q cur [b]
| chain_next cur b next bs :
    b <> [] -> next <> "" -> q cur = Ok (b, next) -> chain q next bs -> chain q cur (b :: bs).

(** The activities of the pages, evaluated at the given clock readings. *)
Definition expected {B} (eval : time -> B -> option Activity) (nows : list time) (bs : list (list B))
  : list Activity :=
  concat (zip_with (fun now b => omap (eval now) b) nows bs).

(** The pages of the two queries, as answered by [qa] and [qe]. *)
Definition audit_pages (qa : AuditLogQuerySpec -> error + (list AuditEvent * string)) (opts : Options)
    (cursor : string) : res (list AuditEvent * string) :=
  wrap_err (of_sum (qa {| aq_StartTime := Format_RFC3339 (o_StartTime opts);
                          aq_EndTime := Format_RFC3339 (o_EndTime opts); aq_Filter := "";
                          aq_Limit := BatchSize opts; aq_Continue := cursor |}))
    (fun e => Errorf [PStr "failed to create AuditLogQuery: "; PWrap e]).
Definition event_pages (qe : EventQuerySpec -> error + (list EventRecord * string)) (opts : Options)
    (cursor : string) : res (list EventRecord * string) :=
  wrap_err (of_sum (qe {| es_StartTime := Format_RFC3339 (o_StartTime opts);
                          es_EndTime := Format_RFC3339 (o_EndTime opts); es_Namespace := "";
                          es_FieldSelector := ""; es_Limit := BatchSize opts; es_Continue := cursor |}))
    (fun e => Errorf [PStr "failed to create EventQuery: "; PWrap e]).

(** A query service whose answers do not depend on when they are asked for. *)
Definition stable_queries {W} `{ReindexIO W} (qa : AuditLogQuerySpec -> error + (list AuditEvent * string))
    (qe : EventQuerySpec -> error + (list EventRecord * string)) : Prop :=
  (forall s w, fst (create_AuditLogQuery s w) = qa s) /\ (forall s w, fst (create_EventQuery s w) = qe s).

(** A limiter with a positive rate reserves up to its burst. *)
Class RateLaws `{RateLib} := {
  bounded : limiter -> Z -> Prop;
  bounded_new r b : (0 < r)%Z -> bounded (rate_NewLimiter r b) b;
  bounded_reserve rl b now n : bounded rl b -> (0 < n <= b)%Z ->
    exists rl' d, rate_ReserveN rl now n = (rl', Some d) /\ bounded rl' b }.

(** A world that does not get in the way: the context is not cancelled and
    every publish is acknowledged. *)
Definition undisturbed {W} `{ReindexIO W} : Prop :=
  (forall w, fst (ctx_done w) = None) /\ (forall d w, fst (ctx_after d w) = None)
  /\ (forall s d w, fst (js_publish s d w) = None).

(* ------------------------------------------------------------------ *)
(** ** Lemmas *)

Lemma bind_eq {W A B} (m : M W A) (f : A -> M W B) w r :
  bind m f w = r ->
  exists a l w1 b l' w2, m w = (a, l, w1) /\ f a w1 = (b, l', w2) /\ r = (b, l ++ l', w2).
Proof.
  unfold bind. destruct (m w) as [[a l] w1] eqn:E. destruct (f a w1) as [[b l'] w2] eqn:E'. naive_solver.
Qed.
Lemma lift_eq {W A} (f : W -> A * W) w a l w' : lift f w = (a, l, w') -> l = [] /\ f w = (a, w').
Proof. unfold lift. destruct (f w). naive_solver. Qed.

(** Inversion of one step of a run. *)
Tactic Notation "run_step" hyp(H) "as" ident(a) ident(l) ident(w) ident(E) :=
  apply bind_eq in H as (a & l & w & ? & ? & ? & E & H & [= -> -> ->]);
  try (apply lift_eq in E as [-> E]).
Tactic Notation "run_step" hyp(H) :=
  let a := fresh "a" in let l := fresh "l" in let w := fresh "w" in let E := fresh "E" in
  run_step H as a l w E.
Ltac run_ret H := unfold ret in H; injection H as <- <- <-.

Lemma acked_app l l' : acked (l ++ l') = acked l ++ acked l'.
Proof. apply omap_app. Qed.
Lemma publishes_app l l' : publishes (l ++ l') = publishes l ++ publishes l'.
Proof. apply omap_app. Qed.

Lemma wrap64_add a b : wrap64 (wrap64 a + b) = wrap64 (a + b).
Proof.
  unfold wrap64. f_equal.
  replace ((a + 2 ^ 63) mod 2 ^ 64 - 2 ^ 63 + b + 2 ^ 63)%Z with ((a + 2 ^ 63) mod 2 ^ 64 + b)%Z by lia.
  rewrite Zplus_mod_idemp_l. f_equal. lia.
Qed.

Section Lemmas.
Context `{CelEngine} `{ActivityLib} `{AuditIO} `{RateLib} {W : Type} `{ReindexIO W}.

(** The attempts: all for the same message, at most [n], the last one
    acknowledged exactly when the publish succeeds. *)
Lemma publish_attempts_log p subject data n b e w r l w' :
  publish_attempts p subject data n b e w = (r, l, w') ->
  Forall (fun a => exists o, a = APublish {| p_subject := subject; p_data := data; p_msgid := None; p_err := o |}) l
  /\ (length l <= n)%nat
  /\ acked l = match r with None => [(subject, data)] | Some _ => [] end.
Proof.
  revert b e w r l w'. induction n as [|n IH]; intros b e w r l w' Hr; cbn [publish_attempts] in Hr.
  { run_ret Hr. done. }
  run_step Hr. destruct a as [e0|]; [run_ret Hr; split_and!; [constructor|cbn; lia|done]|].
  run_step Hr. destruct (js_publish subject data w0) as [o w3]. injection E0 as <- <- <-.
  destruct o as [err|]; [|run_ret Hr; cbn; split_and!; [repeat constructor; eauto|lia|done]].
  destruct n as [|n'].
  - apply IH in Hr as (? & ? & ?). cbn [app]. split_and!; [constructor; eauto|cbn; lia|by cbn].
  - run_step Hr. destruct a as [e0|].
    + run_ret Hr. cbn. split_and!; [repeat constructor; eauto|lia|done].
    + apply IH in Hr as (? & ? & ?). cbn [app]. split_and!; [constructor; eauto|cbn in *; lia|by cbn].
Qed.

Lemma publishWithRetry_log p a w r l w' :
  publishWithRetry p a w = (r, l, w') ->
  (length (publishes l) <= maxRetries p)%nat /\ reports l = []
  /\ acked l = match r with None => option_list (message a) | Some _ => [] end
  /\ (r = None -> message a <> None).
Proof.
  unfold publishWithRetry, message. destruct (json_of_activity a) as [e|data]; intros Hr.
  { run_ret Hr. cbn. split_and!; [lia|done|done|done]. }
  apply publish_attempts_log in Hr as (Hl & Hn & ->). split_and!.
  - transitivity (length l); [|done]. clear. unfold publishes. induction l as [|[] l IH]; cbn in *; lia.
  - clear -Hl. induction Hl as [|x l (o & ->) _ IH]; [done|exact IH].
  - by destruct r.
  - done.
Qed.

Lemma PublishActivities_log p acts w r l w' :
  PublishActivities p acts w = (r, l, w') ->
  reports l = [] /\ acked l `prefix_of` omap message acts
  /\ (r = None -> acked l = omap message acts /\ Forall (fun a => message a <> None) acts).
Proof.
  revert w r l w'. induction acts as [|a acts IH]; intros w r l w' Hr; cbn [PublishActivities] in Hr.
  { run_ret Hr. split_and!; [done|done|auto]. }
  run_step Hr. apply publishWithRetry_log in E as (_ & Hrep & Hack & Hmsg).
  assert (omap message (a :: acts) = option_list (message a) ++ omap message acts) as ->
    by (cbn; by destruct (message a)).
  destruct a0 as [e|].
  - run_ret Hr. rewrite app_nil_r, Hack. split_and!; [done|apply prefix_nil|done].
  - apply IH in Hr as (Hrep' & Hpre & Hok). unfold reports in *. rewrite omap_app, Hrep, Hrep', acked_app, Hack.
    split_and!; [done|by apply prefix_app|]. intros He. destruct (Hok He) as [-> ?]. auto.
Qed.

Lemma Wait_log rl n w r l w' : Wait rl n w = (r, l, w') -> l = [] /\ forall s, r <> Panic s.
Proof.
  unfold Wait. destruct (n <=? 0)%Z; intros Hr; [by run_ret Hr|]. run_step Hr.
  destruct (rate_ReserveN rl a n) as [rl' [delay|]]; [|by run_ret Hr].
  destruct (0 <? delay)%Z; [|by run_ret Hr]. run_step Hr. by destruct a0; run_ret Hr.
Qed.

Lemma report_log (OnProgress : option (Progress -> W -> W)) p w u l w' :
  report OnProgress p w = (u, l, w') -> publishes l = [] /\ acked l = [].
Proof. unfold report. destruct OnProgress; intros Hr; [injection Hr as <- <- <-|run_ret Hr]; done. Qed.

(** Counters of a progress that 64 bits hold. *)
Definition counted (p : Progress) : Prop :=
  wrap64 (ProcessedEvents p) = ProcessedEvents p /\ wrap64 (ActivitiesGenerated p) = ActivitiesGenerated p.
(** What the loop over the pages [bs] must have done when it ends with [r]. *)
Definition loop_did {B} (eval : time -> B -> option Activity) (dry : bool) (p : Progress) (bs : list (list B))
    (nows : list time) (l : list action) (r : res (Progress * option limiter)) : Prop :=
  let acts := expected eval nows bs in
  length nows = length bs
  /\ (if dry then publishes l = [] else acked l `prefix_of` omap message acts)
  /\ match r with
     | Ok (p', _) =>
         (dry = false -> acked l = omap message acts /\ Forall (fun a => message a <> None) acts)
         /\ ProcessedEvents p' = wrap64 (ProcessedEvents p + Z.of_nat (length (concat bs)))
         /\ ActivitiesGenerated p' = wrap64 (ActivitiesGenerated p + Z.of_nat (length acts))
         /\ Errors p' = Errors p
     | Err _ => True
     | Panic _ => False
     end.

Lemma loop_did_fail {B} (eval : time -> B -> option Activity) (dry : bool) p bs e l :
  publishes l = [] -> acked l = [] -> loop_did eval dry p bs (repeat 0%Z (length bs)) l (Err e).
Proof.
  intros Hp Ha. split_and!; [apply repeat_length| |done]. destruct dry; [done|rewrite Ha; apply prefix_nil].
Qed.

(** The last page has been read. *)
Lemma loop_did_end {B} (eval : time -> B -> option Activity) (dry : bool) p p' rl :
  counted p -> ProcessedEvents p' = ProcessedEvents p -> ActivitiesGenerated p' = ActivitiesGenerated p ->
  Errors p' = Errors p -> loop_did eval dry p [] [] [] (Ok (p', rl)).
Proof.
  intros [Hc1 Hc2] ???. unfold loop_did, expected. cbn. rewrite !Z.add_0_r.
  split_and!; try congruence; [by destruct dry|done].
Qed.

(** The loop fails in or after the batch [b]. *)
Lemma loop_did_stop {B} (eval : time -> B -> option Activity) (dry : bool) p b bs now l e :
  (if dry then publishes l = [] else acked l `prefix_of` omap message (omap (eval now) b)) ->
  loop_did eval dry p (b :: bs) (now :: repeat 0%Z (length bs)) l (Err e).
Proof.
  intros Hl. split_and!; [cbn; by rewrite repeat_length| |done]. destruct dry; [done|].
  unfold expected. cbn [zip_with concat]. rewrite omap_app. by apply prefix_app_r.
Qed.

(** The batch [b] is done and the loop goes on. *)
Lemma loop_did_cons {B} (eval : time -> B -> option Activity) (dry : bool) p p1 b bs now nows lp lr l r :
  let acts := omap (eval now) b in
  p1 = count_batch (at_batch p (CurrentBatch p1)) (length b) (length acts) ->
  (if dry then publishes lp = [] /\ @None error = None
   else acked lp `prefix_of` omap message acts
        /\ (@None error = None -> acked lp = omap message acts /\ Forall (fun a => message a <> None) acts)) ->
  publishes lr = [] -> acked lr = [] ->
  loop_did eval dry p1 bs nows l r -> loop_did eval dry p (b :: bs) (now :: nows) (lp ++ lr ++ l) r.
Proof.
  intros acts Hp1 Hpub Hrp Hra (Hlen & Hlog & Hdone).
  assert (expected eval (now :: nows) (b :: bs) = acts ++ expected eval nows bs) as Hexp by done.
  unfold loop_did. rewrite Hexp, !publishes_app, !acked_app, Hrp, Hra. cbn [app]. split_and!; [cbn; lia|..].
  - destruct dry; [destruct Hpub as [-> _]; by rewrite Hlog|]. rewrite omap_app.
    destruct Hpub as [_ Hpub]. destruct (Hpub eq_refl) as [-> _]. by apply prefix_app.
  - destruct r as [[p' rl']| |]; [|done..]. destruct Hdone as (Hall & Hpr & Hgen & Herr).
    rewrite Hp1 in Hpr, Hgen, Herr. split_and!.
    + intros ->. destruct Hpub as [_ Hpub]. destruct (Hpub eq_refl) as [-> ?].
      destruct (Hall eq_refl) as [-> ?]. rewrite omap_app. split; [done|]. by apply Forall_app.
    + rewrite Hpr. cbn [ProcessedEvents count_batch at_batch concat]. rewrite wrap64_add, length_app. f_equal. lia.
    + rewrite Hgen. cbn [ActivitiesGenerated count_batch at_batch]. rewrite wrap64_add, length_app. f_equal. lia.
    + by rewrite Herr.
Qed.

Lemma chain_inv {B} (q : string -> res (list B * string)) cur bs :
  chain q cur bs ->
  exists b next bs', q cur = Ok (b, next) /\
    (b = [] /\ bs = [] \/
     b <> [] /\ bs = b :: bs' /\ (if (next =? "")%string then bs' = [] else chain q next bs')).
Proof.
  intros [cur' next Hq|cur' b Hb Hq|cur' b next bs' Hb Hn Hq Hch].
  - exists [], next, []. auto.
  - exists b, "", []. split; [done|]. by right.
  - exists b, next, bs'. apply String.eqb_neq in Hn. rewrite Hn.
    split; [done|]. by right.
Qed.

(** The publishing step of a batch. *)
Lemma publish_step dry publisher acts w r l w' :
  (if (negb dry && negb (bool_decide (acts = [])))%bool
   then PublishActivities publisher acts else ret None) w = (r, l, w') ->
  if dry : bool then publishes l = [] /\ r = None
  else acked l `prefix_of` omap message acts
       /\ (r = None -> acked l = omap message acts /\ Forall (fun a => message a <> None) acts).
Proof.
  destruct dry; cbn [negb andb]; intros Hr; [by run_ret Hr|].
  destruct (bool_decide_reflect (acts = [])) as [Hn|_]; cbn [negb] in Hr.
  - run_ret Hr. rewrite Hn. cbn. by split_and!.
  - by apply PublishActivities_log in Hr as (_ & ?).
Qed.

Lemma process_loop_spec {B} (OnProgress : option (Progress -> W -> W)) what fetch q (eval : time -> B -> option Activity) publisher opts :
  (forall cur w, exists w', fetch cur w = (q cur, [], w')) ->
  forall cur bs, chain q cur bs ->
  forall fuel n p rl w out l w', (length bs < fuel)%nat -> counted p ->
  process_loop OnProgress what fetch (fun now b => Ok (omap (eval now) b)) publisher opts fuel cur n p rl w
  = (out, l, w') ->
  exists r nows, out = Some r /\ loop_did eval (DryRun opts) p bs nows l r.
Proof.
  intros Hfetch cur bs Hch fuel. revert cur bs Hch.
  induction fuel as [|fuel IH]; intros cur bs Hch n p rl w out l w' Hfuel Hp Hr; [lia|].
  cbn [process_loop] in Hr. run_step Hr as c l0 w0 Ec. destruct c as [e|].
  { run_ret Hr. eexists _, _. split; [done|]. by apply loop_did_fail. }
  run_step Hr as f lf w1 Ef. destruct (Hfetch cur w0) as (w2 & Hf). rewrite Hf in Ef. injection Ef as <- <- <-.
  destruct (chain_inv q cur bs Hch) as (b & next & bs' & Hq & Hcase).
  rewrite Hq in Hr. destruct Hcase as [[-> ->]|(Hb & -> & Hnext)].
  { run_ret Hr. eexists _, []. split; [done|]. by apply loop_did_end. }
  destruct b as [|b0 b]; [done|]. set (batch := b0 :: b) in *.
  run_step Hr as now ln w3 En. set (acts := omap (eval now) batch) in *.
  run_step Hr as published lp w4 Hpub. apply publish_step in Hpub.
  cbn [length] in Hfuel.
  destruct published as [e|].
  { run_ret Hr. eexists _, (now :: repeat 0%Z (length bs')). split; [done|].
    rewrite app_nil_r. apply loop_did_stop. by destruct (DryRun opts); destruct Hpub. }
  run_step Hr as u lr w5 Er. apply report_log in Er as [Hrp Hra].
  run_step Hr as waited lw w6 Ew.
  assert (lw = [] /\ forall s, waited <> Panic s) as [-> Hnp].
  { destruct rl as [rl0|]; cbv iota beta in Ew; [|by run_ret Ew; split].
    run_step Ew as a la wa Ea. apply Wait_log in Ea as [-> Hnp].
    unfold ret in Ew. injection Ew as <- <- <-. split; [done|]. destruct a as [| |s]; [done..|by destruct (Hnp s)]. }
  destruct waited as [rl'|e|s]; [|..|by destruct (Hnp s)].
  2:{ run_ret Hr. eexists _, (now :: repeat 0%Z (length bs')). split; [done|].
      cbn [app]. rewrite app_nil_r. apply loop_did_stop. rewrite publishes_app, acked_app, Hrp, Hra, !app_nil_r.
      by destruct (DryRun opts); destruct Hpub. }
  set (p1 := count_batch (at_batch p _) (length batch) (length acts)) in *.
  assert (counted p1) as Hp1 by (split; cbn; apply wrap64_id, wrap64_range).
  match type of Hr with _ = (?o, ?l4, _) =>
    assert (exists r nows, o = Some r /\ loop_did eval (DryRun opts) p1 bs' nows l4 r) as (r & nows & -> & Hdid) end.
  { destruct (next =? "")%string; [run_ret Hr|by eapply IH; [..|exact Hr]; [|lia|]].
    eexists _, []. split; [done|]. subst bs'. by apply loop_did_end. }
  exists r, (now :: nows). split; [done|]. cbn [app]. apply (loop_did_cons eval (DryRun opts) p p1); [reflexivity|done..].
Qed.

Lemma chain_map {A B} (f : A -> B) (q : string -> res (list A * string)) (q' : string -> res (list B * string)) :
  (forall cur b next, q cur = Ok (b, next) -> q' cur = Ok (map f b, next)) ->
  forall cur bs, chain q cur bs -> chain q' cur (map (map f) bs).
Proof.
  intros Hq cur bs. induction 1 as [cur next H'|cur b Hb H'|cur b next bs Hb Hn H' _ IH]; cbn.
  - eapply chain_stop. by apply Hq in H'.
  - apply chain_last; [by destruct b|by apply Hq in H'].
  - eapply chain_next; [by destruct b|done|by apply Hq in H'|done].
Qed.

Definition event_map_pages qe opts (cursor : string) : res (list gomap * string) :=
  match event_pages qe opts cursor with
  | Ok (b, next) => Ok (map eventRecordToMap b, next)
  | Err e => Err e
  | Panic s => Panic s
  end.

Lemma fetch_audit_pages qa qe opts cur w :
  stable_queries qa qe ->
  exists w', fetchAuditLogBatch (o_StartTime opts) (o_EndTime opts) cur (BatchSize opts) w
             = (audit_pages qa opts cur, [], w').
Proof.
  intros [Ha _]. unfold fetchAuditLogBatch, audit_pages, bind, lift.
  destruct (create_AuditLogQuery _ w) as [r w'] eqn:E.
  rewrite <- (Ha _ w), E. cbn [fst]. by destruct r as [e|[b next]]; cbn; eexists.
Qed.

Lemma fetch_event_pages qa qe opts cur w :
  stable_queries qa qe ->
  exists w', fetchEventBatch (o_StartTime opts) (o_EndTime opts) cur (BatchSize opts) w
             = (event_map_pages qe opts cur, [], w').
Proof.
  intros [_ He]. unfold fetchEventBatch, event_map_pages, event_pages, bind, lift.
  destruct (create_EventQuery _ w) as [r w'] eqn:E.
  rewrite <- (He _ w), E. cbn [fst]. by destruct r as [e|[b next]]; cbn; eexists.
Qed.

(** What a run that ends with [r] must have done with the pages [bsA] of audit
    records and [bsE] of events. *)
Definition run_did (c : PolicyCache) (rk : KindResolver) (dry : bool) (bsA : list (list AuditEvent))
    (bsE : list (list EventRecord)) (l : list action) (r : res Progress) : Prop :=
  exists nowsA nowsE, length nowsA = length bsA /\ length nowsE = length bsE
  /\ let acts := expected (evaluate_audit c (Some rk)) nowsA bsA
                 ++ expected (fun now e => evaluate_event c (Some rk) now (eventRecordToMap e)) nowsE bsE in
     (if dry then publishes l = [] else acked l `prefix_of` omap message acts)
     /\ match r with
        | Ok p =>
            (dry = false -> acked l = omap message acts /\ Forall (fun a => message a <> None) acts)
            /\ ProcessedEvents p = wrap64 (Z.of_nat (length (concat bsA) + length (concat bsE)))
            /\ ActivitiesGenerated p = wrap64 (Z.of_nat (length acts))
            /\ Errors p = 0%Z
        | Err _ => True
        | Panic _ => False
        end.

Lemma expected_map {A B} (f : A -> B) (eval : time -> B -> option Activity) nows (bs : list (list A)) :
  expected eval nows (map (map f) bs) = expected (fun now e => eval now (f e)) nows bs.
Proof.
  unfold expected. revert nows. induction bs as [|b bs IH]; intros [|now nows]; [done..|].
  cbn [map zip_with concat]. rewrite IH. f_equal. clear. induction b as [|e b IH]; [done|].
  cbn. rewrite IH. done.
Qed.

Lemma concat_map_length {A B} (f : A -> B) (bs : list (list A)) :
  length (concat (map (map f) bs)) = length (concat bs).
Proof. induction bs as [|b bs IH]; [done|]. cbn. by rewrite !length_app, length_map, IH. Qed.

Lemma run_spec (OnProgress : option (Progress -> W -> W)) rk rr grow opts fuel w out l w' qa qe items bsA bsE :
  stable_queries qa qe -> fst (list_policies w) = inr items ->
  chain (audit_pages qa opts) "" bsA -> chain (event_pages qe opts) "" bsE ->
  (length bsA < fuel)%nat -> (length bsE < fuel)%nat ->
  Run OnProgress rk rr grow opts fuel w = (out, l, w') ->
  exists r, out = Some r /\
  match select_policies (PolicyNames opts) (MatchLabels opts) items with
  | [] => r = Ok no_progress /\ l = []
  | policies => run_did (compile_policies rr grow policies NewPolicyCache) rk (DryRun opts) bsA bsE l r
  end.
Proof.
  intros Hq Hpol HcA HcE HfA HfE Hr. unfold Run in Hr.
  run_step Hr as ps lp w1 Ep. unfold fetchActivePolicies in Ep. run_step Ep as it li w2 Ei.
  rewrite Ei in Hpol. cbn in Hpol. rewrite Hpol in Ep. run_ret Ep. clear Ei Hpol.
  destruct (select_policies _ _ items) as [|p0 ps]; [run_ret Hr; eauto|].
  set (c := compile_policies _ _ _ _) in *.
  run_step Hr as oA lA w3 EA. unfold processAuditLogs, evaluateAuditBatch in EA.
  destruct (fun H1 => process_loop_spec _ _ _ _ _ _ _ (fun cur w => fetch_audit_pages qa qe opts cur w Hq)
              _ _ HcA _ _ _ _ _ _ _ _ HfA H1 EA) as (rA & nowsA & -> & HlA & HlogA & HA); [done|].
  assert (forall e, run_did c rk (DryRun opts) bsA bsE (lA ++ []) (Err e)) as Hfail.
  { intros e. exists nowsA, (repeat 0%Z (length bsE)). rewrite repeat_length, app_nil_r. cbv zeta.
    split_and!; [done..| |done].
    destruct (DryRun opts); [done|]. rewrite omap_app. by apply prefix_app_r. }
  destruct rA as [[pA rlA]|eA|]; [|by run_ret Hr; eauto|done].
  run_step Hr as oE lE w4 EE. unfold processEvents, evaluateEventBatch in EE.
  destruct HA as (HokA & HprA & HgenA & HerrA). cbn [ProcessedEvents ActivitiesGenerated Errors no_progress] in HprA, HgenA, HerrA.
  assert (chain (event_map_pages qe opts) "" (map (map eventRecordToMap) bsE)) as HcE'.
  { eapply chain_map; [|exact HcE]. intros cur b next Hb. unfold event_map_pages. by rewrite Hb. }
  assert (length (map (map eventRecordToMap) bsE) < fuel)%nat as HfE' by (by rewrite length_map).
  assert (counted pA) as HcpA by (split; rewrite ?HprA, ?HgenA; apply wrap64_id, wrap64_range).
  destruct (process_loop_spec _ _ _ _ _ _ _ (fun cur w => fetch_event_pages qa qe opts cur w Hq)
              _ _ HcE' _ _ _ _ _ _ _ _ HfE' HcpA EE) as (rE & nowsE & -> & HlE & HlogE & HE).
  rewrite length_map in HlE. rewrite expected_map in HlogE, HE. rewrite concat_map_length in HE.
  match type of Hr with _ = (?o, ?l5, _) => assert (l5 = [] /\ exists r, o = Some r /\
    match rE with Ok (p, _) => r = Ok p | Err _ => exists e, r = Err e | Panic _ => False end)
    as (-> & r & -> & Hres) end.
  { destruct rE as [[pE rlE]|eE|]; [run_ret Hr; eauto..|done]. }
  exists r. split; [done|]. exists nowsA, nowsE. cbn [app]. rewrite app_nil_r, publishes_app, acked_app. cbv zeta.
  split_and!; [done..| |].
  - destruct (DryRun opts); [by rewrite HlogA, HlogE|]. destruct (HokA eq_refl) as [-> _].
    rewrite omap_app. by apply prefix_app.
  - destruct rE as [[pE rlE]|eE|]; [subst r|destruct Hres as [e ->]; done|done].
    destruct HE as (HokE & HprE & HgenE & HerrE). split_and!.
    + intros Hdry. destruct (HokA Hdry) as [-> ?], (HokE Hdry) as [-> ?]. rewrite omap_app.
      split; [done|]. by apply Forall_app.
    + rewrite HprE, HprA, wrap64_add. f_equal. lia.
    + rewrite HgenE, HgenA, wrap64_add, length_app. f_equal. lia.
    + by rewrite HerrE.
Qed.
End Lemmas.

(** ** Lemmas: a run nothing disturbs *)

Section Undisturbed.
Context `{CelEngine} `{ActivityLib} `{AuditIO} `{RateLib} {RL : RateLaws} {W : Type} `{ReindexIO W}.
Context (Hu : undisturbed (W := W)) (Hjson : forall a, message a <> None).

Lemma lift_none {A} (f : W -> option A * W) w : (forall w, fst (f w) = None) -> exists w', f w = (None, w').
Proof. intros Hf. specialize (Hf w). destruct (f w) as [o w']. cbn in Hf. subst. eauto. Qed.

Lemma publishWithRetry_undisturbed a w : exists l w', publishWithRetry NewPublisher a w = (None, l, w').
Proof using Hu Hjson.
  unfold publishWithRetry, message in *. specialize (Hjson a). destruct (json_of_activity a) as [|d]; [done|].
  destruct Hu as (Hd & _ & Hp). cbn [publish_attempts maxRetries NewPublisher defaultMaxRetries].
  unfold bind, lift. destruct (lift_none ctx_done w Hd) as [w1 ->].
  specialize (Hp (buildReindexSubject (Some a)) d w1). destruct (js_publish _ d w1) as [o w2]. cbn in Hp. subst. cbn. eauto.
Qed.

Lemma PublishActivities_undisturbed acts w : exists l w', PublishActivities NewPublisher acts w = (None, l, w').
Proof using Hu Hjson.
  revert w. induction acts as [|a acts IH]; intros w; cbn [PublishActivities]; [cbn; eauto|].
  unfold bind. destruct (publishWithRetry_undisturbed a w) as (l & w1 & ->).
  destruct (IH w1) as (l' & w2 & ->). eauto.
Qed.

Lemma Wait_undisturbed rl b n w : bounded rl b -> (n <= b)%Z ->
  exists rl' w', Wait rl n w = (Ok rl', [], w') /\ bounded rl' b.
Proof using Hu.
  intros Hb Hn. unfold Wait. destruct (Z.leb_spec n 0); [cbn; eauto|].
  unfold bind, lift. destruct (time_Now w) as [now w1].
  destruct (bounded_reserve rl b now n Hb ltac:(lia)) as (rl' & d & -> & Hb').
  destruct (0 <? d)%Z; [|cbn; eauto].
  destruct (lift_none (ctx_after d) w1 ltac:(apply Hu)) as [w2 ->]. cbn. eauto.
Qed.

Lemma NewRateLimiter_bounded opts : (0 < RateLimit opts)%Z ->
  exists b, bounded (NewRateLimiter (RateLimit opts) (BatchSize opts)) b /\ (BatchSize opts <= b)%Z.
Proof using RL.
  intros Hr. unfold NewRateLimiter. cbv zeta. eexists. split; [by apply bounded_new|]. destruct (Z.ltb_spec (RateLimit opts * 2) (BatchSize opts)); zcmp; lia.
Qed.

(** The optional limiter of a run lets every batch through. *)
Definition lets_through (rl : option limiter) (n : Z) : Prop :=
  match rl with Some rl => exists b, bounded rl b /\ (n <= b)%Z | None => True end.

Lemma process_loop_undisturbed {B} (OnProgress : option (Progress -> W -> W)) what fetch q
    (eval : time -> B -> option Activity) opts n :
  (forall cur w, exists w', fetch cur w = (q cur, [], w')) ->
  forall cur bs, chain q cur bs -> Forall (fun b => (Z.of_nat (length b) <= n)%Z) bs ->
  forall fuel k p rl w, (length bs < fuel)%nat -> lets_through rl n ->
  exists p' rl' l w',
    process_loop OnProgress what fetch (fun now b => Ok (omap (eval now) b)) NewPublisher opts fuel cur k p rl w
    = (Some (Ok (p', rl')), l, w') /\ lets_through rl' n.
Proof using Hu Hjson.
  intros Hfetch cur bs Hch Hlen fuel. revert cur bs Hch Hlen.
  induction fuel as [|fuel IH]; intros cur bs Hch Hlen k p rl w Hfuel Hrl; [lia|].
  cbn [process_loop]. unfold bind at 1, lift at 1. destruct (lift_none ctx_done w ltac:(apply Hu)) as [w0 ->].
  unfold bind at 1. destruct (Hfetch cur w0) as [w1 ->].
  destruct (chain_inv q cur bs Hch) as (b & next & bs' & -> & [[-> ->]|(Hb & -> & Hnext)]); [cbn; eauto 10|].
  destruct b as [|b0 b]; [done|]. set (batch := b0 :: b) in *. inversion_clear Hlen as [|? ? Hlb Hlbs].
  unfold bind at 1, lift at 1. destruct (time_Now w1) as [now w2].
  set (acts := omap (eval now) batch). unfold bind at 1.
  assert (exists l w', (if (negb (DryRun opts) && negb (bool_decide (acts = [])))%bool
    then PublishActivities NewPublisher acts else ret None) w2 = (None, l, w')) as (l & w3 & ->).
  { destruct (_ && _)%bool; [apply PublishActivities_undisturbed|cbn; eauto]. }
  unfold bind at 1. set (p1 := count_batch _ _ _).
  assert (exists l w', report OnProgress p1 w3 = (tt, l, w')) as (l' & w4 & ->).
  { unfold report. destruct OnProgress; cbn; eauto. }
  unfold bind at 1.
  assert (exists rl' w', match rl with
     | None => ret (Ok None)
     | Some rl => let! r := Wait rl (Z.of_nat (length batch)) in ret (let? rl' := r in Ok (Some rl'))
     end w4 = (Ok rl', [], w') /\ lets_through rl' n) as (rl' & w5 & -> & Hrl').
  { destruct rl as [rl0|]; [|cbn; eauto]. destruct Hrl as (bu & Hbu & Hle).
    destruct (Wait_undisturbed rl0 bu (Z.of_nat (length batch)) w4 Hbu ltac:(lia)) as (rl' & w' & Hw & Hbu').
    unfold bind. rewrite Hw. cbn. exists (Some rl'), w'. split; [done|]. by exists bu. }
  destruct (next =? "")%string; [cbn; eauto 10|].
  destruct (IH next bs' Hnext Hlbs (wrap32 (k + 1)) p1 rl' w5 ltac:(cbn in Hfuel; lia) Hrl')
    as (p' & rl'' & l'' & w6 & -> & ?). eauto 10.
Qed.

Lemma Run_undisturbed (OnProgress : option (Progress -> W -> W)) rk rr grow opts fuel w qa qe items bsA bsE :
  stable_queries qa qe -> fst (list_policies w) = inr items ->
  chain (audit_pages qa opts) "" bsA -> chain (event_pages qe opts) "" bsE ->
  Forall (fun b => (Z.of_nat (length b) <= BatchSize opts)%Z) bsA ->
  Forall (fun b => (Z.of_nat (length b) <= BatchSize opts)%Z) bsE ->
  (length bsA < fuel)%nat -> (length bsE < fuel)%nat ->
  exists p l w', Run OnProgress rk rr grow opts fuel w = (Some (Ok p), l, w').
Proof using Hu Hjson RL.
  intros Hq Hpol HcA HcE HlA HlE HfA HfE. unfold Run, fetchActivePolicies, bind at 1 2, lift.
  destruct (list_policies w) as [r w1]. cbn in Hpol. subst r. cbn [ret app].
  destruct (select_policies _ _ items) as [|p0 ps]; [cbn; eauto|].
  set (rl := if (0 <? RateLimit opts)%Z then _ else _).
  assert (lets_through rl (BatchSize opts)) as Hrl.
  { unfold rl. destruct (Z.ltb_spec 0 (RateLimit opts)); [|done]. by apply NewRateLimiter_bounded. }
  set (c := compile_policies _ _ _ _). unfold bind at 1, processAuditLogs, evaluateAuditBatch.
  destruct (process_loop_undisturbed OnProgress "audit log"
    (fun cur => fetchAuditLogBatch (o_StartTime opts) (o_EndTime opts) cur (BatchSize opts)) _ (evaluate_audit c (Some rk)) opts (BatchSize opts)
    (fun cur w => fetch_audit_pages qa qe opts cur w Hq) _ _ HcA HlA fuel 0 no_progress rl w1 HfA Hrl)
    as (pA & rlA & lA & w2 & -> & HrlA).
  unfold bind at 1, processEvents, evaluateEventBatch.
  assert (chain (event_map_pages qe opts) "" (map (map eventRecordToMap) bsE)) as HcE'.
  { eapply chain_map; [|exact HcE]. intros cur b next Hb. unfold event_map_pages. by rewrite Hb. }
  destruct (process_loop_undisturbed OnProgress "event"
    (fun cur => fetchEventBatch (o_StartTime opts) (o_EndTime opts) cur (BatchSize opts)) _ (evaluate_event c (Some rk)) opts (BatchSize opts)
    (fun cur w => fetch_event_pages qa qe opts cur w Hq) _ _ HcE') with (fuel := fuel) (k := 0%Z) (p := pA)
    (rl := rlA) (w := w2) as (pE & rlE & lE & w3 & -> & _); [|by rewrite length_map|done|cbn; eauto].
  apply Forall_map. eapply Forall_impl; [exact HlE|]. intros b Hb. cbn. by rewrite length_map.
Qed.
End Undisturbed.

(** ** Lemmas: subjects *)

Lemma sanitize_bytes (n : nat) (s : string) : all_bytes token_byte (sanitize_go n s) = true.
Proof.
  revert n. induction s as [|a s IH]; intros [|n]; [done|done| |apply IH].
  cbn [sanitize_go]. rewrite all_bytes_append, IH, andb_true_r.
  destruct (Ascii.eqb a "."); [done|]. destruct (token_byte a) eqn:E; [|done]. cbn. by rewrite E.
Qed.

Lemma sanitize_nonempty (s : string) : s <> "" -> sanitizeSubjectToken s <> "".
Proof.
  destruct s as [|a s]; [done|]. intros _. unfold sanitizeSubjectToken. cbn [sanitize_go].
  destruct (Ascii.eqb a "."); [done|]. by destruct (token_byte a).
Qed.

Lemma token_byte_plain (a : ascii) (s : string) :
  token_byte a = true -> Ascii.eqb a "." = false /\ rune_width (String a s) = 1%nat.
Proof.
  intros Ha. assert (Ascii.eqb a "." = false /\ Nat.ltb (nat_of_ascii a) 194 = true) as [Hd Hw].
  { revert Ha. destruct a as [[] [] [] [] [] [] [] []]; vm_compute; done. }
  split; [done|]. unfold rune_width. by rewrite Hw.
Qed.

Lemma sanitize_plain (s : string) : all_bytes token_byte s = true -> sanitizeSubjectToken s = s.
Proof.
  unfold sanitizeSubjectToken. induction s as [|a s IH]; [done|]. cbn [all_bytes].
  intros [Ha Hs]%andb_true_iff. destruct (token_byte_plain a s Ha) as [Hd Hw].
  cbn [sanitize_go]. rewrite Hd, Ha, Hw. cbn [Nat.sub]. by rewrite IH.
Qed.

Lemma token_no_dot (s : string) : all_bytes token_byte s = true -> has_byte dot s = false.
Proof. intros Hs. by apply (all_bytes_has_byte token_byte). Qed.

(** ** Lemmas: agreement with the live processors *)

Section Live.
Context `{CelEngine} `{ActivityLib} `{JetStream} `{AuditIO}.

Lemma BuildFromAudit_stamped now now' b audit s ls rk :
  IsZero (RequestReceivedTimestamp audit) = false ->
  BuildFromAudit now b audit s ls rk = BuildFromAudit now' b audit s ls rk.
Proof. intros Hz. unfold BuildFromAudit. by rewrite Hz. Qed.

Lemma EvaluateCompiled_stamped now now' policy am audit rk :
  IsZero (RequestReceivedTimestamp audit) = false ->
  EvaluateCompiledAuditRules now policy am audit rk = EvaluateCompiledAuditRules now' policy am audit rk.
Proof.
  intros Hz. unfold EvaluateCompiledAuditRules. generalize 0%Z as i.
  induction (cp_AuditRules policy) as [|rule rules IH]; intros i; [done|]. cbn [eval_compiled_audit].
  destruct (negb (Valid rule)); [apply IH|].
  destruct (rule_EvaluateAuditMatch rule am) as [[]| |]; [|apply IH|done..]. f_equal.
  destruct (EvaluateAuditSummaryMap _ _) as [[s ls]| |]; [|done..]. cbn [wrap_err res_bind fst snd].
  by rewrite (BuildFromAudit_stamped now now').
Qed.

(** The first policy that yields an activity, whatever failed before it. *)
Lemma audit_policies_first now now' rk am audit ps :
  IsZero (RequestReceivedTimestamp audit) = false ->
  match audit_policies now' (Some rk) am audit ps with
  | Some a' => exists p a, p ∈ ps /\ a' = label_policy (cp_Name p) a /\ first_winner rk now audit am ps = Some a
  | None => first_winner rk now audit am ps = None
  end.
Proof.
  intros Hz. unfold first_winner. induction ps as [|p ps IH]; [done|]. cbn [audit_policies first_some].
  rewrite (EvaluateCompiled_stamped now' now) by done.
  destruct (snd (EvaluateCompiledAuditRules now p am audit (Some rk))) as [[a|]| |].
  { exists p, a. split; [left|done]. }
  all: destruct (audit_policies _ _ _ _ ps) as [a'|]; [|done];
    destruct IH as (q & a & ? & ? & ?); exists q, a; split; [by right|done].
Qed.

(** How many dead letters the live processor writes for a record. *)
Definition live_dead_letters (rk : KindResolver) (now : time) (c : PolicyCache) (audit : AuditEvent) : nat :=
  match ObjectRef audit with
  | None => 0
  | Some ref =>
      match Get c (or_APIGroup ref) (or_Resource ref) with
      | [] => 0
      | ps => match auditToMap audit with
              | inl _ => 1
              | inr am => failing_before rk now audit am ps
              end
      end
  end.

(** The keys the processor reads: the metadata carry no annotations and no
    creation time, the event time is not a string, and there is no other time. *)
Lemma event_map_keys (r : EventRecord) :
  let m := eventRecordToMap r in
  let e := erec_Event r in
  m !! "metadata" = Some (AMap (<["name" := AStr (ev_Name e)]> (<["namespace" := AStr (ev_Namespace e)]>
                                (<["uid" := AStr (ev_UID e)]> ∅))))
  /\ m !! "regarding" = Some (reference_map (ev_Regarding (ev_rest e)))
  /\ m !! "eventTime" = Some (ATime (ev_EventTime e))
  /\ m !! "lastTimestamp" = None /\ m !! "firstTimestamp" = None.
Proof.
  cbv zeta. unfold eventRecordToMap.
  destruct (ev_Related _), (ev_Series _); split_and!;
    rewrite ?lookup_insert_ne by done; rewrite ?lookup_insert_eq; done.
Qed.

Lemma event_map_timestamp now r : resolveEventTimestamp now (eventRecordToMap r) = now.
Proof.
  destruct (event_map_keys r) as (Hm & _ & Ht & Hl & Hf).
  unfold resolveEventTimestamp, getStringFromMap, nil_map. cbn [default from_option id]. rewrite Ht, Hl, Hf, Hm. done.
Qed.

Lemma event_map_annotations r : eventAnnotations (eventRecordToMap r) = None.
Proof. unfold eventAnnotations. by destruct (event_map_keys r) as (-> & _). Qed.

Lemma event_map_uid r : event_uid (eventRecordToMap r) = ev_UID (erec_Event r).
Proof. unfold event_uid. by destruct (event_map_keys r) as (-> & _). Qed.

Lemma event_map_involved r :
  ResolveInvolvedObject (eventRecordToMap r)
  = as_map (Some (reference_map (ev_Regarding (ev_rest (erec_Event r))))).
Proof. unfold ResolveInvolvedObject. by destruct (event_map_keys r) as (_ & -> & _). Qed.
End Live.

(** Concrete worlds: a counter of the calls, two pages of audit records, one
    page of events. *)
Module ToyReindex.
Definition record (id : string) : AuditEvent := {|
  AuditID := id; RequestReceivedTimestamp := 5%Z; User := User ToyAudit.audit1;
  ObjectRef := ObjectRef ToyAudit.audit1; ResponseObject := None |}.
Definition event (uid : string) (annotations : option (gmap string string)) : EventRecord := {|
  erec_APIVersion := ""; erec_Kind := "";
  erec_Event := {| ev_Namespace := "default"; ev_Name := "web.1"; ev_UID := uid; ev_ResourceVersion := "";
    ev_Annotations := annotations; ev_EventTime := 3%Z; ev_FirstTimestamp := 3%Z; ev_LastTimestamp := 3%Z;
    ev_Count := 1%Z; ev_Series := None;
    ev_rest := {| ev_Regarding := {| ref_APIVersion := "apps/v1"; ref_Kind := "Deployment"; ref_Name := "web";
                                     ref_Namespace := "default"; ref_UID := "u"; ref_other := "" |};
                  ev_Related := None; ev_Reason := "Scaled"; ev_Note := ""; ev_Type := "Normal";
                  ev_Action := ""; ev_ReportingController := "hpa"; ev_ReportingInstance := "";
                  ev_DeprecatedSource := ("", ""); ev_other := "" |} |} |}.
Definition qa (s : AuditLogQuerySpec) : error + (list AuditEvent * string) :=
  if (aq_Continue s =? "")%string then inr ([record "a1"; record "a2"], "next")
  else inr ([record "a3"], "").
Definition qe (s : EventQuerySpec) : error + (list EventRecord * string) := inr ([event "e1" None], "").
Definition world (down : bool) : ReindexIO nat := {|
  ctx_done w := (None, w); ctx_after _ w := (None, S w); time_Now w := (9%Z, w);
  js_publish _ _ w := (if down then Some (Ext "no responders") else None, S w);
  list_policies w := (inr [ToyPolicies.mk "A"], w);
  create_AuditLogQuery s w := (qa s, w); create_EventQuery s w := (qe s, w) |}.
(** A limiter that grants any reservation up to its burst at once. *)
Definition rates : RateLib := {|
  limiter := Z * Z; rate_NewLimiter r b := (r, b);
  rate_ReserveN rl _ n := (rl, if (n <=? snd rl)%Z then Some 0%Z else None) |}.
Definition options (dry : bool) : Options := {|
  o_StartTime := of_unix_nano 0; o_EndTime := of_unix_nano 1000000000; BatchSize := 2%Z; RateLimit := 1%Z;
  DryRun := dry; PolicyNames := []; MatchLabels := ∅ |}.
Definition run (down dry : bool) : option (res Progress) * list action * nat :=
  @Run ToyCel.toy ToyLib.toy ToyAudit.io rates nat (world down) None ToyAudit.kinds
    (fun _ _ => inr "deployments") ToyPolicies.double (options dry) 3 0%nat.
Definition pagesA : list (list AuditEvent) := [[record "a1"; record "a2"]; [record "a3"]].
Definition pagesE : list (list EventRecord) := [[event "e1" None]].
Definition laws : @RateLaws rates.
Proof.
  refine (@Build_RateLaws rates (fun (rl : @limiter rates) b => snd rl = b) (fun r b _ => eq_refl) _).
  intros [r b0] b now n <- [_ Hn]. exists (r, b0), 0%Z. cbn in *. by apply Z.leb_le in Hn as ->.
Defined.
End ToyReindex.

Example toy_reindex :
  fst (fst (ToyReindex.run false false))
  = Some (Ok {| TotalEvents := 0; ProcessedEvents := 4; ActivitiesGenerated := 4; Errors := 0;
                CurrentBatch := 1; TotalBatches := 0 |})
  /\ map fst (acked (snd (fst (ToyReindex.run false false))))
     = repeat "activity_miloapis_com_reindex.platform.apps.Deployment" 4.
Proof. vm_compute. done. Qed.

(** Two readers with the same identity disagree on an event that carries tenant
    and source annotations: re-indexed, it belongs to the platform, has another
    name and the time of the run. *)
Lemma reindexed_event_differs :
  let annotations := <[ScopeTypeAnnotation := "Project"]> (<[ScopeNameAnnotation := "p1"]>
    (<[SourcePlaneTypeAnnotation := "edge"]> (<[SourceClusterAnnotation := "c1"]> ∅))) in
  let e := ToyReindex.event "e1" (Some annotations) in
  let live : gomap := <["metadata" := AMap (<["uid" := AStr "e1"]>
    (<["annotations" := AMap (AStr <$> annotations)]> ∅))]>
    (<["eventTime" := AStr "2024-02-29T10:30:45Z"]>
    (<["regarding" := reference_map (ev_Regarding (ev_rest (erec_Event e)))]> ∅)) in
  let m := {| mp_PolicyName := "A"; mp_Generation := 1; mp_APIGroup := "apps"; mp_Kind := "Deployment";
              mp_Summary := "it happened"; mp_Links := [] |} in
  let a := @buildActivity ToyLib.toy 9%Z live m "it happened" [] in
  match @evaluate_event ToyCel.toy ToyLib.toy (ToyAudit.cache [ToyPolicies.mk "A"]) None 9%Z (eventRecordToMap e) with
  | Some a' => Tenant (Spec a) = {| ten_Type := "Project"; ten_Name := "p1" |}
               /\ Tenant (Spec a') = {| ten_Type := "platform"; ten_Name := "" |}
               /\ org_ID (Origin (Spec a)) = "edge/c1/e1" /\ org_ID (Origin (Spec a')) = "e1"
               /\ Name a <> Name a'
               /\ CreationTimestamp a = of_unix_nano 1709202645000000000 /\ CreationTimestamp a' = 9%Z
  | None => False
  end.
Proof. vm_compute. split_and!; (reflexivity || discriminate). Qed.

(* ------------------------------------------------------------------ *)
(** ** Properties *)

(** C9: a re-indexing run ends and does what it says: when the queries' pages
    end (whatever their sizes and tokens), with fuel for one more round than
    there are pages, [Run] returns; every acknowledged publish carries the
    activity of one record, in the order of the records - audit records first,
    then events, each evaluated once against the policies selected - and when
    it returns without error all of them are acknowledged and the counters of
    the progress are exact; a dry run publishes nothing at all; without a
    selected policy nothing is done.  No panic is reachable. *)
Theorem reindex_run `{CelEngine} `{ActivityLib} `{AuditIO} `{RateLib} {W} `{ReindexIO W}
    (OnProgress : option (Progress -> W -> W)) (rk : KindResolver) (rr : string -> string -> error + string)
    (grow : nat -> nat) (opts : Options) (fuel : nat) (w w' : W) (out : option (res Progress))
    (l : list action) qa qe (items : list ActivityPolicy) (bsA : list (list AuditEvent))
    (bsE : list (list EventRecord)) :
  stable_queries qa qe -> fst (list_policies w) = inr items ->
  chain (audit_pages qa opts) "" bsA -> chain (event_pages qe opts) "" bsE ->
  (length bsA < fuel)%nat -> (length bsE < fuel)%nat ->
  Run OnProgress rk rr grow opts fuel w = (out, l, w') ->
  exists r, out = Some r /\
  match select_policies (PolicyNames opts) (MatchLabels opts) items with
  | [] => r = Ok no_progress /\ l = []
  | policies => run_did (compile_policies rr grow policies NewPolicyCache) rk (DryRun opts) bsA bsE l r
  end.
Proof. apply run_spec. Qed.

(** A re-indexing run succeeds when nothing disturbs it: if the context is
    not cancelled, every publish is acknowledged, activities can be encoded and
    no page exceeds the batch size, then [Run] returns without error - in
    particular the rate limiter, whose burst is at least the batch size, never
    refuses a batch - after a bounded number of rounds, with every activity
    published unless it is a dry run. *)
Theorem reindex_completes `{CelEngine} `{ActivityLib} `{AuditIO} `{RateLib} `{!RateLaws} {W} `{ReindexIO W}
    (OnProgress : option (Progress -> W -> W)) (rk : KindResolver) (rr : string -> string -> error + string)
    (grow : nat -> nat) (opts : Options) (w : W) qa qe (items : list ActivityPolicy)
    (bsA : list (list AuditEvent)) (bsE : list (list EventRecord)) :
  undisturbed (W := W) -> (forall a, message a <> None) ->
  stable_queries qa qe -> fst (list_policies w) = inr items ->
  chain (audit_pages qa opts) "" bsA -> chain (event_pages qe opts) "" bsE ->
  Forall (fun b => (Z.of_nat (length b) <= BatchSize opts)%Z) bsA ->
  Forall (fun b => (Z.of_nat (length b) <= BatchSize opts)%Z) bsE ->
  exists p l w', Run OnProgress rk rr grow opts (S (length bsA + length bsE)) w = (Some (Ok p), l, w')
    /\ (select_policies (PolicyNames opts) (MatchLabels opts) items <> [] ->
        ProcessedEvents p = wrap64 (Z.of_nat (length (concat bsA) + length (concat bsE)))
        /\ (DryRun opts = false -> Z.of_nat (length (acked l)) < 2 ^ 63 ->
            ActivitiesGenerated p = Z.of_nat (length (acked l)))%Z).
Proof.
  intros Hu Hj Hq Hpol HcA HcE HlA HlE.
  destruct (Run_undisturbed Hu Hj OnProgress rk rr grow opts (S (length bsA + length bsE)) w qa qe items bsA bsE
              Hq Hpol HcA HcE HlA HlE ltac:(lia) ltac:(lia)) as (p & l & w' & Hr).
  exists p, l, w'. split; [done|]. intros Hsel.
  destruct (run_spec OnProgress rk rr grow opts (S (length bsA + length bsE)) w _ l w' qa qe items bsA bsE
              Hq Hpol HcA HcE ltac:(lia) ltac:(lia) Hr) as (r & [= <-] & Hdid).
  destruct (select_policies _ _ _); [done|].
  destruct Hdid as (nA & nE & _ & _ & _ & Hack & Hpr & Hgen & _). split; [done|]. intros Hdry Hlt.
  rewrite Hgen. destruct (Hack Hdry) as [Ha Hall].
  assert (length (acked l) = length (expected (evaluate_audit (compile_policies rr grow (a :: l0) NewPolicyCache) (Some rk)) nA bsA
    ++ expected (fun now e => evaluate_event (compile_policies rr grow (a :: l0) NewPolicyCache) (Some rk) now (eventRecordToMap e)) nE bsE))
    as <-; [|apply wrap64_id; unfold int64_min, int64_max; lia].
  rewrite Ha. clear -Hall. induction Hall as [|x xs Hx _ IH]; [done|]. cbn.
  destruct (message x); [cbn; by rewrite IH|done].
Qed.

(** C10: re-indexing an audit record that the live processor acknowledged, with
    the same policies and at any later time, yields exactly the activity that
    was stored then (so that it replaces it), with a label naming the policy
    added; and it yields none exactly when the live processor published
    nothing but dead letters. *)
Theorem reindexed_audit_is_live `{CelEngine} `{ActivityLib} `{JetStream} `{AuditIO}
    (DLQ : DLQPublisher) (enabled : bool) `{!DLQPublisherLaws DLQ enabled}
    (prefix : string) (rk : KindResolver) (now now' : time) (c : PolicyCache) (data : string)
    (audit : AuditEvent) (log : list effect) :
  audit_processMessage DLQ prefix rk now c data = (log, None) ->
  json_unmarshal_audit data = inr audit -> IsZero (RequestReceivedTimestamp audit) = false ->
  exists dls acts, pubs_of log = dls ++ acts
    /\ Forall (fun p => pub_ok p = true) dls
    /\ length dls = (if enabled then live_dead_letters rk now c audit else 0)%nat
    /\ match evaluate_audit c (Some rk) now' audit with
       | Some a' => exists name a p, a' = label_policy name a /\ acts = [p] /\ activity_stored prefix a p
       | None => acts = []
       end.
Proof.
  intros Hp Hj Hz. unfold audit_processMessage in Hp. rewrite Hj in Hp.
  unfold evaluate_audit, live_dead_letters. destruct (ObjectRef audit) as [ref|].
  2:{ injection Hp as <-. exists [], []. split_and!; [done|constructor|by destruct enabled|done]. }
  destruct (Get c (or_APIGroup ref) (or_Resource ref)) as [|p0 ps].
  { injection Hp as <-. exists [], []. split_and!; [done|constructor|by destruct enabled|done]. }
  change (batch_auditToMap audit) with (auditToMap audit).
  destruct (auditToMap audit) as [err|am].
  - destruct (dlq_audit _ _ _ _ _ _ _ _ _ _) as [l e] eqn:Ed. destruct e; [done|].
    injection Hp as <-. apply (dlq_audit_ack DLQ enabled) in Ed as [? ?].
    exists (pubs_of l), []. rewrite app_nil_r. by destruct enabled.
  - apply (policy_loop_ack DLQ enabled) in Hp as (dls & acts & Hl & Hok & Hn & Hw).
    exists dls, acts. split_and!; [done..|].
    pose proof (audit_policies_first now now' rk am audit (p0 :: ps) Hz) as Ha.
    destruct (audit_policies _ _ _ _ _) as [a'|]; [|by rewrite Ha in Hw].
    destruct Ha as (p & a & _ & -> & Ha). rewrite Ha in Hw. destruct Hw as (q & -> & Hs). eauto 10.
Qed.

(** What a re-indexed event becomes: the activity is named after the bare
    UID of the event and the policy's target, its summary is the policy's, and
    it is always filed under the platform tenant, without a source, at the time
    of the run - the annotations and times of the event do not reach it. *)
Theorem reindexed_event_activity `{CelEngine} `{ActivityLib} (c : PolicyCache) (rk : option KindResolver)
    (now : time) (r : EventRecord) (a : Activity) :
  evaluate_event c rk now (eventRecordToMap r) = Some a ->
  let e := erec_Event r in
  let ref := ev_Regarding (ev_rest e) in
  exists m, cache_MatchEvent c
      match Index (ref_APIVersion ref) "/" with Some i => take_str i (ref_APIVersion ref) | None => "" end
      (ref_Kind ref) (eventRecordToMap r) = inr (Some m)
    /\ Name a = activityName "event" (ev_UID e) (mp_APIGroup m) (mp_Kind m)
    /\ Labels a !! "activity.miloapis.com/policy-name" = Some (mp_PolicyName m)
    /\ Summary (Spec a) = mp_Summary m
    /\ Namespace a = ref_Namespace ref
    /\ Tenant (Spec a) = {| ten_Type := TenantTypePlatform; ten_Name := "" |}
    /\ Source (Spec a) = None
    /\ CreationTimestamp a = now.
Proof.
  unfold evaluate_event. rewrite event_map_involved. cbn [as_map reference_map].
  set (reg := <["apiVersion" := _]> _).
  assert (reg !! "apiVersion" = Some (AStr (ref_APIVersion (ev_Regarding (ev_rest (erec_Event r)))))) as Hv by done.
  assert (reg !! "kind" = Some (AStr (ref_Kind (ev_Regarding (ev_rest (erec_Event r)))))) as Hk by done.
  rewrite Hv, Hk. cbn [as_string default from_option id].
  destruct (_ =? "")%string; [done|].
  destruct (cache_MatchEvent _ _ _ _) as [|[m|]] eqn:Em; [done| |done].
  destruct (BuildFromEvent _ _ _ _ _ _) as [b| |] eqn:Eb; [|done..]. intros [= <-].
  exists m. split; [done|]. unfold BuildFromEvent in Eb.
  unfold ExtractSourceFromAnnotations, ExtractTenantFromAnnotations, resolveActivityNamespace in Eb.
  rewrite event_map_annotations, event_map_timestamp, event_map_uid, event_map_involved in Eb.
  destruct (resolveKindAndAPIGroup _) as [k g]. cbn [getStringFromMap nil_map] in Eb. inv_res.
  by split_and!.
Qed.

(** Publishing one activity takes at most three attempts, waits at most
    1 and 2 seconds between them, succeeds exactly when the last attempt is
    acknowledged, and never has the message acknowledged twice; a batch is
    acknowledged in order, up to the first activity that fails. *)
Theorem publish_bounded `{AuditIO} {W} `{ReindexIO W} :
  (forall a w r l w', publishWithRetry NewPublisher a w = (r, l, w') ->
     (length (publishes l) <= 3)%nat
     /\ acked l = match r with None => option_list (message a) | Some _ => [] end
     /\ (r = None -> message a <> None))
  /\ (forall acts w r l w', PublishActivities NewPublisher acts w = (r, l, w') ->
     acked l `prefix_of` omap message acts
     /\ (r = None -> acked l = omap message acts /\ Forall (fun a => message a <> None) acts))
  /\ next_backoff NewPublisher (initialBackoff NewPublisher) = (2 * Second)%Z.
Proof.
  split_and!; [|intros acts w r l w' Hr; by apply PublishActivities_log in Hr as (_ & ?)|done].
  intros a w r l w' Hr. by apply publishWithRetry_log in Hr as (? & _ & ? & ?).
Qed.

(** The subject of a re-indexed activity always has four tokens - the
    prefix, tenant type, API group and kind - each non-empty and made of
    letters, digits, dashes and underscores only, whatever the activity holds;
    a token that is already so is kept. *)
Theorem reindex_subject_tokens (a : option Activity) :
  (exists t g k, Split dot (buildReindexSubject a) = [ReindexSubjectPrefix; t; g; k]
     /\ Forall (fun s => s <> "" /\ all_bytes token_byte s = true) [t; g; k])
  /\ forall s, (if all_bytes token_byte s then sanitizeSubjectToken s = s else True).
Proof.
  split; [|intros s; destruct (all_bytes token_byte s) eqn:E; [by apply sanitize_plain|done]].
  assert (forall t g k, all_bytes token_byte t = true -> all_bytes token_byte g = true ->
    all_bytes token_byte k = true ->
    Split dot (ReindexSubjectPrefix +:+ "." +:+ t +:+ "." +:+ g +:+ "." +:+ k) = [ReindexSubjectPrefix; t; g; k]) as Hs.
  { intros t g k Ht%token_no_dot Hg%token_no_dot Hk%token_no_dot.
    change ("." +:+ t +:+ "." +:+ g +:+ "." +:+ k) with (String dot (t +:+ String dot (g +:+ String dot k))).
    rewrite !Split_append, (Split_no_sep dot t), (Split_no_sep dot g), (Split_no_sep dot k) by done. done. }
  assert (forall s, all_bytes token_byte (sanitizeSubjectToken s) = true) as Hb by (intros; apply sanitize_bytes).
  destruct a as [a|]; [|exists "unknown", "unknown", "unknown"; split; [reflexivity|repeat constructor; done]].
  unfold buildReindexSubject. eexists _, _, _. split; [apply Hs; [destruct (_ =? _)%string; [done|]|..]; apply Hb|].
  rewrite !Forall_cons, Forall_nil. split_and!; try apply Hb; try done.
  - destruct (String.eqb_spec (ten_Type (Tenant (Spec a))) ""); [done|by apply sanitize_nonempty].
  - by destruct (_ =? "")%string.
  - apply sanitize_nonempty. by destruct (String.eqb_spec (APIGroup (Resource_ (Spec a))) "").
  - apply sanitize_nonempty. by destruct (String.eqb_spec (Kind (Resource_ (Spec a))) "").
Qed.

Section Witnesses.
#[local] Existing Instance ToyCel.toy.
#[local] Existing Instance ToyLib.toy.
#[local] Existing Instance ToyAudit.io.
#[local] Existing Instance ToyReindex.rates.
#[local] Existing Instance ToyReindex.laws.
#[local] Instance toy_world : ReindexIO nat := ToyReindex.world false.

Lemma toy_chains (opts : Options) :
  chain (audit_pages ToyReindex.qa opts) "" ToyReindex.pagesA /\ chain (event_pages ToyReindex.qe opts) "" ToyReindex.pagesE.
Proof.
  split; [eapply chain_next; [| |reflexivity|]; [done|done|]|]; by apply chain_last.
Qed.

Lemma reindex_run_witness :
  exists r, fst (fst (ToyReindex.run false false)) = Some r
  /\ run_did (compile_policies (fun _ _ => inr "deployments") ToyPolicies.double [ToyPolicies.mk "A"] NewPolicyCache)
       ToyAudit.kinds false ToyReindex.pagesA ToyReindex.pagesE (snd (fst (ToyReindex.run false false))) r.
Proof.
  destruct (reindex_run None ToyAudit.kinds (fun _ _ => inr "deployments") ToyPolicies.double
    (ToyReindex.options false) 3 0%nat (snd (ToyReindex.run false false))
    (fst (fst (ToyReindex.run false false))) (snd (fst (ToyReindex.run false false))) ToyReindex.qa ToyReindex.qe
    [ToyPolicies.mk "A"] ToyReindex.pagesA ToyReindex.pagesE) as (r & Hr & Hdid);
    [done|done|apply toy_chains|apply toy_chains|cbn; lia|cbn; lia|
     vm_compute; reflexivity|].
  exists r. split; [exact Hr|exact Hdid].
Defined.

Lemma reindex_completes_witness :
  exists p l w', ToyReindex.run false true = (Some (Ok p), l, w').
Proof.
  destruct (reindex_completes None ToyAudit.kinds (fun _ _ => inr "deployments") ToyPolicies.double
    (ToyReindex.options true) 0%nat ToyReindex.qa ToyReindex.qe [ToyPolicies.mk "A"] ToyReindex.pagesA ToyReindex.pagesE)
    as (p & l & w' & Hr & _);
    [done|intros a; unfold message; cbn; discriminate|done|done|apply toy_chains|apply toy_chains
    |repeat constructor; cbn; lia|repeat constructor; cbn; lia|].
  exists p, l, w'. rewrite <- Hr. vm_compute. reflexivity.
Defined.

Lemma reindexed_audit_is_live_witness :
  let c := ToyAudit.cache [ToyAudit.failing; ToyPolicies.mk "A"] in
  exists dls acts, pubs_of (fst (ToyAudit.process c "audit1")) = dls ++ acts
    /\ match evaluate_audit c (Some ToyAudit.kinds) 11%Z ToyAudit.audit1 with
       | Some a' => exists name a p, a' = label_policy name a /\ acts = [p]
                    /\ @activity_stored ToyAudit.io "act" a p
       | None => acts = []
       end.
Proof.
  intros c.
  destruct (@reindexed_audit_is_live ToyCel.toy ToyLib.toy ToyServices.js ToyAudit.io ToyServices.publisher true _
    "act" ToyAudit.kinds 7%Z 11%Z c "audit1" ToyAudit.audit1 (fst (ToyAudit.process c "audit1")))
    as (dls & acts & Hl & _ & _ & Hw); [vm_compute; reflexivity|reflexivity|reflexivity|].
  exists dls, acts. split; [exact Hl|exact Hw].
Defined.

Lemma reindexed_event_activity_witness :
  match evaluate_event (ToyAudit.cache [ToyPolicies.mk "A"]) None 9%Z
          (eventRecordToMap (ToyReindex.event "e1" None)) with
  | Some a => Tenant (Spec a) = {| ten_Type := "platform"; ten_Name := "" |} /\ CreationTimestamp a = 9%Z
  | None => False
  end.
Proof.
  destruct (evaluate_event _ _ _ _) as [a|] eqn:E; [|vm_compute in E; discriminate E].
  destruct (reindexed_event_activity _ _ _ _ a E) as (m & _ & _ & _ & _ & _ & Htenant & _ & Ht).
  split; [exact Htenant|exact Ht].
Defined.
End Witnesses.
