(* ===== verification/ReindexJob.v ===== *)
(** * cmd/activity/reindex_worker.go: the worker of a ReindexJob

    The [ReindexJob] type of [pkg/apis/activity/v1alpha1/types_reindexjob.go]
    and the worker process that runs one: it marks the job as running, resolves
    its time range and options, runs the reindexer of [Reindex] with progress
    reports, and writes the final phase. *)

From Stdlib Require Import Ascii String.
From stdpp Require Import base numbers list strings gmap pretty.
From Stdlib Require Import ZArith Lia.
From S2P Require Import Prelude GoLib Types TimeUtil CelFilter Query EventStore CelPolicy Activity Dlq EventProc GoSlice PolicyCache AuditProc Reindex.

(** ** types_reindexjob.go *)

Record ReindexTimeRange := { tr_StartTime : string; tr_EndTime : string }.
Record ReindexPolicySelector := { sel_Names : list string; sel_MatchLabels : gmap string string }.
Record ReindexConfig := { rc_BatchSize : Z; rc_RateLimit : Z (* int32 *); rc_DryRun : bool }.
Record ReindexJobSpec := {
  TimeRange : ReindexTimeRange;
  PolicySelector : option ReindexPolicySelector;
  Config : option ReindexConfig;
  TTLSecondsAfterFinished : option Z (* int32 *) }.

Definition ReindexJobPending : string := "Pending".
Definition ReindexJobRunning : string := "Running".
Definition ReindexJobSucceeded : string := "Succeeded".
Definition ReindexJobFailed : string := "Failed".

(** [metav1.Condition] *)
Record Condition := {
  cn_Type : string; cn_Status : string; cn_Reason : string; cn_Message : string;
  cn_ObservedGeneration : Z; cn_LastTransitionTime : time }.

(** [ReindexProgress] has the fields of the reindexer's [Progress]. *)
Definition ReindexProgress : Type := Progress.

Record ReindexJobStatus := {
  Phase : string; Message : string; st_Progress : option ReindexProgress;
  StartedAt : option time; CompletedAt : option time; st_Conditions : list Condition }.
Record ReindexJob := {
  rj_Name : string; rj_Generation : Z; rj_DeletionTimestamp : option time;
  rj_Spec : ReindexJobSpec; rj_Status : ReindexJobStatus }.

Definition with_status (job : ReindexJob) (s : ReindexJobStatus) : ReindexJob :=
  {| rj_Name := rj_Name job; rj_Generation := rj_Generation job;
     rj_DeletionTimestamp := rj_DeletionTimestamp job; rj_Spec := rj_Spec job; rj_Status := s |}.

(** [meta.SetStatusCondition], which reads the clock. *)
Class ConditionLib := { SetStatusCondition : time -> list Condition -> Condition -> list Condition }.
Class ConditionLaws `{ConditionLib} := {
  set_condition_found now cs c :
    exists c', List.find (fun x => (cn_Type x =? cn_Type c)%string) (SetStatusCondition now cs c) = Some c'
      /\ cn_Status c' = cn_Status c /\ cn_Reason c' = cn_Reason c /\ cn_Message c' = cn_Message c
      /\ cn_ObservedGeneration c' = cn_ObservedGeneration c }.

(** What the worker asks of its surroundings: logging, the API client, the NATS
    connection, the discovery of resources, and the [ReindexJob] objects. *)
Class WorkerIO (W : Type) := {
  apply_logging : W -> option error * W;
  new_client : string -> W -> option error * W;
  nats_connect : string -> W -> option error * W;
  new_rest_mapper : W -> (error + (KindResolver * (string -> string -> error + string))) * W;
  get_ReindexJob : string -> W -> (error + ReindexJob) * W;
  update_ReindexJob_status : ReindexJob -> W -> option error * W }.

Record ReindexWorkerOptions := { JobName : string; Kubeconfig : string; NATSURL : string }.

Definition retentionWindow : Z := 60 * (24 * Hour).

Section Worker.
Context `{CelEngine} `{ActivityLib} `{AuditIO} `{RateLib} `{ConditionLib} {W : Type} `{ReindexIO W} `{WorkerIO W}.
Context (grow : nat -> nat).

(** The status of the condition of a phase, and its reason. *)
Definition phase_condition (phase : string) : string * string :=
  if (phase =? ReindexJobPending)%string then ("False", "Pending")
  else if (phase =? ReindexJobRunning)%string then ("False", "InProgress")
  else if (phase =? ReindexJobSucceeded)%string then ("True", "Succeeded")
  else if (phase =? ReindexJobFailed)%string then ("False", "Failed")
  else ("", "").

(** The status [updateJobPhase] writes. *)
Definition phase_status (now : time) (latest : ReindexJob) (phase message : string) : ReindexJobStatus :=
  let s := rj_Status latest in
  let terminal := ((phase =? ReindexJobSucceeded) || (phase =? ReindexJobFailed))%string%bool in
  let (status, reason) := phase_condition phase in
  {| Phase := phase; Message := message; st_Progress := st_Progress s;
     StartedAt := if (phase =? ReindexJobRunning)%string
                  then match StartedAt s with None => Some now | Some t => Some t end
                  else StartedAt s;
     CompletedAt := if terminal then Some now else CompletedAt s;
     st_Conditions := SetStatusCondition now (st_Conditions s)
       {| cn_Type := "Ready"; cn_Status := status; cn_Reason := reason; cn_Message := message;
          cn_ObservedGeneration := rj_Generation latest; cn_LastTransitionTime := 0%Z |} |}.

(** The clock readings of one update are one. *)
Definition updateJobPhase (job : string) (phase message : string) : M W (option error) :=
  let! r := lift (get_ReindexJob job) in
  match r with
  | inl e => ret (Some e)
  | inr latest =>
      let! now := lift time_Now in
      let updated := with_status latest (phase_status now latest phase message) in
      fun w => let (r, w') := update_ReindexJob_status updated w in
               (r, [AStatus (rj_Name updated) phase r], w')
  end.

Definition progress_message (p : Progress) : string :=
  "Processing: " +:+ pretty (ProcessedEvents p) +:+ " events processed, "
    +:+ pretty (ActivitiesGenerated p) +:+ " activities generated".

Definition progress_status (s : ReindexJobStatus) (progress : Progress) : ReindexJobStatus :=
  {| Phase := Phase s; Message := progress_message progress; st_Progress := Some progress;
     StartedAt := StartedAt s; CompletedAt := CompletedAt s; st_Conditions := st_Conditions s |}.

Definition updateJobProgress (job : string) (progress : Progress) (w : W) : option error * W :=
  match get_ReindexJob job w with
  | (inl e, w1) => (Some e, w1)
  | (inr latest, w1) =>
      update_ReindexJob_status (with_status latest (progress_status (rj_Status latest) progress)) w1
  end.

(** [time.Since(t)], saturating. *)
Definition since (now t : time) : Z := Z.max int64_min (Z.min int64_max (now - t)).

Definition retention_message (startTime : time) (age : Z) : string :=
  "startTime exceeds ClickHouse retention window: data from " +:+ Format_RFC3339 startTime
    +:+ " is beyond the " +:+ pretty (retentionWindow / (24 * Hour))%Z +:+ "-day retention period (age: "
    +:+ pretty (Z.quot age (24 * Hour)) +:+ "d)".

(** The options of the run. *)
Definition reindex_options (spec : ReindexJobSpec) (startTime endTime : time) : Options :=
  let or_default get d := match Config spec with
                          | Some c => if (0 <? get c)%Z then get c else d
                          | None => d
                          end in
  {| o_StartTime := startTime; o_EndTime := endTime;
     BatchSize := or_default rc_BatchSize 1000%Z; RateLimit := or_default rc_RateLimit 100%Z;
     DryRun := match Config spec with Some c => rc_DryRun c | None => false end;
     PolicyNames := match PolicySelector spec with Some s => sel_Names s | None => [] end;
     MatchLabels := match PolicySelector spec with Some s => sel_MatchLabels s | None => ∅ end |}.

Definition endTime_text (range : ReindexTimeRange) : string :=
  if (tr_EndTime range =? "")%string then "now" else tr_EndTime range.

(** What follows the run: the final phase. *)
Definition finish_job (job : string) (dryRun : bool) (runErr : option error) : M W (option error) :=
  match runErr with
  | Some e =>
      let! _ := updateJobPhase job ReindexJobFailed ("Re-indexing failed: " +:+ error_text e) in
      ret (Some e)
  | None =>
      let! r := lift (get_ReindexJob job) in
      match r with
      | inl _ => ret None
      | inr finalJob =>
          let n := match st_Progress (rj_Status finalJob) with Some p => ActivitiesGenerated p | None => 0%Z end in
          let msg := if dryRun then "Dry-run complete: " +:+ pretty n +:+ " activities would be generated"
                     else "Completed: " +:+ pretty n +:+ " activities generated" in
          let! _ := updateJobPhase (rj_Name finalJob) ReindexJobSucceeded msg in
          ret None
      end
  end.

(** The job is fetched, connected and running; the error of the worker, [None]
    when the fuel runs out. *)
Definition run_job (job : ReindexJob) (fuel : nat) : M W (option (option error)) :=
  let name := rj_Name job in
  let fails e := ret (Some (Some e)) in
  let! mapper := lift new_rest_mapper in
  match mapper with
  | inl e => fails (Errorf [PStr "failed to create REST mapper: "; PWrap e])
  | inr (kindResolver, resourceResolver) =>
      let OnProgress := Some (fun p w => snd (updateJobProgress name p w)) in
      let! now := lift time_Now in
      let fail_with msg e := let! _ := updateJobPhase name ReindexJobFailed msg in fails e in
      match ParseFlexibleTime (tr_StartTime (TimeRange (rj_Spec job))) now with
      | Panic w => fails (Ext w)
      | Err e => fail_with ("Invalid startTime: " +:+ error_text e) (Errorf [PStr "invalid startTime: "; PWrap e])
      | Ok startTime =>
          match ParseFlexibleTime (endTime_text (TimeRange (rj_Spec job))) now with
          | Panic w => fails (Ext w)
          | Err e => fail_with ("Invalid endTime: " +:+ error_text e) (Errorf [PStr "invalid endTime: "; PWrap e])
          | Ok endTime =>
              let! now' := lift time_Now in
              let age := since now' startTime in
              if (retentionWindow <? age)%Z
              then fail_with (retention_message startTime age) (Errorf [PStr "retention window exceeded"])
              else
                let opts := reindex_options (rj_Spec job) startTime endTime in
                let! r := Run OnProgress kindResolver resourceResolver grow opts fuel in
                match r with
                | None => ret None
                | Some (Panic w) => fails (Ext w)
                | Some (Err e) => let! e := finish_job name (DryRun opts) (Some e) in ret (Some e)
                | Some (Ok _) => let! e := finish_job name (DryRun opts) None in ret (Some e)
                end
          end
      end
  end.

Definition RunReindexWorker (options : ReindexWorkerOptions) (fuel : nat) : M W (option (option error)) :=
  let fails e := ret (Some (Some e)) in
  let! r := lift apply_logging in
  match r with
  | Some e => fails (Errorf [PStr "failed to apply logging configuration: "; PWrap e])
  | None =>
      if (NATSURL options =? "")%string then fails (Errorf [PStr "--nats-url is required"])
      else if (JobName options =? "")%string then fails (Errorf [PStr "reindexjob name is required"])
      else
        let! r := lift (new_client (Kubeconfig options)) in
        match r with
        | Some e => fails e
        | None =>
            let! r := lift (get_ReindexJob (JobName options)) in
            match r with
            | inl e => fails (Errorf [PStr "failed to fetch ReindexJob "; PStr (JobName options); PStr ": "; PWrap e])
            | inr job =>
                let! r := lift (nats_connect (NATSURL options)) in
                match r with
                | Some e => fails e
                | None =>
                    let! r := updateJobPhase (rj_Name job) ReindexJobRunning "Re-indexing in progress" in
                    match r with
                    | Some e => fails (Errorf [PStr "failed to update status to Running: "; PWrap e])
                    | None => run_job job fuel
                    end
                end
            end
        end
  end.
End Worker.

(* ------------------------------------------------------------------ *)
(** ** Lemmas *)

(** The phases written, with the outcome of each write. *)
Definition phase_writes (l : list action) : list (string * option error) :=
  omap (fun a => match a with AStatus _ phase r => Some (phase, r) | _ => None end) l.

(** A step that writes no phase. *)
Definition silent {W A} (m : M W A) : Prop := forall w r l w', m w = (r, l, w') -> phase_writes l = [].

Lemma phase_writes_app l l' : phase_writes (l ++ l') = phase_writes l ++ phase_writes l'.
Proof. apply omap_app. Qed.
Lemma silent_ret {W A} (a : A) : silent (ret (W := W) a).
Proof. intros w r l w' [= <- <- <-]. done. Qed.
Lemma silent_lift {W A} (f : W -> A * W) : silent (lift f).
Proof. intros w r l w' Hr. by apply lift_eq in Hr as [-> _]. Qed.
Lemma silent_bind {W A B} (m : M W A) (f : A -> M W B) :
  silent m -> (forall a, silent (f a)) -> silent (bind m f).
Proof.
  intros Hm Hf w r l w' Hr. run_step Hr as a la wa Ea; rewrite ?phase_writes_app; cbn [app].
  rewrite (Hm _ _ _ _ Ea). by eapply Hf.
Qed.
#[export] Hint Resolve silent_ret silent_lift silent_bind : go.

(** Case analysis on a step written with [ret], [lift], [bind] and matches. *)
Ltac silence :=
  repeat match goal with
  | |- silent (bind _ _) => apply silent_bind; [|intros]
  | |- silent (ret _) => apply silent_ret
  | |- silent (lift _) => apply silent_lift
  | |- silent (match ?x with _ => _ end) => destruct x
  | H : _ |- silent _ => solve [apply H]
  end.

Section Silence.
Context `{CelEngine} `{ActivityLib} `{AuditIO} `{RateLib} {W : Type} `{ReindexIO W}.

Lemma publish_attempts_silent p s d n b e : silent (publish_attempts p s d n b e).
Proof.
  revert b e. induction n as [|n IH]; intros b e; cbn [publish_attempts]; silence.
  all: intros w r l w'; destruct (js_publish s d w) as [o w1]; intros [= <- <- <-]; done.
Qed.

Lemma PublishActivities_silent p acts : silent (PublishActivities p acts).
Proof.
  induction acts as [|a acts IH]; cbn [PublishActivities]; silence.
  unfold publishWithRetry. silence. apply publish_attempts_silent.
Qed.

Lemma process_loop_silent {B} (OnProgress : option (Progress -> W -> W)) what
    (fetch : string -> M W (res (list B * string))) evaluate publisher opts fuel cur n p rl :
  (forall c, silent (fetch c)) ->
  silent (process_loop OnProgress what fetch evaluate publisher opts fuel cur n p rl).
Proof.
  intros Hf. revert cur n p rl. induction fuel as [|fuel IH]; intros cur n p rl; cbn [process_loop]; silence.
  all: try apply PublishActivities_silent.
  all: unfold report, Wait; try destruct OnProgress; silence.
  all: intros ? ? ? ? [= <- <- <-]; done.
Qed.

Lemma Run_silent (OnProgress : option (Progress -> W -> W)) rk rr grow opts fuel :
  silent (Run OnProgress rk rr grow opts fuel).
Proof.
  unfold Run, fetchActivePolicies, processAuditLogs, processEvents. silence.
  all: apply process_loop_silent; intros cur; unfold fetchAuditLogBatch, fetchEventBatch; silence.
Qed.
End Silence.

(** The end of a step whose result is known. *)
Ltac ret_eq H := unfold ret in H; simplify_eq.

Section WorkerLemmas.
Context `{CelEngine} `{ActivityLib} `{AuditIO} `{RateLib} `{ConditionLib} {W : Type} `{ReindexIO W} `{WorkerIO W}.

(** [updateJobPhase] writes its phase at most once, and reports the outcome. *)
Lemma updateJobPhase_log job phase msg w r l w' :
  updateJobPhase job phase msg w = (r, l, w') ->
  publishes l = [] /\ acked l = []
  /\ (phase_writes l = [(phase, r)] \/ (phase_writes l = [] /\ r <> None)).
Proof.
  unfold updateJobPhase. intros Hr. run_step Hr as g lg wg Eg. destruct g as [e|latest].
  { run_ret Hr. auto. }
  run_step Hr as now ln wn En. destruct (update_ReindexJob_status _ wn) as [o w2].
  injection Hr as <- <- <-. auto.
Qed.

(** The last writes of a worker: what it returns, and the phases it wrote. *)
Definition ends_as (out : option error) (l : list action) : Prop :=
  match out with
  | None => phase_writes l = [] \/ exists r, phase_writes l = [(ReindexJobSucceeded, r)]
  | Some _ => phase_writes l = [] \/ exists r, phase_writes l = [(ReindexJobFailed, r)]
  end.

Lemma finish_job_log job dry e w out l w' :
  finish_job job dry e w = (out, l, w') ->
  ends_as out l /\ acked l = [] /\ (out = None <-> e = None).
Proof.
  unfold finish_job. destruct e as [e|]; intros Hr.
  - run_step Hr as u lu wu Eu. run_ret Hr. apply updateJobPhase_log in Eu as (_ & Ha & Hp).
    rewrite app_nil_r. cbn. split_and!; [|done|done]. destruct Hp as [Hp|[Hp _]]; eauto.
  - run_step Hr as g lg wg Eg. destruct g as [e|final]; [run_ret Hr; cbn; auto|].
    run_step Hr as u lu wu Eu. run_ret Hr. apply updateJobPhase_log in Eu as (_ & Ha & Hp).
    cbn [app]. rewrite app_nil_r. cbn. split_and!; [|done|done]. destruct Hp as [Hp|[Hp _]]; eauto.
Qed.

(** The run behind an outcome: the one of the job's spec, over a range that
    parses and is not beyond the retention window. *)
Definition ran (grow : nat -> nat) (job : ReindexJob) (fuel : nat) (l : list action) (p : Progress) : Prop :=
  exists rk rr now s e w1 lr w2,
    ParseFlexibleTime (tr_StartTime (TimeRange (rj_Spec job))) now = Ok s
    /\ ParseFlexibleTime (endTime_text (TimeRange (rj_Spec job))) now = Ok e
    /\ Run (Some (fun p w => snd (updateJobProgress (rj_Name job) p w))) rk rr grow
         (reindex_options (rj_Spec job) s e) fuel w1 = (Some (Ok p), lr, w2)
    /\ acked l = acked lr.

Lemma run_job_log grow job fuel w out l w' :
  run_job grow job fuel w = (Some out, l, w') ->
  ends_as out l /\ (out = None -> exists p, ran grow job fuel l p).
Proof.
  unfold run_job. remember (Some out) as o eqn:Ho. intros Hr. run_step Hr as m lm wm Em. destruct m as [e|[rk rr]].
  { ret_eq Hr. split; [by left|done]. }
  run_step Hr as now ln wn En. cbn [app].
  assert (forall msg e l o w1 w2,
    (let! _ := updateJobPhase (rj_Name job) ReindexJobFailed msg in ret (Some (Some e))) w1 = (o, l, w2) ->
    o = Some out -> ends_as out l /\ (out = None -> exists p, ran grow job fuel l p)) as Hfail.
  { clear. intros msg e l o w1 w2 Hr Ho. run_step Hr as u lu wu Eu. apply updateJobPhase_log in Eu as (_ & _ & Hp).
    ret_eq Hr. rewrite app_nil_r. split; [|done]. cbn.
    destruct Hp as [Hp|[Hp _]]; eauto. }
  destruct (ParseFlexibleTime (tr_StartTime _) now) as [s|e|s] eqn:Es; [|by eapply Hfail|ret_eq Hr; split; [by left|done]].
  destruct (ParseFlexibleTime (endTime_text _) now) as [e|e|e] eqn:Ee; [|by eapply Hfail|ret_eq Hr; split; [by left|done]].
  run_step Hr as now' ln wn' En'. cbn [app].
  destruct (retentionWindow <? _)%Z; [by eapply Hfail|].
  run_step Hr as r lr wr Erun. pose proof (Run_silent _ _ _ _ _ _ _ _ _ _ Erun) as Hsil.
  destruct r as [[p|e'|s']|]; [| |ret_eq Hr; rewrite app_nil_r; unfold ends_as; rewrite Hsil; split; [by left|done]|by ret_eq Hr].
  all: run_step Hr as f lf wf Ef; apply finish_job_log in Ef as (Hend & Ha & Hout);
    ret_eq Hr; rewrite app_nil_r.
  - split.
    + unfold ends_as in *. by rewrite phase_writes_app, Hsil.
    + intros _. exists p. unfold ran. rewrite acked_app, Ha, app_nil_r. eauto 12.
  - split; [unfold ends_as in *; by rewrite phase_writes_app, Hsil|]. intros ->. by discriminate (proj1 Hout eq_refl).
Qed.
End WorkerLemmas.

(** Concrete surroundings: the job object and a countdown of the status writes
    that succeed. *)
Module ToyWorker.
Definition job : ReindexJob := {|
  rj_Name := "j"; rj_Generation := 1%Z; rj_DeletionTimestamp := None;
  rj_Spec := {| TimeRange := {| tr_StartTime := "1970-01-01T00:00:00Z"; tr_EndTime := "" |};
                PolicySelector := None;
                Config := Some {| rc_BatchSize := 2%Z; rc_RateLimit := 0%Z; rc_DryRun := false |};
                TTLSecondsAfterFinished := None |};
  rj_Status := {| Phase := ""; Message := ""; st_Progress := None; StartedAt := None; CompletedAt := None;
                  st_Conditions := [] |} |}.
Definition world (down : bool) : ReindexIO ReindexJob := {|
  ctx_done w := (None, w); ctx_after _ w := (None, w); time_Now w := (of_unix_nano 9000000000, w);
  js_publish _ _ w := (if down then Some (Ext "no responders") else None, w);
  list_policies w := (inr [ToyPolicies.mk "A"], w);
  create_AuditLogQuery s w := (ToyReindex.qa s, w); create_EventQuery s w := (ToyReindex.qe s, w) |}.
(** The mapper is built, or not. *)
Definition io (mapper : bool) : WorkerIO ReindexJob := {|
  apply_logging w := (None, w); new_client _ w := (None, w); nats_connect _ w := (None, w);
  new_rest_mapper w := (if mapper then inr (ToyAudit.kinds, fun _ _ => inr "deployments")
                        else inl (Ext "discovery failed"), w);
  get_ReindexJob _ w := (inr w, w); update_ReindexJob_status j _ := (None, j) |}.
(** The new condition first, the others kept. *)
Definition conditions : ConditionLib := {|
  SetStatusCondition _ cs c := c :: List.filter (fun x => negb (cn_Type x =? cn_Type c)%string) cs |}.
Definition laws : @ConditionLaws conditions.
Proof.
  constructor. intros now cs c. exists c. cbn. by rewrite String.eqb_refl.
Defined.
Definition options : ReindexWorkerOptions := {| JobName := "j"; Kubeconfig := ""; NATSURL := "nats://n" |}.
Definition run (down mapper : bool) : option (option error) * list action * ReindexJob :=
  @RunReindexWorker ToyCel.toy ToyLib.toy ToyAudit.io ToyReindex.rates conditions ReindexJob (world down)
    (io mapper) ToyPolicies.double options 3 job.
End ToyWorker.

Example toy_worker :
  let '(out, l, j) := ToyWorker.run false true in
  out = Some None /\ map fst (phase_writes l) = ["Running"; "Succeeded"]
  /\ Message (rj_Status j) = "Completed: 4 activities generated".
Proof. vm_compute. done. Qed.

(** When the REST mapper cannot be built, the worker fails but the job stays
    [Running]: no final phase is written. *)
Lemma mapper_failure_leaves_running :
  let '(out, l, j) := ToyWorker.run false false in
  (exists e, out = Some (Some e)) /\ map fst (phase_writes l) = ["Running"]
  /\ Phase (rj_Status j) = ReindexJobRunning.
Proof. vm_compute. split; [eauto|done]. Qed.

(* ------------------------------------------------------------------ *)
(** ** Properties *)

(** C11: the phases of a ReindexJob written by its worker: [Running] first, and
    after it at most one final phase - [Succeeded] only when the worker returns
    no error, [Failed] only when it returns one.  A worker that returns no error
    has run the reindexer to the end on the job's own range and options, every
    acknowledged message is one of that run, and the time range lies in the
    past of a clock reading of the worker. *)
Theorem worker_phases `{CelEngine} `{ActivityLib} `{AuditIO} `{RateLib} `{ConditionLib} {W} `{ReindexIO W}
    `{WorkerIO W} (grow : nat -> nat) (options : ReindexWorkerOptions) (fuel : nat) (w w' : W)
    (out : option error) (l : list action) :
  RunReindexWorker grow options fuel w = (Some out, l, w') ->
  match out with
  | Some _ => phase_writes l = [] \/ (exists r, phase_writes l = [(ReindexJobRunning, r)])
              \/ exists r, phase_writes l = [(ReindexJobRunning, None); (ReindexJobFailed, r)]
  | None => (phase_writes l = [(ReindexJobRunning, None)]
             \/ exists r, phase_writes l = [(ReindexJobRunning, None); (ReindexJobSucceeded, r)])
            /\ exists job p, ran grow job fuel l p
  end.
Proof.
  unfold RunReindexWorker. remember (Some out) as o eqn:Ho. intros Hr. run_step Hr as a la wa Ea. destruct a; [ret_eq Hr; cbn; auto|].
  destruct (NATSURL options =? "")%string; [ret_eq Hr; cbn; auto|].
  destruct (JobName options =? "")%string; [ret_eq Hr; cbn; auto|].
  run_step Hr as b lb wb Eb. destruct b; [ret_eq Hr; cbn; auto|].
  run_step Hr as g lg wg Eg. destruct g as [|job]; [ret_eq Hr; cbn; auto|].
  run_step Hr as c lc wc Ec. destruct c; [ret_eq Hr; cbn; auto|].
  run_step Hr as u lu wu Eu. apply updateJobPhase_log in Eu as (_ & Ha & Hp). cbn [app].
  destruct u as [e|].
  { ret_eq Hr. rewrite app_nil_r. destruct Hp as [->|[-> _]]; eauto. }
  destruct Hp as [Hp|[_ []]]; [|done]. rewrite Ho in Hr. apply run_job_log in Hr as [Hend Hran].
  rewrite phase_writes_app, Hp. destruct out as [e|].
  - destruct Hend as [->|[r ->]]; cbn; eauto.
  - split; [destruct Hend as [->|[r ->]]; cbn; eauto|].
    destruct (Hran eq_refl) as (p & Hp'). exists job, p. unfold ran in *. by rewrite acked_app, Ha.
Qed.

Lemma worker_phases_witness :
  exists job p, @ran ToyCel.toy ToyLib.toy ToyAudit.io ToyReindex.rates ReindexJob (ToyWorker.world false)
    (ToyWorker.io true) ToyPolicies.double job 3 (snd (fst (ToyWorker.run false true))) p.
Proof.
  apply (@worker_phases ToyCel.toy ToyLib.toy ToyAudit.io ToyReindex.rates ToyWorker.conditions ReindexJob
    (ToyWorker.world false) (ToyWorker.io true) ToyPolicies.double ToyWorker.options 3 ToyWorker.job
    (snd (ToyWorker.run false true)) None (snd (fst (ToyWorker.run false true)))).
  vm_compute. reflexivity.
Defined.
