(* ===== verification/JobController.v ===== *)
(** * internal/controller: the ReindexJob controller

    [Reconcile] of [reindexjob_controller.go] - phases, the concurrency check,
    time-to-live, the Kubernetes Job of a ReindexJob - and the merge of the Job
    template of [jobtemplate.go].  The two clusters are a state [W] behind the
    calls of the API clients; what the controller changes is returned as a list
    of commands. *)

From Stdlib Require Import Ascii String.
From stdpp Require Import base numbers list strings gmap pretty.
From Stdlib Require Import ZArith Lia.
From S2P Require Import Prelude GoLib Types TimeUtil ReindexJob.

(** ** batch/v1 and core/v1: the fields the controller sets or reads *)

(** Resource names to quantities, kept as their text. *)
Abbreviation ResourceList := (gmap string string).

Record Container := {
  ct_Name : string; ct_Image : string; ct_Args : list string;
  ct_Limits : option ResourceList; ct_Requests : option ResourceList;
  ct_SecurityContext : string; ct_other : string }.
Record PodSpec := {
  RestartPolicy : string; ServiceAccountName : string; pod_SecurityContext : string;
  Containers : list Container; pod_other : string }.
(** [None] labels: a nil map. *)
Record PodTemplateSpec := {
  pt_Labels : option (gmap string string); pt_Annotations : option (gmap string string); pt_Spec : PodSpec }.

Record JobStatus := { CompletionTime : option time; Succeeded : Z; Failed : Z (* int32 *) }.
Record Job := {
  j_Name : string; j_Namespace : string; j_Labels : gmap string string;
  BackoffLimit : Z; j_TTLSecondsAfterFinished : Z; j_Template : PodTemplateSpec; j_Status : JobStatus }.

Definition no_status : JobStatus := {| CompletionTime := None; Succeeded := 0; Failed := 0 |}.

(** ** jobtemplate.go *)

Definition ReindexContainerName : string := "reindex".
Definition RestartPolicyOnFailure : string := "OnFailure".

(** The security contexts the code builds, as text. *)
Definition pod_security : string :=
  "runAsNonRoot=true,runAsUser=65532,runAsGroup=65532,fsGroup=65532,seccompProfile=RuntimeDefault".
Definition container_security : string :=
  "allowPrivilegeEscalation=false,readOnlyRootFilesystem=true,runAsNonRoot=true,drop=ALL".

Definition reindex_container : Container := {|
  ct_Name := ReindexContainerName; ct_Image := ""; ct_Args := []; ct_Limits := None; ct_Requests := None;
  ct_SecurityContext := container_security; ct_other := "" |}.

Definition DefaultJobTemplate : PodTemplateSpec := {|
  pt_Labels := None; pt_Annotations := None;
  pt_Spec := {| RestartPolicy := RestartPolicyOnFailure; ServiceAccountName := "";
                pod_SecurityContext := pod_security; Containers := [reindex_container]; pod_other := "" |} |}.

Record JobBuildOptions := {
  ReindexJobName : string; JobNamespace : string; ActivityImage : string; ControllerArgs : list string;
  Limits : ResourceList; Requests : ResourceList; opt_ServiceAccountName : string }.

(** [findOrCreateReindexContainer] and the writes through the pointer it
    returns: the first container of that name, or a new one at the end. *)
Fixpoint update_reindex (f : Container -> Container) (cs : list Container) : list Container :=
  match cs with
  | [] => [f reindex_container]
  | c :: rest => if (ct_Name c =? ReindexContainerName)%string then f c :: rest else c :: update_reindex f rest
  end.

(** [for k, v := range add { m[k] = v }], into a map made when nil. *)
Definition merge_resources (m : option ResourceList) (add : ResourceList) : ResourceList :=
  add ∪ default ∅ m.

Definition configure_container (opts : JobBuildOptions) (c : Container) : Container :=
  let provided := negb (bool_decide (Limits opts = ∅) && bool_decide (Requests opts = ∅)) in
  {| ct_Name := ct_Name c; ct_Image := ActivityImage opts; ct_Args := ct_Args c ++ ControllerArgs opts;
     ct_Limits := if provided then Some (merge_resources (ct_Limits c) (Limits opts)) else ct_Limits c;
     ct_Requests := if provided then Some (merge_resources (ct_Requests c) (Requests opts)) else ct_Requests c;
     ct_SecurityContext := ct_SecurityContext c; ct_other := ct_other c |}.

Definition controller_labels (name : string) : gmap string string :=
  <["app" := "activity-reindex"]> (<["reindex.activity.miloapis.com/job" := name]> ∅).

Definition job_name (name : string) : string := name +:+ "-job".

Definition MergeJobTemplate (template : PodTemplateSpec) (opts : JobBuildOptions) : Job :=
  let podSpec := pt_Spec template in
  let labels := controller_labels (ReindexJobName opts) ∪ default ∅ (pt_Labels template) in
  let spec := {|
    RestartPolicy := if (RestartPolicy podSpec =? "")%string then RestartPolicyOnFailure else RestartPolicy podSpec;
    ServiceAccountName := if (opt_ServiceAccountName opts =? "")%string then ServiceAccountName podSpec
                          else opt_ServiceAccountName opts;
    pod_SecurityContext := pod_SecurityContext podSpec;
    Containers := update_reindex (configure_container opts) (Containers podSpec);
    pod_other := pod_other podSpec |} in
  {| j_Name := job_name (ReindexJobName opts); j_Namespace := JobNamespace opts; j_Labels := labels;
     BackoffLimit := 3; j_TTLSecondsAfterFinished := 300;
     j_Template := {| pt_Labels := Some labels; pt_Annotations := None; pt_Spec := spec |};
     j_Status := no_status |}.

(** [LoadJobTemplate]: the ConfigMap's data as fetched, and the YAML decoder. *)
Definition JobTemplateConfigMapKey : string := "template.yaml".
Definition LoadJobTemplate (yaml_Unmarshal : string -> error + PodTemplateSpec)
    (cm : error + gmap string string) (namespace name : string) : res PodTemplateSpec :=
  let place := namespace +:+ "/" +:+ name in
  let? data := wrap_err (of_sum cm)
    (fun e => Errorf [PStr "failed to get job template ConfigMap "; PStr place; PStr ": "; PWrap e]) in
  match data !! JobTemplateConfigMapKey with
  | None => Err (Errorf [PStr "ConfigMap "; PStr place; PStr " does not contain key "; PStr "template.yaml"])
  | Some text =>
      wrap_err (of_sum (yaml_Unmarshal text))
        (fun e => Errorf [PStr "failed to parse job template from ConfigMap "; PStr place; PStr ": "; PWrap e])
  end.

(** ** reindexjob_controller.go *)

Record Reconciler := {
  r_JobNamespace : string; r_ActivityImage : string; ReindexServiceAccount : string;
  ReindexMemoryLimit : string; ReindexCPULimit : string; MaxConcurrentJobs : Z;
  JobTemplate : option PodTemplateSpec;
  r_NATSURL : string; NATSTLSEnabled : bool; NATSTLSCertFile : string; NATSTLSKeyFile : string;
  NATSTLSCAFile : string }.

(** [ctrl.Result]: [RequeueAfter]. *)
Definition Result : Type := Z.
Definition done_ : Result := 0%Z.

(** What a reconciliation changes. *)
Inductive command :=
| CStatus (job : ReindexJob) (r : option error)
| CDelete (name : string) (r : option error)
| CCreateJob (job : Job) (r : option error)
| CDeleteJob (name : string) (r : option error)
| CEvent (reason message : string).

(** The API clients of the two clusters, and the clock.  [list_Jobs] lists the
    jobs of the namespace labelled [app=activity-reindex]. *)
Class ClusterIO (W : Type) := {
  IsNotFound : error -> bool;
  clock_Now : W -> time * W;
  get_rj : string -> W -> (error + ReindexJob) * W;
  update_rj_status : ReindexJob -> W -> option error * W;
  delete_rj : string -> W -> option error * W;
  get_Job : string -> W -> (error + Job) * W;
  list_Jobs : W -> (error + list Job) * W;
  create_Job : Job -> W -> option error * W;
  delete_Job : string -> W -> option error * W;
  MustParse : string -> option string  (* the quantity; None: it panics *) }.

(** A step of the controller: result, commands, world. *)
Definition C (W A : Type) : Type := W -> A * list command * W.
Definition cret {W A} (a : A) : C W A := fun w => (a, [], w).
Definition cbind {W A B} (m : C W A) (f : A -> C W B) : C W B :=
  fun w => let '(a, l, w1) := m w in let '(b, l', w2) := f a w1 in (b, l ++ l', w2).
Definition cask {W A} (f : W -> A * W) : C W A := fun w => let (a, w') := f w in (a, [], w').
Definition cdo {W} (f : W -> option error * W) (c : option error -> command) : C W (option error) :=
  fun w => let (r, w') := f w in (r, [c r], w').
Definition cevent {W} (reason message : string) : C W unit := fun w => (tt, [CEvent reason message], w).
Notation "'do!' x ':=' m 'in' k" := (cbind m (fun x => k))
  (at level 10, x pattern, m at level 100, k at level 200) : go_scope.

Section Controller.
Context `{ConditionLib} {W : Type} `{ClusterIO W} (r : Reconciler).

Definition zero_Job : Job := {|
  j_Name := ""; j_Namespace := ""; j_Labels := ∅; BackoffLimit := 0; j_TTLSecondsAfterFinished := 0;
  j_Template := {| pt_Labels := None; pt_Annotations := None;
                   pt_Spec := {| RestartPolicy := ""; ServiceAccountName := ""; pod_SecurityContext := "";
                                 Containers := []; pod_other := "" |} |};
  j_Status := no_status |}.

(** [getJobForReindexJob]: the address of a Job is returned in every case. *)
Definition getJobForReindexJob (job : ReindexJob) : C W (Job * option error) :=
  do! g := cask (get_Job (job_name (rj_Name job))) in
  match g with
  | inl e => cret (zero_Job, Some e)
  | inr j => cret (j, None)
  end.

Definition unfinished (j : Job) : bool :=
  match CompletionTime (j_Status j) with None => true | Some _ => false end.

Definition countRunningJobs : C W (error + Z) :=
  do! l := cask list_Jobs in
  match l with
  | inl e => cret (inl e)
  | inr items => cret (inr (Z.of_nat (length (List.filter unfinished items))))
  end.

Definition controller_args (job : ReindexJob) : list string :=
  let opt flag v := if (v =? "")%string then [] else [flag +:+ v] in
  ["reindex-worker"; rj_Name job; "--nats-url=" +:+ r_NATSURL r; "--logging-format=json"]
  ++ (if NATSTLSEnabled r then
        ["--nats-tls-enabled=true"] ++ opt "--nats-tls-cert-file=" (NATSTLSCertFile r)
        ++ opt "--nats-tls-key-file=" (NATSTLSKeyFile r) ++ opt "--nats-tls-ca-file=" (NATSTLSCAFile r)
      else []).

(** A bad quantity in the flags is a panic. *)
Definition buildJobForReindexJob (job : ReindexJob) : res Job :=
  let parse q := match MustParse q with
                 | Some q => Ok (Some q)
                 | None => Panic "cannot parse quantity"
                 end in
  let? mem := (if (ReindexMemoryLimit r =? "")%string then Ok None else parse (ReindexMemoryLimit r)) in
  let? cpu := (if (ReindexCPULimit r =? "")%string then Ok None else parse (ReindexCPULimit r)) in
  let set k (q : option string) (m : ResourceList) := match q with Some q => <[k := q]> m | None => m end in
  Ok (MergeJobTemplate (default DefaultJobTemplate (JobTemplate r))
        {| ReindexJobName := rj_Name job; JobNamespace := r_JobNamespace r; ActivityImage := r_ActivityImage r;
           ControllerArgs := controller_args job;
           Limits := set "cpu" cpu (set "memory" mem ∅); Requests := set "memory" mem ∅;
           opt_ServiceAccountName := ReindexServiceAccount r |}).

(** [int32] seconds as a [time.Duration]. *)
Definition ttl_of (seconds : Z) : Z := (seconds * Second)%Z.

Definition handleTTLCleanup (job : ReindexJob) : C W (res Result) :=
  match TTLSecondsAfterFinished (rj_Spec job), CompletedAt (rj_Status job) with
  | None, _ | _, None => cret (Ok done_)
  | Some ttl, Some completedAt =>
      let expirationTime := GoLib.Add completedAt (ttl_of ttl) in
      do! now := cask clock_Now in
      if (now <? expirationTime)%Z then
        let remainingTTL := since expirationTime now in
        cret (Ok (if (remainingTTL <? Second)%Z then Second else remainingTTL))
      else
        do! _ := cevent "TTLExpired" ("ReindexJob deleted after " +:+ pretty ttl +:+ " seconds TTL") in
        do! e := cdo (delete_rj (rj_Name job)) (CDelete (rj_Name job)) in
        match e with Some e => cret (Err e) | None => cret (Ok done_) end
  end.

(** A Ready condition that is not true. *)
Definition not_ready (job : ReindexJob) (reason message : string) : Condition := {|
  cn_Type := "Ready"; cn_Status := "False"; cn_Reason := reason; cn_Message := message;
  cn_ObservedGeneration := rj_Generation job; cn_LastTransitionTime := 0%Z |}.

Definition started_status (now : time) (job : ReindexJob) : ReindexJobStatus :=
  let s := rj_Status job in
  {| Phase := ReindexJobRunning; Message := "Job created, waiting for execution";
     st_Progress := st_Progress s; StartedAt := Some now; CompletedAt := CompletedAt s;
     st_Conditions := SetStatusCondition now (st_Conditions s)
                        (not_ready job "InProgress" "Re-indexing in progress") |}.
Definition queued_status (now : time) (message : string) (job : ReindexJob) : ReindexJobStatus :=
  let s := rj_Status job in
  {| Phase := ReindexJobPending; Message := message; st_Progress := st_Progress s; StartedAt := StartedAt s;
     CompletedAt := CompletedAt s;
     st_Conditions := SetStatusCondition now (st_Conditions s) (not_ready job "Pending" message) |}.

Definition startJob (job : ReindexJob) : C W (res Result) :=
  match buildJobForReindexJob job with
  | Err e => cret (Err e)
  | Panic s => cret (Panic s)
  | Ok k8sJob =>
      do! e := cdo (create_Job k8sJob) (CCreateJob k8sJob) in
      match e with
      | Some e => cret (Err e)
      | None =>
          do! now := cask clock_Now in
          let job := with_status job (started_status now job) in
          do! e := cdo (update_rj_status job) (CStatus job) in
          match e with
          | Some e => cret (Err e)
          | None =>
              let range := TimeRange (rj_Spec job) in
              do! _ := cevent "Started" ("Started re-indexing from " +:+ tr_StartTime range +:+ " to "
                                         +:+ endTime_text range) in
              cret (Ok (5 * Second)%Z)
          end
      end
  end.

(** [checkJobStatus]; the Job's address is never nil here.  Metrics apart, a
    completed Job changes nothing. *)
Definition checkJobStatus (job : Job) : C W (res Result) :=
  match CompletionTime (j_Status job) with
  | Some _ => cret (Ok done_)
  | None => cret (Ok (5 * Second)%Z)
  end.

Definition handleDeletion (job : ReindexJob) : C W (res Result) :=
  do! g := getJobForReindexJob job in
  match g with
  | (j, None) =>
      do! e := cdo (delete_Job (j_Name j)) (CDeleteJob (j_Name j)) in
      match e with
      | Some e => if IsNotFound e then cret (Ok done_) else cret (Err e)
      | None => cret (Ok done_)
      end
  | (_, Some _) => cret (Ok done_)
  end.

(** Queueing a job that must wait. *)
Definition queueJob (job : ReindexJob) (runningCount : Z) : C W (res Result) :=
  if negb (Phase (rj_Status job) =? ReindexJobPending)%string then
    let message := "Waiting for slot (running: " +:+ pretty runningCount +:+ "/" +:+ pretty (MaxConcurrentJobs r) +:+ ")" in
    do! now := cask clock_Now in
    let job := with_status job (queued_status now message job) in
    do! e := cdo (update_rj_status job) (CStatus job) in
    match e with
    | Some e => cret (Err e)
    | None => do! _ := cevent "Queued" message in cret (Ok (30 * Second)%Z)
    end
  else cret (Ok (30 * Second)%Z).

Definition terminal (phase : string) : bool :=
  ((phase =? ReindexJobSucceeded) || (phase =? ReindexJobFailed))%string%bool.

(** What follows the fetch of the job. *)
Definition reconcile_job (job : ReindexJob) : C W (res Result) :=
  match rj_DeletionTimestamp job with
  | Some _ => handleDeletion job
  | None =>
      if terminal (Phase (rj_Status job)) then handleTTLCleanup job
      else
        do! n := countRunningJobs in
        match n with
        | inl e => cret (Err e)
        | inr runningCount =>
            do! g := getJobForReindexJob job in
            let (existingJob, err) := g in
            let failed := match err with Some e => negb (IsNotFound e) | None => false end in
            match err, failed with
            | Some e, true => cret (Err e)
            | _, _ =>
                let isRunning := unfinished existingJob in
                if ((MaxConcurrentJobs r <=? runningCount)%Z && negb isRunning)%bool
                then queueJob job runningCount
                else
                  let phase := Phase (rj_Status job) in
                  if ((phase =? "") || (phase =? ReindexJobPending))%string%bool then startJob job
                  else if (phase =? ReindexJobRunning)%string then checkJobStatus existingJob
                  else cret (Ok done_)
            end
        end
  end.

Definition Reconcile (name : string) : C W (res Result) :=
  do! g := cask (get_rj name) in
  match g with
  | inl e => if IsNotFound e then cret (Ok done_) else cret (Err e)
  | inr job => reconcile_job job
  end.
End Controller.

(* ------------------------------------------------------------------ *)
(** ** Specification *)

(** A well-formed status: a known phase, with the times that go with it and a
    Ready condition that is true exactly for [Succeeded]. *)
Definition phases : list string := [ReindexJobPending; ReindexJobRunning; ReindexJobSucceeded; ReindexJobFailed].
Definition wf_status (s : ReindexJobStatus) : Prop :=
  Phase s = ""
  \/ (Phase s ∈ phases
      /\ (Phase s = ReindexJobRunning -> StartedAt s <> None)
      /\ (terminal (Phase s) = true -> CompletedAt s <> None)
      /\ exists c, List.find (fun x => (cn_Type x =? "Ready")%string) (st_Conditions s) = Some c
           /\ cn_Status c = (if (Phase s =? ReindexJobSucceeded)%string then "True" else "False")).

Section Spec.
Context `{ConditionLib} {W : Type} `{ClusterIO W} (r : Reconciler).

(** The job with a phase marked at [now]: its message, start time and Ready
    condition (not true), everything else as it was. *)
Definition marked (job : ReindexJob) (now : time) (phase message : string) (start : option time)
    (reason condition : string) : ReindexJob :=
  with_status job {|
    Phase := phase; Message := message; st_Progress := st_Progress (rj_Status job); StartedAt := start;
    CompletedAt := CompletedAt (rj_Status job);
    st_Conditions := SetStatusCondition now (st_Conditions (rj_Status job)) (not_ready job reason condition) |}.

(** Neither being deleted nor finished. *)
Definition active (job : ReindexJob) : Prop :=
  rj_DeletionTimestamp job = None /\ terminal (Phase (rj_Status job)) = false.

(** The clock as it reads in [w], and the time a finished job expires. *)
Definition now_in (w : W) : time := fst (clock_Now w).
Definition expiry (job : ReindexJob) (t : time) : Prop :=
  exists ttl completedAt, TTLSecondsAfterFinished (rj_Spec job) = Some ttl
    /\ CompletedAt (rj_Status job) = Some completedAt /\ t = (completedAt + ttl * Second)%Z.

(** How many of the Jobs have no completion time. *)
Definition uncompleted (items : list Job) : Z :=
  Z.of_nat (length (List.filter (fun j => match CompletionTime (j_Status j) with None => true | Some _ => false end) items)).

(** What the decision about an active job is taken on: how many Jobs have not
    completed, the job's own Job when there is one, and the world after the two
    reads. *)
Inductive observed (job : ReindexJob) (w : W) : Z -> option Job -> W -> Prop :=
| O_found items w1 j w2 :
    list_Jobs w = (inr items, w1) -> get_Job (job_name (rj_Name job)) w1 = (inr j, w2) ->
    observed job w (uncompleted items) (Some j) w2
| O_missing items w1 e w2 :
    list_Jobs w = (inr items, w1) -> get_Job (job_name (rj_Name job)) w1 = (inl e, w2) -> IsNotFound e = true ->
    observed job w (uncompleted items) None w2.

(** The limit holds a job back only when its own Job exists and has completed:
    a job without a Job counts as running (see [limit_not_enforced]). *)
Definition held_back (running : Z) (own : option Job) : Prop :=
  (MaxConcurrentJobs r <= running)%Z /\ exists j t, own = Some j /\ CompletionTime (j_Status j) = Some t.

(** Starting a job: one Job is created, then the job is marked [Running] at the
    time the Job was created; what fails ends the start. *)
Inductive started (job : ReindexJob) (k8sJob : Job) (w : W) : res Result -> list command -> Prop :=
| S_create_failed e :
    fst (create_Job k8sJob w) = Some e -> started job k8sJob w (Err e) [CCreateJob k8sJob (Some e)]
| S_marked w1 now w2 :
    create_Job k8sJob w = (None, w1) -> clock_Now w1 = (now, w2) ->
    let job' := marked job now ReindexJobRunning "Job created, waiting for execution" (Some now)
                  "InProgress" "Re-indexing in progress" in
    let e := fst (update_rj_status job' w2) in
    let range := TimeRange (rj_Spec job) in
    started job k8sJob w
      (match e with Some e => Err e | None => Ok (5 * Second)%Z end)
      (CCreateJob k8sJob None :: CStatus job' e
       :: match e with
          | Some _ => []
          | None => [CEvent "Started" ("Started re-indexing from " +:+ tr_StartTime range +:+ " to "
                                       +:+ endTime_text range)]
          end).

(** What a reconciliation of the job answers and does, the job having been read
    and [w] being the world from then on. *)
Inductive reconciled (job : ReindexJob) (w : W) : res Result -> list command -> Prop :=
(* being deleted *)
| R_gone e :
    rj_DeletionTimestamp job <> None -> fst (get_Job (job_name (rj_Name job)) w) = inl e ->
    reconciled job w (Ok done_) []
| R_cleanup j w1 :
    rj_DeletionTimestamp job <> None -> get_Job (job_name (rj_Name job)) w = (inr j, w1) ->
    let e := fst (delete_Job (j_Name j) w1) in
    reconciled job w
      (match e with Some e => if IsNotFound e then Ok done_ else Err e | None => Ok done_ end)
      [CDeleteJob (j_Name j) e]
(* finished *)
| R_keep :
    rj_DeletionTimestamp job = None -> terminal (Phase (rj_Status job)) = true ->
    TTLSecondsAfterFinished (rj_Spec job) = None \/ CompletedAt (rj_Status job) = None ->
    reconciled job w (Ok done_) []
| R_await t :
    rj_DeletionTimestamp job = None -> terminal (Phase (rj_Status job)) = true ->
    expiry job t -> (now_in w < t)%Z ->
    reconciled job w (Ok (Z.max Second (Z.min int64_max (t - now_in w)))) []
| R_expire t ttl :
    rj_DeletionTimestamp job = None -> terminal (Phase (rj_Status job)) = true ->
    expiry job t -> (t <= now_in w)%Z -> TTLSecondsAfterFinished (rj_Spec job) = Some ttl ->
    let e := fst (delete_rj (rj_Name job) (snd (clock_Now w))) in
    reconciled job w (match e with Some e => Err e | None => Ok done_ end)
      [CEvent "TTLExpired" ("ReindexJob deleted after " +:+ pretty ttl +:+ " seconds TTL");
       CDelete (rj_Name job) e]
(* active *)
| R_list_failed e : active job -> fst (list_Jobs w) = inl e -> reconciled job w (Err e) []
| R_get_failed items w1 e :
    active job -> list_Jobs w = (inr items, w1) -> fst (get_Job (job_name (rj_Name job)) w1) = inl e ->
    IsNotFound e = false -> reconciled job w (Err e) []
| R_queued running own w2 :
    active job -> observed job w running own w2 -> held_back running own ->
    Phase (rj_Status job) = ReindexJobPending -> reconciled job w (Ok (30 * Second)%Z) []
| R_queue running own w2 now w3 :
    active job -> observed job w running own w2 -> held_back running own ->
    Phase (rj_Status job) <> ReindexJobPending -> clock_Now w2 = (now, w3) ->
    let message := "Waiting for slot (running: " +:+ pretty running +:+ "/" +:+ pretty (MaxConcurrentJobs r) +:+ ")" in
    let job' := marked job now ReindexJobPending message (StartedAt (rj_Status job)) "Pending" message in
    let e := fst (update_rj_status job' w3) in
    reconciled job w (match e with Some e => Err e | None => Ok (30 * Second)%Z end)
      (CStatus job' e :: match e with Some _ => [] | None => [CEvent "Queued" message] end)
| R_start running own w2 res l k8sJob :
    active job -> observed job w running own w2 -> ~ held_back running own ->
    Phase (rj_Status job) = "" \/ Phase (rj_Status job) = ReindexJobPending ->
    buildJobForReindexJob r job = Ok k8sJob -> started job k8sJob w2 res l -> reconciled job w res l
| R_unbuilt running own w2 res :
    active job -> observed job w running own w2 -> ~ held_back running own ->
    Phase (rj_Status job) = "" \/ Phase (rj_Status job) = ReindexJobPending ->
    match buildJobForReindexJob r job with
    | Ok _ => False | Err e => res = Err e | Panic m => res = Panic m
    end -> reconciled job w res []
| R_poll running own w2 :
    active job -> observed job w running own w2 -> ~ held_back running own ->
    Phase (rj_Status job) = ReindexJobRunning ->
    reconciled job w
      (Ok match own with
          | Some j => match CompletionTime (j_Status j) with Some _ => done_ | None => (5 * Second)%Z end
          | None => (5 * Second)%Z
          end) []
| R_other running own w2 :
    active job -> observed job w running own w2 -> ~ held_back running own ->
    Phase (rj_Status job) ∉ ["" : string; ReindexJobPending; ReindexJobRunning] ->
    reconciled job w (Ok done_) [].
End Spec.

(* ------------------------------------------------------------------ *)
(** ** Lemmas *)

Lemma cbind_eq {W A B} (m : C W A) (f : A -> C W B) w r :
  cbind m f w = r ->
  exists a l w1 b l' w2, m w = (a, l, w1) /\ f a w1 = (b, l', w2) /\ r = (b, l ++ l', w2).
Proof.
  unfold cbind. destruct (m w) as [[a l] w1] eqn:E. destruct (f a w1) as [[b l'] w2] eqn:E'. naive_solver.
Qed.
Lemma cask_eq {W A} (f : W -> A * W) w a l w' : cask f w = (a, l, w') -> l = [] /\ f w = (a, w').
Proof. unfold cask. destruct (f w). naive_solver. Qed.
Lemma cdo_eq {W} (f : W -> option error * W) c w a l w' :
  cdo f c w = (a, l, w') -> l = [c a] /\ f w = (a, w').
Proof. unfold cdo. destruct (f w). naive_solver. Qed.

Tactic Notation "ctl_step" hyp(H) "as" ident(a) ident(l) ident(w) ident(E) :=
  apply cbind_eq in H as (a & l & w & ? & ? & ? & E & H & [= -> -> ->]);
  first [apply cask_eq in E as [-> E]|apply cdo_eq in E as [-> E]|idtac].
Ltac ctl_ret H := unfold cret in H; injection H as <- <- <-.

Section Lemmas.
Context `{ConditionLib} {W : Type} `{ClusterIO W} (r : Reconciler).

Lemma unfinished_completed j : unfinished j = false -> exists t, CompletionTime (j_Status j) = Some t.
Proof. unfold unfinished. destruct (CompletionTime _); eauto. done. Qed.

Lemma startJob_spec (job : ReindexJob) k8sJob w res l w' :
  buildJobForReindexJob r job = Ok k8sJob -> startJob r job w = (res, l, w') -> started job k8sJob w res l.
Proof.
  intros Eb. unfold startJob. rewrite Eb. intros Hr.
  ctl_step Hr as e le we Ee. destruct e as [e|].
  { ctl_ret Hr. apply S_create_failed. by rewrite Ee. }
  ctl_step Hr as now ln wn En. ctl_step Hr as e le we2 Eu. cbn [app].
  pose proof (S_marked job k8sJob w we now wn Ee En) as Hm. cbv zeta in Hm.
  change (marked job now ReindexJobRunning _ _ _ _) with (with_status job (started_status now job)) in Hm.
  rewrite Eu in Hm. cbn [fst] in Hm. destruct e as [e|]; [by ctl_ret Hr|].
  ctl_step Hr as u lu wu Ev. injection Ev as <- <- <-. by ctl_ret Hr.
Qed.

Lemma queueJob_spec (job : ReindexJob) w running own w2 res l w' :
  active job -> observed job w running own w2 -> held_back r running own ->
  queueJob r job running w2 = (res, l, w') -> reconciled r job w res l.
Proof.
  intros Ha Ho Hh. unfold queueJob.
  destruct (String.eqb_spec (Phase (rj_Status job)) ReindexJobPending) as [|Hne]; cbn [negb]; intros Hr.
  { ctl_ret Hr. by eapply R_queued. }
  ctl_step Hr as now ln wn En. ctl_step Hr as e le we Eu. cbn [app].
  pose proof (R_queue r job w running own w2 now wn Ha Ho Hh Hne En) as Hm. cbv zeta in Hm.
  match type of Hm with context [marked job now ReindexJobPending ?m _ _ _] =>
    change (marked job now ReindexJobPending m _ _ _) with (with_status job (queued_status now m job)) in Hm end.
  rewrite Eu in Hm. cbn [fst] in Hm. destruct e as [e|]; [by ctl_ret Hr|].
  ctl_step Hr as u lu wu Ev. injection Ev as <- <- <-. by ctl_ret Hr.
Qed.

(** The status writes of the controller are well-formed. *)
Lemma wf_ready `{!ConditionLaws} now s cs c (phase : string) :
  cn_Type c = "Ready" -> cn_Status c = (if (phase =? ReindexJobSucceeded)%string then "True" else "False") ->
  phase ∈ phases -> (phase = ReindexJobRunning -> StartedAt s <> None) ->
  (terminal phase = true -> CompletedAt s <> None) ->
  Phase s = phase -> st_Conditions s = SetStatusCondition now cs c -> wf_status s.
Proof.
  intros Ht Hs Hp Hst Hco Hph Hc. right. rewrite Hph. split_and!; try done. rewrite Hc.
  destruct (set_condition_found now cs c) as (c' & Hf & Hstat & _). exists c'. rewrite Ht in Hf.
  split; [exact Hf|]. by rewrite Hstat.
Qed.

Lemma marked_wf `{!ConditionLaws} job now phase m start reason c :
  phase = ReindexJobPending \/ phase = ReindexJobRunning /\ start <> None ->
  wf_status (rj_Status (marked job now phase m start reason c)).
Proof.
  intros Hp. by destruct Hp as [->|[-> Hs]]; eapply (wf_ready now); [..|reflexivity|reflexivity];
    try reflexivity; try (intros; done); set_solver.
Qed.

Lemma started_wf `{!ConditionLaws} job k w res l :
  started job k w res l ->
  Forall (fun c => match c with CStatus j _ => wf_status (rj_Status j) | _ => True end) l.
Proof.
  intros [e _|w1 now w2 _ _ job' e range]; [by repeat constructor|].
  apply Forall_cons. split; [done|]. apply Forall_cons. split; [|by destruct e; repeat constructor].
  apply marked_wf. by right.
Qed.

Lemma reconciled_wf `{!ConditionLaws} job w res l :
  reconciled r job w res l ->
  Forall (fun c => match c with CStatus j _ => wf_status (rj_Status j) | _ => True end) l.
Proof.
  destruct 1; try (repeat constructor; done); [|by eapply started_wf].
  apply Forall_cons. split; [apply marked_wf; by left|]. destruct e; repeat constructor.
Qed.

Lemma handleTTLCleanup_spec (job : ReindexJob) w res l w' :
  rj_DeletionTimestamp job = None -> terminal (Phase (rj_Status job)) = true ->
  handleTTLCleanup job w = (res, l, w') -> reconciled r job w res l.
Proof.
  intros Hd Ht. unfold handleTTLCleanup.
  destruct (TTLSecondsAfterFinished (rj_Spec job)) as [ttl|] eqn:Ettl, (CompletedAt (rj_Status job)) as [c|] eqn:Ec;
    intros Hr; try (ctl_ret Hr; apply R_keep; auto).
  ctl_step Hr as now ln wn En. cbn [app].
  assert (expiry job (GoLib.Add c (ttl_of ttl))) as He by by eexists _, _.
  assert (now_in w = now) as Hnow by (unfold now_in; by rewrite En).
  destruct (Z.ltb_spec now (GoLib.Add c (ttl_of ttl))) as [Hlt|Hge].
  { ctl_ret Hr. rewrite <- Hnow in *. pose proof (R_await r job w _ Hd Ht He Hlt) as Hm.
    replace (if (_ <? Second)%Z then Second else _) with (Z.max Second (Z.min int64_max (GoLib.Add c (ttl_of ttl) - now_in w)));
      [exact Hm|]. unfold since, int64_min. destruct (Z.ltb_spec (Z.max (- 2 ^ 63) (Z.min int64_max (GoLib.Add c (ttl_of ttl) - now_in w))) Second);
      unfold Second, int64_max in *; lia. }
  ctl_step Hr as u lu wu Ev. injection Ev as <- <- <-.
  ctl_step Hr as e le we Ee. rewrite <- Hnow in Hge.
  pose proof (R_expire r job w _ ttl Hd Ht He Hge Ettl) as Hm. cbv zeta in Hm. rewrite En in Hm. cbn [snd] in Hm.
  rewrite Ee in Hm. cbn [fst] in Hm. by destruct e as [e|]; ctl_ret Hr.
Qed.

Lemma handleDeletion_spec (job : ReindexJob) w res l w' :
  rj_DeletionTimestamp job <> None -> handleDeletion job w = (res, l, w') -> reconciled r job w res l.
Proof.
  intros Hd. unfold handleDeletion, getJobForReindexJob. intros Hr.
  ctl_step Hr as g lg wg Eg. ctl_step Eg as j lj wj Ej. destruct j as [e|j].
  { ctl_ret Eg. ctl_ret Hr. apply (R_gone r job w e); [done|by rewrite Ej]. }
  ctl_ret Eg. ctl_step Hr as e le we Ee. pose proof (R_cleanup r job w j wj Hd Ej) as Hm. cbv zeta in Hm.
  rewrite Ee in Hm. cbn [fst] in Hm. destruct e as [e|]; [destruct (IsNotFound e)|]; by ctl_ret Hr.
Qed.

(** What follows the two reads of an active job. *)
Lemma decision_spec (job : ReindexJob) w running own j w2 res l w' :
  active job -> observed job w running own w2 -> j = default zero_Job own ->
  (if ((MaxConcurrentJobs r <=? running)%Z && negb (unfinished j))%bool
   then queueJob r job running
   else if ((Phase (rj_Status job) =? "") || (Phase (rj_Status job) =? ReindexJobPending))%string%bool
        then startJob r job
        else if (Phase (rj_Status job) =? ReindexJobRunning)%string then checkJobStatus j
        else cret (Ok done_)) w2 = (res, l, w') -> reconciled r job w res l.
Proof.
  intros Ha Ho ->. destruct (_ && _)%bool eqn:Eb.
  { apply andb_true_iff in Eb as [Hle%Z.leb_le Hu%negb_true_iff]. intros Hr. eapply queueJob_spec; try done.
    split; [done|]. destruct own as [j|]; [|done]. destruct (unfinished_completed j Hu) as [t Et]. eauto. }
  assert (~ held_back r running own) as Hh.
  { intros (Hle & j & t & -> & Ht). apply andb_false_iff in Eb as [Hf%Z.leb_gt|Hf]; [lia|].
    cbn in Hf. unfold unfinished in Hf. by rewrite Ht in Hf. }
  destruct (_ || _)%bool eqn:Ep.
  - intros Hr. assert (Phase (rj_Status job) = "" \/ Phase (rj_Status job) = ReindexJobPending) as Hp
      by (apply orb_true_iff in Ep as [Ep|Ep]; apply String.eqb_eq in Ep; auto).
    destruct (buildJobForReindexJob r job) as [k|e|m] eqn:Ebuild.
    + eapply R_start; try done. by eapply startJob_spec.
    + unfold startJob in Hr. rewrite Ebuild in Hr. ctl_ret Hr. eapply R_unbuilt; try done. by rewrite Ebuild.
    + unfold startJob in Hr. rewrite Ebuild in Hr. ctl_ret Hr. eapply R_unbuilt; try done. by rewrite Ebuild.
  - apply orb_false_iff in Ep as [E1%String.eqb_neq E2%String.eqb_neq].
    destruct (String.eqb_spec (Phase (rj_Status job)) ReindexJobRunning) as [Er|Er]; intros Hr.
    + pose proof (R_poll r job w running own w2 Ha Ho Hh Er) as Hm. unfold checkJobStatus, unfinished in *.
      destruct own as [j|]; cbn in Hr; [destruct (CompletionTime (j_Status j))|]; by ctl_ret Hr.
    + ctl_ret Hr. eapply R_other; try done. rewrite !elem_of_cons, elem_of_nil. tauto.
Qed.
End Lemmas.

Lemma Reconcile_spec `{ConditionLib} {W} `{ClusterIO W} (r : Reconciler) (name : string) (w w' : W)
    (res : res Result) (l : list command) :
  Reconcile r name w = (res, l, w') ->
  match get_rj name w with
  | (inl e, _) => l = [] /\ res = (if IsNotFound e then Ok done_ else Err e)
  | (inr job, w1) => reconciled r job w1 res l
  end.
Proof.
  unfold Reconcile. intros Hr. ctl_step Hr as g lg wg Eg. rewrite Eg. cbn [app].
  destruct g as [e|job]; [destruct (IsNotFound e); ctl_ret Hr; done|].
  unfold reconcile_job in Hr. destruct (rj_DeletionTimestamp job) eqn:Hd.
  { by eapply handleDeletion_spec; [rewrite Hd|exact Hr]. }
  destruct (terminal (Phase (rj_Status job))) eqn:Ht; [by eapply handleTTLCleanup_spec|].
  unfold countRunningJobs in Hr. ctl_step Hr as n ln wn En. ctl_step En as li ll wl El.
  destruct li as [e|items]; ctl_ret En; [ctl_ret Hr; apply R_list_failed; [done|by rewrite El]|].
  ctl_step Hr as g lg2 wg2 Eg2. unfold getJobForReindexJob in Eg2. ctl_step Eg2 as j lj wj Ej.
  cbn [app]. destruct j as [e|j]; ctl_ret Eg2.
  - destruct (IsNotFound e) eqn:Enf; cbn [negb] in Hr.
    + by eapply (decision_spec r job wg _ None); [..|exact Hr]; [|eapply O_missing|].
    + ctl_ret Hr. eapply (R_get_failed r job wg items wl e); try done. by rewrite Ej.
  - by eapply (decision_spec r job wg _ (Some j)); [..|exact Hr]; [|eapply O_found|].
Qed.

(** Concrete clusters: one ReindexJob and a list of Jobs; the status writes can
    be made to fail. *)
Module ToyCluster.
Record state := { the_rj : option ReindexJob; the_jobs : list Job; clock : time }.
Definition not_found : error := Ext "not found".
Definition io (status_fails : bool) : ClusterIO state := {|
  IsNotFound e := (error_text e =? "not found")%string;
  clock_Now w := (clock w, w);
  get_rj _ w := (match the_rj w with Some j => inr j | None => inl not_found end, w);
  update_rj_status j w := if status_fails then (Some (Ext "conflict"), w)
                          else (None, {| the_rj := Some j; the_jobs := the_jobs w; clock := clock w |});
  delete_rj _ w := (None, {| the_rj := None; the_jobs := the_jobs w; clock := clock w |});
  get_Job n w := (match List.find (fun j => (j_Name j =? n)%string) (the_jobs w) with
                  | Some j => inr j | None => inl not_found end, w);
  list_Jobs w := (inr (the_jobs w), w);
  create_Job j w := match List.find (fun x => (j_Name x =? j_Name j)%string) (the_jobs w) with
                    | Some _ => (Some (Ext "already exists"), w)
                    | None => (None, {| the_rj := the_rj w; the_jobs := j :: the_jobs w; clock := clock w |})
                    end;
  delete_Job n w := (None, {| the_rj := the_rj w;
                              the_jobs := List.filter (fun j => negb (j_Name j =? n)%string) (the_jobs w);
                              clock := clock w |});
  MustParse q := Some q |}.
Definition reconciler : Reconciler := {|
  r_JobNamespace := "ns"; r_ActivityImage := "img"; ReindexServiceAccount := "sa"; ReindexMemoryLimit := "2Gi";
  ReindexCPULimit := ""; MaxConcurrentJobs := 1; JobTemplate := None; r_NATSURL := "nats://n";
  NATSTLSEnabled := false; NATSTLSCertFile := ""; NATSTLSKeyFile := ""; NATSTLSCAFile := "" |}.
Definition rj (phase : string) (ttl completed : option Z) : ReindexJob := {|
  rj_Name := "j"; rj_Generation := 1; rj_DeletionTimestamp := None;
  rj_Spec := {| TimeRange := {| tr_StartTime := "now-7d"; tr_EndTime := "" |}; PolicySelector := None;
                Config := None; TTLSecondsAfterFinished := ttl |};
  rj_Status := {| Phase := phase; Message := ""; st_Progress := None; StartedAt := None;
                  CompletedAt := completed; st_Conditions := [] |} |}.
Definition other_job (n : string) : Job := {|
  j_Name := n; j_Namespace := "ns"; j_Labels := controller_labels n; BackoffLimit := 3;
  j_TTLSecondsAfterFinished := 300; j_Template := DefaultJobTemplate; j_Status := no_status |}.
Definition reconcile (status_fails : bool) (w : state) :=
  @Reconcile ToyWorker.conditions state (io status_fails) reconciler "j" w.
Definition phase_of (w : state) : option string := option_map (fun j => Phase (rj_Status j)) (the_rj w).
End ToyCluster.

(** With the limit of one Job reached by another job, a new job is started all
    the same. *)
Lemma limit_not_enforced :
  let w := {| ToyCluster.the_rj := Some (ToyCluster.rj "" None None);
              ToyCluster.the_jobs := [ToyCluster.other_job "other-job"]; ToyCluster.clock := 0%Z |} in
  let '(_, _, w') := ToyCluster.reconcile false w in
  map j_Name (ToyCluster.the_jobs w') = ["j-job"; "other-job"]
  /\ ToyCluster.phase_of w' = Some ReindexJobRunning.
Proof. vm_compute. done. Qed.

(** When the status write after the creation of the Job fails, the job can
    never be marked as running: every later reconciliation fails to create the
    Job again. *)
Lemma start_not_retried :
  let w := {| ToyCluster.the_rj := Some (ToyCluster.rj "" None None);
              ToyCluster.the_jobs := []; ToyCluster.clock := 0%Z |} in
  let '(r1, _, w1) := ToyCluster.reconcile true w in
  let '(r2, l2, w2) := ToyCluster.reconcile false w1 in
  r1 = Err (Ext "conflict") /\ r2 = Err (Ext "already exists") /\ w2 = w1
  /\ ToyCluster.phase_of w2 = Some "".
Proof. vm_compute. done. Qed.

(** A Job that failed for good has no completion time: its ReindexJob stays
    [Running] and is polled every five seconds, whatever happens. *)
Lemma failed_job_polled `{ConditionLib} {W} `{ClusterIO W} (j : Job) (w : W) :
  CompletionTime (j_Status j) = None -> checkJobStatus j w = (Ok (5 * Second)%Z, [], w).
Proof. unfold checkJobStatus. by intros ->. Qed.

(* ------------------------------------------------------------------ *)
(** ** Properties *)



(** C13: a finished job with a time to live is deleted: a reconciliation before
    the expiry changes nothing and asks to be called again after the time that
    remains, or a second when less remains; any reconciliation from then on
    deletes the job. *)
Theorem ttl_eventually_deletes `{ConditionLib} {W} `{ClusterIO W} (r : Reconciler) (name : string)
    (job : ReindexJob) (ttl completedAt : Z) (w w' : W) (res : res Result) (l : list command) :
  rj_DeletionTimestamp job = None -> terminal (Phase (rj_Status job)) = true ->
  TTLSecondsAfterFinished (rj_Spec job) = Some ttl -> (0 <= ttl < 2 ^ 31)%Z ->
  CompletedAt (rj_Status job) = Some completedAt ->
  fst (get_rj name w) = inr job ->
  let now w := fst (clock_Now (snd (get_rj name w))) in
  (completedAt <= now w)%Z ->
  Reconcile r name w = (res, l, w') ->
  let deletes l := exists m e, l = [CEvent "TTLExpired" m; CDelete (rj_Name job) e] in
  if (now w <? completedAt + ttl * Second)%Z
  then l = [] /\ exists d, res = Ok d /\ d = Z.max Second (completedAt + ttl * Second - now w)
       /\ forall w2 res2 l2 w2', fst (get_rj name w2) = inr job -> (now w + d <= now w2)%Z ->
          Reconcile r name w2 = (res2, l2, w2') -> deletes l2
  else deletes l.
Proof.
  intros Hd Ht Httl Hrange Hc Hg now Hpast Hr deletes.
  assert (forall w res l w', fst (get_rj name w) = inr job -> Reconcile r name w = (res, l, w') ->
    if (now w <? completedAt + ttl * Second)%Z
    then l = [] /\ res = Ok (let d := since (completedAt + ttl * Second)%Z (now w) in
                             if (d <? Second)%Z then Second else d)
    else deletes l) as Hone.
  { clear -Hd Ht Httl Hc. intros w res l w' Hg Hr. unfold now, deletes, Reconcile in *.
    ctl_step Hr as g lg wg Eg. rewrite Eg in Hg |- *. cbn [fst snd] in *. subst g.
    unfold reconcile_job in Hr. rewrite Hd, Ht in Hr. unfold handleTTLCleanup in Hr. rewrite Httl, Hc in Hr.
    ctl_step Hr as t lt wt Et. rewrite Et. cbn [fst app]. unfold GoLib.Add, ttl_of in Hr.
    destruct (t <? completedAt + ttl * Second)%Z; [ctl_ret Hr; done|].
    ctl_step Hr as u lu wu Ev. injection Ev as <- <- <-.
    ctl_step Hr as e le we Ee. destruct e as [e|]; ctl_ret Hr; eauto. }
  specialize (Hone w res l w' Hg Hr) as Hw.
  destruct (Z.ltb_spec (now w) (completedAt + ttl * Second)) as [Hlt|]; [|exact Hw].
  destruct Hw as [-> ->]. split; [done|]. eexists. split; [done|].
  assert (since (completedAt + ttl * Second) (now w) = completedAt + ttl * Second - now w)%Z as ->.
  { unfold since, int64_min, int64_max. unfold Second in *. lia. }
  cbv zeta. destruct (Z.ltb_spec (completedAt + ttl * Second - now w) Second) as [Hs|Hs];
    (split; [unfold Second in *; lia|]); intros w2 res2 l2 w2' Hg2 Hn2 Hr2; specialize (Hone w2 res2 l2 w2' Hg2 Hr2);
    destruct (Z.ltb_spec (now w2) (completedAt + ttl * Second)); lia || exact Hone.
Qed.

Lemma ttl_eventually_deletes_witness :
  let job := ToyCluster.rj ReindexJobFailed (Some 60%Z) (Some 0%Z) in
  let w := {| ToyCluster.the_rj := Some job; ToyCluster.the_jobs := []; ToyCluster.clock := (10 * Second)%Z |} in
  snd (fst (ToyCluster.reconcile false w)) = []
  /\ exists d, fst (fst (ToyCluster.reconcile false w)) = Ok d /\ d = (50 * Second)%Z.
Proof.
  intros job w.
  destruct (@ttl_eventually_deletes ToyWorker.conditions ToyCluster.state (ToyCluster.io false)
    ToyCluster.reconciler "j" job 60%Z 0%Z w w (Ok (50 * Second)%Z) []
    eq_refl eq_refl eq_refl ltac:(lia) eq_refl eq_refl ltac:(vm_compute; discriminate)
    ltac:(vm_compute; reflexivity)) as [Hl (d & Hd & Hs & _)].
  split; [vm_compute; reflexivity|]. exists d. split; [|rewrite Hs; reflexivity].
  rewrite <- Hd. vm_compute. reflexivity.
Defined.

(** The Job made from a template: whatever the template says, its name and
    namespace, the two controller labels, the retry and retention limits, and
    the image and trailing arguments of the container named [reindex] are the
    controller's; every other container, the labels that do not clash and the
    rest of the pod are the template's; there is always a [reindex] container. *)
Theorem MergeJobTemplate_controlled (template : PodTemplateSpec) (opts : JobBuildOptions) :
  let j := MergeJobTemplate template opts in
  let spec := pt_Spec (j_Template j) in
  j_Name j = job_name (ReindexJobName opts) /\ j_Namespace j = JobNamespace opts
  /\ BackoffLimit j = 3%Z /\ j_TTLSecondsAfterFinished j = 300%Z
  /\ j_Labels j !! "app" = Some "activity-reindex"
  /\ j_Labels j !! "reindex.activity.miloapis.com/job" = Some (ReindexJobName opts)
  /\ (forall k, controller_labels (ReindexJobName opts) !! k = None ->
      j_Labels j !! k = default ∅ (pt_Labels template) !! k)
  /\ pt_Labels (j_Template j) = Some (j_Labels j)
  /\ RestartPolicy spec <> ""
  /\ exists before c after, Containers spec = before ++ configure_container opts c :: after
     /\ Forall (fun x => ct_Name x <> ReindexContainerName) before
     /\ ct_Name c = ReindexContainerName /\ ct_Image (configure_container opts c) = ActivityImage opts
     /\ ct_Args (configure_container opts c) = ct_Args c ++ ControllerArgs opts
     /\ (Containers (pt_Spec template) = before ++ c :: after
         \/ c = reindex_container /\ after = [] /\ Containers (pt_Spec template) = before).
Proof.
  cbv zeta. cbn [MergeJobTemplate j_Name j_Namespace BackoffLimit j_TTLSecondsAfterFinished j_Labels j_Template
    pt_Labels pt_Spec RestartPolicy Containers].
  split_and!; try done; try (apply lookup_union_Some_l; reflexivity).
  - intros k Hk. by rewrite lookup_union_r.
  - destruct (String.eqb_spec (RestartPolicy (pt_Spec template)) ""); [done|done].
  - induction (Containers (pt_Spec template)) as [|c cs (before & c' & after & Hcs & Hb & Hn & Hi & Ha & Horig)].
    + exists [], reindex_container, []. cbn [update_reindex]. split_and!; try done. by right.
    + cbn [update_reindex]. destruct (String.eqb_spec (ct_Name c) ReindexContainerName) as [Hc|Hc].
      * exists [], c, cs. split_and!; try done. by left.
      * exists (c :: before), c', after. rewrite Hcs. split_and!; try done; [by constructor|].
        destruct Horig as [->|(-> & -> & ->)]; [by left|by right].
Qed.

(** C20: every status written to a ReindexJob is well-formed - a known phase,
    a start time when [Running], a completion time when [Succeeded] or
    [Failed], and a Ready condition that is true exactly when [Succeeded] -
    whether the worker writes a phase, the worker reports progress on a
    well-formed status, or the controller starts or queues the job. *)
Theorem status_writes_well_formed `{ConditionLib} `{!ConditionLaws} :
  (forall now latest phase message, phase ∈ phases -> wf_status (phase_status now latest phase message))
  /\ (forall s p, wf_status s -> wf_status (progress_status s p))
  /\ (forall W (IO : ClusterIO W) r name w res l w',
      Reconcile r name w = (res, l, w') ->
      Forall (fun c => match c with CStatus j _ => wf_status (rj_Status j) | _ => True end) l).
Proof.
  split_and!; [|done|].
  - intros now latest phase message Hp. unfold phase_status.
    assert (exists st re, phase_condition phase = (st, re)
            /\ st = (if (phase =? ReindexJobSucceeded)%string then "True" else "False")) as (st & re & -> & ->).
    { unfold phases in Hp. rewrite !elem_of_cons, elem_of_nil in Hp. destruct Hp as [->|[->|[->|[->|[]]]]]; eauto. }
    eapply (wf_ready now); [..|reflexivity|reflexivity]; [done|done|done| |].
    + cbn. intros ->. cbn. by destruct (StartedAt _).
    + cbn. unfold terminal. by intros ->.
  - intros W IO r name w res l w' Hr. pose proof (Reconcile_spec r name w w' res l Hr) as Hs.
    destruct (get_rj name w) as [[e|job] w1]; [by destruct Hs as [-> _]|by eapply reconciled_wf].
Qed.

Lemma status_writes_well_formed_witness :
  @wf_status (@phase_status ToyWorker.conditions 7%Z ToyWorker.job ReindexJobSucceeded "done").
Proof.
  apply (proj1 (@status_writes_well_formed ToyWorker.conditions ToyWorker.laws)).
  apply (bool_decide_unpack _). vm_compute. exact I.
Defined.
