(* ===== verification/PolicyController.v ===== *)
(** * internal/controller/activitypolicy_controller.go: policy status

    The controller that validates an [ActivityPolicy] and publishes the verdict
    as its Ready condition - the condition by which the processors decide to
    serve the policy ([isPolicyReady] of [PolicyCache]). *)

From Stdlib Require Import Ascii String.
From stdpp Require Import base numbers list strings gmap pretty.
From Stdlib Require Import ZArith Lia.
From S2P Require Import Prelude GoLib Types TimeUtil CelPolicy Activity Dlq EventProc GoSlice PolicyCache ReindexJob.

(** An [ActivityPolicy] with its status; the conditions of [po_Policy] itself
    are not read. *)
Record PolicyObject := {
  po_Policy : ActivityPolicy; po_Conditions : list Condition; po_ObservedGeneration : Z }.

(** The object as the informers of the processors see it. *)
Definition as_seen (p : PolicyObject) : ActivityPolicy :=
  let a := po_Policy p in
  {| pol_Name := pol_Name a; pol_ResourceVersion := pol_ResourceVersion a; pol_Generation := pol_Generation a;
     pol_Labels := pol_Labels a; pol_Spec := pol_Spec a;
     Conditions := map (fun c => (cn_Type c, cn_Status c)) (po_Conditions p) |}.

(** The REST mapper: the Kind of the mapping of a group and kind. *)
Class GroupKindMapper := {
  GroupKindMapping : string -> string -> error + string;
  NoMatchError : error -> bool }.

(** The API client and the clock. *)
Class PolicyIO (W : Type) := {
  pc_IsNotFound : error -> bool;
  pc_Now : W -> time * W;
  get_policy : string -> W -> (error + PolicyObject) * W;
  update_policy_status : PolicyObject -> W -> option error * W;
  list_policy_objects : W -> (error + list ActivityPolicy) * W }.

Section Validate.
Context `{CelEngine}.

(** The loop over the rules of one kind. *)
Fixpoint validate_rules (what : string) (rt : PolicyRuleType) (i : Z) (rules : list PolicyRule) : res unit :=
  match rules with
  | [] => Ok tt
  | rule :: rest =>
      let? _ := wrap_err (ValidatePolicyExpression (rule_Match rule) MatchExpression rt)
                  (fun e => Errorf [PStr what; PStr " rule "; PStr (pretty i); PStr " match: "; PWrap e]) in
      let? _ := wrap_err (ValidatePolicyExpression (rule_Summary rule) SummaryExpression rt)
                  (fun e => Errorf [PStr what; PStr " rule "; PStr (pretty i); PStr " summary: "; PWrap e]) in
      validate_rules what rt (i + 1) rest
  end.

Definition validatePolicy (policy : ActivityPolicy) : res unit :=
  let? _ := validate_rules "audit" AuditRule 0 (AuditRules (pol_Spec policy)) in
  validate_rules "event" EventRule 0 (EventRules (pol_Spec policy)).

(** [None]: no RESTMapper is configured. *)
Definition validateResourceExists (mapper : option GroupKindMapper) (apiGroup kind : string) : res unit :=
  match mapper with
  | None => Ok tt
  | Some m =>
      match @GroupKindMapping m apiGroup kind with
      | inl err =>
          if @NoMatchError m err
          then Err (Errorf [PStr "resource "; PStr kind; PStr " not found in API group "; PStr apiGroup;
                            PStr " - verify the Kind is spelled correctly (case-sensitive) and the CRD is installed"])
          else Err (Errorf [PStr "failed to validate resource "; PStr apiGroup; PStr "/"; PStr kind;
                            PStr ": "; PWrap err])
      | inr k =>
          if (k =? kind)%string then Ok tt
          else Err (Errorf [PStr "kind mismatch: specified "; PStr kind; PStr " but API server has "; PStr k])
      end
  end.

Definition same_condition (c d : Condition) : bool :=
  ((cn_Type c =? cn_Type d) && (cn_Status c =? cn_Status d) && (cn_Reason c =? cn_Reason d)
   && (cn_Message c =? cn_Message d))%string%bool && (cn_ObservedGeneration c =? cn_ObservedGeneration d)%Z.

(** The conditions with the one of the same type replaced, or one appended. *)
Fixpoint replace_condition (condition : Condition) (cs : list Condition) : list Condition :=
  match cs with
  | [] => [condition]
  | c :: rest =>
      if (cn_Type c =? cn_Type condition)%string then
        (if (cn_Status c =? cn_Status condition)%string
         then {| cn_Type := cn_Type condition; cn_Status := cn_Status condition; cn_Reason := cn_Reason condition;
                 cn_Message := cn_Message condition; cn_ObservedGeneration := cn_ObservedGeneration condition;
                 cn_LastTransitionTime := cn_LastTransitionTime c |}
         else condition) :: rest
      else c :: replace_condition condition rest
  end.

(** [updatePolicyStatus] up to the write: [None] when nothing has changed. *)
Definition updated_policy (policy : PolicyObject) (condition : Condition) : option PolicyObject :=
  let generation := pol_Generation (po_Policy policy) in
  if existsb (fun c => same_condition c condition && (po_ObservedGeneration policy =? generation)%Z)%bool
       (po_Conditions policy)
  then None
  else Some {| po_Policy := po_Policy policy;
               po_Conditions := replace_condition condition (po_Conditions policy);
               po_ObservedGeneration := generation |}.

(** The verdict: status, reason and message. *)
Definition verdict (mapper : option GroupKindMapper) (policy : ActivityPolicy) : string * string * string :=
  let spec := pol_Spec policy in
  match validateResourceExists mapper (ps_APIGroup spec) (ps_Kind spec) with
  | Err e => ("False", "ResourceNotFound", error_text e)
  | Panic s => ("False", "ResourceNotFound", s)
  | Ok _ =>
      match validatePolicy policy with
      | Err e => ("False", "ValidationFailed", error_text e)
      | Panic s => ("False", "ValidationFailed", s)
      | Ok _ => ("True", "Valid", "All rules validated successfully")
      end
  end.

Definition ready_condition (mapper : option GroupKindMapper) (now : time) (policy : ActivityPolicy) : Condition :=
  let '(status, reason, message) := verdict mapper policy in
  {| cn_Type := "Ready"; cn_Status := status; cn_Reason := reason; cn_Message := message;
     cn_ObservedGeneration := pol_Generation policy; cn_LastTransitionTime := now |}.

Context {W : Type} `{PolicyIO W}.

Definition updatePolicyStatus (policy : PolicyObject) (condition : Condition) (w : W) : option error * W :=
  match updated_policy policy condition with
  | None => (None, w)
  | Some p =>
      let (r, w') := update_policy_status p w in
      (match r with
       | Some e => Some (Errorf [PStr "failed to update status: "; PWrap e])
       | None => None
       end, w')
  end.

Definition policy_Reconcile (mapper : option GroupKindMapper) (name : string) (w : W) : option error * W :=
  match get_policy name w with
  | (inl e, w1) => (if pc_IsNotFound e then None else Some e, w1)
  | (inr policy, w1) =>
      let (now, w2) := pc_Now w1 in
      let (r, w3) := updatePolicyStatus policy (ready_condition mapper now (po_Policy policy)) w2 in
      (match r with
       | Some e => Some (Errorf [PStr "error updating policy status: "; PWrap e])
       | None => None
       end, w3)
  end.

(** [mapCRDToActivityPolicies]: the names to reconcile; [None]: not a CRD. *)
Definition mapCRDToActivityPolicies (crd : option (string * string)) (w : W) : list string * W :=
  match crd with
  | None => ([], w)
  | Some (crdGroup, crdKind) =>
      match list_policy_objects w with
      | (inl _, w') => ([], w')
      | (inr items, w') =>
          (map pol_Name (List.filter (fun p => (ps_Kind (pol_Spec p) =? crdKind)
                                               && (ps_APIGroup (pol_Spec p) =? crdGroup))%string%bool items), w')
      end
  end.
End Validate.

(* ------------------------------------------------------------------ *)
(** ** Lemmas *)

(** One Ready condition at most, as the API server enforces. *)
Definition unique_types (cs : list Condition) : Prop := NoDup (map cn_Type cs).

Lemma find_type_unique cs c :
  unique_types cs -> c ∈ cs -> List.find (fun x => (cn_Type x =? cn_Type c)%string) cs = Some c.
Proof.
  unfold unique_types. induction cs as [|x cs IH]; cbn [map]; [set_solver|].
  intros [Hx Hn]%NoDup_cons Hin. cbn. destruct (String.eqb_spec (cn_Type x) (cn_Type c)) as [E|E].
  - apply elem_of_cons in Hin as [->|Hin]; [done|]. exfalso. apply Hx. rewrite E.
    apply list_elem_of_In, in_map, list_elem_of_In. done.
  - apply elem_of_cons in Hin as [->|Hin]; [done|]. auto.
Qed.

Lemma replace_condition_find condition cs :
  exists c, List.find (fun x => (cn_Type x =? cn_Type condition)%string) (replace_condition condition cs) = Some c
    /\ cn_Status c = cn_Status condition /\ cn_ObservedGeneration c = cn_ObservedGeneration condition.
Proof.
  induction cs as [|c cs (d & IH)]; cbn [replace_condition].
  - exists condition. cbn. by rewrite String.eqb_refl.
  - destruct (cn_Type c =? cn_Type condition)%string eqn:E; [|exists d; cbn; by rewrite E].
    destruct (cn_Status c =? cn_Status condition)%string; eexists; cbn; rewrite String.eqb_refl; done.
Qed.

(** The readiness the processors see is the status of the Ready condition. *)
Lemma isPolicyReady_find p :
  isPolicyReady (as_seen p)
  = match List.find (fun x => (cn_Type x =? "Ready")%string) (po_Conditions p) with
    | Some c => (cn_Status c =? "True")%string
    | None => false
    end.
Proof.
  unfold isPolicyReady, as_seen. cbn [Conditions]. induction (po_Conditions p) as [|c cs IH]; [done|].
  cbn. destruct (cn_Type c =? "Ready")%string; [done|exact IH].
Qed.

Section Lemmas.
Context `{CelEngine}.

Lemma validate_rules_in what rt i rules :
  validate_rules what rt i rules = Ok tt <->
  forall rule, rule ∈ rules -> ValidatePolicyExpression (rule_Match rule) MatchExpression rt = Ok tt
                          /\ ValidatePolicyExpression (rule_Summary rule) SummaryExpression rt = Ok tt.
Proof.
  revert i. induction rules as [|rule rules IH]; intros i; cbn [validate_rules]; [split; [set_solver|done]|].
  rewrite res_bind_ok. setoid_rewrite wrap_err_ok. setoid_rewrite res_bind_ok. setoid_rewrite wrap_err_ok.
  setoid_rewrite IH. setoid_rewrite elem_of_cons. split.
  - intros ([] & Hm & [] & Hs & Hr) x [->|Hx]; auto.
  - intros Hr. destruct (Hr rule) as [Hm Hs]; [by left|]. exists tt. split; [done|]. exists tt. auto.
Qed.

Lemma validate_rules_ok what rt i rules x : validate_rules what rt i rules = Ok x -> x = tt.
Proof. by destruct x. Qed.

Lemma compile_templates_valid env ms :
  (forall ast, exists prg, cel_Program (env_decls env) ast = inr prg) ->
  (forall x, x ∈ ms -> validate_embedded env x = Ok tt) -> exists ts, compile_templates env ms = Ok ts.
Proof.
  intros Hprog. induction ms as [|[m g] ms IH]; intros Hall; cbn [compile_templates]; [eauto|].
  specialize (Hall (m, g)) as Hm. unfold validate_embedded in Hm. cbn [fst snd] in Hm.
  destruct (TrimSpace g =? "")%string; [by discriminate Hm; set_solver|].
  destruct (cel_Compile (env_decls env) (TrimSpace g)) as [e|ast]; [by discriminate Hm; set_solver|].
  destruct (Hprog ast) as [prg Hprg]. cbn [of_sum wrap_err res_bind]. rewrite Hprg. cbn [of_sum wrap_err res_bind].
  destruct IH as [ts ->]; [set_solver|]. cbn. eauto.
Qed.

(** A rule whose expressions pass validation compiles to a valid rule. *)
Lemma validated_rule_valid rt rule :
  (forall decls ast, exists prg, cel_Program decls ast = inr prg) ->
  ValidatePolicyExpression (rule_Match rule) MatchExpression rt = Ok tt ->
  ValidatePolicyExpression (rule_Summary rule) SummaryExpression rt = Ok tt ->
  Valid (compile_rule (match rt with AuditRule => auditEnvironment false | _ => eventEnvironment false end) rule) = true.
Proof.
  intros Hprog (env & Hrt & Het)%ValidatePolicyExpression_env (env' & Hrt' & Het')%ValidatePolicyExpression_env.
  assert (match rt with AuditRule => auditEnvironment false | _ => eventEnvironment false end = Ok env
          /\ env' = env) as [-> ->].
  { destruct Hrt as [[-> He]|[-> He]], Hrt' as [[? He']|[? He']]; try done; rewrite He in He'; by injection He'. }
  destruct Het as [[_ (ast & Hast & _)%validateMatchExpression_ok]|[? _]]; [|done].
  destruct Het' as [[? _]|[_ Hs]]; [done|].
  unfold compile_rule. rewrite Hast. destruct (Hprog (env_decls env) ast) as [prg ->].
  unfold validateSummaryExpression in Hs. destruct (negb _); [done|]. rewrite validate_all_in in Hs.
  unfold compileSummaryTemplate. destruct (compile_templates_valid env _ (Hprog _) Hs) as [ts ->]. done.
Qed.
End Lemmas.

Section Verdict.
Context `{CelEngine}.

(** The target exists and every expression passes validation. *)
Definition acceptable (mapper : option GroupKindMapper) (policy : ActivityPolicy) : Prop :=
  validateResourceExists mapper (ps_APIGroup (pol_Spec policy)) (ps_Kind (pol_Spec policy)) = Ok tt
  /\ validatePolicy policy = Ok tt.

Lemma ready_condition_status mapper now policy :
  cn_Type (ready_condition mapper now policy) = "Ready"
  /\ cn_ObservedGeneration (ready_condition mapper now policy) = pol_Generation policy
  /\ (cn_Status (ready_condition mapper now policy) = "True" <-> acceptable mapper policy).
Proof.
  unfold ready_condition, verdict, acceptable.
  destruct (validateResourceExists _ _ _) as [[]| |]; [|by (split_and!; naive_solver)..].
  destruct (validatePolicy policy) as [[]| |]; split_and!; naive_solver.
Qed.

(** The status after an update says what the condition says. *)
Lemma updated_policy_ready policy c :
  unique_types (po_Conditions policy) -> cn_Type c = "Ready" ->
  let p := default policy (updated_policy policy c) in
  po_Policy p = po_Policy policy
  /\ isPolicyReady (as_seen p) = (cn_Status c =? "True")%string.
Proof.
  intros Hu Ht p. unfold p, updated_policy. clear p.
  destruct (existsb _ _) eqn:E; cbn [default from_option id]; (split; [done|]); rewrite isPolicyReady_find.
  - apply existsb_exists in E as (d & Hd%list_elem_of_In & [Hs _]%andb_true_iff).
    unfold same_condition in Hs. rewrite !andb_true_iff, !String.eqb_eq in Hs. destruct Hs as [[[[Hty Hst] _] _] _].
    pose proof (find_type_unique _ d Hu Hd) as Hf. rewrite Hty, Ht in Hf. by rewrite Hf, Hst.
  - cbn [po_Conditions]. destruct (replace_condition_find c (po_Conditions policy)) as (d & Hf & Hs & _).
    rewrite Ht in Hf. by rewrite Hf, Hs.
Qed.
End Verdict.

(** A policy object in a store of one. *)
Module ToyPolicyStore.
Definition io : PolicyIO PolicyObject := {|
  pc_IsNotFound _ := false; pc_Now w := (7%Z, w); get_policy _ w := (inr w, w);
  update_policy_status p _ := (None, p); list_policy_objects w := (inr [po_Policy w], w) |}.
Definition kinds : GroupKindMapper := {|
  GroupKindMapping _ k := if (k =? "Deployment")%string then inr k else inl (Ext "no match");
  NoMatchError _ := true |}.
Definition fresh : PolicyObject :=
  {| po_Policy := ToyPolicies.mk "A"; po_Conditions := []; po_ObservedGeneration := 0%Z |}.
Definition reconcile (w : PolicyObject) :=
  @policy_Reconcile ToyCel.toy PolicyObject io (Some kinds) "A" w.
End ToyPolicyStore.

(** Only the conditions are read back: reconciling again changes nothing. *)
Example toy_policy_status :
  let '(e, w) := ToyPolicyStore.reconcile ToyPolicyStore.fresh in
  e = None /\ isPolicyReady (as_seen w) = true /\ ToyPolicyStore.reconcile w = (None, w).
Proof. vm_compute. done. Qed.

(* ------------------------------------------------------------------ *)
(** ** Properties *)

(** C21: the Ready condition is the verdict: when a reconciliation of a policy
    succeeds, the policy object - as it was if nothing was written, as written
    otherwise - is seen as ready by the processors exactly when its target
    resource exists and all its expressions pass validation. *)
Theorem policy_status_sound `{CelEngine} {W} `{PolicyIO W} (mapper : option GroupKindMapper) (name : string)
    (w w1 w' : W) (policy : PolicyObject) :
  get_policy name w = (inr policy, w1) -> unique_types (po_Conditions policy) ->
  policy_Reconcile mapper name w = (None, w') ->
  exists p, po_Policy p = po_Policy policy
    /\ (p = policy \/ update_policy_status p (snd (pc_Now w1)) = (None, w'))
    /\ (isPolicyReady (as_seen p) = true <-> acceptable mapper (po_Policy policy)).
Proof.
  intros Hg Hu. unfold policy_Reconcile. rewrite Hg. destruct (pc_Now w1) as [now w2] eqn:En.
  destruct (ready_condition_status mapper now (po_Policy policy)) as (Ht & _ & Hs).
  pose proof (updated_policy_ready policy (ready_condition mapper now (po_Policy policy)) Hu Ht) as [Hp Hr].
  unfold updatePolicyStatus. destruct (updated_policy _ _) as [p|]; cbn [default from_option id] in *.
  - destruct (update_policy_status p w2) as [[e|] w3] eqn:E; [done|]. intros [= <-].
    exists p. split_and!; [done|by right|]. by rewrite Hr, String.eqb_eq.
  - intros _. exists policy. split_and!; [done|by left|]. by rewrite Hr, String.eqb_eq.
Qed.

Lemma policy_status_sound_witness :
  exists p, isPolicyReady (as_seen p) = true
    <-> @acceptable ToyCel.toy (Some ToyPolicyStore.kinds) (ToyPolicies.mk "A").
Proof.
  destruct (@policy_status_sound ToyCel.toy PolicyObject ToyPolicyStore.io (Some ToyPolicyStore.kinds) "A"
    ToyPolicyStore.fresh ToyPolicyStore.fresh (snd (ToyPolicyStore.reconcile ToyPolicyStore.fresh))
    ToyPolicyStore.fresh) as (p & _ & _ & Hr); [reflexivity|constructor|vm_compute; reflexivity|].
  exists p. exact Hr.
Defined.

(** A policy the controller accepts is served whole: if every checked
    expression has a program, then all the rules of an acceptable policy, audit
    and event, are valid in the policy cache of the processors - validation and
    compilation agree on environments, templates and expressions. *)
Theorem acceptable_policy_compiles `{CelEngine} (mapper : option GroupKindMapper) (policy : ActivityPolicy)
    (resource : string) :
  (forall decls ast, exists prg, cel_Program decls ast = inr prg) ->
  acceptable mapper policy ->
  let c := compile policy resource in
  Forall (fun rule => Valid rule = true) (cp_AuditRules c ++ cp_EventRules c)
  /\ length (cp_AuditRules c) = length (AuditRules (pol_Spec policy))
  /\ length (cp_EventRules c) = length (EventRules (pol_Spec policy)).
Proof.
  intros Hprog [_ Hv]. unfold validatePolicy in Hv. apply res_bind_ok in Hv as (x & Ha & He).
  destruct x. cbv zeta. cbn [compile cp_AuditRules cp_EventRules]. rewrite !length_map. split_and!; [|done..].
  rewrite validate_rules_in in Ha, He. apply Forall_app. split; apply Forall_map, Forall_forall; intros rule Hr.
  - destruct (Ha rule Hr). by apply (validated_rule_valid AuditRule).
  - destruct (He rule Hr). by apply (validated_rule_valid EventRule).
Qed.

Lemma acceptable_policy_compiles_witness :
  Forall (fun rule => @Valid ToyCel.toy rule = true) (@cp_AuditRules ToyCel.toy (@compile ToyCel.toy (ToyPolicies.mk "A") "deployments")).
Proof.
  destruct (@acceptable_policy_compiles ToyCel.toy (Some ToyPolicyStore.kinds) (ToyPolicies.mk "A") "deployments")
    as [Hv _]; [intros decls ast; exists ast; reflexivity|vm_compute; split; reflexivity|].
  apply Forall_app in Hv as [Ha _]. exact Ha.
Defined.
