(* ===== verification/Rest.v ===== *)
(** * internal/registry: the handlers of the query resources

    [AuditLogQuery], [ActivityQuery], [EventQuery] and the three facet
    resources are ephemeral: a [Create] request is authenticated, validated,
    run against the storage in the scope of the user, and answered
    ([registry/activity/auditlog], [activityquery], [eventquery], [facet],
    [auditlogfacet], [eventfacet]), with the errors of [internal/apierrors].
    A handler returns the storage calls it made and its response. *)

From Stdlib Require Import Ascii String.
From stdpp Require Import base numbers list strings gmap pretty.
From Stdlib Require Import ZArith Lia.
From S2P Require Import Prelude GoLib Types TimeUtil CelPolicy Activity Dlq CelFilter Query EventStore.

(* ------------------------------------------------------------------ *)
(** ** Field errors and API errors *)

(** [field.Path], from the root. *)
Inductive path_elem := Child (name : string) | At (i : Z).
Definition path := list path_elem.

(** [field.Error], by its constructor; the rejected value is kept for scalars
    (structures are [""]). *)
Inductive field_error :=
| Required (p : path) (detail : string)
| Invalid (p : path) (value detail : string)
| Duplicate (p : path) (value : string)
| NotSupported (p : path) (value : string) (supported : list string)
| TooMany (p : path) (actual maximum : Z).

Definition error_path (e : field_error) : path :=
  match e with
  | Required p _ | Invalid p _ _ | Duplicate p _ | NotSupported p _ _ | TooMany p _ _ => p
  end.

(** The type, detail and path of a field error as the library prints them, and
    [unicode.ToUpper] of the first rune of a string outside ASCII. *)
Class FieldLib := {
  fe_Type : field_error -> string;
  fe_Detail : field_error -> string;
  fe_Field : field_error -> string;
  upper_first_rune : string -> string }.

(** [metav1.Status] of a validation error. *)
Record StatusCause := { ca_Type : string; ca_Message : string; ca_Field : string }.
Record Status := {
  st_Code : Z; st_Reason : string; st_Message : string;
  st_Group : string; st_Kind : string; st_Name : string; st_Causes : list StatusCause }.

(** What a handler refuses a request with: [errors.NewInvalid],
    [apierrors.NewValidationStatusError], [errors.NewInternalError],
    [errors.NewServiceUnavailable], [errors.NewBadRequest], a plain error. *)
Inductive api_error :=
| NewInvalid (kind name : string) (errs : list field_error)
| ValidationStatus (s : Status)
| InternalError (e : error)
| ServiceUnavailable (text : string)
| BadRequest (text : string)
| Plain (e : error).

Inductive resp (A : Type) :=
| Answer (a : A)
| Refuse (e : api_error)
| Crash (why : string).
Arguments Answer {A} a. Arguments Refuse {A} e. Arguments Crash {A} why.

(** [if err != nil { return nil, onErr(err) }] *)
Definition answer {A B} (m : res A) (onErr : error -> api_error) (f : A -> resp B) : resp B :=
  match m with Ok a => f a | Err e => Refuse (onErr e) | Panic w => Crash w end.

(** apierrors/errors.go *)
Definition ascii_upper (a : ascii) : ascii :=
  let n := nat_of_ascii a in
  if (Nat.leb 97 n && Nat.leb n 122)%bool then ascii_of_nat (n - 32) else a.

Section ApiErrors.
Context `{FieldLib}.

(** On valid UTF-8. *)
Definition capitalizeFirst (s : string) : string :=
  match s with
  | EmptyString => s
  | String a s' => if Nat.ltb (nat_of_ascii a) 128 then String (ascii_upper a) s' else upper_first_rune s
  end.

Definition cause (e : field_error) : StatusCause :=
  {| ca_Type := fe_Type e; ca_Message := fe_Detail e; ca_Field := fe_Field e |}.

Definition NewValidationError (kind name : string) (errs : list field_error) : Status :=
  {| st_Code := 422; st_Reason := "Invalid";
     st_Message := match errs with
                   | [e] => capitalizeFirst (fe_Detail e) +:+ ". Please correct this and try again."
                   | _ => "Some fields are missing or invalid. See the error details for what needs to be corrected."
                   end;
     st_Group := "activity.miloapis.com"; st_Kind := kind; st_Name := name;
     st_Causes := map cause errs |}.

Definition NewValidationStatusError (kind name : string) (errs : list field_error) : api_error :=
  ValidationStatus (NewValidationError kind name errs).
End ApiErrors.

Definition no_user : error := Errorf [PStr "no user in context"].

(** The user of a request: none, or its extra fields. *)
Definition request_user := option (option (gmap string (list string))).

(* ------------------------------------------------------------------ *)
(** ** Validation of a query *)

(** The parts of the three validators that are the same text. *)
Definition spec_path (name : string) : path := [Child "spec"; Child name].

Definition check {A} (m : res A) (bad : error -> field_error) : res (list field_error) :=
  match m with Ok _ => Ok [] | Err e => Ok [bad e] | Panic w => Panic w end.

Definition check_time (name missing value : string) (now : time) : res (list field_error) :=
  if (value =? "")%string then Ok [Required (spec_path name) missing]
  else check (ParseFlexibleTime value now) (fun e => Invalid (spec_path name) value (error_text e)).

(** The window, with the text that follows its two durations. *)
Definition check_window (maxWindow : Z) (explain : Z -> Z -> string) (start end_ : string) (now : time)
  : list field_error :=
  if (negb (start =? "") && negb (end_ =? ""))%string%bool then
    match ParseFlexibleTime start now, ParseFlexibleTime end_ now with
    | Ok startTime, Ok endTime =>
        let queryWindow := Sub endTime startTime in
        (if After endTime startTime then []
         else [Invalid (spec_path "endTime") end_ "endTime must be after startTime"])
        ++ (if ((0 <? maxWindow) && (maxWindow <? queryWindow))%Z%bool
            then [Invalid [Child "spec"] (start +:+ " to " +:+ end_) (explain queryWindow maxWindow)]
            else [])
    | _, _ => []
    end
  else [].

Definition check_limit (maxPageSize : Z) (explain : Z -> Z -> string) (limit : Z) : list field_error :=
  (if (limit <? 0)%Z then [Invalid (spec_path "limit") (pretty limit) "limit must be non-negative"] else [])
  ++ (if ((0 <? maxPageSize) && (maxPageSize <? limit))%Z%bool
      then [Invalid (spec_path "limit") (pretty limit) (explain limit maxPageSize)] else []).

(** [if value != "" { if err := f(value) ... }] *)
Definition check_given {A} (name value : string) (f : string -> res A) : res (list field_error) :=
  if (value =? "")%string then Ok []
  else check (f value) (fun e => Invalid (spec_path name) value (error_text e)).

Definition too_long (what rest : string) (window maxWindow : Z) : string :=
  "time range of " +:+ Duration_String window +:+ " exceeds " +:+ what +:+ "maximum of "
    +:+ Duration_String maxWindow +:+ rest.
Definition too_many (rest : bool) (limit maximum : Z) : string :=
  "limit of " +:+ pretty limit +:+ " exceeds maximum of " +:+ pretty maximum
    +:+ (if rest then ". Set limit to " +:+ pretty maximum +:+ " or less" else "").

(** The query objects: a specification, and a status filled by the handler. *)
Record QueryObject (Spec Item : Type) := {
  q_Name : string; q_Spec : Spec; q_Results : list Item; q_Continue : string;
  q_EffectiveStartTime : string; q_EffectiveEndTime : string }.
Arguments q_Name {Spec Item}. Arguments q_Spec {Spec Item}. Arguments q_Results {Spec Item}.
Arguments q_Continue {Spec Item}. Arguments q_EffectiveStartTime {Spec Item}.
Arguments q_EffectiveEndTime {Spec Item}.

(** [t.Format(time.RFC3339)] of a time parsed from a text. *)
Definition format_parsed (text : string) (t : time) : string :=
  Format_RFC3339_in (zone_of_RFC3339 text) t.

Definition with_results {Spec Item} (query : QueryObject Spec Item) (results : list Item)
    (continue_ start end_ : string) : QueryObject Spec Item :=
  {| q_Name := q_Name query; q_Spec := q_Spec query; q_Results := results; q_Continue := continue_;
     q_EffectiveStartTime := start; q_EffectiveEndTime := end_ |}.

(** The storage behind a handler: its limits and its query. *)
Record QueryBackend (Spec Res : Type) := {
  GetMaxQueryWindow : Z; GetMaxPageSize : Z;
  run_query : Spec -> ScopeContext -> res Res }.
Arguments GetMaxQueryWindow {Spec Res}. Arguments GetMaxPageSize {Spec Res}. Arguments run_query {Spec Res}.

(** The clocks of a request: the validation's, its cursor check's, and the
    reference of the effective times. *)
Record request_clock := { at_validation : time; at_cursor : time; at_effective : time }.

(** The scope and the specification a handler gives the storage. *)
Definition calls (Spec : Type) := list (Spec * ScopeContext).

(** The tail the three handlers share: both times against one reference, the
    query in the scope of the user, the answer. *)
Definition run_valid {Spec Item Res} (query : QueryObject Spec Item) (start end_ : string) (now : time)
    (run : unit -> res Res) (onErr : error -> api_error) (finish : Res -> string -> string -> resp (QueryObject Spec Item))
    (call : Spec * ScopeContext) : calls Spec * resp (QueryObject Spec Item) :=
  let failed what e := InternalError (Errorf [PStr "failed to parse "; PStr what; PStr ": "; PWrap e]) in
  match ParseFlexibleTime start now with
  | Err e => ([], Refuse (failed "startTime" e))
  | Panic w => ([], Crash w)
  | Ok effectiveStartTime =>
      match ParseFlexibleTime end_ now with
      | Err e => ([], Refuse (failed "endTime" e))
      | Panic w => ([], Crash w)
      | Ok effectiveEndTime =>
          ([call], answer (run tt) onErr (fun result =>
             finish result (format_parsed start effectiveStartTime) (format_parsed end_ effectiveEndTime)))
      end
  end.

(** The head they share: the user, the validation, then the query. *)
Definition authorised {Spec Item} (kind : string) (user : request_user) (query : QueryObject Spec Item)
    (validate : res (list field_error))
    (run : ScopeContext -> calls Spec * resp (QueryObject Spec Item)) : calls Spec * resp (QueryObject Spec Item) :=
  match user with
  | None => ([], Refuse (InternalError no_user))
  | Some extra =>
      match validate with
      | Panic w => ([], Crash w)
      | Err e => ([], Refuse (Plain e))
      | Ok (e :: errs) => ([], Refuse (NewInvalid kind (q_Name query) (e :: errs)))
      | Ok [] => run (ExtractScopeFromUser extra)
      end
  end.

Definition query_failed : api_error :=
  ServiceUnavailable "Failed to execute query. Please try again later or contact support for help.".

(** [json.Unmarshal] of a stored activity. *)
Class ActivityJson := { json_unmarshal_activity : string -> error + Activity }.

(** [activities = append(activities, activity)] until a record is corrupt. *)
Fixpoint decode_activities `{ActivityJson} (docs : list string) : error + list Activity :=
  match docs with
  | [] => inr []
  | d :: rest => match json_unmarshal_activity d, decode_activities rest with
                 | inl e, _ => inl e
                 | inr _, inl e => inl e
                 | inr a, inr l => inr (a :: l)
                 end
  end.

Section QueryHandlers.
Context `{FilterLib} `{CursorLib} `{EventCursorLib} `{ActivityJson}.

(** auditlog/storage.go *)
Definition auditlog_validateQuerySpec (b : QueryBackend AuditLogQuerySpec QueryResult) (now cursor : time)
    (spec : AuditLogQuerySpec) : res (list field_error) :=
  let? e1 := check_time "startTime" "must specify a start time" (aq_StartTime spec) now in
  let? e2 := check_time "endTime" "must specify an end time" (aq_EndTime spec) now in
  let e3 := check_window (GetMaxQueryWindow b)
              (too_long "" ". Reduce the time range or split into smaller queries")
              (aq_StartTime spec) (aq_EndTime spec) now in
  let e4 := check_limit (GetMaxPageSize b) (too_many true) (aq_Limit spec) in
  let? e5 := check_given "continue" (aq_Continue spec) (fun c => ValidateCursor cursor c spec) in
  let? e6 := check_given "filter" (aq_Filter spec) CompileFilter in
  Ok (e1 ++ e2 ++ e3 ++ e4 ++ e5 ++ e6).

Definition auditlog_Create (b : QueryBackend AuditLogQuerySpec QueryResult) (clock : request_clock)
    (user : request_user) (query : QueryObject AuditLogQuerySpec StoredEvent)
  : calls AuditLogQuerySpec * resp (QueryObject AuditLogQuerySpec StoredEvent) :=
  let spec := q_Spec query in
  authorised "AuditLogQuery" user query
    (auditlog_validateQuerySpec b (at_validation clock) (at_cursor clock) spec)
    (fun scopeCtx =>
       run_valid query (aq_StartTime spec) (aq_EndTime spec) (at_effective clock)
         (fun _ => run_query b spec scopeCtx) (fun _ => query_failed)
         (fun result start end_ => Answer (with_results query (qr_Events result) (qr_Continue result) start end_))
         (spec, scopeCtx)).

(** activityquery/storage.go: the continue token is not checked here. *)
Definition activity_validateQuerySpec (b : QueryBackend ActivityQuerySpec ActivityQueryResult) (now : time)
    (spec : ActivityQuerySpec) : res (list field_error) :=
  let? e1 := check_time "startTime" "must specify a start time" (StartTime spec) now in
  let? e2 := check_time "endTime" "must specify an end time" (EndTime spec) now in
  let e3 := check_window (GetMaxQueryWindow b) (too_long "" "") (StartTime spec) (EndTime spec) now in
  let e4 := check_limit (GetMaxPageSize b) (too_many false) (Limit spec) in
  let? e5 := check_given "filter" (Filter spec) CompileActivityFilter in
  Ok (e1 ++ e2 ++ e3 ++ e4 ++ e5).

Definition activity_Create (b : QueryBackend ActivityQuerySpec ActivityQueryResult) (clock : request_clock)
    (user : request_user) (query : QueryObject ActivityQuerySpec Activity)
  : calls ActivityQuerySpec * resp (QueryObject ActivityQuerySpec Activity) :=
  let spec := q_Spec query in
  authorised "ActivityQuery" user query (activity_validateQuerySpec b (at_validation clock) spec)
    (fun scopeCtx =>
       run_valid query (StartTime spec) (EndTime spec) (at_effective clock)
         (fun _ => run_query b spec scopeCtx)
         (fun _ => ServiceUnavailable "Failed to execute query. Try again or contact support if the problem persists.")
         (fun result start end_ =>
            match decode_activities (Activities result) with
            | inl _ => Refuse (InternalError (Errorf [PStr "unable to load activity records. Please contact support if the problem persists"]))
            | inr activities => Answer (with_results query activities (ar_Continue result) start end_)
            end)
         (spec, scopeCtx)).

(** eventquery/storage.go: the field selector is not checked here. *)
Definition event_validateQuerySpec (b : QueryBackend EventQuerySpec EventQueryResult) (now cursor : time)
    (spec : EventQuerySpec) : res (list field_error) :=
  let? e1 := check_time "startTime" "must specify a start time" (es_StartTime spec) now in
  let? e2 := check_time "endTime" "must specify an end time" (es_EndTime spec) now in
  let e3 := check_window (GetMaxQueryWindow b)
              (too_long "the " " (60 days). Reduce the time range or split into smaller queries")
              (es_StartTime spec) (es_EndTime spec) now in
  let e4 := check_limit (GetMaxPageSize b) (too_many true) (es_Limit spec) in
  let? e5 := check_given "continue" (es_Continue spec) (fun c => ValidateEventQueryCursor cursor c spec) in
  Ok (e1 ++ e2 ++ e3 ++ e4 ++ e5).

Definition event_Create (b : QueryBackend EventQuerySpec EventQueryResult) (clock : request_clock)
    (user : request_user) (query : QueryObject EventQuerySpec EventRecord)
  : calls EventQuerySpec * resp (QueryObject EventQuerySpec EventRecord) :=
  let spec := q_Spec query in
  authorised "EventQuery" user query
    (event_validateQuerySpec b (at_validation clock) (at_cursor clock) spec)
    (fun scopeCtx =>
       run_valid query (es_StartTime spec) (es_EndTime spec) (at_effective clock)
         (fun _ => run_query b spec scopeCtx) (fun _ => query_failed)
         (fun result start end_ => Answer (with_results query (eq_Events result) (eq_Continue result) start end_))
         (spec, scopeCtx)).
End QueryHandlers.

(* ------------------------------------------------------------------ *)
(** ** Facets *)

(** storage/fields.go: the fields a facet may name, sorted. *)
Fixpoint insert_sorted (s : string) (l : list string) : list string :=
  match l with
  | [] => [s]
  | t :: l' => if String.leb s t then s :: l else t :: insert_sorted s l'
  end.
Definition sortedKeys {A} (m : list (string * A)) : list string := foldr insert_sorted [] (map fst m).

Definition ActivityFacetFields : list (string * string) := [
  ("spec.actor.name", "The name of the actor who performed the action");
  ("spec.actor.type", "The type of actor (user, service, system)");
  ("spec.resource.apiGroup", "The API group of the target resource");
  ("spec.resource.kind", "The kind of the target resource");
  ("spec.resource.namespace", "The namespace of the target resource");
  ("spec.changeSource", "The source of the change (human, automation, system)");
  ("spec.source.planeType", "The plane the underlying event originated from (management, edge)");
  ("spec.source.cluster", "The cluster the underlying event originated from");
  ("spec.source.region", "The region the underlying event originated from");
  ("spec.source.city", "The city the underlying event originated from")].
Definition AuditLogFacetFields : list (string * string) := [
  ("verb", "The API verb (get, list, create, update, delete, etc.)");
  ("user.username", "The username of the actor"); ("user.uid", "The UID of the actor");
  ("responseStatus.code", "The HTTP response status code");
  ("objectRef.namespace", "The namespace of the target object"); ("objectRef.resource", "The resource type");
  ("objectRef.apiGroup", "The API group of the target resource")].
Definition EventFacetFields : list (string * string) := [
  ("regarding.kind", "The kind of resource the event is about (Pod, Deployment, etc.)");
  ("regarding.namespace", "The namespace of the regarding object");
  ("related.kind", "The kind of the related secondary object (if present)");
  ("related.namespace", "The namespace of the related secondary object (if present)");
  ("reason", "The event reason (Scheduled, Pulled, Created, etc.)"); ("type", "The event type (Normal, Warning)");
  ("source.component", "The component that generated the event (kubelet, scheduler, etc.)");
  ("namespace", "The namespace of the event itself");
  ("sourcePlaneType", "The plane the event originated from (management, edge)");
  ("sourceCluster", "The cluster the event originated from");
  ("sourceRegion", "The region the event originated from"); ("sourceCity", "The city the event originated from")].

Definition is_facet_field {A} (m : list (string * A)) (field : string) : bool := bool_decide (field ∈ map fst m).
Definition IsValidActivityFacetField := is_facet_field ActivityFacetFields.
Definition IsValidAuditLogFacetField := is_facet_field AuditLogFacetFields.
Definition IsValidEventFacetField := is_facet_field EventFacetFields.
Definition FormatSupportedFields (fields : list (string * string)) : string :=
  String.concat ", " (sortedKeys fields).

(** facet/storage.go and eventfacet/storage.go: every error is collected. *)
Definition facet_errors (valid : string -> bool) (names : list string) (i : Z) (f : FacetFieldSpec)
  : list field_error :=
  let at_ name := [Child "spec"; Child "facets"; At i; Child name] in
  (if (ff_Field f =? "")%string
   then [Required (at_ "field") "specify which field to get distinct values for"]
   else if negb (valid (ff_Field f)) then [NotSupported (at_ "field") (ff_Field f) names] else [])
  ++ (if (ff_Limit f <? 0)%Z
      then [Invalid (at_ "limit") (pretty (ff_Limit f)) "must be non-negative"] else []).

Definition validate_facets (valid : string -> bool) (names : list string) (facets : list FacetFieldSpec)
  : list field_error :=
  let facetsPath := [Child "spec"; Child "facets"] in
  let n := Z.of_nat (length facets) in
  if (n =? 0)%Z then [Required facetsPath "provide at least one facet to query"]
  else (if (10 <? n)%Z then [TooMany facetsPath n 10] else [])
       ++ List.concat (imap (fun i f => facet_errors valid names (Z.of_nat i) f) facets).

Definition validateFacetQueryInput : list FacetFieldSpec -> list field_error :=
  validate_facets IsValidActivityFacetField (sortedKeys ActivityFacetFields).
Definition validateEventFacetQueryInput : list FacetFieldSpec -> list field_error :=
  validate_facets IsValidEventFacetField (sortedKeys EventFacetFields).

(** auditlogfacet/storage.go: the first error is returned; [%q] of a field
    without characters to escape. *)
Fixpoint auditlog_facet_error (i : Z) (facets : list FacetFieldSpec) : option error :=
  let facet rest := Some (Errorf ([PStr "facet "; PStr (pretty i)] ++ rest)) in
  match facets with
  | [] => None
  | f :: fs =>
      if (ff_Field f =? "")%string then facet [PStr ": field is required"]
      else if negb (IsValidAuditLogFacetField (ff_Field f))
      then facet [PStr ": unsupported field "; PStr (quoted (ff_Field f)); PStr ". Supported fields: ";
                  PStr (FormatSupportedFields AuditLogFacetFields)]
      else if (ff_Limit f <? 0)%Z then facet [PStr ": limit must be non-negative"]
      else auditlog_facet_error (i + 1) fs
  end.
Definition validateAuditLogFacetQueryInput (facets : list FacetFieldSpec) : option error :=
  let n := Z.of_nat (length facets) in
  if (n =? 0)%Z then Some (Errorf [PStr "at least one facet is required"])
  else if (10 <? n)%Z then Some (Errorf [PStr "maximum 10 facets allowed per query"])
  else auditlog_facet_error 0 facets.

(** [extractScopeFromUser] of auditlogfacet and eventfacet: the type as it is,
    and a name that may be missing. *)
Definition extractScopeFromUser (extra : option (gmap string (list string))) : ScopeContext :=
  let m := default ∅ extra in
  match default [] (m !! ParentKindExtraKey) with
  | scopeType :: _ =>
      {| sc_Type := scopeType; sc_Name := match default [] (m !! ParentNameExtraKey) with n :: _ => n | [] => "" end |}
  | [] => {| sc_Type := "platform"; sc_Name := "" |}
  end.

(** A facet query and its answer: field, values and counts. *)
Record FacetQuery (Spec : Type) := { fqo_Spec : Spec; fqo_Status : list FacetFieldResult }.
Arguments fqo_Spec {Spec}. Arguments fqo_Status {Spec}.

Definition facets_failed : api_error :=
  ServiceUnavailable "Failed to retrieve facets. Please try again later or contact support for help.".

Definition facet_query {Spec} (query : FacetQuery Spec) (refused : option api_error) (user : request_user)
    (scope : option (gmap string (list string)) -> ScopeContext) (run : Spec -> ScopeContext -> res (list FacetFieldResult))
  : calls Spec * resp (FacetQuery Spec) :=
  match refused with
  | Some e => ([], Refuse e)
  | None =>
      match user with
      | None => ([], Refuse (InternalError no_user))
      | Some extra =>
          let spec := fqo_Spec query in
          ([(spec, scope extra)],
           answer (run spec (scope extra)) (fun _ => facets_failed)
             (fun result => Answer {| fqo_Spec := spec; fqo_Status := result |}))
      end
  end.

Definition unless_valid `{FieldLib} (kind : string) (errs : list field_error) : option api_error :=
  match errs with [] => None | _ => Some (NewValidationStatusError kind "" errs) end.

Definition facet_Create `{FieldLib} (user : request_user)
    (run : FacetQuerySpec -> ScopeContext -> res (list FacetFieldResult)) (query : FacetQuery FacetQuerySpec) :=
  facet_query query (unless_valid "ActivityFacetQuery" (validateFacetQueryInput (fq_Facets (fqo_Spec query))))
    user ExtractScopeFromUser run.

Definition auditlogfacet_Create (user : request_user)
    (run : FacetQuerySpec -> ScopeContext -> res (list FacetFieldResult)) (query : FacetQuery FacetQuerySpec) :=
  facet_query query
    (option_map (fun e => BadRequest (error_text e)) (validateAuditLogFacetQueryInput (fq_Facets (fqo_Spec query))))
    user extractScopeFromUser run.

Definition eventfacet_Create `{FieldLib} (user : request_user)
    (run : EventFacetQuerySpec -> ScopeContext -> res (list FacetFieldResult)) (query : FacetQuery EventFacetQuerySpec) :=
  facet_query query (unless_valid "EventFacetQuery" (validateEventFacetQueryInput (ef_Facets (fqo_Spec query))))
    user extractScopeFromUser run.

(* ------------------------------------------------------------------ *)
(** ** Lemmas: nothing panics *)

Definition no_panic {A} (m : res A) : Prop := match m with Panic _ => False | _ => True end.

Lemma no_panic_bind {A B} (m : res A) (f : A -> res B) :
  no_panic m -> (forall a, m = Ok a -> no_panic (f a)) -> no_panic (res_bind m f).
Proof. destruct m; simpl; auto. Qed.
Lemma no_panic_wrap {A} (m : res A) w : no_panic m -> no_panic (wrap_err m w).
Proof. destruct m; auto. Qed.
Lemma no_panic_of_sum {A} (m : error + A) : no_panic (of_sum m).
Proof. by destruct m. Qed.
Lemma no_panic_ok {A} (a : A) : no_panic (Ok a).
Proof. done. Qed.
Lemma no_panic_err {A} (e : error) : no_panic (@Err A e).
Proof. done. Qed.
#[local] Hint Resolve no_panic_wrap no_panic_of_sum no_panic_ok no_panic_err : go.

Lemma split_last_some (s : string) : s <> "" -> exists r z, split_last s = Some (r, z).
Proof.
  induction s as [|a [|b s] IH]; intros Hs; [done|by eexists _, _|].
  destruct IH as (r & z & E); [done|]. cbn in *. rewrite E. by eexists _, _.
Qed.

Lemma applyOffset_safe (t : time) (offset : string) (sign : Z) : no_panic (applyOffset t offset sign).
Proof.
  unfold applyOffset. destruct (Nat.ltb_spec (String.length offset) 2) as [|Hlen]; [done|].
  destruct (split_last_some offset) as (r & z & ->); [by destruct offset; simpl in *; [lia|]|].
  destruct (Sscanf_d r); [|done]. repeat case_match; done.
Qed.

Lemma ParseFlexibleTime_safe (s : string) (now : time) : no_panic (ParseFlexibleTime s now).
Proof.
  unfold ParseFlexibleTime. apply no_panic_bind.
  - destruct (Parse_RFC3339 s); [done|]. unfold ParseRelativeTime.
    repeat case_match; try done. apply applyOffset_safe.
  - intros t _. by destruct (After t now).
Qed.

(** The validators answer; so does the walk over an expression. *)
Section Walk.
Context (v : FieldValidator) (Hv : forall o f, no_panic (v o f)).

Lemma for_each_safe {A} (f : A -> res unit) (l : list A) :
  Forall (fun a => no_panic (f a)) l -> no_panic (for_each f l).
Proof. induction 1; [done|]. apply no_panic_bind; auto. Qed.

Lemma on_some_safe {A} (f : A -> res unit) (o : option A) :
  (forall a, o = Some a -> no_panic (f a)) -> no_panic (on_some f o).
Proof. destruct o; simpl; auto. Qed.

Fixpoint ValidateFieldAccess_safe (e : Expr) : no_panic (ValidateFieldAccess v e).
Proof using Hv.
  pose (opt := fun o : option Expr =>
    match o return no_panic (on_some (ValidateFieldAccess v) o) with
    | Some a => ValidateFieldAccess_safe a
    | None => I
    end).
  destruct e; cbn [ValidateFieldAccess]; try done.
  - apply no_panic_bind; [apply Hv|intros _ _; apply opt].
  - apply no_panic_bind; [apply opt|intros _ _]. apply for_each_safe.
    clear opt. revert args. fix all 1. intros [|a l]; constructor; [apply ValidateFieldAccess_safe|apply all].
  - apply for_each_safe. clear opt. revert elements. fix all 1.
    intros [|a l]; constructor; [apply ValidateFieldAccess_safe|apply all].
  - apply for_each_safe. clear opt. revert entry_values. fix all 1.
    intros [|[a|] l]; constructor; try apply all; [apply ValidateFieldAccess_safe|done].
  - do 4 (apply no_panic_bind; [apply opt|intros _ _]). apply opt.
Qed.
End Walk.

Lemma audit_validator_safe (o : option Expr) (f : string) : no_panic (AuditLogFieldValidator o f).
Proof. unfold AuditLogFieldValidator. repeat case_match; done. Qed.
Lemma activity_validator_safe (o : option Expr) (f : string) : no_panic (ActivityFieldValidator o f).
Proof. unfold ActivityFieldValidator. repeat case_match; done. Qed.

Section Safe.
Context `{FilterLib} `{CursorLib} `{EventCursorLib}.

Lemma compile_checked_safe decls format v (e : string) :
  (forall o f, no_panic (v o f)) -> no_panic (compile_checked decls format v e).
Proof.
  intros Hv. unfold compile_checked. case_match; [done|].
  repeat (apply no_panic_bind; [auto with go|intros ? _]). case_match; [|done].
  apply no_panic_bind; [|done]. apply no_panic_wrap, ValidateFieldAccess_safe, Hv.
Qed.
Lemma CompileFilter_safe (e : string) : no_panic (CompileFilter e).
Proof. apply compile_checked_safe, audit_validator_safe. Qed.
Lemma CompileActivityFilter_safe (e : string) : no_panic (CompileActivityFilter e).
Proof. apply compile_checked_safe, activity_validator_safe. Qed.
Lemma ValidateCursor_safe now c spec : no_panic (ValidateCursor now c spec).
Proof.
  unfold ValidateCursor, decodeCursor. apply no_panic_bind; [|done].
  repeat (apply no_panic_bind; [auto with go|intros ? _]). repeat case_match; done.
Qed.
Lemma ValidateEventQueryCursor_safe now c spec : no_panic (ValidateEventQueryCursor now c spec).
Proof.
  unfold ValidateEventQueryCursor, decodeEventQueryCursor. apply no_panic_bind; [|done].
  repeat (apply no_panic_bind; [auto with go|intros ? _]). repeat case_match; done.
Qed.
End Safe.

(* ------------------------------------------------------------------ *)
(** ** Specification of the query handlers *)

(** What a query must satisfy. *)
Definition valid_window (maxWindow : Z) (start end_ : string) (now : time) : Prop :=
  exists s e, ParseFlexibleTime start now = Ok s /\ ParseFlexibleTime end_ now = Ok e /\ (s < e)%Z
    /\ (0 < maxWindow -> Sub e s <= maxWindow)%Z.
Definition valid_limit (maxPageSize limit : Z) : Prop :=
  (0 <= limit /\ (0 < maxPageSize -> limit <= maxPageSize))%Z.
Definition valid_given {A} (value : string) (f : string -> res A) : Prop := value = "" \/ is_ok (f value) = true.

Lemma check_time_ok name missing value now :
  check_time name missing value now = Ok [] <-> is_ok (ParseFlexibleTime value now) = true.
Proof.
  unfold check_time, check. destruct (String.eqb_spec value "") as [->|].
  - by split.
  - by destruct (ParseFlexibleTime value now).
Qed.

Lemma check_time_total name missing value now : exists l, check_time name missing value now = Ok l.
Proof.
  unfold check_time, check. pose proof (ParseFlexibleTime_safe value now).
  destruct (value =? "")%string; [by eexists|]. by destruct (ParseFlexibleTime value now); [eexists..|].
Qed.

Lemma check_given_ok {A} name value (f : string -> res A) :
  check_given name value f = Ok [] <-> valid_given value f.
Proof.
  unfold check_given, valid_given, check. destruct (String.eqb_spec value "") as [->|Hne]; [by split; [left|]|].
  destruct (f value); simpl; split; intros Hg; try done; try (by right); by destruct Hg.
Qed.

Lemma check_given_total {A} name value (f : string -> res A) :
  no_panic (f value) -> exists l, check_given name value f = Ok l.
Proof.
  unfold check_given, check. intros Hf. destruct (value =? "")%string; [by eexists|].
  by destruct (f value); [eexists..|].
Qed.

Lemma check_limit_ok maxPageSize explain limit :
  check_limit maxPageSize explain limit = [] <-> valid_limit maxPageSize limit.
Proof.
  unfold check_limit, valid_limit. destruct (Z.ltb_spec limit 0); [split; [done|lia]|].
  destruct (Z.ltb_spec 0 maxPageSize), (Z.ltb_spec maxPageSize limit); simpl; split; intros; try done; lia.
Qed.

Lemma not_empty_of_ok (s : string) now : is_ok (ParseFlexibleTime s now) = true -> (s =? "")%string = false.
Proof. by intros Hs; destruct (String.eqb_spec s "") as [->|]. Qed.

Lemma check_window_ok maxWindow explain start end_ now :
  is_ok (ParseFlexibleTime start now) = true -> is_ok (ParseFlexibleTime end_ now) = true ->
  check_window maxWindow explain start end_ now = [] <-> valid_window maxWindow start end_ now.
Proof.
  intros Hs He. unfold check_window, valid_window.
  rewrite (not_empty_of_ok _ _ Hs), (not_empty_of_ok _ _ He).
  destruct (ParseFlexibleTime start now) as [s| |]; [|done..].
  destruct (ParseFlexibleTime end_ now) as [e| |]; [|done..]. simpl. unfold After.
  destruct (Z.ltb_spec s e); simpl.
  - destruct (Z.ltb_spec 0 maxWindow), (Z.ltb_spec maxWindow (Sub e s)); simpl; split; intros Hw; try done;
      try (destruct Hw as (? & ? & [= <-] & [= <-] & _ & Hw); lia);
      eexists _, _; repeat split; auto; lia.
  - split; [done|]. intros (? & ? & [= <-] & [= <-] & ? & _). lia.
Qed.

Lemma valid_window_ok maxWindow start end_ now :
  valid_window maxWindow start end_ now ->
  is_ok (ParseFlexibleTime start now) = true /\ is_ok (ParseFlexibleTime end_ now) = true.
Proof. by intros (? & ? & -> & -> & _). Qed.

(** Errors of the times, the window and the limit; then the rest. *)
Lemma validate_ok (maxWindow maxPageSize : Z) name1 name2 m1 m2 ew el start end_ now limit (r : res (list field_error)) :
  (let? e1 := check_time name1 m1 start now in
   let? e2 := check_time name2 m2 end_ now in
   let? e := r in
   Ok (e1 ++ e2 ++ check_window maxWindow ew start end_ now ++ check_limit maxPageSize el limit ++ e)) = Ok []
  <-> valid_window maxWindow start end_ now /\ valid_limit maxPageSize limit /\ r = Ok [].
Proof.
  pose proof (check_time_ok name1 m1 start now) as H1. pose proof (check_time_ok name2 m2 end_ now) as H2.
  destruct (check_time_total name1 m1 start now) as [e1 E1], (check_time_total name2 m2 end_ now) as [e2 E2].
  rewrite E1, E2 in *. cbn [res_bind]. split.
  - destruct r as [e| |]; cbn [res_bind]; [|done..]. intros [= Hall].
    apply app_eq_nil in Hall as [-> Hall]. apply app_eq_nil in Hall as [-> Hall].
    apply app_eq_nil in Hall as [Hw Hall]. apply app_eq_nil in Hall as [Hl ->].
    split; [|split; [|done]].
    + by apply check_window_ok in Hw; [|apply H1|apply H2].
    + by apply check_limit_ok in Hl.
  - intros (Hw & Hl & ->). cbn [res_bind]. destruct (valid_window_ok _ _ _ _ Hw) as [Hs He].
    apply H1 in Hs as [= ->]. apply H2 in He as [= ->].
    rewrite (proj2 (check_limit_ok _ _ _) Hl), (proj2 (check_window_ok _ _ _ _ _ (proj1 H1 eq_refl) (proj1 H2 eq_refl)) Hw). done.
Qed.

Lemma same_iff {A} (x y z : A) : x = y -> (x = z <-> y = z).
Proof. by intros ->. Qed.

Section Valid.
Context `{FilterLib} `{CursorLib} `{EventCursorLib}.

Definition auditlog_valid {Res} (b : QueryBackend AuditLogQuerySpec Res) (now cursor : time) (spec : AuditLogQuerySpec) : Prop :=
  valid_window (GetMaxQueryWindow b) (aq_StartTime spec) (aq_EndTime spec) now
  /\ valid_limit (GetMaxPageSize b) (aq_Limit spec)
  /\ valid_given (aq_Continue spec) (fun c => ValidateCursor cursor c spec)
  /\ valid_given (aq_Filter spec) CompileFilter.

Definition activity_valid {Res} (b : QueryBackend ActivityQuerySpec Res) (now : time) (spec : ActivityQuerySpec) : Prop :=
  valid_window (GetMaxQueryWindow b) (StartTime spec) (EndTime spec) now
  /\ valid_limit (GetMaxPageSize b) (Limit spec)
  /\ valid_given (Filter spec) CompileActivityFilter.

Definition event_valid {Res} (b : QueryBackend EventQuerySpec Res) (now cursor : time) (spec : EventQuerySpec) : Prop :=
  valid_window (GetMaxQueryWindow b) (es_StartTime spec) (es_EndTime spec) now
  /\ valid_limit (GetMaxPageSize b) (es_Limit spec)
  /\ valid_given (es_Continue spec) (fun c => ValidateEventQueryCursor cursor c spec).

Lemma two_checks {A B} n1 v1 (f : string -> res A) n2 v2 (g : string -> res B) :
  (let? e5 := check_given n1 v1 f in let? e6 := check_given n2 v2 g in Ok (e5 ++ e6)) = Ok []
  <-> valid_given v1 f /\ valid_given v2 g.
Proof.
  pose proof (check_given_ok n1 v1 f) as Hf. pose proof (check_given_ok n2 v2 g) as Hg. split.
  - intros Hr. apply res_bind_ok in Hr as (e5 & E5 & Hr). apply res_bind_ok in Hr as (e6 & E6 & [= Hr]).
    apply app_eq_nil in Hr as [-> ->]. by split; [apply Hf|apply Hg].
  - intros [Hv1 Hv2]. apply Hf in Hv1 as ->. by apply Hg in Hv2 as ->.
Qed.

Lemma auditlog_validate_ok b now cursor spec :
  auditlog_validateQuerySpec b now cursor spec = Ok [] <-> auditlog_valid b now cursor spec.
Proof.
  unfold auditlog_valid. rewrite <- (two_checks "continue" _ _ "filter").
  rewrite <- (validate_ok _ _ "startTime" "endTime" "must specify a start time" "must specify an end time"
                (too_long "" ". Reduce the time range or split into smaller queries") (too_many true)).
  apply same_iff. unfold auditlog_validateQuerySpec.
  repeat (match goal with |- context [res_bind ?m _] => destruct m end; cbn [res_bind]; try done).
Qed.

Lemma activity_validate_ok b now spec :
  activity_validateQuerySpec b now spec = Ok [] <-> activity_valid b now spec.
Proof.
  unfold activity_valid. rewrite <- (check_given_ok "filter"). rewrite <- validate_ok.
  apply same_iff. unfold activity_validateQuerySpec. done.
Qed.

Lemma event_validate_ok b now cursor spec :
  event_validateQuerySpec b now cursor spec = Ok [] <-> event_valid b now cursor spec.
Proof.
  unfold event_valid. rewrite <- (check_given_ok "continue"). rewrite <- validate_ok.
  apply same_iff. unfold event_validateQuerySpec. done.
Qed.

Lemma bind3_total (r1 r2 r3 : res (list field_error)) (f : list field_error -> list field_error -> list field_error -> list field_error) :
  (exists l, r1 = Ok l) -> (exists l, r2 = Ok l) -> (exists l, r3 = Ok l) ->
  exists l, (let? a := r1 in let? b := r2 in let? c := r3 in Ok (f a b c)) = Ok l.
Proof. intros [? ->] [? ->] [? ->]. by eexists. Qed.

Lemma auditlog_validate_total b now cursor spec : exists l, auditlog_validateQuerySpec b now cursor spec = Ok l.
Proof.
  unfold auditlog_validateQuerySpec.
  destruct (check_time_total "startTime" "must specify a start time" (aq_StartTime spec) now) as [? ->].
  destruct (check_time_total "endTime" "must specify an end time" (aq_EndTime spec) now) as [? ->].
  destruct (check_given_total "continue" (aq_Continue spec) (fun c => ValidateCursor cursor c spec)
              (ValidateCursor_safe _ _ _)) as [? ->].
  destruct (check_given_total "filter" (aq_Filter spec) CompileFilter (CompileFilter_safe _)) as [? ->].
  by eexists.
Qed.
Lemma activity_validate_total b now spec : exists l, activity_validateQuerySpec b now spec = Ok l.
Proof. apply bind3_total; auto using check_time_total, check_given_total, CompileActivityFilter_safe. Qed.
Lemma event_validate_total b now cursor spec : exists l, event_validateQuerySpec b now cursor spec = Ok l.
Proof. apply bind3_total; auto using check_time_total, check_given_total, ValidateEventQueryCursor_safe. Qed.
End Valid.

(** What a query request may come to, and what it asks of the storage. *)
Section Handled.
Context {Spec Item Res : Type} (kind start end_ : string) (now : time) (valid : Prop) (user : request_user).
Context (query : QueryObject Spec Item) (run : ScopeContext -> res Res) (items : Res -> option (list Item * string)).

Inductive handled : calls Spec -> resp (QueryObject Spec Item) -> Prop :=
| anonymous : user = None -> handled [] (Refuse (InternalError no_user))
| rejected extra e errs : user = Some extra -> ~ valid ->
    handled [] (Refuse (NewInvalid kind (q_Name query) (e :: errs)))
| drifted extra e : user = Some extra -> valid ->
    is_ok (ParseFlexibleTime start now) && is_ok (ParseFlexibleTime end_ now) = false ->
    handled [] (Refuse (InternalError e))
| unavailable_ extra e text : user = Some extra -> valid -> run (ExtractScopeFromUser extra) = Err e ->
    handled [(q_Spec query, ExtractScopeFromUser extra)] (Refuse (ServiceUnavailable text))
| crashed extra w : user = Some extra -> valid -> run (ExtractScopeFromUser extra) = Panic w ->
    handled [(q_Spec query, ExtractScopeFromUser extra)] (Crash w)
| corrupt extra r e : user = Some extra -> valid -> run (ExtractScopeFromUser extra) = Ok r -> items r = None ->
    handled [(q_Spec query, ExtractScopeFromUser extra)] (Refuse (InternalError e))
| answered extra r l c s e : user = Some extra -> valid -> run (ExtractScopeFromUser extra) = Ok r ->
    items r = Some (l, c) -> ParseFlexibleTime start now = Ok s -> ParseFlexibleTime end_ now = Ok e ->
    handled [(q_Spec query, ExtractScopeFromUser extra)]
      (Answer (with_results query l c (format_parsed start s) (format_parsed end_ e))).

Lemma authorised_handled validate onErr finish
    (Htotal : exists l, validate = Ok l) (Hvalid : validate = Ok [] <-> valid)
    (HonErr : forall e, exists text, onErr e = ServiceUnavailable text)
    (Hfinish : forall r s e,
       match items r with
       | Some (l, c) => finish r s e = Answer (with_results query l c s e)
       | None => exists x, finish r s e = Refuse (InternalError x)
       end) :
  let out := authorised kind user query validate
               (fun scope => run_valid query start end_ now (fun _ => run scope) onErr finish (q_Spec query, scope)) in
  handled (fst out) (snd out).
Proof using Type.
  unfold authorised. destruct user as [extra|] eqn:Hu; [|by apply anonymous].
  destruct Htotal as [l ->]. destruct l as [|e errs].
  2:{ eapply rejected; [done|]. by rewrite <- Hvalid. }
  assert (Hv : valid) by by apply Hvalid. unfold run_valid. simpl.
  pose proof (ParseFlexibleTime_safe start now) as Ss. pose proof (ParseFlexibleTime_safe end_ now) as Se.
  destruct (ParseFlexibleTime start now) as [s|e|] eqn:Es; [|by eapply drifted; rewrite ?Es|done].
  destruct (ParseFlexibleTime end_ now) as [e'|e|] eqn:Ee; [|by eapply drifted; rewrite ?Es, ?Ee|done].
  unfold answer. cbn [fst snd]. destruct (run _) as [r|e|w] eqn:Er.
  - specialize (Hfinish r (format_parsed start s) (format_parsed end_ e')). destruct (items r) as [[l c]|] eqn:Ei.
    + rewrite Hfinish. by eapply answered.
    + destruct Hfinish as [x ->]. by eapply corrupt.
  - destruct (HonErr e) as [text ->]. by eapply unavailable_.
  - by eapply crashed.
Qed.
End Handled.

Section HandlerTheorems.
Context `{FilterLib} `{CursorLib} `{EventCursorLib} `{ActivityJson}.

(** C22: a query request is answered only to an authenticated user whose query
    is valid - times that parse, start before end, a window and a limit within
    the storage's bounds, a current continue token and a filter that compiles -
    and then exactly one call is made to the storage, with the query as given
    and the scope of the user; the answer is the storage's.  Otherwise the
    storage is not asked, and an invalid query is refused with its errors. *)
Theorem query_requests_handled (clock : request_clock) (user : request_user)
    (ab : QueryBackend AuditLogQuerySpec QueryResult) (aq : QueryObject AuditLogQuerySpec StoredEvent)
    (vb : QueryBackend ActivityQuerySpec ActivityQueryResult) (vq : QueryObject ActivityQuerySpec Activity)
    (eb : QueryBackend EventQuerySpec EventQueryResult) (eq : QueryObject EventQuerySpec EventRecord) :
  (let out := auditlog_Create ab clock user aq in
   let spec := q_Spec aq in
   handled "AuditLogQuery" (aq_StartTime spec) (aq_EndTime spec) (at_effective clock)
     (auditlog_valid ab (at_validation clock) (at_cursor clock) spec) user aq
     (run_query ab spec) (fun r => Some (qr_Events r, qr_Continue r)) (fst out) (snd out))
  /\ (let out := activity_Create vb clock user vq in
      let spec := q_Spec vq in
      handled "ActivityQuery" (StartTime spec) (EndTime spec) (at_effective clock)
        (activity_valid vb (at_validation clock) spec) user vq (run_query vb spec)
        (fun r => match decode_activities (Activities r) with inl _ => None | inr l => Some (l, ar_Continue r) end)
        (fst out) (snd out))
  /\ (let out := event_Create eb clock user eq in
      let spec := q_Spec eq in
      handled "EventQuery" (es_StartTime spec) (es_EndTime spec) (at_effective clock)
        (event_valid eb (at_validation clock) (at_cursor clock) spec) user eq
        (run_query eb spec) (fun r => Some (eq_Events r, eq_Continue r)) (fst out) (snd out)).
Proof.
  split; [|split]; apply authorised_handled;
    auto using auditlog_validate_total, auditlog_validate_ok, activity_validate_total, activity_validate_ok,
      event_validate_total, event_validate_ok; try (by eexists); try done.
  intros r s e. destruct (decode_activities (Activities r)); [by eexists|done].
Qed.
End HandlerTheorems.

(* ------------------------------------------------------------------ *)
(** ** Facet requests *)

(** fields.go, [init]: the fields described and the columns are of the same
    names. *)
Definition same_fields {A B} (fields : list (string * A)) (columns : list (string * B)) : bool :=
  forallb (fun f => bool_decide (f ∈ map fst columns)) (map fst fields)
  && forallb (fun f => bool_decide (f ∈ map fst fields)) (map fst columns).
Lemma facet_tables_checked :
  same_fields AuditLogFacetFields auditLogFacetColumnMapping = true
  /\ same_fields ActivityFacetFields activityFacetColumnMapping = true
  /\ same_fields EventFacetFields eventFacetColumnMapping = true.
Proof. repeat split. Qed.

Lemma assoc_in {A} (t : list (string * A)) (k : string) : k ∈ map fst t <-> exists v, assoc t k = Some v.
Proof.
  induction t as [|[k' v] t IH]; simpl; [split; [by intros ?%elem_of_nil|by intros [? ?]]|].
  rewrite elem_of_cons, IH. destruct (String.eqb_spec k k') as [->|Hne]; [split; [by eexists|by left]|].
  split; [intros [?|?]; done|by right].
Qed.

Lemma same_fields_column {A} (fields : list (string * A)) (columns : list (string * string)) what (f : string) :
  same_fields fields columns = true ->
  is_facet_field fields f = true <-> exists col, facet_column columns what f = Ok col.
Proof.
  unfold same_fields, is_facet_field. intros [H1 H2]%andb_prop.
  rewrite forallb_forall in H1, H2. rewrite bool_decide_eq_true.
  transitivity (f ∈ map fst columns).
  { split; intros Hf.
    - by apply (bool_decide_unpack _), Is_true_true, H1, list_elem_of_In.
    - by apply (bool_decide_unpack _), Is_true_true, H2, list_elem_of_In. }
  rewrite assoc_in. unfold facet_column. destruct (assoc columns f); split; intros [? ?]; try done; by eexists.
Qed.

(** What a facet query must satisfy: one to ten facets, each over a field with
    a column, none with a negative limit. *)
Definition valid_facets (column : string -> res string) (facets : list FacetFieldSpec) : Prop :=
  0 < length facets <= 10
  /\ Forall (fun f => (exists col, column (ff_Field f) = Ok col) /\ (0 <= ff_Limit f)%Z) facets.

Section FacetLemmas.
Context (valid : string -> bool) (column : string -> res string) (names : list string).
Context (Hcol : forall f, valid f = true <-> exists col, column f = Ok col) (Hempty : valid "" = false).

Lemma facet_errors_ok (i : Z) (f : FacetFieldSpec) :
  facet_errors valid names i f = [] <-> (exists col, column (ff_Field f) = Ok col) /\ (0 <= ff_Limit f)%Z.
Proof using Hcol Hempty.
  unfold facet_errors. rewrite <- Hcol.
  destruct (String.eqb_spec (ff_Field f) "") as [E|]; [rewrite E, Hempty; split; [done|by intros []]|].
  destruct (valid (ff_Field f)); simpl; [|split; [done|by intros []]].
  destruct (Z.ltb_spec (ff_Limit f) 0); split; try done. intros []; lia.
Qed.

Lemma facets_errors_ok (fs : list FacetFieldSpec) (k : nat) :
  List.concat (imap (fun i f => facet_errors valid names (Z.of_nat (k + i)) f) fs) = []
  <-> Forall (fun f => (exists col, column (ff_Field f) = Ok col) /\ (0 <= ff_Limit f)%Z) fs.
Proof using Hcol Hempty.
  revert k. induction fs as [|f fs IH]; intros k; [done|].
  rewrite imap_cons. cbn [List.concat]. rewrite Forall_cons, <- (facet_errors_ok (Z.of_nat (k + 0)) f).
  rewrite <- (IH (S k)). rewrite (imap_ext _ (fun i f => facet_errors valid names (Z.of_nat (S k + i)) f)).
  2:{ intros i x _. simpl. by rewrite Nat.add_succ_r. }
  split; [by intros [-> ->]%app_eq_nil|by intros [-> ->]].
Qed.

Lemma validate_facets_ok (fs : list FacetFieldSpec) :
  validate_facets valid names fs = [] <-> valid_facets column fs.
Proof using Hcol Hempty.
  unfold validate_facets, valid_facets. rewrite <- (facets_errors_ok fs 0).
  destruct (Z.eqb_spec (Z.of_nat (length fs)) 0); [split; [done|lia]|].
  destruct (Z.ltb_spec 10 (Z.of_nat (length fs))); [split; [done|lia]|]. simpl. split; [split; [lia|done]|by intros []].
Qed.
End FacetLemmas.

Lemma auditlog_field_column (f : string) :
  IsValidAuditLogFacetField f = true <-> exists col, GetAuditLogFacetColumn f = Ok col.
Proof. apply same_fields_column. exact (proj1 facet_tables_checked). Qed.

Lemma auditlog_facet_error_ok (fs : list FacetFieldSpec) (i : Z) :
  auditlog_facet_error i fs = None
  <-> Forall (fun f => (exists col, GetAuditLogFacetColumn (ff_Field f) = Ok col) /\ (0 <= ff_Limit f)%Z) fs.
Proof.
  revert i. induction fs as [|f fs IH]; intros i; [done|]. cbn [auditlog_facet_error].
  rewrite Forall_cons, <- (IH (i + 1)%Z), <- auditlog_field_column.
  destruct (String.eqb_spec (ff_Field f) "") as [E|]; [rewrite E; split; [done|by intros [[]]]|].
  destruct (IsValidAuditLogFacetField (ff_Field f)); simpl; [|split; [done|by intros [[]]]].
  destruct (Z.ltb_spec (ff_Limit f) 0); [split; [done|intros [[] _]; lia]|]. split; [done|by intros []].
Qed.

Lemma validateAuditLogFacet_ok (fs : list FacetFieldSpec) :
  validateAuditLogFacetQueryInput fs = None <-> valid_facets GetAuditLogFacetColumn fs.
Proof.
  unfold validateAuditLogFacetQueryInput, valid_facets. rewrite <- (auditlog_facet_error_ok fs 0).
  destruct (Z.eqb_spec (Z.of_nat (length fs)) 0); [split; [done|lia]|].
  destruct (Z.ltb_spec 10 (Z.of_nat (length fs))); [split; [done|lia]|]. split; [split; [lia|done]|by intros []].
Qed.

(** What a facet request may come to. *)
Definition facet_handled {Spec} (user : request_user) (query : FacetQuery Spec) (valid : Prop)
    (scope : option (gmap string (list string)) -> ScopeContext) (run : Spec -> ScopeContext -> res (list FacetFieldResult))
    (out : calls Spec * resp (FacetQuery Spec)) : Prop :=
  match user with
  | Some extra =>
      (valid /\ out = ([(fqo_Spec query, scope extra)],
                       match run (fqo_Spec query) (scope extra) with
                       | Ok r => Answer {| fqo_Spec := fqo_Spec query; fqo_Status := r |}
                       | Err _ => Refuse facets_failed
                       | Panic w => Crash w
                       end))
      \/ (~ valid /\ exists e, out = ([], Refuse e))
  | None => exists e, out = ([], Refuse e)
  end.

Lemma facet_query_handled {Spec} user (query : FacetQuery Spec) refused valid scope run :
  (refused = None <-> valid) -> facet_handled user query valid scope run (facet_query query refused user scope run).
Proof.
  intros Hv. unfold facet_handled, facet_query. destruct user as [extra|], refused as [e|]; try by eexists.
  - right. split; [by rewrite <- Hv|by eexists].
  - left. split; [by apply Hv|]. unfold answer. by destruct (run _ _).
Qed.

Lemma unless_valid_ok `{FieldLib} kind errs : unless_valid kind errs = None <-> errs = [].
Proof. by destruct errs. Qed.

(** A facet request reaches the storage exactly when the user is known and
    the query names one to ten facets, each a field that has a column, with no
    negative limit; so the storage never meets a field it does not know.  The
    audit-log and event facets take the scope as the user's extra fields have
    it, the activity facets the normalised one. *)
Theorem facet_requests_handled `{FieldLib} (user : request_user)
    (arun vrun : FacetQuerySpec -> ScopeContext -> res (list FacetFieldResult)) (aq vq : FacetQuery FacetQuerySpec)
    (erun : EventFacetQuerySpec -> ScopeContext -> res (list FacetFieldResult)) (eq : FacetQuery EventFacetQuerySpec) :
  facet_handled user vq (valid_facets GetActivityFacetColumn (fq_Facets (fqo_Spec vq))) ExtractScopeFromUser vrun
    (facet_Create user vrun vq)
  /\ facet_handled user aq (valid_facets GetAuditLogFacetColumn (fq_Facets (fqo_Spec aq))) extractScopeFromUser arun
       (auditlogfacet_Create user arun aq)
  /\ facet_handled user eq (valid_facets GetEventFacetColumn (ef_Facets (fqo_Spec eq))) extractScopeFromUser erun
       (eventfacet_Create user erun eq).
Proof.
  destruct facet_tables_checked as (Ha & Hv & He).
  split; [|split]; apply facet_query_handled.
  - rewrite unless_valid_ok. apply validate_facets_ok; [|done]. intros f. by apply same_fields_column.
  - rewrite <- validateAuditLogFacet_ok. by destruct (validateAuditLogFacetQueryInput _).
  - rewrite unless_valid_ok. apply validate_facets_ok; [|done]. intros f. by apply same_fields_column.
Qed.

(* ------------------------------------------------------------------ *)
(** ** The real backends *)

Section Backends.
Context `{FilterLib} `{CursorLib} `{EventCursorLib} `{ClickHouse} `{EventLib} `{EventsDB}.

(** The clocks of one storage call. *)
Record storage_clock := { s_now : time; s_clock : time; s_check : time; s_issued : time }.

Definition audit_backend (config : ClickHouseConfig) (tp : option string) (k : storage_clock)
  : QueryBackend AuditLogQuerySpec QueryResult :=
  {| GetMaxQueryWindow := MaxQueryWindow config; GetMaxPageSize := MaxPageSize config;
     run_query := QueryAuditLogs config tp (s_now k) (s_clock k) (s_issued k) |}.
Definition activity_backend (config : ClickHouseConfig) (tp : option string) (k : storage_clock)
  : QueryBackend ActivityQuerySpec ActivityQueryResult :=
  {| GetMaxQueryWindow := MaxQueryWindow config; GetMaxPageSize := MaxPageSize config;
     run_query := QueryActivities config tp (s_now k) (s_clock k) (s_issued k) |}.
Definition event_backend (database : string) (st : edb) (supported : list string) (k : storage_clock)
  : QueryBackend EventQuerySpec EventQueryResult :=
  {| GetMaxQueryWindow := eventQueryMaxWindow; GetMaxPageSize := eventQueryMaxLimit;
     run_query := QueryEvents database st supported (s_now k) (s_clock k) (s_check k) (s_issued k) |}.

(** The storage serves the limit it is given: an accepted limit is not cut. *)
Lemma accepted_limit_served (config : ClickHouseConfig) (limit : Z) :
  (0 < MaxPageSize config)%Z -> valid_limit (MaxPageSize config) limit -> (0 < limit)%Z ->
  page_limit config limit = limit.
Proof.
  unfold valid_limit, page_limit. intros Hm [_ Hl] Hp. destruct (Z.leb_spec limit 0); [lia|].
  destruct (Z.ltb_spec (MaxPageSize config) limit); lia.
Qed.

Lemma accepted_event_limit_served (limit : Z) :
  valid_limit eventQueryMaxLimit limit -> (0 < limit)%Z -> resolveEventQueryLimit limit = limit.
Proof.
  unfold valid_limit, resolveEventQueryLimit, eventQueryMaxLimit. intros [_ Hl] Hp.
  destruct (Z.leb_spec limit 0); [lia|]. destruct (Z.ltb_spec 1000 limit); lia.
Qed.
End Backends.

(* ------------------------------------------------------------------ *)
(** ** What the handlers do not check *)

(** A parent resource of a kind the scopes do not know is read as no parent at
    all: the user gets the scope of the platform, which restricts nothing. *)
Lemma unknown_parent_unrestricted (kind name : string) :
  kind ∉ ["Organization"; "Project"; "User"] ->
  let extra := Some (<[ParentKindExtraKey := [kind]]> {[ParentNameExtraKey := [name]]}) in
  audit_scope (ExtractScopeFromUser extra) = []
  /\ extractScopeFromUser extra = {| sc_Type := kind; sc_Name := name |}.
Proof.
  intros Hk extra. unfold extra, ExtractScopeFromUser, extractScopeFromUser. cbn [default].
  rewrite lookup_insert_eq, lookup_insert_ne by done. rewrite lookup_singleton_eq. cbn [default].
  split; [|done].
  assert (kind <> "Organization" /\ kind <> "Project" /\ kind <> "User") as (H1 & H2 & H3)
    by (repeat split; intros ->; apply Hk; set_solver).
  cbn [id]. apply String.eqb_neq in H1, H2, H3. by rewrite H1, H2, H3.
Qed.

Module ToyRest.
Definition clock : request_clock :=
  {| at_validation := ToyStore.clock; at_cursor := ToyStore.clock; at_effective := ToyStore.clock |}.
Definition sclock : storage_clock :=
  {| s_now := ToyStore.clock; s_clock := ToyStore.clock; s_check := ToyStore.clock; s_issued := ToyStore.clock |}.
Definition admin : request_user := Some None.
#[export] Instance json : ActivityJson := {| json_unmarshal_activity d := inl (Ext d) |}.
Definition activity_query (token : string) : QueryObject ActivityQuerySpec Activity :=
  {| q_Name := "q"; q_Results := []; q_Continue := ""; q_EffectiveStartTime := ""; q_EffectiveEndTime := "";
     q_Spec := {| StartTime := "now-1h"; EndTime := "now"; Search := ""; Filter := ""; Limit := 1; Continue_ := token |} |}.
Definition audit_query (start token : string) (limit : Z) : QueryObject AuditLogQuerySpec StoredEvent :=
  {| q_Name := "q"; q_Results := []; q_Continue := ""; q_EffectiveStartTime := ""; q_EffectiveEndTime := "";
     q_Spec := {| aq_StartTime := start; aq_EndTime := "now"; aq_Filter := ""; aq_Limit := limit; aq_Continue := token |} |}.
Definition event_query (selector : string) : QueryObject EventQuerySpec EventRecord :=
  {| q_Name := "q"; q_Results := []; q_Continue := ""; q_EffectiveStartTime := ""; q_EffectiveEndTime := "";
     q_Spec := {| es_StartTime := "now-1h"; es_EndTime := "now"; es_Namespace := ""; es_FieldSelector := selector;
                  es_Limit := 1; es_Continue := "" |} |}.
End ToyRest.

Section RestRuns.
#[local] Existing Instance ToyFilter.engine.
#[local] Existing Instance ToyFilter.lib.
#[local] Existing Instance ToyStore.lib.
#[local] Existing Instance ToyStore.store.
#[local] Existing Instance ToyEvents.lib.
#[local] Existing Instance ToyEvents.db.
#[local] Existing Instance ToyEventRuns.ecursors.
#[local] Existing Instance ToyRest.json.
Import ToyRest.

(** A limit over the page size, an end before the start, a token that is not
    one: every error is reported, and nothing is asked of the storage. *)
Example audit_query_rejected :
  auditlog_Create (audit_backend ToyStore.config None sclock) clock admin (audit_query "now" "junk" 5000)
  = ([], Refuse (NewInvalid "AuditLogQuery" "q"
       [Invalid [Child "spec"; Child "endTime"] "now" "endTime must be after startTime";
        Invalid [Child "spec"; Child "limit"] "5000" "limit of 5000 exceeds maximum of 1000. Set limit to 1000 or less";
        Invalid [Child "spec"; Child "continue"] "junk" "cannot decode pagination cursor: illegal base64 data"])).
Proof. vm_compute. reflexivity. Qed.

Example audit_query_answered :
  exists q, auditlog_Create (audit_backend ToyStore.config None sclock) clock admin (audit_query "now-1h" "" 1)
            = ([(q_Spec (audit_query "now-1h" "" 1), ToyStore.platform)], Answer q)
  /\ map se_AuditID (q_Results q) = ["a"] /\ q_EffectiveStartTime q = "2024-05-01T10:00:05Z".
Proof. eexists. vm_compute. done. Qed.

(** The token of an activity query is not validated: one that cannot be used is
    answered as a failure of the service, to be tried again. *)
Lemma bad_activity_token_is_unavailable :
  auditlog_validateQuerySpec (audit_backend ToyStore.config None sclock) ToyStore.clock ToyStore.clock
    (q_Spec (audit_query "now-1h" "junk" 1)) <> Ok []
  /\ activity_Create (activity_backend ToyStore.config None sclock) clock admin (activity_query "junk")
     = ([(q_Spec (activity_query "junk"), ToyStore.platform)],
        Refuse (ServiceUnavailable "Failed to execute query. Try again or contact support if the problem persists.")).
Proof. split; [vm_compute; discriminate|vm_compute; reflexivity]. Qed.

(** So is a field selector no event query can use. *)
Lemma bad_event_selector_is_unavailable :
  event_Create (event_backend "audit" (@nil row) event_columns sclock) clock admin (event_query "bogus=1")
  = ([(q_Spec (event_query "bogus=1"), ToyStore.platform)], Refuse query_failed).
Proof. vm_compute. reflexivity. Qed.
End RestRuns.
