(* ===== verification/EventsRest.v ===== *)
(** * internal/registry/activity/events: the two APIs of Kubernetes events

    Events are kept as [events.k8s.io/v1] objects ([EventStore]) and served
    under both [v1] and [events.k8s.io/v1].  Models [conversion.go] (the
    conversions between the two), [storage.go] and [eventsv1_storage.go] (the
    REST operations, which differ only in the conversion around the store),
    and [scope.go].  A handler returns the store, what was published, and its
    response. *)

From Stdlib Require Import Ascii String.
From stdpp Require Import base numbers list strings gmap pretty.
From Stdlib Require Import ZArith Lia.
From S2P Require Import Prelude GoLib Types TimeUtil CelPolicy Activity Dlq EventProc CelFilter Query EventStore Watch Rest.

(* ------------------------------------------------------------------ *)
(** ** conversion.go *)

(** [v1.Event]; [ce_other]: the rest of the object metadata. *)
Record CoreEvent := {
  ce_Namespace : string; ce_Name : string; ce_UID : string; ce_ResourceVersion : string;
  ce_Annotations : option (gmap string string); ce_other : string;
  ce_InvolvedObject : ObjectRef_; ce_Reason : string; ce_Message : string;
  ce_SourceComponent : string; ce_SourceHost : string;
  ce_FirstTimestamp : time; ce_LastTimestamp : time; ce_Count : Z (* int32 *); ce_Type : string;
  ce_EventTime : time; ce_Series : option EventSeries; ce_Action : string; ce_Related : option ObjectRef_;
  ce_ReportingController : string; ce_ReportingInstance : string }.

Definition ConvertCoreV1ToEventsV1 (c : CoreEvent) : Event :=
  let first := ce_FirstTimestamp c in
  let last_ := ce_LastTimestamp c in
  {| ev_Namespace := ce_Namespace c; ev_Name := ce_Name c; ev_UID := ce_UID c;
     ev_ResourceVersion := ce_ResourceVersion c; ev_Annotations := ce_Annotations c;
     ev_EventTime := if IsZero first then 0%Z else first;
     ev_FirstTimestamp := if IsZero first then 0%Z else first;
     ev_LastTimestamp := if IsZero last_ then 0%Z else last_;
     ev_Count := ce_Count c;
     ev_Series := if IsZero last_ then None
                  else if (1 <? ce_Count c)%Z
                       then Some {| es_Count := ce_Count c; es_LastObservedTime := last_ |} else None;
     ev_rest := {| ev_Regarding := ce_InvolvedObject c; ev_Related := ce_Related c; ev_Reason := ce_Reason c;
                   ev_Note := ce_Message c; ev_Type := ce_Type c; ev_Action := "Event";
                   ev_ReportingController := ce_SourceComponent c; ev_ReportingInstance := ce_SourceHost c;
                   ev_DeprecatedSource := ("", ""); ev_other := ce_other c |} |}.

Definition ConvertEventsV1ToCoreV1 (e : Event) : CoreEvent :=
  let r := ev_rest e in
  let '(first, last_, count) :=
    if IsZero (ev_EventTime e) then (ev_FirstTimestamp e, ev_LastTimestamp e, ev_Count e)
    else match ev_Series e with
         | Some s => (ev_EventTime e, es_LastObservedTime s, es_Count s)
         | None => (ev_EventTime e, ev_EventTime e, ev_Count e)
         end in
  {| ce_Namespace := ev_Namespace e; ce_Name := ev_Name e; ce_UID := ev_UID e;
     ce_ResourceVersion := ev_ResourceVersion e; ce_Annotations := ev_Annotations e; ce_other := ev_other r;
     ce_InvolvedObject := ev_Regarding r; ce_Reason := ev_Reason r; ce_Message := ev_Note r;
     ce_SourceComponent := ev_ReportingController r; ce_SourceHost := ev_ReportingInstance r;
     ce_FirstTimestamp := first; ce_LastTimestamp := last_; ce_Count := count; ce_Type := ev_Type r;
     ce_EventTime := 0%Z; ce_Series := None; ce_Action := ""; ce_Related := ev_Related r;
     ce_ReportingController := ""; ce_ReportingInstance := "" |}.

(* ------------------------------------------------------------------ *)
(** ** The requests *)

(** The namespace of a request, when it has one. *)
Definition request_namespace := option string.
Definition named_namespace (ns : request_namespace) : option string :=
  match ns with Some n => if (n =? "")%string then None else Some n | None => None end.

(** [scope.go]: the same scopes as those of the queries. *)
Definition events_ExtractScopeFromUser : option (gmap string (list string)) -> ScopeContext :=
  ExtractScopeFromUser.

(** [errors.IsNotFound], [IsBadRequest] or [IsInternalError]: a status error in
    the chain of wrapped errors. *)
Fixpoint is_status_error (e : error) : bool :=
  match e with
  | Sentinel _ => true
  | Ext _ => false
  | Errorf ps => List.existsb (fun p => match p with PWrap e' => is_status_error e' | _ => false end) ps
  | Join es => List.existsb is_status_error es
  | PolicyEvaluationError _ _ e' => is_status_error e'
  end.

Definition convertToStatusError (err : error) : api_error :=
  if is_status_error err then Plain err
  else ServiceUnavailable "Failed to access events storage. Please try again later.".

Definition namespace_required : api_error := BadRequest "namespace is required".

(** The two APIs: their objects, as stored and as read back. *)
Class EventApi (Obj : Type) := {
  not_an_event : error;
  to_stored : Obj -> Event;
  of_stored : Event -> Obj;
  obj_Namespace : Obj -> string;
  set_Namespace : string -> Obj -> Obj;
  set_Name : string -> Obj -> Obj }.

Definition core_set_key (ns name : string) (c : CoreEvent) : CoreEvent :=
  {| ce_Namespace := ns; ce_Name := name; ce_UID := ce_UID c; ce_ResourceVersion := ce_ResourceVersion c;
     ce_Annotations := ce_Annotations c; ce_other := ce_other c; ce_InvolvedObject := ce_InvolvedObject c;
     ce_Reason := ce_Reason c; ce_Message := ce_Message c; ce_SourceComponent := ce_SourceComponent c;
     ce_SourceHost := ce_SourceHost c; ce_FirstTimestamp := ce_FirstTimestamp c; ce_LastTimestamp := ce_LastTimestamp c;
     ce_Count := ce_Count c; ce_Type := ce_Type c; ce_EventTime := ce_EventTime c; ce_Series := ce_Series c;
     ce_Action := ce_Action c; ce_Related := ce_Related c; ce_ReportingController := ce_ReportingController c;
     ce_ReportingInstance := ce_ReportingInstance c |}.
Definition v1_set_key (ns name : string) (e : Event) : Event :=
  {| ev_Namespace := ns; ev_Name := name; ev_UID := ev_UID e; ev_ResourceVersion := ev_ResourceVersion e;
     ev_Annotations := ev_Annotations e; ev_EventTime := ev_EventTime e; ev_FirstTimestamp := ev_FirstTimestamp e;
     ev_LastTimestamp := ev_LastTimestamp e; ev_Count := ev_Count e; ev_Series := ev_Series e; ev_rest := ev_rest e |}.

#[export] Instance CoreApi : EventApi CoreEvent := {|
  not_an_event := Errorf [PStr "not an Event"];
  to_stored := ConvertCoreV1ToEventsV1; of_stored := ConvertEventsV1ToCoreV1;
  obj_Namespace := ce_Namespace;
  set_Namespace ns c := core_set_key ns (ce_Name c) c; set_Name n c := core_set_key (ce_Namespace c) n c |}.
#[export] Instance V1Api : EventApi Event := {|
  not_an_event := Errorf [PStr "not an events.k8s.io/v1 Event"];
  to_stored e := e; of_stored e := e;
  obj_Namespace := ev_Namespace;
  set_Namespace ns e := v1_set_key ns (ev_Name e) e; set_Name n e := v1_set_key (ev_Namespace e) n e |}.

(** The lists, with their metadata. *)
Definition ConvertCoreV1EventListToEventsV1 {Meta} (l : Meta * list CoreEvent) : Meta * list Event :=
  (fst l, map ConvertCoreV1ToEventsV1 (snd l)).
Definition ConvertEventsV1EventListToCoreV1 {Meta} (l : Meta * list Event) : Meta * list CoreEvent :=
  (fst l, map ConvertEventsV1ToCoreV1 (snd l)).

(** storage/fields.go: the part of an event a column of the store holds.
    [field_path]: of a reference, which [ObjectRef_] keeps with the rest. *)
Definition annotation (c : CoreEvent) (key : string) : string := default "" (default ∅ (ce_Annotations c) !! key).
Definition of_related (f : ObjectRef_ -> string) (c : CoreEvent) : string :=
  match ce_Related c with None => "" | Some r => f r end.
Definition field_readers (field_path : ObjectRef_ -> string) : list (string * (CoreEvent -> string)) := [
  ("namespace", ce_Namespace); ("name", ce_Name); ("uid", ce_UID);
  ("regarding_api_version", fun c => ref_APIVersion (ce_InvolvedObject c)); ("regarding_kind", fun c => ref_Kind (ce_InvolvedObject c));
  ("regarding_namespace", fun c => ref_Namespace (ce_InvolvedObject c)); ("regarding_name", fun c => ref_Name (ce_InvolvedObject c));
  ("regarding_uid", fun c => ref_UID (ce_InvolvedObject c)); ("regarding_field_path", fun c => field_path (ce_InvolvedObject c));
  ("related_api_version", of_related ref_APIVersion); ("related_kind", of_related ref_Kind);
  ("related_namespace", of_related ref_Namespace); ("related_name", of_related ref_Name);
  ("reason", ce_Reason); ("type", ce_Type); ("source_component", ce_SourceComponent); ("source_host", ce_SourceHost);
  ("source_plane_type", fun c => annotation c SourcePlaneTypeAnnotation); ("source_cluster", fun c => annotation c SourceClusterAnnotation);
  ("source_region", fun c => annotation c SourceRegionAnnotation); ("source_city", fun c => annotation c SourceCityAnnotation)].
Definition GetEventFieldValue (field_path : ObjectRef_ -> string) (event : CoreEvent) (column : string) : string :=
  match List.find (fun r => (fst r =? column)%string) (field_readers field_path) with
  | Some (_, read) => read event
  | None => ""
  end.

(** The clocks and the UID one write takes from its surroundings. *)
Record write_env := { we_uuid : string; we_now : time; we_insert : time }.

Section Rest.
Context `{EventLib} `{EventsDB} `{JetStream} (b : EventsBackend) {Obj : Type} `{EventApi Obj}.

(** The objects a request carries may be of another type ([None]); validation
    functions and the update of an object come from the API machinery. *)
Definition validate_func := option (Obj -> option api_error).
Definition run_validation (v : validate_func) (o : Obj) : option api_error :=
  match v with Some f => f o | None => None end.

Definition written {X} (out : edb * list pub * res X) (f : X -> Obj) : edb * list pub * resp Obj :=
  let '(st, log, r) := out in (st, log, answer r convertToStatusError (fun x => Answer (f x))).

Definition rest_Create (st : edb) (env : write_env) (ns : request_namespace) (user : request_user)
    (createValidation : validate_func) (obj : option Obj) : edb * list pub * resp Obj :=
  match obj with
  | None => (st, [], Refuse (Plain not_an_event))
  | Some event =>
      match named_namespace ns with
      | None => (st, [], Refuse namespace_required)
      | Some namespace =>
          match user with
          | None => (st, [], Refuse (InternalError no_user))
          | Some extra =>
              let scope := events_ExtractScopeFromUser extra in
              if (negb (obj_Namespace event =? "") && negb (obj_Namespace event =? namespace))%string%bool
              then (st, [], Refuse (BadRequest "event namespace does not match request namespace"))
              else
                let event := if (obj_Namespace event =? "")%string then set_Namespace namespace event else event in
                match run_validation createValidation event with
                | Some e => (st, [], Refuse e)
                | None => written (Create b st (we_uuid env) (we_now env) (we_insert env) scope (to_stored event)) of_stored
                end
          end
      end
  end.

Definition rest_Get (st : edb) (ns : request_namespace) (user : request_user) (name : string) : resp Obj :=
  match named_namespace ns, user with
  | None, _ => Refuse namespace_required
  | Some _, None => Refuse (InternalError no_user)
  | Some namespace, Some extra =>
      answer (Get b st namespace name (events_ExtractScopeFromUser extra)) convertToStatusError
        (fun e => Answer (of_stored e))
  end.

(** [None]: the whole cluster. *)
Definition rest_List (st : edb) (supported : list string) (now : time) (ns : request_namespace)
    (user : request_user) (options : ListOptions) : resp (string * string * list Obj) :=
  match user with
  | None => Refuse (InternalError no_user)
  | Some extra =>
      answer (List b st supported now (default "" ns) options (events_ExtractScopeFromUser extra)) convertToStatusError
        (fun l => Answer (el_ResourceVersion l, el_Continue l, map of_stored (el_Items l)))
  end.

(** [objInfo.UpdatedObject] on the existing object, or on none; the answer says
    whether the object was created. *)
Definition rest_Update (st : edb) (env : write_env) (ns : request_namespace) (user : request_user) (name : string)
    (UpdatedObject : option Obj -> error + option Obj) (createValidation : validate_func)
    (updateValidation : option (Obj -> Obj -> option api_error)) (forceAllowCreate : bool)
  : edb * list pub * resp (Obj * bool) :=
  let stop e := (st, [], Refuse e) in
  let tagged {X} (out : edb * list pub * res X) (f : X -> Obj) (created : bool) :=
    let '(st', log, r) := out in (st', log, answer r convertToStatusError (fun x => Answer (f x, created))) in
  match named_namespace ns, user with
  | None, _ => stop namespace_required
  | Some _, None => stop (InternalError no_user)
  | Some namespace, Some extra =>
      let scope := events_ExtractScopeFromUser extra in
      match Get b st namespace name scope with
      | Panic w => (st, [], Crash w)
      | Err err =>
          if (IsNotFound err && forceAllowCreate)%bool then
            match UpdatedObject None with
            | inl e => stop (Plain e)
            | inr None => stop (Plain not_an_event)
            | inr (Some event) =>
                let event := set_Name name (set_Namespace namespace event) in
                match run_validation createValidation event with
                | Some e => stop e
                | None => tagged (Create b st (we_uuid env) (we_now env) (we_insert env) scope (to_stored event)) of_stored true
                end
            end
          else stop (convertToStatusError err)
      | Ok stored =>
          let existing := of_stored stored in
          match UpdatedObject (Some existing) with
          | inl e => stop (Plain e)
          | inr None => stop (Plain not_an_event)
          | inr (Some event) =>
              match match updateValidation with Some f => f event existing | None => None end with
              | Some e => stop e
              | None => tagged (Update b st (we_now env) (we_insert env) scope (to_stored event)) of_stored false
              end
          end
      end
  end.

(** The deleted object; none when there was none. *)
Definition rest_Delete (st : edb) (ns : request_namespace) (user : request_user) (name : string)
    (deleteValidation : validate_func) : edb * resp (option Obj) :=
  match named_namespace ns, user with
  | None, _ => (st, Refuse namespace_required)
  | Some _, None => (st, Refuse (InternalError no_user))
  | Some namespace, Some extra =>
      let scope := events_ExtractScopeFromUser extra in
      match Get b st namespace name scope with
      | Panic w => (st, Crash w)
      | Err err => (st, if IsNotFound err then Answer None else Refuse (convertToStatusError err))
      | Ok stored =>
          let existing := of_stored stored in
          match run_validation deleteValidation existing with
          | Some e => (st, Refuse e)
          | None =>
              let (st', r) := Delete b st namespace name scope in
              (st', answer r convertToStatusError (fun _ => Answer (Some existing)))
          end
      end
  end.
End Rest.

(** [EventsV1REST], the same handlers on [events.k8s.io/v1] events. *)
Section EventsV1REST.
Context `{EventLib} `{EventsDB} `{JetStream} (b : EventsBackend).
Definition v1_Create (st : edb) (env : write_env) (ns : request_namespace) (user : request_user)
    (createValidation : validate_func) (obj : option Event) : edb * list pub * resp Event :=
  rest_Create b st env ns user createValidation obj.
Definition v1_Get (st : edb) (ns : request_namespace) (user : request_user) (name : string) : resp Event :=
  rest_Get b st ns user name.
Definition v1_List (st : edb) (supported : list string) (now : time) (ns : request_namespace)
    (user : request_user) (options : ListOptions) : resp (string * string * list Event) :=
  rest_List b st supported now ns user options.
Definition v1_Update (st : edb) (env : write_env) (ns : request_namespace) (user : request_user) (name : string)
    (UpdatedObject : option Event -> error + option Event) (createValidation : validate_func)
    (updateValidation : option (Event -> Event -> option api_error)) (forceAllowCreate : bool)
  : edb * list pub * resp (Event * bool) :=
  rest_Update b st env ns user name UpdatedObject createValidation updateValidation forceAllowCreate.
Definition v1_Delete (st : edb) (ns : request_namespace) (user : request_user) (name : string)
    (deleteValidation : validate_func) : edb * resp (option Event) :=
  rest_Delete b st ns user name deleteValidation.
End EventsV1REST.

(* ------------------------------------------------------------------ *)
(** ** Watches *)

(** [strconv.ParseUint(s, 10, 64)]. *)
Definition ParseUint64 (s : string) : option Z :=
  if ((s =? "") || negb (all_bytes is_digit s))%string%bool then None
  else let v := dec_val 0 s in if (v <? 2 ^ 64)%Z then Some v else None.

(** A [fields.Selector]: the value a field must be equal to, if the selector
    requires one; [None]: nil or empty. *)
Definition RequiresExactMatch := option (string -> option string).
Definition exact_match (sel : RequiresExactMatch) (field : string) (dflt : string) : string :=
  match sel with Some f => default dflt (f field) | None => dflt end.

(** The resource version of a request; one that does not parse is ignored. *)
Definition watch_version (resourceVersion : string) : Z :=
  if ((resourceVersion =? "") || (resourceVersion =? "0"))%string%bool then 0%Z
  else default 0%Z (ParseUint64 resourceVersion).

(** [parseFieldSelectorForWatch] and its [events.k8s.io/v1] version, which also
    reads [reportingController]. *)
Definition events_watch_filter (namespace : string) (rv : Z) (sel : RequiresExactMatch) (source : string)
  : EventsWatchFilter :=
  let get f := exact_match sel f "" in
  {| ewf_ResourceVersion := rv; ewf_Namespace := namespace;
     ewf_InvolvedObjectKind := get "regarding.kind"; ewf_InvolvedObjectNamespace := get "regarding.namespace";
     ewf_InvolvedObjectName := get "regarding.name"; ewf_InvolvedObjectUID := get "regarding.uid";
     ewf_Reason := get "reason"; ewf_Type := get "type"; ewf_Source := source |}.
Definition parseFieldSelectorForWatch (namespace : string) (rv : Z) (sel : RequiresExactMatch) : EventsWatchFilter :=
  events_watch_filter namespace rv sel (exact_match sel "source" "").
Definition parseFieldSelectorForWatchV1 (namespace : string) (rv : Z) (sel : RequiresExactMatch) : EventsWatchFilter :=
  events_watch_filter namespace rv sel (exact_match sel "reportingController" (exact_match sel "source" "")).

(** [Watch]; the watcher's own errors are returned as they are. *)
Definition rest_Watch `{WatchJS} (parse : string -> Z -> RequiresExactMatch -> EventsWatchFilter)
    (watcher : option NATSWatcher) (ns : request_namespace) (user : request_user)
    (resourceVersion : string) (sel : RequiresExactMatch) : resp consumer :=
  match watcher with
  | None => Refuse (ServiceUnavailable "Watch API is not available. NATS is not configured.")
  | Some _ =>
      match user with
      | None => Refuse (ServiceUnavailable "Unable to process request. Please try again.")
      | Some extra =>
          answer (events_Watch watcher (events_ExtractScopeFromUser extra)
                    (parse (default "" ns) (watch_version resourceVersion) sel)) Plain Answer
      end
  end.

Definition v1_Watch `{WatchJS} (watcher : option NATSWatcher) (ns : request_namespace) (user : request_user)
    (resourceVersion : string) (sel : RequiresExactMatch) : resp consumer :=
  rest_Watch parseFieldSelectorForWatchV1 watcher ns user resourceVersion sel.

(* ------------------------------------------------------------------ *)
(** ** What a conversion keeps *)

(** A [v1] event that has been through the store's version. *)
Definition core_normal (c : CoreEvent) : CoreEvent :=
  let first := ce_FirstTimestamp c in
  let last_ := ce_LastTimestamp c in
  {| ce_Namespace := ce_Namespace c; ce_Name := ce_Name c; ce_UID := ce_UID c;
     ce_ResourceVersion := ce_ResourceVersion c; ce_Annotations := ce_Annotations c; ce_other := ce_other c;
     ce_InvolvedObject := ce_InvolvedObject c; ce_Reason := ce_Reason c; ce_Message := ce_Message c;
     ce_SourceComponent := ce_SourceComponent c; ce_SourceHost := ce_SourceHost c;
     ce_FirstTimestamp := first;
     ce_LastTimestamp := if (IsZero first || (negb (IsZero last_) && (1 <? ce_Count c)%Z))%bool then last_ else first;
     ce_Count := ce_Count c; ce_Type := ce_Type c;
     ce_EventTime := 0%Z; ce_Series := None; ce_Action := ""; ce_Related := ce_Related c;
     ce_ReportingController := ""; ce_ReportingInstance := "" |}.

Lemma zero_time (t : time) : (if IsZero t then 0%Z else t) = t.
Proof. unfold IsZero. by destruct (Z.eqb_spec t 0) as [->|]. Qed.

Lemma core_via_v1 (c : CoreEvent) : ConvertEventsV1ToCoreV1 (ConvertCoreV1ToEventsV1 c) = core_normal c.
Proof.
  unfold ConvertEventsV1ToCoreV1, ConvertCoreV1ToEventsV1, core_normal.
  cbn [ev_Namespace ev_Name ev_UID ev_ResourceVersion ev_Annotations ev_EventTime ev_FirstTimestamp ev_LastTimestamp
       ev_Count ev_Series ev_rest ev_Regarding ev_Related ev_Reason ev_Note ev_Type ev_ReportingController
       ev_ReportingInstance ev_other es_Count es_LastObservedTime]. rewrite !zero_time.
  destruct (IsZero (ce_FirstTimestamp c)) eqn:Ef; cbn [orb]; [done|].
  destruct (IsZero (ce_LastTimestamp c)); cbn [negb andb]; [done|]. by destruct (1 <? ce_Count c)%Z.
Qed.

(** Every column of a field selector or of a facet has its reader, and on a
    stored event the source columns are the reporting controller and instance,
    as the table computes them (migrations/008). *)
Lemma selector_columns_read path :
  forallb (fun col => bool_decide (col ∈ map fst (field_readers path))) (event_columns ++ map snd eventFacetColumnMapping) = true.
Proof. reflexivity. Qed.
Lemma stored_source_columns path e :
  GetEventFieldValue path (ConvertEventsV1ToCoreV1 e) "source_component" = ev_ReportingController (ev_rest e)
  /\ GetEventFieldValue path (ConvertEventsV1ToCoreV1 e) "source_host" = ev_ReportingInstance (ev_rest e).
Proof.
  unfold GetEventFieldValue, ConvertEventsV1ToCoreV1. cbn [List.find field_readers fst String.eqb].
  destruct (IsZero _); [done|]. by destruct (ev_Series e).
Qed.

(** A [v1] event keeps, through the store's version and back, its identity,
    metadata, involved and related objects, reason, message, type, source,
    count and first timestamp; it keeps its last timestamp when it was seen
    more than once or never stamped first, and then a further round changes
    nothing: the trip is idempotent, and the identity exactly on events without
    the newer fields whose last timestamp is so. *)
Theorem event_conversion_roundtrip (c : CoreEvent) :
  let back := ConvertEventsV1ToCoreV1 (ConvertCoreV1ToEventsV1 c) in
  back = core_normal c
  /\ ConvertEventsV1ToCoreV1 (ConvertCoreV1ToEventsV1 back) = back
  /\ (back = c <->
        ce_EventTime c = 0%Z /\ ce_Series c = None /\ ce_Action c = "" /\ ce_ReportingController c = ""
        /\ ce_ReportingInstance c = ""
        /\ (ce_LastTimestamp c = ce_FirstTimestamp c \/ ce_FirstTimestamp c = 0%Z
            \/ (ce_LastTimestamp c <> 0%Z /\ (1 < ce_Count c)%Z))).
Proof.
  cbv zeta. rewrite !core_via_v1. split; [done|]. split.
  - unfold core_normal. cbn [ce_FirstTimestamp ce_LastTimestamp ce_Count].
    destruct (IsZero (ce_FirstTimestamp c)) eqn:Ef; [done|].
    destruct (IsZero (ce_LastTimestamp c)) eqn:El, (1 <? ce_Count c)%Z; cbn; by rewrite ?Ef, ?El.
  - unfold core_normal. destruct c. cbn. unfold IsZero. split.
    + intros [= E <- <- <- <- <-]. split_and!; try done.
      destruct (Z.eqb_spec ce_FirstTimestamp0 0); [by right; left|].
      destruct (Z.eqb_spec ce_LastTimestamp0 0), (Z.ltb_spec 1 ce_Count0); cbn in E; auto.
    + intros (-> & -> & -> & -> & -> & Hl). f_equal.
      destruct (Z.eqb_spec ce_FirstTimestamp0 0); [done|].
      destruct (Z.eqb_spec ce_LastTimestamp0 0), (Z.ltb_spec 1 ce_Count0); cbn; try done;
        destruct Hl as [Hl|[Hl|[Hl1 Hl2]]]; try done; lia.
Qed.

(* ------------------------------------------------------------------ *)
(** ** Tenants *)

Section Isolation.
Context `{EventLib} `{EventsDB} `{JetStream} (b : EventsBackend) `{!EventsDBLaws b} {Obj : Type} `{EventApi Obj}.
Context (scope : ScopeContext) (extra : option (gmap string (list string))).
Context (Hextra : ExtractScopeFromUser extra = scope) (Hs : tenant_scope scope).

Lemma tenant_only_refl (st : edb) : tenant_only b scope st st [].
Proof. split; [by left|constructor]. Qed.

Lemma answer_Answer {A B} (m : res A) onErr (f : A -> resp B) (x : B) :
  answer m onErr f = Answer x -> exists a, m = Ok a /\ f a = Answer x.
Proof. destruct m; simpl; [eauto|done..]. Qed.

Lemma rest_Create_tenant (st : edb) env ns v (obj : option Obj) st' log r :
  rest_Create b st env ns (Some extra) v obj = (st', log, r) -> tenant_only b scope st st' log.
Proof using All.
  unfold rest_Create. destruct obj as [e|]; [|by intros [= <- <- _]; apply tenant_only_refl].
  destruct (named_namespace ns); [|by intros [= <- <- _]; apply tenant_only_refl].
  unfold events_ExtractScopeFromUser. rewrite Hextra.
  destruct (_ && _)%bool; [by intros [= <- <- _]; apply tenant_only_refl|].
  destruct (run_validation _ _); [by intros [= <- <- _]; apply tenant_only_refl|].
  unfold written. destruct (Create b st _ _ _ scope _) as [[st1 log1] r1] eqn:Hc. intros [= <- <- _].
  by eapply (Create_tenant_only b).
Qed.

Lemma rest_Update_tenant (st : edb) env ns name upd v uv force st' log (r : resp (Obj * bool)) :
  rest_Update b st env ns (Some extra) name upd v uv force = (st', log, r) -> tenant_only b scope st st' log.
Proof using All.
  unfold rest_Update, events_ExtractScopeFromUser. rewrite Hextra.
  destruct (named_namespace ns); [|by intros [= <- <- _]; apply tenant_only_refl].
  destruct (Get b st _ _ _) as [g|err|w]; [| |by intros [= <- <- _]; apply tenant_only_refl].
  - destruct (upd _) as [?|[e|]]; [by intros [= <- <- _]; apply tenant_only_refl| |by intros [= <- <- _]; apply tenant_only_refl].
    destruct (match uv with Some f => _ | None => _ end); [by intros [= <- <- _]; apply tenant_only_refl|].
    destruct (Update b st _ _ scope _) as [[st1 log1] r1] eqn:Hc. intros [= <- <- _].
    by eapply (Update_tenant_only b).
  - destruct (_ && _)%bool; [|by intros [= <- <- _]; apply tenant_only_refl].
    destruct (upd None) as [?|[e|]]; [by intros [= <- <- _]; apply tenant_only_refl| |by intros [= <- <- _]; apply tenant_only_refl].
    destruct (run_validation _ _); [by intros [= <- <- _]; apply tenant_only_refl|].
    destruct (Create b st _ _ _ scope _) as [[st1 log1] r1] eqn:Hc. intros [= <- <- _].
    by eapply (Create_tenant_only b).
Qed.

Lemma rest_Delete_tenant (st : edb) ns name v st' (r : resp (option Obj)) :
  rest_Delete b st ns (Some extra) name v = (st', r) ->
  (forall x, x ∈ rows_of st' -> x ∈ rows_of st)
  /\ forall x, x ∈ rows_of st -> ~ in_tenant b scope (row_doc x) -> x ∈ rows_of st'.
Proof using All.
  unfold rest_Delete, events_ExtractScopeFromUser. rewrite Hextra.
  destruct (named_namespace ns); [|by intros [= <- _]].
  destruct (Get b st _ _ _) as [g|err|w]; [|by intros [= <- _]..].
  destruct (run_validation _ _); [by intros [= <- _]|].
  destruct (Delete b st _ _ scope) as [st1 r1] eqn:Hd. intros [= <- _]. by eapply (Delete_keeps b).
Qed.
End Isolation.

(** A user of a tenant reaches only events of that tenant through either
    API: what [Get] and [List] answer is read from rows of the tenant (of the
    namespace and name asked for), creations and updates - including updates
    that create - write and publish only documents of the tenant, and
    deletions leave the rows of others, whatever the request, the validation
    and the update carry. *)
Theorem events_api_isolates `{EventLib} `{EventsDB} `{JetStream} (b : EventsBackend) `{!EventsDBLaws b}
    {Obj} `{EventApi Obj} (st : edb) (extra : option (gmap string (list string))) :
  let scope := ExtractScopeFromUser extra in
  tenant_scope scope ->
  (forall ns name (o : Obj), rest_Get b st ns (Some extra) name = Answer o ->
     exists n e r, ns = Some n /\ o = of_stored e /\ r ∈ rows_of st /\ in_tenant b scope (row_doc r)
       /\ keyed b n name (row_doc r) /\ read_from r e)
  /\ (forall supported now ns opts rv c (items : list Obj),
        rest_List b st supported now ns (Some extra) opts = Answer (rv, c, items) ->
        Forall (fun o => exists e r, o = of_stored e /\ r ∈ rows_of st /\ in_tenant b scope (row_doc r)
                  /\ (forall n, ns = Some n -> n <> "" -> column (row_doc r) "namespace" = n) /\ read_from r e) items)
  /\ (forall env ns v (obj : option Obj) st' log r,
        rest_Create b st env ns (Some extra) v obj = (st', log, r) -> tenant_only b scope st st' log)
  /\ (forall env ns name (upd : option Obj -> error + option Obj) v uv force st' log r,
        rest_Update b st env ns (Some extra) name upd v uv force = (st', log, r) -> tenant_only b scope st st' log)
  /\ (forall ns name v st' (r : resp (option Obj)), rest_Delete b st ns (Some extra) name v = (st', r) ->
        (forall x, x ∈ rows_of st' -> x ∈ rows_of st)
        /\ forall x, x ∈ rows_of st -> ~ in_tenant b scope (row_doc x) -> x ∈ rows_of st').
Proof.
  intros scope Hs. split_and!.
  - intros ns name o. unfold rest_Get. destruct ns as [n|]; [|done]. cbn [named_namespace].
    destruct (n =? "")%string; [done|]. intros (e & He & [= <-])%answer_Answer.
    apply (Get_row b) in He as (r & ? & ? & ? & ? & _); [|done]. by exists n, e, r.
  - intros supported now ns opts rv c items (l & Hl & [= _ _ <-])%answer_Answer.
    apply (List_rows b) in Hl; [|done]. apply Forall_map. eapply Forall_impl; [exact Hl|].
    intros e (r & ? & ? & Hns & ?). exists e, r. split_and!; try done. by intros n -> ?; apply Hns.
  - intros. by eapply (rest_Create_tenant b scope extra).
  - intros. by eapply (rest_Update_tenant b scope extra).
  - intros. by eapply (rest_Delete_tenant b scope extra).
Qed.

(* ------------------------------------------------------------------ *)
(** ** Field selectors: pkg/apis/activity/v1alpha1/register.go *)

Definition SupportedEventFieldSelectors : list string := [
  "metadata.name"; "metadata.namespace"; "metadata.uid"; "regarding.apiVersion"; "regarding.kind";
  "regarding.namespace"; "regarding.name"; "regarding.uid"; "regarding.fieldPath"; "reason"; "type";
  "source.component"; "source.host"; "reportingComponent"; "reportingInstance"].

(** The API machinery converts every selector of a request first. *)
Definition EventFieldLabelConversionFunc (label value : string) : res (string * string) :=
  if bool_decide (label ∈ SupportedEventFieldSelectors) then Ok (label, value)
  else Err (Errorf [PStr (quoted label); PStr " is not a known field selector: only [";
                    PStr (String.concat " " (map quoted SupportedEventFieldSelectors)); PStr "]"]).

(** The fields the watches read. *)
Definition watch_fields : list string :=
  ["regarding.kind"; "regarding.namespace"; "regarding.name"; "regarding.uid"; "reason"; "type"; "source";
   "reportingController"].

(** Every selector the API accepts is one the store can list by. *)
Lemma event_selectors_listed :
  Forall (fun f => is_ok (ResolveEventFieldSelector f) = true) SupportedEventFieldSelectors.
Proof. repeat constructor. Qed.

(** But a watch reads only six of the fifteen: a watch that asks for one of the
    others is given every event. *)
Lemma watch_selectors_ignored (f v : string) :
  f ∈ ["metadata.name"; "metadata.namespace"; "metadata.uid"; "regarding.apiVersion"; "regarding.fieldPath";
       "source.component"; "source.host"; "reportingComponent"; "reportingInstance"] ->
  EventFieldLabelConversionFunc f v = Ok (f, v)
  /\ forall ns rv, let sel := Some (fun k => if (k =? f)%string then Some v else None) in
     parseFieldSelectorForWatch ns rv sel = parseFieldSelectorForWatch ns rv None
     /\ parseFieldSelectorForWatchV1 ns rv sel = parseFieldSelectorForWatchV1 ns rv None.
Proof.
  intros Hf. split.
  - unfold EventFieldLabelConversionFunc. rewrite bool_decide_eq_true_2; [done|].
    revert f Hf. apply Forall_forall. by_decide.
  - intros ns rv. set_unfold in Hf. by repeat destruct Hf as [->|Hf].
Qed.

(** The two fields the watches read the source from are not accepted. *)
Lemma watch_source_unreachable (v : string) :
  is_ok (EventFieldLabelConversionFunc "source" v) = false
  /\ is_ok (EventFieldLabelConversionFunc "reportingController" v) = false.
Proof. done. Qed.

(** An update through the [v1] API rewrites what that version does not have:
    the stored event comes back with another action and without the deprecated
    source, though the client changed nothing. *)
Lemma core_update_rewrites (e : Event) :
  let e' := ConvertCoreV1ToEventsV1 (ConvertEventsV1ToCoreV1 e) in
  ev_Action (ev_rest e') = "Event" /\ ev_DeprecatedSource (ev_rest e') = ("", "").
Proof. by unfold ConvertEventsV1ToCoreV1; destruct (if IsZero (ev_EventTime e) then _ else _) as [[? ?] ?]. Qed.

(* ------------------------------------------------------------------ *)
(** ** Concrete runs *)

Module ToyEventsRest.
Definition p1_user : option (gmap string (list string)) :=
  Some (<[ParentKindExtraKey := ["Project"]]> {[ParentNameExtraKey := ["p1"]]}).
Definition env : write_env := {| we_uuid := "u1"; we_now := ToyEventRuns.noon; we_insert := ToyEventRuns.noon |}.
Definition pulled : CoreEvent :=
  {| ce_Namespace := ""; ce_Name := "a"; ce_UID := ""; ce_ResourceVersion := ""; ce_Annotations := None; ce_other := "";
     ce_InvolvedObject := no_ref; ce_Reason := "Pulled"; ce_Message := "pulled"; ce_SourceComponent := "kubelet";
     ce_SourceHost := ""; ce_FirstTimestamp := 0%Z; ce_LastTimestamp := 0%Z; ce_Count := 0%Z; ce_Type := "Normal";
     ce_EventTime := 0%Z; ce_Series := None; ce_Action := ""; ce_Related := None; ce_ReportingController := "";
     ce_ReportingInstance := "" |}.
End ToyEventsRest.

Section EventsRestRuns.
#[local] Existing Instance ToyEvents.lib.
#[local] Existing Instance ToyEvents.db.
#[local] Existing Instance ToyEvents.laws.
#[local] Existing Instance ToyEventRuns.js.
Import ToyEventsRest.

Definition created_through_core : edb * list pub * resp CoreEvent :=
  rest_Create (Obj := CoreEvent) ToyEvents.backend (@nil row) env (Some "default") (Some p1_user) None (Some pulled).

(** Created through one API, read through the other; another namespace is
    refused, another tenant finds nothing. *)
Example created_through_core_read :
  (exists e, rest_Get (Obj := Event) ToyEvents.backend (fst (fst created_through_core)) (Some "default") (Some p1_user) "a"
             = Answer e /\ ev_Reason (ev_rest e) = "Pulled" /\ ev_Action (ev_rest e) = "Event"
             /\ ev_UID e = "u1" /\ ev_Count e = 1%Z)
  /\ rest_Get (Obj := Event) ToyEvents.backend (fst (fst created_through_core)) (Some "default")
       (Some (Some (<[ParentKindExtraKey := ["Project"]]> {[ParentNameExtraKey := ["p2"]]}))) "a"
     = Refuse (Plain (NewNotFound "a"))
  /\ snd (rest_Create (Obj := CoreEvent) ToyEvents.backend (@nil row) env (Some "other") (Some p1_user) None
            (Some (core_set_key "default" "a" pulled)))
     = Refuse (BadRequest "event namespace does not match request namespace").
Proof. split; [eexists; vm_compute; done|]. split; vm_compute; reflexivity. Qed.

Lemma events_api_isolates_witness :
  exists (e : CoreEvent), rest_Get (Obj := CoreEvent) ToyEvents.backend (fst (fst created_through_core)) (Some "default") (Some p1_user) "a"
    = Answer e
  /\ exists n e0 r, Some "default" = Some n /\ e = of_stored e0
       /\ r ∈ rows_of (EventsDBLaws := ToyEvents.laws) (fst (fst created_through_core))
       /\ in_tenant ToyEvents.backend {| sc_Type := "Project"; sc_Name := "p1" |} (row_doc r)
       /\ keyed ToyEvents.backend n "a" (row_doc r) /\ read_from r e0.
Proof.
  destruct (rest_Get (Obj := CoreEvent) ToyEvents.backend (fst (fst created_through_core)) (Some "default") (Some p1_user) "a")
    as [e|err|w] eqn:E; [|exfalso; vm_compute in E; discriminate E..].
  exists e. split; [reflexivity|].
  apply (proj1 (events_api_isolates (Obj := CoreEvent) ToyEvents.backend (fst (fst created_through_core)) p1_user
                  ltac:(unfold tenant_scope; by_decide)) (Some "default") "a" e E).
Defined.
End EventsRestRuns.
