(* ===== verification/ActivityRest.v ===== *)
(** * internal/registry/activity/record: the activities of a namespace

    [Activity] objects are listed and watched but never written through the
    API ([record/storage.go]).  A list turns the namespace and the field
    selectors of the request into a CEL filter of the activity query; a watch
    turns them into the filter of the watcher.  Also the conversion of field
    labels of [pkg/apis/activity/v1alpha1/register.go] and the table rows. *)

From Stdlib Require Import Ascii String.
From stdpp Require Import base numbers list strings gmap pretty.
From Stdlib Require Import ZArith Lia.
From S2P Require Import Prelude GoLib Types TimeUtil CelPolicy Activity Dlq EventProc CelFilter Query EventStore Watch Rest EventsRest.

(* ------------------------------------------------------------------ *)
(** ** Filters of CEL text *)

(** A single quote, and the backslash that escapes. *)
Definition quote1 : string := "'".
Definition backslash : string := "\".

Definition escapeCELString (s : string) : string :=
  let s := ReplaceAll s backslash (backslash +:+ backslash) in
  ReplaceAll s quote1 (backslash +:+ quote1).

Definition celEquality (field value : string) : string :=
  field +:+ " == '" +:+ escapeCELString value +:+ "'".

(** The field selectors a list turns into conditions. *)
Definition list_fields : list string :=
  ["spec.changeSource"; "spec.resource.apiGroup"; "spec.resource.kind"; "spec.actor.name"; "spec.resource.uid"].

Definition selected_fields (fields : list string) (sel : RequiresExactMatch) : list (string * string) :=
  match sel with
  | Some f => omap (fun k => option_map (fun v => (k, v)) (f k)) fields
  | None => []
  end.

(** [parseFieldSelector] on the filter of the specification. *)
Definition parseFieldSelector (sel : RequiresExactMatch) (filter : string) : string :=
  match selected_fields list_fields sel with
  | [] => filter
  | l => let combined := String.concat " && " (map (fun '(k, v) => celEquality k v) l) in
         if (filter =? "")%string then combined else "(" +:+ filter +:+ ") && " +:+ combined
  end.

Definition namespace_filter (namespace : string) : string :=
  if (namespace =? "")%string then ""
  else "metadata.namespace == '" +:+ escapeCELString namespace +:+ "'".

Definition list_filter (namespace : string) (sel : RequiresExactMatch) : string :=
  parseFieldSelector sel (namespace_filter namespace).

(* ------------------------------------------------------------------ *)
(** ** List and Watch *)

Definition DefaultListTimeWindow : string := "now-1h".

(** [metainternalversion.ListOptions]: an [int64] limit. *)
Record ActivityListOptions := {
  al_Limit : Z; al_Continue : string; al_ResourceVersion : string; al_FieldSelector : RequiresExactMatch }.

Definition list_spec (namespace : string) (options : ActivityListOptions) : ActivityQuerySpec :=
  {| StartTime := DefaultListTimeWindow; EndTime := ""; Search := "";
     Filter := list_filter namespace (al_FieldSelector options);
     Limit := wrap32 (al_Limit options); Continue_ := al_Continue options |}.

Record ActivityList := { al_Items : list Activity; al_ListContinue : string }.

(** Records that do not decode are skipped. *)
Definition activity_List `{ActivityJson}
    (QueryActivities : ActivityQuerySpec -> ScopeContext -> res ActivityQueryResult)
    (ns : request_namespace) (user : request_user) (options : ActivityListOptions)
  : calls ActivityQuerySpec * resp ActivityList :=
  match user with
  | None => ([], Refuse (ServiceUnavailable "Unable to process request. Please try again."))
  | Some extra =>
      let scopeCtx := ExtractScopeFromUser extra in
      let spec := list_spec (default "" ns) options in
      ([(spec, scopeCtx)],
       answer (QueryActivities spec scopeCtx)
         (fun _ => ServiceUnavailable "Failed to retrieve activities. Please try again later.")
         (fun result => Answer {|
            al_Items := omap (fun d => match json_unmarshal_activity d with inr a => Some a | inl _ => None end)
                          (Activities result);
            al_ListContinue := ar_Continue result |}))
  end.

Definition activity_watch_filter (namespace : string) (options : ActivityListOptions) : WatchFilter :=
  let get f := exact_match (al_FieldSelector options) f "" in
  {| wf_ResourceVersion := watch_version (al_ResourceVersion options); wf_Namespace := namespace;
     wf_ChangeSource := get "spec.changeSource"; wf_APIGroup := get "spec.resource.apiGroup";
     wf_ResourceKind := get "spec.resource.kind"; wf_CELFilter := "" |}.

(** The watcher is an interface: nil, or a pointer, which may be nil itself. *)
Definition activity_Watch `{WatchJS} `{FilterLib} (watcher : option (option NATSWatcher)) (ns : request_namespace)
    (user : request_user) (options : ActivityListOptions) : resp (consumer * option CompiledActivityFilter) :=
  match watcher with
  | None => Refuse (ServiceUnavailable "Watch API is not available. NATS is not configured.")
  | Some pointer =>
      match user with
      | None => Refuse (ServiceUnavailable "Unable to process request. Please try again.")
      | Some extra =>
          answer (Watch pointer (ExtractScopeFromUser extra) (activity_watch_filter (default "" ns) options)) Plain Answer
      end
  end.

(** [ActivityFieldLabelConversionFunc] *)
Definition SupportedActivityFieldSelectors : list string := [
  "metadata.name"; "metadata.namespace"; "spec.changeSource"; "spec.resource.apiGroup"; "spec.resource.kind";
  "spec.resource.name"; "spec.resource.namespace"; "spec.resource.uid"; "spec.actor.name"; "spec.actor.type";
  "spec.actor.uid"; "spec.actor.email"].
Definition ActivityFieldLabelConversionFunc (label value : string) : res (string * string) :=
  if bool_decide (label ∈ SupportedActivityFieldSelectors) then Ok (label, value)
  else Err (Errorf [PStr (quoted label); PStr " is not a known field selector: only [";
                    PStr (String.concat " " (map quoted SupportedActivityFieldSelectors)); PStr "]"]).

(** [activityToTableRow]: the cells; [duration.HumanDuration] is a parameter. *)
Definition table_summary (summary : string) : string :=
  if (60 <? String.length summary)%nat then take_str 57 summary +:+ "..." else summary.

Definition activityToTableRow (HumanDuration : Z -> string) (now : time) (a : Activity) : list string :=
  let r := Resource_ (Spec a) in
  [Name a; table_summary (Summary (Spec a)); act_Name (Actor (Spec a));
   Kind r +:+ (if (res_Name r =? "")%string then "" else "/" +:+ res_Name r);
   ChangeSource (Spec a);
   if IsZero (CreationTimestamp a) then "<unknown>" else HumanDuration (Sub now (CreationTimestamp a))].

(* ------------------------------------------------------------------ *)
(** ** Reading a filter back *)

(** The value and the rest after a single-quoted CEL literal whose opening
    quote has been read: a backslash stands for the character after it, the
    first quote that is not escaped ends the literal. *)
Fixpoint read_literal (s : string) : option (string * string) :=
  match s with
  | EmptyString => None
  | String c rest =>
      if Ascii.eqb c "'" then Some ("", rest)
      else if Ascii.eqb c "\" then
        match rest with
        | EmptyString => None
        | String d rest' => option_map (fun '(v, r) => (String d v, r)) (read_literal rest')
        end
      else option_map (fun '(v, r) => (String c v, r)) (read_literal rest)
  end.

(** A field path, then [ == '], then a literal. *)
Definition path_byte (a : ascii) : bool := negb (Ascii.eqb a " ").
Fixpoint span_path (s : string) : string * string :=
  match s with
  | EmptyString => ("", "")
  | String a s' => if path_byte a then let (p, r) := span_path s' in (String a p, r) else ("", s)
  end.
Definition read_equality (s : string) : option ((string * string) * string) :=
  let (k, r) := span_path s in
  if HasPrefix r " == '" then option_map (fun '(v, r') => ((k, v), r')) (read_literal (drop_str 5 r)) else None.

(** Parts joined by [ && ], at most [n], each read by [part]. *)
Section Joined.
Context {A : Type} (part : string -> option (A * string)).
Fixpoint read_joined (n : nat) (s : string) : option (list A) :=
  match n with
  | O => None
  | S n' =>
      match part s with
      | None => None
      | Some (x, r) =>
          if (r =? "")%string then Some [x]
          else if HasPrefix r " && " then option_map (cons x) (read_joined n' (drop_str 4 r)) else None
      end
  end.

Lemma read_joined_concat (show : A -> string) (l : list A) (n : nat) :
  Forall (fun x => forall r, part (show x +:+ r) = Some (x, r)) l -> l <> [] -> (length l <= n)%nat ->
  read_joined n (String.concat " && " (map show l)) = Some l.
Proof.
  revert n. induction l as [|x l IH]; intros n Hl Hne Hn; [done|]. destruct n as [|n]; [simpl in Hn; lia|].
  apply Forall_cons in Hl as [Hx Hl]. cbn [map]. rewrite join_cons. cbn [read_joined].
  rewrite Hx. destruct l as [|y l]; [done|].
  set (rest := String.concat " && " (map show (y :: l))) in *.
  change (match map _ (y :: l) with [] => "" | _ => " && " +:+ rest end) with (" && " +:+ rest).
  change ((" && " +:+ rest =? "")%string) with false. rewrite HasPrefix_append.
  rewrite (drop_str_append " && "). rewrite IH; [done|done|done|simpl in *; lia].
Qed.
End Joined.

(** Equalities joined by [ && ], at most [n]. *)
Definition read_conjunction (n : nat) (s : string) : option (list (string * string)) := read_joined read_equality n s.

(** A conjunction, or a first equality in parentheses and a conjunction. *)
Definition read_filter (n : nat) (s : string) : option (list (string * string)) :=
  if HasPrefix s "(" then
    match read_equality (drop_str 1 s) with
    | Some (kv, r) => if HasPrefix r ") && " then option_map (cons kv) (read_conjunction n (drop_str 5 r)) else None
    | None => None
    end
  else read_conjunction n s.

Lemma replace_byte (b c : ascii) (new s : string) :
  ReplaceAll (String c s) (String b "") new
  = (if Ascii.eqb c b then new else String c "") +:+ ReplaceAll s (String b "") new.
Proof.
  unfold ReplaceAll. cbn [replace_go HasPrefix String.length]. rewrite (Ascii.eqb_sym c b), andb_true_r.
  by destruct (Ascii.eqb b c).
Qed.

Lemma escape_cons (c : ascii) (s : string) :
  escapeCELString (String c s)
  = (if Ascii.eqb c "\" then "\\" else if Ascii.eqb c "'" then "\'" else String c "") +:+ escapeCELString s.
Proof.
  unfold escapeCELString, quote1, backslash. rewrite replace_byte. destruct (Ascii.eqb c "\") eqn:Eb.
  - change (("\" +:+ "\") +:+ ?x) with (String "\" (String "\" x)). by rewrite !replace_byte.
  - cbn [String.append]. rewrite replace_byte. by destruct (Ascii.eqb c "'").
Qed.

Lemma read_escaped (v rest : string) : read_literal (escapeCELString v +:+ String "'" rest) = Some (v, rest).
Proof.
  induction v as [|c v IH]; [done|]. rewrite escape_cons. generalize dependent (escapeCELString v). intros x IH.
  destruct (Ascii.eqb c "\") eqn:Hb; [apply Ascii.eqb_eq in Hb as ->; cbn; by rewrite IH|].
  destruct (Ascii.eqb c "'") eqn:Hq; [apply Ascii.eqb_eq in Hq as ->; cbn; by rewrite IH|].
  rewrite append_assoc. cbn [String.append read_literal]. by rewrite Hq, Hb, IH.
Qed.

Lemma span_path_space (k r : string) : all_bytes path_byte k = true -> span_path (k +:+ String " " r) = (k, String " " r).
Proof.
  induction k as [|a k IH]; [done|]. cbn. intros [Ha Hk]%andb_prop. by rewrite Ha, (IH Hk).
Qed.

Lemma read_celEquality (k v r : string) :
  all_bytes path_byte k = true -> read_equality (celEquality k v +:+ r) = Some ((k, v), r).
Proof.
  intros Hk. unfold read_equality, celEquality. rewrite !append_assoc. pose proof (read_escaped v r) as Hr. revert Hr.
  change ("'" +:+ r) with (String "'" r). generalize (escapeCELString v +:+ String "'" r) as x. intros x Hx.
  change (" == '" +:+ x) with (String " " ("== '" +:+ x)). rewrite (span_path_space _ _ Hk).
  change (drop_str 5 (String " " ("== '" +:+ x))) with (drop_str 0 x). cbn. by destruct x; rewrite Hx.
Qed.

Lemma read_conjunction_concat (l : list (string * string)) (n : nat) :
  Forall (fun kv => all_bytes path_byte (fst kv) = true) l -> l <> [] -> (length l <= n)%nat ->
  read_conjunction n (String.concat " && " (map (fun '(k, v) => celEquality k v) l)) = Some l.
Proof.
  intros Hl. apply read_joined_concat. eapply Forall_impl; [exact Hl|]. intros [k v] Hk r. by apply read_celEquality.
Qed.

Lemma selected_fields_in fields sel : Forall (fun kv => fst kv ∈ fields) (selected_fields fields sel).
Proof.
  destruct sel as [f|]; [|constructor]. apply Forall_forall. intros [k v] Hin.
  apply list_elem_of_omap in Hin as (k' & Hk' & Hf). destruct (f k'); [|done]. by injection Hf as -> ->.
Qed.

Lemma list_field_path k : k ∈ list_fields -> all_bytes path_byte k = true /\ forall r, HasPrefix (k +:+ r) "(" = false.
Proof. intros Hk. unfold list_fields in Hk. set_unfold in Hk. by repeat destruct Hk as [->|Hk]. Qed.

(** The filter of a list means what the request says, whatever the
    namespace and the values of its field selectors contain: read back, with
    the quoting rules of CEL literals, it is the conjunction of the namespace
    and of every supported selector with its exact value, and nothing else; no
    value can close its literal and add to the expression. *)
Theorem list_filter_reads_back (namespace : string) (sel : RequiresExactMatch) :
  let wanted := (if (namespace =? "")%string then [] else [("metadata.namespace", namespace)])
                  ++ selected_fields list_fields sel in
  match wanted with
  | [] => list_filter namespace sel = ""
  | _ => read_filter (length wanted) (list_filter namespace sel) = Some wanted
  end.
Proof.
  cbv zeta. unfold list_filter, namespace_filter, parseFieldSelector.
  pose proof (selected_fields_in list_fields sel) as Hin.
  assert (Hpath : Forall (fun kv => all_bytes path_byte (fst kv) = true) (selected_fields list_fields sel)).
  { eapply Forall_impl; [exact Hin|]. intros kv Hkv. by apply list_field_path. }
  change ("metadata.namespace == '" +:+ escapeCELString namespace +:+ "'") with (celEquality "metadata.namespace" namespace).
  destruct (String.eqb_spec namespace "") as [->|Hns]; cbn [app].
  - destruct (selected_fields list_fields sel) as [|[k v] l]; [done|].
    change (("" =? "")%string) with true. cbn iota. unfold read_filter.
    assert (HasPrefix (String.concat " && " (map (fun '(k0, v0) => celEquality k0 v0) ((k, v) :: l))) "(" = false) as ->.
    { cbn [map]. rewrite join_cons. unfold celEquality at 1. rewrite !append_assoc.
      apply Forall_cons in Hin as [Hk _]. by apply list_field_path. }
    by apply read_conjunction_concat.
  - set (eq := celEquality "metadata.namespace" namespace).
    assert (HasPrefix eq "(" = false /\ (eq =? "")%string = false) as [Hp He] by done.
    destruct (selected_fields list_fields sel) as [|[k v] l].
    + unfold read_filter. rewrite Hp. unfold read_conjunction; cbn [read_joined length].
      rewrite <- (append_nil_r eq). unfold eq. by rewrite read_celEquality.
    + rewrite He. unfold read_filter. rewrite HasPrefix_append. rewrite (drop_str_append "("). unfold eq.
      rewrite read_celEquality by done. rewrite HasPrefix_append, (drop_str_append ") && ").
      rewrite read_conjunction_concat; [done|done|done|simpl; lia].
Qed.

Example list_filter_quotes :
  list_filter "team's" (Some (fun k => if (k =? "spec.actor.name")%string then Some "x' || true || '" else None))
  = "(metadata.namespace == 'team\'s') && spec.actor.name == 'x\' || true || \''".
Proof. vm_compute. reflexivity. Qed.

(* ------------------------------------------------------------------ *)
(** ** What the list and the watch ignore *)

(** Selectors that the API accepts, and that neither changes the list nor the
    watch. *)
Lemma activity_selectors_ignored (f v : string) :
  f ∈ ["metadata.name"; "metadata.namespace"; "spec.resource.name"; "spec.resource.namespace"; "spec.actor.type";
       "spec.actor.uid"; "spec.actor.email"] ->
  ActivityFieldLabelConversionFunc f v = Ok (f, v)
  /\ forall ns limit token rv, let options sel :=
       {| al_Limit := limit; al_Continue := token; al_ResourceVersion := rv; al_FieldSelector := sel |} in
     let sel := Some (fun k => if (k =? f)%string then Some v else None) in
     list_spec ns (options sel) = list_spec ns (options None)
     /\ activity_watch_filter ns (options sel) = activity_watch_filter ns (options None).
Proof.
  intros Hf. split.
  - unfold ActivityFieldLabelConversionFunc. rewrite bool_decide_eq_true_2; [done|].
    revert f Hf. apply Forall_forall. by_decide.
  - intros ns limit token rv. set_unfold in Hf. by repeat destruct Hf as [->|Hf].
Qed.

(** The watch also ignores the actor and the UID of the resource, which the
    list reads. *)
Lemma activity_watch_ignores (f v : string) :
  f ∈ ["spec.actor.name"; "spec.resource.uid"] ->
  forall ns limit token rv, let options sel :=
    {| al_Limit := limit; al_Continue := token; al_ResourceVersion := rv; al_FieldSelector := sel |} in
  let sel := Some (fun k => if (k =? f)%string then Some v else None) in
  activity_watch_filter ns (options sel) = activity_watch_filter ns (options None)
  /\ Filter (list_spec "" (options sel)) = celEquality f v.
Proof. intros Hf ns limit token rv. set_unfold in Hf. by repeat destruct Hf as [->|Hf]. Qed.

(** A limit of the request is cut to 32 bits: one of 2^32 + 1 asks for one
    activity. *)
Example list_limit_wraps :
  Limit (list_spec "" {| al_Limit := 4294967297; al_Continue := ""; al_ResourceVersion := ""; al_FieldSelector := None |})
  = 1%Z.
Proof. reflexivity. Qed.

(** A summary in a table has at most 60 bytes. *)
Lemma table_summary_length (s : string) : (String.length (table_summary s) <= 60)%nat.
Proof.
  unfold table_summary. destruct (Nat.ltb_spec 60 (String.length s)) as [Hl|]; [|done].
  rewrite length_append. assert (forall n t, (String.length (take_str n t) <= n)%nat) as Htake.
  { induction n as [|n IH]; intros [|a t]; simpl; try lia. specialize (IH t). lia. }
  specialize (Htake 57%nat s). change (String.length "...") with 3%nat. lia.
Qed.
