(* ===== verification/Strategy.v ===== *)
(** * internal/registry: the strategies of the stored resources

    [ActivityPolicy] and [ReindexJob] objects are kept by the generic store of
    the API server, which on every write calls the strategy of the resource:
    [PrepareForCreate] then [Validate], [PrepareForUpdate] then
    [ValidateUpdate], and those of the status subresource
    ([registry/activity/policy], [registry/activity/reindexjob]).  What the
    objects of the store satisfy, by induction on their history, is what the
    controllers and workers start from. *)

From Stdlib Require Import Ascii String.
From stdpp Require Import base numbers list strings gmap pretty.
From Stdlib Require Import ZArith Lia.
From S2P Require Import Prelude GoLib Types TimeUtil CelPolicy Activity Dlq CelFilter Query EventStore EventProc GoSlice PolicyCache AuditProc Rest Reindex ReindexJob PolicyController.

(** [validation.IsDNS1123Subdomain]: what is wrong with a name. *)
Class NameLib := { IsDNS1123Subdomain : string -> list string }.

#[export] Instance PolicyRule_eq_dec : EqDecision PolicyRule.
Proof. solve_decision. Defined.
#[export] Instance PolicySpec_eq_dec : EqDecision PolicySpec.
Proof. solve_decision. Defined.

(* ------------------------------------------------------------------ *)
(** ** policy/strategy.go *)

(** A stored policy; the descriptions of its audit and event rules, which
    nothing but the comparison of specifications reads, are kept apart. *)
Record PolicyRecord := {
  pr_Object : PolicyObject; pr_Annotations : option (gmap string string);
  pr_Descriptions : list string * list string }.
Definition pr_Policy (p : PolicyRecord) : ActivityPolicy := po_Policy (pr_Object p).
Definition pr_Spec (p : PolicyRecord) : PolicySpec := pol_Spec (pr_Policy p).
Definition pr_Generation (p : PolicyRecord) : Z := pol_Generation (pr_Policy p).

(** The status of a policy is its full conditions and observed generation, and
    the part of the conditions readers of the cache see. *)
Definition with_meta (p : ActivityPolicy) (generation : Z) (labels : gmap string string) (spec : PolicySpec)
    (conditions : list (string * string)) : ActivityPolicy :=
  {| pol_Name := pol_Name p; pol_ResourceVersion := pol_ResourceVersion p; pol_Generation := generation;
     pol_Labels := labels; pol_Spec := spec; Conditions := conditions |}.

Definition policy_PrepareForCreate (p : PolicyRecord) : PolicyRecord :=
  {| pr_Object := {| po_Policy := with_meta (pr_Policy p) 1 (pol_Labels (pr_Policy p)) (pr_Spec p) [];
                     po_Conditions := []; po_ObservedGeneration := 0 |};
     pr_Annotations := pr_Annotations p; pr_Descriptions := pr_Descriptions p |}.

(** [equality.Semantic.DeepEqual] of the specifications. *)
Definition same_spec (p q : PolicyRecord) : bool :=
  bool_decide (pr_Spec p = pr_Spec q) && bool_decide (pr_Descriptions p = pr_Descriptions q).

Definition policy_PrepareForUpdate (newPolicy oldPolicy : PolicyRecord) : PolicyRecord :=
  let generation := if same_spec newPolicy oldPolicy then pr_Generation oldPolicy
                    else wrap64 (pr_Generation oldPolicy + 1) in
  {| pr_Object := {| po_Policy := with_meta (pr_Policy newPolicy) generation (pol_Labels (pr_Policy newPolicy)) (pr_Spec newPolicy)
                                    (Conditions (pr_Policy oldPolicy));
                     po_Conditions := po_Conditions (pr_Object oldPolicy);
                     po_ObservedGeneration := po_ObservedGeneration (pr_Object oldPolicy) |};
     pr_Annotations := pr_Annotations newPolicy; pr_Descriptions := pr_Descriptions newPolicy |}.

(** The status strategy: only the status is taken. *)
Definition policy_status_PrepareForUpdate (newPolicy oldPolicy : PolicyRecord) : PolicyRecord :=
  {| pr_Object := {| po_Policy := with_meta (pr_Policy newPolicy) (pr_Generation oldPolicy)
                                    (pol_Labels (pr_Policy oldPolicy)) (pr_Spec oldPolicy)
                                    (Conditions (pr_Policy newPolicy));
                     po_Conditions := po_Conditions (pr_Object newPolicy);
                     po_ObservedGeneration := po_ObservedGeneration (pr_Object newPolicy) |};
     pr_Annotations := pr_Annotations oldPolicy; pr_Descriptions := pr_Descriptions oldPolicy |}.

Section PolicyValidation.
Context `{CelEngine} `{NameLib}.

(** [append(allErrs, field.Invalid(path, value, err.Error()))] *)
Definition check_expression (p : path) (expression : string) (ty : PolicyExpressionType) (rt : PolicyRuleType)
  : res (list field_error) :=
  check (ValidatePolicyExpression expression ty rt) (fun e => Invalid p expression (error_text e)).

Definition check_name (p : path) (name : string) : list field_error :=
  if (name =? "")%string
  then [Required p "provide a unique name for this rule (e.g., 'create', 'update-status')"]
  else match IsDNS1123Subdomain name with
       | [] => []
       | errs => [Invalid p name ("must be a valid DNS subdomain (lowercase alphanumeric and hyphens, start/end with alphanumeric): ["
                                  +:+ String.concat " " errs +:+ "]")]
       end.

Definition validatePolicyRule (rule : PolicyRule) (p : path) (ruleType : PolicyRuleType) : res (list field_error) :=
  let at_ name := p ++ [Child name] in
  let? e2 := if (rule_Match rule =? "")%string
             then Ok [Required (at_ "match")
                        ("provide a CEL expression that determines when this rule applies (e.g., 'verb == "
                           +:+ quoted "create" +:+ "')")]
             else check_expression (at_ "match") (rule_Match rule) MatchExpression ruleType in
  let? e3 := if (rule_Summary rule =? "")%string
             then Ok [Required (at_ "summary")
                        "provide a template for the activity summary (e.g., '{{ actor }} created {{ kind }}')"]
             else check_expression (at_ "summary") (rule_Summary rule) SummaryExpression ruleType in
  Ok (check_name (at_ "name") (rule_Name rule) ++ e2 ++ e3).

(** The loop over the rules of one kind, with the first index of each name. *)
Fixpoint validate_rule_list (what : string) (rulesPath : path) (rt : PolicyRuleType) (names : gmap string Z) (i : Z)
    (rules : list PolicyRule) : res (list field_error) :=
  match rules with
  | [] => Ok []
  | rule :: rest =>
      let rulePath := rulesPath ++ [At i] in
      let name := rule_Name rule in
      let? e1 := validatePolicyRule rule rulePath rt in
      let '(dup, names') :=
        if (name =? "")%string then ([], names)
        else match names !! name with
             | Some firstIdx =>
                 ([Duplicate (rulePath ++ [Child "name"])
                     (name +:+ " (conflicts with " +:+ what +:+ "[" +:+ pretty firstIdx +:+ "])")], names)
             | None => ([], <[name := i]> names)
             end in
      let? e2 := validate_rule_list what rulesPath rt names' (i + 1) rest in
      Ok (e1 ++ dup ++ e2)
  end.

Definition ValidateActivityPolicySpec (spec : PolicySpec) (specPath : path) : res (list field_error) :=
  let e0 := if (ps_Kind spec =? "")%string
            then [Required (specPath ++ [Child "resource"; Child "kind"])
                    "specify the kind of resource this policy targets (e.g., 'Deployment', 'Service')"]
            else [] in
  let? e1 := validate_rule_list "auditRules" (specPath ++ [Child "auditRules"]) AuditRule ∅ 0 (AuditRules spec) in
  let? e2 := validate_rule_list "eventRules" (specPath ++ [Child "eventRules"]) EventRule ∅ 0 (EventRules spec) in
  Ok (e0 ++ e1 ++ e2).

Definition policy_Validate (p : PolicyRecord) : res (list field_error) :=
  ValidateActivityPolicySpec (pr_Spec p) [Child "spec"].

Definition policy_ValidateUpdate (p old : PolicyRecord) : res (list field_error) :=
  let? allErrs := policy_Validate p in
  Ok (allErrs ++
      if negb (bool_decide (ps_APIGroup (pr_Spec p) = ps_APIGroup (pr_Spec old)))
         || negb (bool_decide (ps_Kind (pr_Spec p) = ps_Kind (pr_Spec old)))
      then [Invalid [Child "spec"; Child "resource"] "" "resource (apiGroup and kind) is immutable after creation"]
      else []).

Definition warningsForPolicy (p : PolicyRecord) : list string :=
  match AuditRules (pr_Spec p), EventRules (pr_Spec p) with
  | [], [] => ["policy has no rules defined and will have no effect"]
  | _, _ => []
  end.

(** The objects the store may hold: created, then updated through the resource
    or its status; indexed by the target and the number of changes of the
    specification. *)
Inductive policy_stored (target : string * string) : nat -> PolicyRecord -> Prop :=
| policy_created p :
    let p' := policy_PrepareForCreate p in
    policy_Validate p' = Ok [] -> target = (ps_APIGroup (pr_Spec p), ps_Kind (pr_Spec p)) ->
    policy_stored target 0 p'
| policy_updated n old p :
    policy_stored target n old ->
    let p' := policy_PrepareForUpdate p old in
    policy_ValidateUpdate p' old = Ok [] ->
    policy_stored target (if same_spec p old then n else S n) p'
| policy_status_updated n old p :
    policy_stored target n old -> policy_stored target n (policy_status_PrepareForUpdate p old).
End PolicyValidation.

(* ------------------------------------------------------------------ *)
(** ** reindexjob/strategy.go *)

(** A stored job with its labels and annotations. *)
Record JobObject := {
  jo_Job : ReindexJob; jo_Labels : option (gmap string string); jo_Annotations : option (gmap string string) }.
Definition jo_Spec (j : JobObject) : ReindexJobSpec := rj_Spec (jo_Job j).
Definition jo_Status (j : JobObject) : ReindexJobStatus := rj_Status (jo_Job j).

Definition empty_status : ReindexJobStatus :=
  {| Phase := ""; Message := ""; st_Progress := None; StartedAt := None; CompletedAt := None; st_Conditions := [] |}.

Definition with_spec_status (job : ReindexJob) (spec : ReindexJobSpec) (status : ReindexJobStatus) : ReindexJob :=
  {| rj_Name := rj_Name job; rj_Generation := rj_Generation job;
     rj_DeletionTimestamp := rj_DeletionTimestamp job; rj_Spec := spec; rj_Status := status |}.

(** The defaults of [PrepareForCreate]. *)
Definition default_spec (spec : ReindexJobSpec) : ReindexJobSpec :=
  let range := TimeRange spec in
  let config := default {| rc_BatchSize := 0; rc_RateLimit := 0; rc_DryRun := false |} (Config spec) in
  {| TimeRange := {| tr_StartTime := tr_StartTime range;
                     tr_EndTime := if (tr_EndTime range =? "")%string then "now" else tr_EndTime range |};
     PolicySelector := PolicySelector spec;
     Config := Some {| rc_BatchSize := if (rc_BatchSize config =? 0)%Z then 1000%Z else rc_BatchSize config;
                       rc_RateLimit := if (rc_RateLimit config =? 0)%Z then 100%Z else rc_RateLimit config;
                       rc_DryRun := rc_DryRun config |};
     TTLSecondsAfterFinished := TTLSecondsAfterFinished spec |}.

Definition job_PrepareForCreate (job : JobObject) : JobObject :=
  {| jo_Job := with_spec_status (jo_Job job) (default_spec (jo_Spec job)) empty_status;
     jo_Labels := jo_Labels job; jo_Annotations := jo_Annotations job |}.
Definition job_PrepareForUpdate (newJob oldJob : JobObject) : JobObject :=
  {| jo_Job := with_spec_status (jo_Job newJob) (jo_Spec newJob) (jo_Status oldJob);
     jo_Labels := jo_Labels newJob; jo_Annotations := jo_Annotations newJob |}.
Definition job_status_PrepareForUpdate (newJob oldJob : JobObject) : JobObject :=
  {| jo_Job := with_spec_status (jo_Job newJob) (jo_Spec oldJob) (jo_Status newJob);
     jo_Labels := jo_Labels oldJob; jo_Annotations := jo_Annotations oldJob |}.

(** A time of the range: its errors and its value, zero when there is none. *)
Definition range_time (p : path) (text example : string) (now : time) : res (list field_error * time) :=
  if (text =? "")%string then Ok ([], 0%Z)
  else match ParseFlexibleTime text now with
       | Ok t => Ok ([], t)
       | Err e => Ok ([Invalid p text ("invalid time format: " +:+ error_text e
                         +:+ " (use RFC3339 like '2026-02-01T00:00:00Z' or relative like '" +:+ example +:+ "')")], 0%Z)
       | Panic w => Panic w
       end.

Definition check_bounds (p : path) (v lo hi : Z) (detail : string) : list field_error :=
  if (negb (v =? 0) && ((v <? lo) || (hi <? v)))%Z%bool then [Invalid p (pretty v) detail] else [].

Definition ValidateReindexJobSpec (now : time) (spec : ReindexJobSpec) (specPath : path) : res (list field_error) :=
  let at_ l := specPath ++ map Child l in
  let range := TimeRange spec in
  let e1 := if (tr_StartTime range =? "")%string
            then [Required (at_ ["timeRange"; "startTime"]) "startTime is required"] else [] in
  let? (e2, startTime) := range_time (at_ ["timeRange"; "startTime"]) (tr_StartTime range) "now-7d" now in
  let? (e3, endTime) := range_time (at_ ["timeRange"; "endTime"]) (tr_EndTime range) "now" now in
  let e4 := if (negb (IsZero startTime) && negb (tr_EndTime range =? "")%string && negb (IsZero endTime)
                && negb (startTime <? endTime)%Z)%bool
            then [Invalid (at_ ["timeRange"]) "" "startTime must be before endTime"] else [] in
  let e5 := match PolicySelector spec with
            | Some sel =>
                if ((0 <? length (sel_Names sel))%nat && (0 <? size (sel_MatchLabels sel))%nat)%bool
                then [Invalid (at_ ["policySelector"]) "" "names and matchLabels are mutually exclusive"] else []
            | None => []
            end in
  let e6 := match Config spec with
            | Some c =>
                check_bounds (at_ ["config"; "batchSize"]) (rc_BatchSize c) 100 10000
                  "batchSize must be between 100 and 10000"
                ++ check_bounds (at_ ["config"; "rateLimit"]) (rc_RateLimit c) 10 1000
                     "rateLimit must be between 10 and 1000"
            | None => []
            end in
  Ok (e1 ++ e2 ++ e3 ++ e4 ++ e5 ++ e6).

Definition job_Validate (now : time) (job : JobObject) : res (list field_error) :=
  ValidateReindexJobSpec now (jo_Spec job) [Child "spec"].

(** Only a change of the start time is refused once the job has started. *)
Definition job_started (job : JobObject) : bool :=
  bool_decide (Phase (jo_Status job) ∈ [ReindexJobRunning; ReindexJobSucceeded; ReindexJobFailed]).

Definition job_ValidateUpdate (now : time) (job old : JobObject) : res (list field_error) :=
  let? allErrs := job_Validate now job in
  let start j := tr_StartTime (TimeRange (jo_Spec j)) in
  Ok (allErrs ++
      if (job_started old && negb (start job =? start old)%string)%bool
      then [Invalid [Child "spec"; Child "timeRange"; Child "startTime"] (start job) "spec is immutable after job starts"]
      else []).

Definition warningsForJob (now : time) (job : JobObject) : res (list string) :=
  let range := TimeRange (jo_Spec job) in
  let parsed (text : string) := match ParseFlexibleTime text now with
                                | Ok t => Ok (Some t) | Err _ => Ok None | Panic w => Panic w end in
  let? large :=
    if (tr_StartTime range =? "")%string then Ok []
    else
      let? start := parsed (tr_StartTime range) in
      match start with
      | None => Ok []
      | Some rangeStart =>
          let? end_ := parsed (if (tr_EndTime range =? "")%string then "now" else tr_EndTime range) in
          match end_ with
          | None => Ok []
          | Some rangeEnd =>
              let rangeDuration := Sub rangeEnd rangeStart in
              Ok (if (7 * 24 * Hour <? rangeDuration)%Z
                  then ["time range is large (" +:+ Duration_String rangeDuration
                          +:+ ") - consider using smaller batches or running during off-hours"]
                  else [])
          end
      end in
  Ok (large ++ match Config (jo_Spec job) with
               | Some c => if rc_DryRun c then ["dry-run mode enabled - no activities will be written"] else []
               | None => []
               end).

(** The jobs the store may hold. *)
Inductive job_stored : JobObject -> Prop :=
| job_created now j : let j' := job_PrepareForCreate j in job_Validate now j' = Ok [] -> job_stored j'
| job_updated now old j :
    job_stored old -> let j' := job_PrepareForUpdate j old in job_ValidateUpdate now j' old = Ok [] -> job_stored j'
| job_status_updated old j : job_stored old -> job_stored (job_status_PrepareForUpdate j old).

(* ------------------------------------------------------------------ *)
(** ** Lemmas *)

Section PolicyLemmas.
Context `{CelEngine} `{NameLib}.

(** What an admitted rule and an admitted specification satisfy. *)
Definition rule_ok (rt : PolicyRuleType) (r : PolicyRule) : Prop :=
  rule_Name r <> "" /\ IsDNS1123Subdomain (rule_Name r) = []
  /\ ValidatePolicyExpression (rule_Match r) MatchExpression rt = Ok tt
  /\ ValidatePolicyExpression (rule_Summary r) SummaryExpression rt = Ok tt.
Definition rules_ok (rt : PolicyRuleType) (rules : list PolicyRule) : Prop :=
  Forall (rule_ok rt) rules /\ NoDup (map rule_Name rules).
Definition spec_ok (spec : PolicySpec) : Prop :=
  ps_Kind spec <> "" /\ rules_ok AuditRule (AuditRules spec) /\ rules_ok EventRule (EventRules spec).

Lemma expression_errors_ok p s (d : string) ty rt :
  (if (s =? "")%string then Ok [Required p d] else check_expression p s ty rt) = Ok []
  <-> ValidatePolicyExpression s ty rt = Ok tt.
Proof.
  destruct (String.eqb_spec s "") as [->|Hne].
  - split; [done|]. by unfold ValidatePolicyExpression.
  - unfold check_expression, check. by destruct (ValidatePolicyExpression s ty rt) as [[]| |].
Qed.

Lemma check_name_ok p n : check_name p n = [] <-> n <> "" /\ IsDNS1123Subdomain n = [].
Proof.
  unfold check_name. destruct (String.eqb_spec n "") as [->|]; [split; [done|by intros []]|].
  destruct (IsDNS1123Subdomain n); split; try done. by intros [].
Qed.

Lemma validatePolicyRule_ok rule p rt : validatePolicyRule rule p rt = Ok [] <-> rule_ok rt rule.
Proof.
  unfold validatePolicyRule, rule_ok. split.
  - intros (e2 & E2 & (e3 & E3 & [= Hall])%res_bind_ok)%res_bind_ok.
    apply app_eq_nil in Hall as [[]%check_name_ok [-> ->]%app_eq_nil].
    apply expression_errors_ok in E2, E3. done.
  - intros (Hn & Hd & E2 & E3). rewrite (proj2 (expression_errors_ok _ _ _ _ _) E2). cbn [res_bind].
    rewrite (proj2 (expression_errors_ok _ _ _ _ _) E3). cbn [res_bind].
    by rewrite (proj2 (check_name_ok _ _)).
Qed.

Lemma validate_rule_list_ok what p rt rules : forall names i,
  validate_rule_list what p rt names i rules = Ok []
  <-> rules_ok rt rules /\ Forall (fun r => names !! rule_Name r = None) rules.
Proof.
  unfold rules_ok. induction rules as [|r rules IH]; intros names i; cbn [validate_rule_list map].
  { split; [|done]. repeat split; constructor. }
  rewrite !Forall_cons, NoDup_cons. split.
  - intros (e1 & E1 & Hr)%res_bind_ok. destruct (if (rule_Name r =? "")%string then _ else _) as [dup names'] eqn:Ed.
    apply res_bind_ok in Hr as (e2 & E2 & [= Hall]). apply app_eq_nil in Hall as [-> [-> ->]%app_eq_nil].
    apply validatePolicyRule_ok in E1. destruct (String.eqb_spec (rule_Name r) "") as [|_]; [by destruct E1|].
    destruct (names !! rule_Name r) eqn:En; [done|]. injection Ed as <-.
    apply IH in E2 as [[Hok Hnd] Hfr]. rewrite Forall_forall in Hfr.
    split; [split; [by split|split; [|done]]|split; [done|]].
    + intros (r' & Hname & Hr'%list_elem_of_In)%list_elem_of_In%in_map_iff. specialize (Hfr r' Hr').
      by rewrite Hname, lookup_insert_eq in Hfr.
    + apply Forall_forall. intros r' Hr'. by apply Hfr, lookup_insert_None in Hr' as [].
  - intros [[[Hr Hok] [Hn Hnd]] [Hfresh Hfr]]. pose proof Hr as [Hne _].
    rewrite (proj2 (validatePolicyRule_ok _ _ _) Hr). cbn [res_bind].
    rewrite (proj2 (String.eqb_neq _ _) Hne), Hfresh. rewrite (proj2 (IH _ _)); [done|]. split; [by split|].
    rewrite Forall_forall in Hfr |- *. intros r' Hr'. apply lookup_insert_None. split; [auto|].
    intros Heq. apply Hn. rewrite Heq. by apply list_elem_of_In, in_map, list_elem_of_In.
Qed.

Lemma ValidateActivityPolicySpec_ok spec p : ValidateActivityPolicySpec spec p = Ok [] <-> spec_ok spec.
Proof.
  unfold ValidateActivityPolicySpec, spec_ok.
  pose proof (validate_rule_list_ok "auditRules" (p ++ [Child "auditRules"]) AuditRule (AuditRules spec) ∅ 0) as Ha.
  pose proof (validate_rule_list_ok "eventRules" (p ++ [Child "eventRules"]) EventRule (EventRules spec) ∅ 0) as He.
  assert (forall rules : list PolicyRule, Forall (fun r => (∅ : gmap string Z) !! rule_Name r = None) rules) as Hempty
    by (intros; apply Forall_forall; intros; apply lookup_empty).
  destruct (String.eqb_spec (ps_Kind spec) "") as [Hk|Hk]; split.
  - intros (e1 & _ & (e2 & _ & [=])%res_bind_ok)%res_bind_ok.
  - by intros [].
  - intros (e1 & E1 & (e2 & E2 & [= Hall])%res_bind_ok)%res_bind_ok. apply app_eq_nil in Hall as [-> ->].
    split; [done|]. by split; [apply Ha|apply He].
  - intros (_ & Hra & Hre). rewrite (proj2 Ha), (proj2 He); auto.
Qed.

(** An admitted specification passes the validation of the controller. *)
Lemma spec_ok_validatePolicy (p : ActivityPolicy) : spec_ok (pol_Spec p) -> validatePolicy p = Ok tt.
Proof.
  intros (_ & [Ha _] & [He _]). unfold validatePolicy. rewrite Forall_forall in Ha, He.
  rewrite (proj2 (validate_rules_in "audit" AuditRule 0 _)); [|intros r Hr; by destruct (Ha r Hr) as (_ & _ & ? & ?)].
  apply validate_rules_in. intros r Hr. by destruct (He r Hr) as (_ & _ & ? & ?).
Qed.

Lemma policy_ValidateUpdate_ok p old :
  policy_ValidateUpdate p old = Ok [] <->
  spec_ok (pr_Spec p) /\ ps_APIGroup (pr_Spec p) = ps_APIGroup (pr_Spec old) /\ ps_Kind (pr_Spec p) = ps_Kind (pr_Spec old).
Proof.
  unfold policy_ValidateUpdate. rewrite <- (ValidateActivityPolicySpec_ok _ [Child "spec"]).
  fold (policy_Validate p). rewrite res_bind_ok. do 2 case_bool_decide; simpl; split.
  1: by intros (l & Hl & [= [-> _]%app_eq_nil]).
  1: by intros (-> & _); eexists.
  all: try (by intros (? & ? & ?)).
  all: by intros (l & _ & [= [_ ?]%app_eq_nil]).
Qed.
End PolicyLemmas.

Section Lifecycle.
Context `{CelEngine} `{NameLib}.

Lemma same_spec_spec p q : same_spec p q = true -> pr_Spec p = pr_Spec q.
Proof. unfold same_spec. by intros [->%bool_decide_eq_true _]%andb_prop. Qed.

(** C35: whatever the history of a stored policy, its specification is the one
    of an admitted object - a kind, valid and distinct rule names, expressions
    that pass validation, so that the controller's own validation of it
    succeeds - its target is the one it was created with, and its generation
    counts the changes of its specification. *)
Theorem policy_lifecycle (target : string * string) (n : nat) (p : PolicyRecord) :
  policy_stored target n p ->
  spec_ok (pr_Spec p) /\ validatePolicy (pr_Policy p) = Ok tt
  /\ (ps_APIGroup (pr_Spec p), ps_Kind (pr_Spec p)) = target
  /\ pr_Generation p = wrap64 (1 + Z.of_nat n).
Proof.
  intros Hs. cut (spec_ok (pr_Spec p) /\ (ps_APIGroup (pr_Spec p), ps_Kind (pr_Spec p)) = target
                  /\ pr_Generation p = wrap64 (1 + Z.of_nat n)).
  { intros (Hok & Ht & Hg). split_and!; auto. by apply spec_ok_validatePolicy. }
  induction Hs as [p p' Hv ->|n old p Hs (Hok & Ht & Hg) p' Hv|n old p Hs (Hok & Ht & Hg)].
  - apply ValidateActivityPolicySpec_ok in Hv. by split_and!.
  - apply policy_ValidateUpdate_ok in Hv as (Hv & Ha & Hk). split_and!; [done|by rewrite Ha, Hk|].
    unfold p', policy_PrepareForUpdate, pr_Generation at 1, pr_Policy at 1.
    cbn [pr_Object po_Policy with_meta pol_Generation]. destruct (same_spec p old); [done|].
    rewrite Hg, Nat2Z.inj_succ. unfold wrap64. rewrite <- Z.add_1_l.
    replace ((1 + Z.of_nat n + 2 ^ 63) mod 2 ^ 64 - 2 ^ 63 + 1 + 2 ^ 63)%Z
      with ((1 + Z.of_nat n + 2 ^ 63) mod 2 ^ 64 + 1)%Z by lia.
    rewrite Zplus_mod_idemp_l. do 2 f_equal. lia.
  - by split_and!.
Qed.
End Lifecycle.

(* ------------------------------------------------------------------ *)
(** ** The jobs of the store *)

Definition job_ok (spec : ReindexJobSpec) : Prop :=
  tr_StartTime (TimeRange spec) <> ""
  /\ match PolicySelector spec with
     | Some sel => sel_Names sel = [] \/ sel_MatchLabels sel = ∅
     | None => True
     end
  /\ match Config spec with
     | Some c => (rc_BatchSize c = 0 \/ 100 <= rc_BatchSize c <= 10000)%Z
                /\ (rc_RateLimit c = 0 \/ 10 <= rc_RateLimit c <= 1000)%Z
     | None => True
     end.

Lemma check_bounds_ok p v lo hi d : check_bounds p v lo hi d = [] <-> (v = 0 \/ lo <= v <= hi)%Z.
Proof.
  unfold check_bounds. destruct (Z.eqb_spec v 0) as [->|]; [split; [by left|done]|].
  destruct (Z.ltb_spec v lo), (Z.ltb_spec hi v); simpl; split; intros; try done; lia.
Qed.

Lemma ValidateReindexJobSpec_ok now spec p : ValidateReindexJobSpec now spec p = Ok [] -> job_ok spec.
Proof.
  unfold ValidateReindexJobSpec, job_ok.
  intros ([e2 s] & _ & ([e3 e] & _ & [= Hall])%res_bind_ok)%res_bind_ok.
  apply app_eq_nil in Hall as [H1 [_ [_ [_ [H5 H6]%app_eq_nil]%app_eq_nil]%app_eq_nil]%app_eq_nil].
  split_and!.
  - by destruct (String.eqb_spec (tr_StartTime (TimeRange spec)) "").
  - destruct (PolicySelector spec) as [sel|]; [|done]. destruct (sel_Names sel) as [|n ns]; [by left|right].
    destruct (Nat.ltb_spec 0 (size (sel_MatchLabels sel))) as [|Hsz]; [done|].
    apply map_size_empty_inv. lia.
  - destruct (Config spec) as [c|]; [|done]. apply app_eq_nil in H6 as [Hb Hr].
    apply check_bounds_ok in Hb, Hr. done.
Qed.

Lemma job_stored_ok j : job_stored j -> job_ok (jo_Spec j).
Proof.
  induction 1 as [now j j' Hv|now old j Hs IH j' Hv|old j Hs IH]; [|apply res_bind_ok in Hv as (l & Hl & [= [-> _]%app_eq_nil])|exact IH].
  - by apply ValidateReindexJobSpec_ok in Hv.
  - by apply ValidateReindexJobSpec_ok in Hl.
Qed.

(** A stored re-index job gives the worker sound options, whatever its
    history: a batch size of 100 to 10000, a rate of 10 to 1000 records a
    second, policies selected by names or by labels but not by both, and a
    start time; an update never touches the status nor, once the job has
    started, the start time, and a status update never touches the
    specification. *)
Theorem job_lifecycle (j : JobObject) (s e : time) :
  job_stored j ->
  let opts := reindex_options (jo_Spec j) s e in
  (100 <= BatchSize opts <= 10000)%Z /\ (10 <= RateLimit opts <= 1000)%Z
  /\ (PolicyNames opts = [] \/ MatchLabels opts = ∅)
  /\ tr_StartTime (TimeRange (jo_Spec j)) <> ""
  /\ (forall now new, let new' := job_PrepareForUpdate new j in
       job_ValidateUpdate now new' j = Ok [] ->
       jo_Status new' = jo_Status j
       /\ (job_started j = true -> tr_StartTime (TimeRange (jo_Spec new')) = tr_StartTime (TimeRange (jo_Spec j))))
  /\ (forall new, jo_Spec (job_status_PrepareForUpdate new j) = jo_Spec j).
Proof.
  intros Hj opts. destruct (job_stored_ok j Hj) as (Hs & Hsel & Hc). unfold opts, reindex_options. clear opts.
  cbn [BatchSize RateLimit PolicyNames MatchLabels]. split; [|split; [|split; [|split; [exact Hs|split; [|done]]]]].
  - destruct (Config (jo_Spec j)) as [c|]; [|lia]. destruct (Z.ltb_spec 0 (rc_BatchSize c)); lia.
  - destruct (Config (jo_Spec j)) as [c|]; [|lia]. destruct (Z.ltb_spec 0 (rc_RateLimit c)); lia.
  - destruct (PolicySelector (jo_Spec j)); [done|by left].
  - intros now new Hv. set (new' := job_PrepareForUpdate new j) in *. split; [done|]. intros Hst. apply res_bind_ok in Hv as (l & _ & [= [_ Hv]%app_eq_nil]).
    rewrite Hst in Hv. by destruct (String.eqb_spec (tr_StartTime (TimeRange (jo_Spec new'))) (tr_StartTime (TimeRange (jo_Spec j)))).
Qed.

(* ------------------------------------------------------------------ *)
(** ** Concrete histories *)

Module ToyStrategy.
Definition names : NameLib := {| IsDNS1123Subdomain s := if (s =? "create")%string then [] else ["bad"] |}.
Definition rule (name : string) : PolicyRule :=
  {| rule_Name := name; rule_Match := "true"; rule_Summary := "{{ actor }} created it" |}.
Definition policy (names : list string) : PolicyRecord :=
  {| pr_Object := {| po_Policy := {| pol_Name := "p"; pol_ResourceVersion := "1"; pol_Generation := 7; pol_Labels := ∅;
                                     pol_Spec := {| ps_APIGroup := "apps"; ps_Kind := "Deployment";
                                                    AuditRules := map rule names; EventRules := [] |};
                                     Conditions := [] |};
                     po_Conditions := []; po_ObservedGeneration := 0 |};
     pr_Annotations := None; pr_Descriptions := ([], []) |}.
Definition job (start end_ : string) (batch : Z) : JobObject :=
  {| jo_Job := {| rj_Name := "j"; rj_Generation := 1; rj_DeletionTimestamp := None;
                  rj_Spec := {| TimeRange := {| tr_StartTime := start; tr_EndTime := end_ |}; PolicySelector := None;
                                Config := Some {| rc_BatchSize := batch; rc_RateLimit := 0; rc_DryRun := false |};
                                TTLSecondsAfterFinished := None |};
                  rj_Status := empty_status |};
     jo_Labels := None; jo_Annotations := None |}.
Definition created (batch : Z) : JobObject := job_PrepareForCreate (job "now-7d" "" batch).
Definition running (batch : Z) : JobObject :=
  job_status_PrepareForUpdate
    {| jo_Job := with_status (jo_Job (created batch))
                   {| Phase := ReindexJobRunning; Message := ""; st_Progress := None; StartedAt := None;
                      CompletedAt := None; st_Conditions := [] |};
       jo_Labels := None; jo_Annotations := None |} (created batch).

Lemma created_stored (batch : Z) : batch = 1000%Z \/ batch = 5000%Z -> job_stored (created batch).
Proof. intros [-> | ->]; apply (job_created ToyStore.clock); vm_compute; reflexivity. Qed.
End ToyStrategy.

(** Every error of a policy at once. *)
Example policy_rejected :
  @policy_Validate ToyCel.toy ToyStrategy.names (ToyStrategy.policy ["create"; "create"; "B"])
  = Ok [Duplicate [Child "spec"; Child "auditRules"; At 1; Child "name"] "create (conflicts with auditRules[0])";
        Invalid [Child "spec"; Child "auditRules"; At 2; Child "name"] "B"
          "must be a valid DNS subdomain (lowercase alphanumeric and hyphens, start/end with alphanumeric): [bad]"].
Proof. vm_compute. reflexivity. Qed.

(** Only the start time is protected: the end of the range and the batch size
    of a running job can be changed. *)
Lemma running_job_spec_mutable :
  let old := ToyStrategy.running 1000 in
  let new := job_PrepareForUpdate (ToyStrategy.job "now-7d" "now-1d" 5000) old in
  job_stored old /\ job_started old = true
  /\ job_ValidateUpdate ToyStore.clock new old = Ok []
  /\ tr_EndTime (TimeRange (jo_Spec new)) <> tr_EndTime (TimeRange (jo_Spec old))
  /\ Config (jo_Spec new) <> Config (jo_Spec old).
Proof.
  split; [apply job_status_updated, ToyStrategy.created_stored; by left|].
  split; [reflexivity|]. split; [vm_compute; reflexivity|]. by split.
Qed.

Section Oversized.
Context `{FilterLib} `{CursorLib} `{ClickHouse}.

(** A job may be stored with batches larger than the pages the query API
    serves; then every audit log query of its worker is refused, whatever the
    time, the user and the storage answer. *)
Lemma oversized_batches_refused :
  exists j, job_stored j /\ forall s e, let opts := reindex_options (jo_Spec j) s e in
  forall config tp k clock extra cursor, (0 < MaxPageSize config <= 1000)%Z ->
  exists errs e, auditlog_Create (audit_backend config tp k) clock (Some extra)
    {| q_Name := ""; q_Results := []; q_Continue := ""; q_EffectiveStartTime := ""; q_EffectiveEndTime := "";
       q_Spec := {| aq_StartTime := Format_RFC3339 (o_StartTime opts); aq_EndTime := Format_RFC3339 (o_EndTime opts);
                    aq_Filter := ""; aq_Limit := BatchSize opts; aq_Continue := cursor |} |}
    = ([], Refuse (NewInvalid "AuditLogQuery" "" (e :: errs))).
Proof.
  exists (ToyStrategy.created 5000). split; [apply ToyStrategy.created_stored; by right|].
  intros s e opts config tp k clock extra cursor Hm. unfold auditlog_Create, authorised. cbn [q_Spec q_Name].
  match goal with |- context [auditlog_validateQuerySpec ?b ?n ?c ?sp] =>
    destruct (auditlog_validate_total b n c sp) as [[|e' errs] E]; rewrite E end.
  - exfalso. apply auditlog_validate_ok in E as (_ & [_ Hl] & _).
    cbn [aq_Limit GetMaxPageSize audit_backend] in Hl. specialize (Hl (proj1 Hm)).
    change (BatchSize opts) with 5000%Z in Hl. lia.
  - by exists errs, e'.
Qed.
End Oversized.

(* ------------------------------------------------------------------ *)
(** ** Witnesses *)

Lemma policy_lifecycle_witness :
  exists p, @policy_stored ToyCel.toy ToyStrategy.names ("apps", "Deployment") 1 p
  /\ pr_Generation p = 2%Z /\ @validatePolicy ToyCel.toy (pr_Policy p) = Ok tt.
Proof.
  pose (p0 := policy_PrepareForCreate (ToyStrategy.policy [])).
  assert (@policy_stored ToyCel.toy ToyStrategy.names ("apps", "Deployment") 1
            (policy_PrepareForUpdate (ToyStrategy.policy ["create"]) p0)) as Hs.
  { apply (@policy_updated ToyCel.toy ToyStrategy.names ("apps", "Deployment") 0 p0 (ToyStrategy.policy ["create"])).
    - apply policy_created; [vm_compute; reflexivity|reflexivity].
    - vm_compute. reflexivity. }
  eexists. split; [exact Hs|].
  destruct (@policy_lifecycle ToyCel.toy ToyStrategy.names _ _ _ Hs) as (_ & Hv & _ & Hg).
  split; [rewrite Hg; reflexivity|exact Hv].
Defined.

Lemma job_lifecycle_witness :
  let opts := reindex_options (jo_Spec (ToyStrategy.running 5000)) 0%Z 0%Z in
  BatchSize opts = 5000%Z /\ (100 <= BatchSize opts <= 10000)%Z.
Proof.
  split; [reflexivity|]. apply (job_lifecycle (ToyStrategy.running 5000) 0%Z 0%Z).
  apply job_status_updated, ToyStrategy.created_stored; right; reflexivity.
Defined.
