(* ===== verification/Preview.v ===== *)
(** * internal/registry/activity/preview: policy previews

    A [PolicyPreview] evaluates the rules of a policy on sample inputs, given
    or fetched from the audit logs and events ([preview/storage.go]), with the
    evaluation functions the re-indexer uses.  The two queries it may make are
    parameters; a request returns the calls it made and its response. *)

From Stdlib Require Import Ascii String.
From stdpp Require Import base numbers list strings gmap pretty.
From Stdlib Require Import ZArith Lia.
From S2P Require Import Prelude GoLib Calls GoFmt Types TimeUtil CelPolicy Activity Dlq EventProc CelFilter Query EventStore GoSlice PolicyCache AuditProc Rest Reindex ReindexJob PolicyController Strategy.

Record PolicyPreviewInput := {
  in_Type : string; in_Audit : option AuditEvent; in_Event : option string (* raw JSON *) }.
Record AutoFetchSpec := { af_Limit : Z (* int32 *); af_TimeRange : string; af_Sources : string }.
Record PolicyPreviewSpec := {
  pv_Policy : PolicySpec; pv_Inputs : list PolicyPreviewInput; pv_AutoFetch : option AutoFetchSpec }.
Record PolicyPreviewInputResult := {
  ir_InputIndex : Z; ir_Matched : bool; ir_MatchedRuleIndex : Z; ir_MatchedRuleType : string;
  ir_MatchedRuleName : string; ir_Error : string }.
Record PolicyPreviewStatus := {
  pv_Activities : list Activity; pv_Results : list PolicyPreviewInputResult;
  pv_FetchedInputs : list PolicyPreviewInput }.

(** The stored audit event of [Query] as the audit event of [Activity]: two
    views of the same Go value. *)
Class AuditView := { audit_of_stored : StoredEvent -> AuditEvent }.

(* ------------------------------------------------------------------ *)
(** ** Validation *)

Definition now_expr (timeRange : string) : string :=
  if HasPrefix timeRange "now" then timeRange else "now-" +:+ timeRange.

Definition validate_input (inputsPath : path) (i : Z) (input : PolicyPreviewInput) : list field_error :=
  let at_ name := inputsPath ++ [At i; Child name] in
  let type_ := in_Type input in
  if (type_ =? "")%string
  then [Required (at_ "type") "specify whether this input is an 'audit' log or 'event'"]
  else if (type_ =? "audit")%string
  then match in_Audit input with
       | None => [Required (at_ "audit") "provide the audit log data to test"] | Some _ => [] end
  else if (type_ =? "event")%string
  then match in_Event input with
       | None => [Required (at_ "event") "provide the event data to test"] | Some _ => [] end
  else [NotSupported (at_ "type") type_ ["audit"; "event"]].

Definition validatePreviewInputs (inputs : list PolicyPreviewInput) (inputsPath : path) : list field_error :=
  List.concat (imap (fun i input => validate_input inputsPath (Z.of_nat i) input) inputs).

Definition validateAutoFetch (now : time) (autoFetch : AutoFetchSpec) (fldPath : path) : res (list field_error) :=
  let limit := af_Limit autoFetch in
  let at_ name := fldPath ++ [Child name] in
  let e1 := if (limit <? 0)%Z then [Invalid (at_ "limit") (pretty limit) "must be >= 0"] else [] in
  let e2 := if (50 <? limit)%Z then [Invalid (at_ "limit") (pretty limit) "must be <= 50"] else [] in
  let? e3 := if (af_TimeRange autoFetch =? "")%string then Ok []
             else check (ParseFlexibleTime (now_expr (af_TimeRange autoFetch)) now)
                    (fun _ => Invalid (at_ "timeRange") (af_TimeRange autoFetch)
                                "must be a valid relative time (e.g., '1h', '24h', '7d')") in
  let validSources := ["audit"; "events"; "both"] in
  let e4 := if (negb (af_Sources autoFetch =? "")%string && negb (bool_decide (af_Sources autoFetch ∈ validSources)))%bool
            then [NotSupported (at_ "sources") (af_Sources autoFetch) validSources] else [] in
  Ok (e1 ++ e2 ++ e3 ++ e4).

Section Preview.
Context `{CelEngine} `{NameLib} `{ActivityLib} `{EvalJson} `{EventLib} `{AuditView}.

Definition validatePolicyPreview (now : time) (spec : PolicyPreviewSpec) : res (list field_error) :=
  let specPath := [Child "spec"] in
  let hasInputs := negb (bool_decide (length (pv_Inputs spec) = 0%nat)) in
  let? e1 := ValidateActivityPolicySpec (pv_Policy spec) (specPath ++ [Child "policy"]) in
  let e2 := if (negb hasInputs && match pv_AutoFetch spec with None => true | _ => false end)%bool
            then [Required specPath "provide either 'inputs' or 'autoFetch'"] else [] in
  let e3 := if (hasInputs && match pv_AutoFetch spec with Some _ => true | _ => false end)%bool
            then [Invalid specPath "" "cannot specify both 'inputs' and 'autoFetch' - use one or the other"] else [] in
  let e4 := if hasInputs then validatePreviewInputs (pv_Inputs spec) (specPath ++ [Child "inputs"]) else [] in
  let? e5 := match pv_AutoFetch spec with
             | Some autoFetch => validateAutoFetch now autoFetch (specPath ++ [Child "autoFetch"])
             | None => Ok []
             end in
  Ok (e1 ++ e2 ++ e3 ++ e4 ++ e5).

(* ------------------------------------------------------------------ *)
(** ** Evaluation *)

Definition evaluateAuditInput (now : time) (spec : PolicySpec) (input : PolicyPreviewInput) : res EvaluationResult :=
  match in_Audit input with
  | None => Err (Errorf [PStr "audit input is nil"])
  | Some audit => EvaluateAuditRules now spec audit None
  end.

Definition evaluateEventInput (now : time) (spec : PolicySpec) (input : PolicyPreviewInput) : res EvaluationResult :=
  let raw := default "" (in_Event input) in
  if (raw =? "")%string then Err (Errorf [PStr "event input is nil or empty"])
  else
    let? eventMap := wrap_err (of_sum (json_unmarshal_map raw))
                       (fun e => Errorf [PStr "failed to unmarshal event: "; PWrap e]) in
    EvaluateEventRules now spec (InMap (nil_map eventMap)) None.

(** The evaluation of one input; an input of another type matches nothing. *)
Definition evaluate_input (now : time) (spec : PolicySpec) (input : PolicyPreviewInput) : res EvaluationResult :=
  if (in_Type input =? "audit")%string then evaluateAuditInput now spec input
  else if (in_Type input =? "event")%string then evaluateEventInput now spec input
  else Ok no_match.

Definition input_result (i : Z) (r : res EvaluationResult) : PolicyPreviewInputResult :=
  let none error :=
    {| ir_InputIndex := i; ir_Matched := false; ir_MatchedRuleIndex := -1; ir_MatchedRuleType := "";
       ir_MatchedRuleName := ""; ir_Error := error |} in
  match r with
  | Err e => none (error_text e)
  | Panic w => none w
  | Ok ev =>
      match er_Activity ev with
      | None => none ""
      | Some _ => {| ir_InputIndex := i; ir_Matched := true; ir_MatchedRuleIndex := MatchedRuleIndex ev;
                     ir_MatchedRuleType := MatchedRuleType ev; ir_MatchedRuleName := MatchedRuleName ev; ir_Error := "" |}
      end
  end.

(** The loop over the inputs, from index [i]; the clock is read for each. *)
Fixpoint evaluate_inputs (now : Z -> time) (spec : PolicySpec) (i : Z) (inputs : list PolicyPreviewInput)
    (activities : list Activity) (results : list PolicyPreviewInputResult) : res PolicyPreviewStatus :=
  match inputs with
  | [] => Ok {| pv_Activities := activities; pv_Results := results; pv_FetchedInputs := [] |}
  | input :: rest =>
      let r := evaluate_input (now i) spec input in
      match r with
      | Panic w => Panic w
      | _ =>
          let activities := match r with
                            | Ok ev => match er_Activity ev with Some a => activities ++ [a] | None => activities end
                            | _ => activities
                            end in
          evaluate_inputs now spec (i + 1) rest activities (results ++ [input_result i r])
      end
  end.

Definition evaluatePolicy (now : Z -> time) (spec : PolicySpec) (inputs : list PolicyPreviewInput)
  : res PolicyPreviewStatus := evaluate_inputs now spec 0 inputs [] [].

(* ------------------------------------------------------------------ *)
(** ** Fetching inputs *)

(** [stripAuditPrefix]: where the scanner is, and how many bytes of a prefix
    are still to be dropped. *)
Inductive scan := Outside (skip : nat) | InLiteral (q : ascii) | Escaped (q : ascii).

Fixpoint strip_go (st : scan) (s : string) : string :=
  match s with
  | EmptyString => ""
  | String c rest =>
      match st with
      | Outside (S k) => strip_go (Outside k) rest
      | Outside O =>
          if (Ascii.eqb c "'" || Ascii.eqb c dquote_byte)%bool then String c (strip_go (InLiteral c) rest)
          else if HasPrefix s "audit." then strip_go (Outside 5) rest
          else String c (strip_go (Outside 0) rest)
      | InLiteral q =>
          if Ascii.eqb c q then String c (strip_go (Outside 0) rest)
          else if Ascii.eqb c "\" then String c (strip_go (Escaped q) rest)
          else String c (strip_go (InLiteral q) rest)
      | Escaped q => String c (strip_go (InLiteral q) rest)
      end
  end.
Definition stripAuditPrefix (expr : string) : string := strip_go (Outside 0) expr.

Definition buildRuleFilter (rules : list PolicyRule) : string :=
  let parts := omap (fun rule => let m := rule_Match rule in
                       if ((m =? "") || (m =? "true"))%string%bool then None
                       else Some ("(" +:+ stripAuditPrefix m +:+ ")")) rules in
  match parts with
  | [] => ""
  | [p] => p
  | _ => "(" +:+ String.concat " || " parts +:+ ")"
  end.

Definition audit_sample_filter (policy : PolicySpec) : string :=
  let ruleFilter := buildRuleFilter (AuditRules policy) in
  String.concat " && "
    ([ "objectRef.apiGroup == " +:+ quoted (ps_APIGroup policy);
       "objectRef.resource.contains(" +:+ quoted (ToLower (ps_Kind policy)) +:+ ")" ]
     ++ (if (ruleFilter =? "")%string then [] else [ruleFilter])).

(** The field, blanks, [==], blanks, and a double-quoted literal that is not
    empty, at the leftmost place they occur. *)
Fixpoint span_literal (s : string) : string * string :=
  match s with
  | EmptyString => ("", "")
  | String a s' => if Ascii.eqb a dquote_byte then ("", s) else let (v, r) := span_literal s' in (String a v, r)
  end.
Definition match_at (prefix s : string) : option string :=
  if HasPrefix s prefix then
    let s1 := drop_spaces (drop_str (String.length prefix) s) in
    if HasPrefix s1 "==" then
      match drop_spaces (drop_str 2 s1) with
      | String q s2 =>
          if Ascii.eqb q dquote_byte then
            match span_literal s2 with
            | (EmptyString, _) | (_, EmptyString) => None
            | (v, _) => Some v
            end
          else None
      | EmptyString => None
      end
    else None
  else None.
Fixpoint find_literal (prefix s : string) : option string :=
  match match_at prefix s with
  | Some v => Some v
  | None => match s with EmptyString => None | String _ s' => find_literal prefix s' end
  end.

Definition extractEventFiltersFromCEL (celExpr : string) : list string :=
  let part prefix name := match find_literal prefix celExpr with Some v => [name +:+ v] | None => [] end in
  part "event.reason" "reason=" ++ part "event.type" "type=".

Definition event_sample_selector (policy : PolicySpec) : string :=
  let apiVersion := if (ps_APIGroup policy =? "")%string then "v1" else ps_APIGroup policy in
  String.concat ","
    (["regarding.apiVersion=" +:+ apiVersion; "regarding.kind=" +:+ ps_Kind policy]
     ++ List.concat (map (fun rule => extractEventFiltersFromCEL (rule_Match rule)) (EventRules policy))).

(** The two queries, and the calls made. *)
Inductive fetch_call :=
| CallAudit (spec : AuditLogQuerySpec) (scope : ScopeContext)
| CallEvents (spec : EventQuerySpec) (scope : ScopeContext).
Context (QueryAuditLogs : AuditLogQuerySpec -> ScopeContext -> res QueryResult).
Context (QueryEvents : EventQuerySpec -> ScopeContext -> res EventQueryResult).

Definition audit_samples (policy : PolicySpec) (startTime endTime : string) (limit : Z) : AuditLogQuerySpec :=
  {| aq_StartTime := startTime; aq_EndTime := endTime; aq_Filter := audit_sample_filter policy;
     aq_Limit := limit; aq_Continue := "" |}.
Definition event_samples (policy : PolicySpec) (startTime endTime : string) (limit : Z) : EventQuerySpec :=
  {| es_StartTime := startTime; es_EndTime := endTime; es_Namespace := "";
     es_FieldSelector := event_sample_selector policy; es_Limit := limit; es_Continue := "" |}.

Definition fetchAuditLogSamples (spec : AuditLogQuerySpec) (scope : ScopeContext) : res (list PolicyPreviewInput) :=
  let? result := QueryAuditLogs spec scope in
  Ok (map (fun e => {| in_Type := "audit"; in_Audit := Some (audit_of_stored e); in_Event := None |})
        (qr_Events result)).

Fixpoint event_inputs (records : list EventRecord) : res (list PolicyPreviewInput) :=
  match records with
  | [] => Ok []
  | r :: rest =>
      let? raw := wrap_err (of_sum (json_marshal_event (erec_Event r)))
                    (fun e => Errorf [PStr "failed to marshal event: "; PWrap e]) in
      let? l := event_inputs rest in
      Ok ({| in_Type := "event"; in_Audit := None; in_Event := Some raw |} :: l)
  end.
Definition fetchEventSamples (spec : EventQuerySpec) (scope : ScopeContext) : res (list PolicyPreviewInput) :=
  let? result := QueryEvents spec scope in event_inputs (eq_Events result).

Definition wants (sources : string) (one : string) : bool :=
  let sources := if (sources =? "")%string then "both" else sources in
  ((sources =? one) || (sources =? "both"))%string%bool.

Definition autoFetchInputs (now : time) (policy : PolicySpec) (autoFetch : AutoFetchSpec) (scope : ScopeContext)
  : list fetch_call * res (list PolicyPreviewInput) :=
  let timeRange := if (af_TimeRange autoFetch =? "")%string then "24h" else af_TimeRange autoFetch in
  match ParseFlexibleTime (now_expr timeRange) now with
  | Err e => ([], Err (Errorf [PStr "invalid timeRange: "; PWrap e]))
  | Panic w => ([], Panic w)
  | Ok startTime =>
      let startTimeStr := Format_RFC3339 startTime in
      let endTimeStr := Format_RFC3339 now in
      let limit := if (af_Limit autoFetch =? 0)%Z then 10%Z else af_Limit autoFetch in
      let fetch (wanted : bool) (call : fetch_call) (what : string) (r : res (list PolicyPreviewInput)) :=
        if wanted
        then ([call], wrap_err r (fun e => Errorf [PStr what; PWrap e]))
        else ([], Ok []) in
      let auditSpec := audit_samples policy startTimeStr endTimeStr limit in
      let eventSpec := event_samples policy startTimeStr endTimeStr limit in
      let '(c1, r1) := fetch (wants (af_Sources autoFetch) "audit" && negb (bool_decide (AuditRules policy = [])))%bool
                         (CallAudit auditSpec scope) "failed to fetch audit log samples: "
                         (fetchAuditLogSamples auditSpec scope) in
      match r1 with
      | Err e => (c1, Err e)
      | Panic w => (c1, Panic w)
      | Ok auditInputs =>
          let '(c2, r2) := fetch (wants (af_Sources autoFetch) "events" && negb (bool_decide (EventRules policy = [])))%bool
                             (CallEvents eventSpec scope) "failed to fetch event samples: "
                             (fetchEventSamples eventSpec scope) in
          (c1 ++ c2, let? eventInputs := r2 in Ok (auditInputs ++ eventInputs))
      end
  end.

(** [Create]: the answer is the object's spec, with the inputs evaluated, and
    its status. *)
Definition preview_Create `{FieldLib} (validated fetched : time) (now : Z -> time) (preview : option PolicyPreviewSpec)
  : list fetch_call * resp (PolicyPreviewSpec * PolicyPreviewStatus) :=
  match preview with
  | None => ([], Refuse (BadRequest "expected PolicyPreview object"))
  | Some spec =>
      match validatePolicyPreview validated spec with
      | Panic w => ([], Crash w)
      | Err e => ([], Refuse (Plain e))
      | Ok (e :: errs) => ([], Refuse (NewValidationStatusError "PolicyPreview" "" (e :: errs)))
      | Ok [] =>
          let run inputs fetchedInputs :=
            answer (evaluatePolicy now (pv_Policy spec) inputs) Plain (fun s =>
              Answer ({| pv_Policy := pv_Policy spec; pv_Inputs := inputs; pv_AutoFetch := pv_AutoFetch spec |},
                      {| pv_Activities := pv_Activities s; pv_Results := pv_Results s; pv_FetchedInputs := fetchedInputs |})) in
          match pv_AutoFetch spec with
          | None => ([], run (pv_Inputs spec) [])
          | Some autoFetch =>
              let '(calls, r) := autoFetchInputs fetched (pv_Policy spec) autoFetch {| sc_Type := "platform"; sc_Name := "" |} in
              (calls, answer r (fun e => InternalError (Errorf [PStr "failed to auto-fetch sample inputs: "; PWrap e]))
                        (fun inputs => run inputs inputs))
          end
      end
  end.
End Preview.

(* ------------------------------------------------------------------ *)
(** ** Lemmas *)

Section PreviewLemmas.
Context `{CelEngine} `{NameLib} `{ActivityLib} `{EvalJson}.

(** The rules an input is tried against, and their matches on its data. *)
Definition rules_of (spec : PolicySpec) (ty : string) : list PolicyRule :=
  if (ty =? "audit")%string then AuditRules spec else EventRules spec.
Definition rule_matches (ty : string) (m : gomap) (rule : PolicyRule) : res bool :=
  if (ty =? "audit")%string then EvaluateAuditMatchMap (rule_Match rule) m
  else EvaluateEventMatch (rule_Match rule) m.

Definition first_match (spec : PolicySpec) (ty : string) (m : gomap) (k : nat) (rule : PolicyRule) : Prop :=
  rules_of spec ty !! k = Some rule /\ rule_matches ty m rule = Ok true
  /\ forall j rule', (j < k)%nat -> rules_of spec ty !! j = Some rule' -> rule_matches ty m rule' = Ok false.

(** The data of an input: the JSON of its audit event, or its raw event, as a
    map. *)
Definition data_of (input : PolicyPreviewInput) (m : gomap) : Prop :=
  (in_Type input = "audit" /\ exists audit doc d,
     in_Audit input = Some audit /\ audit_json audit = inr doc /\ json_unmarshal_map doc = inr d /\ m = nil_map d)
  \/ (in_Type input = "event" /\ exists raw d,
       in_Event input = Some raw /\ raw <> "" /\ json_unmarshal_map raw = inr d /\ m = nil_map d).
(** The summary of a rule on the data, and the activity made with it. *)
Definition summary_on (ty : string) (m : gomap) (rule : PolicyRule) : res (string * list Link) :=
  if (ty =? "audit")%string then EvaluateAuditSummaryMap (rule_Summary rule) m
  else EvaluateEventSummary (rule_Summary rule) m.
Definition built (now : time) (spec : PolicySpec) (input : PolicyPreviewInput) (m : gomap) (s : string) (ls : list Link)
    (a : Activity) : Prop :=
  let builder := {| b_APIGroup := ps_APIGroup spec; b_Kind := ps_Kind spec |} in
  if (in_Type input =? "audit")%string
  then exists audit, in_Audit input = Some audit /\ BuildFromAudit now builder audit s ls None = Ok a
  else BuildFromEvent now builder m s ls None = Ok a.

(** The input makes the activity [a], by the rule [k] of its kind. *)
Definition yields (now : time) (spec : PolicySpec) (input : PolicyPreviewInput) (k : nat) (rule : PolicyRule)
    (a : Activity) : Prop :=
  exists m s ls, data_of input m /\ first_match spec (in_Type input) m k rule
    /\ summary_on (in_Type input) m rule = Ok (s, ls) /\ built now spec input m s ls a.

Definition outcome_of (input : PolicyPreviewInput) (k : nat) (rule : PolicyRule) (a : Activity) : EvaluationResult :=
  {| er_Activity := Some a; MatchedRuleIndex := Z.of_nat k; MatchedRuleType := in_Type input;
     MatchedRuleName := rule_Name rule |}.

Lemma yields_evaluates now spec input k rule a :
  yields now spec input k rule a -> evaluate_input now spec input = Ok (outcome_of input k rule a).
Proof.
  intros (m & s & ls & Hd & (Hk & Hm & Hbefore) & Hs & Hb). unfold evaluate_input, outcome_of.
  unfold rules_of, rule_matches, summary_on, built in *.
  destruct Hd as [(Ety & au & doc & d & Hau & Hdoc & Hmap & ->)|(Ety & raw & d & Hraw & Hne & Hmap & ->)];
    rewrite Ety in *; cbn [String.eqb Ascii.eqb Bool.eqb] in *.
  - destruct Hb as (au' & Hau' & Hb). unfold evaluateAuditInput. rewrite Hau in *. injection Hau' as <-.
    unfold EvaluateAuditRules, toMap. rewrite Hdoc. cbn [of_sum wrap_err res_bind]. rewrite Hmap. cbn [of_sum wrap_err res_bind].
    apply eval_rules_spec. right. by exists k, rule, s, ls, a.
  - unfold evaluateEventInput. rewrite Hraw. cbn [default from_option id]. apply String.eqb_neq in Hne. rewrite Hne, Hmap.
    cbn [of_sum wrap_err res_bind]. unfold EvaluateEventRules, toMap. cbn [wrap_err res_bind].
    apply eval_rules_spec. right. by exists k, rule, s, ls, a.
Qed.

Lemma evaluate_input_match now spec input ev a :
  evaluate_input now spec input = Ok ev -> er_Activity ev = Some a ->
  exists k rule, yields now spec input k rule a /\ ev = outcome_of input k rule a.
Proof.
  unfold evaluate_input, outcome_of, yields, first_match, rules_of, rule_matches, summary_on, built, data_of.
  destruct (String.eqb_spec (in_Type input) "audit") as [->|_].
  - unfold evaluateAuditInput. destruct (in_Audit input) as [au|] eqn:Eau; [|done].
    intros (m & Hm%wrap_err_ok & He)%res_bind_ok Ha. unfold toMap in Hm.
    apply res_bind_ok in Hm as (doc & Hdoc%wrap_err_ok & Hm). apply res_bind_ok in Hm as (d & Hd%wrap_err_ok & [= <-]).
    destruct (audit_json au) as [|doc'] eqn:Edoc; [done|]. injection Hdoc as ->.
    destruct (json_unmarshal_map doc) as [|d'] eqn:Ed; [done|]. injection Hd as ->.
    apply eval_rules_spec in He as [[-> _]|(k & rule & s & ls & a' & Hk & Hb & Hm & Hs & Hbuild & ->)]; [done|].
    injection Ha as ->. exists k, rule. split; [|done]. exists (nil_map d), s, ls. split_and!; try done; [|by exists au].
    left. split; [done|]. by exists au, doc, d.
  - destruct (String.eqb_spec (in_Type input) "event") as [->|_]; [|by intros [= <-]].
    unfold evaluateEventInput. destruct (String.eqb_spec (default "" (in_Event input)) "") as [|Hne]; [done|].
    intros (d & Hd%wrap_err_ok & He)%res_bind_ok Ha. destruct (json_unmarshal_map _) as [|d'] eqn:Ed; [done|]. injection Hd as ->.
    apply res_bind_ok in He as (m' & [= <-] & He).
    apply eval_rules_spec in He as [[-> _]|(k & rule & s & ls & a' & Hk & Hb & Hm & Hs & Hbuild & ->)]; [done|].
    injection Ha as ->. exists k, rule. split; [|done]. exists (nil_map d), s, ls. split_and!; try done.
    right. split; [done|]. destruct (in_Event input) as [raw|]; [|done]. by exists raw, d.
Qed.

Definition activity_of (r : res EvaluationResult) : option Activity :=
  match r with Ok ev => er_Activity ev | _ => None end.

(** The outcomes of the inputs, from index [i]. *)
Definition outcomes (now : Z -> time) (spec : PolicySpec) (i : nat) (inputs : list PolicyPreviewInput)
  : list (res EvaluationResult) :=
  imap (fun n input => evaluate_input (now (Z.of_nat (i + n))) spec input) inputs.

Lemma outcomes_cons now spec i input inputs :
  outcomes now spec i (input :: inputs)
  = evaluate_input (now (Z.of_nat i)) spec input :: outcomes now spec (S i) inputs.
Proof.
  unfold outcomes. rewrite imap_cons, Nat.add_0_r. f_equal. apply imap_ext. intros n x _. simpl.
  by rewrite Nat.add_succ_r.
Qed.

Lemma evaluate_inputs_spec now spec inputs : forall i acts results st,
  evaluate_inputs now spec (Z.of_nat i) inputs acts results = Ok st ->
  pv_Activities st = acts ++ omap activity_of (outcomes now spec i inputs)
  /\ pv_Results st = results ++ imap (fun n r => input_result (Z.of_nat (i + n)) r) (outcomes now spec i inputs).
Proof.
  induction inputs as [|input inputs IH]; intros i acts results st.
  { intros [= <-]. cbn. by rewrite !app_nil_r. }
  cbn [evaluate_inputs]. rewrite outcomes_cons. set (r := evaluate_input (now (Z.of_nat i)) spec input).
  replace (Z.of_nat i + 1)%Z with (Z.of_nat (S i)) by lia.
  rewrite imap_cons, Nat.add_0_r. cbn [omap list_omap].
  rewrite (imap_ext _ (fun n r0 => input_result (Z.of_nat (S i + n)) r0)) by (intros; simpl; by rewrite Nat.add_succ_r).
  intros He. destruct r as [ev|e|w]; [| |done]; apply IH in He as [-> ->]; cbn [activity_of].
  - destruct (er_Activity ev); by rewrite <- !app_assoc.
  - by rewrite <- !app_assoc.
Qed.
End PreviewLemmas.

(** Text outside literals, and literals of either quote. *)
Inductive token := Text (s : string) | Literal (q : ascii) (body : string).

(** A body in which no quote ends the literal, and that is not cut in an
    escape. *)
Fixpoint body_ok (q : ascii) (s : string) : bool :=
  match s with
  | EmptyString => true
  | String c rest =>
      if Ascii.eqb c q then false
      else if Ascii.eqb c "\" then match rest with EmptyString => false | String _ rest' => body_ok q rest' end
      else body_ok q rest
  end.
Definition quote_byte (a : ascii) : bool := (Ascii.eqb a "'" || Ascii.eqb a dquote_byte)%bool.
Definition token_ok (t : token) : Prop :=
  match t with
  | Text s => all_bytes (fun a => negb (quote_byte a)) s = true
  | Literal q body => quote_byte q = true /\ body_ok q body = true
  end.
Definition token_text (t : token) : string :=
  match t with Text s => s | Literal q body => String q (body +:+ String q "") end.

(** The next byte is a quote, or there is none: no [audit.] can straddle. *)
Definition at_quote (s : string) : Prop := match s with EmptyString => True | String a _ => quote_byte a = true end.

Lemma audit_prefix_text (s rest : string) :
  all_bytes (fun a => negb (quote_byte a)) s = true -> at_quote rest ->
  HasPrefix (s +:+ rest) "audit." = HasPrefix s "audit.".
Proof.
  intros Hs Hr. assert (forall p t, all_bytes (fun a => negb (quote_byte a)) p = true ->
    HasPrefix (t +:+ rest) p = HasPrefix t p) as Hgen; [|by apply Hgen].
  clear s Hs. induction p as [|a p IH]; intros [|b t] Hp; try done.
  - cbn in Hp. apply andb_prop in Hp as [Ha _]. destruct rest as [|c rest]; [done|]. cbn in Hr |- *.
    destruct (Ascii.eqb_spec a c) as [->|]; [|done]. by rewrite Hr in Ha.
  - cbn in *. apply andb_prop in Hp as [_ Hp]. by rewrite IH.
Qed.

Lemma strip_text (s rest : string) (k : nat) :
  all_bytes (fun a => negb (quote_byte a)) s = true -> at_quote rest -> (k <= String.length s)%nat ->
  strip_go (Outside k) (s +:+ rest) = replace_go "audit." "" k s +:+ strip_go (Outside 0) rest.
Proof.
  revert k. induction s as [|c s IH]; intros k Hs Hr Hk.
  { destruct k; [done|simpl in Hk; lia]. }
  pose proof Hs as Hall. cbn [all_bytes] in Hs. apply andb_prop in Hs as [Hc Hs].
  cbn [String.append strip_go replace_go]. destruct k as [|k].
  - apply negb_true_iff in Hc. fold (quote_byte c). rewrite Hc.
    change (String c (s +:+ rest)) with (String c s +:+ rest). rewrite audit_prefix_text by done.
    destruct (HasPrefix (String c s) "audit.") eqn:Hp.
    + apply HasPrefix_spec in Hp as [t Ht]. change (String.length "audit." - 1)%nat with 5%nat.
      rewrite IH; [done|done|done|]. assert (String.length (String c s) = 6 + String.length t)%nat as Hl
        by (rewrite Ht, length_append; done). simpl in Hl. lia.
    + cbn [String.append]. f_equal. apply IH; [done|done|lia].
  - apply IH; [done|done|simpl in Hk; lia].
Qed.

Lemma strip_literal (q : ascii) (body rest : string) :
  body_ok q body = true -> Ascii.eqb q "\" = false ->
  strip_go (InLiteral q) (body +:+ String q rest) = body +:+ String q (strip_go (Outside 0) rest).
Proof.
  intros Hb Hq. remember (String.length body) as n eqn:Hn. revert body Hb Hn.
  induction (lt_wf n) as [n _ IH]; intros body Hb Hn. subst n. destruct body as [|c body].
  { cbn. by rewrite Ascii.eqb_refl. }
  cbn [String.append strip_go body_ok] in *. destruct (Ascii.eqb c q); [done|].
  destruct (Ascii.eqb c "\").
  - destruct body as [|d body]; [done|]. cbn [String.append strip_go]. do 2 f_equal.
    eapply IH; [|exact Hb|reflexivity]. simpl. lia.
  - f_equal. eapply IH; [|exact Hb|reflexivity]. simpl. lia.
Qed.

Lemma concat_text_cons (t : token) (ts : list token) :
  String.concat "" (map token_text (t :: ts)) = token_text t +:+ String.concat "" (map token_text ts).
Proof. cbn [map]. destruct (map token_text ts); [by rewrite append_nil_r|done]. Qed.

(** No text is followed by a text: the tokens are those of one scan. *)
Fixpoint separated (ts : list token) : bool :=
  match ts with
  | Text _ :: (Text _ :: _) => false
  | _ :: ts' => separated ts'
  | [] => true
  end.
Definition strip_token (t : token) : token :=
  match t with Text s => Text (ReplaceAll s "audit." "") | Literal q body => Literal q body end.

Lemma separated_tail t ts : separated (t :: ts) = true -> separated ts = true.
Proof. destruct t, ts as [|[|]]; try done. Qed.

Lemma separated_at_quote s ts :
  Forall token_ok ts -> separated (Text s :: ts) = true -> at_quote (String.concat "" (map token_text ts)).
Proof.
  destruct ts as [|[s'|q body] ts]; [done|done|]. rewrite concat_text_cons.
  intros [[Hq _] _]%Forall_cons _. exact Hq.
Qed.

(** Translating the match of an audit rule for the query API removes every
    [audit.] outside the string literals of the expression and leaves its
    literals, of either quote and with their escapes, byte for byte. *)
Theorem strip_tokens (ts : list token) :
  Forall token_ok ts -> separated ts = true ->
  stripAuditPrefix (String.concat "" (map token_text ts))
  = String.concat "" (map token_text (map strip_token ts)).
Proof.
  unfold stripAuditPrefix. induction ts as [|t ts IH]; [done|]. intros [Ht Hts]%Forall_cons Hs.
  specialize (IH Hts (separated_tail _ _ Hs)). change (map strip_token (t :: ts)) with (strip_token t :: map strip_token ts).
  rewrite !concat_text_cons, <- IH. destruct t as [s|q body]; cbn [token_text strip_token].
  - apply strip_text; [exact Ht|by eapply separated_at_quote|lia].
  - destruct Ht as [Hq Hb]. cbn [String.append strip_go]. fold (quote_byte q). rewrite Hq. f_equal.
    rewrite !append_assoc. apply strip_literal; [done|].
    destruct (Ascii.eqb_spec q "\") as [->|]; [discriminate Hq|done].
Qed.

(* ------------------------------------------------------------------ *)
(** ** Theorems *)

Definition call_limit (c : fetch_call) : Z :=
  match c with CallAudit s _ => aq_Limit s | CallEvents s _ => es_Limit s end.
Definition call_window (c : fetch_call) : string * string :=
  match c with
  | CallAudit s _ => (aq_StartTime s, aq_EndTime s)
  | CallEvents s _ => (es_StartTime s, es_EndTime s)
  end.
Definition is_audit_call (c : fetch_call) : bool := match c with CallAudit _ _ => true | CallEvents _ _ => false end.

Section PreviewTheorems.
Context `{CelEngine} `{NameLib} `{ActivityLib} `{EvalJson} `{EventLib} `{AuditView} `{FieldLib}.
Context (QA : AuditLogQuerySpec -> ScopeContext -> res QueryResult).
Context (QE : EventQuerySpec -> ScopeContext -> res EventQueryResult).

Lemma answered {A B} (r : res A) (refuse : error -> api_error) (k : A -> resp B) (b : B) :
  answer r refuse k = Answer b -> exists a, r = Ok a /\ k a = Answer b.
Proof. destruct r as [a|e|w]; [|done..]. intros Hk. by exists a. Qed.

Lemma run_answer now spec inputs fetched spec' st :
  answer (evaluatePolicy now (pv_Policy spec) inputs) Plain (fun s =>
    Answer ({| pv_Policy := pv_Policy spec; pv_Inputs := inputs; pv_AutoFetch := pv_AutoFetch spec |},
            {| pv_Activities := pv_Activities s; pv_Results := pv_Results s; pv_FetchedInputs := fetched |}))
  = Answer (spec', st) ->
  pv_Policy spec' = pv_Policy spec /\ pv_Inputs spec' = inputs /\ pv_FetchedInputs st = fetched
  /\ pv_Activities st = omap activity_of (outcomes now (pv_Policy spec) 0 inputs)
  /\ pv_Results st = imap (fun n r => input_result (Z.of_nat n) r) (outcomes now (pv_Policy spec) 0 inputs).
Proof.
  intros (s & Hs & [= <- <-])%answered. apply (evaluate_inputs_spec now _ inputs 0 [] []) in Hs as [Ha Hr]. done.
Qed.

(** A preview that is answered: its validation found nothing, and the rest. *)
Lemma preview_answered validated fetched now spec calls spec' st :
  preview_Create QA QE validated fetched now (Some spec) = (calls, Answer (spec', st)) ->
  validatePolicyPreview validated spec = Ok []
  /\ pv_Policy spec' = pv_Policy spec
  /\ pv_Activities st = omap activity_of (outcomes now (pv_Policy spec) 0 (pv_Inputs spec'))
  /\ pv_Results st = imap (fun n r => input_result (Z.of_nat n) r) (outcomes now (pv_Policy spec) 0 (pv_Inputs spec'))
  /\ match pv_AutoFetch spec with
     | None => pv_Inputs spec' = pv_Inputs spec /\ pv_FetchedInputs st = []
     | Some af => pv_FetchedInputs st = pv_Inputs spec'
         /\ snd (autoFetchInputs QA QE fetched (pv_Policy spec) af {| sc_Type := "platform"; sc_Name := "" |})
            = Ok (pv_Inputs spec')
     end.
Proof.
  unfold preview_Create. destruct (validatePolicyPreview validated spec) as [[|]| |]; [|done..].
  destruct (pv_AutoFetch spec) as [af|] eqn:Eaf.
  - destruct (autoFetchInputs _ _ _ _ _ _) as [cs r]. intros [= _ Hr].
    apply answered in Hr as (inputs & -> & Hr). rewrite <- Eaf in Hr.
    apply run_answer in Hr as (-> & -> & -> & -> & ->). by split_and!.
  - intros [= _ Hr]. rewrite <- Eaf in Hr. by apply run_answer in Hr as (-> & -> & -> & -> & ->).
Qed.

(** What an input comes to: the rule and the activity it makes, or nothing. *)
Definition comes_to (now : time) (spec : PolicySpec) (input : PolicyPreviewInput) (i : Z)
    (out : option (nat * PolicyRule * Activity)) (r : PolicyPreviewInputResult) : Prop :=
  match out with
  | Some (k, rule, a) =>
      yields now spec input k rule a
      /\ r = {| ir_InputIndex := i; ir_Matched := true; ir_MatchedRuleIndex := Z.of_nat k;
                ir_MatchedRuleType := in_Type input; ir_MatchedRuleName := rule_Name rule; ir_Error := "" |}
  | None =>
      (forall k rule a, ~ yields now spec input k rule a)
      /\ r = {| ir_InputIndex := i; ir_Matched := false; ir_MatchedRuleIndex := -1; ir_MatchedRuleType := "";
                ir_MatchedRuleName := ""; ir_Error := ir_Error r |}
      /\ ir_Error r = match evaluate_input now spec input with Ok _ => "" | Err e => error_text e | Panic w => w end
  end.
Lemma input_comes_to now spec input i :
  exists out, comes_to now spec input i out (input_result i (evaluate_input now spec input))
    /\ snd <$> out = activity_of (evaluate_input now spec input).
Proof.
  destruct (activity_of (evaluate_input now spec input)) as [a|] eqn:Ea.
  - destruct (evaluate_input now spec input) as [ev| |] eqn:E; [|done..]. cbn [activity_of] in Ea.
    destruct (evaluate_input_match _ _ _ _ _ E Ea) as (k & rule & Hy & ->). by exists (Some (k, rule, a)).
  - exists None. split; [|done]. split.
    + intros k rule a Hy%yields_evaluates. by rewrite Hy in Ea.
    + destruct (evaluate_input now spec input) as [ev| |] eqn:E; cbn in *; [|done..]. by rewrite Ea.
Qed.
Lemma inputs_come_to now spec inputs : forall i,
  exists outs, length outs = length inputs
    /\ omap activity_of (outcomes now spec i inputs) = omap (fmap snd) outs
    /\ forall n input, inputs !! n = Some input -> exists out, outs !! n = Some out
         /\ comes_to (now (Z.of_nat (i + n))) spec input (Z.of_nat (i + n)) out
              (input_result (Z.of_nat (i + n)) (evaluate_input (now (Z.of_nat (i + n))) spec input)).
Proof.
  induction inputs as [|input inputs IH]; intros i; [by exists []|].
  destruct (IH (S i)) as (outs & Hl & Ha & Hn). destruct (input_comes_to (now (Z.of_nat i)) spec input (Z.of_nat i)) as (out & Ho & Hs).
  exists (out :: outs). split; [cbn; by rewrite Hl|]. split.
  - rewrite outcomes_cons. cbn [omap list_omap]. rewrite Ha, <- Hs. by destruct out as [[[k rule] a]|].
  - intros [|n] x Hx; cbn in Hx.
    + injection Hx as <-. exists out. by rewrite Nat.add_0_r.
    + replace (i + S n)%nat with (S i + n)%nat by lia. by apply Hn.
Qed.

(** C36: An answered preview has one result for each input it evaluated, in
    order, and the activities of the inputs that make one, in order.  An input
    makes an activity when its own data - the JSON of its audit event, or its raw
    event - is matched by a rule of its kind, no earlier rule matching, and the
    summary of that rule on that data and the activity built with it are that
    rule's and that activity; its result then names that rule.  An input that
    makes none has a result that is not matched, with the text of the error, if
    any.  Without auto-fetch the inputs are the caller's, and with it the
    evaluated inputs are reported as fetched. *)
Theorem preview_evaluates validated fetched now spec calls spec' st :
  preview_Create QA QE validated fetched now (Some spec) = (calls, Answer (spec', st)) ->
  pv_Policy spec' = pv_Policy spec
  /\ length (pv_Results st) = length (pv_Inputs spec')
  /\ (exists outs, length outs = length (pv_Inputs spec')
        /\ pv_Activities st = omap (fmap snd) outs
        /\ forall i input, pv_Inputs spec' !! i = Some input -> exists out r, outs !! i = Some out
             /\ pv_Results st !! i = Some r
             /\ comes_to (now (Z.of_nat i)) (pv_Policy spec) input (Z.of_nat i) out r)
  /\ length (pv_Activities st) = length (filter (fun r => ir_Matched r = true) (pv_Results st))
  /\ (pv_AutoFetch spec = None -> pv_Inputs spec' = pv_Inputs spec /\ pv_FetchedInputs st = [])
  /\ (pv_AutoFetch spec <> None -> pv_Inputs spec = [] /\ pv_FetchedInputs st = pv_Inputs spec').
Proof using All.
  intros (Hv & Hpol & Ha & Hr & Hf)%preview_answered.
  split_and!.
  - done.
  - rewrite Hr. unfold outcomes. by rewrite !length_imap.
  - destruct (inputs_come_to now (pv_Policy spec) (pv_Inputs spec') 0) as (outs & Hl & Hacts & Hn).
    exists outs. split; [done|]. split; [by rewrite Ha, Hacts|]. intros i input Hi.
    destruct (Hn i input Hi) as (out & Ho & Hc). eexists out, _. split; [done|]. split; [|exact Hc].
    rewrite Hr. unfold outcomes. by rewrite !list_lookup_imap, Hi.
  - rewrite Ha, Hr. clear. generalize (outcomes now (pv_Policy spec) 0 (pv_Inputs spec')). intros l.
    assert (forall n, length (omap activity_of l)
      = length (filter (fun r => ir_Matched r = true) (imap (fun m r => input_result (Z.of_nat (n + m)) r) l))) as Hg;
      [|exact (Hg 0%nat)].
    induction l as [|r l IH]; intros n; [done|]. rewrite imap_cons, filter_cons. cbn [omap list_omap].
    rewrite (imap_ext _ (fun m r0 => input_result (Z.of_nat (S n + m)) r0)) by (intros; simpl; by rewrite Nat.add_succ_r).
    specialize (IH (S n)). destruct r as [ev| |]; cbn [activity_of input_result]; [destruct (er_Activity ev)|..];
      cbn [ir_Matched]; [rewrite decide_True by done; cbn [length]; by rewrite IH|by rewrite decide_False by done..].
  - intros E. by rewrite E in Hf.
  - intros E. destruct (pv_AutoFetch spec) as [af|] eqn:Eaf; [|done]. destruct Hf as [-> _]. split; [|done].
    unfold validatePolicyPreview in Hv. rewrite Eaf in Hv.
    apply res_bind_ok in Hv as (e1 & _ & (e5 & _ & [= Hv])%res_bind_ok).
    apply app_eq_nil in Hv as [_ Hv]. apply app_eq_nil in Hv as [_ Hv]. apply app_eq_nil in Hv as [Hv _].
    destruct (pv_Inputs spec); [done|]. discriminate Hv.
Qed.

(** The samples are read with platform scope, whoever asks for the preview. *)
Lemma auto_fetch_platform_scope validated fetched now spec af :
  pv_AutoFetch spec = Some af -> validatePolicyPreview validated spec = Ok [] ->
  fst (preview_Create QA QE validated fetched now (Some spec))
  = fst (autoFetchInputs QA QE fetched (pv_Policy spec) af {| sc_Type := "platform"; sc_Name := "" |}).
Proof using Type.
  intros Ea Hv. unfold preview_Create. rewrite Hv, Ea. by destruct (autoFetchInputs _ _ _ _ _ _).
Qed.

Lemma validated_limit validated spec af :
  pv_AutoFetch spec = Some af -> validatePolicyPreview validated spec = Ok [] -> (0 <= af_Limit af <= 50)%Z.
Proof using Type.
  intros E Hv. unfold validatePolicyPreview in Hv. rewrite E in Hv.
  apply res_bind_ok in Hv as (e1 & _ & (e5 & He & [= Hv])%res_bind_ok).
  do 4 apply app_eq_nil in Hv as [_ Hv]. subst e5. unfold validateAutoFetch in He.
  apply res_bind_ok in He as (e3 & _ & [= He]). apply app_eq_nil in He as [He1 He].
  apply app_eq_nil in He as [He2 _].
  destruct (Z.ltb_spec (af_Limit af) 0); [done|]. destruct (Z.ltb_spec 50 (af_Limit af)); [done|]. lia.
Qed.

Definition bounded_call (fetched : time) (c : fetch_call) : Prop :=
  (1 <= call_limit c <= 50)%Z
  /\ exists start, (start <= fetched)%Z /\ call_window c = (Format_RFC3339 start, Format_RFC3339 fetched).

Lemma auto_fetch_calls fetched policy af scope :
  (0 <= af_Limit af <= 50)%Z ->
  let calls := fst (autoFetchInputs QA QE fetched policy af scope) in
  Forall (bounded_call fetched) calls /\ NoDup (map is_audit_call calls).
Proof using Type.
  intros Hl. unfold autoFetchInputs.
  destruct (ParseFlexibleTime _ _) as [start|e|w] eqn:Es; [|cbn; split_and!; (done || constructor)..].
  apply ParseFlexibleTime_le in Es.
  set (limit := if (af_Limit af =? 0)%Z then 10%Z else af_Limit af).
  assert (1 <= limit <= 50)%Z as Hlim by (unfold limit; destruct (Z.eqb_spec (af_Limit af) 0); lia).
  destruct (_ && _)%bool, (_ && _)%bool; cbn;
    try (destruct (wrap_err _ _)); cbn; split_and!; try done;
    repeat constructor; cbn; try lia; try (by exists start); set_solver.
Qed.

(** Whatever the request and whatever the queries answer, a preview makes
    at most one query of each kind, only when its validation found nothing and
    it asked for auto-fetch, for at most fifty rows and at least one, over a
    window that ends at the time of the request and starts no later. *)
Theorem preview_fetch_bounded validated fetched now preview :
  let calls := fst (preview_Create QA QE validated fetched now preview) in
  Forall (bounded_call fetched) calls /\ NoDup (map is_audit_call calls) /\ (length calls <= 2)%nat
  /\ (calls <> [] -> exists spec af, preview = Some spec /\ pv_AutoFetch spec = Some af
                     /\ validatePolicyPreview validated spec = Ok []).
Proof using Type.
  intros calls. assert (forall l, NoDup (map is_audit_call l) -> (length l <= 2)%nat) as Hlen.
  { intros l Hl. rewrite <- (length_map is_audit_call l). apply (submseteq_length _ [true; false]).
    apply NoDup_submseteq; [done|]. intros [|] _; set_solver. }
  assert (calls = [] \/ exists spec af, preview = Some spec /\ pv_AutoFetch spec = Some af
            /\ validatePolicyPreview validated spec = Ok []
            /\ calls = fst (autoFetchInputs QA QE fetched (pv_Policy spec) af {| sc_Type := "platform"; sc_Name := "" |}))
    as [->|(spec & af & -> & Ea & Hv & ->)].
  { destruct preview as [spec|]; [|by left].
    destruct (validatePolicyPreview validated spec) as [[|]| |] eqn:Hv;
      [|left; unfold calls, preview_Create; by rewrite Hv..].
    destruct (pv_AutoFetch spec) as [af|] eqn:Ea; [|left; unfold calls, preview_Create; by rewrite Hv, Ea].
    right. exists spec, af. split_and!; [done..|]. by apply auto_fetch_platform_scope. }
  - split_and!; [constructor|constructor|simpl; lia|done].
  - destruct (auto_fetch_calls fetched (pv_Policy spec) af {| sc_Type := "platform"; sc_Name := "" |}
      (validated_limit _ _ _ Ea Hv)) as [Hb Hn].
    split_and!; [done|done|by apply Hlen|]. intros _. by exists spec, af.
Qed.
End PreviewTheorems.

(* ------------------------------------------------------------------ *)
(** ** Concrete previews *)

(** A rule whose match is [true] matches every audit event, but is left out of
    the disjunction: the samples fetched are those of the other rules. *)
Example true_rule_dropped :
  buildRuleFilter [ {| rule_Name := "a"; rule_Match := "true"; rule_Summary := "" |};
                    {| rule_Name := "b"; rule_Match := "audit.verb == 'create'"; rule_Summary := "" |} ]
  = "(verb == 'create')".
Proof. reflexivity. Qed.

(** A prefix that is only the end of an identifier goes too. *)
Example strip_inside_identifier : stripAuditPrefix "preaudit.verb == 'audit.x'" = "preverb == 'audit.x'".
Proof. reflexivity. Qed.

Module ToyPreview.
Definition rule (match_ : string) : PolicyRule := {| rule_Name := "r"; rule_Match := match_; rule_Summary := "" |}.
Definition policy (group kind : string) (matches : list string) : PolicySpec :=
  {| ps_APIGroup := group; ps_Kind := kind; AuditRules := []; EventRules := map rule matches |}.
Definition reason (r : string) : string := "event.reason == " +:+ quoted r.
Definition spec : PolicyPreviewSpec :=
  {| pv_Policy := pol_Spec (po_Policy (pr_Object (ToyStrategy.policy ["create"])));
     pv_Inputs := [ {| in_Type := "audit"; in_Audit := Some ToyAudit.audit1; in_Event := None |};
                    {| in_Type := "event"; in_Audit := None; in_Event := Some "" |} ];
     pv_AutoFetch := None |}.
Definition json : EvalJson := {|
  json_unmarshal_map := @json_unmarshal_map ToyServices.json; audit_json := fun _ => inr "event0";
  activity_json := fun a => inr (Name a) |}.
Definition view : AuditView := {| audit_of_stored _ := ToyAudit.audit1 |}.
Definition fields : FieldLib :=
  {| fe_Type _ := ""; fe_Detail _ := ""; fe_Field _ := ""; upper_first_rune s := s |}.
Definition run (spec : PolicyPreviewSpec) : list fetch_call * resp (PolicyPreviewSpec * PolicyPreviewStatus) :=
  @preview_Create ToyCel.toy ToyStrategy.names ToyLib.toy json ToyEvents.lib view
    (fun _ _ => Err (Ext "down")) (fun _ _ => Err (Ext "down")) fields
    ToyStore.clock ToyStore.clock (fun _ => 7%Z) (Some spec).
End ToyPreview.

(** The selector is a conjunction: two event rules with different reasons give
    one no event satisfies, and a policy of a named group asks for events
    whose [regarding.apiVersion], a group and a version, is the bare group. *)
Example contradictory_sample_selector :
  event_sample_selector (ToyPreview.policy "apps" "Deployment" [ToyPreview.reason "Scaled"; ToyPreview.reason "Failed"])
  = "regarding.apiVersion=apps,regarding.kind=Deployment,reason=Scaled,reason=Failed".
Proof. vm_compute. reflexivity. Qed.

(** The plural of a kind that ends in y does not contain the kind. *)
Example plural_not_contained :
  Contains "networkpolicies" (ToLower "NetworkPolicy") = false /\ Contains "deployments" (ToLower "Deployment") = true.
Proof. vm_compute. by split. Qed.

Example toy_preview :
  match ToyPreview.run ToyPreview.spec with
  | ([], Answer (_, st)) =>
      (map (fun a => Summary (Spec a)) (pv_Activities st), map (fun r => (ir_Matched r, ir_MatchedRuleName r, ir_Error r)) (pv_Results st))
  | _ => ([], [])
  end = ([" created it"], [(true, "create", ""); (false, "", "event input is nil or empty")]).
Proof. vm_compute. reflexivity. Qed.

Lemma strip_tokens_witness :
  stripAuditPrefix "audit.verb == 'audit.x' && audit.y"
  = String.concat "" (map token_text (map strip_token
      [Text "audit.verb == "; Literal "'" "audit.x"; Text " && audit.y"])).
Proof.
  change "audit.verb == 'audit.x' && audit.y"
    with (String.concat "" (map token_text [Text "audit.verb == "; Literal "'" "audit.x"; Text " && audit.y"])).
  apply strip_tokens; [|reflexivity]. repeat constructor.
Defined.

Lemma preview_evaluates_witness :
  exists spec' st, ToyPreview.run ToyPreview.spec = ([], Answer (spec', st))
  /\ length (pv_Results st) = 2%nat /\ length (pv_Activities st) = 1%nat.
Proof.
  destruct (ToyPreview.run ToyPreview.spec) as [calls r] eqn:E. pose proof E as E'. vm_compute in E'.
  injection E' as <- <-. eexists _, _. split; [reflexivity|].
  destruct (preview_evaluates _ _ _ _ _ _ _ _ _ E) as (_ & Hl & _ & Ha & _). rewrite Ha, Hl. by split.
Defined.
