(* ===== verification/ApiObjects.v ===== *)
(** * The two versions of the stored objects, and their tables

    pkg/apis/activity/types.go (internal), pkg/apis/activity/v1alpha1
    (types_activitypolicy.go, types_reindexjob.go, conversion.go): policies and
    re-index jobs as clients and etcd have them and as the handlers have them,
    and the conversions between the two.  The tables clients are shown:
    registry/activity/policy, reindexjob and record, storage.go.

    Slices, maps and pointers that may be nil are [option]s.  The conversions
    share the slices of names, the maps of labels and the pointers they copy;
    no handler writes through them. *)

From Stdlib Require Import Ascii String.
From stdpp Require Import base numbers list strings gmap pretty.
From Stdlib Require Import ZArith Lia.
From S2P Require Import Prelude GoLib GoFmt TimeUtil Types CelPolicy Activity Query EventStore Watch Rest ActivityRest.

(** apimachinery: what the metadata of objects is, how it is written, and the
    helpers the tables use. *)
Class MetaTypes := {
  TypeMeta : Type; no_TypeMeta : TypeMeta;
  ObjectMeta : Type; meta_Name : ObjectMeta -> string; meta_CreationTimestamp : ObjectMeta -> time; json_meta : ObjectMeta -> any;
  ListMeta : Type;
  MetaCondition : Type; json_condition : MetaCondition -> any;
  FindStatusCondition : list MetaCondition -> string -> option string;   (* its status *)
  HumanDuration : Z -> string }.

Section Objects.
Context `{MetaTypes}.

(* ------------------------------------------------------------------ *)
(** ** Policies *)

Record VRule := { vr_Name : string; vr_Description : string; vr_Match : string; vr_Summary : string }.
Record VPolicy := {
  vp_TypeMeta : TypeMeta; vp_ObjectMeta : ObjectMeta; vp_APIGroup : string; vp_Kind : string;
  vp_AuditRules : option (list VRule); vp_EventRules : option (list VRule);
  vp_Conditions : option (list MetaCondition); vp_ObservedGeneration : Z }.
Record IRule := { ir_Name : string; ir_Description : string; ir_Match : string; ir_Summary : string }.
Record IPolicy := {
  ip_TypeMeta : TypeMeta; ip_ObjectMeta : ObjectMeta; ip_APIGroup : string; ip_Kind : string;
  ip_AuditRules : option (list IRule); ip_EventRules : option (list IRule);
  ip_Conditions : option (list MetaCondition); ip_ObservedGeneration : Z }.

Definition internal_rule (r : VRule) : IRule :=
  {| ir_Name := vr_Name r; ir_Description := vr_Description r; ir_Match := vr_Match r; ir_Summary := vr_Summary r |}.
Definition external_rule (r : IRule) : VRule :=
  {| vr_Name := ir_Name r; vr_Description := ir_Description r; vr_Match := ir_Match r; vr_Summary := ir_Summary r |}.
(** [make], as long as the other, then the loop over its items. *)
Definition made {A B} (f : A -> B) (l : option (list A)) : option (list B) := Some (map f (default [] l)).
(** What is written only when the other is not nil. *)
Definition if_set {A B} (f : A -> B) (from : option A) (out : option B) : option B := match from with Some x => Some (f x) | None => out end.

(** Each conversion writes into an object [out]. *)
Definition Convert_v1alpha1_ActivityPolicy_To_activity_ActivityPolicy (p : VPolicy) (out : IPolicy) : IPolicy := {|
  ip_TypeMeta := ip_TypeMeta out; ip_ObjectMeta := vp_ObjectMeta p; ip_APIGroup := vp_APIGroup p; ip_Kind := vp_Kind p;
  ip_AuditRules := made internal_rule (vp_AuditRules p); ip_EventRules := made internal_rule (vp_EventRules p);
  ip_Conditions := if_set id (vp_Conditions p) (ip_Conditions out); ip_ObservedGeneration := vp_ObservedGeneration p |}.
Definition Convert_activity_ActivityPolicy_To_v1alpha1_ActivityPolicy (p : IPolicy) (out : VPolicy) : VPolicy := {|
  vp_TypeMeta := vp_TypeMeta out; vp_ObjectMeta := ip_ObjectMeta p; vp_APIGroup := ip_APIGroup p; vp_Kind := ip_Kind p;
  vp_AuditRules := made external_rule (ip_AuditRules p); vp_EventRules := made external_rule (ip_EventRules p);
  vp_Conditions := if_set id (ip_Conditions p) (vp_Conditions out); vp_ObservedGeneration := ip_ObservedGeneration p |}.

(** preview/storage.go: the specification a preview evaluates. *)
Definition convertPolicySpecToInternal (apiGroup kind : string) (audit events : option (list VRule))
  : string * string * option (list IRule) * option (list IRule) :=
  (apiGroup, kind, made internal_rule audit, made internal_rule events).

(* ------------------------------------------------------------------ *)
(** ** Jobs *)

Record VSelector := { vs_Names : option (list string); vs_MatchLabels : option (gmap string string) }.
Record VConfig := { vc_BatchSize : Z; vc_RateLimit : Z; vc_DryRun : bool }.
Record VProgress := {
  vg_TotalEvents : Z; vg_ProcessedEvents : Z; vg_ActivitiesGenerated : Z; vg_Errors : Z; vg_CurrentBatch : Z; vg_TotalBatches : Z }.
Record VJob := {
  vj_TypeMeta : TypeMeta; vj_ObjectMeta : ObjectMeta; vj_StartTime : string; vj_EndTime : string;
  vj_PolicySelector : option VSelector; vj_Config : option VConfig; vj_TTL : option Z;
  vj_Phase : string; vj_Message : string; vj_Progress : option VProgress; vj_StartedAt : option time; vj_CompletedAt : option time;
  vj_Conditions : option (list MetaCondition) }.
Record ISelector := { is_Names : option (list string); is_MatchLabels : option (gmap string string) }.
Record IConfig := { ic_BatchSize : Z; ic_RateLimit : Z; ic_DryRun : bool }.
Record IProgress := {
  ig_TotalEvents : Z; ig_ProcessedEvents : Z; ig_ActivitiesGenerated : Z; ig_Errors : Z; ig_CurrentBatch : Z; ig_TotalBatches : Z }.
Record IJob := {
  ij_TypeMeta : TypeMeta; ij_ObjectMeta : ObjectMeta; ij_StartTime : string; ij_EndTime : string;
  ij_PolicySelector : option ISelector; ij_Config : option IConfig; ij_TTL : option Z;
  ij_Phase : string; ij_Message : string; ij_Progress : option IProgress; ij_StartedAt : option time; ij_CompletedAt : option time;
  ij_Conditions : option (list MetaCondition) }.

Definition internal_progress (g : VProgress) : IProgress := {|
  ig_TotalEvents := vg_TotalEvents g; ig_ProcessedEvents := vg_ProcessedEvents g; ig_ActivitiesGenerated := vg_ActivitiesGenerated g;
  ig_Errors := vg_Errors g; ig_CurrentBatch := vg_CurrentBatch g; ig_TotalBatches := vg_TotalBatches g |}.
Definition external_progress (g : IProgress) : VProgress := {|
  vg_TotalEvents := ig_TotalEvents g; vg_ProcessedEvents := ig_ProcessedEvents g; vg_ActivitiesGenerated := ig_ActivitiesGenerated g;
  vg_Errors := ig_Errors g; vg_CurrentBatch := ig_CurrentBatch g; vg_TotalBatches := ig_TotalBatches g |}.

Definition Convert_v1alpha1_ReindexJob_To_activity_ReindexJob (j : VJob) (out : IJob) : IJob := {|
  ij_TypeMeta := ij_TypeMeta out; ij_ObjectMeta := vj_ObjectMeta j; ij_StartTime := vj_StartTime j; ij_EndTime := vj_EndTime j;
  ij_PolicySelector := if_set (fun s => {| is_Names := vs_Names s; is_MatchLabels := vs_MatchLabels s |}) (vj_PolicySelector j) (ij_PolicySelector out);
  ij_Config := if_set (fun c => {| ic_BatchSize := vc_BatchSize c; ic_RateLimit := vc_RateLimit c; ic_DryRun := vc_DryRun c |}) (vj_Config j) (ij_Config out);
  ij_TTL := vj_TTL j; ij_Phase := vj_Phase j; ij_Message := vj_Message j;
  ij_Progress := if_set internal_progress (vj_Progress j) (ij_Progress out);
  ij_StartedAt := vj_StartedAt j; ij_CompletedAt := vj_CompletedAt j; ij_Conditions := if_set id (vj_Conditions j) (ij_Conditions out) |}.
Definition Convert_activity_ReindexJob_To_v1alpha1_ReindexJob (j : IJob) (out : VJob) : VJob := {|
  vj_TypeMeta := vj_TypeMeta out; vj_ObjectMeta := ij_ObjectMeta j; vj_StartTime := ij_StartTime j; vj_EndTime := ij_EndTime j;
  vj_PolicySelector := if_set (fun s => {| vs_Names := is_Names s; vs_MatchLabels := is_MatchLabels s |}) (ij_PolicySelector j) (vj_PolicySelector out);
  vj_Config := if_set (fun c => {| vc_BatchSize := ic_BatchSize c; vc_RateLimit := ic_RateLimit c; vc_DryRun := ic_DryRun c |}) (ij_Config j) (vj_Config out);
  vj_TTL := ij_TTL j; vj_Phase := ij_Phase j; vj_Message := ij_Message j;
  vj_Progress := if_set external_progress (ij_Progress j) (vj_Progress out);
  vj_StartedAt := ij_StartedAt j; vj_CompletedAt := ij_CompletedAt j; vj_Conditions := if_set id (ij_Conditions j) (vj_Conditions out) |}.

(* ------------------------------------------------------------------ *)
(** ** Lists *)

(** Each item is converted into a zero object of the new slice. *)
Record VList (A : Type) := { vl_ListMeta : ListMeta; vl_Items : option (list A) }.
Record IList (A : Type) := { il_ListMeta : ListMeta; il_Items : option (list A) }.
Arguments vl_ListMeta {A}. Arguments vl_Items {A}. Arguments il_ListMeta {A}. Arguments il_Items {A}.
Definition zero_IPolicy (m : ObjectMeta) : IPolicy :=
  {| ip_TypeMeta := no_TypeMeta; ip_ObjectMeta := m; ip_APIGroup := ""; ip_Kind := ""; ip_AuditRules := None; ip_EventRules := None;
     ip_Conditions := None; ip_ObservedGeneration := 0 |}.
Definition zero_VPolicy (m : ObjectMeta) : VPolicy :=
  {| vp_TypeMeta := no_TypeMeta; vp_ObjectMeta := m; vp_APIGroup := ""; vp_Kind := ""; vp_AuditRules := None; vp_EventRules := None;
     vp_Conditions := None; vp_ObservedGeneration := 0 |}.
Definition zero_IJob (m : ObjectMeta) : IJob :=
  {| ij_TypeMeta := no_TypeMeta; ij_ObjectMeta := m; ij_StartTime := ""; ij_EndTime := ""; ij_PolicySelector := None; ij_Config := None;
     ij_TTL := None; ij_Phase := ""; ij_Message := ""; ij_Progress := None; ij_StartedAt := None; ij_CompletedAt := None; ij_Conditions := None |}.
Definition zero_VJob (m : ObjectMeta) : VJob :=
  {| vj_TypeMeta := no_TypeMeta; vj_ObjectMeta := m; vj_StartTime := ""; vj_EndTime := ""; vj_PolicySelector := None; vj_Config := None;
     vj_TTL := None; vj_Phase := ""; vj_Message := ""; vj_Progress := None; vj_StartedAt := None; vj_CompletedAt := None; vj_Conditions := None |}.
Context (zero_meta : ObjectMeta).
Definition Convert_v1alpha1_ActivityPolicyList_To_activity_ActivityPolicyList (l : VList VPolicy) : IList IPolicy :=
  {| il_ListMeta := vl_ListMeta l;
     il_Items := made (fun p => Convert_v1alpha1_ActivityPolicy_To_activity_ActivityPolicy p (zero_IPolicy zero_meta)) (vl_Items l) |}.
Definition Convert_activity_ActivityPolicyList_To_v1alpha1_ActivityPolicyList (l : IList IPolicy) : VList VPolicy :=
  {| vl_ListMeta := il_ListMeta l;
     vl_Items := made (fun p => Convert_activity_ActivityPolicy_To_v1alpha1_ActivityPolicy p (zero_VPolicy zero_meta)) (il_Items l) |}.
Definition Convert_v1alpha1_ReindexJobList_To_activity_ReindexJobList (l : VList VJob) : IList IJob :=
  {| il_ListMeta := vl_ListMeta l; il_Items := made (fun j => Convert_v1alpha1_ReindexJob_To_activity_ReindexJob j (zero_IJob zero_meta)) (vl_Items l) |}.
Definition Convert_activity_ReindexJobList_To_v1alpha1_ReindexJobList (l : IList IJob) : VList VJob :=
  {| vl_ListMeta := il_ListMeta l; vl_Items := made (fun j => Convert_activity_ReindexJob_To_v1alpha1_ReindexJob j (zero_VJob zero_meta)) (il_Items l) |}.

(* ------------------------------------------------------------------ *)
(** ** Documents *)

(** A JSON object of the fields that are there; the tags of the structs. *)
Definition obj (fields : list (option (string * any))) : any := AMap (list_to_map (omap id fields)).
Definition field (k : string) (v : any) : option (string * any) := Some (k, v).
Definition num (z : Z) : any := ANum (pretty z).
(** [omitempty] *)
Definition str_field (k s : string) : option (string * any) := if (s =? "")%string then None else field k (AStr s).
Definition num_field (k : string) (z : Z) : option (string * any) := if (z =? 0)%Z then None else field k (num z).
Definition list_field {A} (k : string) (f : A -> any) (l : option (list A)) : option (string * any) :=
  match default [] l with [] => None | l => field k (AList (map f l)) end.
Definition ptr_field {A} (k : string) (f : A -> any) (x : option A) : option (string * any) := (fun x => (k, f x)) <$> x.

Definition json_rule (r : VRule) : any :=
  obj [field "name" (AStr (vr_Name r)); str_field "description" (vr_Description r); field "match" (AStr (vr_Match r));
       field "summary" (AStr (vr_Summary r))].
(** Without the kind and the API version, which the codec writes. *)
Definition json_policy (p : VPolicy) : any :=
  obj [field "metadata" (json_meta (vp_ObjectMeta p));
       field "spec" (obj [field "resource" (obj [field "apiGroup" (AStr (vp_APIGroup p)); field "kind" (AStr (vp_Kind p))]);
                          list_field "auditRules" json_rule (vp_AuditRules p); list_field "eventRules" json_rule (vp_EventRules p)]);
       field "status" (obj [list_field "conditions" json_condition (vp_Conditions p); num_field "observedGeneration" (vp_ObservedGeneration p)])].
Definition json_job (j : VJob) : any :=
  obj [field "metadata" (json_meta (vj_ObjectMeta j));
       field "spec" (obj [
         field "timeRange" (obj [field "startTime" (AStr (vj_StartTime j)); str_field "endTime" (vj_EndTime j)]);
         ptr_field "policySelector" (fun s => obj [list_field "names" AStr (vs_Names s);
           match default ∅ (vs_MatchLabels s) with m => if bool_decide (m = ∅) then None else field "matchLabels" (AMap (AStr <$> m)) end])
           (vj_PolicySelector j);
         ptr_field "config" (fun c => obj [num_field "batchSize" (vc_BatchSize c); num_field "rateLimit" (vc_RateLimit c);
           if vc_DryRun c then field "dryRun" (ABool true) else None]) (vj_Config j);
         ptr_field "ttlSecondsAfterFinished" num (vj_TTL j)]);
       field "status" (obj [
         str_field "phase" (vj_Phase j); str_field "message" (vj_Message j);
         ptr_field "progress" (fun g => obj [num_field "totalEvents" (vg_TotalEvents g); num_field "processedEvents" (vg_ProcessedEvents g);
           num_field "activitiesGenerated" (vg_ActivitiesGenerated g); num_field "errors" (vg_Errors g);
           num_field "currentBatch" (vg_CurrentBatch g); num_field "totalBatches" (vg_TotalBatches g)]) (vj_Progress j);
         ptr_field "startedAt" ATime (vj_StartedAt j); ptr_field "completedAt" ATime (vj_CompletedAt j);
         list_field "conditions" json_condition (vj_Conditions j)])].

(* ------------------------------------------------------------------ *)
(** ** Tables *)

Definition age (now : time) (m : ObjectMeta) : string :=
  if IsZero (meta_CreationTimestamp m) then "<unknown>" else HumanDuration (Sub now (meta_CreationTimestamp m)).
Definition policyToTableRow (now : time) (p : IPolicy) : list string :=
  [meta_Name (ip_ObjectMeta p); if (ip_APIGroup p =? "")%string then "(core)" else ip_APIGroup p; ip_Kind p;
   pretty (length (default [] (ip_AuditRules p))); pretty (length (default [] (ip_EventRules p)));
   default "Unknown" (FindStatusCondition (default [] (ip_Conditions p)) "Ready"); age now (ip_ObjectMeta p)].
Definition job_progress (g : option IProgress) : string :=
  match g with
  | None => "-"
  | Some g => if (0 <? ig_TotalEvents g)%Z then Format_f 0 (percent (ig_ProcessedEvents g) (ig_TotalEvents g)) +:+ "%"
              else if (0 <? ig_ProcessedEvents g)%Z then pretty (ig_ProcessedEvents g) +:+ " events" else "-"
  end.
Definition reindexJobToTableRow (now : time) (j : IJob) : list string :=
  [meta_Name (ij_ObjectMeta j); if (ij_Phase j =? "")%string then "Pending" else ij_Phase j;
   ij_StartTime j +:+ " to " +:+ (if (ij_EndTime j =? "")%string then "now" else ij_EndTime j);
   job_progress (ij_Progress j); age now (ij_ObjectMeta j)].

(** What a table is made of: an object, a list, or anything else.  A row is
    made at a time of its own. *)
Inductive tabled (A : Type) := One (x : A) | Many (l : list A) | Other.
Arguments One {A}. Arguments Many {A}. Arguments Other {A}.
Definition ConvertToTable {A} (row : time -> A -> list string) (clock : nat -> time) (o : tabled A) : list (list string) :=
  match o with One x => [row (clock 0%nat) x] | Many l => imap (fun i => row (clock i)) l | Other => [] end.
Definition policy_columns : list string := ["Name"; "API Group"; "Kind"; "Audit Rules"; "Event Rules"; "Ready"; "Age"].
Definition job_columns : list string := ["Name"; "Phase"; "Time Range"; "Progress"; "Age"].
Definition activity_columns : list string := ["Name"; "Summary"; "Actor"; "Resource"; "Source"; "Age"].
Definition policy_ConvertToTable := ConvertToTable policyToTableRow.
Definition job_ConvertToTable := ConvertToTable reindexJobToTableRow.
Definition activity_ConvertToTable := ConvertToTable (activityToTableRow HumanDuration).
End Objects.
Arguments One {A}. Arguments Many {A}. Arguments Other {A}.
Arguments vl_Items {_ A}. Arguments il_Items {_ A}. Arguments vl_ListMeta {_ A}. Arguments il_ListMeta {_ A}.

(* ------------------------------------------------------------------ *)
(** ** Lemmas *)

Section ObjectLemmas.
Context `{MetaTypes}.

Lemma rule_back r : external_rule (internal_rule r) = r.
Proof. by destruct r. Qed.
Lemma rule_forth r : internal_rule (external_rule r) = r.
Proof. by destruct r. Qed.
Lemma made_back {A B} (f : A -> B) (g : B -> A) l : (forall x, g (f x) = x) -> default [] (made g (made f l)) = default [] l.
Proof. intros Hg. unfold made. cbn. rewrite map_map. etransitivity; [by apply map_ext, Hg|apply map_id]. Qed.
Lemma list_field_eq {A} k (f : A -> any) l l' : default [] l = default [] l' -> list_field k f l = list_field k f l'.
Proof. unfold list_field. by intros ->. Qed.
Lemma if_set_back {A B} (f : A -> B) (g : B -> A) (x : option A) : (forall y, g (f y) = y) -> if_set g (if_set f x None) None = x.
Proof. intros Hg. destruct x; cbn; [by rewrite Hg|done]. Qed.

Lemma policy_document p m m' :
  json_policy (Convert_activity_ActivityPolicy_To_v1alpha1_ActivityPolicy
    (Convert_v1alpha1_ActivityPolicy_To_activity_ActivityPolicy p (zero_IPolicy m)) (zero_VPolicy m')) = json_policy p.
Proof.
  unfold json_policy. cbn. rewrite !(list_field_eq _ _ _ _ (made_back internal_rule external_rule _ rule_back)).
  by rewrite (if_set_back id id).
Qed.
Definition without_type (j : VJob) : VJob := {|
  vj_TypeMeta := no_TypeMeta; vj_ObjectMeta := vj_ObjectMeta j; vj_StartTime := vj_StartTime j; vj_EndTime := vj_EndTime j;
  vj_PolicySelector := vj_PolicySelector j; vj_Config := vj_Config j; vj_TTL := vj_TTL j; vj_Phase := vj_Phase j; vj_Message := vj_Message j;
  vj_Progress := vj_Progress j; vj_StartedAt := vj_StartedAt j; vj_CompletedAt := vj_CompletedAt j; vj_Conditions := vj_Conditions j |}.
Lemma job_back j m m' :
  Convert_activity_ReindexJob_To_v1alpha1_ReindexJob (Convert_v1alpha1_ReindexJob_To_activity_ReindexJob j (zero_IJob m)) (zero_VJob m') = without_type j.
Proof.
  unfold Convert_activity_ReindexJob_To_v1alpha1_ReindexJob, Convert_v1alpha1_ReindexJob_To_activity_ReindexJob, without_type. cbn.
  f_equal; apply if_set_back; by intros [].
Qed.
End ObjectLemmas.

(* ------------------------------------------------------------------ *)
(** ** Theorems *)

(** C34: The two versions of a stored object say the same.  A list of policies
    or of jobs, converted to the internal version and back, has the same
    metadata, as many items, in the same order, and each item the same
    document: nothing of a specification or of a status is lost or mixed up on
    the way from a client to the store and back, and a job comes back as it
    was.  From the internal side the conversions are inverse too, but that a
    nil slice of rules comes back as an empty one. *)
Theorem conversion_roundtrip `{MetaTypes} (m : ObjectMeta) (policies : VList VPolicy) (jobs : VList VJob) :
  let policies' := Convert_activity_ActivityPolicyList_To_v1alpha1_ActivityPolicyList m
                     (Convert_v1alpha1_ActivityPolicyList_To_activity_ActivityPolicyList m policies) in
  let jobs' := Convert_activity_ReindexJobList_To_v1alpha1_ReindexJobList m (Convert_v1alpha1_ReindexJobList_To_activity_ReindexJobList m jobs) in
  vl_ListMeta policies' = vl_ListMeta policies /\ vl_ListMeta jobs' = vl_ListMeta jobs
  /\ map json_policy (default [] (vl_Items policies')) = map json_policy (default [] (vl_Items policies))
  /\ default [] (vl_Items jobs') = map without_type (default [] (vl_Items jobs))
  /\ (forall p, ip_AuditRules p <> None -> ip_EventRules p <> None -> ip_TypeMeta p = no_TypeMeta ->
        Convert_v1alpha1_ActivityPolicy_To_activity_ActivityPolicy
          (Convert_activity_ActivityPolicy_To_v1alpha1_ActivityPolicy p (zero_VPolicy m)) (zero_IPolicy m) = p).
Proof.
  cbn. split; [done|]. split; [done|]. split; [|split].
  - rewrite !map_map. apply map_ext. intros p. apply policy_document.
  - rewrite map_map. apply map_ext. intros j. apply job_back.
  - intros p Ha He Ht. destruct p as [t om g k ar er cs og]. cbn in *. subst t.
    unfold Convert_v1alpha1_ActivityPolicy_To_activity_ActivityPolicy. cbn. rewrite (if_set_back id id) by done. unfold made. cbn.
    destruct ar as [ar|], er as [er|]; try done. cbn. rewrite !map_map. by rewrite !(map_ext _ id rule_forth), !map_id.
Qed.

(** Converting onto an object that already has a selector keeps that selector
    when the other has none. *)
Lemma stale_selector_kept `{MetaTypes} j out s :
  vj_PolicySelector j = None -> ij_PolicySelector out = Some s ->
  ij_PolicySelector (Convert_v1alpha1_ReindexJob_To_activity_ReindexJob j out) = Some s.
Proof. intros Hj Ho. cbn. by rewrite Hj. Qed.

(** A preview evaluates a specification as the server has it once stored. *)
Lemma preview_spec_like_stored `{MetaTypes} p out :
  let stored := Convert_v1alpha1_ActivityPolicy_To_activity_ActivityPolicy p out in
  convertPolicySpecToInternal (vp_APIGroup p) (vp_Kind p) (vp_AuditRules p) (vp_EventRules p)
  = (ip_APIGroup stored, ip_Kind stored, ip_AuditRules stored, ip_EventRules stored).
Proof. reflexivity. Qed.

(** A table has one row per object, in order. *)
Lemma table_rows {A} (row : time -> A -> list string) clock l i x :
  l !! i = Some x -> ConvertToTable row clock (Many l) !! i = Some (row (clock i) x).
Proof. intros Hi. cbn. by rewrite list_lookup_imap, Hi. Qed.

Module ToyObjects.
#[export] Instance meta : MetaTypes := {|
  TypeMeta := string; no_TypeMeta := ""; ObjectMeta := string; meta_Name := id; meta_CreationTimestamp _ := 0%Z; json_meta := AStr;
  ListMeta := string; MetaCondition := string * string; json_condition c := AStr (snd c);
  FindStatusCondition cs ty := snd <$> List.find (fun c => (fst c =? ty)%string) cs; HumanDuration d := "1s" |}.
Definition job (processed total : Z) : IJob := {|
  ij_TypeMeta := ""; ij_ObjectMeta := "j"; ij_StartTime := "now-7d"; ij_EndTime := ""; ij_PolicySelector := None; ij_Config := None; ij_TTL := None;
  ij_Phase := ""; ij_Message := "";
  ij_Progress := Some {| ig_TotalEvents := total; ig_ProcessedEvents := processed; ig_ActivitiesGenerated := 0; ig_Errors := 0;
                         ig_CurrentBatch := 0; ig_TotalBatches := 0 |};
  ij_StartedAt := None; ij_CompletedAt := None; ij_Conditions := None |}.
End ToyObjects.
(** A running job may be shown at 100%. *)
Example toy_job_rows :
  job_ConvertToTable (H := ToyObjects.meta) (fun _ => 0%Z) (Many [ToyObjects.job 999 1000; ToyObjects.job 7 0])
  = [["j"; "Pending"; "now-7d to now"; "100%"; "<unknown>"]; ["j"; "Pending"; "now-7d to now"; "7 events"; "<unknown>"]].
Proof. vm_compute. reflexivity. Qed.

Lemma conversion_roundtrip_witness :
  exists p, Convert_v1alpha1_ActivityPolicy_To_activity_ActivityPolicy
              (Convert_activity_ActivityPolicy_To_v1alpha1_ActivityPolicy p (zero_VPolicy (H := ToyObjects.meta) "z")) (zero_IPolicy (H := ToyObjects.meta) "z") = p
    /\ default [] (ip_AuditRules p) <> [].
Proof.
  destruct (@conversion_roundtrip ToyObjects.meta "z" (@Build_VList ToyObjects.meta _ "1" None) (@Build_VList ToyObjects.meta _ "1" None))
    as (_ & _ & _ & _ & Hp).
  exists (@Build_IPolicy ToyObjects.meta "" "p" "apps" "Deployment" (Some [Build_IRule "r" "" "true" "done"]) (Some []) None 3).
  split; [by apply Hp|done].
Defined.
