(* ===== verification/Exporter.v ===== *)
(** * internal/eventexporter: events on their way to JetStream

    The exporter of a cluster watches its events, stamps each with its tenant
    and its source, and publishes it ([exporter.go], [scope.go],
    [identity.go]).  Four goroutines meet: the informer's callback, which
    queues and never blocks; [drainQueue], which publishes; one waiter per
    unacknowledged publish; and the resolver of the city.  They are one step
    function on an explicit state; a label says who moves and what the
    outside answers. *)

From Stdlib Require Import Ascii String.
From stdpp Require Import base numbers list strings gmap pretty sorting.
From Stdlib Require Import ZArith Lia.
From S2P Require Import Prelude GoLib Types TimeUtil CelPolicy Activity Dlq EventProc CelFilter Query EventStore.

(* ------------------------------------------------------------------ *)
(** ** scope.go: the tenant of a namespace *)

Definition upstreamClusterNameLabel : string := "meta.datumapis.com/upstream-cluster-name".
Definition upstreamNamespaceLabel : string := "meta.datumapis.com/upstream-namespace".

Record eventScope := { esc_Type : string; esc_Name : string; esc_Namespace : string }.
Definition no_scope : eventScope := {| esc_Type := ""; esc_Name := ""; esc_Namespace := "" |}.

Definition upstreamClusterNameFromLabel (value : string) : string :=
  let name := TrimPrefix (ReplaceAll value "_" "/") "cluster-" in
  TrimPrefix name "/".

(** The lister of namespaces: the labels of those it can read. *)
Definition NamespaceLister := string -> option (gmap string string).

Definition Resolve (namespaces : NamespaceLister) (namespace : string) : option eventScope :=
  match namespaces namespace with
  | None => None
  | Some labels =>
      let project := upstreamClusterNameFromLabel (default "" (labels !! upstreamClusterNameLabel)) in
      if (project =? "")%string then None
      else
        let upstreamNamespace := default "" (labels !! upstreamNamespaceLabel) in
        if (upstreamNamespace =? "")%string then None
        else Some {| esc_Type := TenantTypeProject; esc_Name := project; esc_Namespace := upstreamNamespace |}
  end.

(* ------------------------------------------------------------------ *)
(** ** identity.go: the city of a cell *)

(** One attempt: [locationidentity.Resolve], then the [ServingLocation] it
    names when that was delivered. *)
Inductive resolution :=
| ResolveFailed (e : error)
| Configured (name : string)
| Delivered (name : string) (location : error + string).

Definition resolveOnce (city : string) (r : resolution) : string * bool :=
  match r with
  | Delivered _ (inr cityCode) => (cityCode, true)
  | _ => (city, false)
  end.

Definition locationResolveRetryInterval : Z := (30 * Second)%Z.
Definition locationResolveInterval : Z := (5 * Minute)%Z.

(** [Run]: the ticks, each with the interval that preceded it. *)
Fixpoint city_ticks (city : string) (interval : Z) (rs : list resolution) : string * list Z :=
  match rs with
  | [] => (city, [])
  | r :: rs' =>
      let '(city', ok) := resolveOnce city r in
      let interval' := if (ok && negb (interval =? locationResolveInterval)%Z)%bool
                       then locationResolveInterval else interval in
      let '(last, waits) := city_ticks city' interval' rs' in (last, interval :: waits)
  end.
Definition city_Run (city : string) (first : resolution) (rs : list resolution) : string * list Z :=
  let '(city', ok) := resolveOnce city first in
  city_ticks city' (if ok then locationResolveInterval else locationResolveRetryInterval) rs.

(* ------------------------------------------------------------------ *)
(** ** exporter.go: what is published *)

Definition planeTypeEdge : string := "edge".
Definition publishQueueSize : nat := 1000.

Record ExporterConfig := {
  cf_SubjectPrefix : string; cf_ScopeType : string; cf_ScopeName : string;
  cf_PlaneType : string; cf_ClusterName : string; cf_ClusterRegion : string }.

(** The fields of an [Exporter] a publish reads: the namespace lister and the
    cached city are there on the edge only. *)
Record Exporter := {
  ex_config : ExporterConfig; ex_scope : option NamespaceLister; ex_city : option string }.
Definition new_exporter (cfg : ExporterConfig) (namespaces : NamespaceLister) (city : string) : Exporter :=
  let edge := (cf_PlaneType cfg =? planeTypeEdge)%string in
  {| ex_config := cfg; ex_scope := if edge then Some namespaces else None;
     ex_city := if edge then Some city else None |}.

Record eventJob := { job_event : Event; job_eventType : string }.

Definition FederatedCluster (planeType clusterName : string) : string :=
  if ((planeType =? "") || (clusterName =? ""))%string%bool then "" else clusterName.

(** [EventExporterOptions.Validate]: [true] when the cluster name is usable. *)
Definition options_Validate (cfg : ExporterConfig) : bool :=
  let cluster := FederatedCluster (cf_PlaneType cfg) (cf_ClusterName cfg) in
  negb (negb (cluster =? "")%string && negb (ValidClusterName cluster)).

(** The inbox of [natsOptions]; [None]: the default one. *)
Definition custom_inbox (cfg : ExporterConfig) : option string :=
  let cluster := FederatedCluster (cf_PlaneType cfg) (cf_ClusterName cfg) in
  if (cluster =? "")%string then None else Some (EventInboxPrefix cluster).

(** The scope, and whether [unscopedEvents] is advanced. *)
Definition resolveScope (e : Exporter) (namespace : string) : eventScope * bool :=
  let static := {| esc_Type := cf_ScopeType (ex_config e); esc_Name := cf_ScopeName (ex_config e); esc_Namespace := "" |} in
  if negb (cf_PlaneType (ex_config e) =? planeTypeEdge)%string then (static, false)
  else match ex_scope e with
       | None => (static, false)
       | Some namespaces =>
           match Resolve namespaces namespace with
           | Some scope => (scope, false)
           | None => (no_scope, true)
           end
       end.

Definition stampScope (scope : eventScope) (annotations : gmap string string) : gmap string string :=
  let annotations := <[ScopeNameAnnotation := esc_Name scope]> (<[ScopeTypeAnnotation := esc_Type scope]> annotations) in
  if (esc_Namespace scope =? "")%string then annotations
  else <[ScopeNamespaceAnnotation := esc_Namespace scope]> annotations.

(** The city, and whether [noCityEvents] is advanced. *)
Definition source_city (e : Exporter) : string * bool :=
  match ex_city e with
  | Some city => (city, ((cf_PlaneType (ex_config e) =? planeTypeEdge) && (city =? ""))%string%bool)
  | None => ("", false)
  end.
Definition sourceAnnotations (e : Exporter) : ActivitySource :=
  {| PlaneType := cf_PlaneType (ex_config e); Cluster := cf_ClusterName (ex_config e);
     Region := cf_ClusterRegion (ex_config e); City := fst (source_city e) |}.

Definition stamped (e : Exporter) (event : Event) : gmap string string :=
  let source := sourceAnnotations e in
  <[SourceCityAnnotation := City source]>
  (<[SourceRegionAnnotation := Region source]>
  (<[SourceClusterAnnotation := Cluster source]>
  (<[SourcePlaneTypeAnnotation := PlaneType source]>
    (stampScope (fst (resolveScope e (ev_Namespace event))) (default ∅ (ev_Annotations event)))))).

Definition with_annotations (event : Event) (a : gmap string string) : Event :=
  {| ev_Namespace := ev_Namespace event; ev_Name := ev_Name event; ev_UID := ev_UID event;
     ev_ResourceVersion := ev_ResourceVersion event; ev_Annotations := Some a;
     ev_EventTime := ev_EventTime event; ev_FirstTimestamp := ev_FirstTimestamp event;
     ev_LastTimestamp := ev_LastTimestamp event; ev_Count := ev_Count event;
     ev_Series := ev_Series event; ev_rest := ev_rest event |}.

Definition qualifiedMsgID (e : Exporter) (event : Event) (eventType : string) : string :=
  let msgID := if (eventType =? "MODIFIED")%string then ev_UID event +:+ "-" +:+ ev_ResourceVersion event
               else ev_UID event in
  PrefixWithSource (cf_PlaneType (ex_config e)) (cf_ClusterName (ex_config e)) msgID.

Definition export_subject (e : Exporter) (namespace : string) : string :=
  EventSubject (cf_SubjectPrefix (ex_config e))
    (FederatedCluster (cf_PlaneType (ex_config e)) (cf_ClusterName (ex_config e))) namespace.

(** [json.Marshal] of an event with its [TypeMeta]. *)
Class ExportJson := { json_marshal_typed : string -> string -> Event -> error + string }.

Record message := { msg_Subject : string; msg_Data : string; msg_Id : string }.

(** [publishEvent] up to the call of [PublishAsync]. *)
Definition export_message `{ExportJson} (e : Exporter) (job : eventJob) : error + message :=
  let event := job_event job in
  match json_marshal_typed "events.k8s.io/v1" "Event" (with_annotations event (stamped e event)) with
  | inl err => inl (Errorf [PStr "failed to marshal event: "; PWrap err])
  | inr data => inr {| msg_Subject := export_subject e (ev_Namespace event); msg_Data := data;
                       msg_Id := qualifiedMsgID e event (job_eventType job) |}
  end.

Record ExportMetrics := {
  droppedEvents : nat; unscopedEvents : nat; noCityEvents : nat; publishErrors : nat; eventsPublished : nat }.
Definition no_metrics : ExportMetrics :=
  {| droppedEvents := 0; unscopedEvents := 0; noCityEvents := 0; publishErrors := 0; eventsPublished := 0 |}.
Definition add_metrics (m : ExportMetrics) (dropped unscoped noCity errors published : nat) : ExportMetrics :=
  {| droppedEvents := droppedEvents m + dropped; unscopedEvents := unscopedEvents m + unscoped;
     noCityEvents := noCityEvents m + noCity; publishErrors := publishErrors m + errors;
     eventsPublished := eventsPublished m + published |}.

(** [publishEvent]: what [PublishAsync] returned decides whether an
    acknowledgement is awaited. *)
Definition publishEvent `{ExportJson} (e : Exporter) (m : ExportMetrics) (job : eventJob) (r : option error)
  : ExportMetrics * (error + message) :=
  let scoped := Nat.b2n (snd (resolveScope e (ev_Namespace (job_event job)))) in
  let city := Nat.b2n (snd (source_city e)) in
  match export_message e job with
  | inl err => (add_metrics m 0 scoped city 1 0, inl err)
  | inr msg =>
      match r with
      | Some err => (add_metrics m 0 scoped city 1 0, inl (Errorf [PStr "failed to publish to NATS: "; PWrap err]))
      | None => (add_metrics m 0 scoped city 0 0, inr msg)
      end
  end.

(* ------------------------------------------------------------------ *)
(** ** exporter.go: the goroutines *)

(** The informer's callback: between callbacks, about to evict, about to try
    again.  Its calls come from one goroutine. *)
Inductive producer := Idle | Evicting (j : eventJob) | Retrying (j : eventJob).
(** [drainQueue]: at its select, holding a job it took, past the check of the
    context and in [publishEvent], waiting for acknowledgements, returned. *)
Inductive drainer := AtSelect | Holding (j : eventJob) | Publishing (j : eventJob) | Waiting | Returned.
Inductive fate := Discarded | Failed (e : error) | Sent (m : message).

(** The state.  [st_handed], [st_dropped], [st_drained] record what was handed
    in, what [recordDrop] saw, and what became of the jobs taken off. *)
Record state := {
  st_queue : list eventJob; st_producer : producer; st_drainer : drainer;
  st_cancelled : bool; st_city : string; st_inFlight : list (eventJob * message); st_metrics : ExportMetrics;
  st_handed : list eventJob; st_dropped : list eventJob; st_drained : list (eventJob * fate);
  st_acked : list (eventJob * message); st_nacked : list (eventJob * message) }.
Definition initial : state :=
  {| st_queue := []; st_producer := Idle; st_drainer := AtSelect; st_cancelled := false; st_city := "";
     st_inFlight := []; st_metrics := no_metrics; st_handed := []; st_dropped := []; st_drained := [];
     st_acked := []; st_nacked := [] |}.

Inductive label :=
| Added (event : Event) | Updated (old event : Event) | Evict | Retry
| Take | StopDraining | CheckContext | Publish (namespaces : NamespaceLister) (r : option error)
| Acked (i : nat) | Nacked (i : nat) | Drained | Deadline
| ResolveCity (r : resolution) | Cancel.

Definition set_queue (s : state) (q : list eventJob) (p : producer) : state :=
  {| st_queue := q; st_producer := p; st_drainer := st_drainer s; st_cancelled := st_cancelled s;
     st_city := st_city s; st_inFlight := st_inFlight s; st_metrics := st_metrics s; st_handed := st_handed s;
     st_dropped := st_dropped s; st_drained := st_drained s; st_acked := st_acked s; st_nacked := st_nacked s |}.
Definition hand (s : state) (j : eventJob) : state :=
  {| st_queue := st_queue s; st_producer := st_producer s; st_drainer := st_drainer s; st_cancelled := st_cancelled s;
     st_city := st_city s; st_inFlight := st_inFlight s; st_metrics := st_metrics s; st_handed := st_handed s ++ [j];
     st_dropped := st_dropped s; st_drained := st_drained s; st_acked := st_acked s; st_nacked := st_nacked s |}.
Definition recordDrop (s : state) (j : eventJob) : state :=
  {| st_queue := st_queue s; st_producer := st_producer s; st_drainer := st_drainer s; st_cancelled := st_cancelled s;
     st_city := st_city s; st_inFlight := st_inFlight s; st_metrics := add_metrics (st_metrics s) 1 0 0 0 0;
     st_handed := st_handed s; st_dropped := st_dropped s ++ [j]; st_drained := st_drained s;
     st_acked := st_acked s; st_nacked := st_nacked s |}.
Definition set_drainer (s : state) (q : list eventJob) (d : drainer) : state :=
  {| st_queue := q; st_producer := st_producer s; st_drainer := d; st_cancelled := st_cancelled s;
     st_city := st_city s; st_inFlight := st_inFlight s; st_metrics := st_metrics s; st_handed := st_handed s;
     st_dropped := st_dropped s; st_drained := st_drained s; st_acked := st_acked s; st_nacked := st_nacked s |}.
Definition settle (s : state) (j : eventJob) (m : ExportMetrics) (f : fate) (d : drainer) : state :=
  {| st_queue := st_queue s; st_producer := st_producer s; st_drainer := d; st_cancelled := st_cancelled s;
     st_city := st_city s;
     st_inFlight := match f with Sent msg => st_inFlight s ++ [(j, msg)] | _ => st_inFlight s end;
     st_metrics := m; st_handed := st_handed s; st_dropped := st_dropped s; st_drained := st_drained s ++ [(j, f)];
     st_acked := st_acked s; st_nacked := st_nacked s |}.
(** [awaitAck] of the [i]-th publish in flight. *)
Definition resolve_ack (s : state) (i : nat) (ok : bool) : option state :=
  match st_inFlight s !! i with
  | None => None
  | Some p =>
      Some {| st_queue := st_queue s; st_producer := st_producer s; st_drainer := st_drainer s;
              st_cancelled := st_cancelled s; st_city := st_city s; st_inFlight := delete i (st_inFlight s);
              st_metrics := if ok then add_metrics (st_metrics s) 0 0 0 0 1 else add_metrics (st_metrics s) 0 0 0 1 0;
              st_handed := st_handed s; st_dropped := st_dropped s; st_drained := st_drained s;
              st_acked := if ok then st_acked s ++ [p] else st_acked s;
              st_nacked := if ok then st_nacked s else st_nacked s ++ [p] |}
  end.
Definition set_shared (s : state) (cancelled : bool) (city : string) : state :=
  {| st_queue := st_queue s; st_producer := st_producer s; st_drainer := st_drainer s; st_cancelled := cancelled;
     st_city := city; st_inFlight := st_inFlight s; st_metrics := st_metrics s; st_handed := st_handed s;
     st_dropped := st_dropped s; st_drained := st_drained s; st_acked := st_acked s; st_nacked := st_nacked s |}.

(** [tryEnqueue]; [None]: the queue is full. *)
Definition tryEnqueue (s : state) (j : eventJob) : option state :=
  if Nat.ltb (length (st_queue s)) publishQueueSize then Some (set_queue s (st_queue s ++ [j]) Idle) else None.

(** [enqueue] up to its first try. *)
Definition enqueue (s : state) (event : Event) (eventType : string) : state :=
  let job := {| job_event := event; job_eventType := eventType |} in
  let s := hand s job in
  match tryEnqueue s job with
  | Some s' => s'
  | None => set_queue s (st_queue s) (Evicting job)
  end.

Definition onUpdate (s : state) (old event : Event) : state :=
  if (ev_ResourceVersion old =? ev_ResourceVersion event)%string then s else enqueue s event "MODIFIED".

(** [evictOldest]; an empty queue is left as it is. *)
Definition evictOldest (s : state) : state :=
  match st_queue s with
  | evicted :: q => recordDrop (set_queue s q (st_producer s)) evicted
  | [] => s
  end.

Definition step `{ExportJson} (cfg : ExporterConfig) (l : label) (s : state) : option state :=
  match l with
  | Added event => match st_producer s with Idle => Some (enqueue s event "ADDED") | _ => None end
  | Updated old event => match st_producer s with Idle => Some (onUpdate s old event) | _ => None end
  | Evict => match st_producer s with
             | Evicting j => let s' := evictOldest s in Some (set_queue s' (st_queue s') (Retrying j))
             | _ => None
             end
  | Retry => match st_producer s with
             | Retrying j => match tryEnqueue s j with
                             | Some s' => Some s'
                             | None => Some (set_queue (recordDrop s j) (st_queue s) Idle)
                             end
             | _ => None
             end
  | Take => match st_drainer s, st_queue s with
            | AtSelect, j :: q => Some (set_drainer s q (Holding j))
            | _, _ => None
            end
  | StopDraining => match st_drainer s, st_cancelled s with
                    | AtSelect, true => Some (set_drainer s (st_queue s) Waiting)
                    | _, _ => None
                    end
  | CheckContext =>
      match st_drainer s with
      | Holding j => Some (if st_cancelled s then settle s j (st_metrics s) Discarded Waiting
                           else set_drainer s (st_queue s) (Publishing j))
      | _ => None
      end
  | Publish namespaces r =>
      match st_drainer s with
      | Publishing j =>
          let (m, out) := publishEvent (new_exporter cfg namespaces (st_city s)) (st_metrics s) j r in
          Some (settle s j m (match out with inl err => Failed err | inr msg => Sent msg end) AtSelect)
      | _ => None
      end
  | Acked i => resolve_ack s i true
  | Nacked i => resolve_ack s i false
  | Drained => match st_drainer s, st_inFlight s with
               | Waiting, [] => Some (set_drainer s (st_queue s) Returned)
               | _, _ => None
               end
  | Deadline => match st_drainer s with
                | Waiting => Some (set_drainer s (st_queue s) Returned)
                | _ => None
                end
  | ResolveCity r => if (cf_PlaneType cfg =? planeTypeEdge)%string
              then Some (set_shared s (st_cancelled s) (fst (resolveOnce (st_city s) r))) else None
  | Cancel => Some (set_shared s true (st_city s))
  end.

Inductive reachable `{ExportJson} (cfg : ExporterConfig) : state -> Prop :=
| reachable_initial : reachable cfg initial
| reachable_step l s s' : reachable cfg s -> step cfg l s = Some s' -> reachable cfg s'.

(** A sequence of steps. *)
Fixpoint run `{ExportJson} (cfg : ExporterConfig) (ls : list label) (s : state) : option state :=
  match ls with
  | [] => Some s
  | l :: ls => match step cfg l s with Some s' => run cfg ls s' | None => None end
  end.

(* ------------------------------------------------------------------ *)
(** ** Lemmas *)

Definition in_hand (s : state) : list eventJob :=
  match st_drainer s with Holding j | Publishing j => [j] | _ => [] end.
(** The job past the check of the context. *)
Definition publishing (s : state) : list eventJob := match st_drainer s with Publishing j => [j] | _ => [] end.
Definition offered (s : state) : list eventJob :=
  match st_producer s with Evicting j | Retrying j => [j] | Idle => [] end.
Definition sent (p : eventJob * fate) : option (eventJob * message) :=
  match snd p with Sent m => Some (fst p, m) | _ => None end.
Definition is_failed (p : eventJob * fate) : bool := match snd p with Failed _ => true | _ => false end.

(** The jobs that were not evicted, oldest first: taken off, held, queued,
    offered. *)
Definition kept (s : state) : list eventJob := map fst (st_drained s) ++ in_hand s ++ st_queue s ++ offered s.

Record exporter_inv (s : state) : Prop := {
  inv_perm : st_handed s ≡ₚ st_dropped s ++ kept s;
  inv_order : kept s `sublist_of` st_handed s;
  inv_bound : (length (st_queue s) <= publishQueueSize)%nat;
  inv_room : forall j, st_producer s = Retrying j -> (length (st_queue s) < publishQueueSize)%nat;
  inv_sent : omap sent (st_drained s) ≡ₚ st_inFlight s ++ st_acked s ++ st_nacked s;
  inv_drops : droppedEvents (st_metrics s) = length (st_dropped s);
  inv_errors : publishErrors (st_metrics s)
               = (length (List.filter is_failed (st_drained s)) + length (st_nacked s))%nat;
  inv_acks : eventsPublished (st_metrics s) = length (st_acked s) }.

Ltac fields := cbn [st_queue st_producer st_drainer st_cancelled st_city st_inFlight st_metrics st_handed st_dropped
  st_drained st_acked st_nacked set_queue hand recordDrop set_drainer settle set_shared add_metrics
  droppedEvents unscopedEvents noCityEvents publishErrors eventsPublished app] in *.

Lemma set_queue_inv s q p :
  exporter_inv s -> kept (set_queue s q p) = kept s -> (length q <= publishQueueSize)%nat ->
  (forall j, p = Retrying j -> (length q < publishQueueSize)%nat) -> exporter_inv (set_queue s q p).
Proof. intros [] Hk Hq Hr. split; rewrite ?Hk; done. Qed.

Lemma tryEnqueue_inv s j s' :
  exporter_inv s -> offered s = [j] -> tryEnqueue s j = Some s' -> exporter_inv s'.
Proof.
  unfold tryEnqueue. intros Hi Ho. destruct (Nat.ltb_spec (length (st_queue s)) publishQueueSize) as [Hlt|]; [|done].
  intros [= <-]. apply set_queue_inv; [done| |rewrite length_app; simpl; lia|done].
  unfold kept. rewrite Ho. unfold in_hand, offered. fields. by rewrite app_nil_r.
Qed.

Lemma enqueue_inv s event ty : exporter_inv s -> st_producer s = Idle -> exporter_inv (enqueue s event ty).
Proof.
  intros Hi Hp. unfold enqueue. set (j := {| job_event := event; job_eventType := ty |}).
  set (s1 := set_queue (hand s j) (st_queue s) (Evicting j)).
  assert (exporter_inv s1) as H1.
  { assert (kept s1 = kept s ++ [j]) as Hk.
    { unfold kept, offered, in_hand. fields. rewrite Hp, !app_nil_r. by rewrite <- !app_assoc. }
    destruct Hi. split; rewrite ?Hk; unfold s1; fields; try done.
    - rewrite inv_perm0. by rewrite app_assoc.
    - by apply sublist_app. }
  destruct (tryEnqueue (hand s j) j) as [s'|] eqn:E; [|exact H1].
  apply (tryEnqueue_inv s1 j s' H1); [done|]. unfold tryEnqueue in *. fields.
  by destruct (Nat.ltb _ _).
Qed.

Lemma evict_inv s j :
  exporter_inv s -> st_producer s = Evicting j ->
  let s' := evictOldest s in exporter_inv (set_queue s' (st_queue s') (Retrying j)).
Proof.
  intros [] Hp. unfold evictOldest. destruct (st_queue s) as [|h q] eqn:Eq; cbv zeta.
  - apply set_queue_inv; [by split; rewrite ?Eq| |rewrite Eq; simpl; lia|intros; rewrite Eq; unfold publishQueueSize; simpl; lia].
    unfold kept, offered, in_hand. fields. by rewrite Hp, Eq.
  - assert (kept s = (map fst (st_drained s) ++ in_hand s) ++ h :: (q ++ [j])) as Hk.
    { unfold kept, offered. by rewrite Hp, Eq, <- app_assoc. }
    assert (kept (set_queue (recordDrop (set_queue s q (st_producer s)) h) q (Retrying j))
            = (map fst (st_drained s) ++ in_hand s) ++ q ++ [j]) as Hk'.
    { unfold kept, offered, in_hand. fields. by rewrite <- app_assoc. }
    fields. rewrite Hk in inv_perm0, inv_order0. split; rewrite ?Hk'; fields; try done.
    { rewrite inv_perm0, <- (app_assoc (st_dropped s)). apply Permutation_app_head.
      symmetry. cbn [app]. apply Permutation_middle. }
    { transitivity ((map fst (st_drained s) ++ in_hand s) ++ h :: q ++ [j]); [|done].
      apply sublist_app; [done|by apply sublist_cons]. }
    all: rewrite ?length_app; cbn [length] in *; intros; lia.
Qed.

Lemma Retry_inv s j :
  exporter_inv s -> st_producer s = Retrying j ->
  exists s', tryEnqueue s j = Some s' /\ st_queue s' = st_queue s ++ [j] /\ st_dropped s' = st_dropped s
    /\ exporter_inv s'.
Proof.
  intros Hi Hp. destruct (tryEnqueue s j) as [s'|] eqn:E.
  - exists s'. pose proof (tryEnqueue_inv s j s' Hi) as Hi'. unfold offered in Hi'. rewrite Hp in Hi'.
    assert (st_queue s' = st_queue s ++ [j] /\ st_dropped s' = st_dropped s) as [Hq Hd].
    { unfold tryEnqueue in E. destruct (Nat.ltb _ _); [|done]. by injection E as <-. }
    split; [done|]. split; [exact Hq|]. split; [exact Hd|]. by apply Hi'.
  - exfalso. unfold tryEnqueue in E. pose proof (inv_room s Hi j Hp).
    by destruct (Nat.ltb_spec (length (st_queue s)) publishQueueSize); [|lia].
Qed.

(** The drainer moves a job from one part of [kept] to the next. *)
Lemma set_drainer_inv s q d :
  exporter_inv s -> kept (set_drainer s q d) = kept s -> (length q <= length (st_queue s))%nat ->
  exporter_inv (set_drainer s q d).
Proof.
  intros [] Hk Hq. split; rewrite ?Hk; fields; try done; [lia|].
  intros j Hj. specialize (inv_room0 j Hj). lia.
Qed.

Lemma settle_inv s j m f d :
  exporter_inv s -> in_hand s = [j] -> in_hand (settle s j m f d) = [] ->
  droppedEvents m = droppedEvents (st_metrics s) -> eventsPublished m = eventsPublished (st_metrics s) ->
  publishErrors m = (publishErrors (st_metrics s) + Nat.b2n (is_failed (j, f)))%nat ->
  exporter_inv (settle s j m f d).
Proof.
  intros [] Hd Hh Hm1 Hm2 Hm3.
  assert (kept (settle s j m f d) = kept s) as Hk.
  { unfold kept. rewrite Hh, Hd. unfold offered. fields. rewrite map_app. by rewrite <- app_assoc. }
  split; rewrite ?Hk; fields; try done; try congruence.
  - rewrite omap_app. destruct f as [|e|msg]; cbn; rewrite ?app_nil_r; [done|done|].
    rewrite inv_sent0, <- !app_assoc. apply Permutation_app_head. cbn [app].
    rewrite app_assoc. symmetry. apply Permutation_cons_append.
  - rewrite List.filter_app, length_app, Hm3, inv_errors0. destruct f; cbn; lia.
Qed.

Lemma ack_inv s i ok s' : exporter_inv s -> resolve_ack s i ok = Some s' -> exporter_inv s'.
Proof.
  unfold resolve_ack. intros [] H. destruct (st_inFlight s !! i) as [p|] eqn:E; [|done]. injection H as <-.
  assert (st_inFlight s ≡ₚ p :: delete i (st_inFlight s)) as Hp by by apply delete_Permutation.
  split; fields; try done.
  - rewrite inv_sent0. etransitivity; [apply Permutation_app_tail; exact Hp|].
    generalize (delete i (st_inFlight s)). intros l. destruct ok; cbn [app].
    + rewrite <- app_assoc. cbn [app]. by rewrite <- !Permutation_middle.
    + rewrite !app_assoc. apply Permutation_cons_append.
  - destruct ok; fields; rewrite ?length_app; cbn; lia.
  - destruct ok; fields; rewrite ?length_app; cbn; lia.
  - destruct ok; fields; rewrite ?length_app; cbn; lia.
Qed.

Section ExporterTheorems.
Context `{ExportJson}.

Lemma publishEvent_counts e m j r m' out :
  publishEvent e m j r = (m', out) ->
  droppedEvents m' = droppedEvents m /\ eventsPublished m' = eventsPublished m
  /\ publishErrors m' = (publishErrors m + match out with inl _ => 1 | inr _ => 0 end)%nat
  /\ (forall msg, out = inr msg -> export_message e j = inr msg).
Proof.
  unfold publishEvent. destruct (export_message e j) as [err|msg]; [|destruct r];
    intros [= <- <-]; fields; split_and!; try lia; congruence.
Qed.

Lemma step_inv cfg l s s' : exporter_inv s -> step cfg l s = Some s' -> exporter_inv s'.
Proof.
  intros Hi Hs. destruct l; cbn [step] in Hs.
  - destruct (st_producer s) eqn:Hp; [|done..]. injection Hs as <-. by apply enqueue_inv.
  - destruct (st_producer s) eqn:Hp; [|done..]. injection Hs as <-. unfold onUpdate.
    destruct (_ =? _)%string; [done|by apply enqueue_inv].
  - destruct (st_producer s) eqn:Hp; [done| |done]. injection Hs as <-. by apply evict_inv.
  - destruct (st_producer s) eqn:Hp; [done..|]. destruct (Retry_inv s j Hi Hp) as (t & E & _ & _ & Ht).
    rewrite E in Hs. by injection Hs as <-.
  - destruct (st_drainer s) eqn:Hd, (st_queue s) eqn:Hq; try done. injection Hs as <-.
    apply set_drainer_inv; [done| |rewrite Hq; simpl; lia]. unfold kept, in_hand, offered. fields. by rewrite Hd, Hq.
  - destruct (st_drainer s) eqn:Hd, (st_cancelled s); try done. injection Hs as <-.
    apply set_drainer_inv; [done| |done]. unfold kept, in_hand, offered. fields. by rewrite Hd.
  - destruct (st_drainer s) eqn:Hd; try done. injection Hs as <-. destruct (st_cancelled s).
    + apply settle_inv; try done; solve [unfold in_hand; by rewrite Hd|cbn; lia].
    + apply set_drainer_inv; [done| |done]. unfold kept, in_hand, offered. fields. by rewrite Hd.
  - destruct (st_drainer s) eqn:Hd; try done.
    destruct (publishEvent _ _ _ _) as [m out] eqn:Ep. injection Hs as <-.
    apply publishEvent_counts in Ep as (Hm1 & Hm2 & Hm3 & _).
    apply settle_inv; try done; [unfold in_hand; by rewrite Hd|rewrite Hm3; by destruct out].
  - by apply (ack_inv s i true).
  - by apply (ack_inv s i false).
  - destruct (st_drainer s) eqn:Hd, (st_inFlight s); try done. injection Hs as <-.
    apply set_drainer_inv; [done| |done]. unfold kept, in_hand, offered. fields. by rewrite Hd.
  - destruct (st_drainer s) eqn:Hd; try done. injection Hs as <-.
    apply set_drainer_inv; [done| |done]. unfold kept, in_hand, offered. fields. by rewrite Hd.
  - destruct (_ =? _)%string; [|done]. injection Hs as <-. by destruct Hi.
  - injection Hs as <-. by destruct Hi.
Qed.

Lemma exporter_reachable_inv cfg s : reachable cfg s -> exporter_inv s.
Proof.
  induction 1 as [|l s s' _ IH Hs]; [|by eapply step_inv].
  split; cbn; try done; unfold publishQueueSize; lia.
Qed.

(** C37: Whatever the goroutines do and in whatever order, every job handed to
    the exporter is exactly one of: evicted, taken off and settled, held,
    queued, or being offered; those not evicted keep their order, so publishes
    are in order of arrival; the queue never holds more than its size; the
    incoming event itself is never shed, its second try always succeeds;
    every publish in flight is settled at most once; and the counters of
    dropped, failed and acknowledged events are exact. *)
Theorem exporter_conserves cfg s :
  reachable cfg s ->
  st_handed s ≡ₚ st_dropped s ++ kept s
  /\ kept s `sublist_of` st_handed s
  /\ (length (st_queue s) <= publishQueueSize)%nat
  /\ (forall j s', st_producer s = Retrying j -> step cfg Retry s = Some s' ->
        st_queue s' = st_queue s ++ [j] /\ st_dropped s' = st_dropped s)
  /\ omap sent (st_drained s) ≡ₚ st_inFlight s ++ st_acked s ++ st_nacked s
  /\ droppedEvents (st_metrics s) = length (st_dropped s)
  /\ publishErrors (st_metrics s) = (length (List.filter is_failed (st_drained s)) + length (st_nacked s))%nat
  /\ eventsPublished (st_metrics s) = length (st_acked s).
Proof.
  intros Hr. pose proof (exporter_reachable_inv cfg s Hr) as Hi. destruct Hi as [] eqn:E.
  split_and!; try done. intros j s' Hp Hs. cbn [step] in Hs. rewrite Hp in Hs.
  destruct (Retry_inv s j Hi Hp) as (t & Et & Hq & Hd & _). rewrite Et in Hs. by injection Hs as <-.
Qed.

(** The moves of the others leave the drainer where it is. *)
Definition drainer_moves (l : label) : bool :=
  match l with Take | StopDraining | CheckContext | Publish _ _ | Drained | Deadline => true | _ => false end.

Lemma enqueue_frame s event ty :
  st_cancelled (enqueue s event ty) = st_cancelled s /\ st_drained (enqueue s event ty) = st_drained s
  /\ st_drainer (enqueue s event ty) = st_drainer s.
Proof. unfold enqueue, tryEnqueue. fields. by destruct (Nat.ltb _ _). Qed.

Lemma step_frame cfg l s s' :
  drainer_moves l = false -> step cfg l s = Some s' ->
  (st_cancelled s = true -> st_cancelled s' = true) /\ st_drained s' = st_drained s /\ st_drainer s' = st_drainer s.
Proof.
  intros Hl Hs. destruct l; try done; cbn [step] in Hs.
  - destruct (st_producer s); [|done..]. injection Hs as <-.
    destruct (enqueue_frame s event "ADDED") as (-> & -> & ->). done.
  - destruct (st_producer s); [|done..]. injection Hs as <-. unfold onUpdate. destruct (_ =? _)%string; [done|].
    destruct (enqueue_frame s event "MODIFIED") as (-> & -> & ->). done.
  - destruct (st_producer s); [done| |done]. injection Hs as <-. unfold evictOldest. by destruct (st_queue s).
  - destruct (st_producer s); [done..|]. unfold tryEnqueue in Hs. by destruct (Nat.ltb _ _); injection Hs as <-.
  - unfold resolve_ack in Hs. destruct (_ !! _); [|done]. by injection Hs as <-.
  - unfold resolve_ack in Hs. destruct (_ !! _); [|done]. by injection Hs as <-.
  - destruct (_ =? _)%string; [|done]. by injection Hs as <-.
  - by injection Hs as <-.
Qed.

Lemma run_reachable cfg ls s s' : reachable cfg s -> run cfg ls s = Some s' -> reachable cfg s'.
Proof.
  revert s. induction ls as [|l ls IH]; intros s Hr; cbn [run]; [by intros [= <-]|].
  destruct (step cfg l s) as [t|] eqn:E; [|done]. apply IH. by eapply reachable_step.
Qed.

(** How far the drainer is from having returned. *)
Definition rank (s : state) : nat :=
  match st_drainer s with Publishing _ => 4 | AtSelect => 3 | Holding _ => 2 | Waiting => 1 | Returned => 0 end.

(** A step after the cancellation: the one publish it can make is of the job
    past its check. *)
Lemma cancelled_step cfg l s s' :
  st_cancelled s = true -> step cfg l s = Some s' ->
  st_cancelled s' = true
  /\ (Nat.b2n (drainer_moves l) + rank s' <= rank s)%nat
  /\ exists extra, omap sent (st_drained s') = omap sent (st_drained s) ++ extra
       /\ map fst extra ++ publishing s' `sublist_of` publishing s.
Proof.
  intros Hc Hs. destruct (drainer_moves l) eqn:Hl.
  2: { destruct (step_frame cfg l s s' Hl Hs) as (Hc' & Hd & Hr). unfold rank, publishing. rewrite Hd, Hr.
       split_and!; [by apply Hc'|done|]. exists []. by rewrite app_nil_r. }
  unfold rank, publishing. destruct l; try done; cbn [step] in Hs; rewrite ?Hc in Hs; destruct (st_drainer s); try done.
  - destruct (st_queue s); [done|]. injection Hs as <-. fields. split_and!; [done|cbn; lia|]. exists []. by rewrite app_nil_r.
  - injection Hs as <-. fields. split_and!; [done|cbn; lia|]. exists []. by rewrite app_nil_r.
  - injection Hs as <-. fields. split_and!; [done|cbn; lia|]. exists []. by rewrite omap_app.
  - destruct (publishEvent _ _ _ _) as [m out]. injection Hs as <-. fields. split_and!; [done|cbn; lia|].
    rewrite omap_app. eexists. split; [reflexivity|]. rewrite app_nil_r. destruct out; cbn; [by apply sublist_nil_l|done].
  - destruct (st_inFlight s); [|done]. injection Hs as <-. fields. split_and!; [done|cbn; lia|]. exists []. by rewrite app_nil_r.
  - injection Hs as <-. fields. split_and!; [done|cbn; lia|]. exists []. by rewrite app_nil_r.
Qed.

Lemma cancelled_run cfg ls s s' :
  st_cancelled s = true -> run cfg ls s = Some s' ->
  st_cancelled s' = true
  /\ (length (List.filter drainer_moves ls) + rank s' <= rank s)%nat
  /\ exists extra, omap sent (st_drained s') = omap sent (st_drained s) ++ extra
       /\ map fst extra ++ publishing s' `sublist_of` publishing s.
Proof.
  revert s. induction ls as [|l ls IH]; intros s Hc; cbn [run].
  { intros [= <-]. split_and!; [done|done|]. exists []. by rewrite app_nil_r. }
  destruct (step cfg l s) as [s1|] eqn:Hs; [|done]. intros Hr.
  destruct (cancelled_step cfg l s s1 Hc Hs) as (Hc1 & Hk1 & e1 & Hd1 & Hp1).
  destruct (IH s1 Hc1 Hr) as (Hc2 & Hk2 & e2 & Hd2 & Hp2). split; [done|]. split.
  - cbn [List.filter]. destruct (drainer_moves l); cbn [length Nat.b2n] in *; lia.
  - exists (e1 ++ e2). rewrite Hd2, Hd1, app_assoc. split; [done|]. rewrite map_app, <- app_assoc.
    etransitivity; [|exact Hp1]. by apply sublist_app.
Qed.

(** C38: Once the context is cancelled, however the goroutines go on: the
    drainer makes at most four more moves before it has returned, one is always
    possible until then - shutdown is blocked neither by an acknowledgement that
    does not come nor by a full queue - and nothing more is published but the
    one job that had passed its check of the context when it was cancelled. *)
Theorem exporter_shutdown cfg ls s s' :
  st_cancelled s = true -> run cfg ls s = Some s' ->
  (length (List.filter drainer_moves ls) + rank s' <= rank s <= 4)%nat
  /\ (exists extra, omap sent (st_drained s') = omap sent (st_drained s) ++ extra
        /\ map fst extra `sublist_of` publishing s)
  /\ (rank s' = 0%nat <-> st_drainer s' = Returned)
  /\ (st_drainer s' <> Returned -> exists l s2, drainer_moves l = true /\ step cfg l s' = Some s2).
Proof.
  intros Hc Hr. destruct (cancelled_run cfg ls s s' Hc Hr) as (Hc' & Hk & extra & Hd & Hp). split_and!.
  - done.
  - unfold rank. destruct (st_drainer s); lia.
  - exists extra. split; [done|]. etransitivity; [|exact Hp]. by apply sublist_inserts_r.
  - unfold rank. by destruct (st_drainer s').
  - intros Hn. destruct (st_drainer s') eqn:Ed; [..|done].
    + exists StopDraining. eexists. cbn. by rewrite Ed, Hc'.
    + exists CheckContext. eexists. cbn. by rewrite Ed, Hc'.
    + exists (Publish (fun _ => None) None). cbn. rewrite Ed. destruct (publishEvent _ _ _ _). by eexists.
    + exists Deadline. eexists. cbn. by rewrite Ed.
Qed.
End ExporterTheorems.

(* ------------------------------------------------------------------ *)
(** ** What the processors read from a message *)

(** JSON carries the annotations and the UID of an event. *)
Class WireLaws `{ExportJson} `{EvalJson} := {
  wire_carries apiVersion kind event data :
    json_marshal_typed apiVersion kind event = inr data ->
    exists m, json_unmarshal_map data = inr (Some m)
      /\ (forall key, getStringFromMap (eventAnnotations m) key = default "" (default ∅ (ev_Annotations event) !! key))
      /\ event_uid m = ev_UID event }.

(** The tenant of an activity, from a scope. *)
Definition tenant_of_scope (scope : eventScope) : ActivityTenant :=
  if (esc_Type scope =? "")%string then {| ten_Type := TenantTypePlatform; ten_Name := "" |}
  else {| ten_Type := NormalizeTenantType (esc_Type scope); ten_Name := esc_Name scope |}.

Lemma stamped_scope e event :
  let scope := fst (resolveScope e (ev_Namespace event)) in
  stamped e event !! ScopeTypeAnnotation = Some (esc_Type scope)
  /\ stamped e event !! ScopeNameAnnotation = Some (esc_Name scope)
  /\ (esc_Namespace scope <> "" -> stamped e event !! ScopeNamespaceAnnotation = Some (esc_Namespace scope)).
Proof.
  cbv zeta. unfold stamped, stampScope. rewrite !(lookup_insert_ne _ SourceCityAnnotation) by done.
  rewrite !(lookup_insert_ne _ SourceRegionAnnotation), !(lookup_insert_ne _ SourceClusterAnnotation),
    !(lookup_insert_ne _ SourcePlaneTypeAnnotation) by done.
  destruct (String.eqb_spec (esc_Namespace (fst (resolveScope e (ev_Namespace event)))) "") as [->|Hn].
  - rewrite lookup_insert_eq, lookup_insert_ne, lookup_insert_eq by done. by split_and!.
  - rewrite lookup_insert_eq, !lookup_insert_ne, lookup_insert_eq, lookup_insert_ne, lookup_insert_eq by done.
    by split_and!.
Qed.

Lemma stamped_source e event :
  stamped e event !! SourcePlaneTypeAnnotation = Some (PlaneType (sourceAnnotations e))
  /\ stamped e event !! SourceClusterAnnotation = Some (Cluster (sourceAnnotations e))
  /\ stamped e event !! SourceRegionAnnotation = Some (Region (sourceAnnotations e))
  /\ stamped e event !! SourceCityAnnotation = Some (City (sourceAnnotations e)).
Proof.
  unfold stamped. split_and!;
    repeat (rewrite lookup_insert_eq || rewrite lookup_insert_ne by done); done.
Qed.

(** No other annotation of the event is touched. *)
Lemma stamped_other e event key :
  key ∉ [ScopeTypeAnnotation; ScopeNameAnnotation; ScopeNamespaceAnnotation; SourcePlaneTypeAnnotation;
         SourceClusterAnnotation; SourceRegionAnnotation; SourceCityAnnotation] ->
  stamped e event !! key = default ∅ (ev_Annotations event) !! key.
Proof.
  intros Hk. rewrite !not_elem_of_cons in Hk. destruct Hk as (? & ? & ? & ? & ? & ? & ? & _).
  unfold stamped, stampScope. rewrite !lookup_insert_ne by done.
  destruct (_ =? _)%string; by rewrite !lookup_insert_ne by done.
Qed.

Lemma export_message_ok `{ExportJson} e job msg :
  export_message e job = inr msg ->
  json_marshal_typed "events.k8s.io/v1" "Event" (with_annotations (job_event job) (stamped e (job_event job)))
    = inr (msg_Data msg)
  /\ msg_Subject msg = export_subject e (ev_Namespace (job_event job))
  /\ msg_Id msg = qualifiedMsgID e (job_event job) (job_eventType job).
Proof. unfold export_message. destruct (json_marshal_typed _ _ _); [done|]. by intros [= <-]. Qed.

Section Wire.
Context `{WireLaws} `{ActivityLib}.

Lemma wire_read e job msg :
  export_message e job = inr msg ->
  exists m, json_unmarshal_map (msg_Data msg) = inr (Some m)
    /\ (forall key, getStringFromMap (eventAnnotations m) key = default "" (stamped e (job_event job) !! key))
    /\ event_uid m = ev_UID (job_event job).
Proof using Type*. intros (Hm & _ & _)%export_message_ok. by apply wire_carries in Hm. Qed.

(** The activity an event processor makes of an exported event, whatever
    annotations the event carried before: its tenant is the scope the exporter
    resolved, its source the exporter's, its namespace the recovered upstream
    namespace, and its origin identifier the event's UID qualified with the
    exporter's plane and cluster, which is the message identifier of a new
    event; and a federated exporter with valid options publishes on subjects
    that exactly its own cluster's grant covers. *)
Theorem exported_event_activity cfg namespaces city job msg :
  let e := new_exporter cfg namespaces city in
  let event := job_event job in
  let scope := fst (resolveScope e (ev_Namespace event)) in
  export_message e job = inr msg ->
  (exists m, json_unmarshal_map (msg_Data msg) = inr (Some m)
    /\ forall now matched summary links, let a := buildActivity now m matched summary links in
      Tenant (Spec a) = tenant_of_scope scope
      /\ Source (Spec a) = (if decide (sourceAnnotations e = empty_source) then None else Some (sourceAnnotations e))
      /\ (esc_Namespace scope <> "" -> Namespace a = esc_Namespace scope)
      /\ org_ID (Origin (Spec a)) = PrefixWithSource (cf_PlaneType cfg) (cf_ClusterName cfg) (ev_UID event)
      /\ (job_eventType job = "ADDED" -> msg_Id msg = org_ID (Origin (Spec a))))
  /\ (options_Validate cfg = true -> FederatedCluster (cf_PlaneType cfg) (cf_ClusterName cfg) <> "" ->
      has_byte dot (ev_Namespace event) = false -> ">" ∉ Split dot (cf_SubjectPrefix cfg) ->
      forall c, ValidClusterName c = true ->
        subjectMatches (EventSubjectGrant (cf_SubjectPrefix cfg) c) (msg_Subject msg) = (c =? cf_ClusterName cfg)%string).
Proof using All.
  intros e event scope Hm. split.
  - destruct (wire_read e job msg Hm) as (m & Hj & Ha & Hu). exists m. split; [done|].
    intros now matched summary links a.
    destruct (stamped_scope e event) as (Ht & Hn & Hns). destruct (stamped_source e event) as (S1 & S2 & S3 & S4).
    assert (ExtractSourceFromAnnotations m = sourceAnnotations e) as Hsrc.
    { unfold ExtractSourceFromAnnotations. rewrite !Ha. fold event. rewrite S1, S2, S3, S4. by destruct (sourceAnnotations e). }
    unfold a, buildActivity. rewrite Hsrc. destruct (resolveKindAndAPIGroup _) as [rk rg].
    cbn [Spec Tenant Source Origin org_ID Namespace]. split_and!.
    + unfold ExtractTenantFromAnnotations, tenant_of_scope. rewrite !Ha. fold event. by rewrite Ht, Hn.
    + done.
    + unfold scope. intros Hne. unfold resolveActivityNamespace. rewrite Ha. fold event. rewrite (Hns Hne). cbv zeta. cbn [default from_option id].
      apply String.eqb_neq in Hne. by rewrite Hne.
    + unfold qualifiedOriginID, event. f_equal. rewrite <- Hu. unfold event_uid.
      destruct (as_map (m !! "metadata")); [by rewrite GetNestedString_1|done].
    + intros Hty. destruct (export_message_ok e job msg Hm) as (_ & _ & ->). unfold qualifiedMsgID, qualifiedOriginID.
      rewrite Hty. cbn [String.eqb Ascii.eqb Bool.eqb]. f_equal. rewrite <- Hu. unfold event_uid.
      destruct (as_map (m !! "metadata")); [by rewrite GetNestedString_1|done].
  - intros Hv Hf Hd Hp c Hc. destruct (export_message_ok e job msg Hm) as (_ & -> & _).
    unfold export_subject, options_Validate in *. cbn [ex_config e new_exporter].
    assert (FederatedCluster (cf_PlaneType cfg) (cf_ClusterName cfg) = cf_ClusterName cfg) as Hfc.
    { unfold FederatedCluster in *. by destruct (_ || _)%bool. }
    rewrite Hfc in *. apply String.eqb_neq in Hf. rewrite Hf in Hv. cbn in Hv. apply negb_true_iff, negb_false_iff in Hv.
    by apply EventSubjectGrant_isolates.
Qed.
End Wire.

(* ------------------------------------------------------------------ *)
(** ** What the stamps leave open *)

(** An edge event whose scope is not recovered is emitted unscoped, and an
    unscoped event is one of the platform tenant to the processors. *)
Lemma unscoped_is_platform cfg namespaces city namespace :
  cf_PlaneType cfg = planeTypeEdge -> Resolve namespaces namespace = None ->
  tenant_of_scope (fst (resolveScope (new_exporter cfg namespaces city) namespace))
  = {| ten_Type := TenantTypePlatform; ten_Name := "" |}.
Proof.
  intros Hp Hr. unfold resolveScope, new_exporter. cbn [ex_config ex_scope]. rewrite Hp. cbn. by rewrite Hr.
Qed.

(** The upstream namespace is only ever added: without a recovered one, the
    event's own annotation stays, and files its activity elsewhere. *)
Lemma upstream_namespace_kept e event :
  esc_Namespace (fst (resolveScope e (ev_Namespace event))) = "" ->
  stamped e event !! ScopeNamespaceAnnotation = default ∅ (ev_Annotations event) !! ScopeNamespaceAnnotation.
Proof.
  intros Hs. unfold stamped, stampScope. rewrite Hs. cbn [String.eqb]. by rewrite !lookup_insert_ne by done.
Qed.

(** The scope type is stamped as configured; the default, [organization], is
    not the value the event queries of an organization ask for. *)
Lemma default_scope_not_queried cfg namespaces city event :
  cf_PlaneType cfg <> planeTypeEdge -> cf_ScopeType cfg = "organization" ->
  stamped (new_exporter cfg namespaces city) event !! ScopeTypeAnnotation = Some "organization"
  /\ "organization" <> TenantTypeOrganization.
Proof.
  intros Hp Ht. split; [|done]. destruct (stamped_scope (new_exporter cfg namespaces city) event) as (-> & _).
  unfold resolveScope. cbn [ex_config new_exporter]. apply String.eqb_neq in Hp. rewrite Hp. cbn. by rewrite Ht.
Qed.

(** *** The city *)

Lemma city_ticks_slow city rs :
  snd (city_ticks city locationResolveInterval rs) = replicate (length rs) locationResolveInterval.
Proof.
  revert city. induction rs as [|r rs IH]; intros city; [done|]. cbn [city_ticks].
  destruct (resolveOnce city r) as [city' ok]. rewrite Z.eqb_refl, andb_false_r.
  specialize (IH city'). destruct (city_ticks _ _ _). cbn in IH |- *. by rewrite IH.
Qed.

(** While no attempt succeeds the retries are fast; from the first success on
    they are slow, and a later failure keeps the city that was found. *)
Lemma city_Run_spec city first failures r rs :
  let fails := fun x => snd (resolveOnce city x) = false in
  fails first -> Forall fails failures -> snd (resolveOnce city r) = true ->
  snd (city_Run city first (failures ++ r :: rs))
  = replicate (S (length failures)) locationResolveRetryInterval ++ replicate (length rs) locationResolveInterval.
Proof.
  intros fails Hf Hfs Hr. assert (forall x, fails x -> resolveOnce city x = (city, false)) as Hfail.
  { intros x. unfold fails, resolveOnce. by destruct x as [| |? [|]]. }
  unfold city_Run. rewrite (Hfail _ Hf). clear Hf. induction Hfs as [|x failures Hx _ IH].
  - cbn [app city_ticks]. destruct (resolveOnce city r) as [city' ok]. cbn in Hr. subst ok. cbn [andb].
    change (negb (locationResolveRetryInterval =? locationResolveInterval)%Z) with true. cbv iota.
    pose proof (city_ticks_slow city' rs) as Hs. destruct (city_ticks _ _ rs). cbn in Hs |- *. by rewrite Hs.
  - cbn [app city_ticks]. rewrite (Hfail _ Hx). cbn [andb]. destruct (city_ticks city _ (failures ++ r :: rs)).
    cbn in IH |- *. by rewrite IH.
Qed.

(* ------------------------------------------------------------------ *)
(** ** Concrete runs *)

Module ToyExport.
Definition json : ExportJson := {| json_marshal_typed _ _ e := inr (ToyEvents.write e) |}.
(** The two parts of the document the laws speak of. *)
Definition map_of (e : Event) : gomap :=
  {["metadata" := AMap (<["uid" := AStr (ev_UID e)]>
       {["annotations" := AMap (AStr <$> default ∅ (ev_Annotations e))]})]}.
Definition evals : EvalJson := {|
  json_unmarshal_map s := match ToyEvents.read s with Some e => inr (Some (map_of e)) | None => inl (Ext "bad json") end;
  audit_json a := inr (AuditID a); activity_json a := inr (Name a) |}.
Definition laws : @WireLaws json evals.
Proof.
  refine (@Build_WireLaws json evals _). intros av k e data [= <-]. exists (map_of e).
  cbn [json_unmarshal_map evals]. rewrite ToyEvents.read_write. split; [done|]. split.
  - intros key. unfold eventAnnotations, map_of. rewrite lookup_singleton_eq. cbn [as_map].
    rewrite lookup_insert_ne, lookup_singleton_eq by done. cbn [as_map].
    unfold getStringFromMap. unfold nil_map. cbn [default from_option id].
    rewrite (lookup_fmap AStr). by destruct (default ∅ (ev_Annotations e) !! key).
  - unfold event_uid, map_of. rewrite lookup_singleton_eq. cbn [as_map]. rewrite GetNestedString_1.
    unfold getStringFromMap, nil_map. cbn [default from_option id]. by rewrite lookup_insert_eq.
Defined.
Definition event (uid rv : string) : Event :=
  {| ev_Namespace := "ns-1"; ev_Name := "e"; ev_UID := uid; ev_ResourceVersion := rv;
     ev_Annotations := Some {[ScopeNameAnnotation := "forged"]};
     ev_EventTime := 3%Z; ev_FirstTimestamp := 3%Z; ev_LastTimestamp := 3%Z; ev_Count := 1%Z;
     ev_Series := None; ev_rest := no_rest |}.
Definition edge : ExporterConfig :=
  {| cf_SubjectPrefix := "activity.federated"; cf_ScopeType := "organization"; cf_ScopeName := "dev-org";
     cf_PlaneType := "edge"; cf_ClusterName := "dfw-1"; cf_ClusterRegion := "us-central-1" |}.
Definition namespaces : NamespaceLister := fun n =>
  if (n =? "ns-1")%string
  then Some (<[upstreamNamespaceLabel := "default"]> {[upstreamClusterNameLabel := "cluster-_p1"]}) else None.
Abbreviation run := (@Exporter.run json edge).
(** A full queue, an eviction while a job is held, a publish and its
    acknowledgement, then shutdown with the queue still full. *)
Definition fill : list label := repeat (Added (event "u" "1")) 1000.
Definition labels : list label :=
  fill ++ [Updated (event "u" "1") (event "u" "1"); Updated (event "u" "1") (event "u" "2"); Take; Evict; Retry;
           CheckContext; Publish namespaces None; Acked 0;
           Take; Cancel; CheckContext; Deadline].
Definition short : list label :=
  [Added (event "u" "1"); Take; Added (event "v" "1"); CheckContext; Publish namespaces None; Acked 0; Take;
   CheckContext; Publish namespaces (Some (Ext "stalled")); Cancel; StopDraining; Drained].
(** A cancellation while a job is past its check: it is published, the next one
    is not. *)
Definition past_check : list label :=
  [Added (event "u" "1"); Added (event "v" "1"); Take; CheckContext; Cancel].
Definition shutdown : list label := [Publish namespaces None; Take; CheckContext; Nacked 0; Drained].
Definition at_cancel : state := default initial (run past_check initial).
Definition at_end : state := default initial (run shutdown at_cancel).
Lemma shutdown_run : @Exporter.run json edge shutdown at_cancel = Some at_end.
Proof. vm_compute. reflexivity. Qed.
Lemma at_cancel_cancelled : st_cancelled at_cancel = true.
Proof. vm_compute. reflexivity. Qed.
Definition job : eventJob := {| job_event := event "u" "1"; job_eventType := "ADDED" |}.
Definition exported : error + message := @export_message json (new_exporter edge namespaces "DFW") job.
Definition msg : message :=
  match exported with inr m => m | inl _ => {| msg_Subject := ""; msg_Data := ""; msg_Id := "" |} end.
Lemma msg_ok : exported = inr msg.
Proof. vm_compute. reflexivity. Qed.
Definition matched : MatchedPolicy :=
  {| mp_PolicyName := "p"; mp_Generation := 1; mp_APIGroup := "apps"; mp_Kind := "Deployment"; mp_Summary := "s";
     mp_Links := [] |}.
End ToyExport.

(** The race the comment on [evictOldest] sets aside: the drainer takes a job
    between the first try and the eviction, and an event is shed although the
    queue has room.  At the end 998 queued events and the one held are neither
    published nor counted as dropped. *)
Example export_run :
  match ToyExport.run ToyExport.labels initial with
  | Some s => (length (st_queue s), length (st_dropped s), droppedEvents (st_metrics s),
               map (fun p => msg_Id (snd p)) (st_acked s), length (st_drained s), st_drainer s)
  | None => (0%nat, 0%nat, 0%nat, [], 0%nat, AtSelect)
  end = (998%nat, 1%nat, 1%nat, ["edge/dfw-1/u"], 2%nat, Returned).
Proof. vm_compute. reflexivity. Qed.

Lemma exporter_conserves_witness :
  exists s, ToyExport.run ToyExport.short initial = Some s
  /\ length (st_acked s) = 1%nat /\ publishErrors (st_metrics s) = 1%nat.
Proof.
  destruct (ToyExport.run ToyExport.short initial) as [s|] eqn:E; [|exfalso; vm_compute in E; discriminate E].
  exists s. split; [reflexivity|].
  destruct (@exporter_conserves ToyExport.json ToyExport.edge s) as (_ & _ & _ & _ & _ & _ & He & _).
  - apply (@run_reachable ToyExport.json ToyExport.edge ToyExport.short initial s); [apply reachable_initial|exact E].
  - rewrite He. vm_compute in E. injection E as <-. split; vm_compute; reflexivity.
Defined.

Lemma exporter_shutdown_witness :
  map fst (omap sent (st_drained ToyExport.at_end)) = [ToyExport.job] /\ st_drainer ToyExport.at_end = Returned
  /\ exists extra, omap sent (st_drained ToyExport.at_end) = omap sent (st_drained ToyExport.at_cancel) ++ extra
       /\ map fst extra `sublist_of` publishing ToyExport.at_cancel.
Proof.
  split; [vm_compute; reflexivity|]. split; [vm_compute; reflexivity|].
  exact (proj1 (proj2 (@exporter_shutdown ToyExport.json ToyExport.edge ToyExport.shutdown ToyExport.at_cancel
    ToyExport.at_end ToyExport.at_cancel_cancelled ToyExport.shutdown_run))).
Defined.

Lemma exported_event_activity_witness :
  msg_Id ToyExport.msg = "edge/dfw-1/u"
  /\ subjectMatches (EventSubjectGrant "activity.federated" "lax-1") (msg_Subject ToyExport.msg) = false
  /\ exists m, @json_unmarshal_map ToyExport.evals (msg_Data ToyExport.msg) = inr (Some m)
     /\ Tenant (Spec (@buildActivity ToyLib.toy 7%Z m ToyExport.matched "s" []))
        = {| ten_Type := "Project"; ten_Name := "p1" |}.
Proof.
  destruct (@exported_event_activity ToyExport.json ToyExport.evals ToyExport.laws ToyLib.toy
              ToyExport.edge ToyExport.namespaces "DFW" ToyExport.job ToyExport.msg ToyExport.msg_ok) as ((m & Hm & Ha) & Hg).
  split; [vm_compute; reflexivity|]. split.
  - specialize (Hg eq_refl). rewrite Hg; [reflexivity|discriminate|reflexivity| |reflexivity].
    by apply (bool_decide_unpack _).
  - exists m. split; [exact Hm|]. destruct (Ha 7%Z ToyExport.matched "s" []) as (Ht & _). rewrite Ht.
    vm_compute. reflexivity.
Defined.
