(* ===== verification/Nkeys.v ===== *)
(** * internal/nkeygenerator and internal/natsconn: who may connect

    Edge clusters publish their events over NATS leaf connections.  The
    generator ([nkeygenerator/generator.go]) gives each enabled cluster a key
    and rewrites the list of users of the hub's ACTIVITY account, each with
    the subjects it may publish to and subscribe to; an endpoint
    ([natsconn/endpoint.go]) is the server and the TLS files of a connection.
    The Karmada and Kubernetes APIs are a state [W] behind their calls; a sync
    returns the calls it made with their answers. *)

From Stdlib Require Import Ascii String.
From stdpp Require Import base numbers list strings gmap pretty.
From Stdlib Require Import ZArith Lia.
From S2P Require Import Prelude GoLib Calls Types CelPolicy.

(* ------------------------------------------------------------------ *)
(** ** natsconn/endpoint.go *)

Record TLSFiles := { tls_Enabled : bool; CertFile : string; KeyFile : string; CAFile : string }.

Definition tls_IsZero (t : TLSFiles) : bool :=
  (negb (tls_Enabled t) && (CertFile t =? "") && (KeyFile t =? "") && (CAFile t =? ""))%string%bool.

Definition tls_InheritFrom (t base : TLSFiles) : TLSFiles :=
  if tls_IsZero t then base
  else
    let other a b := if (a =? "")%string then b else a in
    {| tls_Enabled := tls_Enabled t; CertFile := other (CertFile t) (CertFile base);
       KeyFile := other (KeyFile t) (KeyFile base); CAFile := other (CAFile t) (CAFile base) |}.

(** [tls.Config]: the client's certificate and the roots, if any. *)
Record TLSConfig := { MinVersion : string; Certificates : list string; RootCAs : option string }.

(** The files: [tls.LoadX509KeyPair], [os.ReadFile], [AppendCertsFromPEM]. *)
Class TLSLib := {
  LoadX509KeyPair : string -> string -> error + string;
  ReadFile : string -> error + string;
  CertsFromPEM : string -> option string }.

Definition tls_Config `{TLSLib} (t : TLSFiles) : error + TLSConfig :=
  let failed rest := inl (Errorf ([PStr "failed to load NATS client certificate: "] ++ rest)) in
  let certificates :=
    if (negb (CertFile t =? "") && negb (KeyFile t =? ""))%string%bool then
      match LoadX509KeyPair (CertFile t) (KeyFile t) with
      | inl e => failed [PWrap e]
      | inr cert => inr [cert]
      end
    else if negb (CertFile t =? "")%string
    then failed [PStr "no key file configured for "; PStr (CertFile t)]
    else if negb (KeyFile t =? "")%string
    then failed [PStr "no certificate file configured for "; PStr (KeyFile t)]
    else inr [] in
  match certificates with
  | inl e => inl e
  | inr certs =>
      let config roots := inr {| MinVersion := "TLS12"; Certificates := certs; RootCAs := roots |} in
      if (CAFile t =? "")%string then config None
      else match ReadFile (CAFile t) with
           | inl e => inl (Errorf [PStr "failed to read NATS CA certificate: "; PWrap e])
           | inr pem => match CertsFromPEM pem with
                        | None => inl (Errorf [PStr "failed to parse NATS CA certificate"])
                        | Some pool => config (Some pool)
                        end
           end
  end.

Record Endpoint := { ep_URL : string; ep_TLS : TLSFiles }.
Definition endpoint_IsSet (e : Endpoint) : bool := negb (ep_URL e =? "")%string.

(** What the callers of this repository ask of a connection, their callbacks
    apart. *)
Inductive nats_setting :=
| RetryOnFailedConnect | MaxReconnects (n : Z) | ReconnectWait (d : Z) | ReconnectJitter (d tls : Z)
| CustomInboxPrefix (prefix : string).
(** [options]: the caller's options between the name and the TLS. *)
Inductive nats_option (Extra : Type) := OptName (n : string) | OptExtra (x : Extra) | OptSecure (c : TLSConfig).
Arguments OptName {Extra}. Arguments OptExtra {Extra}. Arguments OptSecure {Extra}.
Definition endpoint_options `{TLSLib} {Extra} (e : Endpoint) (name : string) (extra : list Extra)
  : error + list (nats_option Extra) :=
  let opts := OptName name :: map OptExtra extra in
  if tls_Enabled (ep_TLS e) then
    match tls_Config (ep_TLS e) with
    | inl err => inl (Errorf [PStr "failed to build NATS TLS config: "; PWrap err])
    | inr c => inr (opts ++ [OptSecure c])
    end
  else inr opts.

(* ------------------------------------------------------------------ *)
(** ** nkeygenerator/generator.go: users *)

(** A JSON object. *)
Definition jmap (kvs : list (string * any)) : gomap := list_to_map kvs.

Definition toAny (ss : list string) : any := AList (map AStr ss).
Definition connTypeStandard : string := "STANDARD".
Definition connTypeLeafnode : string := "LEAFNODE".

Definition userEntry (identity : gmap string string) (connTypes publish subscribe : list string) : gomap :=
  (AStr <$> identity)
  ∪ jmap [("allowed_connection_types", toAny connTypes);
          ("permissions", AMap (jmap [("publish", AMap (jmap [("allow", toAny publish)]));
                                      ("subscribe", AMap (jmap [("allow", toAny subscribe)]))]))].

Definition staticUsers : list gomap := [
  userEntry {["user" := "CN=nack.nats.client"]} [connTypeStandard] [">"] [">"];
  userEntry {["user" := "CN=activity-processor-nats-client"]} [connTypeStandard]
    ["$JS.API.>"; "$JS.ACK.>"] ["_INBOX.>"] ].

Definition nkeyUser (subjectPrefix cluster publicKey : string) : gomap :=
  userEntry {["nkey" := publicKey]} [connTypeLeafnode]
    [EventSubjectGrant subjectPrefix cluster] [EventInboxGrant cluster].

(** [strings.CutPrefix] and [strings.CutSuffix]. *)
Definition CutPrefix (s p : string) : option string :=
  if HasPrefix s p then Some (drop_str (String.length p) s) else None.
Definition CutSuffix (s t : string) : option string :=
  let n := (String.length s - String.length t)%nat in
  if (Nat.leb (String.length t) (String.length s) && (drop_str n s =? t)%string)%bool then Some (take_str n s) else None.

Definition as_list (v : option any) : option (list any) := match v with Some (AList l) => Some l | _ => None end.

Definition cluster_of_subject (subjectPrefix : string) (s : any) : option string :=
  match as_string (Some s) with
  | None => None
  | Some subj => match CutPrefix subj (subjectPrefix +:+ ".") with
                 | None => None
                 | Some rest => CutSuffix rest ".*"
                 end
  end.
Definition clusterFromUser (u : gomap) (subjectPrefix fallback : string) : string :=
  match as_map (u !! "permissions") with
  | None => fallback
  | Some perms =>
      match as_map (perms !! "publish") with
      | None => fallback
      | Some publish =>
          match as_list (publish !! "allow") with
          | None => fallback
          | Some allow => default fallback (first_some (cluster_of_subject subjectPrefix) allow)
          end
      end
  end.

(* ------------------------------------------------------------------ *)
(** ** nkeygenerator/generator.go: the calls *)

Record NkeyConfig := {
  nk_Namespace : string; nk_SecretPrefix : string; nk_ConfigMapName : string;
  nk_SecretStoreName : string; nk_SecretStoreKind : string; nk_SubjectPrefix : string }.

Inductive resource := Secrets | ConfigMaps | PushSecrets.

(** The calls a sync makes, with their answers. *)
Inductive hub_call :=
| QListClusters (selector : string) (r : error + list string)
| QGetSecret (name : string) (r : error + gmap string string)
| QGet (k : resource) (name : string) (r : error + gomap)
| QCreate (k : resource) (obj : gomap) (r : option error)
| QUpdate (k : resource) (obj : gomap) (r : option error).

(** The API clients and the libraries.  [get_secret] is the typed client,
    which decodes the data; [CreateUser] makes a key pair, which gives its seed
    and its public key. *)
Class HubIO (W : Type) := {
  nkey_pair : Type;
  hub_NotFound : error -> bool;        (* the reason of a status error *)
  hub_AlreadyExists : error -> bool;
  list_clusters : string -> W -> (error + list string) * W;
  get_secret : string -> string -> W -> (error + gmap string string) * W;
  dyn_get : resource -> string -> string -> W -> (error + gomap) * W;
  dyn_create : resource -> string -> gomap -> W -> option error * W;
  dyn_update : resource -> string -> gomap -> W -> option error * W;
  CreateUser : W -> (error + nkey_pair) * W;
  kp_Seed : nkey_pair -> error + string;
  kp_PublicKey : nkey_pair -> error + string;
  yaml_Marshal : gomap -> error + string;
  yaml_Unmarshal_users : string -> error + list gomap  (* config.merge.accounts.ACTIVITY.users *) }.

(** [errors.As] to a status error. *)
Fixpoint caused_by (p : error -> bool) (e : error) : bool :=
  match e with
  | Errorf ps => List.existsb (fun x => match x with PWrap e' => caused_by p e' | _ => false end) ps
  | _ => p e
  end.

Abbreviation N := (Calls hub_call).

Section Generator.
Context {W : Type} `{HubIO W} (cfg : NkeyConfig).

Definition api_IsNotFound (e : error) : bool := caused_by hub_NotFound e.

Definition clusterLabel : string := "activity.miloapis.com/nats-leaf".
Definition clusterLabelValue : string := "enabled".

Definition enabledClusters : N W (list string) :=
  let selector := clusterLabel +:+ "=" +:+ clusterLabelValue in
  nask (list_clusters selector) (fun r => [QListClusters selector r]).

Definition ask_secret (name : string) : N W (gmap string string) :=
  nask (get_secret (nk_Namespace cfg) name) (fun r => [QGetSecret name r]).
Definition ask (k : resource) (name : string) : N W gomap :=
  nask (dyn_get k (nk_Namespace cfg) name) (fun r => [QGet k name r]).
Definition create (k : resource) (obj : gomap) : N W unit :=
  ndo (dyn_create k (nk_Namespace cfg) obj) (QCreate k obj).
Definition update (k : resource) (obj : gomap) : N W unit :=
  ndo (dyn_update k (nk_Namespace cfg) obj) (QUpdate k obj).

(** The key a secret holds. *)
Definition secret_public (data : gmap string string) : string :=
  let pub := default "" (data !! "public") in
  if (pub =? "")%string then default "" (data !! "nkey") else pub.

Definition storedPublicKey (secretName : string) : N W string :=
  try! data := ask_secret secretName or (fun e => nfail (wrap_with ("get secret " +:+ secretName +:+ ": ") e)) in
  if (secret_public data =? "")%string
  then nfail (Errorf [PStr "secret "; PStr secretName; PStr " exists but has no public key"])
  else nret (secret_public data).

(** [obj.SetResourceVersion(existing.GetResourceVersion())] *)
Definition with_version (obj existing : gomap) : gomap :=
  let metadata := default ∅ (as_map (obj !! "metadata")) in
  <["metadata" := AMap (<["resourceVersion" := AStr (ExtractString existing ["metadata"; "resourceVersion"])]> metadata)]> obj.

(** Update the object of that name, or create it. *)
Definition upsert (k : resource) (what name : string) (obj : gomap) : N W unit :=
  try! existing := ask k name or (fun e => if api_IsNotFound e then create k obj
                                           else nfail (wrap_with ("get " +:+ what +:+ " " +:+ name +:+ ": ") e)) in
  update k (with_version obj existing).

Definition push_secret (secretName : string) : gomap :=
  jmap [("apiVersion", AStr "external-secrets.io/v1alpha1"); ("kind", AStr "PushSecret");
        ("metadata", AMap (jmap [("name", AStr secretName); ("namespace", AStr (nk_Namespace cfg))]));
        ("spec", AMap (jmap [
           ("updatePolicy", AStr "Replace"); ("deletionPolicy", AStr "None"); ("refreshInterval", AStr "1h");
           ("secretStoreRefs", AList [AMap (jmap [("name", AStr (nk_SecretStoreName cfg));
                                                  ("kind", AStr (nk_SecretStoreKind cfg))])]);
           ("selector", AMap (jmap [("secret", AMap (jmap [("name", AStr secretName)]))]));
           ("data", AList [AMap (jmap [("match", AMap (jmap [("remoteRef",
                              AMap (jmap [("remoteKey", AStr secretName)]))]))])])]))].
Definition ensurePushSecret (secretName : string) : N W unit :=
  upsert PushSecrets "pushsecret" secretName (push_secret secretName).

Definition generateNKey : N W (string * string) :=
  get! kp := nask CreateUser (fun _ => []) in
  get! seed := nlift (kp_Seed kp) in
  get! public := nlift (kp_PublicKey kp) in
  nret (seed, public).

Definition secretName (cluster : string) : string := nk_SecretPrefix cfg +:+ "-" +:+ cluster.
Definition seed_secret (cluster seed public : string) : gomap :=
  jmap [("apiVersion", AStr "v1"); ("kind", AStr "Secret");
        ("metadata", AMap (jmap [("name", AStr (secretName cluster)); ("namespace", AStr (nk_Namespace cfg));
           ("labels", AMap (jmap [(clusterLabel, AStr clusterLabelValue);
                                  ("activity.miloapis.com/cluster", AStr cluster)]))]));
        ("type", AStr "Opaque");
        ("stringData", AMap (jmap [("seed", AStr seed); ("public", AStr public); ("nkey", AStr public)]))].

(** A secret that is not there yet: a new key, or that of a racing writer. *)
Definition provision (cluster : string) : N W string :=
  let name := secretName cluster in
  try! kp := generateNKey or (fun e => nfail (wrap_with ("generate nkey for " +:+ cluster +:+ ": ") e)) in
  let (seed, public) := kp : string * string in
  try! _ := create Secrets (seed_secret cluster seed public)
    or (fun e => if caused_by hub_AlreadyExists e then storedPublicKey name
                 else nfail (wrap_with ("create secret " +:+ name +:+ ": ") e)) in
  nret public.

Definition ensureKey (cluster : string) : N W string :=
  let name := secretName cluster in
  get! pub := ntry (storedPublicKey name)
                (fun e => if api_IsNotFound e then provision cluster else nfail e) nret in
  get! _ := ensurePushSecret name in
  nret pub.

(* ------------------------------------------------------------------ *)
(** ** nkeygenerator/generator.go: the list *)

Definition user_nkey (u : gomap) : option string := as_string (u !! "nkey").

Fixpoint droppedNkeys (prev next : list gomap) : N W (list string) :=
  match prev with
  | [] => nret []
  | u :: prev' =>
      match user_nkey u with
      | Some pub =>
          if bool_decide (pub ∈ omap user_nkey next) then droppedNkeys prev' next
          else
            let cluster := clusterFromUser u (nk_SubjectPrefix cfg) pub in
            let name := secretName cluster in
            get! gone := ntry (ask_secret name)
                           (fun e => if api_IsNotFound e then nret []
                                     else nfail (wrap_with ("checking secret " +:+ name +:+ " for dropped cluster "
                                                            +:+ cluster +:+ ": ") e))
                           (fun _ => nret [cluster]) in
            get! rest := droppedNkeys prev' next in
            nret (gone ++ rest)
      | None => droppedNkeys prev' next
      end
  end.

Definition users_of_configmap (obj : gomap) : list gomap :=
  match as_map (obj !! "data") ≫= (fun d => as_string (d !! "values.yaml")) with
  | None => []
  | Some raw => match yaml_Unmarshal_users raw with inl _ => [] | inr users => users end
  end.
Definition previousUsers (name : string) : N W (list gomap) :=
  try! obj := ask ConfigMaps name
    or (fun e => if api_IsNotFound e then nret [] else nfail (wrap_with ("get configmap " +:+ name +:+ ": ") e)) in
  nret (users_of_configmap obj).

Definition values_doc (users : list gomap) : gomap :=
  jmap [("config", AMap (jmap [("merge", AMap (jmap [("accounts", AMap (jmap [("ACTIVITY",
     AMap (jmap [("jetstream", AStr "enabled"); ("users", AList (map AMap users))]))]))]))]))].
Definition config_map (values : string) : gomap :=
  jmap [("apiVersion", AStr "v1"); ("kind", AStr "ConfigMap");
        ("metadata", AMap (jmap [("name", AStr (nk_ConfigMapName cfg)); ("namespace", AStr (nk_Namespace cfg));
           ("labels", AMap (jmap [("reconcile.fluxcd.io/watch", AStr "Enabled")]))]));
        ("data", AMap (jmap [("values.yaml", AStr values)]))].

Definition writeConfigMap (users : list gomap) : N W unit :=
  get! prev := previousUsers (nk_ConfigMapName cfg) in
  get! dropped := droppedNkeys prev users in
  match dropped with
  | _ :: _ => nfail (Errorf [PStr "refusing to write authorized-leafs: cluster(s) ["; PStr (String.concat " " dropped);
                             PStr "] would be dropped but their nkey Secret "; PStr (nk_SecretPrefix cfg);
                             PStr "-<cluster> still exists (delete it once the cluster decommission is confirmed, then retry)"])
  | [] =>
      try! values := nlift (yaml_Marshal (values_doc users))
        or (fun e => nfail (wrap_with "marshal values.yaml: " e)) in
      upsert ConfigMaps "configmap" (nk_ConfigMapName cfg) (config_map values)
  end.

(** The loop over the clusters; an invalid name is skipped. *)
Fixpoint provision_all (clusters : list string) : N W (list gomap) :=
  match clusters with
  | [] => nret []
  | name :: rest =>
      if negb (ValidClusterName name) then provision_all rest
      else
        get! pub := ensureKey name in
        get! users := provision_all rest in
        nret (nkeyUser (nk_SubjectPrefix cfg) name pub :: users)
  end.

Definition sync : N W unit :=
  try! clusters := enabledClusters or (fun e => nfail (wrap_with "list karmada clusters: " e)) in
  get! leafs := provision_all clusters in
  let users := staticUsers ++ leafs in
  match users with
  | [] => nfail (Errorf [PStr "refusing to write an empty authorized-leafs users list"])
  | _ => writeConfigMap users
  end.
End Generator.

(* ------------------------------------------------------------------ *)
(** ** Lemmas: what a sync logs *)

Section SyncLemmas.
Context {W : Type} `{HubIO W} (cfg : NkeyConfig).

(** A write of the list of users, and the text it writes. *)
Definition written_values (c : hub_call) : option string :=
  match c with
  | QCreate ConfigMaps obj _ | QUpdate ConfigMaps obj _ =>
      as_map (obj !! "data") ≫= (fun d => as_string (d !! "values.yaml"))
  | _ => None
  end.
Definition config_write (c : hub_call) : bool :=
  match c with QCreate ConfigMaps _ _ | QUpdate ConfigMaps _ _ => true | _ => false end.
Definition quiet (l : list hub_call) : Prop := Forall (fun c => config_write c = false) l.

Definition key_of (log : list hub_call) (cluster pub : string) : Prop :=
  (exists data, QGetSecret (secretName cfg cluster) (inr data) ∈ log /\ secret_public data = pub /\ pub <> "")
  \/ (exists seed, QCreate Secrets (seed_secret cfg cluster seed pub) None ∈ log).

(** A secret is only created after it was found missing. *)
Definition creates_missing (l : list hub_call) : Prop :=
  forall obj r, QCreate Secrets obj r ∈ l ->
  exists cluster seed pub e, obj = seed_secret cfg cluster seed pub /\ ValidClusterName cluster = true
    /\ api_IsNotFound e = true /\ QGetSecret (secretName cfg cluster) (inl e) ∈ l.

Lemma quiet_app l l' : quiet (l ++ l') <-> quiet l /\ quiet l'.
Proof. apply Forall_app. Qed.
Lemma key_of_mono l l' cluster pub : l ⊆ l' -> key_of l cluster pub -> key_of l' cluster pub.
Proof. intros Hs [(d & Hd & ?)|(s & Hs')]; [left; exists d|right; exists s]; auto. Qed.
Lemma creates_missing_app l l' : creates_missing l -> creates_missing l' -> creates_missing (l ++ l').
Proof.
  intros Hl Hl' obj r [Hin|Hin]%elem_of_app; [destruct (Hl _ _ Hin) as (c & s & p & e & ? & ? & ? & ?)
    |destruct (Hl' _ _ Hin) as (c & s & p & e & ? & ? & ? & ?)]; exists c, s, p, e; rewrite elem_of_app; auto.
Qed.

(** Of the calls on secrets, only reads. *)
Definition reads_only (l : list hub_call) : Prop :=
  Forall (fun c => match c with QCreate Secrets _ _ => False | _ => True end) l.
Lemma reads_only_missing l : reads_only l -> creates_missing l.
Proof. intros Hr obj r Hin. by eapply Forall_forall in Hr; [|exact Hin]. Qed.

Ltac log_step Hr := apply ntry_inv in Hr as (?a & ?l & ?w & ?l & ?E & Hr & ->).
Ltac log_ret Hr := unfold nret, nfail, nlift in Hr; injection Hr as <- <- <-.

Lemma storedPublicKey_log name w r l w' :
  storedPublicKey cfg name w = (r, l, w') ->
  quiet l /\ reads_only l
  /\ match r with
     | inr pub => exists data, QGetSecret name (inr data) ∈ l /\ secret_public data = pub /\ pub <> ""
     | inl e => api_IsNotFound e = true -> exists e', api_IsNotFound e' = true /\ QGetSecret name (inl e') ∈ l
     end.
Proof.
  intros Hr. log_step Hr. unfold ask_secret, nask in E.
  destruct (get_secret (nk_Namespace cfg) name w) as [g w2]. injection E as <- <- <-. destruct g as [e|data].
  - log_ret Hr. split; [by repeat constructor|]. split; [by repeat constructor|].
    unfold api_IsNotFound, wrap_with. cbn. rewrite !orb_false_r. intros He. exists e. split; [done|set_solver].
  - destruct (String.eqb_spec (secret_public data) "") as [|Hne]; log_ret Hr;
      (split; [by repeat constructor|]; split; [by repeat constructor|]).
    + unfold api_IsNotFound. done.
    + exists data. split; [set_solver|done].
Qed.

Lemma ndo_log (f : W -> option error * W) (c : option error -> hub_call) w r l w' : ndo f c w = (r, l, w') -> exists x, l = [c x].
Proof. unfold ndo. destruct (f w) as [x w2]. intros [= _ <- _]. by exists x. Qed.

Lemma upsert_push_log what name obj w r l w' :
  upsert cfg PushSecrets what name obj w = (r, l, w') -> quiet l /\ reads_only l.
Proof.
  intros Hr. log_step Hr. unfold ask, nask in E. destruct (dyn_get _ _ _ w) as [g w2]. injection E as <- <- <-.
  rewrite quiet_app. unfold reads_only. rewrite Forall_app.
  destruct g as [e|existing]; [destruct (api_IsNotFound e)|].
  - apply ndo_log in Hr as [x ->]. split_and!; by repeat constructor.
  - log_ret Hr. split_and!; by repeat constructor.
  - apply ndo_log in Hr as [x ->]. split_and!; by repeat constructor.
Qed.

Lemma generateNKey_log w r l w' : generateNKey w = (r, l, w') -> l = [].
Proof.
  intros Hr. log_step Hr. unfold nask in E. destruct (CreateUser w) as [kp w2]. injection E as <- <- <-.
  destruct kp as [e|kp]; [by log_ret Hr|]. log_step Hr. unfold nlift in E. injection E as <- <- <-.
  destruct (kp_Seed kp); [by log_ret Hr|]. log_step Hr. unfold nlift in E. injection E as <- <- <-.
  destruct (kp_PublicKey kp); by log_ret Hr.
Qed.

(** What provisioning adds to the log: at most one creation. *)
Lemma provision_log cluster w r l w' :
  provision cfg cluster w = (r, l, w') ->
  quiet l
  /\ (forall obj x, QCreate Secrets obj x ∈ l -> exists seed pub, obj = seed_secret cfg cluster seed pub)
  /\ match r with inr pub => key_of l cluster pub | inl _ => True end.
Proof.
  intros Hr. log_step Hr. apply generateNKey_log in E as ->. rewrite app_nil_l. destruct a as [e|[seed pub]].
  { log_ret Hr. split_and!; [by constructor|by intros ?? ?%elem_of_nil|done]. }
  log_step Hr. unfold create in E. unfold ndo in E. destruct (dyn_create _ _ _ w0) as [x w2]. injection E as <- <- <-.
  assert (quiet [QCreate Secrets (seed_secret cfg cluster seed pub) x]) as Hq by by repeat constructor.
  destruct x as [e|].
  - destruct (caused_by hub_AlreadyExists e).
    + apply storedPublicKey_log in Hr as (Hq' & Hro & Hk). split; [by apply quiet_app|]. split.
      * intros obj y [Hin%list_elem_of_singleton|Hin]%elem_of_app; [injection Hin as -> ->; by exists seed, pub|].
        by eapply Forall_forall in Hro; [|exact Hin].
      * destruct r as [|pub']; [done|]. destruct Hk as (data & Hd & ?). left. exists data. split; [set_solver|done].
    + log_ret Hr. split; [done|]. split; [|done].
      intros obj y Hin%list_elem_of_singleton. injection Hin as -> ->. by exists seed, pub.
  - log_ret Hr. split; [done|]. split.
    + intros obj y Hin%list_elem_of_singleton. injection Hin as -> ->. by exists seed, pub.
    + right. exists seed. set_solver.
Qed.

Lemma ensureKey_log cluster w r l w' :
  ValidClusterName cluster = true -> ensureKey cfg cluster w = (r, l, w') ->
  quiet l /\ creates_missing l /\ match r with inr pub => key_of l cluster pub | inl _ => True end.
Proof.
  intros Hv Hr. log_step Hr.
  assert (quiet l0 /\ creates_missing l0 /\ match a with inr pub => key_of l0 cluster pub | inl _ => True end)
    as (Hq & Hc & Hk).
  { log_step E. apply storedPublicKey_log in E0 as (Hq & Hro & Hk). destruct a0 as [e|pub].
    - destruct (api_IsNotFound e) eqn:En; [|log_ret E; rewrite app_nil_r; split_and!; auto using reads_only_missing].
      apply provision_log in E as (Hq' & Hcr & Hk'). destruct (Hk eq_refl) as (e' & He' & Hin). split_and!.
      + by apply quiet_app.
      + intros obj x [Hobj|Hobj]%elem_of_app; [by eapply Forall_forall in Hro; [|exact Hobj]|].
        destruct (Hcr _ _ Hobj) as (seed & pub & ->). exists cluster, seed, pub, e'. split_and!; [done..|set_solver].
      + destruct a; [done|]. eapply key_of_mono; [|exact Hk']. set_solver.
    - log_ret E. rewrite app_nil_r. split_and!; [done|by apply reads_only_missing|by left]. }
  destruct a as [e|pub].
  { log_ret Hr. by rewrite app_nil_r. }
  log_step Hr. apply upsert_push_log in E0 as [Hq' Hro'].
  assert (forall l', quiet l' -> reads_only l' ->
    quiet (l0 ++ l') /\ creates_missing (l0 ++ l') /\ key_of (l0 ++ l') cluster pub) as Hall.
  { intros l' H1 H2. split_and!; [by apply quiet_app|by apply creates_missing_app; [|apply reads_only_missing]|].
    eapply key_of_mono; [|exact Hk]. set_solver. }
  destruct a as [e|[]]; log_ret Hr; rewrite app_nil_r; destruct (Hall l Hq' Hro') as (? & ? & ?); by split_and!.
Qed.

Definition valid_clusters (clusters : list string) : list string :=
  List.filter ValidClusterName clusters.

Lemma provision_all_log clusters : forall w r l w',
  provision_all cfg clusters w = (r, l, w') ->
  quiet l /\ creates_missing l
  /\ match r with
     | inr users => exists pubs, Forall2 (key_of l) (valid_clusters clusters) pubs
         /\ users = zip_with (nkeyUser (nk_SubjectPrefix cfg)) (valid_clusters clusters) pubs
     | inl _ => True
     end.
Proof.
  induction clusters as [|c clusters IH]; intros w r l w' Hr; cbn [provision_all] in Hr.
  { log_ret Hr. split_and!; [constructor|by intros ?? ?%elem_of_nil|by exists []]. }
  unfold valid_clusters. cbn [List.filter]. destruct (ValidClusterName c) eqn:Hv; cbn [negb] in Hr; [|by apply IH in Hr].
  log_step Hr. apply ensureKey_log in E as (Hq & Hc & Hk); [|done]. destruct a as [e|pub].
  { log_ret Hr. rewrite app_nil_r. by split_and!. }
  log_step Hr. apply IH in E as (Hq' & Hc' & Hus). destruct a as [e|users].
  { log_ret Hr. rewrite app_nil_r. split_and!; [by apply quiet_app|by apply creates_missing_app|done]. }
  log_ret Hr. rewrite app_nil_r. split_and!; [by apply quiet_app|by apply creates_missing_app|].
  destruct Hus as (pubs & Hf & ->). exists (pub :: pubs). split; [|done]. constructor.
  - eapply key_of_mono; [|exact Hk]. set_solver.
  - eapply Forall2_impl; [exact Hf|]. intros x y Hxy. eapply key_of_mono; [|exact Hxy]. set_solver.
Qed.

(** Every user whose key is gone has no secret any more. *)
Definition guarded (l : list hub_call) (prev next : list gomap) : Prop :=
  forall u pub, u ∈ prev -> user_nkey u = Some pub ->
  pub ∈ omap user_nkey next
  \/ exists e, api_IsNotFound e = true
      /\ QGetSecret (secretName cfg (clusterFromUser u (nk_SubjectPrefix cfg) pub)) (inl e) ∈ l.

Lemma droppedNkeys_log prev next : forall w r l w',
  droppedNkeys cfg prev next w = (r, l, w') ->
  quiet l /\ reads_only l /\ match r with inr [] => guarded l prev next | _ => True end.
Proof.
  induction prev as [|u prev IH]; intros w r l w' Hr; cbn [droppedNkeys] in Hr.
  { log_ret Hr. split_and!; [constructor|constructor|by intros ?? ?%elem_of_nil]. }
  assert (forall l0 l1, l1 ⊆ l0 -> guarded l1 prev next ->
    (forall pub, user_nkey u = Some pub -> pub ∈ omap user_nkey next \/ exists e, api_IsNotFound e = true
      /\ QGetSecret (secretName cfg (clusterFromUser u (nk_SubjectPrefix cfg) pub)) (inl e) ∈ l0) ->
    guarded l0 (u :: prev) next) as Hcons.
  { intros l0 l1 Hl Hg Hu x pub [->|Hx]%elem_of_cons Hp; [by apply Hu|].
    destruct (Hg x pub Hx Hp) as [|(e & ? & ?)]; [by left|right; exists e; auto]. }
  destruct (user_nkey u) as [pub|] eqn:Eu; [case_bool_decide as Hin|].
  - apply IH in Hr as (Hq & Hro & Hg). split_and!; [done..|]. destruct r as [|[|]]; try done.
    eapply Hcons; [reflexivity|exact Hg|]. intros p [= <-]. by left.
  - log_step Hr. log_step E. unfold ask_secret, nask in E0.
    destruct (get_secret _ _ w) as [g wg]. injection E0 as <- <- <-.
    set (name := secretName cfg (clusterFromUser u (nk_SubjectPrefix cfg) pub)) in *.
    assert (quiet [QGetSecret name g] /\ reads_only [QGetSecret name g]) as [Hq1 Hro1] by (split; by repeat constructor).
    assert (l2 = [] /\ (a = inr [] -> exists e, g = inl e /\ api_IsNotFound e = true)) as [-> Hgone].
    { destruct g as [e|d]; [destruct (api_IsNotFound e) eqn:En|]; log_ret E; split; try done. intros _. by exists e. }
    rewrite app_nil_r. destruct a as [e|gone].
    { log_ret Hr. rewrite app_nil_r. by split_and!. }
    log_step Hr. apply IH in E0 as (Hq & Hro & Hg). destruct a as [e|rest].
    { log_ret Hr. rewrite app_nil_r. split_and!; [by apply quiet_app|by apply Forall_app|done]. }
    log_ret Hr. rewrite app_nil_r. split_and!; [by apply quiet_app|by apply Forall_app|].
    destruct gone, rest; try done. destruct (Hgone eq_refl) as (e & -> & He).
    eapply Hcons; [|exact Hg|]; [set_solver|]. intros p [= <-]. right. exists e. split; [done|set_solver].
  - apply IH in Hr as (Hq & Hro & Hg). split_and!; [done..|]. destruct r as [|[|]]; try done.
    eapply Hcons; [reflexivity|exact Hg|done].
Qed.

(** The list of users that was read before a write. *)
Definition read_users (l : list hub_call) (prev : list gomap) : Prop :=
  exists g, QGet ConfigMaps (nk_ConfigMapName cfg) g ∈ l
  /\ match g with inr obj => prev = users_of_configmap obj | inl e => api_IsNotFound e = true /\ prev = [] end.

Definition accepted (c : hub_call) : Prop :=
  match c with QCreate _ _ x | QUpdate _ _ x => x = None | _ => False end.

(** A write of [users] after [before]. *)
Definition writes_users (before : list hub_call) (c : hub_call) (users : list gomap) : Prop :=
  config_write c = true
  /\ (exists values, written_values c = Some values /\ yaml_Marshal (values_doc users) = inr values)
  /\ exists prev, read_users before prev /\ guarded before prev users.

Lemma ask_log k name w r l w' : ask cfg k name w = (r, l, w') -> l = [QGet k name r].
Proof. unfold ask, nask. destruct (dyn_get _ _ _ w). by intros [= <- <- <-]. Qed.

Lemma previousUsers_log w r l w' :
  previousUsers cfg (nk_ConfigMapName cfg) w = (r, l, w') ->
  quiet l /\ reads_only l /\ match r with inr prev => read_users l prev | inl _ => True end.
Proof.
  intros Hr. log_step Hr. apply ask_log in E as ->.
  assert (quiet [QGet ConfigMaps (nk_ConfigMapName cfg) a] /\ reads_only [QGet ConfigMaps (nk_ConfigMapName cfg) a])
    as [Hq Hro] by (split; by repeat constructor).
  destruct a as [e|obj]; [destruct (api_IsNotFound e) eqn:En|]; log_ret Hr; rewrite app_nil_r; split_and!; try done;
    eexists; (split; [apply list_elem_of_singleton; reflexivity|done]).
Qed.

Lemma written_config values : written_values (QCreate ConfigMaps (config_map cfg values) None) = Some values.
Proof. reflexivity. Qed.
Lemma written_version values existing :
  written_values (QUpdate ConfigMaps (with_version (config_map cfg values) existing) None) = Some values.
Proof. cbn [written_values]. unfold with_version. by rewrite lookup_insert_ne by done. Qed.

Lemma ndo_ret (f : W -> option error * W) (c : option error -> hub_call) w r l w' :
  ndo f c w = (r, l, w') -> exists x, l = [c x] /\ (r = inr tt <-> x = None).
Proof. unfold ndo. destruct (f w) as [[e|] w2]; intros [= <- <- _]; eexists; (split; [done|]); by split. Qed.

(** The write itself, the last call. *)
Lemma upsert_config_log values w r l w' :
  upsert cfg ConfigMaps "configmap" (nk_ConfigMapName cfg) (config_map cfg values) w = (r, l, w') ->
  (quiet l /\ reads_only l /\ r <> inr tt)
  \/ exists before c, l = before ++ [c] /\ quiet before /\ reads_only before /\ config_write c = true
     /\ written_values c = Some values /\ (r = inr tt <-> accepted c).
Proof.
  intros Hr. log_step Hr. apply ask_log in E as ->.
  assert (quiet [QGet ConfigMaps (nk_ConfigMapName cfg) a] /\ reads_only [QGet ConfigMaps (nk_ConfigMapName cfg) a])
    as [Hq Hro] by (split; by repeat constructor).
  destruct a as [e|obj]; [destruct (api_IsNotFound e)|].
  - right. apply ndo_ret in Hr as (x & -> & Hx). eexists _, _. split; [done|]. split_and!; try done; by apply Hx.
  - left. log_ret Hr. rewrite app_nil_r. by split_and!.
  - right. apply ndo_ret in Hr as (x & -> & Hx). eexists _, _. split; [done|].
    split_and!; try done; first [by apply Hx|apply (written_version values obj)].
Qed.

Lemma writeConfigMap_log users w r l w' :
  writeConfigMap cfg users w = (r, l, w') ->
  (quiet l /\ reads_only l /\ r <> inr tt)
  \/ exists before c, l = before ++ [c] /\ quiet before /\ reads_only before /\ writes_users before c users
     /\ (r = inr tt <-> accepted c).
Proof.
  intros Hr. log_step Hr. apply previousUsers_log in E as (Hq & Hro & Hprev). destruct a as [e|prev].
  { log_ret Hr. rewrite app_nil_r. left. by split_and!. }
  log_step Hr. apply droppedNkeys_log in E as (Hq1 & Hro1 & Hg).
  assert (forall l', quiet l' -> reads_only l' -> quiet (l0 ++ l' ++ []) /\ reads_only (l0 ++ l' ++ [])) as Hleft.
  { intros l' ? ?. rewrite app_nil_r. split; [by apply quiet_app|by apply Forall_app]. }
  destruct a as [e|[|d ds]]; [log_ret Hr; left; destruct (Hleft _ Hq1 Hro1); by split_and!| |
    log_ret Hr; left; destruct (Hleft _ Hq1 Hro1); by split_and!].
  log_step Hr. unfold nlift in E. injection E as <- <- <-. rewrite app_nil_l.
  destruct (yaml_Marshal (values_doc users)) as [e|values] eqn:Ey;
    [log_ret Hr; left; destruct (Hleft _ Hq1 Hro1); by split_and!|].
  apply upsert_config_log in Hr as [(Hq2 & Hro2 & Hr)|(before & c & -> & Hq2 & Hro2 & Hc & Hv & Hr)].
  - left. split_and!; [by rewrite !quiet_app|unfold reads_only; by rewrite !Forall_app|done].
  - right. eexists _, c. rewrite !(app_assoc _ _ [c]). split; [reflexivity|].
    split; [by rewrite !quiet_app|]. split; [unfold reads_only; by rewrite !Forall_app|]. split; [|done].
    split; [done|]. split; [by exists values|]. exists prev. split.
    + destruct Hprev as (g & Hg' & ?). exists g. split; [set_solver|done].
    + intros u pub Hu Hp. destruct (Hg u pub Hu Hp) as [|(e & ? & ?)]; [by left|right; exists e; split; [done|set_solver]].
Qed.
End SyncLemmas.

(* ------------------------------------------------------------------ *)
(** ** Theorems *)

Section SyncTheorems.
Context {W : Type} `{HubIO W} (cfg : NkeyConfig).

(** The users of the clusters, with the keys found or made for them. *)
Definition leaf_users (clusters pubs : list string) : list gomap :=
  staticUsers ++ zip_with (nkeyUser (nk_SubjectPrefix cfg)) (valid_clusters clusters) pubs.

(** Whatever the API calls answer, a sync writes the list of users at most
    once, as its last call, and succeeds exactly when that write is accepted.
    What it writes is the static users and one user per enabled cluster of
    usable name, in order, each with the key its secret was read to hold or
    was created with; and every key of the list it replaces is kept, or its
    secret was found deleted.  A secret is created only after it was found
    missing, so a stored seed is never replaced. *)
Theorem sync_guarded w r log w' :
  sync cfg w = (r, log, w') ->
  creates_missing cfg log
  /\ ((quiet log /\ r <> inr tt)
      \/ exists before c clusters pubs,
           log = before ++ [c] /\ quiet before /\ (r = inr tt <-> accepted c)
           /\ QListClusters (clusterLabel +:+ "=" +:+ clusterLabelValue) (inr clusters) ∈ before
           /\ Forall2 (key_of cfg before) (valid_clusters clusters) pubs
           /\ writes_users cfg before c (leaf_users clusters pubs)).
Proof.
  intros Hr. apply ntry_inv in Hr as (a & l & w1 & l1 & E & Hr & ->). unfold enabledClusters, nask in E.
  set (selector := clusterLabel +:+ "=" +:+ clusterLabelValue) in *.
  destruct (list_clusters selector w) as [g w2]. injection E as -> <- <-.
  assert (reads_only [QListClusters selector a] /\ quiet [QListClusters selector a]) as [Hro0 Hq0]
    by (split; by repeat constructor).
  destruct a as [e|clusters].
  { injection Hr as <- <- <-. rewrite app_nil_r. split; [by apply reads_only_missing|left; by split]. }
  apply ntry_inv in Hr as (a & lp & w3 & l3 & E & Hr & ->).
  apply provision_all_log in E as (Hq & Hc & Hus). destruct a as [e|users].
  { injection Hr as <- <- <-. rewrite app_nil_r.
    split; [by apply creates_missing_app; [apply reads_only_missing|]|]. left. split; [by apply quiet_app|done]. }
  destruct Hus as (pubs & Hf & ->). change (writeConfigMap cfg (leaf_users clusters pubs) w3 = (r, l3, w')) in Hr.
  apply writeConfigMap_log in Hr as [(Hq2 & Hro2 & Hr)|(before & c & -> & Hq2 & Hro2 & Hw & Hr)].
  - split; [|left; split; [rewrite !quiet_app; auto|done]].
    apply creates_missing_app; [by apply reads_only_missing|]. by apply creates_missing_app; [|apply reads_only_missing].
  - destruct Hw as (Hcw & Hv & prev & (x & Hx & Hxp) & Hg). split.
    + apply creates_missing_app; [by apply reads_only_missing|]. apply creates_missing_app; [done|].
      apply reads_only_missing, Forall_app. split; [done|]. by destruct c as [| | |[] |[]]; repeat constructor.
    + right. exists ([QListClusters selector (inr clusters)] ++ lp ++ before), c, clusters, pubs.
      split; [by rewrite <- !app_assoc|]. split; [rewrite !quiet_app; auto|]. split; [done|]. split; [set_solver|].
      split; [eapply Forall2_impl; [exact Hf|]; intros ? ?; apply key_of_mono; set_solver|].
      split; [done|]. split; [done|]. exists prev. split; [exists x; split; [set_solver|done]|].
      intros u pub Hu Hp. destruct (Hg u pub Hu Hp) as [|(e & ? & ?)]; [by left|right; exists e; split; [done|set_solver]].
Qed.
End SyncTheorems.

(** The grants of a user entry, and what they allow. *)
Definition grants (u : gomap) (what : string) : list string :=
  match as_map (u !! "permissions") ≫= (fun p => as_map (p !! what)) with
  | None => []
  | Some m => match as_list (m !! "allow") with Some l => omap (fun v => as_string (Some v)) l | None => [] end
  end.
Definition allows (u : gomap) (what subject : string) : bool :=
  List.existsb (fun g => subjectMatches g subject) (grants u what).
Definition connection_types (u : gomap) : option any := u !! "allowed_connection_types".

Lemma nkeyUser_grants prefix c pub :
  grants (nkeyUser prefix c pub) "publish" = [EventSubjectGrant prefix c]
  /\ grants (nkeyUser prefix c pub) "subscribe" = [EventInboxGrant c]
  /\ connection_types (nkeyUser prefix c pub) = Some (toAny [connTypeLeafnode])
  /\ user_nkey (nkeyUser prefix c pub) = Some pub.
Proof. split_and!; reflexivity. Qed.

Lemma CutSuffix_append (a t : string) : CutSuffix (a +:+ t) t = Some a.
Proof.
  unfold CutSuffix. rewrite length_append.
  replace (String.length a + String.length t - String.length t)%nat with (String.length a) by lia.
  rewrite drop_str_append, take_str_append, String.eqb_refl.
  by destruct (Nat.leb_spec (String.length t) (String.length a + String.length t)); [|lia].
Qed.

Lemma clusterFromUser_nkeyUser prefix c pub fallback : clusterFromUser (nkeyUser prefix c pub) prefix fallback = c.
Proof.
  transitivity (default fallback (cluster_of_subject prefix (AStr (EventSubjectGrant prefix c)))).
  { transitivity (default fallback (first_some (cluster_of_subject prefix) [AStr (EventSubjectGrant prefix c)])); [reflexivity|].
    cbn [first_some]. by destruct (cluster_of_subject prefix _). }
  unfold cluster_of_subject, EventSubjectGrant, CutPrefix. cbn [as_string].
  replace (prefix +:+ "." +:+ c +:+ ".*") with ((prefix +:+ ".") +:+ (c +:+ ".*")) by by rewrite append_assoc.
  by rewrite HasPrefix_append, drop_str_append, CutSuffix_append.
Qed.

(** C39: The users of two clusters of usable names are kept apart, whatever
    their keys: one may publish exactly its own cluster's event subjects and
    receive exactly its own cluster's replies, nothing of the JetStream API
    and nothing of the default inboxes; the processor's own user receives no
    cluster's replies; a leaf key only opens leaf connections and the static
    users only standard ones; and the cluster of a user can be read back from
    its grants. *)
Theorem leaf_users_isolated prefix c c' pub pub' ns rest :
  ValidClusterName c = true -> ValidClusterName c' = true -> has_byte dot ns = false ->
  ">" ∉ Split dot prefix -> (forall t, head (Split dot prefix) = Some t -> t <> "*" /\ t <> "$JS") ->
  let u := nkeyUser prefix c pub in
  allows u "publish" (EventSubject prefix c' ns) = (c =? c')%string
  /\ allows u "subscribe" (EventInboxPrefix c' +:+ String dot rest) = (c =? c')%string
  /\ allows u "publish" ("$JS." +:+ rest) = false
  /\ allows u "subscribe" ("_INBOX." +:+ rest) = false
  /\ (forall s, List.nth_error staticUsers 1 = Some s -> allows s "subscribe" (EventInboxPrefix c' +:+ String dot rest) = false)
  /\ connection_types u = Some (toAny [connTypeLeafnode])
  /\ Forall (fun s => connection_types s = Some (toAny [connTypeStandard])) staticUsers
  /\ clusterFromUser u prefix pub' = c.
Proof.
  intros Hc Hc' Hns Hp Hhd u. destruct (nkeyUser_grants prefix c pub) as (Hpub & Hsub & Hconn & _).
  destruct (EventInboxGrant_isolates c c' rest Hc Hc') as (I1 & I2 & I3).
  unfold allows. unfold u. rewrite Hpub, Hsub. cbn [List.existsb]. rewrite !orb_false_r. split_and!.
  - by apply EventSubjectGrant_isolates.
  - exact I1.
  - unfold subjectMatches. rewrite EventSubjectGrant_tokens by done.
    change ("$JS." +:+ rest) with ("$JS" +:+ String dot rest). rewrite Split_append.
    change (Split dot "$JS") with ["$JS"]. destruct (Split_cons_ne dot prefix) as (t & ts & E). rewrite E in *.
    destruct (Hhd t eq_refl) as [H1%String.eqb_neq H2%String.eqb_neq]. cbn [app tokens_match].
    assert ((t =? ">")%string = false) as -> by (apply String.eqb_neq; set_solver). by rewrite H1, H2.
  - exact I2.
  - intros s [= <-]. unfold allows.
    change (grants _ "subscribe") with ["_INBOX.>"]. cbn [List.existsb]. by rewrite orb_false_r.
  - exact Hconn.
  - repeat constructor.
  - apply clusterFromUser_nkeyUser.
Qed.

(* ------------------------------------------------------------------ *)
(** ** A concrete hub *)

Module Toy.

(** The labelled clusters, the secrets, the text of the list of users, and the
    keys handed out so far. *)
Record hub := {
  h_clusters : list string; h_secrets : gmap string (gmap string string); h_values : option string; h_keys : nat }.

Definition absent : error := Ext "not found".
Definition object_name (obj : gomap) : string := ExtractString obj ["metadata"; "name"].
Definition string_map (obj : gomap) (field : string) : gmap string string :=
  match as_map (obj !! field) with Some m => omap (fun v : any => as_string (Some v)) m | None => ∅ end.

(** A list of users as text: [cluster=key], separated by commas. *)
Definition show_user (u : gomap) : option string :=
  match user_nkey u with Some pub => Some (clusterFromUser u "events" "" +:+ "=" +:+ pub) | None => None end.
Definition show_users (users : list gomap) : string := String.concat "," (omap show_user users).
Definition read_user (s : string) : option gomap :=
  match Split "=" s with [c; pub] => Some (nkeyUser "events" c pub) | _ => None end.
Definition get_path (obj : gomap) (path : list string) : option gomap :=
  fold_left (fun m k => m ≫= (fun x : gomap => as_map (x !! k))) path (Some obj).
Definition doc_users (doc : gomap) : list gomap :=
  match get_path doc ["config"; "merge"; "accounts"; "ACTIVITY"] with
  | Some m => match as_list (m !! "users") with Some l => omap (fun v : any => as_map (Some v)) l | None => [] end
  | None => []
  end.

Definition set_secrets (f : gmap string (gmap string string) -> gmap string (gmap string string)) (h : hub) : hub :=
  {| h_clusters := h_clusters h; h_secrets := f (h_secrets h); h_values := h_values h; h_keys := h_keys h |}.
Definition set_values (v : option string) (h : hub) : hub :=
  {| h_clusters := h_clusters h; h_secrets := h_secrets h; h_values := v; h_keys := h_keys h |}.
Definition put (k : resource) (obj : gomap) (h : hub) : hub :=
  match k with
  | Secrets => set_secrets (<[object_name obj := string_map obj "stringData"]>) h
  | ConfigMaps => set_values (string_map obj "data" !! "values.yaml") h
  | PushSecrets => h
  end.

#[local] Instance toyHub : HubIO hub := {
  nkey_pair := nat;
  hub_NotFound e := match e with Ext t => (t =? "not found")%string | _ => false end;
  hub_AlreadyExists e := match e with Ext t => (t =? "already exists")%string | _ => false end;
  list_clusters _ h := (inr (h_clusters h), h);
  get_secret _ n h := (match h_secrets h !! n with Some d => inr d | None => inl absent end, h);
  dyn_get k _ n h :=
    (match k, h_values h with
     | ConfigMaps, Some v => inr (jmap [("data", AMap (jmap [("values.yaml", AStr v)]))])
     | _, _ => inl absent
     end, h);
  dyn_create k _ obj h :=
    match k, h_secrets h !! object_name obj with
    | Secrets, Some _ => (Some (Ext "already exists"), h)
    | _, _ => (None, put k obj h)
    end;
  dyn_update k _ obj h := (None, put k obj h);
  CreateUser h := (inr (S (h_keys h)),
    {| h_clusters := h_clusters h; h_secrets := h_secrets h; h_values := h_values h; h_keys := S (h_keys h) |});
  kp_Seed n := inr ("SU" +:+ pretty (N.of_nat n));
  kp_PublicKey n := inr ("U" +:+ pretty (N.of_nat n));
  yaml_Marshal doc := inr (show_users (doc_users doc));
  yaml_Unmarshal_users s := inr (omap read_user (Split "," s)) }.

Definition cfg : NkeyConfig :=
  {| nk_Namespace := "nats-system"; nk_SecretPrefix := "nats-leaf"; nk_ConfigMapName := "authorized-leafs";
     nk_SecretStoreName := "store"; nk_SecretStoreKind := "ClusterSecretStore"; nk_SubjectPrefix := "events" |}.

Definition hub0 : hub := {| h_clusters := ["us-east"; "bad.name"; "us-west"]; h_secrets := ∅; h_values := None; h_keys := 0 |}.

(** What a sync returns and leaves: the list of users, and the keys stored. *)
Definition outcome (x : (error + unit) * list hub_call * hub) : bool * option string * list (string * option string) :=
  let '(r, _, h) := x in
  (match r with inr _ => true | inl _ => false end, h_values h,
   (fun p => (p.1, p.2 !! "public")) <$> map_to_list (h_secrets h)).
Definition after (x : (error + unit) * list hub_call * hub) : hub := x.2.

(** Two clusters are given keys and listed; a second sync changes nothing. *)
Example sync_provisions :
  let h1 := after (sync cfg hub0) in
  h_values h1 = Some "us-east=U1,us-west=U2"
  /\ outcome (sync cfg h1) = outcome (sync cfg hub0) /\ (outcome (sync cfg h1)).1.1 = true.
Proof. split_and!; vm_compute; reflexivity. Qed.

Definition enable_only (cs : list string) (h : hub) : hub :=
  {| h_clusters := cs; h_secrets := h_secrets h; h_values := h_values h; h_keys := h_keys h |}.

(** A cluster that is no longer enabled blocks the sync until its secret is
    deleted; then its user goes. *)
Example sync_decommission :
  let h1 := enable_only ["us-east"] (after (sync cfg hub0)) in
  (outcome (sync cfg h1)).1 = (false, Some "us-east=U1,us-west=U2")
  /\ (outcome (sync cfg (set_secrets (delete "nats-leaf-us-west") h1))).1 = (true, Some "us-east=U1").
Proof. split; vm_compute; reflexivity. Qed.

(** Giving an enabled cluster a new key, by deleting its secret, is refused:
    the sync stores a new key before it compares the lists, and then finds
    that secret.  Every later sync is refused too, and the list keeps a key
    whose seed is gone. *)
Example rotation_blocks :
  let h1 := set_secrets (delete "nats-leaf-us-west") (after (sync cfg hub0)) in
  let h2 := after (sync cfg h1) in
  outcome (sync cfg h1)
  = (false, Some "us-east=U1,us-west=U2", [("nats-leaf-us-west", Some "U3"); ("nats-leaf-us-east", Some "U1")])
  /\ outcome (sync cfg h2) = outcome (sync cfg h1).
Proof. split; vm_compute; reflexivity. Qed.

(** The guard looks for the secret under the name [clusterFromUser] reads from
    the grants, which the code says is only used for display.  When the
    subject prefix was changed since the last sync, that name is the key's: a
    cluster that is no longer listed loses its user although its secret is
    there. *)
Example prefix_change_drops :
  let h1 := enable_only ["us-east"] (after (sync cfg hub0)) in
  let cfg' := {| nk_Namespace := nk_Namespace cfg; nk_SecretPrefix := nk_SecretPrefix cfg;
                 nk_ConfigMapName := nk_ConfigMapName cfg; nk_SecretStoreName := nk_SecretStoreName cfg;
                 nk_SecretStoreKind := nk_SecretStoreKind cfg; nk_SubjectPrefix := "k8s-events" |} in
  (outcome (sync cfg h1)).1.1 = false
  /\ outcome (sync cfg' h1)
     = (true, Some "=U1", [("nats-leaf-us-west", Some "U2"); ("nats-leaf-us-east", Some "U1")]).
Proof. split; vm_compute; reflexivity. Qed.

Lemma sync_guarded_witness :
  exists before c clusters pubs,
    (sync cfg hub0).1.2 = before ++ [c] /\ accepted c /\ length (valid_clusters clusters) = 2%nat
    /\ Forall2 (key_of cfg before) (valid_clusters clusters) pubs
    /\ writes_users cfg before c (leaf_users cfg clusters pubs).
Proof.
  assert (sync cfg hub0 = ((sync cfg hub0).1.1, (sync cfg hub0).1.2, (sync cfg hub0).2)) as E
    by (by destruct (sync cfg hub0) as [[? ?] ?]).
  assert ((sync cfg hub0).1.1 = inr tt) as Er by (vm_compute; reflexivity).
  assert (forall cs, QListClusters "activity.miloapis.com/nats-leaf=enabled" (inr cs) ∈ (sync cfg hub0).1.2 ->
                     length (valid_clusters cs) = 2%nat) as Hcs.
  { intros cs Hin. assert (omap (fun c => match c with QListClusters _ (inr l) => Some l | _ => None end) (sync cfg hub0).1.2
      = [["us-east"; "bad.name"; "us-west"]]) as El by (vm_compute; reflexivity).
    assert (cs ∈ [["us-east"; "bad.name"; "us-west"]]) as ->%list_elem_of_singleton; [|reflexivity].
    rewrite <- El. apply list_elem_of_omap. by eexists. }
  destruct (sync_guarded cfg hub0 _ _ _ E) as [_ [[_ Hbad]|(before & c & cs & pubs & El & _ & Hacc & Hl & Hk & Hw)]].
  { by rewrite Er in Hbad. }
  exists before, c, cs, pubs. split; [done|]. split; [by apply Hacc|]. split; [|done].
  apply Hcs. rewrite El. apply elem_of_app. by left.
Defined.

End Toy.

Lemma leaf_users_isolated_witness :
  allows (nkeyUser "events" "us-east" "U1") "publish" (EventSubject "events" "us-west" "kube-system") = false
  /\ allows (nkeyUser "events" "us-east" "U1") "subscribe" (EventInboxPrefix "us-west" +:+ String dot "pNXQ") = false.
Proof.
  destruct (leaf_users_isolated "events" "us-east" "us-west" "U1" "U2" "kube-system" "pNXQ") as (H1 & H2 & _).
  - reflexivity.
  - reflexivity.
  - reflexivity.
  - vm_compute. by intros [?|[]%elem_of_nil]%elem_of_cons.
  - by intros t [= <-].
  - split; [rewrite H1|rewrite H2]; reflexivity.
Defined.
