(* ===== verification/Connect.v ===== *)
(** * TLS files of the connections

    Four places of the repository load the TLS files of a connection by
    themselves, besides internal/natsconn: internal/storage/clickhouse.go
    ([loadTLSConfig]), internal/watch/watcher.go ([buildNATSTLSConfig]),
    internal/storage/events_publisher.go ([buildEventsTLSConfig]), and the
    commands of the controller manager and of the re-index worker
    (cmd/activity).  They are copies of one another with other texts. *)

From Stdlib Require Import Ascii String.
From stdpp Require Import base numbers list strings.
From Stdlib Require Import ZArith.
From S2P Require Import Prelude GoLib Calls Types CelPolicy Nkeys.

Record tls_texts := { no_pair : string; no_ca : string; bad_ca : string }.

Section Load.
Context `{TLSLib} (minVersion : string) (texts : tls_texts).

(** The body the copies share. *)
Definition load_tls (t : TLSFiles) : error + TLSConfig :=
  let certificates :=
    if (negb (CertFile t =? "") && negb (KeyFile t =? ""))%string%bool then
      match LoadX509KeyPair (CertFile t) (KeyFile t) with
      | inl e => inl (wrap_with (no_pair texts) e)
      | inr cert => inr [cert]
      end
    else inr [] in
  match certificates with
  | inl e => inl e
  | inr certs =>
      let config roots := inr {| MinVersion := minVersion; Certificates := certs; RootCAs := roots |} in
      if (CAFile t =? "")%string then config None
      else match ReadFile (CAFile t) with
           | inl e => inl (wrap_with (no_ca texts) e)
           | inr pem => match CertsFromPEM pem with
                        | None => inl (Errorf [PStr (bad_ca texts)])
                        | Some pool => config (Some pool)
                        end
           end
  end.
End Load.

Section Loaders.
Context `{TLSLib}.
(** No minimal version is set. *)
Definition loadTLSConfig : TLSFiles -> error + TLSConfig :=
  load_tls "" {| no_pair := "failed to load client certificate: "; no_ca := "failed to read CA certificate: ";
                 bad_ca := "failed to parse CA certificate" |}.
Definition nats_texts : tls_texts := {|
  no_pair := "failed to load NATS client certificate: "; no_ca := "failed to read NATS CA certificate: ";
  bad_ca := "failed to parse NATS CA certificate" |}.
Definition buildNATSTLSConfig : TLSFiles -> error + TLSConfig := load_tls "TLS12" nats_texts.
Definition buildEventsTLSConfig : TLSFiles -> error + TLSConfig := load_tls "TLS12" nats_texts.
Definition command_texts : tls_texts := {|
  no_pair := "failed to load NATS TLS client cert: "; no_ca := "failed to read NATS TLS CA file: ";
  bad_ca := "failed to parse NATS TLS CA certificate" |}.
(** The options of the controller manager and of the re-index worker. *)
Definition manager_nats_options (t : TLSFiles) : error + list (nats_option nats_setting) :=
  if tls_Enabled t then
    match load_tls "TLS12" command_texts t with inl e => inl e | inr c => inr [OptSecure c] end
  else inr [].
Definition buildNATSOptions (t : TLSFiles) : error + list (nats_option nats_setting) :=
  if tls_Enabled t then
    match load_tls "TLS12" command_texts t with inl e => inl e | inr c => inr [OptSecure c] end
  else inr [].
End Loaders.

(* ------------------------------------------------------------------ *)
(** ** Theorems *)

Definition half_pair (t : TLSFiles) : bool := xorb (CertFile t =? "")%string (KeyFile t =? "")%string.

Section TlsTheorems.
Context `{TLSLib}.

(** The loaders of TLS files agree with the one of natsconn, but on half a
    pair.  Where a certificate and its key are both given, or neither, each
    loader yields a configuration exactly when natsconn does, with the same
    certificates and roots, and fails exactly when it does.  Where only one of
    the two is given natsconn refuses, and they connect without a client
    certificate whenever the rest loads. *)
Theorem tls_loaders_agree (minVersion : string) (texts : tls_texts) (t : TLSFiles) :
  if half_pair t
  then (exists e, tls_Config t = inl e)
       /\ forall c, load_tls minVersion texts t = inr c -> Certificates c = []
  else match tls_Config t, load_tls minVersion texts t with
       | inr c, inr c' => Certificates c' = Certificates c /\ RootCAs c' = RootCAs c
       | inl _, inl _ => True
       | _, _ => False
       end.
Proof.
  unfold half_pair, tls_Config, load_tls.
  destruct (String.eqb_spec (CertFile t) "") as [Hc|Hc], (String.eqb_spec (KeyFile t) "") as [Hk|Hk]; cbn.
  1, 4: try destruct (LoadX509KeyPair _ _) as [e|cert]; try done;
    destruct (CAFile t =? "")%string; try done; destruct (ReadFile _) as [e|pem]; try done; by destruct (CertsFromPEM pem).
  all: split; [by eexists|]; intros c; destruct (CAFile t =? "")%string; [by intros [= <-]|];
    destruct (ReadFile _) as [e|pem]; [done|]; destruct (CertsFromPEM pem); [by intros [= <-]|done].
Qed.
End TlsTheorems.
