(* ===== verification/Cli.v ===== *)
(** * pkg/cmd/common: what the command-line clients share

    Flags and their checks, quoting of values, facet queries, printing and
    following pages ([pkg/cmd/common] and the loop the query commands of
    [pkg/cmd] repeat).  A command makes requests and writes to its two streams;
    it is a function to a log of both.  The Kubernetes printers and the API
    client are the class [CliIO]. *)

From Stdlib Require Import Ascii String.
From stdpp Require Import base numbers list strings pretty.
From Stdlib Require Import ZArith Lia.
From S2P Require Import Prelude GoLib Calls GoFmt Types TimeUtil CelPolicy Activity Dlq EventProc CelFilter Query EventStore Watch Rest.

(* ------------------------------------------------------------------ *)
(** ** escape.go *)

Definition EscapeCELString (s : string) : string := ReplaceAll s "'" "\'".

(** [strings.ContainsAny(s, set)] for a set of ASCII characters. *)
Definition ContainsAny (s : string) (set : list ascii) : bool := List.existsb (fun c => has_byte c s) set.

Definition EscapeFieldSelectorValue `{GoUnicode} (s : string) : error + string :=
  if ContainsAny s ["="; ","]%char
  then inl (Errorf [PStr "field selector value cannot contain '=' or ',' characters: "; PStr (Quote s)])
  else inr s.

Definition ValidateEventType `{GoUnicode} (t : string) : option error :=
  if (t =? "")%string then None
  else if (negb (t =? "Normal") && negb (t =? "Warning"))%string%bool
  then Some (Errorf [PStr "event type must be 'Normal' or 'Warning', got: "; PStr (Quote t)])
  else None.

(* ------------------------------------------------------------------ *)
(** ** flags.go *)

Record TimeRangeFlags := { fl_StartTime : string; fl_EndTime : string }.
Definition TimeRange_Validate (f : TimeRangeFlags) : option error :=
  if (fl_StartTime f =? "")%string then Some (Errorf [PStr "--start-time is required"])
  else if (fl_EndTime f =? "")%string then Some (Errorf [PStr "--end-time is required"])
  else None.

Record PaginationFlags := { fl_Limit : Z (* int32 *); fl_AllPages : bool; fl_ContinueAfter : string }.
Definition Pagination_Validate (f : PaginationFlags) : option error :=
  if ((fl_Limit f <? 1) || (1000 <? fl_Limit f))%Z%bool then Some (Errorf [PStr "--limit must be between 1 and 1000"])
  else if (fl_AllPages f && negb (fl_ContinueAfter f =? "")%string)%bool
  then Some (Errorf [PStr "--all-pages and --continue-after are mutually exclusive"])
  else None.

Record OutputFlags := { NoHeaders : bool; Debug : bool }.
Definition IsSuggestMode (suggest : string) : bool := negb (suggest =? "")%string.

(** [if err := a; err != nil { return err }; return b] *)
Definition or_else (a b : option error) : option error := match a with Some e => Some e | None => b end.

(* ------------------------------------------------------------------ *)
(** ** output.go *)

(** [metav1.Table]: the names of the columns, and the cells. *)
Inductive cell := CText (s : string) | CInt (z : Z).
Record Table := { t_columns : list string; t_rows : list (list cell) }.

(** The output format of [PrintFlags], if the flag is there. *)
Definition IsDefaultOutputFormat (format : option string) : bool :=
  match format with None => true | Some f => (f =? "")%string end.

(** A value cut to 80 bytes for a table. *)
Definition truncated (s : string) : string :=
  if (80 <? String.length s)%nat then take_str 77 s +:+ "..." else s.

(** The location of the process, seconds east of UTC at an instant, and the
    layouts [2006-01-02 15:04:05], [15:04:05] and [2006-01-02] in it. *)
Class GoLocal := { local_offset : time -> Z }.
Definition in_local `{GoLocal} (t : time) : string := Format_RFC3339 (t + local_offset t * nano)%Z.
Definition Format_Clock `{GoLocal} (t : time) : string := take_str 8 (drop_str 11 (in_local t)).
Definition Format_Date `{GoLocal} (t : time) : string := take_str 10 (in_local t).
Definition Format_DateTime `{GoLocal} (t : time) : string := Format_Date t +:+ " " +:+ Format_Clock t.

(** What [SupportsColor] looks at: the environment, and whether the output is
    the standard output and a terminal. *)
Record Terminal := { NO_COLOR : string; TERM : string; is_Stdout : bool; IsTerminal : bool }.
Definition SupportsColor (t : Terminal) : bool :=
  if negb (NO_COLOR t =? "")%string then false
  else if negb (is_Stdout t) then false
  else if ((TERM t =? "dumb") || (TERM t =? ""))%string%bool then false
  else IsTerminal t.

(* ------------------------------------------------------------------ *)
(** ** The log of a command *)

Definition newline : string := String (ascii_of_nat 10) "".

(** A request with its answer, a facet request with its answer, text on either
    stream, the debug line showing a specification, a table ([true]: without
    headers), a list in another format under its kind. *)
Inductive act (Spec FSpec Item : Type) :=
| Request (s : Spec) (r : error + QueryObject Spec Item)
| FacetRequest (s : FSpec) (r : error + list FacetFieldResult)
| Out (s : string) | ErrOut (s : string) | DebugSpec (s : Spec)
| PrintTable (no_headers : bool) (t : Table) (r : option error)
| PrintList (format kind : string) (items : list Item) (r : option error).
Arguments Request {Spec FSpec Item}. Arguments FacetRequest {Spec FSpec Item}. Arguments Out {Spec FSpec Item}.
Arguments ErrOut {Spec FSpec Item}. Arguments DebugSpec {Spec FSpec Item}. Arguments PrintTable {Spec FSpec Item}.
Arguments PrintList {Spec FSpec Item}.

(** The client and the printers: [ToRESTConfig], [NewForConfig], [Create] of a
    query and of a facet query, [ToPrinter] and [PrintObj]. *)
Class CliIO (Spec FSpec Item W : Type) := {
  ToRESTConfig : option error;
  NewForConfig : option error;
  create_query : Spec -> W -> (error + QueryObject Spec Item) * W;
  create_facets : FSpec -> W -> (error + list FacetFieldResult) * W;
  ToPrinter : string -> option error;
  print_table : bool -> Table -> W -> option error * W;
  print_list : string -> string -> list Item -> W -> option error * W }.

Section Common.
Context {Spec FSpec Item W : Type} `{CliIO Spec FSpec Item W}.
Abbreviation M := (Calls (act Spec FSpec Item) W).

Definition out (s : string) : M unit := nsay [Out s].
Definition err_out (s : string) : M unit := nsay [ErrOut s].
Definition table (no_headers : bool) (t : Table) : M unit := ndo (print_table no_headers t) (PrintTable no_headers t).
Definition printed (format kind : string) (items : list Item) : M unit :=
  ndo (print_list format kind items) (PrintList format kind items).
Definition request (s : Spec) : M (QueryObject Spec Item) := nask (create_query s) (fun r => [Request s r]).
Definition failed_if (e : option error) : M unit := match e with Some e => nfail e | None => nret tt end.
Definition debug (on : bool) (l : list (act Spec FSpec Item)) : M unit := nsay (if on then l else []).

(** The client of a command. *)
Definition with_client {A} (run : M A) : M A :=
  match ToRESTConfig with
  | Some e => nfail (wrap_with "failed to get kubeconfig: " e)
  | None => match NewForConfig with
            | Some e => nfail (wrap_with "failed to create activity client: " e)
            | None => run
            end
  end.

Definition PrintPaginationInfo (continueToken : string) (resultCount : nat) : M unit :=
  if negb (continueToken =? "")%string then
    nsay [ErrOut (newline +:+ "More results available. Use --continue-after '" +:+ continueToken
                  +:+ "' to get the next page." +:+ newline);
          ErrOut ("Or use --all-pages to fetch all results automatically." +:+ newline)]
  else if (0 <? resultCount)%nat then err_out (newline +:+ "No more results." +:+ newline)
  else nret tt.

Definition PrintAllPagesInfo (totalCount : nat) : M unit :=
  err_out (newline +:+ "Showing " +:+ pretty (Z.of_nat totalCount) +:+ " results." +:+ newline).

(** [ToPrinter] and its [PrintObj]. *)
Definition print_formatted (format : string) (kind : string) (items : list Item) : M unit :=
  match ToPrinter format with
  | Some e => nfail (wrap_with "failed to create printer: " e)
  | None => printed format kind items
  end.

(* ------------------------------------------------------------------ *)
(** ** suggest.go *)

Definition PrintFacetTable (facet : FacetFieldResult) : M unit :=
  get! _ := out ("FIELD: " +:+ fr_Field facet +:+ newline) in
  table false {| t_columns := ["Value"; "Count"];
                 t_rows := map (fun '(v, n) => [CText v; CInt n]) (fr_Values facet) |}.

(** The three functions differ in the query they make. *)
Definition print_facets (field : string) (query : FSpec) : M unit :=
  try! result := nask (create_facets query) (fun r => [FacetRequest query r])
    or (fun e => nfail (wrap_with "facet query failed: " e)) in
  match result with
  | [] => out ("No values found for field: " +:+ field +:+ newline)
  | facet :: _ => PrintFacetTable facet
  end.

(* ------------------------------------------------------------------ *)
(** ** Pages *)

(** The loop of the [runAllPages] functions: request the page after
    [continueAfter], hand it to [onPage], go on while there is a token.
    [onPage] returns the items to collect.  [None]: the fuel is used up. *)
Fixpoint all_pages (fuel : nat) (dbg : bool) (query : string -> Spec)
    (onPage : nat -> list Item -> M (list Item)) (continueAfter : string) (pageNum total : nat) (all : list Item)
  : M (option (list Item * nat)) :=
  match fuel with
  | O => nret None
  | S fuel' =>
      get! _ := debug dbg [ErrOut ("DEBUG: Fetching page " +:+ pretty (Z.of_nat pageNum) +:+ newline)] in
      try! result := request (query continueAfter)
        or (fun e => nfail (wrap_with ("query failed on page " +:+ pretty (Z.of_nat pageNum) +:+ ": ") e)) in
      let total := (total + length (q_Results result))%nat in
      get! kept := onPage pageNum (q_Results result) in
      let all := all ++ kept in
      if (q_Continue result =? "")%string then nret (Some (all, total))
      else all_pages fuel' dbg query onPage (q_Continue result) (S pageNum) total all
  end.

End Common.

Definition PrintAuditLogFacets {Spec Item W : Type} `{CliIO Spec FacetQuerySpec Item W} (field startTime endTime filter : string) :=
  print_facets field {| fq_StartTime := startTime; fq_EndTime := endTime; fq_Filter := filter;
                        fq_Facets := [{| ff_Field := field; ff_Limit := 20 |}] |}.
Definition PrintActivityFacets {Spec Item W : Type} `{CliIO Spec FacetQuerySpec Item W} (field startTime endTime filter : string) :=
  print_facets field {| fq_StartTime := startTime; fq_EndTime := endTime; fq_Filter := filter;
                        fq_Facets := [{| ff_Field := field; ff_Limit := 20 |}] |}.
Definition PrintEventFacets {Spec Item W : Type} `{CliIO Spec EventFacetQuerySpec Item W} (field startTime endTime : string) :=
  print_facets field {| ef_StartTime := startTime; ef_EndTime := endTime;
                        ef_Facets := [{| ff_Field := field; ff_Limit := 20 |}] |}.
