(* ===== verification/CliQuery.v ===== *)
(** * pkg/cmd: audit, events, feed and query

    The four query commands: the filter or field selector built from the flags,
    one page or all pages, the tables, and the watch of [feed]
    ([pkg/cmd/audit.go], [events.go], [feed.go], [query.go]). *)

From Stdlib Require Import Ascii String.
From stdpp Require Import base numbers list strings gmap pretty.
From Stdlib Require Import ZArith Lia.
From S2P Require Import Prelude GoLib Calls GoFmt Types TimeUtil CelPolicy Activity Dlq EventProc CelFilter Query EventStore Watch Rest EventsRest ActivityRest Cli.

(** [auditv1.Event], as far as the clients read it. *)
Record CliEvent := {
  ce_StageTimestamp : time; ce_RequestReceivedTimestamp : time; ce_Verb : string; ce_Username : string;
  ce_ObjectRef : option ObjectReference; ce_ResponseStatus : option (Z (* int32 *) * string);
  ce_ResponseObject : option string; ce_RequestURI : string }.

(** [fmt.Sprintf("field == '%s'", common.EscapeCELString(value))], if the value
    is not empty. *)
Definition cli_equality (field value : string) : string := field +:+ " == '" +:+ EscapeCELString value +:+ "'".
Definition when_set (conds : list (string * string)) : list (string * string) :=
  List.filter (fun '(_, v) => negb (v =? "")%string) conds.

(** The shorthand conditions joined by [&&], and the explicit filter. *)
Definition combine_filters (conds : list (string * string)) (filter : string) : string :=
  let combined := String.concat " && " (map (fun '(k, v) => cli_equality k v) (when_set conds)) in
  if negb (filter =? "")%string then
    if negb (combined =? "")%string then "(" +:+ combined +:+ ") && (" +:+ filter +:+ ")" else filter
  else combined.

(* ------------------------------------------------------------------ *)
(** ** The pages of a command *)

(** [runAllPages] of the audit, events and feed commands, which differ in the
    query, the table and the list they print. *)
Section Pages.
Context {Spec FSpec Item W : Type} `{CliIO Spec FSpec Item W} (to_table : list Item -> Table) (kind : string).
Abbreviation M := (Calls (act Spec FSpec Item) W).

(** A page of a table is printed as it comes, the first with headers. *)
Definition show_page (format : option string) (no_headers : bool) (pageNum : nat) (items : list Item) : M (list Item) :=
  if IsDefaultOutputFormat format then
    get! _ := table (if (pageNum =? 1)%nat then no_headers else true) (to_table items) in
    nret []
  else nret items.

Definition run_all_pages (fuel : nat) (output : OutputFlags) (format : option string) (query : string -> Spec)
  : M (option unit) :=
  get! r := all_pages fuel (Debug output) query (show_page format (NoHeaders output)) "" 1 0 [] in
  match r with
  | None => nret None
  | Some (all, total) =>
      get! _ := (if IsDefaultOutputFormat format then nret tt else print_formatted (default "" format) kind all) in
      get! _ := PrintAllPagesInfo total in
      nret (Some tt)
  end.

(** [printTable] and [printResults]. *)
Definition print_table_page (output : OutputFlags) (items : list Item) (continueToken : string) : M unit :=
  get! _ := table (NoHeaders output) (to_table items) in
  PrintPaginationInfo continueToken (length items).
Definition print_results (output : OutputFlags) (format : option string) (result : QueryObject Spec Item) : M unit :=
  if IsDefaultOutputFormat format then print_table_page output (q_Results result) (q_Continue result)
  else print_formatted (default "" format) kind (q_Results result).

(** [runSinglePage] *)
Definition run_single_page (output : OutputFlags) (spec : Spec) (print : QueryObject Spec Item -> M unit) : M unit :=
  get! _ := debug (Debug output) [DebugSpec spec] in
  try! result := request spec or (fun e => nfail (wrap_with "query failed: " e)) in
  print result.
End Pages.

(** A command that is done, as far as the fuel goes. *)
Definition done {L W A} (m : Calls L W A) : Calls L W (option unit) := get! _ := m in nret (Some tt).

(* ------------------------------------------------------------------ *)
(** ** audit.go *)

Record AuditOptions := {
  ao_Filter : string; ao_Namespace : string; ao_Resource : string; ao_Verb : string; ao_User : string;
  ao_TimeRange : TimeRangeFlags; ao_Pagination : PaginationFlags; ao_Output : OutputFlags; ao_Suggest : string;
  ao_Format : option string }.

Definition audit_Validate (o : AuditOptions) : option error :=
  or_else (TimeRange_Validate (ao_TimeRange o)) (Pagination_Validate (ao_Pagination o)).

Definition audit_conds (o : AuditOptions) : list (string * string) :=
  [("objectRef.namespace", ao_Namespace o); ("objectRef.resource", ao_Resource o); ("verb", ao_Verb o);
   ("user.username", ao_User o)].
Definition audit_buildFilter (o : AuditOptions) : string := combine_filters (audit_conds o) (ao_Filter o).

Definition audit_spec (o : AuditOptions) (continue_ : string) : AuditLogQuerySpec :=
  {| aq_StartTime := fl_StartTime (ao_TimeRange o); aq_EndTime := fl_EndTime (ao_TimeRange o);
     aq_Filter := audit_buildFilter o; aq_Limit := fl_Limit (ao_Pagination o); aq_Continue := continue_ |}.

Definition event_timestamp (fmt : time -> string) (e : CliEvent) : string :=
  if negb (IsZero (ce_StageTimestamp e)) then fmt (ce_StageTimestamp e)
  else if negb (IsZero (ce_RequestReceivedTimestamp e)) then fmt (ce_RequestReceivedTimestamp e)
  else "<unknown>".
Definition status_text (e : CliEvent) : string :=
  match ce_ResponseStatus e with Some (code, _) => pretty code | None => "" end.

Definition eventsToRows (events : list CliEvent) : list (list cell) :=
  map (fun e =>
    let resource := match ce_ObjectRef e with
                    | None => ""
                    | Some r => if negb (or_Namespace r =? "")%string
                                then or_Namespace r +:+ "/" +:+ or_Resource r +:+ "/" +:+ or_Name r
                                else or_Resource r +:+ "/" +:+ or_Name r
                    end in
    map CText [event_timestamp Format_RFC3339 e; ce_Verb e; ce_Username e; resource; status_text e]) events.
Definition eventsToTable (events : list CliEvent) : Table :=
  {| t_columns := ["Timestamp"; "Verb"; "User"; "Resource"; "Status"]; t_rows := eventsToRows events |}.

Section Audit.
Context {W : Type} `{CliIO AuditLogQuerySpec FacetQuerySpec CliEvent W}.
Abbreviation M := (Calls (act AuditLogQuerySpec FacetQuerySpec CliEvent) W).

Definition audit_runSinglePage (o : AuditOptions) : M unit :=
  run_single_page (ao_Output o) (audit_spec o (fl_ContinueAfter (ao_Pagination o)))
    (print_results eventsToTable "EventList" (ao_Output o) (ao_Format o)).
Definition audit_runAllPages (fuel : nat) (o : AuditOptions) : M (option unit) :=
  run_all_pages eventsToTable "EventList" fuel (ao_Output o) (ao_Format o) (audit_spec o).

Definition audit_Run (fuel : nat) (o : AuditOptions) : M (option unit) :=
  get! _ := failed_if (audit_Validate o) in
  with_client (
    if IsSuggestMode (ao_Suggest o) then
      done (PrintAuditLogFacets (ao_Suggest o) (fl_StartTime (ao_TimeRange o)) (fl_EndTime (ao_TimeRange o)) (audit_buildFilter o))
    else if fl_AllPages (ao_Pagination o) then audit_runAllPages fuel o
    else done (audit_runSinglePage o)).
End Audit.

(* ------------------------------------------------------------------ *)
(** ** events.go *)

Record EventsOptions := {
  eo_Namespace : string; eo_FieldSelector : string; eo_Type : string; eo_Reason : string;
  eo_RegardingKind : string; eo_RegardingName : string;
  eo_TimeRange : TimeRangeFlags; eo_Pagination : PaginationFlags; eo_Output : OutputFlags; eo_Suggest : string;
  eo_Format : option string }.

Definition check_value `{GoUnicode} (flag value : string) : option error :=
  if (value =? "")%string then None
  else match EscapeFieldSelectorValue value with
       | inl e => Some (wrap_with ("invalid " +:+ flag +:+ " value: ") e)
       | inr _ => None
       end.
Definition events_Validate `{GoUnicode} (o : EventsOptions) : option error :=
  or_else (TimeRange_Validate (eo_TimeRange o)) (
  or_else (Pagination_Validate (eo_Pagination o)) (
  or_else (ValidateEventType (eo_Type o)) (
  or_else (check_value "--reason" (eo_Reason o)) (
  or_else (check_value "--regarding-kind" (eo_RegardingKind o)) (
  or_else (check_value "--regarding-name" (eo_RegardingName o))
    (check_value "--namespace" (eo_Namespace o))))))).

Definition events_terms (o : EventsOptions) : list (string * string) :=
  when_set [("type", eo_Type o); ("reason", eo_Reason o); ("regarding.kind", eo_RegardingKind o);
            ("regarding.name", eo_RegardingName o)].
Definition buildFieldSelector (o : EventsOptions) : string :=
  String.concat "," (map (fun '(k, v) => k +:+ "=" +:+ v) (events_terms o)
                     ++ (if (eo_FieldSelector o =? "")%string then [] else [eo_FieldSelector o])).

Definition events_spec (o : EventsOptions) (continue_ : string) : EventQuerySpec :=
  {| es_StartTime := fl_StartTime (eo_TimeRange o); es_EndTime := fl_EndTime (eo_TimeRange o);
     es_Namespace := eo_Namespace o; es_FieldSelector := buildFieldSelector o;
     es_Limit := fl_Limit (eo_Pagination o); es_Continue := continue_ |}.

Definition kubeEventsToRows (records : list EventRecord) : list (list cell) :=
  map (fun record =>
    let ev := erec_Event record in
    let r := ev_Regarding (ev_rest ev) in
    let lastSeen := if IsZero (ev_EventTime ev) then "" else Format_RFC3339 (ev_EventTime ev) in
    let object := ref_Kind r +:+ "/" +:+ ref_Name r in
    let object := if (ref_Namespace r =? "")%string then object else ref_Namespace r +:+ "/" +:+ object in
    map CText [lastSeen; ev_Type (ev_rest ev); ev_Reason (ev_rest ev); object; truncated (ev_Note (ev_rest ev))]) records.
Definition kubeEventsToTable (records : list EventRecord) : Table :=
  {| t_columns := ["Last Seen"; "Type"; "Reason"; "Object"; "Message"]; t_rows := kubeEventsToRows records |}.

Section Events.
Context {W : Type} `{CliIO EventQuerySpec EventFacetQuerySpec EventRecord W} `{GoUnicode}.
Abbreviation M := (Calls (act EventQuerySpec EventFacetQuerySpec EventRecord) W).

Definition events_runSinglePage (o : EventsOptions) : M unit :=
  run_single_page (eo_Output o) (events_spec o (fl_ContinueAfter (eo_Pagination o)))
    (print_results kubeEventsToTable "EventList" (eo_Output o) (eo_Format o)).
Definition events_runAllPages (fuel : nat) (o : EventsOptions) : M (option unit) :=
  run_all_pages kubeEventsToTable "EventList" fuel (eo_Output o) (eo_Format o) (events_spec o).

Definition events_Run (fuel : nat) (o : EventsOptions) : M (option unit) :=
  get! _ := failed_if (events_Validate o) in
  with_client (
    if IsSuggestMode (eo_Suggest o) then
      done (PrintEventFacets (eo_Suggest o) (fl_StartTime (eo_TimeRange o)) (fl_EndTime (eo_TimeRange o)))
    else if fl_AllPages (eo_Pagination o) then events_runAllPages fuel o
    else done (events_runSinglePage o)).
End Events.

(* ------------------------------------------------------------------ *)
(** ** feed.go *)

Record FeedOptions := {
  fo_Filter : string; fo_Namespace : string; fo_Actor : string; fo_Kind : string; fo_APIGroup : string;
  fo_ChangeSource : string; fo_Search : string; fo_ResourceUID : string; fo_Watch : bool;
  fo_TimeRange : TimeRangeFlags; fo_Pagination : PaginationFlags; fo_Output : OutputFlags; fo_Suggest : string;
  fo_Format : option string }.

Definition feed_Validate `{GoUnicode} (o : FeedOptions) : option error :=
  if fo_Watch o then
    if negb (fo_Filter o =? "")%string
    then Some (Errorf [PStr "--filter is not supported in watch mode; use field selector flags (--namespace, --actor, --kind, --change-source) for server-side filtering in watch mode"])
    else None
  else if (negb (fo_ChangeSource o =? "") && negb (fo_ChangeSource o =? "human") && negb (fo_ChangeSource o =? "system"))%string%bool
  then Some (Errorf [PStr "invalid --change-source value "; PStr (Quote (fo_ChangeSource o));
                     PStr ": must be "; PStr (Quote "human"); PStr " or "; PStr (Quote "system")])
  else or_else (TimeRange_Validate (fo_TimeRange o)) (Pagination_Validate (fo_Pagination o)).

Definition feed_conds (o : FeedOptions) : list (string * string) :=
  [("spec.resource.namespace", fo_Namespace o); ("spec.actor.name", fo_Actor o); ("spec.resource.kind", fo_Kind o);
   ("spec.resource.apiGroup", fo_APIGroup o); ("spec.changeSource", fo_ChangeSource o);
   ("spec.resource.uid", fo_ResourceUID o)].
Definition feed_buildFilter (o : FeedOptions) : string := combine_filters (feed_conds o) (fo_Filter o).

Definition feed_spec (o : FeedOptions) (continue_ : string) : ActivityQuerySpec :=
  {| StartTime := fl_StartTime (fo_TimeRange o); EndTime := fl_EndTime (fo_TimeRange o);
     Search := fo_Search o; Filter := feed_buildFilter o; Limit := fl_Limit (fo_Pagination o); Continue_ := continue_ |}.

Definition activitiesToRows (activities : list Activity) : list (list cell) :=
  map (fun a => map CText [Format_RFC3339 (CreationTimestamp a); act_Name (Actor (Spec a)); ChangeSource (Spec a);
                           truncated (Summary (Spec a))]) activities.
Definition activitiesToTable (activities : list Activity) : Table :=
  {| t_columns := ["Timestamp"; "Actor"; "Source"; "Summary"]; t_rows := activitiesToRows activities |}.

(** The field selectors of a watch, or the first value that cannot be one. *)
Definition watch_terms (o : FeedOptions) : list (string * string * string) :=
  [("--namespace", "spec.resource.namespace", fo_Namespace o); ("--actor", "spec.actor.name", fo_Actor o);
   ("--kind", "spec.resource.kind", fo_Kind o); ("--change-source", "spec.changeSource", fo_ChangeSource o)].
Fixpoint watch_selectors `{GoUnicode} (terms : list (string * string * string)) : error + list string :=
  match terms with
  | [] => inr []
  | (flag, field, value) :: rest =>
      if (value =? "")%string then watch_selectors rest
      else match EscapeFieldSelectorValue value with
           | inl e => inl (wrap_with ("invalid " +:+ flag +:+ " value for watch: ") e)
           | inr _ => match watch_selectors rest with
                      | inl e => inl e
                      | inr l => inr ((field +:+ "=" +:+ value) :: l)
                      end
           end
  end.

(** [strings.Contains(strings.ToLower(summary), strings.ToLower(search))], on
    ASCII. *)
Definition matchesClientSideFilters (o : FeedOptions) (a : Activity) : bool :=
  let r := Resource_ (Spec a) in
  if (negb (fo_APIGroup o =? "") && negb (APIGroup r =? fo_APIGroup o))%string%bool then false
  else if (negb (fo_ResourceUID o =? "") && negb (res_UID r =? fo_ResourceUID o))%string%bool then false
  else if (negb (fo_Search o =? "")%string && negb (Contains (ToLower (Summary (Spec a))) (ToLower (fo_Search o))))%bool
  then false
  else true.

(** What the select of a watch sees: the context cancelled, the channel closed,
    an event, whose object may not be an activity. *)
Inductive watch_input := Cancelled | Closed | Received (a : option Activity).

(** The lines written; [true]: the watch ended. *)
Fixpoint watch_loop `{GoLocal} (o : FeedOptions) (inputs : list watch_input) : list string * option string :=
  match inputs with
  | [] => ([], None)
  | Cancelled :: _ => ([], Some (newline +:+ "Watch stopped." +:+ newline))
  | Closed :: _ => ([], Some (newline +:+ "Watch connection closed." +:+ newline))
  | Received None :: rest => watch_loop o rest
  | Received (Some a) :: rest =>
      let (lines, stop) := watch_loop o rest in
      (if matchesClientSideFilters o a
       then ("[" +:+ Format_Clock (CreationTimestamp a) +:+ "] " +:+ Summary (Spec a) +:+ newline) :: lines
       else lines, stop)
  end.

Section Feed.
Context {W : Type} `{CliIO ActivityQuerySpec FacetQuerySpec Activity W} `{GoUnicode} `{GoLocal}.
Abbreviation M := (Calls (act ActivityQuerySpec FacetQuerySpec Activity) W).

Definition printSummary (activities : list Activity) : M unit :=
  nsay (map (fun a => Out (Summary (Spec a) +:+ newline)) activities).
Definition feed_printResults (o : FeedOptions) (result : QueryObject ActivityQuerySpec Activity) : M unit :=
  if (match fo_Format o with Some f => f =? "summary" | None => false end)%string
  then printSummary (q_Results result)
  else print_results activitiesToTable "ActivityList" (fo_Output o) (fo_Format o) result.

Definition feed_runSinglePage (o : FeedOptions) : M unit :=
  run_single_page (fo_Output o) (feed_spec o (fl_ContinueAfter (fo_Pagination o))) (feed_printResults o).
Definition feed_runAllPages (fuel : nat) (o : FeedOptions) : M (option unit) :=
  run_all_pages activitiesToTable "ActivityList" fuel (fo_Output o) (fo_Format o) (feed_spec o).

(** [runWatch]: [open] is the watch request on the selectors, [inputs] what its
    channel and the context give. *)
Definition feed_runWatch (open : string -> option error) (inputs : list watch_input) (o : FeedOptions) : M unit :=
  get! _ := err_out ("Watching for activities... (press Ctrl+C to stop)" +:+ newline +:+ newline) in
  match watch_selectors (watch_terms o) with
  | inl e => nfail e
  | inr selectors =>
      match open (String.concat "," selectors) with
      | Some e => nfail (wrap_with "failed to start watch: " e)
      | None =>
          let (lines, stop) := watch_loop o inputs in
          nsay (map Out lines ++ match stop with Some t => [ErrOut t] | None => [] end)
      end
  end.

Definition feed_Run (fuel : nat) (open : string -> option error) (inputs : list watch_input) (o : FeedOptions)
  : M (option unit) :=
  get! _ := failed_if (feed_Validate o) in
  with_client (
    if IsSuggestMode (fo_Suggest o) then
      done (PrintActivityFacets (fo_Suggest o) (fl_StartTime (fo_TimeRange o)) (fl_EndTime (fo_TimeRange o)) (feed_buildFilter o))
    else if fo_Watch o then done (feed_runWatch open inputs o)
    else if fl_AllPages (fo_Pagination o) then feed_runAllPages fuel o
    else done (feed_runSinglePage o)).
End Feed.

(* ------------------------------------------------------------------ *)
(** ** query.go *)

Record QueryOptions := {
  qo_StartTime : string; qo_EndTime : string; qo_Filter : string; qo_Limit : Z; qo_ContinueAfter : string;
  qo_AllPages : bool; qo_Format : option string }.

Definition query_Validate (o : QueryOptions) : option error :=
  if (qo_StartTime o =? "")%string then Some (Errorf [PStr "--start-time is required"])
  else if (qo_EndTime o =? "")%string then Some (Errorf [PStr "--end-time is required"])
  else if ((qo_Limit o <? 1) || (1000 <? qo_Limit o))%Z%bool then Some (Errorf [PStr "--limit must be between 1 and 1000"])
  else if (qo_AllPages o && negb (qo_ContinueAfter o =? "")%string)%bool
  then Some (Errorf [PStr "--all-pages and --continue-after are mutually exclusive"])
  else None.

Definition query_spec (o : QueryOptions) (continue_ : string) : AuditLogQuerySpec :=
  {| aq_StartTime := qo_StartTime o; aq_EndTime := qo_EndTime o; aq_Filter := qo_Filter o;
     aq_Limit := qo_Limit o; aq_Continue := continue_ |}.

Definition query_eventsToRows `{GoLocal} (events : list CliEvent) : list (list cell) :=
  map (fun e =>
    let field f := match ce_ObjectRef e with Some r => f r | None => "" end in
    map CText [Format_DateTime (ce_StageTimestamp e); ce_Verb e; ce_Username e;
               field or_Namespace; field or_Resource; field or_Name; status_text e]) events.
Definition query_eventsToTable `{GoLocal} (events : list CliEvent) : Table :=
  {| t_columns := ["Timestamp"; "Verb"; "User"; "Namespace"; "Resource"; "Name"; "Status"];
     t_rows := query_eventsToRows events |}.

Section QueryCommand.
Context {W : Type} `{CliIO AuditLogQuerySpec FacetQuerySpec CliEvent W} `{GoLocal}.
Abbreviation M := (Calls (act AuditLogQuerySpec FacetQuerySpec CliEvent) W).

Definition query_printTable (events : list CliEvent) (continueToken : string) : M unit :=
  get! _ := table false (query_eventsToTable events) in
  if negb (continueToken =? "")%string then
    nsay [ErrOut (newline +:+ "More results available. Use --continue-after '" +:+ continueToken
                  +:+ "' to get the next page." +:+ newline);
          ErrOut ("Or use --all-pages to fetch all results automatically." +:+ newline)]
  else err_out (newline +:+ "No more results." +:+ newline).
Definition query_printResults (o : QueryOptions) (result : QueryObject AuditLogQuerySpec CliEvent) : M unit :=
  if IsDefaultOutputFormat (qo_Format o) then query_printTable (q_Results result) (q_Continue result)
  else print_formatted (default "" (qo_Format o)) "EventList" (q_Results result).

Definition query_runSinglePage (o : QueryOptions) : M unit :=
  try! result := request (query_spec o (qo_ContinueAfter o)) or (fun e => nfail (wrap_with "query failed: " e)) in
  query_printResults o result.

(** Pages after the first are printed without column definitions, by the same
    printer. *)
Definition query_show_page (o : QueryOptions) (pageNum : nat) (events : list CliEvent) : M (list CliEvent) :=
  if IsDefaultOutputFormat (qo_Format o) then
    get! _ := table false (if (pageNum =? 1)%nat then query_eventsToTable events
                           else {| t_columns := []; t_rows := query_eventsToRows events |}) in
    nret []
  else nret events.
Definition query_runAllPages (fuel : nat) (o : QueryOptions) : M (option unit) :=
  get! r := all_pages fuel false (query_spec o) (query_show_page o) "" 1 0 [] in
  match r with
  | None => nret None
  | Some (all, _) =>
      if IsDefaultOutputFormat (qo_Format o) then nret (Some tt)
      else done (print_formatted (default "" (qo_Format o)) "EventList" all)
  end.

Definition query_Run (fuel : nat) (o : QueryOptions) : M (option unit) :=
  get! _ := failed_if (query_Validate o) in
  with_client (if qo_AllPages o then query_runAllPages fuel o else done (query_runSinglePage o)).
End QueryCommand.

(* ------------------------------------------------------------------ *)
(** ** Lemmas: following pages *)

(** The answers a client gets that follows the tokens, when the [i]-th request
    for a specification is answered by [serve i]. *)
Inductive paged {Spec Item} (serve : nat -> Spec -> error + QueryObject Spec Item) (query : string -> Spec)
  : nat -> string -> list (QueryObject Spec Item) -> Prop :=
| paged_last i tok r : serve i (query tok) = inr r -> q_Continue r = "" -> paged serve query i tok [r]
| paged_next i tok r rs :
    serve i (query tok) = inr r -> q_Continue r <> "" -> paged serve query (S i) (q_Continue r) rs ->
    paged serve query i tok (r :: rs).

(** A server that answers the [i]-th request by [serve i], and printers that
    print. *)
Class Serves {Spec FSpec Item W : Type} `{CliIO Spec FSpec Item W} (count : W -> nat)
    (serve : nat -> Spec -> error + QueryObject Spec Item) : Prop := {
  serves_query s w : fst (create_query s w) = serve (count w) s /\ count (snd (create_query s w)) = S (count w);
  serves_table b t w : fst (print_table b t w) = None /\ count (snd (print_table b t w)) = count w;
  serves_list f k l w : fst (print_list f k l w) = None /\ count (snd (print_list f k l w)) = count w }.

Section PagesLemmas.
Context {Spec FSpec Item W : Type} `{HIO : CliIO Spec FSpec Item W}.
Context (count : W -> nat) (serve : nat -> Spec -> error + QueryObject Spec Item) `{!Serves count serve}.
Abbreviation M := (Calls (act Spec FSpec Item) W).

Lemma table_prints b t w : exists w', table b t w = (inr tt, [PrintTable b t None], w') /\ count w' = count w.
Proof using Type*.
  unfold table, ndo. destruct (serves_table b t w) as [E Ec]. destruct (print_table b t w) as [r w'].
  cbn in *. subst r. by exists w'.
Qed.
Lemma list_prints f k l w : exists w', printed f k l w = (inr tt, [PrintList f k l None], w') /\ count w' = count w.
Proof using Type*.
  unfold printed, ndo. destruct (serves_list f k l w) as [E Ec]. destruct (print_list f k l w) as [r w'].
  cbn in *. subst r. by exists w'.
Qed.
Lemma request_served s w : exists w', request s w = (serve (count w) s, [Request s (serve (count w) s)], w')
  /\ count w' = S (count w).
Proof using Type*.
  unfold request, nask. destruct (serves_query s w) as [E Ec]. destruct (create_query s w) as [r w'].
  cbn in *. subst r. by exists w'.
Qed.

(** The log of the loop. *)
Section Loop.
Context (dbg : bool) (query : string -> Spec) (onPage : nat -> list Item -> M (list Item)).
Context (keep : list Item -> list Item) (shown : nat -> list Item -> list (act Spec FSpec Item)).
Context (HonPage : forall n items w, exists w', onPage n items w = (inr (keep items), shown n items, w') /\ count w' = count w).

Fixpoint page_log (n : nat) (tok : string) (rs : list (QueryObject Spec Item)) : list (act Spec FSpec Item) :=
  match rs with
  | [] => []
  | r :: rs' =>
      (if dbg then [ErrOut ("DEBUG: Fetching page " +:+ pretty (Z.of_nat n) +:+ newline)] else [])
        ++ [Request (query tok) (inr r)] ++ shown n (q_Results r) ++ page_log (S n) (q_Continue r) rs'
  end.
Definition items_of (rs : list (QueryObject Spec Item)) : list Item := concat (map q_Results rs).

Lemma all_pages_log fuel n total all tok rs w :
  paged serve query (count w) tok rs -> (length rs <= fuel)%nat ->
  exists w', all_pages fuel dbg query onPage tok n total all w
             = (inr (Some (all ++ concat (map (fun r => keep (q_Results r)) rs), (total + length (items_of rs))%nat)),
                page_log n tok rs, w').
Proof using Type*.
  revert n total all tok rs w. induction fuel as [|fuel IH]; intros n total all tok rs w Hp Hf.
  { destruct Hp; cbn in Hf; lia. }
  assert (forall r rest, rs = r :: rest -> serve (count w) (query tok) = inr r) as Hserve by (by destruct Hp; intros ? ? [= <- <-]).
  destruct rs as [|r rs]; [by inversion Hp|]. specialize (Hserve r rs eq_refl).
  destruct (request_served (query tok) w) as (w1 & E1 & C1). rewrite Hserve in E1.
  destruct (HonPage n (q_Results r) w1) as (w2 & E2 & C2). unfold items_of. cbn [all_pages map concat].
  set (total' := (total + length (q_Results r))%nat). set (all' := all ++ keep (q_Results r)).
  assert (exists w3, (if (q_Continue r =? "")%string then nret (Some (all', total'))
                      else all_pages fuel dbg query onPage (q_Continue r) (S n) total' all') w2
            = (inr (Some (all' ++ concat (map (fun r => keep (q_Results r)) rs), (total' + length (items_of rs))%nat)),
               page_log (S n) (q_Continue r) rs, w3)) as (w3 & E3).
  { inversion Hp as [? ? ? _ Hc|? ? ? ? _ Hc Hrest]; subst.
    - exists w2. rewrite Hc. unfold nret, items_of. cbn. by rewrite app_nil_r, Nat.add_0_r.
    - apply String.eqb_neq in Hc. rewrite Hc. cbn [length] in Hf. apply IH; [|lia]. by rewrite C2, C1. }
  exists w3. etransitivity.
  - eapply nbind_ok; [reflexivity|]. eapply ntry_ok; [exact E1|]. eapply nbind_ok; [exact E2|exact E3].
  - unfold all', total', items_of. rewrite length_app, <- app_assoc, Nat.add_assoc. done.
Qed.
End Loop.
End PagesLemmas.

(* ------------------------------------------------------------------ *)
(** ** Lemmas: what the commands log *)

Section CommandLemmas.
Context {Spec FSpec Item W : Type} `{HIO : CliIO Spec FSpec Item W}.
Context (count : W -> nat) (serve : nat -> Spec -> error + QueryObject Spec Item) `{!Serves count serve}.
Context (to_table : list Item -> Table) (kind : string) (output : OutputFlags) (query : string -> Spec).

Definition no_page (n : nat) (items : list Item) : list (act Spec FSpec Item) := [].
Definition table_page (n : nat) (items : list Item) : list (act Spec FSpec Item) :=
  [PrintTable (if (n =? 1)%nat then NoHeaders output else true) (to_table items) None].
Definition showing (n : nat) : act Spec FSpec Item :=
  ErrOut (newline +:+ "Showing " +:+ pretty (Z.of_nat n) +:+ " results." +:+ newline).

(** The log of [runAllPages]: each page as a table as it comes, or all items in
    one list at the end. *)
Definition all_pages_shown (format : option string) (rs : list (QueryObject Spec Item)) : list (act Spec FSpec Item) :=
  if IsDefaultOutputFormat format
  then page_log (Debug output) query table_page 1 "" rs ++ [showing (length (items_of rs))]
  else page_log (Debug output) query no_page 1 "" rs
         ++ [PrintList (default "" format) kind (items_of rs) None; showing (length (items_of rs))].

Lemma run_all_pages_log fuel format rs w :
  paged serve query (count w) "" rs -> (length rs <= fuel)%nat ->
  (IsDefaultOutputFormat format = false -> ToPrinter (default "" format) = None) ->
  exists w', run_all_pages to_table kind fuel output format query w
             = (inr (Some tt), all_pages_shown format rs, w').
Proof using Type*.
  intros Hp Hf Hpr. unfold run_all_pages, all_pages_shown, show_page. destruct (IsDefaultOutputFormat format) eqn:Ed.
  - destruct (all_pages_log count serve (Debug output) query
                (fun n items => nbind (table (if (n =? 1)%nat then NoHeaders output else true) (to_table items)) (fun _ => nret []))
                (fun _ => []) table_page) with (fuel := fuel) (n := 1%nat) (total := 0%nat) (all := @nil Item) (tok := "") (rs := rs) (w := w)
      as (w1 & E); [|done..|].
    { intros n items w0. destruct (table_prints count serve (if (n =? 1)%nat then NoHeaders output else true) (to_table items) w0)
        as (w2 & E & C). exists w2. split; [|done]. etransitivity; [eapply nbind_ok; [exact E|reflexivity]|done]. }
    eexists. etransitivity; [eapply nbind_ok; [exact E|]; eapply nbind_ok; [reflexivity|]; eapply nbind_ok; reflexivity|].
    done.
  - destruct (all_pages_log count serve (Debug output) query (fun _ items => nret items) (fun items => items) no_page)
      with (fuel := fuel) (n := 1%nat) (total := 0%nat) (all := @nil Item) (tok := "") (rs := rs) (w := w)
      as (w1 & E); [by intros n items w0; exists w0|done..|].
    destruct (list_prints count serve (default "" format) kind (items_of rs) w1) as (w2 & E2 & _).
    exists w2. etransitivity; [eapply nbind_ok; [exact E|]; eapply nbind_ok; [|eapply nbind_ok; reflexivity]|].
    + unfold print_formatted. rewrite Hpr by done. exact E2.
    + done.
Qed.
End CommandLemmas.

(** Quoting without backslashes is quoting. *)
Lemma ReplaceAll_absent (b : ascii) (new s : string) : has_byte b s = false -> ReplaceAll s (String b "") new = s.
Proof.
  induction s as [|c s IH]; [done|]. cbn [has_byte]. intros [Hc Hs]%orb_false_iff. rewrite replace_byte, IH by done.
  by rewrite Hc.
Qed.
Lemma EscapeCELString_plain (s : string) : has_byte "\" s = false -> EscapeCELString s = escapeCELString s.
Proof. intros Hs. unfold escapeCELString, EscapeCELString, backslash. by rewrite (ReplaceAll_absent "\") by done. Qed.
Lemma cli_equality_plain (k v : string) : has_byte "\" v = false -> cli_equality k v = celEquality k v.
Proof. intros Hv. unfold cli_equality, celEquality. by rewrite EscapeCELString_plain. Qed.

(** The conditions of the flags, read back from the text of the filter. *)
Lemma combine_filters_reads (conds : list (string * string)) (filter : string) :
  Forall (fun kv => all_bytes path_byte (fst kv) = true /\ has_byte "\" (snd kv) = false) conds ->
  let l := when_set conds in
  match l with
  | [] => combine_filters conds filter = filter
  | _ => exists text, read_conjunction (length l) text = Some l
         /\ combine_filters conds filter = (if (filter =? "")%string then text else "(" +:+ text +:+ ") && (" +:+ filter +:+ ")")
  end.
Proof.
  intros Hc. cbv zeta. unfold combine_filters.
  assert (Forall (fun kv => all_bytes path_byte (fst kv) = true /\ has_byte "\" (snd kv) = false) (when_set conds)) as Hl.
  { apply Forall_forall. intros kv Hkv. unfold when_set in Hkv. apply list_elem_of_In, List.filter_In in Hkv as [Hin _].
    rewrite Forall_forall in Hc. by apply Hc, list_elem_of_In. }
  set (text := String.concat " && " (map (fun '(k, v) => cli_equality k v) (when_set conds))).
  destruct (when_set conds) as [|[k v] l] eqn:E.
  { unfold text. cbn. by destruct (String.eqb_spec filter ""). }
  exists text. split.
  - unfold text. rewrite (map_ext_in _ (fun '(k, v) => celEquality k v)).
    + apply read_conjunction_concat; [|done|done]. eapply Forall_impl; [exact Hl|]. by intros ? [? _].
    + intros [k' v'] Hin%list_elem_of_In. rewrite Forall_forall in Hl. by apply cli_equality_plain, (Hl _ Hin).
  - assert ((text =? "")%string = false) as ->; [|by destruct (filter =? "")%string].
    apply String.eqb_neq. intros Ht. apply (f_equal String.length) in Ht. revert Ht. unfold text. cbn [map].
    rewrite join_cons, !length_append. unfold cli_equality. rewrite !length_append. change (String.length " == '") with 5%nat. cbn [String.length]. lia.
Qed.

Lemma audit_conds_paths o : Forall (fun kv => all_bytes path_byte (fst kv) = true) (audit_conds o).
Proof. repeat constructor. Qed.
Lemma feed_conds_paths o : Forall (fun kv => all_bytes path_byte (fst kv) = true) (feed_conds o).
Proof. repeat constructor. Qed.

(** ** Lemmas: field selectors *)

Lemma selector_terms_app supported (a b : list string) :
  selector_terms supported (a ++ b)
  = let? x := selector_terms supported a in let? y := selector_terms supported b in Ok (x ++ y).
Proof.
  induction a as [|p a IH]; [by cbn; destruct (selector_terms supported b)|]. cbn [app selector_terms].
  destruct (TrimSpace p =? "")%string; [exact IH|]. destruct (selector_term supported (TrimSpace p)); [|done..]. cbn [res_bind].
  rewrite IH. destruct (selector_terms supported a); [|done..]. cbn [res_bind]. by destruct (selector_terms supported b).
Qed.

Lemma ParseFieldSelector_split supported text : ParseFieldSelector supported text = selector_terms supported (Split "," text).
Proof. unfold ParseFieldSelector. by destruct (String.eqb_spec text "") as [->|]. Qed.

Lemma Split_concat_app (l : list string) (t : string) :
  Forall (fun s => has_byte "," s = false) l -> Split "," (String.concat "," (l ++ [t])) = l ++ Split "," t.
Proof.
  induction 1 as [|s l Hs Hl IH]; [done|]. cbn [app]. rewrite <- IH.
  destruct (l ++ [t]) as [|x xs] eqn:E; [by destruct l|].
  change (String.concat "," (s :: x :: xs)) with (s +:+ String "," (String.concat "," (x :: xs))).
  by rewrite Split_append, Split_no_sep.
Qed.

(** A flag that passed its check, as an equality. *)
Definition flag_selector (kv : string * string) : selector := {| s_field := kv.1; s_op := OpEq; s_value := kv.2 |}.

Lemma checked_no_sep `{GoUnicode} v : (exists s, EscapeFieldSelectorValue v = inr s) -> has_byte "," v = false /\ has_byte "=" v = false.
Proof.
  unfold EscapeFieldSelectorValue, ContainsAny. cbn [List.existsb]. destruct (has_byte "=" v), (has_byte "," v); by intros [].
Qed.

Lemma or_else_None a b : or_else a b = None <-> a = None /\ b = None.
Proof. destruct a; cbn; [split; [done|by intros []]|tauto]. Qed.
Lemma check_value_ok `{GoUnicode} flag v : check_value flag v = None -> has_byte "," v = false /\ has_byte "=" v = false.
Proof.
  unfold check_value. destruct (String.eqb_spec v "") as [->|]; [done|].
  destruct (EscapeFieldSelectorValue v) eqn:E; [done|]. intros _. apply checked_no_sep. by eexists.
Qed.
Lemma event_type_ok `{GoUnicode} t : ValidateEventType t = None -> has_byte "," t = false /\ has_byte "=" t = false.
Proof.
  unfold ValidateEventType. destruct (String.eqb_spec t "") as [->|]; [done|].
  destruct (String.eqb_spec t "Normal") as [->|]; [done|]. by destruct (String.eqb_spec t "Warning") as [->|].
Qed.

Lemma Index_absent (b : ascii) (p v : string) : has_byte b v = false -> (exists p1 p2, p = p1 +:+ String b p2) -> Index v p = None.
Proof.
  intros Hv (p1 & p2 & ->). induction v as [|c v IH]; cbn [Index].
  - by destruct p1.
  - cbn [has_byte] in Hv. apply orb_false_iff in Hv as [Hc Hv]. rewrite IH by done.
    assert (HasPrefix (String c v) (p1 +:+ String b p2) = false) as ->; [|done].
    clear IH. revert c v Hc Hv. induction p1 as [|d p1 IHp]; intros c v Hc Hv; cbn [String.append HasPrefix].
    + by rewrite Ascii.eqb_sym, Hc || rewrite Hc.
    + destruct v as [|e v]; [by destruct p1; rewrite andb_false_r|]. cbn [has_byte] in Hv. apply orb_false_iff in Hv as [He Hv].
      rewrite IHp by done. by rewrite andb_false_r.
Qed.

Lemma flag_value_ok kv :
  has_byte "," kv.2 = false -> has_byte "=" kv.2 = false -> TrimSpace kv.2 = kv.2 -> value_ok (flag_selector kv).
Proof.
  intros Hc He Ht. split; [done|]. split; [done|]. cbn. split.
  - apply (Index_absent "="); [done|]. by exists "!", "".
  - pose proof (Index_absent "=" "==" kv.2 He (ex_intro _ "" (ex_intro _ "=" eq_refl))) as Hi.
    destruct (kv.2) as [|a v]; [done|]. cbn [has_byte] in He. apply orb_false_iff in He as [Ha Hv].
    rewrite Ascii.eqb_sym in Ha.
    change ((if (Ascii.eqb "=" a && true)%bool then Some O else option_map S (Index (String a v) "==")) = None).
    by rewrite Ha, Hi.
Qed.

(** The terms of the flags, then those of the explicit selector. *)
Lemma flags_selector_parsed supported (terms : list (string * string)) (extra : string) ts :
  Forall (fun kv => kv.1 ∈ selector_fields /\ value_ok (flag_selector kv)) terms ->
  ParseFieldSelector supported extra = Ok ts ->
  ParseFieldSelector supported
    (String.concat "," (map (fun '(k, v) => k +:+ "=" +:+ v) terms ++ (if (extra =? "")%string then [] else [extra])))
  = Ok (map (fun kv => parsed (flag_selector kv)) terms ++ ts).
Proof.
  intros Ht He. rewrite ParseFieldSelector_split in *.
  assert (map (fun '(k, v) => k +:+ "=" +:+ v) terms = map render (map flag_selector terms)) as ->
    by (rewrite map_map; apply map_ext; by intros []).
  assert (Forall (fun s => s_field s ∈ selector_fields /\ value_ok s) (map flag_selector terms)) as Hss by by apply List.Forall_map.
  assert (selector_terms supported (map render (map flag_selector terms)) = Ok (map (fun kv => parsed (flag_selector kv)) terms)) as Hr
    by by rewrite selector_terms_render, map_map.
  assert (Forall (fun s => has_byte "," s = false) (map render (map flag_selector terms))) as Hcomma.
  { apply List.Forall_map. eapply Forall_impl; [exact Hss|]. intros s [Hf (Hc & _)]. by apply render_no_comma. }
  destruct (String.eqb_spec extra "") as [->|Hne].
  - injection He as <-. rewrite !app_nil_r. destruct terms as [|kv terms]; [done|]. rewrite Split_concat by done. exact Hr.
  - rewrite Split_concat_app by done. by rewrite selector_terms_app, Hr, He.
Qed.

(* ------------------------------------------------------------------ *)
(** ** Theorems *)

(** [text] is a filter made of the flags: what it says, read back with the
    quoting rules of CEL literals. *)
Definition reads_back (conds : list (string * string)) (filter text : string) : Prop :=
  let l := when_set conds in
  match l with
  | [] => text = filter
  | _ => exists t, read_conjunction (length l) t = Some l
         /\ text = (if (filter =? "")%string then t else "(" +:+ t +:+ ") && (" +:+ filter +:+ ")")
  end.
Definition no_backslash (conds : list (string * string)) : Prop := Forall (fun kv => has_byte "\" kv.2 = false) conds.

(** The field selector the events command builds is read by the server as
    exactly the terms of its checked flags, each an equality with the value
    given, followed by the terms of the selector given as text: no flag can
    change or add a term. *)
Theorem events_selector_reads_back `{GoUnicode} (supported : list string) (o : EventsOptions) ts :
  events_Validate o = None ->
  Forall (fun kv => TrimSpace kv.2 = kv.2) (events_terms o) ->
  ParseFieldSelector supported (eo_FieldSelector o) = Ok ts ->
  ParseFieldSelector supported (buildFieldSelector o)
  = Ok (map (fun kv => {| Column := field_column kv.1; Operator := FieldSelectorEqual; Value := kv.2 |}) (events_terms o) ++ ts).
Proof.
  intros Hv Ht Hts. apply (flags_selector_parsed supported (events_terms o)); [|done].
  unfold events_Validate in Hv. rewrite !or_else_None in Hv. destruct Hv as (_ & _ & Hty & Hre & Hki & Hna & _).
  assert (Forall (fun kv => kv.1 ∈ selector_fields /\ has_byte "," kv.2 = false /\ has_byte "=" kv.2 = false)
            [("type", eo_Type o); ("reason", eo_Reason o); ("regarding.kind", eo_RegardingKind o);
             ("regarding.name", eo_RegardingName o)]) as Hall.
  { repeat apply Forall_cons_2; [..|by apply Forall_nil].
    all: split; [by_decide|]; cbn [snd]; first [by apply event_type_ok|by eapply check_value_ok]. }
  apply Forall_forall. intros kv Hin. rewrite Forall_forall in Ht, Hall. specialize (Ht _ Hin).
  apply list_elem_of_In, List.filter_In in Hin as [Hin _]. apply list_elem_of_In, Hall in Hin as (? & ? & ?).
  split; [done|]. by apply flag_value_ok.
Qed.

Module ToyFlags.
Definition hour : TimeRangeFlags := {| fl_StartTime := "now-1h"; fl_EndTime := "now" |}.
Definition pages : PaginationFlags := {| fl_Limit := 25; fl_AllPages := false; fl_ContinueAfter := "" |}.
Definition plain : OutputFlags := {| NoHeaders := false; Debug := false |}.
Definition audit_ (ns user filter : string) : AuditOptions := {|
  ao_Filter := filter; ao_Namespace := ns; ao_Resource := ""; ao_Verb := ""; ao_User := user;
  ao_TimeRange := hour; ao_Pagination := pages; ao_Output := plain; ao_Suggest := ""; ao_Format := None |}.
Definition feed_ (actor : string) : FeedOptions := {|
  fo_Filter := ""; fo_Namespace := ""; fo_Actor := actor; fo_Kind := "Pod"; fo_APIGroup := ""; fo_ChangeSource := "";
  fo_Search := ""; fo_ResourceUID := ""; fo_Watch := false; fo_TimeRange := hour; fo_Pagination := pages;
  fo_Output := plain; fo_Suggest := ""; fo_Format := None |}.
Definition events_ (reason selector : string) : EventsOptions := {|
  eo_Namespace := ""; eo_FieldSelector := selector; eo_Type := "Warning"; eo_Reason := reason;
  eo_RegardingKind := ""; eo_RegardingName := "web-0";
  eo_TimeRange := hour; eo_Pagination := pages; eo_Output := plain; eo_Suggest := ""; eo_Format := None |}.
End ToyFlags.

Lemma events_selector_reads_back_witness :
  exists ts, ParseFieldSelector event_columns (buildFieldSelector (ToyFlags.events_ "BackOff" "regarding.namespace!=kube-system"))
  = Ok (map (fun kv => {| Column := field_column kv.1; Operator := FieldSelectorEqual; Value := kv.2 |})
          [("type", "Warning"); ("reason", "BackOff"); ("regarding.name", "web-0")] ++ ts)
  /\ length ts = 1%nat.
Proof.
  eexists. split.
  - apply (@events_selector_reads_back latin event_columns (ToyFlags.events_ "BackOff" "regarding.namespace!=kube-system")).
    + vm_compute. reflexivity.
    + by_decide.
    + vm_compute. reflexivity.
  - reflexivity.
Defined.
