(* ===== verification/CliHistory.v ===== *)
(** * pkg/cmd/history.go: the history of a resource

    The audit events of one resource, oldest first, as a table, a list, or
    with what changed between consecutive versions. *)

From Stdlib Require Import Ascii String.
From stdpp Require Import base numbers list strings gmap pretty.
From Stdlib Require Import ZArith Lia.
From S2P Require Import Prelude GoLib Calls GoFmt GoJson Types TimeUtil CelPolicy Activity Dlq EventProc CelFilter Query EventStore Watch Rest EventsRest ActivityRest Cli CliQuery.

Record HistoryOptions := {
  ho_Namespace : string; ho_Resource : string; ho_Name : string; ho_ShowDiff : bool;
  ho_TimeRange : TimeRangeFlags; ho_Pagination : PaginationFlags; ho_Format : option string }.

(** The namespace of the kubeconfig: it, and whether it is enforced.  [None]:
    there is no factory. *)
Definition history_Complete (o : HistoryOptions) (args : list string) (namespace : option (error + string * bool))
  : error + HistoryOptions :=
  match args with
  | [resource; name] =>
      let named ns := {| ho_Namespace := ns; ho_Resource := resource; ho_Name := name; ho_ShowDiff := ho_ShowDiff o;
                         ho_TimeRange := ho_TimeRange o; ho_Pagination := ho_Pagination o; ho_Format := ho_Format o |} in
      match namespace with
      | None => inr (named (ho_Namespace o))
      | Some (inl e) => inl (wrap_with "failed to get namespace: " e)
      | Some (inr (ns, enforce)) =>
          if (enforce || negb (ns =? "")%string)%bool then inr (named ns) else inr (named (ho_Namespace o))
      end
  | _ => inl (Errorf [PStr "exactly two arguments are required: RESOURCE_TYPE NAME"])
  end.

Definition history_Validate (o : HistoryOptions) : option error :=
  if (ho_Resource o =? "")%string then Some (Errorf [PStr "resource type is required"])
  else if (ho_Name o =? "")%string then Some (Errorf [PStr "resource name is required"])
  else or_else (TimeRange_Validate (ho_TimeRange o)) (Pagination_Validate (ho_Pagination o)).

Definition modifying_verbs : string := "verb in ['create', 'update', 'patch', 'delete']".
Definition history_buildFilter (o : HistoryOptions) : string :=
  String.concat " && "
    ([cli_equality "objectRef.resource" (ho_Resource o); cli_equality "objectRef.name" (ho_Name o); modifying_verbs]
     ++ (if negb (ho_Namespace o =? "")%string then [cli_equality "objectRef.namespace" (ho_Namespace o)] else [])).

Definition history_spec (o : HistoryOptions) (continue_ : string) : AuditLogQuerySpec :=
  {| aq_StartTime := fl_StartTime (ho_TimeRange o); aq_EndTime := fl_EndTime (ho_TimeRange o);
     aq_Filter := history_buildFilter o; aq_Limit := fl_Limit (ho_Pagination o); aq_Continue := continue_ |}.

(** [for i := 0; i < len/2; i++ { j := len - i - 1; swap }] *)
Definition reverse_events {A} (l : list A) : list A :=
  fold_left (fun l' i => swap i (length l - i - 1) l') (seq 0 (length l / 2)) l.

Definition history_eventsToRows `{GoLocal} (events : list CliEvent) : list (list cell) :=
  map (fun e => map CText [event_timestamp Format_DateTime e; ce_Verb e; ce_Username e; status_text e]) events.
Definition history_eventsToTable `{GoLocal} (events : list CliEvent) : Table :=
  {| t_columns := ["Timestamp"; "Verb"; "User"; "Status"]; t_rows := history_eventsToRows events |}.

(* ------------------------------------------------------------------ *)
(** ** Objects *)

Definition useful_metadata : list string := ["name"; "namespace"; "labels"; "annotations"].
Definition noisy_fields : list string := ["managedFields"; "resourceVersion"; "generation"; "uid"].

Definition cleanMeta (meta : gomap) : gomap := filter (fun kv => kv.1 ∈ useful_metadata) meta.
Definition cleanObjectForDiff (obj : gomap) : gomap :=
  let others := filter (fun kv => kv.1 <> "metadata" /\ kv.1 ∉ noisy_fields) obj in
  match as_map (obj !! "metadata") with
  | Some meta => if (0 <? size (cleanMeta meta))%nat then <["metadata" := AMap (cleanMeta meta)]> others else others
  | None => others
  end.

(** The value of a key, [nil] if absent, as [json.Marshal] writes it. *)
Definition marshal_at (m : gomap) (k : string) : string := Marshal (default ANull (m !! k)).
Definition too_noisy (k : string) : bool := ((k =? "status") || (k =? "metadata"))%string%bool.

(** [curr_keys] and [prev_keys]: the keys in the order the two loops meet
    them. *)
Definition changed_fields (prev curr : gomap) (curr_keys prev_keys : list string) : list string :=
  List.filter (fun k => negb (too_noisy k) && negb (marshal_at prev k =? marshal_at curr k)%string)%bool curr_keys
  ++ map (fun k => k +:+ " (removed)")
       (List.filter (fun k => negb (too_noisy k) && bool_decide (curr !! k = None))%bool prev_keys).
Definition summary_of_changes (changes : list string) : string :=
  match changes with
  | [] => "metadata only"
  | _ => if (3 <? length changes)%nat
         then String.concat ", " (take 3 changes) +:+ " and " +:+ pretty (Z.of_nat (length changes - 3)) +:+ " more fields"
         else String.concat ", " changes
  end.
Definition summarizeChanges (prev curr : gomap) (curr_keys prev_keys : list string) : string :=
  summary_of_changes (changed_fields prev curr curr_keys prev_keys).

(* ------------------------------------------------------------------ *)
(** ** Colours *)

Definition escape : ascii := ascii_of_nat 27.
Definition ansi (code : string) : string := String escape ("[" +:+ code +:+ "m").
Definition colorReset : string := ansi "0".
Definition in_color (code s : string) : string := ansi code +:+ s +:+ colorReset.
Definition line_break : ascii := ascii_of_nat 10.

Definition colorize_line (line : string) : string :=
  if (line =? "")%string then line
  else if (HasPrefix line "---" || HasPrefix line "+++")%bool then ansi "1" +:+ in_color "36" line
  else if HasPrefix line "@@" then in_color "36" line
  else if HasPrefix line "-" then in_color "31" line
  else if HasPrefix line "+" then in_color "32" line
  else line.
Definition colorizeDiff (useColor : bool) (diff : string) : string :=
  if negb useColor then diff
  else String.concat newline (map colorize_line (Split line_break diff)).

(** The part before the first colon, and the part after. *)
Fixpoint cut_colon (s : string) : option (string * string) :=
  match s with
  | EmptyString => None
  | String a s' => if Ascii.eqb a ":" then Some ("", s')
                   else match cut_colon s' with Some (k, v) => Some (String a k, v) | None => None end
  end.
Definition double_quote : string := String dquote_byte "".
Definition highlight_value (value : string) : string :=
  if HasPrefix value double_quote then in_color "33" value
  else if ((value =? "true") || (value =? "false"))%string%bool then in_color "32" value
  else if ((value =? "null") || (value =? "null,"))%string%bool then in_color "90" value
  else match value with
       | String a _ => if is_digit a then in_color "35" value else value
       | EmptyString => value
       end.
Definition highlight_line (line : string) : string :=
  match cut_colon line with
  | None => line
  | Some (key, value) =>
      ReplaceAll key double_quote (in_color "36" double_quote) +:+ ":" +:+ " " +:+ highlight_value (TrimSpace value)
  end.
Definition highlightJSON (jsonStr : string) : string :=
  String.concat newline (map highlight_line (Split line_break jsonStr)).

(* ------------------------------------------------------------------ *)
(** ** The changes *)

(** [json.Unmarshal] of a response object into a nil map ([None]: still nil),
    the unified diff of two texts by go-difflib, and the orders in which
    [range] meets the keys of a map. *)
Class HistoryLib := {
  unmarshal_object : string -> error + option gomap;
  UnifiedDiff : string -> string -> error + string;
  range_keys : nat -> gomap -> list string }.

Definition rule_line : string := "──────────────────────────────────────────────────────────────".
Definition box_rule : string := "─────────────────────────────────────────────────────────────".
Definition verb_emoji (verb : string) : string * string :=
  if (verb =? "create")%string then ("✨", ansi "32")
  else if ((verb =? "update") || (verb =? "patch"))%string%bool then ("📝", ansi "33")
  else if (verb =? "delete")%string then ("🗑️", ansi "31")
  else ("•", ansi "0").

Definition printChangeHeader (changeNum : nat) (timestamp verb username : string) (status : option (Z * string)) (useColor : bool)
  : string :=
  let num := pad_right 3 (pretty (Z.of_nat changeNum)) in
  if useColor then
    let bar := in_color "2" "│" in
    let (emoji, color) := verb_emoji verb in
    newline +:+ in_color "2" ("╭" +:+ box_rule +:+ "╮") +:+ newline
    +:+ bar +:+ " " +:+ in_color "1;36" ("Change #" +:+ num) +:+ " " +:+ emoji +:+ " "
    +:+ color +:+ pad_right 8 verb +:+ colorReset
    +:+ match status with
        | Some (code, _) => " " +:+ in_color (if (400 <=? code)%Z then "31" else "32") ("[" +:+ pretty code +:+ "]")
        | None => ""
        end
    +:+ newline
    +:+ bar +:+ " " +:+ in_color "90" ("🕐 " +:+ timestamp) +:+ newline
    +:+ bar +:+ " " +:+ in_color "90" ("👤 " +:+ username) +:+ newline
    +:+ in_color "2" ("╰" +:+ box_rule +:+ "╯")
  else
    newline +:+ "╭" +:+ box_rule +:+ "╮" +:+ newline
    +:+ "│ Change #" +:+ num +:+ "  " +:+ pad_right 8 verb
    +:+ match status with Some (code, _) => " [" +:+ pretty code +:+ "]" | None => "" end +:+ newline
    +:+ "│ " +:+ timestamp +:+ newline +:+ "│ " +:+ username +:+ newline
    +:+ "╰" +:+ box_rule +:+ "╯".

(** [printObjectPretty]: objects that were decoded always encode. *)
Definition printObjectPretty (obj : gomap) (useColor : bool) : string :=
  let text := MarshalIndent (AMap obj) in
  (if useColor then highlightJSON text else text) +:+ newline.

Section Diff.
Context `{HistoryLib} `{GoLocal}.
Context {Spec FSpec Item : Type}.
Abbreviation act := (act Spec FSpec Item).

Definition printObjectDiff (prev curr : gomap) (useColor : bool) : error + string :=
  match UnifiedDiff (MarshalIndent (AMap prev)) (MarshalIndent (AMap curr)) with
  | inl e => inl (wrap_with "failed to generate diff: " e)
  | inr diffText => inr (if (diffText =? "")%string then "(no changes detected)" +:+ newline
                         else colorizeDiff useColor diffText)
  end.

(** A headline, coloured or not. *)
Definition headline (useColor : bool) (code emoji text : string) : act :=
  Out (newline +:+ (if useColor then in_color code (emoji +:+ text) else text) +:+ newline +:+ newline).

(** What is printed below the header of a change. *)
Definition print_change (i : nat) (verb : string) (prev curr : option gomap) (useColor : bool) : list act :=
  match prev, curr with
  | Some p, Some c =>
      let cleanPrev := cleanObjectForDiff p in
      let cleanCurr := cleanObjectForDiff c in
      let changes := summarizeChanges cleanPrev cleanCurr (range_keys (2 * i) cleanCurr) (range_keys (2 * i + 1) cleanPrev) in
      (if (changes =? "")%string then []
       else [Out (newline +:+ (if useColor then in_color "1" "📝 Changes:" else "Changes:") +:+ " " +:+ changes +:+ newline)])
      ++ [Out newline]
      ++ [match printObjectDiff cleanPrev cleanCurr useColor with
          | inr text => Out text
          | inl e => ErrOut ("Warning: failed to generate diff: " +:+ error_text e +:+ newline)
          end]
  | None, Some c =>
      [if (verb =? "create")%string then headline useColor "32" "✨ " "Created resource"
       else headline useColor "33" "📸 " "Initial state (oldest available change)";
       Out (printObjectPretty (cleanObjectForDiff c) useColor)]
  | Some p, None =>
      if (verb =? "delete")%string
      then [headline useColor "31" "🗑️  " "Deleted resource"; Out (printObjectPretty (cleanObjectForDiff p) useColor)]
      else []
  | None, None => []
  end.

Definition response_object (e : CliEvent) : error + option gomap :=
  match ce_ResponseObject e with
  | Some raw => if (raw =? "")%string then inr None else unmarshal_object raw
  | None => inr None
  end.

(** The loop: [prev] is the last object seen. *)
Fixpoint diff_loop (i : nat) (prev : option gomap) (useColor : bool) (events : list CliEvent) : list act :=
  match events with
  | [] => []
  | e :: rest =>
      match response_object e with
      | inl err => ErrOut ("Warning: failed to parse response object for event " +:+ pretty (Z.of_nat i) +:+ ": "
                           +:+ error_text err +:+ newline) :: diff_loop (S i) prev useColor rest
      | inr curr =>
          Out (printChangeHeader (S i) (event_timestamp Format_DateTime e) (ce_Verb e) (ce_Username e)
                 (ce_ResponseStatus e) useColor)
          :: print_change i (ce_Verb e) prev curr useColor
          ++ diff_loop (S i) (match curr with Some c => Some c | None => prev end) useColor rest
      end
  end.

Definition printDiff (term : Terminal) (events : list CliEvent) : list act :=
  match events with
  | [] => [Out ("No changes found for this resource." +:+ newline)]
  | _ =>
      let useColor := SupportsColor term in
      diff_loop 0 None useColor events
      ++ (let total := " " +:+ pretty (Z.of_nat (length events)) +:+ " changes" +:+ newline in
          if useColor then [ErrOut (newline +:+ in_color "2" rule_line +:+ newline); ErrOut (in_color "1" "Total:" +:+ total)]
          else [ErrOut (newline +:+ rule_line +:+ newline); ErrOut ("Total:" +:+ total)])
  end.
End Diff.

(* ------------------------------------------------------------------ *)
(** ** The command *)

Section History.
Context `{HistoryLib} `{GoLocal} {W : Type} `{CliIO AuditLogQuerySpec FacetQuerySpec CliEvent W}.
Abbreviation M := (Calls (act AuditLogQuerySpec FacetQuerySpec CliEvent) W).

Definition history_printTable (events : list CliEvent) (continueToken : string) : M unit :=
  get! _ := table false (history_eventsToTable events) in
  if negb (continueToken =? "")%string then
    nsay [ErrOut (newline +:+ "More results available. Use --continue-after '" +:+ continueToken
                  +:+ "' to get the next page." +:+ newline);
          ErrOut ("Or use --all-pages to fetch all results automatically." +:+ newline)]
  else err_out (newline +:+ "No more results." +:+ newline).
Definition printTableAllEvents (events : list CliEvent) : M unit :=
  get! _ := table false (history_eventsToTable events) in
  err_out (newline +:+ "Showing " +:+ pretty (Z.of_nat (length events)) +:+ " events." +:+ newline).

(** The choice both ways of running make, on the events oldest first. *)
Definition history_show (term : Terminal) (o : HistoryOptions) (events : list CliEvent) (as_table : M unit) : M unit :=
  if negb (IsDefaultOutputFormat (ho_Format o)) then print_formatted (default "" (ho_Format o)) "EventList" events
  else if ho_ShowDiff o then nsay (printDiff term events)
  else as_table.

Definition history_printResults (term : Terminal) (o : HistoryOptions) (result : QueryObject AuditLogQuerySpec CliEvent) : M unit :=
  let events := reverse_events (q_Results result) in
  history_show term o events (history_printTable events (q_Continue result)).
Definition history_runSinglePage (term : Terminal) (o : HistoryOptions) : M unit :=
  try! result := request (history_spec o (fl_ContinueAfter (ho_Pagination o))) or (fun e => nfail (wrap_with "query failed: " e)) in
  history_printResults term o result.
Definition history_runAllPages (fuel : nat) (term : Terminal) (o : HistoryOptions) : M (option unit) :=
  get! r := all_pages fuel false (history_spec o) (fun _ items => nret items) "" 1 0 [] in
  match r with
  | None => nret None
  | Some (all, _) => let events := reverse_events all in done (history_show term o events (printTableAllEvents events))
  end.

Definition history_Run (fuel : nat) (term : Terminal) (o : HistoryOptions) : M (option unit) :=
  with_client (if fl_AllPages (ho_Pagination o) then history_runAllPages fuel term o else done (history_runSinglePage term o)).

(** The [RunE] of the command. *)
Definition history_command (fuel : nat) (term : Terminal) (o : HistoryOptions) (args : list string)
    (namespace : option (error + string * bool)) : M (option unit) :=
  get! o' := nlift (history_Complete o args namespace) in
  get! _ := failed_if (history_Validate o') in
  history_Run fuel term o'.
End History.

(* ------------------------------------------------------------------ *)
(** ** Lemmas: the reversal *)

(** After [k] swaps the first and the last [k] are exchanged. *)
Lemma reversal_invariant {A} (l : list A) k :
  (k <= length l / 2)%nat ->
  let l' := fold_left (fun l' i => swap i (length l - i - 1) l') (seq 0 k) l in
  length l' = length l
  /\ forall i, (i < length l)%nat ->
     l' !! i = if decide (i < k \/ length l - k <= i)%nat then l !! (length l - i - 1)%nat else l !! i.
Proof.
  pose proof (Nat.div_mod_eq (length l) 2). pose proof (Nat.mod_upper_bound (length l) 2).
  induction k as [|k IH]; intros Hk; cbv zeta.
  - split; [done|]. intros i Hi. rewrite decide_False by lia. done.
  - destruct IH as [Hlen IH]; [lia|]. rewrite seq_S, fold_left_app. cbn [fold_left].
    split; [by rewrite length_swap|]. intros i Hi. rewrite lookup_swap by (rewrite Hlen; lia). rewrite !IH by lia.
    repeat case_decide; subst; try lia; try done; f_equal; lia.
Qed.

Lemma reverse_events_reverse {A} (l : list A) : reverse_events l = reverse l.
Proof.
  apply list_eq. intros i. unfold reverse_events. pose proof (Nat.div_mod_eq (length l) 2).
  pose proof (Nat.mod_upper_bound (length l) 2).
  destruct (reversal_invariant l (length l / 2) ltac:(lia)) as [Hlen Hl].
  destruct (decide (i < length l)%nat) as [Hi|Hi].
  - rewrite Hl, reverse_lookup by done. case_decide; f_equal; lia.
  - rewrite !lookup_ge_None_2; [done|rewrite length_reverse; lia|lia].
Qed.

(** ** Lemmas: colours *)

(** A text without its colour codes. *)
Fixpoint strip_ansi_go (in_code : bool) (s : string) : string :=
  match s with
  | EmptyString => ""
  | String a s' =>
      if in_code then strip_ansi_go (negb (Ascii.eqb a "m")) s'
      else if Ascii.eqb a escape then strip_ansi_go true s' else String a (strip_ansi_go false s')
  end.
Definition strip_ansi (s : string) : string := strip_ansi_go false s.

Lemma strip_plain (a b : string) : has_byte escape a = false -> strip_ansi (a +:+ b) = a +:+ strip_ansi b.
Proof.
  induction a as [|c a IH]; [done|]. cbn [has_byte]. intros [Hc Ha]%orb_false_iff. unfold strip_ansi in *.
  cbn [String.append strip_ansi_go]. rewrite Hc. by rewrite IH.
Qed.
Lemma strip_ansi_code (code b : string) : has_byte "m" code = false -> strip_ansi (ansi code +:+ b) = strip_ansi b.
Proof.
  intros Hc. unfold ansi, strip_ansi. cbn. induction code as [|c code IH]; [done|]. cbn [has_byte] in Hc.
  apply orb_false_iff in Hc as [Hc Hr]. cbn. rewrite Hc. by apply IH.
Qed.
Lemma strip_in_color (code s b : string) :
  has_byte "m" code = false -> has_byte escape s = false -> strip_ansi (in_color code s +:+ b) = s +:+ strip_ansi b.
Proof.
  intros Hc Hs. unfold in_color, colorReset. rewrite !append_assoc, strip_ansi_code, strip_plain by done. by rewrite strip_ansi_code.
Qed.
Lemma strip_colorize (line b : string) : has_byte escape line = false -> strip_ansi (colorize_line line +:+ b) = line +:+ strip_ansi b.
Proof.
  intros Hl. unfold colorize_line. repeat match goal with |- context [if ?c then _ else _] => destruct c end;
    rewrite ?append_assoc, ?(strip_ansi_code "1") by done; by rewrite ?strip_in_color, ?strip_plain.
Qed.

Lemma strip_colorized (l : list string) :
  Forall (fun t => has_byte escape t = false) l ->
  strip_ansi (String.concat newline (map colorize_line l)) = String.concat newline l.
Proof.
  induction 1 as [|x l Hx Hl IH]; [done|]. cbn [map]. rewrite !join_cons, strip_colorize by done. f_equal.
  destruct l as [|y l]; [done|]. cbn [map] in *. rewrite strip_plain by done. by rewrite IH.
Qed.

(** ** Lemmas: cleaned objects *)

(** The metadata of an object, empty if it is not one. *)
Definition metadata_of (obj : gomap) : gomap := nil_map (as_map (obj !! "metadata")).
(** Versions that differ in nothing a history shows. *)
Definition same_but_noise (p c : gomap) : Prop :=
  (forall k, k <> "metadata" -> k ∉ noisy_fields -> p !! k = c !! k)
  /\ (forall k, k ∈ useful_metadata -> metadata_of p !! k = metadata_of c !! k).

Lemma cleanMeta_lookup meta k : cleanMeta meta !! k = if decide (k ∈ useful_metadata) then meta !! k else None.
Proof.
  unfold cleanMeta. rewrite map_lookup_filter. destruct (meta !! k); cbn; [|by case_decide].
  by repeat case_guard; repeat case_decide.
Qed.
Lemma cleaned_lookup obj k :
  cleanObjectForDiff obj !! k
  = if decide (k = "metadata") then
      (if (0 <? size (cleanMeta (metadata_of obj)))%nat then Some (AMap (cleanMeta (metadata_of obj))) else None)
    else if decide (k ∈ noisy_fields) then None else obj !! k.
Proof.
  unfold cleanObjectForDiff, metadata_of.
  assert (forall k', (filter (fun kv : string * any => kv.1 <> "metadata" /\ kv.1 ∉ noisy_fields) obj : gomap) !! k'
    = if decide (k' = "metadata") then None else if decide (k' ∈ noisy_fields) then None else obj !! k') as Hf.
  { intros k'. rewrite map_lookup_filter. destruct (obj !! k'); cbn; [|by repeat case_decide].
    repeat case_guard; repeat case_decide; naive_solver. }
  destruct (as_map (obj !! "metadata")) as [meta|]; cbn [nil_map default id from_option].
  - destruct (0 <? size (cleanMeta meta))%nat; [|rewrite Hf; by repeat case_decide].
    destruct (decide (k = "metadata")) as [->|Hne]; [by rewrite lookup_insert_eq|].
    rewrite lookup_insert_ne, Hf by done. by rewrite decide_False by done.
  - rewrite Hf. done.
Qed.

Lemma cleanMeta_size m n : cleanMeta m = cleanMeta n <->
  (if (0 <? size (cleanMeta m))%nat then Some (AMap (cleanMeta m)) else None)
  = (if (0 <? size (cleanMeta n))%nat then Some (AMap (cleanMeta n)) else None).
Proof.
  assert (forall x : gomap, (0 <? size x)%nat = false -> x = ∅) as He.
  { intros x. destruct (Nat.ltb_spec 0 (size x)); [done|]. intros _. apply map_size_empty_inv. lia. }
  split; [by intros ->|]. intros E.
  destruct (0 <? size (cleanMeta m))%nat eqn:Em, (0 <? size (cleanMeta n))%nat eqn:En; try done.
  - by injection E.
  - by rewrite (He _ Em), (He _ En).
Qed.

Lemma cleaned_same (p c : gomap) : cleanObjectForDiff p = cleanObjectForDiff c <-> same_but_noise p c.
Proof.
  rewrite map_eq_iff. split.
  - intros E. split.
    + intros k Hk Hn. specialize (E k). rewrite !cleaned_lookup in E. by rewrite !decide_False in E by done.
    + intros k Hk. specialize (E "metadata"). rewrite !cleaned_lookup, !decide_True in E by done.
      apply cleanMeta_size in E. apply (f_equal (fun m : gomap => m !! k)) in E. rewrite !cleanMeta_lookup in E.
      by rewrite !decide_True in E by done.
  - intros [Hk Hm] k. rewrite !cleaned_lookup. case_decide as E.
    + apply cleanMeta_size. apply map_eq. intros j. rewrite !cleanMeta_lookup. case_decide; [by apply Hm|done].
    + case_decide; [done|by apply Hk].
Qed.

(** ** Lemmas: the fields that changed *)

Lemma no_changes_same (m : gomap) kc kp :
  kp ≡ₚ map fst (map_to_list m) -> changed_fields m m kc kp = [].
Proof.
  intros Hp. unfold changed_fields.
  assert (forall l, List.filter (fun k => negb (too_noisy k) && negb (marshal_at m k =? marshal_at m k)%string)%bool l = []) as ->.
  { induction l as [|k l IH]; [done|]. cbn. by rewrite String.eqb_refl, andb_false_r. }
  assert (List.filter (fun k => negb (too_noisy k) && bool_decide (m !! k = None))%bool kp = []) as ->; [|done].
  assert (Forall (fun k => m !! k <> None) kp) as Hall.
  { rewrite Hp. apply List.Forall_map, Forall_forall. intros [k v] Hin%elem_of_map_to_list. cbn. by rewrite Hin. }
  clear Hp. induction Hall as [|k l Hk Hl IH]; [done|]. cbn. rewrite bool_decide_eq_false_2 by done. by rewrite andb_false_r.
Qed.

Lemma keys_NoDup (m : gomap) ks : ks ≡ₚ map fst (map_to_list m) -> NoDup ks /\ forall k, k ∈ ks <-> is_Some (m !! k).
Proof.
  intros Hp. split; [rewrite Hp; apply NoDup_fst_map_to_list|]. intros k. rewrite Hp, list_elem_of_fmap. split.
  - intros ([k' v] & -> & Hin%elem_of_map_to_list). by exists v.
  - intros [v Hv]. exists (k, v). split; [done|]. by apply elem_of_map_to_list.
Qed.
Lemma filter_keys (P : string -> bool) ks k : k ∈ List.filter P ks <-> k ∈ ks /\ P k = true.
Proof. rewrite !list_elem_of_In. apply List.filter_In. Qed.

(* ------------------------------------------------------------------ *)
(** ** Theorems *)

(** The filter of a history, read: the conjunction of its equalities, the verbs
    in between. *)
Definition history_conds (o : HistoryOptions) : list (string * string) :=
  [("objectRef.resource", ho_Resource o); ("objectRef.name", ho_Name o)].
Definition history_reads_back (o : HistoryOptions) (text : string) : Prop :=
  exists t rest, text = t +:+ " && " +:+ modifying_verbs +:+ rest
  /\ read_conjunction 2 t = Some (history_conds o)
  /\ if (ho_Namespace o =? "")%string then rest = ""
     else exists t', rest = " && " +:+ t' /\ read_conjunction 1 t' = Some [("objectRef.namespace", ho_Namespace o)].

(** C26: As long as no flag holds a backslash, the filters the audit, feed and
    history commands build from their flags and arguments say what these say,
    quotes and all: read back they are the conjunction of exactly the given
    fields with exactly the given values, with the filter given as text or, for
    a history, the modifying verbs. *)
Theorem cli_filters_read_back (a : AuditOptions) (f : FeedOptions) (h : HistoryOptions) :
  (no_backslash (audit_conds a) -> reads_back (audit_conds a) (ao_Filter a) (audit_buildFilter a))
  /\ (no_backslash (feed_conds f) -> reads_back (feed_conds f) (fo_Filter f) (feed_buildFilter f))
  /\ (no_backslash (("objectRef.namespace", ho_Namespace h) :: history_conds h) -> history_reads_back h (history_buildFilter h)).
Proof.
  split; [|split]; intros Hb.
  - apply (combine_filters_reads (audit_conds a) (ao_Filter a)), Forall_and. split; [apply audit_conds_paths|done].
  - apply (combine_filters_reads (feed_conds f) (fo_Filter f)), Forall_and. split; [apply feed_conds_paths|done].
  - apply Forall_cons in Hb as [Hn [Hr [Hm _]%Forall_cons]%Forall_cons]. cbn [snd] in *. unfold history_buildFilter.
    rewrite !cli_equality_plain by done. eexists (String.concat " && " (map (fun '(k, v) => celEquality k v) (history_conds h))), _.
    split; [|split; [by apply read_conjunction_concat; [repeat constructor|done|cbn; lia]|]].
    + cbn [map history_conds app]. rewrite !join_cons, append_nil_r, !append_assoc. reflexivity.
    + destruct (ho_Namespace h =? "")%string; cbn [negb app]; [done|]. eexists. split; [reflexivity|].
      apply (read_conjunction_concat [("objectRef.namespace", ho_Namespace h)]); [repeat constructor|done|done].
Qed.

(** What a history says of a change from one version to the next.  Two
    versions are equal once cleaned exactly when they differ only in metadata
    other than name, namespace, labels and annotations, or in the fields the
    server manages; then the change shows no field and no diff.  Otherwise,
    whatever the order Go meets the keys of the maps in, the summary is made of
    each field whose value changed and each that is gone, once each, other than
    metadata and status. *)
Theorem history_shows_changes `{HistoryLib} `{GoLocal} {Spec FSpec Item : Type} (i : nat) (verb : string) (p c : gomap)
    (kc kp : list string) :
  let cp := cleanObjectForDiff p in let cc := cleanObjectForDiff c in
  (forall n m, range_keys n m ≡ₚ map fst (map_to_list m)) ->
  (forall text, UnifiedDiff text text = inr "") ->
  kc ≡ₚ map fst (map_to_list cc) -> kp ≡ₚ map fst (map_to_list cp) ->
  (cp = cc <-> same_but_noise p c)
  /\ (same_but_noise p c ->
      print_change (Spec := Spec) (FSpec := FSpec) (Item := Item) i verb (Some p) (Some c) false
      = [Out (newline +:+ "Changes: metadata only" +:+ newline); Out newline; Out ("(no changes detected)" +:+ newline)])
  /\ exists changed removed,
       summarizeChanges cp cc kc kp = summary_of_changes (changed ++ map (fun k => k +:+ " (removed)") removed)
       /\ NoDup changed /\ NoDup removed
       /\ (forall k, k ∈ changed <-> is_Some (cc !! k) /\ too_noisy k = false /\ marshal_at cp k <> marshal_at cc k)
       /\ (forall k, k ∈ removed <-> is_Some (cp !! k) /\ too_noisy k = false /\ cc !! k = None).
Proof.
  cbv zeta. intros Hr Hd Hkc Hkp. split; [apply cleaned_same|]. split.
  - intros Hs%cleaned_same. unfold print_change, printObjectDiff, summarizeChanges.
    rewrite Hs, Hd, no_changes_same by apply Hr. done.
  - destruct (keys_NoDup _ _ Hkc) as [Nc Ec], (keys_NoDup _ _ Hkp) as [Np Ep]. unfold summarizeChanges, changed_fields.
    eexists _, _. split_and!; [done|by apply NoDup_ListNoDup, List.NoDup_filter, NoDup_ListNoDup..|idtac|idtac]; intros k; rewrite filter_keys, ?Ec, ?Ep, andb_true_iff, negb_true_iff.
    + rewrite negb_true_iff, String.eqb_neq. done.
    + by rewrite bool_decide_eq_true.
Qed.

(** Colouring a diff only adds colour codes: taken out again, what is left
    is the diff, whatever its lines are. *)
Theorem colorized_diff_reads_back (useColor : bool) (diff : string) :
  has_byte escape diff = false -> strip_ansi (colorizeDiff useColor diff) = diff.
Proof.
  intros Hd. unfold colorizeDiff. destruct useColor; cbn [negb].
  - rewrite strip_colorized by by apply Split_without. apply concat_Split.
  - rewrite <- (append_nil_r diff) at 1. rewrite strip_plain by done. apply append_nil_r.
Qed.

(** C?: [history --all-pages --diff]: when the pages of the service are [rs],
    the command ends, and what it prints are the changes of all events of all
    pages, oldest first, in one chain. *)
Theorem history_all_pages_diff {W} `{HistoryLib} `{GoLocal} `{HIO : CliIO AuditLogQuerySpec FacetQuerySpec CliEvent W}
    (count : W -> nat) (serve : nat -> AuditLogQuerySpec -> error + QueryObject AuditLogQuerySpec CliEvent) `{!Serves count serve}
    (fuel : nat) (term : Terminal) (o : HistoryOptions) rs (w : W) :
  ToRESTConfig = None -> NewForConfig = None ->
  fl_AllPages (ho_Pagination o) = true -> IsDefaultOutputFormat (ho_Format o) = true -> ho_ShowDiff o = true ->
  paged serve (history_spec o) (count w) "" rs -> (length rs <= fuel)%nat ->
  exists w', history_Run fuel term o w
             = (inr (Some tt), page_log false (history_spec o) no_page 1 "" rs ++ printDiff term (reverse (items_of rs)), w').
Proof.
  intros Hc1 Hc2 Ha Hf Hd Hp Hfuel. unfold history_Run, with_client. rewrite Hc1, Hc2, Ha.
  destruct (all_pages_log count serve false (history_spec o) (fun _ items => nret items) (fun items => items)
      (no_page (Spec := AuditLogQuerySpec) (FSpec := FacetQuerySpec)))
    with (fuel := fuel) (n := 1%nat) (total := 0%nat) (all := @nil CliEvent) (tok := "") (rs := rs) (w := w)
    as (w1 & E); [by intros n items w0; exists w0|done..|].
  exists w1. etransitivity; [eapply nbind_ok; [exact E|]|done]. unfold history_show, done. rewrite Hf, Hd. cbn [negb].
  unfold items_of. rewrite reverse_events_reverse. cbn [app]. unfold nbind, ntry, nsay, nret. cbn. by rewrite app_nil_r.
Qed.

(* ------------------------------------------------------------------ *)
(** ** Runs *)

Module ToyHistory.
Definition hour : TimeRangeFlags := {| fl_StartTime := "now-1h"; fl_EndTime := "now" |}.
Definition pages : PaginationFlags := {| fl_Limit := 1; fl_AllPages := true; fl_ContinueAfter := "" |}.
Definition audit_ (ns user filter : string) : AuditOptions := {|
  ao_Filter := filter; ao_Namespace := ns; ao_Resource := ""; ao_Verb := ""; ao_User := user;
  ao_TimeRange := hour; ao_Pagination := pages; ao_Output := {| NoHeaders := false; Debug := false |}; ao_Suggest := ""; ao_Format := None |}.
Definition history_ (ns : string) : HistoryOptions := {|
  ho_Namespace := ns; ho_Resource := "configmaps"; ho_Name := "it's"; ho_ShowDiff := true;
  ho_TimeRange := hour; ho_Pagination := pages; ho_Format := None |}.

(** An object of a revision, with some data. *)
Definition object_ (revision data : string) : gomap :=
  <["kind" := AStr "ConfigMap"]> (<["data" := AStr data]>
  (<["metadata" := AMap (<["name" := AStr "app"]> (<["resourceVersion" := AStr revision]> ∅))]> ∅)).
(** The [Status] the API server answers a deletion, or a refusal, with. *)
Definition status_ (code : string) : gomap :=
  <["kind" := AStr "Status"]> (<["code" := ANum code]> (<["metadata" := AMap ∅]> ∅)).
#[export] Instance lib : HistoryLib := {|
  unmarshal_object raw :=
    if (raw =? "v1")%string then inr (Some (object_ "1" "a")) else if (raw =? "v2")%string then inr (Some (object_ "2" "b"))
    else if (raw =? "404")%string then inr (Some (status_ "404")) else if (raw =? "null")%string then inr None
    else inl (Ext "unexpected end of JSON input");
  UnifiedDiff a b := inr (if (a =? b)%string then "" else "-" +:+ a +:+ newline +:+ "+" +:+ b);
  range_keys n m := (if Nat.even n then reverse else id) (map fst (map_to_list m)) |}.
#[export] Instance utc : GoLocal := {| local_offset _ := 0%Z |}.
Definition event_ (verb raw : string) (code : Z) : CliEvent := {|
  ce_StageTimestamp := of_unix_nano 0; ce_RequestReceivedTimestamp := 0%Z; ce_Verb := verb; ce_Username := "jane";
  ce_ObjectRef := None; ce_ResponseStatus := Some (code, ""); ce_ResponseObject := Some raw; ce_RequestURI := "" |}.
Definition page_ (events : list CliEvent) (token : string) : QueryObject AuditLogQuerySpec CliEvent :=
  {| q_Name := ""; q_Spec := history_spec (history_ "") ""; q_Results := events; q_Continue := token;
     q_EffectiveStartTime := ""; q_EffectiveEndTime := "" |}.
Definition serve (i : nat) (s : AuditLogQuerySpec) : error + QueryObject AuditLogQuerySpec CliEvent :=
  inr (if (aq_Continue s =? "")%string then page_ [event_ "update" "v2" 200] "more" else page_ [event_ "create" "v1" 201] "").
#[export] Instance io : CliIO AuditLogQuerySpec FacetQuerySpec CliEvent nat := {|
  ToRESTConfig := None; NewForConfig := None;
  create_query s w := (serve w s, S w); create_facets s w := (inl (Ext "unavailable"), w);
  ToPrinter f := None; print_table _ _ w := (None, w); print_list _ _ _ w := (None, w) |}.
Definition dumb : Terminal := {| NO_COLOR := ""; TERM := "dumb"; is_Stdout := true; IsTerminal := true |}.
End ToyHistory.

Section HistoryRuns.
#[local] Existing Instance ToyHistory.lib.
#[local] Existing Instance ToyHistory.utc.
#[local] Existing Instance ToyHistory.io.
Import ToyHistory.

Lemma cli_filters_read_back_witness :
  reads_back (audit_conds (audit_ "o'neill" "jane" "verb != 'get'")) "verb != 'get'"
    "(objectRef.namespace == 'o\'neill' && user.username == 'jane') && (verb != 'get')"
  /\ history_reads_back (history_ "default")
       "objectRef.resource == 'configmaps' && objectRef.name == 'it\'s' && verb in ['create', 'update', 'patch', 'delete'] && objectRef.namespace == 'default'".
Proof.
  pose proof (cli_filters_read_back (audit_ "o'neill" "jane" "verb != 'get'")
    {| fo_Filter := ""; fo_Namespace := ""; fo_Actor := ""; fo_Kind := ""; fo_APIGroup := ""; fo_ChangeSource := "";
       fo_Search := ""; fo_ResourceUID := ""; fo_Watch := false; fo_TimeRange := hour; fo_Pagination := pages;
       fo_Output := {| NoHeaders := false; Debug := false |}; fo_Suggest := ""; fo_Format := None |} (history_ "default")) as (A & _ & C).
  split; [apply A|apply C]; unfold no_backslash; by_decide.
Defined.

Lemma history_shows_changes_witness :
  print_change (Spec := unit) (FSpec := unit) (Item := unit) 3 "patch" (Some (object_ "1" "a")) (Some (object_ "2" "a")) false
  = [Out (newline +:+ "Changes: metadata only" +:+ newline); Out newline; Out ("(no changes detected)" +:+ newline)]
  /\ exists changed removed, summarizeChanges (cleanObjectForDiff (object_ "1" "a")) (cleanObjectForDiff (object_ "1" "b"))
       ["data"; "kind"; "metadata"] ["data"; "kind"; "metadata"] = summary_of_changes (changed ++ map (fun k => k +:+ " (removed)") removed)
       /\ "data" ∈ changed.
Proof.
  assert (forall n m, range_keys n m ≡ₚ map fst (map_to_list m)) as Hr.
  { intros n m. cbn. destruct (Nat.even n); [apply reverse_Permutation|done]. }
  assert (forall text, UnifiedDiff text text = inr "") as Hd by (intros t; cbn; by rewrite String.eqb_refl).
  split.
  - refine (proj1 (proj2 (history_shows_changes 3 "patch" (object_ "1" "a") (object_ "2" "a")
      (range_keys 0 _) (range_keys 1 _) Hr Hd (Hr _ _) (Hr _ _))) _).
    apply cleaned_same. vm_compute. reflexivity.
  - destruct (history_shows_changes (Spec := unit) (FSpec := unit) (Item := unit) 0 "patch" (object_ "1" "a") (object_ "1" "b")
      ["data"; "kind"; "metadata"] ["data"; "kind"; "metadata"] Hr Hd) as (_ & _ & ch & re & Hs & _ & _ & Hc & Hre).
    1-2: apply (bool_decide_unpack _); vm_compute; exact I.
    exists ch, re. split; [exact Hs|]. apply Hc. split_and!; [by eexists|done|by vm_compute].
Defined.

Lemma colorized_diff_reads_back_witness :
  colorizeDiff true ("@@ -1 +1 @@" +:+ newline +:+ "-a") <> "@@ -1 +1 @@" +:+ newline +:+ "-a"
  /\ strip_ansi (colorizeDiff true ("@@ -1 +1 @@" +:+ newline +:+ "-a")) = "@@ -1 +1 @@" +:+ newline +:+ "-a".
Proof. split; [by vm_compute|]. apply colorized_diff_reads_back. reflexivity. Defined.

Lemma history_all_pages_diff_witness :
  exists log w', history_Run 2 dumb (history_ "") 0%nat = (inr (Some tt), log, w')
  /\ drop 2 log = printDiff dumb [event_ "create" "v1" 201; event_ "update" "v2" 200].
Proof.
  destruct (history_all_pages_diff id serve (Serves0 := ltac:(done)) 2 dumb (history_ "")
    [page_ [event_ "update" "v2" 200] "more"; page_ [event_ "create" "v1" 201] ""] 0%nat) as (w' & E); try reflexivity.
  - apply paged_next; [reflexivity|discriminate|]. apply paged_last; reflexivity.
  - eexists _, w'. split; [exact E|reflexivity].
Defined.

(** A deletion is answered with a [Status]: the history compares it with the
    object, as if the object had become that, and does not say it was deleted.
    A request that failed is shown in the same way, and the next version is
    compared with its [Status]. *)
Lemma deletion_shown_as_change :
  let shown := print_change (Spec := unit) (FSpec := unit) (Item := unit) 1 "delete" (Some (object_ "1" "a")) in
  head (shown (Some (status_ "200")) false) = Some (Out (newline +:+ "Changes: code, kind, data (removed)" +:+ newline))
  /\ head (shown None false) = Some (Out (newline +:+ "Deleted resource" +:+ newline +:+ newline)).
Proof. split; vm_compute; reflexivity. Qed.
Lemma refusal_shown_as_change :
  let log := printDiff (Spec := unit) (FSpec := unit) (Item := unit) dumb
    [event_ "create" "v1" 201; event_ "update" "404" 404; event_ "update" "v2" 200] in
  log !! 4%nat = Some (Out (newline +:+ "Changes: code, kind, data (removed)" +:+ newline))
  /\ log !! 8%nat = Some (Out (newline +:+ "Changes: data, kind, code (removed)" +:+ newline)).
Proof. split; vm_compute; reflexivity. Qed.

(** The highlighter takes the first colon of a line for the end of a key: an
    element of a list is changed, a space after its first colon. *)
Example highlight_changes_text :
  strip_ansi (highlightJSON (MarshalIndent (AList [AStr "http://x"])))
  = "[" +:+ newline +:+ "  " +:+ json_string "http: //x" +:+ newline +:+ "]".
Proof. vm_compute. reflexivity. Qed.

(** Only the status changed: the summary says that only metadata did. *)
Example status_change_summary :
  let o s := <["status" := AStr s]> (object_ "1" "a") in
  summarizeChanges (o "Pending") (o "Ready") ["data"; "status"] ["data"; "status"] = "metadata only".
Proof. vm_compute. reflexivity. Qed.
End HistoryRuns.
