(* ===== verification/CliServer.v ===== *)
(** * The query commands against the server

    [pkg/cmd] and the handlers of [internal/registry/activity] with their
    storage put together: what a command shows is what the store holds, and
    where the two do not fit. *)

From Stdlib Require Import Ascii String.
From stdpp Require Import base numbers list strings gmap pretty.
From Stdlib Require Import ZArith Lia.
From S2P Require Import Prelude GoLib Calls GoFmt Types TimeUtil CelPolicy Activity Dlq EventProc CelFilter Query EventStore Watch Rest EventsRest ActivityRest Cli CliQuery.

(** The object a command creates, and the answer of a handler as the client
    sees it. *)
Definition new_query {Spec Item} (s : Spec) : QueryObject Spec Item :=
  {| q_Name := ""; q_Spec := s; q_Results := []; q_Continue := ""; q_EffectiveStartTime := ""; q_EffectiveEndTime := "" |}.
Definition as_seen {A B : Type} (f : A -> B) (r : resp A) : error + B :=
  match r with
  | Answer a => inr (f a)
  | Refuse _ => inl (Ext "the server rejected the request")
  | Crash _ => inl (Ext "the connection was closed")
  end.

(* ------------------------------------------------------------------ *)
(** ** Lemmas: the pages of an activity query *)

Lemma decode_activities_app `{ActivityJson} (a b : list string) acts :
  decode_activities (a ++ b) = inr acts ->
  exists x y, decode_activities a = inr x /\ decode_activities b = inr y /\ acts = x ++ y.
Proof.
  revert acts. induction a as [|d a IH]; intros acts; cbn; [by exists [], acts|].
  destruct (json_unmarshal_activity d) as [|v]; [done|]. destruct (decode_activities (a ++ b)) as [|l]; [done|].
  intros [= <-]. destruct (IH l eq_refl) as (x & y & -> & -> & ->). by exists (v :: x), y.
Qed.

Section Served.
Context `{FilterLib} `{CursorLib} `{ClickHouse} `{ActivityJson} (config : ClickHouseConfig) (tp : option string).
Context (user : option (gmap string (list string))) (store : nat -> storage_clock) (requests : nat -> request_clock).

(** The [i]-th request of a client, by that user. *)
Definition activity_service (i : nat) (s : ActivityQuerySpec) : error + QueryObject ActivityQuerySpec Activity :=
  as_seen id (snd (activity_Create (activity_backend config tp (store i)) (requests i) (Some user) (new_query s))).

Definition page_clocks (i : nat) : page_clock :=
  {| pc_now := s_now (store i); pc_check := s_clock (store i); pc_issue := s_issued (store i) |}.

(** The handler accepts the request whenever it comes. *)
Definition always_valid (s : ActivityQuerySpec) : Prop :=
  forall i, activity_validateQuerySpec (activity_backend config tp (store i)) (at_validation (requests i)) s = Ok []
  /\ is_ok (ParseFlexibleTime (StartTime s) (at_effective (requests i))) = true
  /\ is_ok (ParseFlexibleTime (EndTime s) (at_effective (requests i))) = true.

Lemma always_valid_continue s tok : always_valid s -> always_valid (with_continue s tok).
Proof using Type. done. Qed.

Lemma activity_service_answer i s r acts :
  always_valid s ->
  QueryActivities config tp (s_now (store i)) (s_clock (store i)) (s_issued (store i)) s (ExtractScopeFromUser user) = Ok r ->
  decode_activities (Activities r) = inr acts ->
  exists q, activity_service i s = inr q /\ q_Results q = acts /\ q_Continue q = ar_Continue r.
Proof using Type.
  intros Hv Hq Hd. destruct (Hv i) as (Hval & Hs & He). unfold activity_service, activity_Create, authorised. cbn [q_Spec new_query].
  rewrite Hval. unfold run_valid. destruct (ParseFlexibleTime (StartTime s) _); [|done..].
  destruct (ParseFlexibleTime (EndTime s) _); [|done..]. cbn [snd answer run_query activity_backend]. rewrite Hq.
  cbn [answer]. rewrite Hd. cbn. by eexists.
Qed.

(** Listing the store page by page is following the pages of the service. *)
Lemma list_activities_paged fuel i s docs acts :
  always_valid s ->
  list_activities config tp (ExtractScopeFromUser user) page_clocks fuel i s = Ok (Some docs) ->
  decode_activities docs = inr acts ->
  exists rs, paged activity_service (with_continue s) i (Continue_ s) rs /\ items_of rs = acts /\ (length rs <= fuel)%nat.
Proof using Type.
  revert i s docs acts. induction fuel as [|fuel IH]; intros i s docs acts Hv; [done|]. cbn [list_activities page_clocks pc_now pc_check pc_issue].
  destruct (QueryActivities _ _ _ _ _ s _) as [r|e|p] eqn:Eq; [|done..]. cbn [res_bind].
  assert (with_continue s (Continue_ s) = s) as Es by by destruct s.
  destruct (String.eqb_spec (ar_Continue r) "") as [Ec|Ec].
  - intros [= <-] Hd. destruct (activity_service_answer i s r acts Hv Eq Hd) as (q & Hs & Hr & Hc).
    exists [q]. split; [|split; [unfold items_of; cbn; by rewrite app_nil_r|cbn; lia]].
    apply paged_last; [by rewrite Es|by rewrite Hc].
  - destruct (list_activities _ _ _ _ fuel (S i) _) as [[rest|]|e|p] eqn:El; [|done..]. intros [= <-] Hd.
    apply decode_activities_app in Hd as (x & y & Hx & Hy & ->).
    destruct (activity_service_answer i s r x Hv Eq Hx) as (q & Hs & Hr & Hc).
    destruct (IH (S i) (with_continue s (ar_Continue r)) rest y (always_valid_continue _ _ Hv) El Hy) as (rs & Hp & Hit & Hlen).
    exists (q :: rs). split; [|split; [unfold items_of; cbn; by rewrite Hr, <- Hit|cbn; lia]].
    apply paged_next; [by rewrite Es|by rewrite Hc|]. rewrite Hc. exact Hp.
Qed.
End Served.

(** ** Lemmas: a token that leads back to its page *)

Section Stuck.
Context {Spec FSpec Item W : Type} `{HIO : CliIO Spec FSpec Item W}.
Context (count : W -> nat) (serve : nat -> Spec -> error + QueryObject Spec Item) `{!Serves count serve}.
Context (query : string -> Spec) (tok : string) (Hne : tok <> "").
Context (Hr : forall i t, t = "" \/ t = tok -> exists r, serve i (query t) = inr r /\ q_Continue r = tok).

Lemma all_pages_stuck dbg onPage keep shown :
  (forall n items w, exists w', onPage n items w = (inr (keep items), shown n items, w') /\ count w' = count w) ->
  forall fuel t n total all w, t = "" \/ t = tok ->
  exists log w', all_pages (FSpec := FSpec) fuel dbg query onPage t n total all w = (inr None, log, w').
Proof using Type*.
  intros Hon. induction fuel as [|fuel IH]; intros t n total all w Ht; [by eexists _, _|]. cbn [all_pages].
  destruct (request_served count serve (query t) w) as (w1 & E1 & C1).
  destruct (Hr (count w) t Ht) as (r & Er & Ec). rewrite Er in E1.
  destruct (Hon n (q_Results r) w1) as (w2 & E2 & _).
  destruct (IH tok (S n) (total + length (q_Results r))%nat (all ++ keep (q_Results r)) w2) as (l & w3 & E3); [by right|].
  eexists _, w3. eapply nbind_ok; [reflexivity|]. eapply ntry_ok; [exact E1|]. eapply nbind_ok; [exact E2|].
  apply String.eqb_neq in Hne. rewrite Ec, Hne. exact E3.
Qed.

Lemma run_all_pages_stuck (to_table : list Item -> Table) kind output fuel w :
  exists log w', run_all_pages (FSpec := FSpec) to_table kind fuel output None query w = (inr None, log, w').
Proof using Type*.
  destruct (all_pages_stuck (Debug output) (show_page (FSpec := FSpec) to_table None (NoHeaders output)) (fun _ => [])
    (fun n items => [PrintTable (if (n =? 1)%nat then NoHeaders output else true) (to_table items) None])) with
    (fuel := fuel) (t := "") (n := 1%nat) (total := 0%nat) (all := @nil Item) (w := w) as (l & w' & E); [|by left|].
  - intros n items w0. destruct (table_prints count serve (if (n =? 1)%nat then NoHeaders output else true) (to_table items) w0)
      as (w2 & E & C). exists w2. split; [|done]. etransitivity; [eapply nbind_ok; [exact E|reflexivity]|done].
  - eexists _, w'. eapply nbind_ok; [exact E|reflexivity].
Qed.
End Stuck.

(* ------------------------------------------------------------------ *)
(** ** Theorems *)

(** What a run shows: the rows of its tables, and the items of its lists. *)
Definition shown_rows {Spec FSpec Item} (log : list (act Spec FSpec Item)) : list (list cell) :=
  concat (omap (fun a => match a with PrintTable _ t _ => Some (t_rows t) | _ => None end) log).
Definition shown_items {Spec FSpec Item} (log : list (act Spec FSpec Item)) : list Item :=
  concat (omap (fun a => match a with PrintList _ _ l _ => Some l | _ => None end) log).
Definition said_last {Spec FSpec Item} (log : list (act Spec FSpec Item)) : option string :=
  match last log with Some (ErrOut s) => Some s | _ => None end.

Lemma shown_rows_pages {Spec FSpec} (dbg : bool) (query : string -> Spec) (output : OutputFlags) rs n tok :
  shown_rows (page_log (FSpec := FSpec) dbg query (table_page activitiesToTable output) n tok rs)
  = activitiesToRows (items_of rs).
Proof.
  revert n tok. induction rs as [|r rs IH]; intros n tok; [done|]. unfold items_of in *. cbn [map concat page_log].
  unfold activitiesToRows in *. rewrite map_app, <- (IH (S n) (q_Continue r)). unfold shown_rows. by destruct dbg.
Qed.

(** C25: [feed --all-pages] end to end: when following the tokens of the
    storage lists the documents [docs], by requests the handler accepts, the
    command ends and shows exactly their activities, each once and in order,
    in a table or in a list, and says how many they are. *)
Theorem feed_shows_everything {W} `{HIO : CliIO ActivityQuerySpec FacetQuerySpec Activity W} `{GoUnicode} `{GoLocal}
    `{FilterLib} `{CursorLib} `{ClickHouse} `{ActivityJson} (config : ClickHouseConfig) (tp : option string)
    (user : option (gmap string (list string))) (store : nat -> storage_clock) (requests : nat -> request_clock)
    (count : W -> nat) `{!Serves count (activity_service config tp user store requests)}
    (o : FeedOptions) (fuel : nat) (docs : list string) (acts : list Activity) (w : W) open inputs :
  feed_Validate o = None -> ToRESTConfig = None -> NewForConfig = None ->
  fo_Suggest o = "" -> fo_Watch o = false -> fl_AllPages (fo_Pagination o) = true ->
  (IsDefaultOutputFormat (fo_Format o) = false -> ToPrinter (default "" (fo_Format o)) = None) ->
  count w = 0%nat -> always_valid config tp store requests (feed_spec o "") ->
  list_activities config tp (ExtractScopeFromUser user) (page_clocks store) fuel 0 (feed_spec o "") = Ok (Some docs) ->
  decode_activities docs = inr acts ->
  exists log w', feed_Run fuel open inputs o w = (inr (Some tt), log, w')
  /\ (if IsDefaultOutputFormat (fo_Format o) then shown_rows log = activitiesToRows acts else shown_items log = acts)
  /\ said_last log = Some (newline +:+ "Showing " +:+ pretty (Z.of_nat (length acts)) +:+ " results." +:+ newline).
Proof.
  intros Hv Hc1 Hc2 Hsug Hw Hall Hpr Hcount Hvalid Hlist Hdec.
  destruct (list_activities_paged config tp user store requests fuel 0 (feed_spec o "") docs acts Hvalid Hlist Hdec)
    as (rs & Hp & Hit & Hlen).
  change (with_continue (feed_spec o "")) with (feed_spec o) in Hp. change (Continue_ (feed_spec o "")) with "" in Hp.
  rewrite <- Hcount in Hp.
  destruct (run_all_pages_log count _ activitiesToTable "ActivityList" (fo_Output o) (feed_spec o) fuel (fo_Format o) rs w
              Hp Hlen Hpr) as (w' & E).
  exists (all_pages_shown activitiesToTable "ActivityList" (fo_Output o) (feed_spec o) (fo_Format o) rs), w'.
  unfold feed_Run, with_client, failed_if, IsSuggestMode. rewrite Hv, Hc1, Hc2, Hsug, Hw, Hall. cbn [negb String.eqb].
  split; [etransitivity; [eapply nbind_ok; [reflexivity|exact E]|done]|]. unfold all_pages_shown. rewrite Hit.
  destruct (IsDefaultOutputFormat (fo_Format o)).
  - unfold said_last. rewrite last_snoc. split; [|done]. rewrite <- Hit, <- (shown_rows_pages (FSpec := FacetQuerySpec) (Debug (fo_Output o)) (feed_spec o) (fo_Output o) rs 1 "").
    unfold shown_rows. rewrite omap_app, concat_app. cbn. by rewrite app_nil_r.
  - assert (forall l, last (l ++ [PrintList (default "" (fo_Format o)) "ActivityList" acts None; showing (length acts)])
                      = Some (showing (Spec := ActivityQuerySpec) (FSpec := FacetQuerySpec) (Item := Activity) (length acts))) as Hlast
      by (intros l; change (last (l ++ ([PrintList (default "" (fo_Format o)) "ActivityList" acts None] ++ [showing (length acts)])) = Some (showing (Spec := ActivityQuerySpec) (FSpec := FacetQuerySpec) (Item := Activity) (length acts))); by rewrite app_assoc, last_snoc).
    unfold said_last. rewrite Hlast. split; [|done]. unfold shown_items. rewrite omap_app, concat_app.
    assert (forall n tok, concat (omap (fun a : act ActivityQuerySpec FacetQuerySpec Activity => match a with PrintList _ _ l _ => Some l | _ => None end)
              (page_log (Debug (fo_Output o)) (feed_spec o) no_page n tok rs)) = []) as ->.
    { clear. induction rs as [|r rs IH]; intros n tok; [done|]. cbn [page_log]. rewrite !omap_app, !concat_app, IH. by destruct (Debug _). }
    cbn. by rewrite app_nil_r.
Qed.

(* ------------------------------------------------------------------ *)
(** ** Runs *)

(** A terminal on which printing always works, and a client whose [i]-th
    request is answered by [serve i]; the state counts the requests. *)
Definition session {Spec FSpec Item} (serve : nat -> Spec -> error + QueryObject Spec Item) : CliIO Spec FSpec Item nat := {|
  ToRESTConfig := None; NewForConfig := None;
  create_query s w := (serve w s, S w); create_facets s w := (inl (Ext "unavailable"), w);
  ToPrinter f := if (f =? "json")%string then None else Some (Ext "unable to match a printer");
  print_table _ _ w := (None, w); print_list _ _ _ w := (None, w) |}.
Lemma session_serves {Spec FSpec Item} (serve : nat -> Spec -> error + QueryObject Spec Item) :
  Serves (H := session (FSpec := FSpec) serve) id serve.
Proof. done. Qed.

Module ToySession.
Definition activity_ (name : string) : Activity := {|
  APIVersion_ := "activity.miloapis.com/v1alpha1"; Kind_ := "Activity"; Name := name; Namespace := "default";
  CreationTimestamp := 5%Z; Labels := ∅;
  Spec := {| Summary := name +:+ " happened"; ChangeSource := "human";
             Actor := {| act_Type := "user"; act_Name := "jane"; act_UID := ""; act_Email := "" |};
             Resource_ := {| APIGroup := ""; APIVersion := "v1"; Kind := "Pod"; res_Name := "p"; res_Namespace := "default";
                             res_UID := "" |};
             Links := []; Related := []; Tenant := {| ten_Type := "platform"; ten_Name := "" |};
             Origin := {| org_Type := "audit"; org_ID := name |}; Source := None |} |}.
#[export] Instance json : ActivityJson := {| json_unmarshal_activity d := inr (activity_ (drop_str 4 d)) |}.
#[export] Instance utc : GoLocal := {| local_offset _ := 0%Z |}.
#[export] Existing Instance latin.
Definition pages : PaginationFlags := {| fl_Limit := 1; fl_AllPages := true; fl_ContinueAfter := "" |}.
Definition hour : TimeRangeFlags := {| fl_StartTime := "now-2h"; fl_EndTime := "now" |}.
Definition plain : OutputFlags := {| NoHeaders := false; Debug := false |}.
Definition feed_ (ns kind : string) (watch : bool) (format : option string) : FeedOptions := {|
  fo_Filter := ""; fo_Namespace := ns; fo_Actor := ""; fo_Kind := kind; fo_APIGroup := ""; fo_ChangeSource := "";
  fo_Search := ""; fo_ResourceUID := ""; fo_Watch := watch; fo_TimeRange := hour; fo_Pagination := pages;
  fo_Output := plain; fo_Suggest := ""; fo_Format := format |}.
Definition audit_ : AuditOptions := {|
  ao_Filter := ""; ao_Namespace := ""; ao_Resource := ""; ao_Verb := ""; ao_User := "";
  ao_TimeRange := {| fl_StartTime := "now-90d"; fl_EndTime := "now" |}; ao_Pagination := pages;
  ao_Output := plain; ao_Suggest := ""; ao_Format := None |}.
(** The store of [ToyStore], asked for a range of times. *)
Definition store : ClickHouse := {|
  ch_query q args :=
    inr {| scanned := map inr (map r_doc (take 2 match args with
             | [_; _; QVal (GoTime t); _; _; _; QVal (GoString k)] => List.filter (after_cursor t k) ToyStore.table
             | _ => ToyStore.table
             end)); rows_err := None |};
  ch_query_counts q args := inl (Ext "connection refused");
  json_unmarshal_audit_event d := inl (Ext "not an event") |}.
(** The audit event of the wire, as the client decodes it. *)
Definition as_cli (e : StoredEvent) : CliEvent := {|
  ce_StageTimestamp := se_StageTimestamp e; ce_RequestReceivedTimestamp := 0%Z; ce_Verb := "get"; ce_Username := "jane";
  ce_ObjectRef := None; ce_ResponseStatus := None; ce_ResponseObject := None; ce_RequestURI := se_AuditID e |}.
End ToySession.

Section Runs.
#[local] Existing Instance ToyFilter.engine.
#[local] Existing Instance ToyFilter.lib.
#[local] Existing Instance ToyStore.lib.
#[local] Existing Instance ToyStore.store.
#[local] Existing Instance ToySession.json.
#[local] Existing Instance ToySession.utc.
#[local] Existing Instance latin.

Definition toy_service : nat -> ActivityQuerySpec -> error + QueryObject ActivityQuerySpec Activity :=
  activity_service (H2 := ToySession.store) ToyStore.config None None (fun _ => ToyRest.sclock) (fun _ => ToyRest.clock).

Lemma feed_shows_everything_witness :
  exists log w', @feed_Run nat (session toy_service) latin ToySession.utc 9 (fun _ => None) [] (ToySession.feed_ "" "" false None) 0%nat
                 = (inr (Some tt), log, w')
  /\ shown_rows log = activitiesToRows (map ToySession.activity_ ["b"; "a"; "c"])
  /\ said_last log = Some (newline +:+ "Showing " +:+ pretty 3%Z +:+ " results." +:+ newline).
Proof.
  apply (feed_shows_everything (HIO := session toy_service) (H4 := ToySession.store) ToyStore.config None None (fun _ => ToyRest.sclock) (fun _ => ToyRest.clock) id
           (Serves0 := session_serves toy_service) (ToySession.feed_ "" "" false None) 9 ["doc-b"; "doc-a"; "doc-c"]
           (map ToySession.activity_ ["b"; "a"; "c"])).
  all: try reflexivity.
  - discriminate.
  - intros i. split; [|split]; vm_compute; reflexivity.
Defined.

(** The pages of the audit store of [Query.audit_pages_repeat], as the command
    follows them. *)
Definition toy_audit_service (i : nat) (s : AuditLogQuerySpec) : error + QueryObject AuditLogQuerySpec CliEvent :=
  as_seen (fun q => {| q_Name := ""; q_Spec := s; q_Results := map ToySession.as_cli (q_Results q); q_Continue := q_Continue q;
                       q_EffectiveStartTime := ""; q_EffectiveEndTime := "" |})
    (snd (auditlog_Create (audit_backend ToyStore.config None ToyRest.sclock) ToyRest.clock ToyRest.admin (new_query s))).

(** There [audit --all-pages] never ends: whatever the fuel, it is still asking
    for pages. *)
Lemma audit_all_pages_never_ends (fuel : nat) :
  exists log w', @audit_Run nat (session toy_audit_service) fuel ToySession.audit_ 0%nat = (inr None, log, w').
Proof.
  assert (exists tok, tok <> "" /\ forall t, t = "" \/ t = tok ->
    exists r, toy_audit_service 0 (audit_spec ToySession.audit_ t) = inr r /\ q_Continue r = tok) as (tok & Hne & Hr).
  { eexists. split; [|intros t [->| ->]; eexists; split; [vm_compute; reflexivity|reflexivity| |]; [vm_compute; reflexivity|reflexivity]].
    discriminate. }
  destruct (run_all_pages_stuck (HIO := session (FSpec := FacetQuerySpec) toy_audit_service) id toy_audit_service (Serves0 := session_serves _)
    (audit_spec ToySession.audit_) tok Hne) with (to_table := eventsToTable) (kind := "EventList") (output := ToySession.plain)
    (fuel := fuel) (w := 0%nat) as (l & w' & Er); [intros i t Ht; apply (Hr t Ht)|].
  eexists _, w'. eapply nbind_ok; [reflexivity|exact Er].
Qed.

(** [feed --watch --namespace other]: the selector is sent, the API server
    accepts it, the watch it opens is the one without it, and the command does
    not filter either: what happens in namespace default is shown. *)
Lemma feed_watch_shows_other_namespaces (ns : string) :
  ns <> "" -> ContainsAny ns ["="; ","]%char = false ->
  let o := ToySession.feed_ ns "" true None in
  let sel := Some (fun k => if (k =? "spec.resource.namespace")%string then Some ns else None) in
  let options s := {| al_Limit := 0; al_Continue := ""; al_ResourceVersion := ""; al_FieldSelector := s |} in
  watch_selectors (watch_terms o) = inr ["spec.resource.namespace=" +:+ ns]
  /\ ActivityFieldLabelConversionFunc "spec.resource.namespace" ns = Ok ("spec.resource.namespace", ns)
  /\ activity_watch_filter "" (options sel) = activity_watch_filter "" (options None)
  /\ watch_loop o [Received (Some (ToySession.activity_ "a")); Closed]
     = ([String "[" ("00:00:00] a happened" +:+ newline)], Some (newline +:+ "Watch connection closed." +:+ newline)).
Proof.
  intros Hne Hc. cbv zeta. split_and!.
  - cbn -[ContainsAny String.append EscapeFieldSelectorValue]. apply String.eqb_neq in Hne. rewrite Hne. unfold EscapeFieldSelectorValue. rewrite Hc. done.
  - reflexivity.
  - reflexivity.
  - vm_compute. reflexivity.
Qed.

(** [feed -o summary] prints summaries; with [--all-pages] the same format goes
    to the printers, which do not know it, after the pages were fetched. *)
Lemma feed_summary_all_pages :
  exists log w', @feed_Run nat (session toy_service) latin ToySession.utc 9 (fun _ => None) [] (ToySession.feed_ "" "" false (Some "summary")) 0%nat
                 = (inl (wrap_with "failed to create printer: " (Ext "unable to match a printer")), log, w').
Proof. eexists _, _. vm_compute. reflexivity. Qed.
Lemma feed_summary_one_page :
  exists log, feed_printResults (H := session toy_service) (ToySession.feed_ "" "" false (Some "summary"))
    {| q_Name := ""; q_Spec := feed_spec (ToySession.feed_ "" "" false None) ""; q_Results := [ToySession.activity_ "a"]; q_Continue := "";
       q_EffectiveStartTime := ""; q_EffectiveEndTime := "" |} 0%nat = (inr tt, log, 0%nat)
  /\ log = [Out ("a happened" +:+ newline)].
Proof. eexists. split; vm_compute; reflexivity. Qed.

(** A backslash before a quote: the value ends where the quote was, and the
    rest of the flag is filter text. *)
Example cli_escape_leaves_backslash :
  cli_equality "verb" "\' || true //" = "verb == '\\' || true //'"
  /\ read_equality (cli_equality "verb" "\' || true //") = Some ("verb", "\", " || true //'").
Proof. split; vm_compute; reflexivity. Qed.
End Runs.
