(* ===== verification/CliJobs.v ===== *)
(** * pkg/cmd/reindexjob and pkg/cmd/policy: re-index jobs and previews

    The [reindex] commands (create, list, status, delete) and [policy preview],
    and how they fit the strategies and the handler they talk to. *)

From Stdlib Require Import Ascii String.
From stdpp Require Import base numbers list strings gmap pretty.
From Stdlib Require Import ZArith Lia.
From S2P Require Import Prelude GoLib Calls GoFmt Types TimeUtil CelPolicy Activity Dlq EventProc GoSlice PolicyCache AuditProc CelFilter Query EventStore Watch Reindex ReindexJob JobController PolicyController Rest Strategy Preview Cli CliQuery.

(* ------------------------------------------------------------------ *)
(** ** reindex create *)

Record CreateOptions := {
  co_StartTime : string; co_EndTime : string; co_PolicyNames : list string;
  co_BatchSize : Z; co_RateLimit : Z; co_DryRun : bool; co_TTL : Z (* int32 *); co_Output : OutputFlags }.

Definition create_Validate (o : CreateOptions) : option error :=
  let outside v lo hi := (negb (v =? 0) && ((v <? lo) || (hi <? v)))%Z%bool in
  if (co_StartTime o =? "")%string then Some (Errorf [PStr "--start-time is required"])
  else if outside (co_BatchSize o) 100%Z 10000%Z then Some (Errorf [PStr "--batch-size must be between 100 and 10000"])
  else if outside (co_RateLimit o) 10%Z 1000%Z then Some (Errorf [PStr "--rate-limit must be between 10 and 1000"])
  else if (co_TTL o <? 0)%Z then Some (Errorf [PStr "--ttl must be >= 0"])
  else None.

(** The job it creates. *)
Definition create_spec (o : CreateOptions) : ReindexJobSpec :=
  {| TimeRange := {| tr_StartTime := co_StartTime o; tr_EndTime := co_EndTime o |};
     PolicySelector := match co_PolicyNames o with
                       | [] => None
                       | names => Some {| sel_Names := names; sel_MatchLabels := ∅ |}
                       end;
     Config := if (negb (co_BatchSize o =? 0) || negb (co_RateLimit o =? 0) || co_DryRun o)%Z%bool
               then Some {| rc_BatchSize := co_BatchSize o; rc_RateLimit := co_RateLimit o; rc_DryRun := co_DryRun o |}
               else None;
     TTLSecondsAfterFinished := if (0 <? co_TTL o)%Z then Some (co_TTL o) else None |}.

(* ------------------------------------------------------------------ *)
(** ** Showing jobs *)

Definition phaseString (phase : string) : string := if (phase =? "")%string then ReindexJobPending else phase.

Definition progressString (p : option ReindexProgress) : string :=
  match p with
  | None => "-"
  | Some p => if (0 <? TotalEvents p)%Z then pretty (ProcessedEvents p) +:+ "/" +:+ pretty (TotalEvents p)
              else if (0 <? ProcessedEvents p)%Z then pretty (ProcessedEvents p)
              else "-"
  end.

Definition reindexJobsToRows (jobs : list ReindexJob) : list (list cell) :=
  map (fun job => let s := rj_Status job in
    let instant t := match t with Some t => Format_RFC3339 t | None => "" end in
    map CText [rj_Name job; phaseString (Phase s); progressString (st_Progress s); instant (StartedAt s);
               instant (CompletedAt s)]) jobs.
Definition reindexJobsToTable (jobs : list ReindexJob) : Table :=
  {| t_columns := ["Name"; "Phase"; "Progress"; "Started"; "Completed"]; t_rows := reindexJobsToRows jobs |}.

(** The lines of [printDetail]. *)
Definition when (b : bool) (l : list string) : list string := if b then l else [].
Definition spec_lines (spec : ReindexJobSpec) : list string :=
  ["Spec:"; "  Time Range: " +:+ tr_StartTime (TimeRange spec) +:+ " -> " +:+ tr_EndTime (TimeRange spec)]
  ++ match PolicySelector spec with
     | Some sel => when (0 <? length (sel_Names sel))%nat ["  Policies:   [" +:+ String.concat " " (sel_Names sel) +:+ "]"]
     | None => []
     end
  ++ match Config spec with
     | Some c => when (rc_DryRun c) ["  Dry Run:    true"]
                 ++ when (negb (rc_BatchSize c =? 0)%Z) ["  Batch Size: " +:+ pretty (rc_BatchSize c)]
                 ++ when (negb (rc_RateLimit c =? 0)%Z) ["  Rate Limit: " +:+ pretty (rc_RateLimit c) +:+ " events/sec"]
     | None => []
     end.
Definition timestamp_lines (s : ReindexJobStatus) : list string :=
  match StartedAt s, CompletedAt s with
  | None, None => []
  | started, completed =>
      [""; "Timestamps:"]
      ++ match started with Some t => ["  Started:   " +:+ Format_RFC3339 t] | None => [] end
      ++ match completed with Some t => ["  Completed: " +:+ Format_RFC3339 t] | None => [] end
  end.
Definition progress_lines (p : option ReindexProgress) : list string :=
  match p with
  | None => []
  | Some p =>
      [""; "Progress:";
       if (0 <? TotalEvents p)%Z
       then "  Events:      " +:+ pretty (ProcessedEvents p) +:+ " / " +:+ pretty (TotalEvents p) +:+ " ("
              +:+ Format_f 1 (percent (ProcessedEvents p) (TotalEvents p)) +:+ "%)"
       else "  Events:      " +:+ pretty (ProcessedEvents p) +:+ " processed";
       "  Activities:  " +:+ pretty (ActivitiesGenerated p) +:+ " generated"]
      ++ when (0 <? Errors p)%Z ["  Errors:      " +:+ pretty (Errors p)]
      ++ when (0 <? TotalBatches p)%Z ["  Batches:     " +:+ pretty (CurrentBatch p) +:+ " / " +:+ pretty (TotalBatches p)]
  end.
Definition condition_lines (conditions : list Condition) : list string :=
  match conditions with
  | [] => []
  | _ => [""; "Conditions:"]
         ++ map (fun c => "  " +:+ cn_Type c +:+ "=" +:+ cn_Status c
                          +:+ (if negb (cn_Reason c =? "")%string then " (" +:+ cn_Reason c +:+ ")" else "")
                          +:+ (if negb (cn_Message c =? "")%string then ": " +:+ cn_Message c else "")) conditions
  end.
Definition detail_lines (job : ReindexJob) : list string :=
  let s := rj_Status job in
  ["Name:        " +:+ rj_Name job; "Phase:       " +:+ phaseString (Phase s)]
  ++ when (negb (Message s =? "")%string) ["Message:     " +:+ Message s]
  ++ [""] ++ spec_lines (rj_Spec job) ++ timestamp_lines s ++ progress_lines (st_Progress s) ++ condition_lines (st_Conditions s).

(* ------------------------------------------------------------------ *)
(** ** The reindex commands *)

Inductive job_act :=
| CreateJob (spec : ReindexJobSpec) (r : error + string)
| ListJobs (r : error + list ReindexJob)
| GetJob (name : string) (r : error + ReindexJob)
| DeleteJob (name : string) (r : option error)
| JobOut (s : string) | JobDebug (spec : ReindexJobSpec)
| JobTable (no_headers : bool) (t : Table) (r : option error)
| PrintJobs (format : string) (jobs : list ReindexJob) (r : option error).

(** The client and the printers; creating answers the name of the job. *)
Class JobsIO (W : Type) := {
  jobs_config : option error; jobs_client : option error;
  create_job : ReindexJobSpec -> W -> (error + string) * W;
  list_jobs : W -> (error + list ReindexJob) * W;
  get_job : string -> W -> (error + ReindexJob) * W;
  delete_job : string -> W -> option error * W;
  jobs_printer : string -> option error;
  jobs_table : bool -> Table -> W -> option error * W;
  jobs_print : string -> list ReindexJob -> W -> option error * W }.

Section Reindex.
Context `{GoUnicode} {W : Type} `{JobsIO W}.
Abbreviation M := (Calls job_act W).

Definition newActivityClient {A} (run : M A) : M A :=
  match jobs_config with
  | Some e => nfail (wrap_with "failed to get kubeconfig: " e)
  | None => match jobs_client with
            | Some e => nfail (wrap_with "failed to create activity client: " e)
            | None => run
            end
  end.
Definition print_jobs (format : string) (jobs : list ReindexJob) : M unit :=
  match jobs_printer format with
  | Some e => nfail (wrap_with "failed to create printer: " e)
  | None => ndo (jobs_print format jobs) (PrintJobs format jobs)
  end.

Definition create_Run (o : CreateOptions) : M unit :=
  newActivityClient (
    get! _ := nsay (if Debug (co_Output o) then [JobDebug (create_spec o)] else []) in
    try! name := nask (create_job (create_spec o)) (fun r => [CreateJob (create_spec o) r])
      or (fun e => nfail (wrap_with "failed to create reindex job: " e)) in
    nsay [JobOut ("reindexjob/" +:+ name +:+ " created" +:+ newline)]).
Definition create_command (o : CreateOptions) : M unit :=
  match create_Validate o with Some e => nfail e | None => create_Run o end.

Definition list_Run (output : OutputFlags) (format : option string) : M unit :=
  newActivityClient (
    try! jobs := nask list_jobs (fun r => [ListJobs r]) or (fun e => nfail (wrap_with "failed to list reindex jobs: " e)) in
    if negb (IsDefaultOutputFormat format) then print_jobs (default "" format) jobs
    else ndo (jobs_table (NoHeaders output) (reindexJobsToTable jobs)) (JobTable (NoHeaders output) (reindexJobsToTable jobs))).

Definition status_Run (name : string) (format : option string) : M unit :=
  newActivityClient (
    try! job := nask (get_job name) (fun r => [GetJob name r])
      or (fun e => nfail (wrap_with ("failed to get reindex job " +:+ Quote name +:+ ": ") e)) in
    if negb (IsDefaultOutputFormat format) then print_jobs (default "" format) [job]
    else nsay (map (fun l => JobOut (l +:+ newline)) (detail_lines job))).

Definition delete_Run (name : string) : M unit :=
  newActivityClient (
    try! _ := ndo (delete_job name) (DeleteJob name)
      or (fun e => nfail (wrap_with ("failed to delete reindex job " +:+ Quote name +:+ ": ") e)) in
    nsay [JobOut ("reindexjob/" +:+ name +:+ " deleted" +:+ newline)]).
End Reindex.

(* ------------------------------------------------------------------ *)
(** ** policy preview *)

Record PreviewOptions := {
  vo_PolicyFile : string; vo_InputFile : string; vo_InputAudit : string; vo_DryRun : bool;
  vo_Output : OutputFlags; vo_Format : option string }.

Definition preview_Validate (o : PreviewOptions) : option error :=
  if (vo_PolicyFile o =? "")%string then Some (Errorf [PStr "--file is required"])
  else if (negb (vo_DryRun o) && (vo_InputFile o =? "") && (vo_InputAudit o =? ""))%string%bool
  then Some (Errorf [PStr "either --input or --input-audit is required (use --dry-run to validate syntax only)"])
  else None.

(** The status of the answer, with its general error. *)
Record PreviewAnswer := { pa_Error : string; pa_Status : PolicyPreviewStatus }.
(** A refusal: the causes of a status error, as field and message, and the error. *)
Definition refusal : Type := list (string * string) * error.

Inductive preview_act :=
| CreatePreview (spec : PolicyPreviewSpec) (r : refusal + PreviewAnswer)
| PrevOut (s : string) | PrevErr (s : string) | PrevDebug (spec : PolicyPreviewSpec)
| PrevTable (no_headers : bool) (t : Table) (r : option error)
| PrintPreview (format : string) (a : PreviewAnswer) (r : option error).

(** The client, the files with their decoders (the first failure is of opening,
    the second of decoding) and the printers. *)
Class PreviewIO (W : Type) := {
  preview_config : option error; preview_client : option error;
  open_policy : string -> error + (error + PolicySpec);
  open_inputs : string -> error + (error + list PolicyPreviewInput);
  json_unmarshal_auditv1 : string -> error + AuditEvent;
  create_preview : PolicyPreviewSpec -> W -> (refusal + PreviewAnswer) * W;
  preview_printer : string -> option error;
  preview_table : bool -> Table -> W -> option error * W;
  preview_print : string -> PreviewAnswer -> W -> option error * W }.

(** One row; [activityIdx] counts the activities already shown. *)
Definition preview_row (activities : list Activity) (activityIdx : nat) (res : PolicyPreviewInputResult) : list cell * nat :=
  let row summary := map CText
    ["Input #" +:+ pretty (ir_InputIndex res + 1)%Z;
     if ir_Matched res then "yes" else "no";
     if (0 <=? ir_MatchedRuleIndex res)%Z
     then pretty (ir_MatchedRuleIndex res) +:+ " (" +:+ ir_MatchedRuleType res +:+ ")" else "-";
     summary] in
  if negb (ir_Error res =? "")%string then (row ("ERROR: " +:+ ir_Error res), activityIdx)
  else match activities !! activityIdx with
       | Some a => if ir_Matched res then (row (Summary (Spec a)), S activityIdx) else (row "-", activityIdx)
       | None => (row "-", activityIdx)
       end.
Fixpoint preview_rows (activities : list Activity) (activityIdx : nat) (results : list PolicyPreviewInputResult)
  : list (list cell) :=
  match results with
  | [] => []
  | res :: rest => let (row, idx) := preview_row activities activityIdx res in row :: preview_rows activities idx rest
  end.
Definition preview_to_table (s : PolicyPreviewStatus) : Table :=
  {| t_columns := ["Input"; "Matched"; "Rule"; "Activity Summary"]; t_rows := preview_rows (pv_Activities s) 0 (pv_Results s) |}.

Section Previews.
Context {W : Type} `{PreviewIO W}.
Abbreviation M := (Calls preview_act W).

Definition readPolicyFile (file : string) : M PolicySpec :=
  match open_policy file with
  | inl e => nfail (wrap_with "failed to open policy file: " e)
  | inr (inl e) => nfail (wrap_with "failed to parse policy file: " e)
  | inr (inr spec) => nret spec
  end.
Definition readInputFile (file : string) : M (list PolicyPreviewInput) :=
  match open_inputs file with
  | inl e => nfail (wrap_with "failed to open input file: " e)
  | inr (inl e) => nfail (wrap_with "failed to parse input file: " e)
  | inr (inr inputs) => nret inputs
  end.
Definition readInlineAudit (text : string) : M (list PolicyPreviewInput) :=
  match json_unmarshal_auditv1 text with
  | inl e =>
      let q s := quoted s in
      get! _ := nsay [PrevErr ("Hint: provide a valid JSON audit event, e.g., {" +:+ q "verb" +:+ ":" +:+ q "create" +:+ ","
                               +:+ q "user" +:+ ":{" +:+ q "username" +:+ ":" +:+ q "alice" +:+ "}}" +:+ newline)] in
      nfail (wrap_with "failed to parse audit event JSON: " e)
  | inr event => nret [{| in_Type := "audit"; in_Audit := Some event; in_Event := None |}]
  end.
Definition readInputs (o : PreviewOptions) : M (list PolicyPreviewInput) :=
  if negb (vo_InputFile o =? "")%string then readInputFile (vo_InputFile o)
  else if negb (vo_InputAudit o =? "")%string then readInlineAudit (vo_InputAudit o)
  else nfail (Errorf [PStr "no inputs provided"]).

Definition preview_printTable (o : PreviewOptions) (s : PolicyPreviewStatus) : M unit :=
  ndo (preview_table (NoHeaders (vo_Output o)) (preview_to_table s)) (PrevTable (NoHeaders (vo_Output o)) (preview_to_table s)).
Definition preview_printResults (o : PreviewOptions) (a : PreviewAnswer) : M unit :=
  if negb (pa_Error a =? "")%string then
    get! _ := nsay [PrevErr ("Error: " +:+ pa_Error a +:+ newline)] in
    nfail (Errorf [PStr "preview failed"])
  else if IsDefaultOutputFormat (vo_Format o) then preview_printTable o (pa_Status a)
  else let format := default "" (vo_Format o) in
       match preview_printer format with
       | Some e => nfail (wrap_with "failed to create printer: " e)
       | None => ndo (preview_print format a) (PrintPreview format a)
       end.

Definition cause_line (c : string * string) : preview_act :=
  PrevErr (if negb (fst c =? "")%string then "  * " +:+ fst c +:+ ": " +:+ snd c +:+ newline else "  * " +:+ snd c +:+ newline).

Definition preview_Run (o : PreviewOptions) : M unit :=
  match preview_config with
  | Some e => nfail (wrap_with "failed to get kubeconfig: " e)
  | None =>
      match preview_client with
      | Some e => nfail (wrap_with "failed to create activity client: " e)
      | None =>
          get! policy := readPolicyFile (vo_PolicyFile o) in
          get! inputs := (if vo_DryRun o then nret [] else readInputs o) in
          let spec := {| pv_Policy := policy; pv_Inputs := inputs; pv_AutoFetch := None |} in
          get! _ := nsay (if Debug (vo_Output o) then [PrevDebug spec] else []) in
          get! r := (fun w => let (r, w') := create_preview spec w in (inr r, [CreatePreview spec r], w')) in
          match r with
          | inl ([], e) => nfail (wrap_with "preview failed: " e)
          | inl (causes, _) =>
              get! _ := nsay (PrevErr ("Preview validation failed:" +:+ newline) :: map cause_line causes) in
              nfail (Errorf [PStr "preview request is invalid"])
          | inr a =>
              if vo_DryRun o then
                if negb (pa_Error a =? "")%string then
                  get! _ := nsay [PrevErr ("Error: " +:+ pa_Error a +:+ newline)] in
                  nfail (Errorf [PStr "policy syntax is invalid"])
                else nsay [PrevOut ("Policy syntax is valid." +:+ newline)]
              else preview_printResults o a
          end
      end
  end.
Definition preview_command (o : PreviewOptions) : M unit :=
  match preview_Validate o with Some e => nfail e | None => preview_Run o end.
End Previews.

(* ------------------------------------------------------------------ *)
(** ** Lemmas: previews *)

(** The answer of the handler, as the client sees it. *)
Definition preview_seen (r : resp (PolicyPreviewSpec * PolicyPreviewStatus)) : refusal + PreviewAnswer :=
  match r with
  | Answer (_, s) => inr {| pa_Error := ""; pa_Status := s |}
  | Refuse (ValidationStatus s) => inl (map (fun c => (ca_Field c, ca_Message c)) (st_Causes s), Ext (st_Message s))
  | Refuse _ => inl ([], Ext "the server rejected the request")
  | Crash _ => inl ([], Ext "the connection was closed")
  end.

(** The row of an input with that outcome. *)
Definition outcome_row (i : Z) (ty : string) (r : res EvaluationResult) : list cell :=
  map CText
    match activity_of r, r with
    | Some a, Ok ev =>
        ["Input #" +:+ pretty (i + 1)%Z; "yes";
         if (0 <=? MatchedRuleIndex ev)%Z then pretty (MatchedRuleIndex ev) +:+ " (" +:+ ty +:+ ")" else "-"; Summary (Spec a)]
    | _, r => ["Input #" +:+ pretty (i + 1)%Z; "no"; "-";
               match r with
               | Err e => if (error_text e =? "")%string then "-" else "ERROR: " +:+ error_text e
               | Panic w => if (w =? "")%string then "-" else "ERROR: " +:+ w
               | Ok _ => "-"
               end]
    end.

Lemma preview_row_outcome (before after : list Activity) i ty r :
  (match r with Ok ev => er_Activity ev <> None -> MatchedRuleType ev = ty | _ => True end) ->
  let here := match activity_of r with Some a => [a] | None => [] end in
  preview_row (before ++ here ++ after) (length before) (input_result i r)
  = (outcome_row i ty r, (length before + length here)%nat).
Proof.
  intros Hty. cbv zeta. unfold outcome_row, preview_row.
  assert (forall text, (if negb (text =? "")%string then (map CText ["Input #" +:+ pretty (i + 1)%Z; "no"; "-"; "ERROR: " +:+ text], length before)
     else match (before ++ [] ++ after) !! length before with
          | Some _ | None => (map CText ["Input #" +:+ pretty (i + 1)%Z; "no"; "-"; "-"], length before) end)
     = (map CText ["Input #" +:+ pretty (i + 1)%Z; "no"; "-"; if (text =? "")%string then "-" else "ERROR: " +:+ text], (length before + 0)%nat)) as He.
  { intros text. rewrite Nat.add_0_r. destruct (text =? "")%string; cbn [negb]; [|done]. by destruct (_ !! _). }
  destruct r as [ev|e|w]; cbn [activity_of input_result].
  - destruct (er_Activity ev) as [a|] eqn:Ea; cbn -[Z.leb pretty].
    + rewrite lookup_app_r, Nat.sub_diag by done. cbn -[Z.leb pretty]. rewrite Hty by done. by rewrite Nat.add_1_r.
    + exact (He "").
  - exact (He (error_text e)).
  - exact (He w).
Qed.

Section PreviewLemmas.
Context `{CelEngine} `{NameLib} `{ActivityLib} `{EvalJson}.

Lemma evaluate_type now spec input ev : evaluate_input now spec input = Ok ev -> er_Activity ev <> None -> MatchedRuleType ev = in_Type input.
Proof using Type.
  intros E Ha. destruct (er_Activity ev) as [a|] eqn:Ea; [|done].
  by destruct (evaluate_input_match now spec input ev a E Ea) as (k & rule & _ & ->).
Qed.

Lemma preview_rows_outcomes now spec inputs : forall i before,
  let os := outcomes now spec i inputs in
  preview_rows (before ++ omap activity_of os) (length before) (imap (fun n r => input_result (Z.of_nat (i + n)) r) os)
  = imap (fun n input => outcome_row (Z.of_nat (i + n)) (in_Type input) (evaluate_input (now (Z.of_nat (i + n))) spec input)) inputs.
Proof using Type.
  induction inputs as [|input inputs IH]; intros i before; cbv zeta; [done|]. rewrite outcomes_cons, !imap_cons.
  rewrite Nat.add_0_r. set (r := evaluate_input (now (Z.of_nat i)) spec input).
  set (here := match activity_of r with Some a => [a] | None => [] end).
  assert (omap activity_of (r :: outcomes now spec (S i) inputs) = here ++ omap activity_of (outcomes now spec (S i) inputs)) as ->
    by (unfold here; cbn; by destruct (activity_of r)).
  cbn [preview_rows].
  rewrite (preview_row_outcome before (omap activity_of (outcomes now spec (S i) inputs)) (Z.of_nat i) (in_Type input) r).
  2: { destruct r as [ev| |] eqn:E; [|done..]. by apply (evaluate_type (now (Z.of_nat i)) spec). }
  f_equal. rewrite <- length_app, (app_assoc before here).
  rewrite (imap_ext _ (fun n r0 => input_result (Z.of_nat (S i + n)) r0)) by (intros; simpl; by rewrite Nat.add_succ_r).
  etransitivity; [apply (IH (S i) (before ++ here))|]. apply imap_ext. intros n x _. simpl. by rewrite Nat.add_succ_r.
Qed.
End PreviewLemmas.

(** ** Lemmas: created jobs *)

Definition create_object (name : string) (o : CreateOptions) : JobObject :=
  {| jo_Job := {| rj_Name := name; rj_Generation := 0; rj_DeletionTimestamp := None; rj_Spec := create_spec o; rj_Status := empty_status |};
     jo_Labels := None; jo_Annotations := None |}.
Definition created (name : string) (o : CreateOptions) : JobObject := job_PrepareForCreate (create_object name o).
Definition in_bounds (v lo hi : Z) : Prop := (v = 0 \/ lo <= v <= hi)%Z.

(** What only the server looks at: both times can be read, the end being now
    when it is not given, and the start is before the end. *)
Definition server_range (now : time) (o : CreateOptions) : Prop := exists s e,
  ParseFlexibleTime (co_StartTime o) now = Ok s
  /\ ParseFlexibleTime (if (co_EndTime o =? "")%string then "now" else co_EndTime o) now = Ok e
  /\ (IsZero s = true \/ IsZero e = true \/ (s < e)%Z).

Lemma create_Validate_ok o :
  create_Validate o = None <-> co_StartTime o <> "" /\ in_bounds (co_BatchSize o) 100 10000
    /\ in_bounds (co_RateLimit o) 10 1000 /\ (0 <= co_TTL o)%Z.
Proof.
  unfold create_Validate, in_bounds. destruct (String.eqb_spec (co_StartTime o) ""); [naive_solver|].
  destruct (Z.eqb_spec (co_BatchSize o) 0), (Z.ltb_spec (co_BatchSize o) 100), (Z.ltb_spec 10000 (co_BatchSize o)),
    (Z.eqb_spec (co_RateLimit o) 0), (Z.ltb_spec (co_RateLimit o) 10), (Z.ltb_spec 1000 (co_RateLimit o)),
    (Z.ltb_spec (co_TTL o) 0); cbn; split; intros; try done; try lia; split_and!; auto; lia.
Qed.

Lemma created_config name o :
  Config (jo_Spec (created name o))
  = Some {| rc_BatchSize := if (co_BatchSize o =? 0)%Z then 1000%Z else co_BatchSize o;
            rc_RateLimit := if (co_RateLimit o =? 0)%Z then 100%Z else co_RateLimit o; rc_DryRun := co_DryRun o |}.
Proof.
  unfold created, create_object, create_spec.
  cbn [jo_Spec job_PrepareForCreate jo_Job with_spec_status rj_Spec default_spec Config].
  destruct (co_BatchSize o =? 0)%Z eqn:Eb, (co_RateLimit o =? 0)%Z eqn:Er, (co_DryRun o);
    cbn [negb orb default from_option id rc_BatchSize rc_RateLimit rc_DryRun]; by rewrite ?Eb, ?Er.
Qed.
Lemma created_selector name o :
  match PolicySelector (jo_Spec (created name o)) with
  | Some sel => sel_Names sel = co_PolicyNames o /\ sel_MatchLabels sel = ∅
  | None => co_PolicyNames o = []
  end.
Proof. cbn. by destruct (co_PolicyNames o). Qed.

(** The bounds the strategy checks, the defaults being in them. *)
Lemma created_bounds o p q d d' :
  check_bounds p (if (co_BatchSize o =? 0)%Z then 1000 else co_BatchSize o)%Z 100 10000 d
    ++ check_bounds q (if (co_RateLimit o =? 0)%Z then 100 else co_RateLimit o)%Z 10 1000 d' = []
  <-> in_bounds (co_BatchSize o) 100 10000 /\ in_bounds (co_RateLimit o) 10 1000.
Proof.
  split.
  - intros [Hb Hr]%app_eq_nil. apply check_bounds_ok in Hb, Hr. unfold in_bounds.
    destruct (Z.eqb_spec (co_BatchSize o) 0), (Z.eqb_spec (co_RateLimit o) 0); split; auto; lia.
  - unfold in_bounds. intros [Hb Hr]. rewrite !(proj2 (check_bounds_ok _ _ _ _ _)); [done|..];
      destruct (Z.eqb_spec (co_BatchSize o) 0), (Z.eqb_spec (co_RateLimit o) 0); auto; lia.
Qed.

(** When the strategy accepts the job. *)
Lemma created_validation now name o :
  job_Validate now (created name o) = Ok []
  <-> co_StartTime o <> "" /\ (in_bounds (co_BatchSize o) 100 10000 /\ in_bounds (co_RateLimit o) 10 1000)
      /\ server_range now o.
Proof.
  unfold job_Validate, ValidateReindexJobSpec. rewrite created_config. pose proof (created_selector name o) as Hsel.
  destruct (PolicySelector (jo_Spec (created name o))) as [sel|]; [destruct Hsel as [_ ->]|]; rewrite ?map_size_empty, ?andb_false_r;
  cbn [rc_BatchSize rc_RateLimit created create_object create_spec jo_Spec job_PrepareForCreate jo_Job with_spec_status rj_Spec
       default_spec TimeRange tr_StartTime tr_EndTime]; unfold range_time, server_range;
  (assert ((if (co_EndTime o =? "")%string then "now" else co_EndTime o) <> "") as Hne
    by (by destruct (String.eqb_spec (co_EndTime o) "")));
  apply String.eqb_neq in Hne; rewrite Hne; generalize (if (co_EndTime o =? "")%string then "now" else co_EndTime o); intros end_;
  (destruct (String.eqb_spec (co_StartTime o) "") as [Ez|Ez];
   [cbn [res_bind]; split; [by destruct (ParseFlexibleTime end_ now)|by intros [? _]]|]);
  (destruct (ParseFlexibleTime (co_StartTime o) now) as [s|err|w]; cbn [res_bind];
   [|split; [by destruct (ParseFlexibleTime end_ now)|by intros (_ & _ & ? & ? & [=] & _)]
    |split; [done|by intros (_ & _ & ? & ? & [=] & _)]]);
  (destruct (ParseFlexibleTime end_ now) as [e|err|w]; cbn [res_bind app];
   [|split; [done|by intros (_ & _ & ? & ? & _ & [=] & _)]|split; [done|by intros (_ & _ & ? & ? & _ & [=] & _)]]);
  rewrite <- (created_bounds o (Child "spec" :: map Child ["config"; "batchSize"]) (Child "spec" :: map Child ["config"; "rateLimit"])
                "batchSize must be between 100 and 10000" "rateLimit must be between 10 and 1000");
  (split;
   [destruct (_ && _)%bool eqn:Eo; [done|]; cbn [app]; intros [= Hb]; split; [done|]; split; [exact Hb|];
    exists s, e; split_and!; [done..|]; rewrite !andb_false_iff, !negb_false_iff in Eo; rewrite <- (Z.ltb_lt s e); naive_solver
   |intros (_ & Hb & s' & e' & [= <-] & [= <-] & Ho); cbn [app map] in *;
    replace (_ && _)%bool with false; [by rewrite Hb|];
    symmetry; rewrite !andb_false_iff, !negb_false_iff, Z.ltb_lt; naive_solver]).
Qed.

(* ------------------------------------------------------------------ *)
(** ** Theorems *)

(** C27: [reindex create] checks its flags as the server does.  The command
    accepts the flags, and their times are a range the server accepts - which
    the command does not look at - exactly when the strategy accepts the job the
    flags make, and the TTL - which the strategy does not look at - is not
    negative.  A job made from accepted flags has the times, the policies and the
    TTL given, and runs with exactly the flags given, or the server's defaults
    for those that are not. *)
Theorem create_flags_agree (now : time) (name : string) (o : CreateOptions) :
  let job := created name o in
  (create_Validate o = None /\ server_range now o <-> job_Validate now job = Ok [] /\ (0 <= co_TTL o)%Z)
  /\ (create_Validate o = None ->
      TimeRange (jo_Spec job) = {| tr_StartTime := co_StartTime o;
                                   tr_EndTime := if (co_EndTime o =? "")%string then "now" else co_EndTime o |}
      /\ TTLSecondsAfterFinished (jo_Spec job) = (if (co_TTL o =? 0)%Z then None else Some (co_TTL o))
      /\ forall s e, let opts := reindex_options (jo_Spec job) s e in
         o_StartTime opts = s /\ o_EndTime opts = e
         /\ BatchSize opts = (if (co_BatchSize o =? 0)%Z then 1000%Z else co_BatchSize o)
         /\ RateLimit opts = (if (co_RateLimit o =? 0)%Z then 100%Z else co_RateLimit o)
         /\ DryRun opts = co_DryRun o /\ PolicyNames opts = co_PolicyNames o /\ MatchLabels opts = ∅).
Proof.
  intros job. split.
  - unfold job. rewrite created_validation, create_Validate_ok. tauto.
  - intros (_ & Hb & Hr & Httl)%create_Validate_ok. split; [done|]. split.
    { cbn. destruct (Z.ltb_spec 0 (co_TTL o)), (Z.eqb_spec (co_TTL o) 0); done || lia. }
    intros s e. unfold reindex_options. pose proof (created_selector name o) as Hsel.
    unfold job. rewrite created_config. cbn [rc_BatchSize rc_RateLimit rc_DryRun BatchSize RateLimit DryRun PolicyNames MatchLabels o_StartTime o_EndTime].
    unfold in_bounds in *. split_and!; [done|done|..|done| |].
    1-2: match goal with |- (if (0 <? ?x)%Z then _ else _) = _ => destruct (Z.ltb_spec 0 x) as [|Hn]; [done|revert Hn; destruct (Z.eqb_spec (co_BatchSize o) 0), (Z.eqb_spec (co_RateLimit o) 0); lia] end.
    + destruct (PolicySelector _); [apply Hsel|done].
    + destruct (PolicySelector _); [apply Hsel|done].
Qed.

Section PreviewTheorems.
Context `{CelEngine} `{NameLib} `{ActivityLib} `{EvalJson} `{EventLib} `{AuditView} `{FieldLib}.
Context (QA : AuditLogQuerySpec -> ScopeContext -> res QueryResult).
Context (QE : EventQuerySpec -> ScopeContext -> res EventQueryResult).
Context (validated fetched : time) (now : Z -> time).
Context {W : Type} `{PreviewIO W}.

(** The client's requests are answered by the handler. *)
Definition handled_by : Prop := forall spec w,
  fst (create_preview spec w) = preview_seen (snd (preview_Create QA QE validated fetched now (Some spec))).

Lemma preview_needs_inputs spec : pv_Inputs spec = [] -> pv_AutoFetch spec = None ->
  exists r, preview_seen (snd (preview_Create QA QE validated fetched now (Some spec))) = inl r.
Proof using Type.
  intros Hi Ha. unfold preview_Create. destruct (validatePolicyPreview validated spec) as [[|f l]|e|p] eqn:E; [|by eexists..].
  unfold validatePolicyPreview in E. rewrite Hi, Ha in E. apply res_bind_ok in E as (e1 & _ & E). cbn in E.
  injection E as E. by apply app_eq_nil in E as [_ E].
Qed.

(** C?: [policy preview] end to end: when the handler answers, the command
    prints one row per input it was given, in order, and each is the outcome of
    that input alone: for a match the index of the rule and the summary of the
    activity of this very input, otherwise its error. *)
Theorem preview_table_own_rows (o : PreviewOptions) (policy : PolicySpec) (inputs : list PolicyPreviewInput) w calls spec' st :
  let spec := {| pv_Policy := policy; pv_Inputs := inputs; pv_AutoFetch := None |} in
  handled_by -> preview_config = None -> preview_client = None ->
  open_policy (vo_PolicyFile o) = inr (inr policy) -> vo_DryRun o = false -> readInputs o w = (inr inputs, [], w) ->
  IsDefaultOutputFormat (vo_Format o) = true -> (forall b t w', fst (preview_table b t w') = None) ->
  preview_Create QA QE validated fetched now (Some spec) = (calls, Answer (spec', st)) ->
  exists log w', preview_Run o w = (inr tt, log, w')
  /\ last log = Some (PrevTable (NoHeaders (vo_Output o))
       {| t_columns := ["Input"; "Matched"; "Rule"; "Activity Summary"];
          t_rows := imap (fun n input => outcome_row (Z.of_nat n) (in_Type input) (evaluate_input (now (Z.of_nat n)) policy input)) inputs |}
       None).
Proof using Type*.
  intros spec Hh Hc1 Hc2 Hp Hd Hi Hf Ht Hans. pose proof (Hh spec w) as Hw. rewrite Hans in Hw. cbn [snd preview_seen] in Hw.
  apply preview_answered in Hans as (_ & _ & Ha & Hr & Hin & _). cbn [spec pv_AutoFetch pv_Policy pv_Inputs] in *.
  assert (preview_to_table st = {| t_columns := ["Input"; "Matched"; "Rule"; "Activity Summary"];
    t_rows := imap (fun n input => outcome_row (Z.of_nat n) (in_Type input) (evaluate_input (now (Z.of_nat n)) policy input)) inputs |}) as Etab.
  { unfold preview_to_table. rewrite Ha, Hr, Hin. f_equal. exact (preview_rows_outcomes now policy inputs 0 []). }
  unfold preview_Run. rewrite Hc1, Hc2. unfold readPolicyFile. rewrite Hp, Hd.
  destruct (create_preview spec w) as [r w1] eqn:Ec. cbn [fst] in Hw. subst r.
  pose proof (Ht (NoHeaders (vo_Output o)) (preview_to_table st) w1) as Htab.
  destruct (preview_table (NoHeaders (vo_Output o)) (preview_to_table st) w1) as [e w2] eqn:Ep. cbn [fst] in Htab. subst e.
  assert (preview_printResults o {| pa_Error := ""; pa_Status := st |} w1
    = (inr tt, [PrevTable (NoHeaders (vo_Output o)) (preview_to_table st) None], w2)) as Eprint.
  { unfold preview_printResults, preview_printTable, ndo. cbn [pa_Error pa_Status String.eqb negb]. by rewrite Hf, Ep. }
  eexists _, w2. split.
  - eapply nbind_ok; [reflexivity|]. eapply nbind_ok; [exact Hi|]. eapply nbind_ok; [reflexivity|].
    eapply nbind_ok; [by fold spec; rewrite Ec|exact Eprint].
  - cbn [app]. rewrite Etab. apply (last_snoc _ (_ ++ _)) || (rewrite last_app; done).
Qed.

(** The command's dry run sends a policy without inputs; the server accepts
    none without inputs or auto-fetch. So no policy is ever found valid: the
    command says that the request is invalid, or fails. *)
Theorem dry_run_never_valid (o : PreviewOptions) w :
  handled_by -> vo_DryRun o = true ->
  exists e log w', preview_Run o w = (inl e, log, w')
  /\ PrevOut ("Policy syntax is valid." +:+ newline) ∉ log.
Proof using Type*.
  intros Hh Hd. unfold preview_Run. destruct preview_config as [e|]; [eexists _, [], w; split; [reflexivity|apply not_elem_of_nil]|].
  destruct preview_client as [e|]; [eexists _, [], w; split; [reflexivity|apply not_elem_of_nil]|].
  unfold readPolicyFile. destruct (open_policy (vo_PolicyFile o)) as [e|[e|policy]];
    [eexists _, [], w; split; [reflexivity|apply not_elem_of_nil]..|]. rewrite Hd. set (spec := {| pv_Policy := policy; pv_Inputs := []; pv_AutoFetch := None |}).
  pose proof (Hh spec w) as Hw. destruct (create_preview spec w) as [r w1] eqn:Ec. cbn [fst] in Hw.
  destruct (preview_needs_inputs spec eq_refl eq_refl) as [[causes e] Er]. rewrite Er in Hw. subst r.
  set (silent := fun a => match a with PrevOut _ => False | _ => True end).
  assert (forall log, Forall silent log -> PrevOut ("Policy syntax is valid." +:+ newline) ∉ log) as Hsil
    by (intros log Hl Hin; rewrite Forall_forall in Hl; exact (Hl _ Hin)).
  assert (forall l, Forall silent (map cause_line l)) as Hcs by (intros l; apply List.Forall_map, Forall_forall; done).
  destruct causes as [|c cs].
  - eexists _, ([] ++ [] ++ (if Debug (vo_Output o) then [PrevDebug spec] else []) ++ [CreatePreview spec (inl ([], e))] ++ []), w1. split.
    + do 2 (eapply nbind_ok; [reflexivity|]). eapply nbind_ok; [by destruct (Debug (vo_Output o))|].
      eapply nbind_ok; [by fold spec; rewrite Ec|reflexivity].
    + apply Hsil. destruct (Debug (vo_Output o)); repeat constructor.
  - eexists _, ([] ++ [] ++ (if Debug (vo_Output o) then [PrevDebug spec] else []) ++ [CreatePreview spec (inl (c :: cs, e))]
      ++ (PrevErr ("Preview validation failed:" +:+ newline) :: map cause_line (c :: cs)) ++ []), w1. split.
    + do 2 (eapply nbind_ok; [reflexivity|]). eapply nbind_ok; [by destruct (Debug (vo_Output o))|].
      eapply nbind_ok; [by fold spec; rewrite Ec|]. eapply nbind_ok; reflexivity.
    + apply Hsil. rewrite !Forall_app, Forall_cons.
      split_and!; first [apply (Hcs (c :: cs))|by destruct (Debug (vo_Output o)); repeat constructor].
Qed.
End PreviewTheorems.

(* ------------------------------------------------------------------ *)
(** ** Runs *)

Module ToyJobs.
Definition flags (batch : Z) : CreateOptions := {|
  co_StartTime := "now-7d"; co_EndTime := "now"; co_PolicyNames := ["httpproxy-policy"]; co_BatchSize := batch;
  co_RateLimit := 0; co_DryRun := false; co_TTL := 3600; co_Output := {| NoHeaders := false; Debug := false |} |}.
Definition preview_flags (dry : bool) : PreviewOptions := {|
  vo_PolicyFile := "policy.yaml"; vo_InputFile := "samples.yaml"; vo_InputAudit := ""; vo_DryRun := dry;
  vo_Output := {| NoHeaders := false; Debug := false |}; vo_Format := None |}.
#[export] Instance io : PreviewIO unit := {|
  preview_config := None; preview_client := None;
  open_policy f := inr (inr (pv_Policy ToyPreview.spec)); open_inputs f := inr (inr (pv_Inputs ToyPreview.spec));
  json_unmarshal_auditv1 s := inl (Ext "unexpected end of JSON input");
  create_preview spec w := (preview_seen (snd (ToyPreview.run spec)), w);
  preview_printer f := None; preview_table b t w := (None, w); preview_print f a w := (None, w) |}.
Definition job_ : ReindexJob := {|
  rj_Name := "reindex-x"; rj_Generation := 1; rj_DeletionTimestamp := None; rj_Spec := create_spec (flags 0);
  rj_Status := {| Phase := ""; Message := "";
    st_Progress := Some {| TotalEvents := 3; ProcessedEvents := 1; ActivitiesGenerated := 1; Errors := 0; CurrentBatch := 1; TotalBatches := 0 |};
    StartedAt := Some (of_unix_nano 0); CompletedAt := None; st_Conditions := [] |} |}.
End ToyJobs.

Lemma create_flags_agree_witness :
  create_Validate (ToyJobs.flags 5000) = None /\ server_range ToyStore.clock (ToyJobs.flags 5000)
  /\ job_Validate ToyStore.clock (created "r" (ToyJobs.flags 50)) <> Ok []
  /\ BatchSize (reindex_options (jo_Spec (created "r" (ToyJobs.flags 0))) 0%Z 0%Z) = 1000%Z.
Proof.
  split_and!.
  - apply (create_flags_agree ToyStore.clock "r" (ToyJobs.flags 5000)). by split; [vm_compute|].
  - apply (create_flags_agree ToyStore.clock "r" (ToyJobs.flags 5000)). by split; [vm_compute|].
  - intros Hv. assert (0 <= co_TTL (ToyJobs.flags 50))%Z as Ht by done.
    destruct (proj2 (proj1 (create_flags_agree ToyStore.clock "r" (ToyJobs.flags 50))) (conj Hv Ht)) as [Hc _].
    discriminate Hc.
  - apply (create_flags_agree ToyStore.clock "r" (ToyJobs.flags 0)). reflexivity.
Defined.

(** Times the command does not read are refused by the server only, a negative
    TTL by the command only. *)
Example create_flags_differ :
  let o start ttl := {| co_StartTime := start; co_EndTime := ""; co_PolicyNames := []; co_BatchSize := 0; co_RateLimit := 0;
                        co_DryRun := false; co_TTL := ttl; co_Output := {| NoHeaders := false; Debug := false |} |} in
  create_Validate (o "garbage" 0%Z) = None /\ job_Validate ToyStore.clock (created "r" (o "garbage" 0%Z)) <> Ok []
  /\ create_Validate (o "now-7d" (-1)%Z) <> None /\ job_Validate ToyStore.clock (created "r" (o "now-7d" (-1)%Z)) = Ok [].
Proof. vm_compute. done. Qed.

Lemma preview_table_own_rows_witness :
  exists log w', @preview_Run unit ToyJobs.io (ToyJobs.preview_flags false) tt = (inr tt, log, w')
  /\ exists rows, last log = Some (PrevTable false {| t_columns := ["Input"; "Matched"; "Rule"; "Activity Summary"]; t_rows := rows |} None)
  /\ length rows = 2%nat.
Proof.
  destruct (ToyPreview.run ToyPreview.spec) as [calls [[spec' st]|e|p]] eqn:E; [|by vm_compute in E..].
  destruct (@preview_table_own_rows ToyCel.toy ToyStrategy.names ToyLib.toy ToyPreview.json ToyEvents.lib ToyPreview.view
    ToyPreview.fields (fun _ _ => Err (Ext "down")) (fun _ _ => Err (Ext "down")) ToyStore.clock ToyStore.clock (fun _ => 7%Z)
    unit ToyJobs.io (ToyJobs.preview_flags false) (pv_Policy ToyPreview.spec) (pv_Inputs ToyPreview.spec) tt calls spec' st)
    as (log & w' & Er & El); try reflexivity; [done|exact E|].
  exists log, w'. split; [exact Er|]. eexists. split; [exact El|]. by rewrite length_imap.
Defined.

(** A job that has processed a third of its events. *)
Example detail_of_a_job :
  detail_lines ToyJobs.job_
  = ["Name:        reindex-x"; "Phase:       Pending"; ""; "Spec:"; "  Time Range: now-7d -> now";
     "  Policies:   [httpproxy-policy]"; ""; "Timestamps:"; "  Started:   1970-01-01T00:00:00Z"; ""; "Progress:";
     "  Events:      1 / 3 (33.3%)"; "  Activities:  1 generated"].
Proof. vm_compute. reflexivity. Qed.
