(* ===== verification/McpTools.v ===== *)
(** * pkg/mcp/tools: the tools of the MCP server

    The fourteen tools: the query each makes of its arguments, and the JSON it
    makes of the answer; the allow-list, and the recovery from panics
    ([tools.go], [server.go]).  A call is a function to a log of its requests;
    its [error] is a panic of the handler. *)

From Stdlib Require Import Ascii String.
From stdpp Require Import base numbers list strings gmap pretty sorting.
From Stdlib Require Import ZArith Lia.
From S2P Require Import Prelude GoLib Calls GoFmt GoJson Types TimeUtil CelPolicy Activity Dlq EventProc GoSlice PolicyCache CelFilter Query EventStore Watch Reindex ReindexJob PolicyController Rest EventsRest ActivityRest Preview Cli CliQuery CliJobs.

(* ------------------------------------------------------------------ *)
(** ** Results *)

Record CallToolResult := { IsError : bool; Text : string }.
Definition textResult (text : string) : CallToolResult := {| IsError := false; Text := text |}.
Definition errorResult (message : string) : CallToolResult := {| IsError := true; Text := message |}.
(** Every output is a value that encodes. *)
Definition jsonResult (output : any) : CallToolResult := textResult (MarshalIndent output).

(** A Go map literal, and the values of its fields. *)
Definition obj (fields : list (string * any)) : any := AMap (list_to_map (reverse fields)).
Definition AInt (z : Z) : any := ANum (pretty z).
Definition AFloat (f : float64) : any := ANum (FormatFloat_json f).
(** A slice that is nil when nothing was appended. *)
Definition nil_slice (l : list any) : any := match l with [] => ANull | _ => AList l end.

(* ------------------------------------------------------------------ *)
(** ** Helper functions *)

Definition celEquals `{GoUnicode} (field value : string) : string :=
  if (value =? "")%string then "" else field +:+ " == " +:+ Quote value.
Definition activityFilter (clauses : list string) : string :=
  String.concat " && " (List.filter (fun c => negb (c =? "")%string) clauses).
Definition isSystemUser (username : string) : bool :=
  (HasPrefix username "system:" || Contains username "serviceaccount" || Contains username "controller")%bool.

(** [counts[key]++] *)
Definition count_key (counts : gmap string Z) (key : string) : gmap string Z := <[key := (default 0 (counts !! key) + 1)%Z]> counts.
Definition count_keys (keys : list string) : gmap string Z := fold_left count_key keys ∅.

(** The two loops: position [i] is exchanged with each later one that has more. *)
Definition exchange (i : nat) (sorted : list (string * Z)) (j : nat) : list (string * Z) :=
  match sorted !! i, sorted !! j with
  | Some a, Some b => if (snd a <? snd b)%Z then swap i j sorted else sorted
  | _, _ => sorted
  end.
Definition sort_pass (sorted : list (string * Z)) (i : nat) : list (string * Z) :=
  fold_left (exchange i) (seq (S i) (length sorted - S i)) sorted.
Definition exchange_sort (l : list (string * Z)) : list (string * Z) := fold_left sort_pass (seq 0 (length l - 1)) l.

Definition makeslice_panic : error := Ext "runtime error: makeslice: cap out of range".
(** [make] panics past the address space, of 2^48 bytes, 8 for each map; what
    it accepts may still be more memory than there is. *)
Definition make_cap_ok (n : Z) : bool := ((0 <=? n) && (n * 8 <=? 2 ^ 48))%Z%bool.
(** [entries]: the counts in the order [range] meets them. *)
Definition getTopN (entries : list (string * Z)) (n : Z) : error + list (string * Z) :=
  let sorted := exchange_sort entries in
  if make_cap_ok n then inr (take (Z.to_nat n) sorted) else inl makeslice_panic.
Definition top_any (l : list (string * Z)) : any :=
  AList (map (fun '(k, v) => obj [("name", AStr k); ("count", AInt v)]) l).

Record activityCounts := { total : Z; actors : gmap string Z; resourceKinds : gmap string Z; changeSources : gmap string Z }.
Definition buildActivityCounts (activities : list Activity) : activityCounts :=
  {| total := Z.of_nat (length activities);
     actors := count_keys (map (fun a => act_Name (Actor (Spec a))) activities);
     resourceKinds := count_keys (map (fun a => Kind (Resource_ (Spec a))) activities);
     changeSources := count_keys (map (fun a => ChangeSource (Spec a)) activities) |}.

(** [entries]: the map that is ranged over, in its order. *)
Definition findNew (baseline : gmap string Z) (entries : list (string * Z)) : list (string * Z) :=
  List.filter (fun '(k, _) => bool_decide (baseline !! k = None)) entries.
Definition new_any (l : list (string * Z)) : any :=
  nil_slice (map (fun '(k, v) => obj [("name", AStr k); ("count", AInt v); ("note", AStr "Not present in baseline")]) l).

Record change := { ch_name : string; ch_baseline : Z; ch_comparison : Z; ch_percent : float64 }.
Definition findIncreased (baseline : gmap string Z) (entries : list (string * Z)) : list change :=
  omap (fun '(k, v) =>
    match baseline !! k with
    | Some baselineV =>
        if (baselineV <? v)%Z then
          let changePercent := percent (v - baselineV) baselineV in
          if fge changePercent (f64_of_int 50)
          then Some {| ch_name := k; ch_baseline := baselineV; ch_comparison := v; ch_percent := changePercent |}
          else None
        else None
    | None => None
    end) entries.
Definition findDecreased (entries : list (string * Z)) (comparison : gmap string Z) : list change :=
  omap (fun '(k, v) =>
    match comparison !! k with
    | Some compV =>
        if (compV <? v)%Z then
          let changePercent := percent (v - compV) v in
          if fge changePercent (f64_of_int 50)
          then Some {| ch_name := k; ch_baseline := v; ch_comparison := compV; ch_percent := fneg changePercent |}
          else None
        else None
    | None => None
    end) entries.
Definition changes_any (l : list change) : any :=
  nil_slice (map (fun c => obj [("name", AStr (ch_name c)); ("baseline", AInt (ch_baseline c));
                                ("comparison", AInt (ch_comparison c)); ("changePercent", AFloat (ch_percent c))]) l).
Definition absFloat (f : float64) : float64 := if flt f f64_zero then fneg f else f.

(* ------------------------------------------------------------------ *)
(** ** Requests *)

Inductive mcp_act :=
| QueryLogs (s : AuditLogQuerySpec) (r : error + QueryObject AuditLogQuerySpec CliEvent)
| LogFacets (s : FacetQuerySpec) (r : error + list FacetFieldResult)
| QueryActs (s : ActivityQuerySpec) (r : error + QueryObject ActivityQuerySpec Activity)
| ActFacets (s : FacetQuerySpec) (r : error + list FacetFieldResult)
| QueryEvts (s : EventQuerySpec) (r : error + QueryObject EventQuerySpec EventRecord)
| EvtFacets (s : EventFacetQuerySpec) (r : error + list FacetFieldResult)
| ListPolicies (r : error + list PolicyObject)
| PreviewPolicy (s : PolicyPreviewSpec) (r : error + PreviewAnswer).

(** The client of a call: [resolve] is nil, fails, gives a nil client
    ([false]) or a client. *)
Class McpClient (W : Type) := {
  resolve : option (W -> (error + bool) * W);
  audit_log_queries : AuditLogQuerySpec -> W -> (error + QueryObject AuditLogQuerySpec CliEvent) * W;
  audit_log_facets : FacetQuerySpec -> W -> (error + list FacetFieldResult) * W;
  activity_queries : ActivityQuerySpec -> W -> (error + QueryObject ActivityQuerySpec Activity) * W;
  activity_facets : FacetQuerySpec -> W -> (error + list FacetFieldResult) * W;
  event_queries : EventQuerySpec -> W -> (error + QueryObject EventQuerySpec EventRecord) * W;
  event_facets : EventFacetQuerySpec -> W -> (error + list FacetFieldResult) * W;
  list_policies : W -> (error + list PolicyObject) * W;
  policy_previews : PolicyPreviewSpec -> W -> (error + PreviewAnswer) * W }.

(** How [encoding/json] reads and writes API structures, field by field of
    their tags, and the orders in which [range] meets the entries of a map. *)
Class McpLib := {
  audit_event_any : CliEvent -> any;
  rules_any : list PolicyRule -> any;
  unmarshal_preview_input : string -> error + PolicyPreviewInput;
  range_counts : nat -> gmap string Z -> list (string * Z) }.
Class RangeLaws `{McpLib} : Prop := range_perm n m : range_counts n m ≡ₚ map_to_list m.

Definition ToolCallTimeout : Z := (50 * Second)%Z.
(** [int32(args.Limit)], the default for 0. *)
Definition tool_limit (limit dflt : Z) : Z := let l := wrap32 limit in if (l =? 0)%Z then dflt else l.
Definition or_text (text dflt : string) : string := if (text =? "")%string then dflt else text.

Section Tools.
Context {W : Type} `{McpClient W} `{McpLib} `{GoUnicode} `{GoLocal}.
Abbreviation M := (Calls mcp_act W).

(** [client]: the rest of a handler runs with a client. *)
Definition with_tool_client (run : M CallToolResult) : M CallToolResult :=
  match resolve with
  | None => nret (errorResult "Activity API client is not configured")
  | Some f => fun w =>
      let (r, w') := f w in
      match r with
      | inl e => nret (errorResult (error_text e)) w'
      | inr false => nret (errorResult "Activity API client is not configured") w'
      | inr true => run w'
      end
  end.

(** A request; its failure is the answer of the tool. *)
Definition call {A} (what : string) (f : W -> (error + A) * W) (log : (error + A) -> mcp_act)
    (k : A -> M CallToolResult) : M CallToolResult :=
  get! r := (fun w => let (r, w') := f w in (inr r, [log r], w')) in
  match r with
  | inl e => nret (errorResult (what +:+ error_text e))
  | inr a => k a
  end.

(* ------------------------------------------------------------------ *)
(** *** Queries and facets *)

Record QueryAuditLogsArgs := { qa_StartTime : string; qa_EndTime : string; qa_Filter : string; qa_Limit : Z (* int *) }.
Definition query_audit_logs_spec (args : QueryAuditLogsArgs) : AuditLogQuerySpec :=
  {| aq_StartTime := qa_StartTime args; aq_EndTime := qa_EndTime args; aq_Filter := qa_Filter args;
     aq_Limit := tool_limit (qa_Limit args) 100; aq_Continue := "" |}.
(** What the query tools say of an answer. *)
Definition query_output {Spec Item} (result : QueryObject Spec Item) (name : string) (items : list any) : any :=
  obj [("count", AInt (Z.of_nat (length items))); ("continue", AStr (q_Continue result));
       ("effectiveStartTime", AStr (q_EffectiveStartTime result)); ("effectiveEndTime", AStr (q_EffectiveEndTime result));
       (name, AList items)].
Definition handleQueryAuditLogs (args : QueryAuditLogsArgs) : M CallToolResult :=
  with_tool_client (
    let spec := query_audit_logs_spec args in
    call "Query failed: " (audit_log_queries spec) (QueryLogs spec) (fun result =>
      nret (jsonResult (query_output result "events" (map audit_event_any (q_Results result)))))).

Record GetFacetsArgs := {
  ga_Fields : list string; ga_StartTime : string; ga_EndTime : string; ga_Filter : string; ga_Limit : Z (* int *) }.
Definition facet_specs (args : GetFacetsArgs) : list FacetFieldSpec :=
  map (fun f => {| ff_Field := f; ff_Limit := tool_limit (ga_Limit args) 20 |}) (ga_Fields args).
Definition facets_spec (args : GetFacetsArgs) : FacetQuerySpec :=
  {| fq_StartTime := or_text (ga_StartTime args) "now-7d"; fq_EndTime := or_text (ga_EndTime args) "now";
     fq_Filter := ga_Filter args; fq_Facets := facet_specs args |}.
Definition facets_output (facets : list FacetFieldResult) : any :=
  obj (map (fun f => (fr_Field f, AList (map (fun '(v, n) => obj [("value", AStr v); ("count", AInt n)]) (fr_Values f)))) facets).

Definition handleGetAuditLogFacets (args : GetFacetsArgs) : M CallToolResult :=
  with_tool_client (
    call "Query failed: " (audit_log_facets (facets_spec args)) (LogFacets (facets_spec args)) (fun facets =>
      nret (jsonResult (facets_output facets)))).
Definition handleGetActivityFacets (args : GetFacetsArgs) : M CallToolResult :=
  with_tool_client (
    call "Query failed: " (activity_facets (facets_spec args)) (ActFacets (facets_spec args)) (fun facets =>
      nret (jsonResult (facets_output facets)))).
(** Event facets have no filter. *)
Definition event_facets_spec (args : GetFacetsArgs) : EventFacetQuerySpec :=
  {| ef_StartTime := or_text (ga_StartTime args) "now-7d"; ef_EndTime := or_text (ga_EndTime args) "now";
     ef_Facets := facet_specs args |}.
Definition handleGetEventFacets (args : GetFacetsArgs) : M CallToolResult :=
  with_tool_client (
    call "Query failed: " (event_facets (event_facets_spec args)) (EvtFacets (event_facets_spec args)) (fun facets =>
      nret (jsonResult (facets_output facets)))).

Record QueryActivitiesArgs := {
  qy_StartTime : string; qy_EndTime : string; qy_ChangeSource : string; qy_ActorName : string; qy_ResourceKind : string;
  qy_APIGroup : string; qy_Search : string; qy_Limit : Z (* int *) }.
Definition query_activities_spec (args : QueryActivitiesArgs) : ActivityQuerySpec :=
  {| StartTime := qy_StartTime args; EndTime := qy_EndTime args; Search := qy_Search args;
     Filter := activityFilter [celEquals "spec.changeSource" (qy_ChangeSource args);
                               celEquals "spec.actor.name" (qy_ActorName args);
                               celEquals "spec.resource.kind" (qy_ResourceKind args);
                               celEquals "spec.resource.apiGroup" (qy_APIGroup args)];
     Limit := tool_limit (qy_Limit args) 100; Continue_ := "" |}.
Definition activity_any (a : Activity) : any :=
  let s := Spec a in let r := Resource_ s in
  obj [("name", AStr (Name a)); ("summary", AStr (Summary s)); ("changeSource", AStr (ChangeSource s));
       ("actor", obj [("type", AStr (act_Type (Actor s))); ("name", AStr (act_Name (Actor s)))]);
       ("resource", obj [("apiGroup", AStr (APIGroup r)); ("kind", AStr (Kind r)); ("name", AStr (res_Name r));
                         ("namespace", AStr (res_Namespace r))]);
       ("timestamp", AStr (Format_RFC3339 (CreationTimestamp a)))].
Definition handleQueryActivities (args : QueryActivitiesArgs) : M CallToolResult :=
  with_tool_client (
    let spec := query_activities_spec args in
    call "Query failed: " (activity_queries spec) (QueryActs spec) (fun result =>
      nret (jsonResult (query_output result "activities" (map activity_any (q_Results result)))))).

(* ------------------------------------------------------------------ *)
(** *** Investigation *)

Record FindFailedOperationsArgs := {
  ff_StartTime : string; ff_EndTime : string; ff_StatusCodeMin : Z; ff_StatusCodeMax : Z; ff_Username : string;
  ff_Resource : string; ff_Verb : string; ffo_Limit : Z (* int *) }.
Definition or_code (code dflt : Z) : Z := if (code =? 0)%Z then dflt else code.
Definition failed_conds (args : FindFailedOperationsArgs) : list (string * string) :=
  [("user.username", ff_Username args); ("objectRef.resource", ff_Resource args); ("verb", ff_Verb args)].
Definition failed_filter (args : FindFailedOperationsArgs) : string :=
  String.concat " && "
    (["responseStatus.code >= " +:+ pretty (or_code (ff_StatusCodeMin args) 400);
      "responseStatus.code <= " +:+ pretty (or_code (ff_StatusCodeMax args) 599)]
     ++ map (fun '(k, v) => celEquals k v) (when_set (failed_conds args))).
Definition failed_operations_spec (args : FindFailedOperationsArgs) : AuditLogQuerySpec :=
  {| aq_StartTime := ff_StartTime args; aq_EndTime := or_text (ff_EndTime args) "now"; aq_Filter := failed_filter args;
     aq_Limit := tool_limit (ffo_Limit args) 100; aq_Continue := "" |}.

(** The code of an event, 0 when it has no status. *)
Definition status_code (e : CliEvent) : Z := match ce_ResponseStatus e with Some (code, _) => code | None => 0%Z end.
Definition failure_any (e : CliEvent) : any :=
  obj ([("timestamp", AStr (Format_RFC3339 (ce_RequestReceivedTimestamp e))); ("user", AStr (ce_Username e));
        ("verb", AStr (ce_Verb e)); ("statusCode", AInt (status_code e))]
       ++ match ce_ObjectRef e with
          | Some r => [("resource", AStr (or_Resource r)); ("name", AStr (or_Name r)); ("namespace", AStr (or_Namespace r))]
          | None => if negb (ce_RequestURI e =? "")%string then [("requestURI", AStr (ce_RequestURI e))] else []
          end
       ++ match ce_ResponseStatus e with
          | Some (_, message) => if negb (message =? "")%string then [("message", AStr message)] else []
          | None => []
          end).
Definition handleFindFailedOperations (args : FindFailedOperationsArgs) : M CallToolResult :=
  with_tool_client (
    let spec := failed_operations_spec args in
    call "Query failed: " (audit_log_queries spec) (QueryLogs spec) (fun result =>
      let events := q_Results result in
      nret (jsonResult (obj [("count", AInt (Z.of_nat (length events)));
                             ("byStatusCode", AMap (AInt <$> count_keys (map (fun e => pretty (status_code e)) events)));
                             ("failures", AList (map failure_any events))])))).

Record GetResourceHistoryArgs := {
  rh_ResourceUID : string; rh_APIGroup : string; rh_Kind : string; rh_Name : string; rh_Namespace : string;
  rh_StartTime : string; rh_EndTime : string; rh_Limit : Z (* int *) }.
Definition resource_history_spec (args : GetResourceHistoryArgs) : ActivityQuerySpec :=
  {| StartTime := or_text (rh_StartTime args) "now-30d"; EndTime := or_text (rh_EndTime args) "now"; Search := "";
     Filter := activityFilter [celEquals "spec.resource.uid" (rh_ResourceUID args);
                               celEquals "spec.resource.apiGroup" (rh_APIGroup args);
                               celEquals "spec.resource.kind" (rh_Kind args);
                               celEquals "spec.resource.name" (rh_Name args);
                               celEquals "spec.resource.namespace" (rh_Namespace args)];
     Limit := tool_limit (rh_Limit args) 100; Continue_ := "" |}.
(** The activities shown: those of the name, if one was given. *)
Definition history_entries (args : GetResourceHistoryArgs) (results : list Activity) : list Activity :=
  List.filter (fun a => (rh_Name args =? "") || (res_Name (Resource_ (Spec a)) =? rh_Name args))%string%bool results.
Definition history_any (a : Activity) : any :=
  obj [("timestamp", AStr (Format_RFC3339 (CreationTimestamp a))); ("actor", AStr (act_Name (Actor (Spec a))));
       ("summary", AStr (Summary (Spec a))); ("changeSource", AStr (ChangeSource (Spec a)))].
(** The resource shown: that of the first result, else the arguments. *)
Definition history_resource (args : GetResourceHistoryArgs) (results : list Activity) : string * string * string * string :=
  match results with
  | a :: _ => let r := Resource_ (Spec a) in (res_Name r, Kind r, APIGroup r, res_Namespace r)
  | [] => (rh_Name args, rh_Kind args, rh_APIGroup args, rh_Namespace args)
  end.
Definition time_range_any {Spec Item} (result : QueryObject Spec Item) : any :=
  obj [("start", AStr (q_EffectiveStartTime result)); ("end", AStr (q_EffectiveEndTime result))].
Definition handleGetResourceHistory (args : GetResourceHistoryArgs) : M CallToolResult :=
  with_tool_client (
    if ((rh_ResourceUID args =? "") && (rh_Name args =? ""))%string%bool
    then nret (errorResult "Either resourceUID or name is required")
    else
      let spec := resource_history_spec args in
      call "Query failed: " (activity_queries spec) (QueryActs spec) (fun result =>
        let history := history_entries args (q_Results result) in
        let '(name, kind, group, namespace) := history_resource args (q_Results result) in
        nret (jsonResult (obj [
          ("resource", obj [("name", AStr name); ("kind", AStr kind); ("apiGroup", AStr group); ("namespace", AStr namespace)]);
          ("count", AInt (Z.of_nat (length history))); ("timeRange", time_range_any result);
          ("history", AList (map history_any history))])))).

Record GetUserActivitySummaryArgs := {
  us_Username : string; us_StartTime : string; us_EndTime : string; us_IncludeDetails : bool }.
Definition user_summary_spec (args : GetUserActivitySummaryArgs) : ActivityQuerySpec :=
  {| StartTime := or_text (us_StartTime args) "now-7d"; EndTime := or_text (us_EndTime args) "now"; Search := "";
     Filter := celEquals "spec.actor.name" (TrimPrefix (us_Username args) "system:"); Limit := 1000; Continue_ := "" |}.
Definition recent_any (a : Activity) : any :=
  let s := Spec a in
  obj [("timestamp", AStr (Format_RFC3339 (CreationTimestamp a))); ("summary", AStr (Summary s));
       ("changeSource", AStr (ChangeSource s));
       ("resource", obj [("kind", AStr (Kind (Resource_ s))); ("name", AStr (res_Name (Resource_ s)));
                         ("namespace", AStr (res_Namespace (Resource_ s)))])].
Definition user_summary_output (args : GetUserActivitySummaryArgs) (result : QueryObject ActivityQuerySpec Activity) : any :=
  let acts := q_Results result in
  let dayCounts := count_keys (map (fun a => Format_Date (CreationTimestamp a)) acts) in
  let recent := if us_IncludeDetails args then map recent_any (take 20 acts) else [] in
  obj ([("user", obj [("username", AStr (us_Username args))]); ("timeRange", time_range_any result);
        ("totalActivities", AInt (Z.of_nat (length acts)));
        ("breakdown", obj [
           ("byChangeSource", AMap (AInt <$> count_keys (map (fun a => ChangeSource (Spec a)) acts)));
           ("byResourceKind", AMap (AInt <$> count_keys (map (fun a => Kind (Resource_ (Spec a))) acts)));
           ("byDay", AList (map (fun '(day, n) => obj [("date", AStr day); ("count", AInt n)]) (range_counts 0 dayCounts)))])]
       ++ match recent with [] => [] | _ => [("recentActivities", AList recent)] end).
Definition handleGetUserActivitySummary (args : GetUserActivitySummaryArgs) : M CallToolResult :=
  with_tool_client (
    if (us_Username args =? "")%string then nret (errorResult "Username is required")
    else
      let spec := user_summary_spec args in
      call "Query failed: " (activity_queries spec) (QueryActs spec) (fun result =>
        nret (jsonResult (user_summary_output args result)))).

(* ------------------------------------------------------------------ *)
(** *** Analytics *)

Record GetActivityTimelineArgs := { tl_StartTime : string; tl_EndTime : string; tl_BucketSize : string; tl_ChangeSource : string }.
Definition recent_spec (start end_ changeSource : string) : ActivityQuerySpec :=
  {| StartTime := start; EndTime := or_text end_ "now"; Search := ""; Filter := celEquals "spec.changeSource" changeSource;
     Limit := 1000; Continue_ := "" |}.
(** The layouts [2006-01-02T15:00:00Z] and [2006-01-02T00:00:00Z], in the
    location of the process: the letter is part of the layout. *)
Definition bucket_of (bucketSize : string) (t : time) : string :=
  if (bucketSize =? "day")%string then Format_Date t +:+ "T00:00:00Z"
  else Format_Date t +:+ "T" +:+ take_str 2 (Format_Clock t) +:+ ":00:00Z".
(** One step of the count: the buckets, the peak and its count. *)
Definition count_bucket (s : gmap string Z * string * Z) (bucket : string) : gmap string Z * string * Z :=
  let '(counts, peak, peakCount) := s in
  let counts := count_key counts bucket in
  let n := default 0%Z (counts !! bucket) in
  if (peakCount <? n)%Z then (counts, bucket, n) else (counts, peak, peakCount).
Definition count_buckets (buckets : list string) : gmap string Z * string * Z := fold_left count_bucket buckets (∅, "", 0%Z).
Definition timeline_output (args : GetActivityTimelineArgs) (result : QueryObject ActivityQuerySpec Activity) : any :=
  let bucketSize := or_text (tl_BucketSize args) "hour" in
  let acts := q_Results result in
  let '(counts, peakBucket, peakCount) := count_buckets (map (fun a => bucket_of bucketSize (CreationTimestamp a)) acts) in
  let buckets := map (fun '(b, n) => obj ([("timestamp", AStr b); ("count", AInt n)]
                                           ++ (if (b =? peakBucket)%string then [("note", AStr "peak")] else [])))
                   (range_counts 0 counts) in
  let avg := match buckets with
             | [] => f64_zero
             | _ => fdiv (f64_of_int (Z.of_nat (length acts))) (f64_of_int (Z.of_nat (length buckets)))
             end in
  obj [("timeRange", time_range_any result); ("bucketSize", AStr bucketSize);
       ("totalCount", AInt (Z.of_nat (length acts))); ("buckets", AList buckets);
       ("peakBucket", obj [("timestamp", AStr peakBucket); ("count", AInt peakCount)]); ("averagePerBucket", AFloat avg)].
Definition handleGetActivityTimeline (args : GetActivityTimelineArgs) : M CallToolResult :=
  with_tool_client (
    let spec := recent_spec (tl_StartTime args) (tl_EndTime args) (tl_ChangeSource args) in
    call "Query failed: " (activity_queries spec) (QueryActs spec) (fun result =>
      nret (jsonResult (timeline_output args result)))).

Record SummarizeRecentActivityArgs := { sr_StartTime : string; sr_EndTime : string; sr_ChangeSource : string; sr_TopN : Z (* int *) }.
Definition highlight (what : string) (top : list (string * Z)) : list string :=
  match top with
  | (name, n) :: _ => [what +:+ name +:+ " (" +:+ pretty n +:+ " activities)"]
  | [] => []
  end.
(** [inl]: the slice of the top items cannot be made. *)
Definition summarize_output (args : SummarizeRecentActivityArgs) (result : QueryObject ActivityQuerySpec Activity) : error + any :=
  let topN := or_code (sr_TopN args) 5 in
  let acts := q_Results result in
  let counts := buildActivityCounts acts in
  let humanChanges := Z.of_nat (length (List.filter (fun a => ChangeSource (Spec a) =? "human")%string acts)) in
  let systemChanges := (Z.of_nat (length acts) - humanChanges)%Z in
  match getTopN (range_counts 0 (actors counts)) topN, getTopN (range_counts 1 (resourceKinds counts)) topN with
  | inl e, _ | _, inl e => inl e
  | inr topActors, inr topResources =>
      let highlights :=
        [pretty (Z.of_nat (length acts)) +:+ " total activities (" +:+ pretty humanChanges +:+ " human, " +:+ pretty systemChanges +:+ " system)"]
        ++ highlight "Most active: " topActors ++ highlight "Most changed resource type: " topResources in
      inr (obj [("timeRange", time_range_any result); ("totalActivities", AInt (Z.of_nat (length acts)));
                ("humanChanges", AInt humanChanges); ("systemChanges", AInt systemChanges);
                ("highlights", AList (map AStr highlights)); ("topActors", top_any topActors); ("topResources", top_any topResources);
                ("recentSummaries", nil_slice (map (fun a => AStr (Summary (Spec a))) (take (Z.to_nat topN) acts)))])
  end.
Definition handleSummarizeRecentActivity (args : SummarizeRecentActivityArgs) : M CallToolResult :=
  with_tool_client (
    let spec := recent_spec (sr_StartTime args) (sr_EndTime args) (sr_ChangeSource args) in
    call "Query failed: " (activity_queries spec) (QueryActs spec) (fun result =>
      match summarize_output args result with
      | inl panic => nfail panic
      | inr output => nret (jsonResult output)
      end)).

Record CompareActivityPeriodsArgs := { cp_BaselineStart : string; cp_BaselineEnd : string; cp_ComparisonStart : string; cp_ComparisonEnd : string }.
Definition period_spec (start end_ : string) : ActivityQuerySpec :=
  {| StartTime := start; EndTime := end_; Search := ""; Filter := ""; Limit := 1000; Continue_ := "" |}.
Definition period_any (result : QueryObject ActivityQuerySpec Activity) (counts : activityCounts) : any :=
  obj [("start", AStr (q_EffectiveStartTime result)); ("end", AStr (q_EffectiveEndTime result)); ("count", AInt (total counts))].
(** The change in percent, and the sentence that says it. *)
Definition change_percent (baseline comparison : activityCounts) : float64 :=
  if (0 <? total baseline)%Z then percent (total comparison - total baseline) (total baseline) else f64_zero.
Definition comparison_text (changePercent : float64) (newActors : nat) : string :=
  "Comparison period shows " +:+ Format_f 0 (absFloat changePercent) +:+ "% " +:+ (if flt changePercent f64_zero then "less" else "more")
  +:+ " activity." +:+ (if (0 <? newActors)%nat then " " +:+ pretty (Z.of_nat newActors) +:+ " new actors appeared." else "").
Definition compare_output (b c : QueryObject ActivityQuerySpec Activity) : any :=
  let baseline := buildActivityCounts (q_Results b) in
  let comparison := buildActivityCounts (q_Results c) in
  let newInComparison := findNew (actors baseline) (range_counts 0 (actors comparison)) in
  let increased := findIncreased (resourceKinds baseline) (range_counts 1 (resourceKinds comparison)) in
  let decreased := findDecreased (range_counts 2 (resourceKinds baseline)) (resourceKinds comparison) in
  let changePercent := change_percent baseline comparison in
  obj [("baseline", period_any b baseline); ("comparison", period_any c comparison); ("changePercent", AFloat changePercent);
       ("newInComparison", new_any newInComparison); ("increasedActivity", changes_any increased);
       ("decreasedActivity", changes_any decreased); ("analysis", AStr (comparison_text changePercent (length newInComparison)))].
Definition handleCompareActivityPeriods (args : CompareActivityPeriodsArgs) : M CallToolResult :=
  with_tool_client (
    let bs := period_spec (cp_BaselineStart args) (cp_BaselineEnd args) in
    let cs := period_spec (cp_ComparisonStart args) (cp_ComparisonEnd args) in
    call "Baseline query failed: " (activity_queries bs) (QueryActs bs) (fun b =>
      call "Comparison query failed: " (activity_queries cs) (QueryActs cs) (fun c =>
        nret (jsonResult (compare_output b c))))).

(* ------------------------------------------------------------------ *)
(** *** Policies *)

Record ListActivityPoliciesArgs := { lp_APIGroup : string; lp_Kind : string; lp_IncludeRules : bool }.
Definition listed (args : ListActivityPoliciesArgs) (p : PolicyObject) : bool :=
  let spec := pol_Spec (po_Policy p) in
  negb ((negb (lp_APIGroup args =? "") && negb (ps_APIGroup spec =? lp_APIGroup args))
        || (negb (lp_Kind args =? "") && negb (ps_Kind spec =? lp_Kind args)))%string%bool.
Definition policy_status (p : PolicyObject) : string :=
  match List.find (fun c => cn_Type c =? "Ready")%string (po_Conditions p) with
  | Some c => if (cn_Status c =? "True")%string then "Ready" else cn_Reason c
  | None => "Unknown"
  end.
Definition policy_any (args : ListActivityPoliciesArgs) (p : PolicyObject) : any :=
  let spec := pol_Spec (po_Policy p) in
  obj ([("name", AStr (pol_Name (po_Policy p)));
        ("resource", obj [("apiGroup", AStr (ps_APIGroup spec)); ("kind", AStr (ps_Kind spec))]);
        ("auditRuleCount", AInt (Z.of_nat (length (AuditRules spec)))); ("eventRuleCount", AInt (Z.of_nat (length (EventRules spec))));
        ("status", AStr (policy_status p))]
       ++ (if lp_IncludeRules args then [("auditRules", rules_any (AuditRules spec)); ("eventRules", rules_any (EventRules spec))] else [])).
Definition policies_output (args : ListActivityPoliciesArgs) (items : list PolicyObject) : any :=
  let policies := map (policy_any args) (List.filter (listed args) items) in
  let n := pretty (Z.of_nat (length policies)) in
  obj [("policies", AList policies); ("summary", AStr (n +:+ " policies covering " +:+ n +:+ " resource types"))].
Definition handleListActivityPolicies (args : ListActivityPoliciesArgs) : M CallToolResult :=
  with_tool_client (
    call "Query failed: " list_policies ListPolicies (fun items => nret (jsonResult (policies_output args items)))).

Record PreviewActivityPolicyArgs := { pp_Policy : PolicySpec; pp_Inputs : list string (* raw JSON *) }.
(** The inputs, or the first that cannot be read. *)
Fixpoint decode_preview_inputs (i : Z) (raws : list string) : CallToolResult + list PolicyPreviewInput :=
  match raws with
  | [] => inr []
  | raw :: rest =>
      match unmarshal_preview_input raw with
      | inl e => inl (errorResult ("Invalid input at index " +:+ pretty i +:+ ": " +:+ error_text e))
      | inr input => match decode_preview_inputs (i + 1) rest with inl r => inl r | inr l => inr (input :: l) end
      end
  end.
Definition preview_result_any (r : PolicyPreviewInputResult) : any :=
  obj ([("inputIndex", AInt (ir_InputIndex r)); ("matched", ABool (ir_Matched r))]
       ++ (if ir_Matched r then [("matchedRule", obj [("type", AStr (ir_MatchedRuleType r)); ("index", AInt (ir_MatchedRuleIndex r))])] else [])
       ++ (if negb (ir_Error r =? "")%string then [("error", AStr (ir_Error r))] else [])).
Definition preview_activity_any (a : Activity) : any :=
  let s := Spec a in
  obj [("summary", AStr (Summary s)); ("actor", obj [("type", AStr (act_Type (Actor s))); ("name", AStr (act_Name (Actor s)))]);
       ("resource", obj [("kind", AStr (Kind (Resource_ s))); ("name", AStr (res_Name (Resource_ s)))])].
Definition handlePreviewActivityPolicy (args : PreviewActivityPolicyArgs) : M CallToolResult :=
  with_tool_client (
    match decode_preview_inputs 0 (pp_Inputs args) with
    | inl r => nret r
    | inr inputs =>
        let spec := {| pv_Policy := pp_Policy args; pv_Inputs := inputs; pv_AutoFetch := None |} in
        call "Preview failed: " (policy_previews spec) (PreviewPolicy spec) (fun result =>
          if negb (pa_Error result =? "")%string then nret (errorResult ("Preview error: " +:+ pa_Error result))
          else nret (jsonResult (obj [
            ("results", AList (map preview_result_any (pv_Results (pa_Status result))));
            ("activities", AList (map preview_activity_any (pv_Activities (pa_Status result))))])))
    end).

(* ------------------------------------------------------------------ *)
(** *** Events *)

Record QueryEventsArgs := {
  qe_StartTime : string; qe_EndTime : string; qe_Namespace : string; qe_RegardingKind : string; qe_RegardingName : string;
  qe_Reason : string; qe_Type : string; qe_SourceComponent : string; qe_Limit : Z (* int *) }.
(** The checked arguments, and the terms made of them. *)
Definition event_args (args : QueryEventsArgs) : list (string * string) :=
  [("regardingKind", qe_RegardingKind args); ("regardingName", qe_RegardingName args); ("reason", qe_Reason args);
   ("type", qe_Type args); ("sourceComponent", qe_SourceComponent args)].
Definition event_terms (args : QueryEventsArgs) : list (string * string) :=
  when_set [("regarding.kind", qe_RegardingKind args); ("regarding.name", qe_RegardingName args); ("reason", qe_Reason args);
            ("type", qe_Type args); ("source.component", qe_SourceComponent args)].
(** [order]: the arguments in the order the loop over their map meets them. *)
Definition refused_arg (order : list (string * string)) : option (string * string) :=
  List.find (fun '(_, v) => ContainsAny v [","; "="; "!"]%char) order.
Definition query_events_spec (args : QueryEventsArgs) : EventQuerySpec :=
  {| es_StartTime := qe_StartTime args; es_EndTime := qe_EndTime args; es_Namespace := qe_Namespace args;
     es_FieldSelector := String.concat "," (map (fun '(k, v) => k +:+ "=" +:+ v) (event_terms args));
     es_Limit := tool_limit (qe_Limit args) 100; es_Continue := "" |}.
Definition event_any (record : EventRecord) : any :=
  let e := erec_Event record in let r := ev_rest e in let reg := ev_Regarding r in
  obj ([("name", AStr (ev_Name e)); ("namespace", AStr (ev_Namespace e)); ("type", AStr (ev_Type r)); ("reason", AStr (ev_Reason r));
        ("message", AStr (ev_Note r))]
       ++ (if (negb (ref_Name reg =? "") || negb (ref_Kind reg =? ""))%string%bool
           then [("regarding", obj [("kind", AStr (ref_Kind reg)); ("name", AStr (ref_Name reg)); ("namespace", AStr (ref_Namespace reg))])]
           else [])
       ++ [("source", obj [("component", AStr (ev_ReportingController r)); ("host", AStr (ev_ReportingInstance r))]);
           ("count", AInt (match ev_Series e with Some s => es_Count s | None => 1%Z end))]
       ++ match ev_Series e with
          | Some s => if negb (IsZero (es_LastObservedTime s)) then [("timestamp", AStr (Format_RFC3339 (es_LastObservedTime s)))]
                      else if negb (IsZero (ev_EventTime e)) then [("timestamp", AStr (Format_RFC3339 (ev_EventTime e)))] else []
          | None => if negb (IsZero (ev_EventTime e)) then [("timestamp", AStr (Format_RFC3339 (ev_EventTime e)))] else []
          end).
Definition handleQueryEvents (order : list (string * string)) (args : QueryEventsArgs) : M CallToolResult :=
  with_tool_client (
    match refused_arg order with
    | Some (name, v) => nret (errorResult ("Invalid " +:+ name +:+ " " +:+ Quote v +:+ ": values may not contain ',', '=' or '!'"))
    | None =>
        let spec := query_events_spec args in
        call "Query failed: " (event_queries spec) (QueryEvts spec) (fun result =>
          nret (jsonResult (query_output result "events" (map event_any (q_Results result)))))
    end).

(* ------------------------------------------------------------------ *)
(** *** The server *)

Inductive tool_call :=
| CallQueryAuditLogs (args : QueryAuditLogsArgs) | CallGetAuditLogFacets (args : GetFacetsArgs)
| CallQueryActivities (args : QueryActivitiesArgs) | CallGetActivityFacets (args : GetFacetsArgs)
| CallFindFailedOperations (args : FindFailedOperationsArgs) | CallGetResourceHistory (args : GetResourceHistoryArgs)
| CallGetUserActivitySummary (args : GetUserActivitySummaryArgs) | CallGetActivityTimeline (args : GetActivityTimelineArgs)
| CallSummarizeRecentActivity (args : SummarizeRecentActivityArgs) | CallCompareActivityPeriods (args : CompareActivityPeriodsArgs)
| CallListActivityPolicies (args : ListActivityPoliciesArgs) | CallPreviewActivityPolicy (args : PreviewActivityPolicyArgs)
| CallQueryEvents (order : list (string * string)) (args : QueryEventsArgs) | CallGetEventFacets (args : GetFacetsArgs).

(** The name a call is registered under, and its handler. *)
Definition tool_name (c : tool_call) : string :=
  match c with
  | CallQueryAuditLogs _ => "query_audit_logs" | CallGetAuditLogFacets _ => "get_audit_log_facets"
  | CallQueryActivities _ => "query_activities" | CallGetActivityFacets _ => "get_activity_facets"
  | CallFindFailedOperations _ => "find_failed_operations" | CallGetResourceHistory _ => "get_resource_history"
  | CallGetUserActivitySummary _ => "get_user_activity_summary" | CallGetActivityTimeline _ => "get_activity_timeline"
  | CallSummarizeRecentActivity _ => "summarize_recent_activity" | CallCompareActivityPeriods _ => "compare_activity_periods"
  | CallListActivityPolicies _ => "list_activity_policies" | CallPreviewActivityPolicy _ => "preview_activity_policy"
  | CallQueryEvents _ _ => "query_events" | CallGetEventFacets _ => "get_event_facets"
  end.
Definition handle (c : tool_call) : M CallToolResult :=
  match c with
  | CallQueryAuditLogs args => handleQueryAuditLogs args | CallGetAuditLogFacets args => handleGetAuditLogFacets args
  | CallQueryActivities args => handleQueryActivities args | CallGetActivityFacets args => handleGetActivityFacets args
  | CallFindFailedOperations args => handleFindFailedOperations args | CallGetResourceHistory args => handleGetResourceHistory args
  | CallGetUserActivitySummary args => handleGetUserActivitySummary args | CallGetActivityTimeline args => handleGetActivityTimeline args
  | CallSummarizeRecentActivity args => handleSummarizeRecentActivity args | CallCompareActivityPeriods args => handleCompareActivityPeriods args
  | CallListActivityPolicies args => handleListActivityPolicies args | CallPreviewActivityPolicy args => handlePreviewActivityPolicy args
  | CallQueryEvents order args => handleQueryEvents order args | CallGetEventFacets args => handleGetEventFacets args
  end.

(** [RegisterOptions]: the allow-list; nil allows all. *)
Definition allows (tools : option (list string)) (name : string) : bool :=
  match tools with None => true | Some l => List.existsb (String.eqb name) l end.

Definition recovered : CallToolResult :=
  errorResult "Internal error while running this tool. The failure has been logged; retrying with the same arguments will likely fail the same way.".
(** [RecoverMiddleware] of another method: an error instead of a panic. *)
Definition RecoverMiddleware {A} (method : string) (next : Calls mcp_act W A) (of_result : CallToolResult -> A) : Calls mcp_act W (error + A) :=
  ntry next (fun _ => nret (if (method =? "tools/call")%string then inr (of_result recovered)
                            else inl (Errorf [PStr "internal error handling "; PStr method])))
    (fun a => nret (inr a)).

(** A [tools/call] request at a server with these options: a tool that is not
    registered is an error of the SDK. *)
Definition tools_call (tools : option (list string)) (c : tool_call) : Calls mcp_act W (error + CallToolResult) :=
  if allows tools (tool_name c) then RecoverMiddleware "tools/call" (handle c) id
  else nret (inl (Ext "unknown tool")).
End Tools.

(* ------------------------------------------------------------------ *)
(** ** Lemmas: the sort of [getTopN] *)

Section Sort.
Implicit Types l : list (string * Z).

(** Everything before position [i] is at least everything after. *)
Definition settled (i : nat) l : Prop :=
  forall a b x y, (a < i)%nat -> (a < b)%nat -> l !! a = Some x -> l !! b = Some y -> (snd y <= snd x)%Z.

Lemma exchange_length i l j : length (exchange i l j) = length l.
Proof. unfold exchange. destruct (l !! i), (l !! j); try done. case_match; [apply length_swap|done]. Qed.
Lemma exchange_perm i l j : exchange i l j ≡ₚ l.
Proof. unfold exchange. destruct (l !! i), (l !! j); try done. case_match; [apply swap_Permutation|done]. Qed.

(** What an exchange leaves at a position was there or at one of the two. *)
Lemma exchange_lookup i l j k x :
  exchange i l j !! k = Some x -> l !! k = Some x \/ (k = i /\ l !! j = Some x) \/ (k = j /\ l !! i = Some x).
Proof.
  unfold exchange. destruct (l !! i) as [a|] eqn:Ei, (l !! j) as [b|] eqn:Ej; auto. case_match; [|auto].
  rewrite lookup_swap by (by eapply lookup_lt_Some). repeat case_decide; subst; naive_solver.
Qed.

(** Position [i] holds the most of the positions up to [j]. *)
Definition leads (i j : nat) l : Prop :=
  forall b x y, (i < b < j)%nat -> l !! i = Some x -> l !! b = Some y -> (snd y <= snd x)%Z.
Lemma exchange_leads i j l : (i < j)%nat -> leads i j l -> leads i (S j) (exchange i l j).
Proof.
  intros Hij Hl b x y Hb. unfold exchange.
  destruct (l !! i) as [a|] eqn:Ei; [|intros; congruence].
  destruct (l !! j) as [c|] eqn:Ej.
  2: { intros Hx Hy. destruct (decide (b = j)) as [->|]; [congruence|]. apply (Hl b); [lia|congruence|done]. }
  pose proof (lookup_lt_Some _ _ _ Ei). pose proof (lookup_lt_Some _ _ _ Ej).
  destruct (Z.ltb_spec (snd a) (snd c)).
  - rewrite !lookup_swap by done. rewrite decide_True by done. rewrite Ei, Ej. intros [= <-].
    repeat case_decide; [lia| |]; intros Hy; [injection Hy as <-; lia|].
    pose proof (Hl b a y ltac:(lia) Ei Hy). lia.
  - rewrite Ei. intros [= <-] Hy. destruct (decide (b = j)) as [->|]; [rewrite Ej in Hy; injection Hy as <-; lia|].
    by apply (Hl b a y); [lia|..].
Qed.

Lemma pass_invariant i n l :
  settled i l -> let l' := fold_left (exchange i) (seq (S i) n) l in
  length l' = length l /\ l' ≡ₚ l /\ settled i l' /\ leads i (S i + n) l'.
Proof.
  intros Hs. induction n as [|n IH]; cbv zeta.
  - cbn. split_and!; [done..|]. intros b x y Hb. lia.
  - cbv zeta in IH. destruct IH as (Hlen & Hp & Hset & Hlead). rewrite seq_S, fold_left_app. cbn [fold_left].
    set (m := fold_left (exchange i) (seq (S i) n) l) in *. split_and!.
    + by rewrite exchange_length.
    + by rewrite exchange_perm.
    + intros a b x y Ha Hab Hx Hy. apply exchange_lookup in Hx as [Hx|[[-> _]|[-> _]]]; [|lia..].
      apply exchange_lookup in Hy as [Hy|[[-> Hy]|[-> Hy]]]; (eapply Hset; [| |exact Hx|exact Hy]; lia).
    + rewrite Nat.add_succ_r. apply exchange_leads; [lia|done].
Qed.

Lemma sort_invariant k l :
  (k <= length l)%nat -> let l' := fold_left sort_pass (seq 0 k) l in
  length l' = length l /\ l' ≡ₚ l /\ settled k l'.
Proof.
  induction k as [|k IH]; intros Hk; cbv zeta; [split_and!; [done..|]; intros a b x y Ha; lia|].
  destruct IH as (Hlen & Hp & Hs); [lia|]. rewrite seq_S, fold_left_app. cbn [fold_left Nat.add].
  set (m := fold_left sort_pass (seq 0 k) l) in *. unfold sort_pass.
  destruct (pass_invariant k (length m - S k) m Hs) as (Hlen' & Hp' & Hs' & Hl'). split_and!; [by rewrite Hlen'|by rewrite Hp'|].
  intros a b x y Ha Hab Hx Hy. destruct (decide (a = k)) as [->|]; [|apply (Hs' a b); [lia|done..]].
  apply (Hl' b); [|done..]. apply lookup_lt_Some in Hy. lia.
Qed.

Lemma exchange_sort_spec l :
  exchange_sort l ≡ₚ l /\ forall a b x y, (a < b)%nat -> exchange_sort l !! a = Some x -> exchange_sort l !! b = Some y -> (snd y <= snd x)%Z.
Proof.
  unfold exchange_sort. destruct (sort_invariant (length l - 1) l) as (Hlen & Hp & Hs); [lia|]. split; [done|].
  intros a b x y Hab Hx Hy. apply (Hs a b); [|done..]. apply lookup_lt_Some in Hy. lia.
Qed.
End Sort.

(* ------------------------------------------------------------------ *)
(** ** Lemmas: quoted values read back *)

(** The value and the rest after a double-quoted CEL literal whose opening
    quote has been read.  [\u] and [\U] are not read here. *)
Definition hex_val (a : ascii) : option Z :=
  let n := byte_val a in
  if ((48 <=? n) && (n <=? 57))%Z%bool then Some (n - 48)%Z
  else if ((97 <=? n) && (n <=? 102))%Z%bool then Some (n - 87)%Z else None.
Definition simple_escape (a : ascii) : option ascii :=
  if (Ascii.eqb a dquote_byte || Ascii.eqb a "\")%bool then Some a
  else if Ascii.eqb a "a" then Some (ascii_of_nat 7) else if Ascii.eqb a "b" then Some (ascii_of_nat 8)
  else if Ascii.eqb a "t" then Some (ascii_of_nat 9) else if Ascii.eqb a "n" then Some (ascii_of_nat 10)
  else if Ascii.eqb a "v" then Some (ascii_of_nat 11) else if Ascii.eqb a "f" then Some (ascii_of_nat 12)
  else if Ascii.eqb a "r" then Some (ascii_of_nat 13) else None.
Definition consed (c : ascii) (r : option (string * string)) : option (string * string) :=
  option_map (fun '(v, r) => (String c v, r)) r.
Fixpoint read_dq (s : string) : option (string * string) :=
  match s with
  | EmptyString => None
  | String c rest =>
      if Ascii.eqb c dquote_byte then Some ("", rest)
      else if Ascii.eqb c "\" then
        match rest with
        | String d rest' =>
            if Ascii.eqb d "x" then
              match rest' with
              | String h1 (String h2 rest'') =>
                  match hex_val h1, hex_val h2 with
                  | Some x, Some y => if (x <? 8)%Z then consed (ascii_of_nat (Z.to_nat (x * 16 + y))) (read_dq rest'') else None
                  | _, _ => None
                  end
              | _ => None
              end
            else match simple_escape d with Some e => consed e (read_dq rest') | None => None end
        | EmptyString => None
        end
      else consed c (read_dq rest)
  end.

Lemma read_quote_ascii (a : ascii) (r : string) :
  (byte_val a <? 128)%Z = true -> read_dq (quote_ascii a +:+ r) = consed a (read_dq r).
Proof. destruct a as [[] [] [] [] [] [] [] []]; try (intros [=]; fail); intros _; reflexivity. Qed.

(** A text of valid encodings, printable past ASCII. *)
Fixpoint quotable_go `{GoUnicode} (skip : nat) (s : string) : bool :=
  match s with
  | EmptyString => true
  | String a s' =>
      match skip with
      | S k => quotable_go k s'
      | O => if (byte_val a <? 128)%Z then quotable_go 0 s'
             else (1 <? rune_width s)%nat && IsPrint (rune_value (rune_width s) s) && quotable_go (rune_width s - 1) s'
      end
  end%bool.
Definition quotable `{GoUnicode} (s : string) : bool := quotable_go 0 s.

(** The first [k] bytes continue a rune. *)
Fixpoint continued (k : nat) (s : string) : bool :=
  match k, s with
  | O, _ => true
  | S k', String a s' => (128 <=? byte_val a)%Z && continued k' s'
  | S _, EmptyString => false
  end%bool.
Lemma cont_byte_high lo hi a s : (128 <= lo)%nat -> cont_byte lo hi (String a s) = true -> (128 <=? byte_val a)%Z = true.
Proof. cbn. intros Hlo [Hl _]%andb_prop. apply Nat.leb_le in Hl. apply Z.leb_le. unfold byte_val. lia. Qed.
Lemma rune_continued (a : ascii) (s : string) : continued (rune_width (String a s) - 1) s = true.
Proof.
  unfold rune_width. destruct s as [|b [|c [|d s]]]; cbn [tail_str];
  repeat match goal with
  | |- context [if ?c then _ else _] => destruct c eqn:?
  | H : (_ && _)%bool = true |- _ => apply andb_prop in H as [? ?]
  end; try reflexivity; try discriminate;
  repeat match goal with H : cont_byte _ _ (String _ _) = true |- _ => apply cont_byte_high in H; [|lia] end;
  cbn -[Z.leb]; repeat match goal with H : (128 <=? _)%Z = true |- _ => rewrite H; clear H end; reflexivity.
Qed.

Lemma read_quoted `{GoUnicode} (s : string) : forall k r,
  continued k s = true -> quotable_go k s = true ->
  read_dq (take_str k s +:+ quote_go k s +:+ String dquote_byte r) = Some (s, r).
Proof.
  induction s as [|a s IH]; intros k r Hk Hq; [by destruct k|]. destruct k as [|k].
  - cbn [quotable_go] in Hq. cbn [take_str quote_go String.append]. destruct (byte_val a <? 128)%Z eqn:Ea.
    + rewrite append_assoc, read_quote_ascii by done. specialize (IH 0%nat r eq_refl Hq).
      change (take_str 0 s +:+ ?x) with x in IH. by rewrite IH.
    + apply andb_prop in Hq as [[Hw Hp]%andb_prop Hq]. pose proof (rune_continued a s) as Hc.
      destruct (rune_width (String a s)) as [|w] eqn:Ew; [done|]. cbn [Nat.sub] in *. rewrite Nat.sub_0_r in *.
      assert ((S w =? 1)%nat = false) as -> by (apply Nat.ltb_lt in Hw; apply Nat.eqb_neq; lia).
      rewrite Hp. cbn [take_str]. rewrite append_assoc. cbn [String.append read_dq].
      assert (Ascii.eqb a dquote_byte = false /\ Ascii.eqb a "\" = false) as [-> ->].
      { split; apply Ascii.eqb_neq; intros ->; by vm_compute in Ea. }
      by rewrite (IH w r Hc Hq).
  - cbn [continued] in Hk. apply andb_prop in Hk as [Ha Hk]. cbn [quotable_go] in Hq. cbn [take_str quote_go String.append read_dq].
    assert (Ascii.eqb a dquote_byte = false /\ Ascii.eqb a "\" = false) as [-> ->].
    { split; apply Ascii.eqb_neq; intros ->; by vm_compute in Ha. }
    by rewrite (IH k r Hk Hq).
Qed.

Definition read_dq_equality (s : string) : option ((string * string) * string) :=
  let (k, r) := span_path s in
  let q := " == " +:+ String dquote_byte "" in
  if HasPrefix r q then option_map (fun '(v, r') => ((k, v), r')) (read_dq (drop_str 5 r)) else None.
Definition read_dq_conjunction (n : nat) (s : string) : option (list (string * string)) := read_joined read_dq_equality n s.

Lemma read_celEquals `{GoUnicode} (k v r : string) :
  all_bytes path_byte k = true -> v <> "" -> quotable v = true -> read_dq_equality (celEquals k v +:+ r) = Some ((k, v), r).
Proof.
  intros Hk Hv Hq. unfold celEquals. apply String.eqb_neq in Hv. rewrite Hv. unfold Quote, read_dq_equality.
  pose proof (read_quoted v 0 r eq_refl Hq) as Hr. cbn [take_str String.append] in Hr. revert Hr.
  assert ((k +:+ " == " +:+ String dquote_byte (quote_go 0 v +:+ String dquote_byte "")) +:+ r
          = k +:+ String " " ("== " +:+ String dquote_byte (quote_go 0 v +:+ String dquote_byte r))) as ->.
  { rewrite append_assoc. f_equal. cbn [String.append]. by rewrite append_assoc. }
  generalize (quote_go 0 v +:+ String dquote_byte r) as x. intros x Hx.
  rewrite (span_path_space _ _ Hk).
  change (drop_str 5 (String " " ("== " +:+ String dquote_byte x))) with (drop_str 0 x). cbn -[read_dq]. by destruct x; rewrite Hx.
Qed.

(** A filter made of equalities: read back it is the conjunction of those with
    a value. *)
Definition dq_reads (conds : list (string * string)) (text : string) : Prop :=
  match when_set conds with
  | [] => text = ""
  | l => read_dq_conjunction (length l) text = Some l
  end.
Definition fields_and_values `{GoUnicode} (conds : list (string * string)) : Prop :=
  Forall (fun kv => all_bytes path_byte kv.1 = true /\ quotable kv.2 = true) conds.

Lemma when_set_ok `{GoUnicode} conds : fields_and_values conds ->
  Forall (fun kv => forall r, read_dq_equality (celEquals kv.1 kv.2 +:+ r) = Some (kv, r)) (when_set conds).
Proof.
  intros Hc. apply Forall_forall. intros [k v] Hin%list_elem_of_In. apply List.filter_In in Hin as [Hin Hv].
  apply list_elem_of_In in Hin. unfold fields_and_values in Hc. rewrite Forall_forall in Hc. destruct (Hc _ Hin) as [Hk Hq].
  intros r. apply read_celEquals; [done| |done]. by apply String.eqb_neq, negb_true_iff.
Qed.
Lemma activityFilter_clauses `{GoUnicode} conds :
  activityFilter (map (fun kv => celEquals kv.1 kv.2) conds) = String.concat " && " (map (fun kv => celEquals kv.1 kv.2) (when_set conds)).
Proof.
  unfold activityFilter. f_equal. induction conds as [|[k v] conds IH]; [done|]. cbn [map List.filter fst snd when_set].
  unfold celEquals at 1 3. destruct (String.eqb_spec v "") as [->|Hne]; cbn [negb]; [exact IH|].
  assert ((k +:+ " == " +:+ Quote v =? "")%string = false) as Ek.
  { apply String.eqb_neq. intros E. apply (f_equal String.length) in E. rewrite !length_append in E. cbn in E. lia. }
  rewrite Ek. cbn [negb]. unfold when_set in IH. fold (when_set conds) in IH. cbn [map]. unfold celEquals at 2. cbn [fst snd].
  apply String.eqb_neq in Hne. rewrite Hne. f_equal; [|exact IH]. by unfold celEquals; rewrite ?Hne.
Qed.
Lemma activityFilter_reads `{GoUnicode} conds :
  fields_and_values conds -> dq_reads conds (activityFilter (map (fun kv => celEquals kv.1 kv.2) conds)).
Proof.
  intros Hc%when_set_ok. unfold dq_reads. rewrite activityFilter_clauses. destruct (when_set conds) as [|kv l]; [done|].
  by apply (read_joined_concat read_dq_equality (fun kv => celEquals kv.1 kv.2)).
Qed.

(** ** Lemmas: counts *)

Definition occurrences (k : string) (keys : list string) : nat := length (List.filter (String.eqb k) keys).

Lemma count_keys_snoc keys k : count_keys (keys ++ [k]) = count_key (count_keys keys) k.
Proof. unfold count_keys. by rewrite fold_left_app. Qed.
Lemma occurrences_snoc k keys k' : occurrences k (keys ++ [k']) = (occurrences k keys + if String.eqb k k' then 1 else 0)%nat.
Proof. unfold occurrences. rewrite List.filter_app, length_app. cbn. by destruct (k =? k')%string. Qed.
Lemma count_keys_spec keys k :
  count_keys keys !! k = if (occurrences k keys =? 0)%nat then None else Some (Z.of_nat (occurrences k keys)).
Proof.
  induction keys as [|k' keys IH] using rev_ind; [done|]. rewrite count_keys_snoc, occurrences_snoc. unfold count_key.
  destruct (String.eqb_spec k k') as [->|Hne].
  - rewrite lookup_insert_eq, IH. destruct (Nat.eqb_spec (occurrences k' keys) 0) as [->|]; [done|].
    destruct (Nat.eqb_spec (occurrences k' keys + 1) 0); [lia|]. cbn. f_equal. lia.
  - by rewrite lookup_insert_ne, IH, Nat.add_0_r by done.
Qed.

Definition sum_counts (entries : list (string * Z)) : Z := foldr (fun kv acc => (snd kv + acc)%Z) 0%Z entries.
#[export] Instance sum_counts_proper : Proper (Permutation ==> eq) sum_counts.
Proof. intros l l' Hp. unfold sum_counts. induction Hp; cbn; [done|congruence|lia|congruence]. Qed.
Lemma sum_count_key (m : gmap string Z) k : sum_counts (map_to_list (count_key m k)) = (sum_counts (map_to_list m) + 1)%Z.
Proof.
  unfold count_key. destruct (m !! k) as [v|] eqn:E; cbn [default from_option id].
  - rewrite <- insert_delete_eq, map_to_list_insert by apply lookup_delete_eq.
    rewrite <- (insert_delete_id m k v E) at 2. rewrite map_to_list_insert by apply lookup_delete_eq. cbn. lia.
  - rewrite map_to_list_insert by done. unfold sum_counts. cbn. lia.
Qed.
Lemma sum_count_keys keys : sum_counts (map_to_list (count_keys keys)) = Z.of_nat (length keys).
Proof.
  induction keys as [|k keys IH] using rev_ind; [done|]. rewrite count_keys_snoc, sum_count_key, IH, length_app. cbn. lia.
Qed.

(** The peak: the most of all buckets, and one that has it. *)
Lemma count_buckets_spec buckets :
  let '(counts, peak, n) := count_buckets buckets in
  counts = count_keys buckets /\ (forall b m, counts !! b = Some m -> (m <= n)%Z) /\ (0 <= n)%Z
  /\ match buckets with [] => n = 0%Z /\ peak = "" | _ => counts !! peak = Some n end.
Proof.
  induction buckets as [|b buckets IH] using rev_ind; [split_and!; done|]. unfold count_buckets in *. rewrite fold_left_app. cbn [fold_left].
  destruct (fold_left count_bucket buckets (∅, "", 0%Z)) as [[counts peak] n]. destruct IH as (-> & Hmax & Hn & Hpeak).
  unfold count_bucket. rewrite <- count_keys_snoc.
  assert (exists v, count_keys (buckets ++ [b]) !! b = Some v /\ (0 < v)%Z) as (v & Ev & Hv).
  { rewrite count_keys_spec, occurrences_snoc, String.eqb_refl. destruct (Nat.eqb_spec (occurrences b buckets + 1) 0); [lia|].
    eexists. split; [done|lia]. }
  rewrite Ev. cbn [default from_option id].
  assert (forall b' m, b' <> b -> count_keys (buckets ++ [b]) !! b' = Some m -> (m <= n)%Z) as Hother.
  { intros b' m Hb'. rewrite count_keys_snoc. unfold count_key. rewrite lookup_insert_ne by done. apply Hmax. }
  assert (forall P Q : Prop, Q -> match buckets ++ [b] with [] => P | _ => Q end) as Hcons by (intros P Q HQ; by destruct buckets).
  destruct (Z.ltb_spec n v); cbn beta iota.
  - split_and!; [done| |lia|by apply Hcons]. intros b' m E. destruct (decide (b' = b)) as [->|Hne]; [rewrite Ev in E; by injection E as <-|].
    specialize (Hother b' m Hne E). lia.
  - split_and!; [done| |done|].
    + intros b' m E. destruct (decide (b' = b)) as [->|Hne]; [rewrite Ev in E; by injection E as <-|]. by eapply Hother.
    + apply Hcons. destruct (decide (peak = b)) as [->|Hne].
      * rewrite Ev. f_equal. destruct buckets as [|x xs]; [destruct Hpeak as [-> _]; lia|].
        rewrite count_keys_snoc in Ev. unfold count_key in Ev. rewrite lookup_insert_eq, Hpeak in Ev. cbn in Ev. injection Ev as <-. lia.
      * rewrite count_keys_snoc. unfold count_key. rewrite lookup_insert_ne by done.
        destruct buckets; [destruct Hpeak as [-> ->]; lia|done].
Qed.

(* ------------------------------------------------------------------ *)
(** ** Theorems *)

Definition activity_query_conds (a : QueryActivitiesArgs) : list (string * string) :=
  [("spec.changeSource", qy_ChangeSource a); ("spec.actor.name", qy_ActorName a); ("spec.resource.kind", qy_ResourceKind a);
   ("spec.resource.apiGroup", qy_APIGroup a)].
Definition resource_history_conds (h : GetResourceHistoryArgs) : list (string * string) :=
  [("spec.resource.uid", rh_ResourceUID h); ("spec.resource.apiGroup", rh_APIGroup h); ("spec.resource.kind", rh_Kind h);
   ("spec.resource.name", rh_Name h); ("spec.resource.namespace", rh_Namespace h)].
Definition quotable_values `{GoUnicode} (conds : list (string * string)) : Prop := Forall (fun kv => quotable kv.2 = true) conds.

Lemma event_terms_parsed (supported : list string) order (e : QueryEventsArgs) :
  order ≡ₚ event_args e -> refused_arg order = None -> Forall (fun kv => TrimSpace kv.2 = kv.2) (event_terms e) ->
  ParseFieldSelector supported (es_FieldSelector (query_events_spec e))
  = Ok (map (fun kv => {| Column := field_column kv.1; Operator := FieldSelectorEqual; Value := kv.2 |}) (event_terms e)).
Proof.
  intros Hp Hr Ht.
  assert (Forall (fun kv => has_byte "," kv.2 = false /\ has_byte "=" kv.2 = false) (event_args e)) as Hargs.
  { rewrite <- Hp. apply Forall_forall. intros [k v] Hin%list_elem_of_In. pose proof (List.find_none _ _ Hr _ Hin) as Hv.
    unfold ContainsAny in Hv. cbn in *. by destruct (has_byte "," v), (has_byte "=" v). }
  unfold event_args in Hargs. rewrite !Forall_cons in Hargs. cbn [snd] in Hargs. destruct Hargs as (Hk & Hn & Hre & Hty & Hs & _).
  assert (Forall (fun kv => kv.1 ∈ selector_fields /\ has_byte "," kv.2 = false /\ has_byte "=" kv.2 = false)
    [("regarding.kind", qe_RegardingKind e); ("regarding.name", qe_RegardingName e); ("reason", qe_Reason e);
     ("type", qe_Type e); ("source.component", qe_SourceComponent e)]) as Hall.
  { rewrite !Forall_cons. cbn [fst snd]. split_and!; first [tauto|by_decide]. }
  pose proof (flags_selector_parsed supported (event_terms e) "" []) as Hparse. cbn [String.eqb] in Hparse.
  rewrite !app_nil_r in Hparse. apply Hparse; [|done]. apply Forall_forall. intros kv Hin. rewrite Forall_forall in Ht, Hall.
  specialize (Ht _ Hin). apply list_elem_of_In, List.filter_In in Hin as [Hin _]. apply list_elem_of_In, Hall in Hin as (? & ? & ?).
  split; [done|]. by apply flag_value_ok.
Qed.

(** C24: No argument of a tool can say more than its value.  The filters made of
    them, read back with the escapes of CEL's double-quoted literals, are the
    conjunctions of exactly the given fields with exactly the given values, for
    any values of valid text that is printable past ASCII, quotes, backslashes
    and control characters included; the field selector of query_events, once its
    values are not refused, is read by the server as exactly its equalities. *)
Theorem tool_arguments_stay_values `{GoUnicode} (supported : list string) (a : QueryActivitiesArgs) (h : GetResourceHistoryArgs)
    (f : FindFailedOperationsArgs) (e : QueryEventsArgs) (order : list (string * string)) :
  (quotable_values (activity_query_conds a) -> dq_reads (activity_query_conds a) (Filter (query_activities_spec a)))
  /\ (quotable_values (resource_history_conds h) -> dq_reads (resource_history_conds h) (Filter (resource_history_spec h)))
  /\ (quotable_values (failed_conds f) -> exists text,
        aq_Filter (failed_operations_spec f)
        = "responseStatus.code >= " +:+ pretty (or_code (ff_StatusCodeMin f) 400) +:+ " && responseStatus.code <= "
            +:+ pretty (or_code (ff_StatusCodeMax f) 599) +:+ match when_set (failed_conds f) with [] => "" | _ => " && " +:+ text end
        /\ dq_reads (failed_conds f) text)
  /\ (order ≡ₚ event_args e -> refused_arg order = None -> Forall (fun kv => TrimSpace kv.2 = kv.2) (event_terms e) ->
      ParseFieldSelector supported (es_FieldSelector (query_events_spec e))
      = Ok (map (fun kv => {| Column := field_column kv.1; Operator := FieldSelectorEqual; Value := kv.2 |}) (event_terms e))).
Proof.
  assert (forall conds, quotable_values conds -> Forall (fun kv => all_bytes path_byte kv.1 = true) conds -> fields_and_values conds) as Hfv.
  { intros conds Hq Hp. apply Forall_and. by split. }
  split; [|split; [|split]].
  - intros Hq. apply (activityFilter_reads (activity_query_conds a)), Hfv; [done|repeat constructor].
  - intros Hq. apply (activityFilter_reads (resource_history_conds h)), Hfv; [done|repeat constructor].
  - intros Hq. exists (activityFilter (map (fun kv => celEquals kv.1 kv.2) (failed_conds f))). split.
    + cbn [failed_operations_spec aq_Filter]. unfold failed_filter. rewrite activityFilter_clauses. cbn [app]. rewrite !join_cons, !append_assoc.
      rewrite (map_ext (fun '(k, v) => celEquals k v) (fun kv => celEquals kv.1 kv.2)) by (by intros []).
      by destruct (when_set (failed_conds f)).
    + apply activityFilter_reads, Hfv; [done|repeat constructor].
  - intros Hp Hr Ht. apply (event_terms_parsed supported order e Hp Hr Ht).
Qed.

(** The top list of a summary: whatever the order Go ranges over the counts
    in, its items are distinct, each with the number of activities that have it,
    in falling order; there are [n] of them, or all; and what is left out has at
    most as many activities as any item. *)
Theorem top_items `{RangeLaws} (site : nat) (keys : list string) (n : Z) (top : list (string * Z)) :
  getTopN (range_counts site (count_keys keys)) n = inr top ->
  NoDup top.*1
  /\ (forall k c, (k, c) ∈ top -> c = Z.of_nat (occurrences k keys) /\ (0 < c)%Z)
  /\ length top = Nat.min (Z.to_nat n) (size (count_keys keys))
  /\ (forall i j x y, (i < j)%nat -> top !! i = Some x -> top !! j = Some y -> (snd y <= snd x)%Z)
  /\ (forall k, k ∈ keys -> k ∉ top.*1 -> forall x, x ∈ top -> (Z.of_nat (occurrences k keys) <= snd x)%Z).
Proof.
  unfold getTopN. destruct (make_cap_ok n); [|done]. intros [= <-].
  destruct (exchange_sort_spec (range_counts site (count_keys keys))) as [Hp0 Hs].
  pose proof (Permutation_trans Hp0 (range_perm site (count_keys keys))) as Hp. clear Hp0. set (sorted := exchange_sort _) in *.
  assert (forall k c, (k, c) ∈ sorted <-> count_keys keys !! k = Some c) as Hin.
  { intros k c. rewrite Hp. apply elem_of_map_to_list. }
  assert (forall k c, count_keys keys !! k = Some c -> c = Z.of_nat (occurrences k keys) /\ (0 < c)%Z) as Hc.
  { intros k c. rewrite count_keys_spec. destruct (Nat.eqb_spec (occurrences k keys) 0); [done|]. intros [= <-]. split; [done|lia]. }
  split_and!.
  - assert (NoDup sorted.*1) as Hnd by (rewrite Hp; apply NoDup_fst_map_to_list).
    rewrite <- (take_drop (Z.to_nat n) sorted), fmap_app in Hnd. by apply NoDup_app in Hnd as [? _].
  - intros k c Hk. apply Hc, Hin. rewrite <- (take_drop (Z.to_nat n) sorted). apply elem_of_app. by left.
  - rewrite length_take, Hp. by rewrite length_map_to_list.
  - intros i j x y Hij Hx Hy. apply lookup_take_Some in Hx as [Hx _], Hy as [Hy _]. by apply (Hs i j).
  - intros k Hk Hout x Hx.
    assert (exists c, count_keys keys !! k = Some c) as [c Ek].
    { rewrite count_keys_spec. destruct (Nat.eqb_spec (occurrences k keys) 0) as [E|]; [|by eexists].
      apply list_elem_of_In in Hk. unfold occurrences in E. apply length_zero_iff_nil in E.
      pose proof (proj2 (List.filter_In (String.eqb k) k keys) (conj Hk (String.eqb_refl k))) as Hf. by rewrite E in Hf. }
    pose proof (proj2 (Hin k c) Ek) as [j Ej]%list_elem_of_lookup. pose proof (Hc _ _ Ek) as [<- _].
    apply list_elem_of_lookup in Hx as [i Ei]. apply lookup_take_Some in Ei as [Ei Hi].
    destruct (decide (i < j)%nat) as [Hij|Hij]; [by apply (Hs i j x (k, c))|].
    exfalso. apply Hout, list_elem_of_fmap. exists (k, c). split; [done|]. apply list_elem_of_lookup. exists j.
    apply lookup_take_Some. split; [done|lia].
Qed.

(** The buckets of a timeline: whatever the order they are listed in, each
    is listed once with the number of activities in it, the numbers add up to the
    total, and the peak is a bucket no other one exceeds. *)
Theorem timeline_partitions `{RangeLaws} (site : nat) (buckets : list string) (counts : gmap string Z) (peak : string) (n : Z) :
  count_buckets buckets = (counts, peak, n) ->
  let listed := range_counts site counts in
  NoDup listed.*1
  /\ (forall b c, (b, c) ∈ listed <-> b ∈ buckets /\ c = Z.of_nat (occurrences b buckets))
  /\ sum_counts listed = Z.of_nat (length buckets)
  /\ (forall b c, (b, c) ∈ listed -> (c <= n)%Z)
  /\ (buckets <> [] -> (peak, n) ∈ listed).
Proof.
  intros E listed. pose proof (count_buckets_spec buckets) as Hs. rewrite E in Hs. destruct Hs as (-> & Hmax & _ & Hpeak).
  assert (listed ≡ₚ map_to_list (count_keys buckets)) as Hp by apply range_perm.
  assert (forall b c, (b, c) ∈ listed <-> count_keys buckets !! b = Some c) as Hin.
  { intros b c. rewrite Hp. apply elem_of_map_to_list. }
  split_and!.
  - rewrite Hp. apply NoDup_fst_map_to_list.
  - intros b c. rewrite Hin, count_keys_spec. unfold occurrences.
    destruct (Nat.eqb_spec (length (List.filter (String.eqb b) buckets)) 0) as [E0|Hne].
    + split; [done|]. intros [Hb%list_elem_of_In _]. apply length_zero_iff_nil in E0.
      pose proof (proj2 (List.filter_In (String.eqb b) b buckets) (conj Hb (String.eqb_refl b))) as Hf. by rewrite E0 in Hf.
    + split; [|by intros [_ ->]]. intros [= <-]. split; [|done].
      destruct (List.filter (String.eqb b) buckets) as [|x l] eqn:Ef; [done|].
      assert (In x (List.filter (String.eqb b) buckets)) as Hx by (rewrite Ef; by left).
      apply List.filter_In in Hx as [Hx Hb%String.eqb_eq]. subst x. by apply list_elem_of_In.
  - rewrite Hp. apply sum_count_keys.
  - intros b c Hb%Hin. by eapply Hmax.
  - intros Hne. apply Hin. by destruct buckets.
Qed.

(* ------------------------------------------------------------------ *)
(** ** Runs *)

Module ToyTools.
#[export] Instance lib : McpLib := {|
  audit_event_any e := AStr (ce_Username e); rules_any _ := ANull;
  unmarshal_preview_input s := inl (Ext "unexpected end of JSON input"); range_counts _ m := map_to_list m |}.
#[export] Instance laws : RangeLaws.
Proof. intros n m. done. Qed.
Definition activity_ (actor kind name : string) (t : time) : Activity := {|
  APIVersion_ := ""; Kind_ := ""; Name := ""; Namespace := ""; CreationTimestamp := t; Labels := ∅;
  Spec := {| Summary := actor +:+ " changed " +:+ name; ChangeSource := "human";
             Actor := {| act_Type := "user"; act_Name := actor; act_UID := ""; act_Email := "" |};
             Resource_ := {| APIGroup := ""; APIVersion := "v1"; Kind := kind; res_Name := name; res_Namespace := "default";
                             res_UID := "" |};
             Links := []; Related := []; Tenant := {| ten_Type := "platform"; ten_Name := "" |};
             Origin := {| org_Type := "audit"; org_ID := "" |}; Source := None |} |}.
Definition answer_ {Spec Item} (s : Spec) (items : list Item) : QueryObject Spec Item :=
  {| q_Name := ""; q_Spec := s; q_Results := items; q_Continue := ""; q_EffectiveStartTime := ""; q_EffectiveEndTime := "" |}.
(** A server that answers every activity query with the same activities. *)
Definition client (acts : list Activity) : McpClient unit := {|
  resolve := Some (fun w => (inr true, w));
  audit_log_queries s w := (inr (answer_ s []), w); audit_log_facets s w := (inr [], w);
  activity_queries s w := (inr (answer_ s acts), w); activity_facets s w := (inr [], w);
  event_queries s w := (inr (answer_ s []), w); event_facets s w := (inr [], w);
  list_policies w := (inr [], w); policy_previews s w := (inl (Ext "down"), w) |}.
(** An actor's name with quotes, a backslash and a line break, that would say
    more if it could. *)
Definition injecting : QueryActivitiesArgs := {|
  qy_StartTime := ""; qy_EndTime := ""; qy_ChangeSource := "";
  qy_ActorName := "x" +:+ String dquote_byte (" || true || " +:+ String dquote_byte "\" +:+ String (ascii_of_nat 10) "é");
  qy_ResourceKind := ""; qy_APIGroup := ""; qy_Search := ""; qy_Limit := 0 |}.
Definition summarize (n : Z) : tool_call :=
  CallSummarizeRecentActivity {| sr_StartTime := "now-1d"; sr_EndTime := ""; sr_ChangeSource := ""; sr_TopN := n |}.
Definition call_ (acts : list Activity) (c : tool_call) :=
  @tools_call unit (client acts) lib latin {| local_offset _ := 3600%Z |} None c tt.
End ToyTools.

Lemma tool_arguments_stay_values_witness :
  dq_reads (activity_query_conds ToyTools.injecting) (Filter (@query_activities_spec latin ToyTools.injecting))
  /\ ParseFieldSelector event_columns "reason=BackOff" = Ok [{| Column := field_column "reason"; Operator := FieldSelectorEqual; Value := "BackOff" |}].
Proof.
  set (e := {| qe_StartTime := ""; qe_EndTime := ""; qe_Namespace := ""; qe_RegardingKind := ""; qe_RegardingName := ""; qe_Reason := "BackOff";
               qe_Type := ""; qe_SourceComponent := ""; qe_Limit := 0 |}).
  pose proof (@tool_arguments_stay_values latin event_columns ToyTools.injecting
    {| rh_ResourceUID := ""; rh_APIGroup := ""; rh_Kind := ""; rh_Name := ""; rh_Namespace := ""; rh_StartTime := ""; rh_EndTime := ""; rh_Limit := 0 |}
    {| ff_StartTime := ""; ff_EndTime := ""; ff_StatusCodeMin := 0; ff_StatusCodeMax := 0; ff_Username := ""; ff_Resource := ""; ff_Verb := "";
       ffo_Limit := 0 |} e (reverse (event_args e))) as (A & _ & _ & D).
  split.
  - apply A. unfold quotable_values. by_decide.
  - apply D; [apply reverse_Permutation|reflexivity|by_decide].
Defined.

Lemma top_items_witness :
  exists top, getTopN (@range_counts ToyTools.lib 0 (count_keys ["jane"; "bob"; "jane"; "eve"])) 2 = inr top
  /\ NoDup top.*1 /\ length top = 2%nat /\ top !! 0%nat = Some ("jane", 2%Z).
Proof.
  eexists. split; [vm_compute; reflexivity|].
  destruct (@top_items ToyTools.lib ToyTools.laws 0 ["jane"; "bob"; "jane"; "eve"] 2 _ eq_refl) as (Hnd & _ & Hlen & _).
  split; [exact Hnd|]. split; [exact Hlen|]. vm_compute. reflexivity.
Defined.

Lemma timeline_partitions_witness :
  exists counts peak n, count_buckets ["b1"; "b2"; "b2"] = (counts, peak, n)
  /\ (peak, n) ∈ @range_counts ToyTools.lib 0 counts /\ peak = "b2" /\ n = 2%Z
  /\ sum_counts (@range_counts ToyTools.lib 0 counts) = 3%Z.
Proof.
  eexists _, _, _. split; [vm_compute; reflexivity|].
  destruct (@timeline_partitions ToyTools.lib ToyTools.laws 0 ["b1"; "b2"; "b2"] _ _ _ eq_refl) as (_ & _ & Hsum & _ & Hpeak).
  split_and!; [by apply Hpeak|done|done|exact Hsum].
Defined.

(** A negative number of top items is a panic of the tool, which the middleware
    reports as an internal error. *)
Example negative_top_panics :
  fst (fst (ToyTools.call_ [] (ToyTools.summarize (-1)))) = inr (inr recovered)
  /\ fst (fst (ToyTools.call_ [] (ToyTools.summarize 3))) <> inr (inr recovered).
Proof. split; [vm_compute; reflexivity|]. vm_compute. discriminate. Qed.

(** A limit is cut to 32 bits: 2^32 + 1 asks for one result. *)
Example tool_limit_wraps : tool_limit 4294967297 100 = 1%Z /\ tool_limit 4294967296 100 = 100%Z.
Proof. split; reflexivity. Qed.

(** The guard against a server that ignores the filter drops the entries of
    other resources, and the resource named at the top is one of those. *)
Lemma history_names_another_resource :
  let args := {| rh_ResourceUID := ""; rh_APIGroup := ""; rh_Kind := "Pod"; rh_Name := "web"; rh_Namespace := "default"; rh_StartTime := "";
                 rh_EndTime := ""; rh_Limit := 0 |} in
  let results := [ToyTools.activity_ "jane" "Secret" "db" 0%Z; ToyTools.activity_ "jane" "Pod" "web" 0%Z] in
  history_resource args results = ("db", "Secret", "", "default")
  /\ map (fun a => res_Name (Resource_ (Spec a))) (history_entries args results) = ["web"].
Proof. split; reflexivity. Qed.

(** Nothing in the baseline: however much there is in the comparison, the
    analysis says no more. *)
Lemma new_activity_is_zero_percent (acts : list Activity) :
  comparison_text (change_percent (buildActivityCounts []) (buildActivityCounts acts)) 0 = "Comparison period shows 0% more activity.".
Proof. reflexivity. Qed.

(** The buckets are labelled in local time and marked as UTC: at 09:30 UTC, an
    hour east, the hourly bucket is 10:00. *)
Example bucket_labels_local :
  let t := (of_unix_nano 0 + 9 * Hour + 30 * Minute)%Z in
  Format_RFC3339 t = "1970-01-01T09:30:00Z" /\ @bucket_of {| local_offset _ := 3600%Z |} "hour" t = "1970-01-01T10:00:00Z".
Proof. split; vm_compute; reflexivity. Qed.

(** Two policies for one kind are said to cover two resource types. *)
Lemma policies_counted_as_types `{McpLib} (args : ListActivityPoliciesArgs) (p : PolicyObject) :
  listed args p = true ->
  exists fields, policies_output args [p; p] = obj (fields ++ [("summary", AStr "2 policies covering 2 resource types")]).
Proof. intros Hp. unfold policies_output. cbn [List.filter]. rewrite Hp. by eexists [_]. Qed.
