(* ===== verification/McpServer.v ===== *)
(** * pkg/mcp/httpserver: the MCP tools over HTTP

    The configuration one request reads through, made of the server's base
    configuration and of the caller's token and project ([client.go]); the tools
    exposed, the routes and the documents ([server.go], [docs.go]); the tool
    provider of the stdio mode and the [mcp] command ([tools.go],
    [cmd/activity/mcp.go]). *)

From Stdlib Require Import Ascii String.
From stdpp Require Import base numbers list strings gmap pretty.
From Stdlib Require Import ZArith Lia.
From S2P Require Import Prelude GoLib Calls GoFmt GoJson Types TimeUtil CelPolicy Activity Dlq EventProc GoSlice PolicyCache CelFilter Query EventStore Watch Reindex ReindexJob PolicyController Rest EventsRest Strategy Preview Cli CliQuery CliJobs McpTools.

(* ------------------------------------------------------------------ *)
(** ** Configurations and addresses *)

(** [rest.Config]: the credentials, the address and the rest that is used. *)
Record Credentials := {
  cr_BearerToken : string; cr_BearerTokenFile : string; cr_Username : string; cr_Password : string;
  cr_ClientCert : string; cr_Impersonate : string; cr_ExecProvider : bool; cr_AuthProvider : bool; cr_Transport : bool }.
Definition no_credentials : Credentials := {|
  cr_BearerToken := ""; cr_BearerTokenFile := ""; cr_Username := ""; cr_Password := ""; cr_ClientCert := "";
  cr_Impersonate := ""; cr_ExecProvider := false; cr_AuthProvider := false; cr_Transport := false |}.
Record RestConfig := { rc_Host : string; rc_Creds : Credentials; rc_CA : string; rc_Timeout : Z; rc_RateLimiter : bool }.

(** [url.URL] *)
Record URL := {
  u_Scheme : string; u_Opaque : string; u_User : option string; u_Host : string; u_Path : string; u_RawPath : string;
  u_RawQuery : string; u_ForceQuery : bool; u_Fragment : string; u_RawFragment : string }.

(** [net/url], and [rest.AnonymousClientConfig] of client-go. *)
Class HttpLib := {
  url_Parse : string -> error + URL;
  url_String : URL -> string;
  AnonymousClientConfig : RestConfig -> RestConfig }.

Definition path_char (a : ascii) : bool :=
  let n := nat_of_ascii a in
  ((97 <=? n) && (n <=? 122) || (48 <=? n) && (n <=? 57) || Ascii.eqb a "-" || Ascii.eqb a "." || Ascii.eqb a "/")%nat%bool.
(** What their documentation says: an anonymous configuration has no
    credentials and keeps the rest; a URL with nothing but a scheme, a host and a
    path of letters, digits, dots, dashes and slashes is written as these. *)
Class HttpLaws `{HttpLib} : Prop := {
  anonymous_creds c : rc_Creds (AnonymousClientConfig c) = no_credentials;
  anonymous_rest c : rc_Host (AnonymousClientConfig c) = rc_Host c /\ rc_CA (AnonymousClientConfig c) = rc_CA c
                     /\ rc_Timeout (AnonymousClientConfig c) = rc_Timeout c;
  url_String_plain u :
    u_Opaque u = "" -> u_User u = None -> u_RawPath u = "" -> u_RawQuery u = "" -> u_ForceQuery u = false -> u_Fragment u = "" ->
    u_RawFragment u = "" -> u_Scheme u <> "" -> u_Host u <> "" -> HasPrefix (u_Path u) "/" = true -> all_bytes path_char (u_Path u) = true ->
    url_String u = u_Scheme u +:+ "://" +:+ u_Host u +:+ u_Path u }.

Definition TrimSuffix_slash (s : string) : string :=
  match rev_string s "" with String a r => if Ascii.eqb a "/" then rev_string r "" else s | EmptyString => s end.

Section Config.
Context `{HttpLib} `{NameLib} `{GoUnicode}.

Definition parseHost (host : string) : error + URL :=
  match url_Parse (if Contains host "://" then host else "https://" +:+ host) with
  | inl e => inl (Errorf [PStr "parsing control plane host "; PStr (Quote (if Contains host "://" then host else "https://" +:+ host)); PStr ": "; PWrap e])
  | inr u => inr u
  end.

(** [KUBERNETES_SERVICE_HOST] and [KUBERNETES_SERVICE_PORT]; an address with a
    colon is put in brackets. *)
Definition localClusterEndpoint (host port : string) : string :=
  if ((host =? "") || (port =? ""))%string%bool then ""
  else "https://" +:+ (if has_byte ":" host then "[" +:+ host +:+ "]:" +:+ port else host +:+ ":" +:+ port).
Definition sameEndpoint (a b : string) : bool := (TrimSuffix_slash a =? TrimSuffix_slash b)%string.

Definition CheckBaseConfig (cfg : option RestConfig) (service_host service_port : string) : option error :=
  let text s := Some (Errorf [PStr s]) in
  let host := match cfg with Some c => rc_Host c | None => "" end in
  if (host =? "")%string then text "control plane endpoint is empty: the kubeconfig must name the Milo API server"
  else match parseHost host with
  | inl e => Some e
  | inr u =>
      match u_User u with
      | Some _ => text "control plane endpoint carries credentials in its URL: the kubeconfig must name the bare Milo API server address; HTTP mode reads only with each caller's own token"
      | None =>
          if (negb (u_RawQuery u =? "") || u_ForceQuery u || negb (u_Fragment u =? ""))%string%bool
          then text ("control plane endpoint " +:+ host +:+ " has a query or fragment: the kubeconfig must name the bare Milo API server address")
          else if negb (TrimSuffix_slash (u_Path u) =? "")%string
          then text ("control plane endpoint " +:+ host +:+ " already has a path (" +:+ Quote (u_Path u)
                     +:+ "): HTTP mode appends each caller's project control-plane path itself, so the kubeconfig must name the bare Milo API server address")
          else let local := localClusterEndpoint service_host service_port in
          if (negb (local =? "")%string && sameEndpoint host local)%bool
          then text ("control plane endpoint " +:+ host +:+ " is this cluster's own API server: the activity MCP server reads Datum project control planes through Milo, not the cluster it runs in, so the in-cluster fallback is never correct. Mount a kubeconfig naming the Milo API server address and CA, and point KUBECONFIG (or --kubeconfig) at it")
          else None
      end
  end.

Definition ProjectHeader : string := "X-Datum-Project".
Definition misconfiguredClientNote : string :=
  "The person who asked did nothing wrong and re-authenticating will not help: this is a configuration problem for whoever operates that client".
Definition defaultRequestTimeout : Z := (60 * Second)%Z.
Definition ProjectControlPlanePath (project : string) : string :=
  "/apis/resourcemanager.miloapis.com/v1alpha1/projects/" +:+ project +:+ "/control-plane".

(** Only the scheme and the host of the base address are kept. *)
Definition project_url (u : URL) (project : string) : URL :=
  {| u_Scheme := u_Scheme u; u_Opaque := u_Opaque u; u_User := None; u_Host := u_Host u;
     u_Path := ProjectControlPlanePath project; u_RawPath := ""; u_RawQuery := ""; u_ForceQuery := false; u_Fragment := ""; u_RawFragment := "" |}.
Definition with_token (c : Credentials) (token : string) : Credentials :=
  {| cr_BearerToken := token; cr_BearerTokenFile := ""; cr_Username := cr_Username c; cr_Password := cr_Password c;
     cr_ClientCert := cr_ClientCert c; cr_Impersonate := cr_Impersonate c; cr_ExecProvider := cr_ExecProvider c;
     cr_AuthProvider := cr_AuthProvider c; cr_Transport := cr_Transport c |}.

Definition ClientConfig (base : RestConfig) (token project : string) : error + RestConfig :=
  match IsDNS1123Subdomain project with
  | [] =>
      let cfg := AnonymousClientConfig base in
      match parseHost (rc_Host cfg) with
      | inl e => inl e
      | inr host =>
          inr {| rc_Host := url_String (project_url host project); rc_Creds := with_token (rc_Creds cfg) token;
                 rc_CA := rc_CA cfg; rc_Timeout := if (rc_Timeout cfg =? 0)%Z then defaultRequestTimeout else rc_Timeout cfg;
                 rc_RateLimiter := false |}
      end
  | errs => inl (Errorf [PStr ("invalid project " +:+ Quote project +:+ " on the " +:+ ProjectHeader
                   +:+ " header sent by the client that called this tool: " +:+ String.concat "; " errs +:+ ". " +:+ misconfiguredClientNote)])
  end.

(** The two headers of a request. *)
Record Request := { req_Authorization : string; req_Project : string }.
Definition bearerToken (r : Request) : string :=
  let auth := req_Authorization r in
  if negb (ToLower (take_str 7 auth) =? "bearer ")%string then "" else TrimSpace (drop_str 7 auth).

(** [NewForConfig] of the typed client. *)
Definition clientFor (NewForConfig : RestConfig -> option error) (base : RestConfig) (token project : string) : error + RestConfig :=
  if (token =? "")%string
  then inl (Errorf [PStr ("no credentials on this request: the client that called this tool did not forward the user's identity. " +:+ misconfiguredClientNote)])
  else if (project =? "")%string
  then inl (Errorf [PStr ("no project on this request: the client that called this tool did not set the " +:+ ProjectHeader +:+ " header. " +:+ misconfiguredClientNote)])
  else match ClientConfig base token project with
       | inl e => inl e
       | inr cfg => match NewForConfig cfg with
                    | Some e => inl (wrap_with "building activity client: " e)
                    | None => inr cfg
                    end
       end.
(** [ResolverFromRequest]: the client is made once, and is the same each time. *)
Definition ResolverFromRequest (NewForConfig : RestConfig -> option error) (r : Request) (base : RestConfig) : error + RestConfig :=
  clientFor NewForConfig base (bearerToken r) (TrimSpace (req_Project r)).
End Config.

(* ------------------------------------------------------------------ *)
(** ** The server *)

Definition MCPPath : string := "/mcp".
Definition HealthzPath : string := "/healthz".
Definition maxRequestBytes : Z := Z.shiftl 1 20.
Definition ExposedTools : list string :=
  ["query_activities"; "get_activity_facets"; "get_resource_history"; "summarize_recent_activity"; "get_activity_timeline";
   "compare_activity_periods"; "find_failed_operations"; "get_user_activity_summary"; "query_events"; "get_event_facets"].

Section Server.
Context {W : Type} `{HttpLib} `{NameLib} `{McpLib} `{GoUnicode} `{GoLocal}.
(** The API as the typed client of a configuration reaches it. *)
Context (NewForConfig : RestConfig -> option error) (api : RestConfig -> McpClient W).

Definition with_resolver (f : W -> (error + bool) * W) (k : McpClient W) : McpClient W := {|
  resolve := Some f;
  audit_log_queries := @audit_log_queries W k; audit_log_facets := @audit_log_facets W k;
  activity_queries := @activity_queries W k; activity_facets := @activity_facets W k;
  event_queries := @event_queries W k; event_facets := @event_facets W k;
  list_policies := @list_policies W k; policy_previews := @policy_previews W k |}.

(** The provider of a request: its client reads with the request's own
    configuration, or fails. *)
Definition provider (base : RestConfig) (r : Request) : McpClient W :=
  match ResolverFromRequest NewForConfig r base with
  | inl e => with_resolver (fun w => (inl e, w)) (api base)
  | inr cfg => with_resolver (fun w => (inr true, w)) (api cfg)
  end.

(** A tool call in a POST to the MCP endpoint: a fresh server with the exposed
    tools and the middleware. *)
Definition http_tools_call (base : RestConfig) (r : Request) (c : tool_call) : Calls mcp_act W (error + CallToolResult) :=
  @tools_call W (provider base r) _ _ _ (Some ExposedTools) c.
End Server.

(* ------------------------------------------------------------------ *)
(** ** The documents *)

Definition knowledgePath : string := "/llms-full.txt".
Definition runbookPrefix : string := "/runbooks/".
Record document := { d_body : string; d_contentType : string }.

(** An entry of the skills directory: its name, whether it is a directory, and
    its contents. *)
Definition entry : Type := string * bool * (error + string).
Definition HasSuffix (s suffix : string) : bool := HasPrefix (rev_string s "") (rev_string suffix "").
Fixpoint add_skills (docs : gmap string document) (entries : list entry) : error + gmap string document :=
  match entries with
  | [] => inr docs
  | (name, is_dir, body) :: rest =>
      if (is_dir || negb (HasSuffix name ".md"))%bool then add_skills docs rest
      else match body with
           | inl e => inl (wrap_with ("reading embedded skill " +:+ name +:+ ": ") e)
           | inr text => add_skills (<[runbookPrefix +:+ name := {| d_body := text; d_contentType := "text/markdown; charset=utf-8" |}]> docs) rest
           end
  end.
Definition newKnowledgeHandler (knowledge : error + string) (skills : error + list entry) : error + gmap string document :=
  match knowledge with
  | inl e => inl (wrap_with "reading embedded knowledge: " e)
  | inr text =>
      match skills with
      | inl e => inl (wrap_with "reading embedded skills: " e)
      | inr entries =>
          match add_skills {[knowledgePath := {| d_body := text; d_contentType := "text/plain; charset=utf-8" |}]} entries with
          | inl e => inl e
          | inr docs => if (size docs <? 2)%nat then inl (Errorf [PStr "no skills embedded from skills"]) else inr docs
          end
      end
  end.

Inductive doc_response := MethodNotAllowed | NotFound | ServeContent (d : document).
Definition serve_document (docs : gmap string document) (method path : string) : doc_response :=
  if (negb (method =? "GET") && negb (method =? "HEAD"))%string%bool then MethodNotAllowed
  else match docs !! path with Some d => ServeContent d | None => NotFound end.

(** [NewHandler]: the routes, or why there are none. *)
Inductive route := RouteMCP | RouteDocs | RouteHealthz.
Definition NewHandler `{HttpLib} `{GoUnicode} (base : option RestConfig) (service_host service_port : string)
    (knowledge : error + string) (skills : error + list entry) : error + (gmap string document * list (string * route)) :=
  match CheckBaseConfig base service_host service_port with
  | Some e => inl e
  | None => match newKnowledgeHandler knowledge skills with
            | inl e => inl e
            | inr docs => inr (docs, [(MCPPath, RouteMCP); (knowledgePath, RouteDocs); (runbookPrefix, RouteDocs); (HealthzPath, RouteHealthz)])
            end
  end.

(** [serve]: the server stops by itself, or the context is done and the server
    is shut down. *)
Inductive serve_end := Stopped (e : option error) (closed : bool) | Done (shutdown : option error).
Definition serve_result (addr : string) (ended : serve_end) : option error :=
  match ended with
  | Stopped (Some e) false => Some (wrap_with ("serving on " +:+ addr +:+ ": ") e)
  | Stopped _ _ => None
  | Done (Some e) => Some (wrap_with "shutting down: " e)
  | Done None => None
  end.

(** [Serve]: listening on an address, and the address it got. *)
Definition Serve (addr : string) (listening : error + string) (ended : serve_end) : option error :=
  match listening with
  | inl e => Some (wrap_with ("listening on " +:+ addr +:+ ": ") e)
  | inr got => serve_result got ended
  end.

(** [LoadBaseConfig]: reading kubeconfig files, and the configuration of a
    context of them. *)
Definition LoadBaseConfig {Raw} (load : string -> error + Raw) (client_config : Raw -> string -> error + RestConfig)
    (kubeconfig kubeContext : string) : error + RestConfig :=
  match load kubeconfig with
  | inl e => inl (wrap_with "loading kubeconfig: " e)
  | inr raw =>
      match client_config raw kubeContext with
      | inl e => inl (wrap_with "building configuration from kubeconfig (HTTP mode requires a kubeconfig naming the Milo API endpoint and CA; pass --kubeconfig or set KUBECONFIG): " e)
      | inr cfg => inr cfg
      end
  end.

(* ------------------------------------------------------------------ *)
(** ** The stdio mode and the command *)

(** [NewToolProvider]: the configuration of the kubeconfig, of the cluster or
    of the default kubeconfig. *)
Definition NewToolProvider (Kubeconfig : string) (from_file in_cluster from_default : error + RestConfig)
    (NewForConfig : RestConfig -> option error) : error + RestConfig :=
  let config := if negb (Kubeconfig =? "")%string then from_file
                else match in_cluster with inr c => inr c | inl _ => from_default end in
  match config with
  | inl e => inl (wrap_with "failed to create kubernetes config: " e)
  | inr c => match NewForConfig c with
             | Some e => inl (wrap_with "failed to create activity client: " e)
             | None => inr c
             end
  end.

Definition mcpTransportStdio : string := "stdio".
Definition mcpTransportHTTP : string := "http".
Definition mcp_Validate `{GoUnicode} (Transport : string) : option error :=
  if ((Transport =? mcpTransportStdio) || (Transport =? mcpTransportHTTP))%string%bool then None
  else Some (Errorf [PStr ("invalid --transport " +:+ Quote Transport +:+ ": must be " +:+ Quote mcpTransportStdio +:+ " or " +:+ Quote mcpTransportHTTP)]).


Record MCPServerOptions := { mo_Kubeconfig : string; mo_Context : string; mo_Transport : string; mo_Addr : string }.

(** [RunMCPHTTPServer]: an error, or the handler it served until [ended]. *)
Definition RunMCPHTTPServer `{HttpLib} `{GoUnicode} {Raw} (load : string -> error + Raw)
    (client_config : Raw -> string -> error + RestConfig) (service_host service_port : string)
    (knowledge : error + string) (skills : error + list entry) (options : MCPServerOptions)
    (listening : error + string) (ended : serve_end) : option error * option (RestConfig * gmap string document) :=
  match LoadBaseConfig load client_config (mo_Kubeconfig options) (mo_Context options) with
  | inl e => (Some e, None)
  | inr base =>
      match NewHandler (Some base) service_host service_port knowledge skills with
      | inl e => (Some (wrap_with "refusing to start: " e), None)
      | inr (docs, _) => (Serve (mo_Addr options) listening ended, Some (base, docs))
      end
  end.

(* ------------------------------------------------------------------ *)
(** ** Lemmas *)

(** What [validation.IsDNS1123Subdomain] documents: a valid name is made of
    lower case letters, digits, dashes and dots, and starts and ends with a
    letter or a digit. *)
Definition dns_byte (a : ascii) : bool := (path_char a && negb (Ascii.eqb a "/"))%bool.
Class DnsLaws `{NameLib} : Prop := dns_valid name :
  IsDNS1123Subdomain name = [] ->
  name <> "" /\ all_bytes dns_byte name = true /\ HasPrefix name "." = false.

Lemma all_bytes_weaken (p q : ascii -> bool) (s : string) :
  (forall a, p a = true -> q a = true) -> all_bytes p s = true -> all_bytes q s = true.
Proof. intros Hpq. induction s as [|a s IH]; [done|]. cbn. intros [Ha Hs]%andb_prop. by rewrite (Hpq a Ha), IH. Qed.

Section ServerLemmas.
Context `{HttpLaws} `{DnsLaws} `{GoUnicode}.

Lemma control_plane_path (project : string) :
  IsDNS1123Subdomain project = [] ->
  all_bytes path_char (ProjectControlPlanePath project) = true
  /\ Split "/" (ProjectControlPlanePath project)
     = [""; "apis"; "resourcemanager.miloapis.com"; "v1alpha1"; "projects"; project; "control-plane"]
  /\ project ∉ [""; "."; ".."].
Proof using All.
  intros (Hne & Hb & Hdot)%dns_valid. split_and!.
  - unfold ProjectControlPlanePath. rewrite !all_bytes_append.
    rewrite (all_bytes_weaken dns_byte path_char project) by (by try (intros a [? _]%andb_prop)). done.
  - unfold ProjectControlPlanePath.
    change ("/apis/resourcemanager.miloapis.com/v1alpha1/projects/" +:+ project +:+ "/control-plane")
      with ("/apis/resourcemanager.miloapis.com/v1alpha1/projects" +:+ String "/" (project +:+ String "/" "control-plane")).
    rewrite !Split_append, (Split_no_sep "/" project); [done|].
    by apply (all_bytes_has_byte dns_byte).
  - intros Hin. rewrite !elem_of_cons, elem_of_nil in Hin. by destruct Hin as [->|[->|[->|[]]]].
Qed.

(** A base configuration that is served names an address and nothing else. *)
Lemma checked_base (cfg : option RestConfig) sh sp :
  CheckBaseConfig cfg sh sp = None ->
  exists c u, cfg = Some c /\ rc_Host c <> "" /\ parseHost (rc_Host c) = inr u /\ u_User u = None /\ u_RawQuery u = ""
    /\ u_ForceQuery u = false /\ u_Fragment u = "" /\ TrimSuffix_slash (u_Path u) = ""
    /\ (localClusterEndpoint sh sp = "" \/ sameEndpoint (rc_Host c) (localClusterEndpoint sh sp) = false).
Proof using Type.
  unfold CheckBaseConfig. destruct cfg as [c|]; [|done]. cbv zeta. destruct (String.eqb_spec (rc_Host c) ""); [done|].
  destruct (parseHost (rc_Host c)) as [|u] eqn:E; [done|]. destruct (u_User u) eqn:Eu; [done|].
  destruct (String.eqb_spec (u_RawQuery u) ""); [|done]. destruct (u_ForceQuery u) eqn:Ef; [done|].
  destruct (String.eqb_spec (u_Fragment u) ""); [|done]. cbn [negb orb].
  destruct (String.eqb_spec (TrimSuffix_slash (u_Path u)) ""); [|done]. cbn [negb].
  destruct (negb _ && _)%bool eqn:El; [done|]. intros _. exists c, u. split_and!; try done.
  destruct (String.eqb_spec (localClusterEndpoint sh sp) ""); [by left|]. right. by destruct (sameEndpoint _ _).
Qed.

(** A configuration a request reads through. *)
Lemma resolved_config NewForConfig r base cfg :
  ResolverFromRequest NewForConfig r base = inr cfg ->
  let project := TrimSpace (req_Project r) in
  bearerToken r <> "" /\ IsDNS1123Subdomain project = []
  /\ rc_Creds cfg = with_token no_credentials (bearerToken r) /\ rc_CA cfg = rc_CA base /\ rc_RateLimiter cfg = false
  /\ exists u, parseHost (rc_Host base) = inr u /\ rc_Host cfg = url_String (project_url u project).
Proof using All.
  unfold ResolverFromRequest, clientFor. cbv zeta. destruct (String.eqb_spec (bearerToken r) ""); [done|].
  destruct (TrimSpace (req_Project r) =? "")%string; [done|]. unfold ClientConfig.
  destruct (IsDNS1123Subdomain (TrimSpace (req_Project r))); [|done].
  destruct (anonymous_rest base) as (Hh & Hca & Ht). rewrite Hh. destruct (parseHost (rc_Host base)) as [|u]; [done|].
  destruct (NewForConfig _); [done|]. intros [= <-]. cbn. rewrite anonymous_creds, Hca. split_and!; try done. by exists u.
Qed.
End ServerLemmas.

(** Every document is the knowledge document or a skill, under its own name. *)
Lemma add_skills_spec (entries : list entry) docs docs' :
  add_skills docs entries = inr docs' ->
  forall path d, docs' !! path = Some d ->
    docs !! path = Some d
    \/ exists name, path = runbookPrefix +:+ name /\ (name, false, inr (d_body d)) ∈ entries /\ HasSuffix name ".md" = true.
Proof.
  revert docs. induction entries as [|[[name is_dir] body] rest IH]; intros docs; cbn [add_skills].
  { intros [= ->] path d. by left. }
  destruct (is_dir || negb (HasSuffix name ".md"))%bool eqn:Ef.
  - intros E path d Hd. destruct (IH docs E path d Hd) as [?|(n & -> & Hin & ?)]; [by left|].
    right. exists n. split_and!; [done|by apply elem_of_cons; right|done].
  - destruct body as [e|text]; [done|]. intros E path d Hd.
    apply orb_false_iff in Ef as [-> Hs%negb_false_iff].
    destruct (IH _ E path d Hd) as [Hl|(n & -> & Hin & ?)].
    + destruct (decide (path = runbookPrefix +:+ name)) as [->|Hne].
      * rewrite lookup_insert_eq in Hl. injection Hl as <-. right. exists name. split_and!; [done|apply elem_of_cons; by left|done].
      * rewrite lookup_insert_ne in Hl by done. by left.
    + right. exists n. split_and!; [done|by apply elem_of_cons; right|done].
Qed.

(** What a running HTTP server serves as documents. *)
Lemma served_documents `{HttpLib} `{GoUnicode} {Raw} (load : string -> error + Raw) client_config sh sp knowledge skills options listening ended
    err base docs :
  RunMCPHTTPServer load client_config sh sp knowledge skills options listening ended = (err, Some (base, docs)) ->
  CheckBaseConfig (Some base) sh sp = None
  /\ forall method path d, serve_document docs method path = ServeContent d ->
       (path = knowledgePath /\ knowledge = inr (d_body d))
       \/ exists name entries, path = runbookPrefix +:+ name /\ skills = inr entries /\ (name, false, inr (d_body d)) ∈ entries
            /\ HasSuffix name ".md" = true.
Proof.
  unfold RunMCPHTTPServer. destruct (LoadBaseConfig _ _ _ _) as [|c]; [done|]. unfold NewHandler.
  destruct (CheckBaseConfig _ _ _) eqn:Ec; [done|]. unfold newKnowledgeHandler. destruct knowledge as [|text]; [done|].
  destruct skills as [|entries]; [done|]. destruct (add_skills _ entries) as [|docs'] eqn:Ea; [done|].
  destruct (size docs' <? 2)%nat; [done|]. intros [= _ <- <-]. split; [done|]. intros method path d. unfold serve_document.
  destruct (negb _ && _)%bool; [done|]. destruct (docs' !! path) as [d'|] eqn:Ed; [|done]. intros [= <-].
  destruct (add_skills_spec entries _ docs' Ea path d' Ed) as [Hl|(name & -> & Hin & Hs)].
  - left. apply lookup_singleton_Some in Hl as [<- <-]. done.
  - right. by exists name, entries.
Qed.

Section Silent.
Context {W : Type} `{McpLib} `{GoUnicode} `{GoLocal}.
Lemma unresolved_silent (k : McpClient W) e tools c w :
  @tools_call W (with_resolver (fun w => (inl e, w)) k) _ _ _ tools c w
  = (if allows tools (tool_name c) then inr (inr (errorResult (error_text e))) else inr (inl (Ext "unknown tool")), [], w).
Proof using Type.
  unfold tools_call. destruct (allows tools (tool_name c)); [|done]. by destruct c.
Qed.
End Silent.

(* ------------------------------------------------------------------ *)
(** ** Theorems *)

(** C23: A tool call over HTTP reads only as its caller.  Either it makes no
    request at all, or the tool is one of those exposed and all its requests go
    through one configuration: its only credential is the caller's own bearer
    token, whatever credentials the server was started with; its address is the
    scheme and host of the server's base address with the control-plane path of
    the caller's project, which is one segment of that path and cannot reshape
    it. *)
Theorem http_reads_as_caller {W : Type} `{HttpLaws} `{DnsLaws} `{McpLib} `{GoUnicode} `{GoLocal}
    (NewForConfig : RestConfig -> option error) (api : RestConfig -> McpClient W) (base : RestConfig) (r : Request) (c : tool_call) (w : W)
    result log w' :
  (forall u, parseHost (rc_Host base) = inr u -> u_Opaque u = "" /\ u_Scheme u <> "" /\ u_Host u <> "") ->
  http_tools_call NewForConfig api base r c w = (result, log, w') ->
  log = [] \/
  exists cfg u, let project := TrimSpace (req_Project r) in
    tool_name c ∈ ExposedTools
    /\ @tools_call W (with_resolver (fun w => (inr true, w)) (api cfg)) _ _ _ (Some ExposedTools) c w = (result, log, w')
    /\ bearerToken r <> "" /\ rc_Creds cfg = with_token no_credentials (bearerToken r) /\ rc_CA cfg = rc_CA base
    /\ parseHost (rc_Host base) = inr u
    /\ rc_Host cfg = u_Scheme u +:+ "://" +:+ u_Host u +:+ ProjectControlPlanePath project
    /\ Split "/" (ProjectControlPlanePath project)
       = [""; "apis"; "resourcemanager.miloapis.com"; "v1alpha1"; "projects"; project; "control-plane"]
    /\ project ∉ [""; "."; ".."].
Proof.
  intros Hbase. unfold http_tools_call, provider. destruct (ResolverFromRequest NewForConfig r base) as [e|cfg] eqn:Er.
  - rewrite unresolved_silent. intros [= _ <- _]. by left.
  - intros E. destruct (resolved_config NewForConfig r base cfg Er) as (Ht & Hp & Hcr & Hca & _ & u & Hu & Hh).
    destruct (control_plane_path _ Hp) as (Hplain & Hsplit & Hin). destruct (Hbase u Hu) as (Hop & Hsch & Hho).
    destruct (allows (Some ExposedTools) (tool_name c)) eqn:Ea.
    + right. exists cfg, u. cbv zeta. split_and!; try done.
      * unfold allows in Ea. apply List.existsb_exists in Ea as (x & Hx & ->%String.eqb_eq). by apply list_elem_of_In.
      * rewrite Hh. rewrite url_String_plain; try done.
    + left. unfold tools_call in E. rewrite Ea in E. by injection E as _ <- _.
Qed.

Module ToyHttp.
(** Addresses of the form https://host/path, the scheme read and dropped. *)
#[export] Instance lib : HttpLib := {|
  url_Parse s := if HasPrefix s "https://" then
                   inr {| u_Scheme := "https"; u_Opaque := ""; u_User := None; u_Host := drop_str 8 s; u_Path := ""; u_RawPath := "";
                          u_RawQuery := ""; u_ForceQuery := false; u_Fragment := ""; u_RawFragment := "" |}
                 else inl (Ext "scheme");
  url_String u := u_Scheme u +:+ "://" +:+ u_Host u +:+ u_Path u;
  AnonymousClientConfig c := {| rc_Host := rc_Host c; rc_Creds := no_credentials; rc_CA := rc_CA c; rc_Timeout := rc_Timeout c;
                                rc_RateLimiter := false |} |}.
#[export] Instance laws : HttpLaws.
Proof. by split. Qed.
#[export] Instance names : NameLib := {| IsDNS1123Subdomain s := if (s =? "acme-prod")%string then [] else ["bad"] |}.
#[export] Instance dns : DnsLaws.
Proof. intros name. cbn. destruct (String.eqb_spec name "acme-prod") as [->|]; done. Qed.
(** A server started with credentials of its own. *)
Definition base : RestConfig := {|
  rc_Host := "https://api.example.com";
  rc_Creds := {| cr_BearerToken := "server"; cr_BearerTokenFile := "/token"; cr_Username := ""; cr_Password := ""; cr_ClientCert := "cert";
                 cr_Impersonate := "root"; cr_ExecProvider := true; cr_AuthProvider := false; cr_Transport := false |};
  rc_CA := "ca"; rc_Timeout := 0; rc_RateLimiter := true |}.
Definition request (auth project : string) : Request := {| req_Authorization := auth; req_Project := project |}.
Definition call_ (r : Request) (c : tool_call) :=
  @http_tools_call unit lib names ToyTools.lib latin {| local_offset _ := 0%Z |} (fun _ => None) (fun _ => ToyTools.client []) base r c tt.
End ToyHttp.

Lemma http_reads_as_caller_witness :
  let run := ToyHttp.call_ (ToyHttp.request "Bearer jane" " acme-prod ") (ToyTools.summarize 3) in
  (exists cfg, rc_Creds cfg = with_token no_credentials "jane"
     /\ rc_Host cfg = "https://api.example.com/apis/resourcemanager.miloapis.com/v1alpha1/projects/acme-prod/control-plane")
  /\ snd (fst run) <> [].
Proof.
  assert (Hlog : snd (fst (ToyHttp.call_ (ToyHttp.request "Bearer jane" " acme-prod ") (ToyTools.summarize 3))) <> [])
    by (vm_compute; discriminate).
  cbv zeta. split; [|done].
  destruct (ToyHttp.call_ (ToyHttp.request "Bearer jane" " acme-prod ") (ToyTools.summarize 3)) as [[result log] w'] eqn:E.
  destruct (@http_reads_as_caller unit ToyHttp.lib ToyHttp.laws ToyHttp.names ToyHttp.dns ToyTools.lib latin {| local_offset _ := 0%Z |}
    (fun _ => None) (fun _ => ToyTools.client []) ToyHttp.base (ToyHttp.request "Bearer jane" " acme-prod ") (ToyTools.summarize 3) tt
    result log w') as [->|(cfg & u & Hcfg)].
  - intros u [= <-]. by vm_compute.
  - exact E.
  - by destruct Hlog.
  - cbv zeta in Hcfg. destruct Hcfg as (_ & _ & _ & Hcr & _ & Hu & Hh & _). exists cfg. split; [exact Hcr|].
    rewrite Hh. injection Hu as <-. reflexivity.
Defined.

(** An unknown project, or no token: nothing is read. *)
Example refused_requests_read_nothing :
  map (fun r => snd (fst (ToyHttp.call_ r (ToyTools.summarize 3))))
    [ToyHttp.request "Bearer jane" "../acme"; ToyHttp.request "Basic jane" "acme-prod"; ToyHttp.request "" "acme-prod"]
  = [[]; []; []].
Proof. vm_compute. reflexivity. Qed.
