(* ===== verification/ProcStart.v ===== *)
(** * Starting the activity processor

    internal/activityprocessor/processor.go, [Start] and what it calls: the
    API set-up, the NATS connections, the checks of the streams, and the
    goroutines it starts; the health checks; and cmd/activity/processor.go, the
    options and [RunProcessor]. *)

From Stdlib Require Import Ascii String.
From stdpp Require Import base numbers list strings gmap pretty.
From Stdlib Require Import ZArith Lia.
From S2P Require Import Prelude GoLib Calls GoFmt Types TimeUtil CelPolicy Activity Dlq EventProc GoSlice PolicyCache AuditProc DlqRetry Nkeys.

(* ------------------------------------------------------------------ *)
(** ** Configuration *)

Record ProcConfig := {
  pc_Input : Endpoint; pc_NATSStreamName : string; pc_ConsumerName : string;
  pc_NATSEventStream : string; pc_NATSEventConsumer : string;
  pc_OutputStreamName : string; pc_OutputSubjectPrefix : string; pc_Output : Endpoint;
  pc_DLQ : DLQConfig;
  pc_Retry : DLQRetryConfig;  (* the eight DLQRetry fields *)
  pc_Workers : Z; pc_BatchSize : Z; pc_AckWait : Z; pc_MaxDeliver : Z;
  pc_HealthProbeAddr : string }.

Definition no_tls : TLSFiles := {| tls_Enabled := false; CertFile := ""; KeyFile := ""; CAFile := "" |}.
Definition DefaultConfig : ProcConfig := {|
  pc_Input := {| ep_URL := "nats://localhost:4222"; ep_TLS := no_tls |};
  pc_NATSStreamName := "AUDIT_EVENTS"; pc_ConsumerName := "activity-processor@activity.miloapis.com";
  pc_NATSEventStream := "EVENTS"; pc_NATSEventConsumer := "activity-event-processor";
  pc_OutputStreamName := "ACTIVITIES"; pc_OutputSubjectPrefix := "activities";
  pc_Output := {| ep_URL := ""; ep_TLS := no_tls |};
  pc_DLQ := {| Enabled := true; StreamName := "ACTIVITY_DEAD_LETTER"; SubjectPrefix := "activity.dlq" |};
  pc_Retry := {| rc_Enabled := true; Interval := 5 * Minute; BatchSize := 100; BackoffBase := 1 * Minute;
                 BackoffMultiplier := (2, 1)%Z; BackoffMax := 24 * Hour; AlertThreshold := 10;
                 AuditRetrySubject := ""; EventRetrySubject := "" |};
  pc_Workers := 4; pc_BatchSize := 100; pc_AckWait := 30 * Second; pc_MaxDeliver := 5; pc_HealthProbeAddr := ":8081" |}.

(** [ProcessorOptions]; the configuration is made of it field by field. *)
Record ProcessorOptions := {
  po_Kubeconfig : string; po_MasterURL : string;
  po_Input : Endpoint; po_NATSStreamName : string; po_ConsumerName : string;
  po_NATSEventStream : string; po_NATSEventConsumer : string;
  po_OutputStreamName : string; po_OutputSubjectPrefix : string; po_Output : Endpoint;
  po_DLQ : DLQConfig; po_Retry : DLQRetryConfig;
  po_Workers : Z; po_BatchSize : Z; po_AckWait : Z; po_HealthProbeAddr : string }.
Definition NewProcessorOptions : ProcessorOptions := {|
  po_Kubeconfig := ""; po_MasterURL := "";
  po_Input := {| ep_URL := "nats://localhost:4222"; ep_TLS := no_tls |};
  po_NATSStreamName := "AUDIT_EVENTS"; po_ConsumerName := "activity-processor@activity.miloapis.com";
  po_NATSEventStream := "EVENTS"; po_NATSEventConsumer := "activity-event-processor";
  po_OutputStreamName := "ACTIVITIES"; po_OutputSubjectPrefix := "activities";
  po_Output := {| ep_URL := ""; ep_TLS := no_tls |};
  po_DLQ := {| Enabled := true; StreamName := "ACTIVITY_DEAD_LETTER"; SubjectPrefix := "activity.dlq" |};
  po_Retry := {| rc_Enabled := true; Interval := 5 * Minute; BatchSize := 100; BackoffBase := 1 * Minute;
                 BackoffMultiplier := (2, 1)%Z; BackoffMax := 24 * Hour; AlertThreshold := 10;
                 AuditRetrySubject := "audit.k8s.retry"; EventRetrySubject := "events.retry" |};
  po_Workers := 4; po_BatchSize := 100; po_AckWait := 30 * Second; po_HealthProbeAddr := ":8081" |}.
Definition processor_config (o : ProcessorOptions) : ProcConfig := {|
  pc_Input := po_Input o; pc_NATSStreamName := po_NATSStreamName o; pc_ConsumerName := po_ConsumerName o;
  pc_NATSEventStream := po_NATSEventStream o; pc_NATSEventConsumer := po_NATSEventConsumer o;
  pc_OutputStreamName := po_OutputStreamName o; pc_OutputSubjectPrefix := po_OutputSubjectPrefix o; pc_Output := po_Output o;
  pc_DLQ := po_DLQ o; pc_Retry := po_Retry o; pc_Workers := po_Workers o; pc_BatchSize := po_BatchSize o;
  pc_AckWait := po_AckWait o; pc_MaxDeliver := 5; pc_HealthProbeAddr := po_HealthProbeAddr o |}.

Definition auditConsumptionEnabled (cfg : ProcConfig) : bool := negb (pc_NATSStreamName cfg =? "")%string.
Definition usesSeparateOutputBroker (cfg : ProcConfig) : bool := endpoint_IsSet (pc_Output cfg).
Definition outputEndpoint (cfg : ProcConfig) : Endpoint :=
  {| ep_URL := ep_URL (pc_Output cfg); ep_TLS := tls_InheritFrom (ep_TLS (pc_Output cfg)) (ep_TLS (pc_Input cfg)) |}.
Definition drainTimeout : Z := (30 * Second)%Z.

(* ------------------------------------------------------------------ *)
(** ** The calls of [Start] *)

Inductive broker := InputConn | OutputConn.
Inductive setup_call :=
| RegisterMetrics | RegisterPolicyCache | NewDiscoveryClient | NewCache | GetInformer | AddEventHandler
| NewKubernetesClient | NewClientset.
Definition setup_failure (c : setup_call) : string :=
  match c with
  | RegisterMetrics => "failed to register processor metrics: "
  | RegisterPolicyCache => "failed to register policy ownership metrics: "
  | NewDiscoveryClient => "failed to create discovery client: "
  | NewCache => "failed to create cache: "
  | GetInformer => "failed to get informer for ActivityPolicy: "
  | AddEventHandler => "failed to add event handler: "
  | NewKubernetesClient => "failed to create kubernetes client: "
  | NewClientset => "failed to create kubernetes clientset: "
  end.

(** How the connections are told to behave. *)
Definition natsOpts : list nats_setting :=
  [RetryOnFailedConnect; MaxReconnects (-1); ReconnectWait Second; ReconnectJitter (Second / 10) Second].

(** What [Start] does: calls with their results, and goroutines started. *)
Inductive start_act :=
| Setup (c : setup_call) (r : option error)
| StartHealth | StartCache | CacheSync (ok : bool)
| Dial (b : broker) (url : string) (opts : list (nats_option nats_setting)) (r : option error)
| OpenJetStream (b : broker) (r : option error)
| ConsumerInfo (stream consumer : string) (r : error + string)
| StreamInfo (b : broker) (stream : string) (r : option error)
| CloseConn (b : broker)
| StartRetry (c : DLQRetryConfig) | StartWorker (id : nat) | StartMonitor | StartEvents (filterSubject : string)
| SetReady (ready : bool).

(** The API server and NATS; a consumer is found with its filter subject. *)
Class StartIO (W : Type) := {
  setup_api : setup_call -> W -> option error * W;
  WaitForCacheSync : W -> bool * W;
  nats_Connect : broker -> string -> list (nats_option nats_setting) -> W -> option error * W;
  conn_JetStream : broker -> W -> option error * W;
  js_ConsumerInfo : string -> string -> W -> (error + string) * W;
  js_StreamInfo : broker -> string -> W -> option error * W }.

(** What a started processor runs. *)
Record Processor := {
  pr_health : bool; pr_output : bool (* a second connection *); pr_dlq : DLQConfig; pr_retry : option DLQRetryConfig;
  pr_workers : nat; pr_events : option string }.

Section Start.
Context {W : Type} `{StartIO W} `{TLSLib} `{GoUnicode}.
Abbreviation M := (Calls start_act W).

Definition setup (c : setup_call) : M unit :=
  try! _ := ndo (setup_api c) (Setup c) or (fun e => nfail (wrap_with (setup_failure c) e)) in nret tt.

(** [Endpoint.Connect] *)
Definition endpoint_Connect (b : broker) (e : Endpoint) (name : string) (extra : list nats_setting) : M unit :=
  get! opts := nlift (endpoint_options e name extra) in
  ndo (nats_Connect b (ep_URL e) opts) (Dial b (ep_URL e) opts).
Definition find_consumer (stream consumer : string) : M string :=
  nask (js_ConsumerInfo stream consumer) (fun r => [ConsumerInfo stream consumer r]).
Definition find_stream (b : broker) (stream : string) : M unit := ndo (js_StreamInfo b stream) (StreamInfo b stream).

(** [closeNATS], the input connection being there. *)
Definition closeNATS (output : bool) : M unit := nsay ((if output then [CloseConn OutputConn] else []) ++ [CloseConn InputConn]).
Definition close_and_fail {A} (output : bool) (e : error) : M A := get! _ := closeNATS output in nfail e.

Definition connectOutput (cfg : ProcConfig) : M unit :=
  try! _ := endpoint_Connect OutputConn (outputEndpoint cfg) "activity-processor-output" natsOpts
    or (fun e => nfail (wrap_with "failed to connect to output NATS: " e)) in
  try! _ := ndo (conn_JetStream OutputConn) (OpenJetStream OutputConn)
    or (fun e => get! _ := nsay [CloseConn OutputConn] in nfail (wrap_with "failed to create output JetStream context: " e)) in
  nret tt.

(** The broker [outputJS] is a context of. *)
Definition output_broker (cfg : ProcConfig) : broker := if usesSeparateOutputBroker cfg then OutputConn else InputConn.

Definition initDLQPublisher (cfg : ProcConfig) : M DLQConfig :=
  if Enabled (pc_DLQ cfg) then
    try! _ := find_stream (output_broker cfg) (StreamName (pc_DLQ cfg))
      or (fun _ => nret {| Enabled := false; StreamName := StreamName (pc_DLQ cfg); SubjectPrefix := SubjectPrefix (pc_DLQ cfg) |}) in
    nret (pc_DLQ cfg)
  else nret (pc_DLQ cfg).

(** [Start], up to the event emitter. *)
Definition start_cache (cfg : ProcConfig) : M unit :=
  get! _ := setup RegisterMetrics in
  get! _ := setup RegisterPolicyCache in
  get! _ := nsay (if (pc_HealthProbeAddr cfg =? "")%string then [] else [StartHealth]) in
  get! _ := setup NewDiscoveryClient in
  get! _ := setup NewCache in
  get! _ := setup GetInformer in
  get! _ := setup AddEventHandler in
  get! _ := nsay [StartCache] in
  get! synced := (fun w => let (ok, w') := WaitForCacheSync w in (inr ok, [CacheSync ok], w')) in
  if negb synced then nfail (Errorf [PStr "failed to sync cache"])
  else get! _ := setup NewKubernetesClient in setup NewClientset.

(** The connections, and the streams and the consumer that must be there. *)
Definition start_nats (cfg : ProcConfig) : M unit :=
  let output := usesSeparateOutputBroker cfg in
  try! _ := endpoint_Connect InputConn (pc_Input cfg) "activity-processor" natsOpts
    or (fun e => nfail (wrap_with "failed to connect to NATS: " e)) in
  try! _ := ndo (conn_JetStream InputConn) (OpenJetStream InputConn)
    or (fun e => close_and_fail false (wrap_with "failed to create JetStream context: " e)) in
  try! _ := (if output then connectOutput cfg else nret tt) or (fun e => close_and_fail false e) in
  try! _ := (if auditConsumptionEnabled cfg
             then get! _ := find_consumer (pc_NATSStreamName cfg) (pc_ConsumerName cfg) in nret tt else nret tt)
    or (fun e => close_and_fail output (wrap_with ("consumer " +:+ Quote (pc_ConsumerName cfg) +:+ " not found on stream "
                   +:+ Quote (pc_NATSStreamName cfg) +:+ " (ensure NATS JetStream resources are deployed): ") e)) in
  try! _ := find_stream (output_broker cfg) (pc_OutputStreamName cfg)
    or (fun e => close_and_fail output (wrap_with ("output stream " +:+ Quote (pc_OutputStreamName cfg)
                   +:+ " not found (ensure NATS JetStream resources are deployed): ") e)) in
  nret tt.

(** The retry controller runs when the dead letters are on the input broker. *)
Definition retry_config (cfg : ProcConfig) (dlq : DLQConfig) : option DLQRetryConfig :=
  if (rc_Enabled (pc_Retry cfg) && Enabled dlq && negb (usesSeparateOutputBroker cfg))%bool then Some (pc_Retry cfg) else None.
Definition makechan_panic : error := Ext "panic: makechan: size out of range".

(** The goroutines. *)
Definition start_workers (cfg : ProcConfig) : M Processor :=
  get! dlq := initDLQPublisher cfg in
  let retry := retry_config cfg dlq in
  get! _ := nsay (match retry with Some c => [StartRetry c] | None => [] end) in
  let workers := if auditConsumptionEnabled cfg then Z.to_nat (pc_Workers cfg) else 0 in
  get! _ := (if auditConsumptionEnabled cfg then
               if (pc_Workers cfg <? 0)%Z then nfail makechan_panic
               else nsay (map StartWorker (seq 0 workers) ++ [StartMonitor])
             else nret tt) in
  get! events := (try! f := find_consumer (pc_NATSEventStream cfg) (pc_NATSEventConsumer cfg) or (fun _ => nret None) in nret (Some f)) in
  get! _ := nsay (match events with Some f => [StartEvents f] | None => [] end) in
  get! _ := nsay [SetReady true] in
  nret {| pr_health := negb (pc_HealthProbeAddr cfg =? "")%string; pr_output := usesSeparateOutputBroker cfg; pr_dlq := dlq;
          pr_retry := retry; pr_workers := workers; pr_events := events |}.

Definition Start (cfg : ProcConfig) : M Processor :=
  get! _ := start_cache cfg in
  get! _ := start_nats cfg in
  start_workers cfg.

(** [RunProcessor], up to the wait for the signal. *)
Definition run_processor (kubeconfig in_cluster : W -> (error + unit) * W) (o : ProcessorOptions) : M Processor :=
  try! _ := nask (if negb (po_Kubeconfig o =? "")%string then kubeconfig else in_cluster) (fun _ => [])
    or (fun e => nfail (wrap_with "failed to build kubeconfig: " e)) in
  try! p := Start (processor_config o) or (fun e => nfail (wrap_with "failed to start processor: " e)) in
  nret p.
End Start.

(* ------------------------------------------------------------------ *)
(** ** Health checks *)

(** A connection: nil, or connected or not. *)
Definition natsHealthChecker (nc outputNC : option bool) : option error :=
  let text s := Some (Errorf [PStr s]) in
  match nc with
  | None => text "NATS connection not initialized"
  | Some false => text "NATS connection is disconnected"
  | Some true => match outputNC with
                 | Some false => text "output NATS connection is disconnected"
                 | _ => None
                 end
  end.
Definition cacheSyncedChecker (ready : bool) : option error := if ready then None else Some (Errorf [PStr "cache not synced"]).
(** The policy cache is made by [New]. *)
Definition policiesReadyChecker : option error := None.
(** The endpoints: a request is answered 200 when all checks pass. *)
Definition healthz_ok (nc outputNC : option bool) : bool := match natsHealthChecker nc outputNC with None => true | Some _ => false end.
Definition readyz_ok (nc outputNC : option bool) (ready : bool) : bool :=
  (healthz_ok nc outputNC && match cacheSyncedChecker ready with None => true | Some _ => false end
   && match policiesReadyChecker with None => true | Some _ => false end)%bool.

(* ------------------------------------------------------------------ *)
(** ** Lemmas *)

Definition opened (log : list start_act) : list broker := omap (fun a => match a with Dial b _ _ None => Some b | _ => None end) log.
Definition closed (log : list start_act) : list broker := omap (fun a => match a with CloseConn b => Some b | _ => None end) log.
(** Actions by which messages are consumed, or readiness is reported. *)
Definition serves (a : start_act) : bool :=
  match a with StartRetry _ | StartWorker _ | StartMonitor | StartEvents _ | SetReady _ => true | _ => false end.
(** Goroutines that serve nothing; consumers and streams looked up. *)
Definition background (a : start_act) : bool := match a with StartHealth | StartCache => true | _ => false end.
Definition looks_up (a : start_act) : bool := match a with ConsumerInfo _ _ _ | StreamInfo _ _ _ => true | _ => false end.
(** No connection is touched and nothing is served. *)
Definition quiet (log : list start_act) : Prop := opened log = [] /\ closed log = [] /\ List.filter serves log = [].

Lemma quiet_nil : quiet [].
Proof. done. Qed.
Lemma quiet_calls_app a b : quiet a -> quiet b -> quiet (a ++ b).
Proof. unfold quiet, opened, closed. intros (H1 & H2 & H3) (H4 & H5 & H6). by rewrite !omap_app, List.filter_app, H1, H2, H3, H4, H5, H6. Qed.

Section StartLemmas.
Context {W : Type} `{StartIO W} `{TLSLib} `{GoUnicode}.

(** Computations of which every log is quiet. *)
Definition quietly {A} (m : Calls start_act W A) : Prop := forall w r log w', m w = (r, log, w') -> quiet log.

Lemma quietly_try {A B} (m : Calls start_act W A) h (f : A -> Calls start_act W B) :
  quietly m -> (forall e, quietly (h e)) -> (forall a, quietly (f a)) -> quietly (ntry m h f).
Proof.
  intros Hm Hh Hf w r log w' (a & l1 & w1 & l2 & E1 & E2 & ->)%ntry_inv. apply quiet_calls_app; [by eapply Hm|].
  destruct a; [by eapply Hh|by eapply Hf].
Qed.
Lemma quietly_ret {A} (a : A) : quietly (nret a).
Proof. by intros ???? [= <- <- <-]. Qed.
Lemma quietly_fail {A} e : quietly (@nfail start_act W A e).
Proof. by intros ???? [= <- <- <-]. Qed.
Lemma quietly_say l : quiet l -> quietly (@nsay start_act W l).
Proof. by intros Hl ???? [= <- <- <-]. Qed.
Lemma quietly_do f c : (forall r, quiet [c r]) -> quietly (@ndo start_act W f c).
Proof. intros Hc w r log w'. unfold ndo. destruct (f w). intros [= <- <- <-]. apply Hc. Qed.
Lemma quietly_ask {A} f c : (forall r, quiet (c r)) -> quietly (@nask start_act W A f c).
Proof. intros Hc w r log w'. unfold nask. destruct (f w). intros [= <- <- <-]. apply Hc. Qed.

Lemma setup_quiet c : quietly (setup c).
Proof. apply quietly_try; [by apply quietly_do|intros e; apply quietly_fail|intros _; apply quietly_ret]. Qed.
Lemma find_consumer_quiet stream consumer : quietly (find_consumer stream consumer).
Proof. by apply quietly_ask. Qed.
Lemma find_stream_quiet b stream : quietly (find_stream b stream).
Proof. by apply quietly_do. Qed.
Lemma initDLQPublisher_quiet cfg : quietly (initDLQPublisher cfg).
Proof.
  unfold initDLQPublisher. destruct (Enabled _); [|apply quietly_ret].
  apply quietly_try; [apply find_stream_quiet|intros e; apply quietly_ret|intros _; apply quietly_ret].
Qed.
Lemma start_cache_quiet cfg : quietly (start_cache cfg).
Proof.
  assert (forall {A} (m : Calls start_act W A) {B} (f : A -> Calls start_act W B), quietly m -> (forall a, quietly (f a)) -> quietly (nbind m f)) as Hb.
  { intros. apply quietly_try; [done|intros; apply quietly_fail|done]. }
  unfold start_cache. repeat (apply Hb; [first [apply setup_quiet|apply quietly_say; by destruct (_ =? _)%string|by apply quietly_say]|intros _]).
  apply Hb.
  - intros w r log w'. destruct (WaitForCacheSync w). by intros [= <- <- <-].
  - intros []; [|apply quietly_fail]. apply Hb; [apply setup_quiet|intros _; apply setup_quiet].
Qed.

Lemma opened_app a b : opened (a ++ b) = opened a ++ opened b.
Proof. apply omap_app. Qed.
Lemma closed_app a b : closed (a ++ b) = closed a ++ closed b.
Proof. apply omap_app. Qed.

(** A computation that serves nothing and turns the open connections [pre] into
    [oe] when it fails and [os] when it does not. *)
Definition leaves (pre : list broker) {A} (m : Calls start_act W A) (oe os : list broker) : Prop := forall w r log w',
  m w = (r, log, w') ->
  List.filter serves log = [] /\ pre ++ opened log ≡ₚ closed log ++ match r with inl _ => oe | inr _ => os end.

Lemma leaves_quietly pre {A} (m : Calls start_act W A) : quietly m -> leaves pre m pre pre.
Proof. intros Hm w r log w' (Ho & Hc & Hs)%Hm. split; [done|]. rewrite Ho, Hc, app_nil_r. by destruct r. Qed.
Lemma leaves_fail pre {A} e os : leaves pre (@nfail start_act W A e) pre os.
Proof. intros w r log w' [= <- <- <-]. cbn. by rewrite app_nil_r. Qed.
Lemma leaves_ret pre {A} (a : A) oe : leaves pre (@nret start_act W A a) oe pre.
Proof. intros w r log w' [= <- <- <-]. cbn. by rewrite app_nil_r. Qed.
Lemma leaves_try pre {A B} (m : Calls start_act W A) h (f : A -> Calls start_act W B) oe os oe' os' :
  leaves pre m oe os -> (forall e, leaves oe (h e) oe' os') -> (forall a, leaves os (f a) oe' os') ->
  leaves pre (ntry m h f) oe' os'.
Proof.
  intros Hm Hh Hf w r log w' (a & l1 & w1 & l2 & E1 & E2 & ->)%ntry_inv. apply Hm in E1 as [S1 O1].
  rewrite opened_app, closed_app, List.filter_app, S1, app_assoc, O1, <- !app_assoc.
  destruct a as [e|a]; [apply Hh in E2 as [S2 O2]|apply Hf in E2 as [S2 O2]]; by rewrite S2, O2.
Qed.
Lemma leaves_bind pre {A B} (m : Calls start_act W A) (f : A -> Calls start_act W B) oe os os' :
  leaves pre m oe os -> (forall a, leaves os (f a) oe os') -> leaves pre (nbind m f) oe os'.
Proof. intros Hm Hf. eapply leaves_try; [exact Hm|intros e; apply leaves_fail|exact Hf]. Qed.

(** The connections there are, with or without the second one. *)
Definition conns (output : bool) : list broker := InputConn :: (if output then [OutputConn] else []).
Lemma leaves_closed {A} (output : bool) e os : leaves (conns output) (@close_and_fail W A output e) [] os.
Proof.
  intros w r log w' [= <- <- <-]. destruct output; cbn; split; try done. apply Permutation_swap.
Qed.

Lemma endpoint_Connect_leaves pre b e name extra : leaves pre (endpoint_Connect b e name extra) pre (pre ++ [b]).
Proof.
  intros w r log w' (a & l1 & w1 & l2 & E1 & E2 & ->)%ntry_inv. injection E1 as <- <- <-. destruct (endpoint_options e name extra) as [err|opts].
  - injection E2 as <- <- <-. cbn. by rewrite app_nil_r.
  - unfold ndo in E2. destruct (nats_Connect _ _ _ _) as [[err|] w2]; injection E2 as <- <- <-; cbn; by rewrite ?app_nil_r.
Qed.
Lemma open_JetStream_leaves pre b : leaves pre (ndo (conn_JetStream b) (OpenJetStream b)) pre pre.
Proof. apply leaves_quietly. by apply quietly_do. Qed.
Lemma connectOutput_leaves cfg : leaves [InputConn] (connectOutput cfg) [InputConn] (conns true).
Proof.
  unfold connectOutput. eapply leaves_try; [apply endpoint_Connect_leaves|intros e; apply leaves_fail|intros _].
  eapply leaves_try; [apply open_JetStream_leaves|intros e|intros _; apply leaves_ret].
  intros w r log w' [= <- <- <-]. cbn. split; [done|apply Permutation_swap].
Qed.

Lemma start_nats_leaves cfg : leaves [] (start_nats cfg) [] (conns (usesSeparateOutputBroker cfg)).
Proof.
  unfold start_nats. eapply leaves_try; [apply endpoint_Connect_leaves|intros e; apply leaves_fail|intros _].
  eapply leaves_try; [apply open_JetStream_leaves|intros e; apply (leaves_closed false)|intros _].
  eapply leaves_try; [|intros e; apply (leaves_closed false)|intros _].
  { instantiate (1 := conns (usesSeparateOutputBroker cfg)). destruct (usesSeparateOutputBroker cfg); [apply connectOutput_leaves|apply leaves_ret]. }
  eapply leaves_try; [|intros e; apply leaves_closed|intros _].
  { apply leaves_quietly. destruct (auditConsumptionEnabled cfg); [|apply quietly_ret].
    apply quietly_try; [apply find_consumer_quiet|intros; apply quietly_fail|intros; apply quietly_ret]. }
  eapply leaves_try; [apply leaves_quietly, find_stream_quiet|intros e; apply leaves_closed|intros _; apply leaves_ret].
Qed.

(** All that is looked up, by what is found: the audit consumer (when one is
    configured) and the output stream, the stream of the dead letters (when they
    are enabled), the event consumer. *)
Definition lookups (cfg : ProcConfig) (audit : string) (dlq : option error) (events : error + string) : list start_act :=
  (if auditConsumptionEnabled cfg then [ConsumerInfo (pc_NATSStreamName cfg) (pc_ConsumerName cfg) (inr audit)] else [])
  ++ [StreamInfo (output_broker cfg) (pc_OutputStreamName cfg) None]
  ++ (if Enabled (pc_DLQ cfg) then [StreamInfo (output_broker cfg) (StreamName (pc_DLQ cfg)) dlq] else [])
  ++ [ConsumerInfo (pc_NATSEventStream cfg) (pc_NATSEventConsumer cfg) events].
Definition found {A} (r : option A) : bool := match r with None => true | Some _ => false end.
(** The retries the configuration and the stream of the dead letters allow. *)
Definition retries (cfg : ProcConfig) (dlq : option error) : option DLQRetryConfig :=
  if (rc_Enabled (pc_Retry cfg) && Enabled (pc_DLQ cfg) && found dlq && negb (usesSeparateOutputBroker cfg))%bool
  then Some (pc_Retry cfg) else None.

(** Neither a lookup nor a goroutine in the background. *)
Definition plain (a : start_act) : Prop := looks_up a = false /\ background a = false.
Lemma plain_filters log : Forall plain log -> List.filter looks_up log = [] /\ List.filter background log = [].
Proof. induction 1 as [|a l [Ha Hb] _ [IH1 IH2]]; [done|]. cbn. by rewrite Ha, Hb. Qed.

Lemma setup_log c w u log w' : setup c w = (inr u, log, w') -> log = [Setup c None].
Proof.
  unfold setup. intros (a & l1 & w1 & l2 & E1 & E2 & ->)%ntry_inv. unfold ndo in E1.
  destruct (setup_api c w) as [[e|] w2]; injection E1 as <- <- <-; [done|]. by injection E2 as _ <- _.
Qed.
(** A start that gets past its cache has made its background goroutines. *)
Lemma start_cache_success cfg w u log w' : start_cache cfg w = (inr u, log, w') ->
  List.filter looks_up log = []
  /\ List.filter background log = (if (pc_HealthProbeAddr cfg =? "")%string then [] else [StartHealth]) ++ [StartCache].
Proof.
  unfold start_cache. intros E.
  do 2 (apply bind_success in E as (? & ? & ? & ? & ->%setup_log & E & ->)).
  apply bind_success in E as (? & ? & ? & ? & [= _ <- <-] & E & ->).
  do 4 (apply bind_success in E as (? & ? & ? & ? & ->%setup_log & E & ->)).
  apply bind_success in E as (? & ? & ? & ? & [= _ <- <-] & E & ->).
  apply bind_success in E as (ok & ? & ? & ? & E1 & E & ->).
  destruct (WaitForCacheSync _) as [ok' w5] in E1. injection E1 as -> <- <-. destruct ok; [|done]. cbn [negb] in E.
  apply bind_success in E as (? & ? & ? & ? & ->%setup_log & E & ->). apply setup_log in E as ->.
  by destruct (_ =? _)%string.
Qed.

Lemma plain_connect b e name extra : logs plain (endpoint_Connect b e name extra).
Proof. intros w r log w' (a & l1 & w1 & l2 & [= <- <- <-] & E2 & ->)%ntry_inv. destruct (endpoint_options e name extra) as [err|opts]; [by injection E2 as _ <- _; constructor|].
  revert E2. apply logs_do. done. Qed.
Lemma plain_output cfg : logs plain (connectOutput cfg).
Proof.
  unfold connectOutput. apply logs_try; [apply plain_connect|intros; apply logs_fail|intros _].
  apply logs_try; [by apply logs_do|intros; apply logs_bind; [by apply logs_say; repeat constructor|intros; apply logs_fail]|intros; apply logs_ret].
Qed.
Lemma start_nats_lookups cfg w u log w' : start_nats cfg w = (inr u, log, w') ->
  exists audit, List.filter looks_up log
      = (if auditConsumptionEnabled cfg then [ConsumerInfo (pc_NATSStreamName cfg) (pc_ConsumerName cfg) (inr audit)] else [])
        ++ [StreamInfo (output_broker cfg) (pc_OutputStreamName cfg) None]
    /\ List.filter background log = [].
Proof.
  unfold start_nats. intros E.
  assert (forall {A} e, always_fails (@nfail start_act W A e)) as Hf by (intros A e w0; by eexists _, _, _).
  assert (forall {A} b e, always_fails (@close_and_fail W A b e)) as Hc by (intros A b e w0; by eexists _, _, _).
  apply try_success in E as (u1 & l1 & w1 & k1 & E1%plain_connect%plain_filters & E & ->); [|by intros].
  apply try_success in E as (u2 & l2 & w2 & k2 & E2 & E & ->); [|by intros].
  apply (logs_do plain), plain_filters in E2; [|done].
  apply try_success in E as (u3 & l3 & w3 & k3 & E3 & E & ->); [|by intros].
  assert (logs plain (if usesSeparateOutputBroker cfg then connectOutput cfg else nret tt)) as H3
    by (destruct (usesSeparateOutputBroker cfg); [apply plain_output|apply logs_ret]).
  apply H3, plain_filters in E3.
  apply try_success in E as (u4 & l4 & w4 & k4 & Ea & E & ->); [|by intros].
  apply try_success in E as (u5 & l5 & w5 & k5 & Es & E & ->); [|by intros]. injection E as _ <- _.
  unfold find_stream, ndo in Es. destruct (js_StreamInfo _ _ _) as [[e|] w6]; [done|]. injection Es as _ <- _.
  assert (exists audit, l4 = if auditConsumptionEnabled cfg then [ConsumerInfo (pc_NATSStreamName cfg) (pc_ConsumerName cfg) (inr audit)] else [])
    as [audit ->].
  { destruct (auditConsumptionEnabled cfg); [|exists ""; by injection Ea as _ <- _].
    apply bind_success in Ea as (f & m1 & w7 & m2 & Ec & Em & ->). injection Em as _ <- _.
    unfold find_consumer, nask in Ec. destruct (js_ConsumerInfo _ _ _) as [r w8]. injection Ec as -> <- _. by exists f. }
  exists audit. destruct E1 as [L1 B1], E2 as [L2 B2], E3 as [L3 B3].
  rewrite !List.filter_app, L1, L2, L3, B1, B2, B3. by destruct (auditConsumptionEnabled cfg).
Qed.

(** What must be there to consume and publish. *)
Definition checked (cfg : ProcConfig) (log : list start_act) : Prop :=
  (auditConsumptionEnabled cfg = true -> exists f, ConsumerInfo (pc_NATSStreamName cfg) (pc_ConsumerName cfg) (inr f) ∈ log)
  /\ StreamInfo (output_broker cfg) (pc_OutputStreamName cfg) None ∈ log.
Lemma start_nats_checked cfg w u log w' : start_nats cfg w = (inr u, log, w') -> checked cfg log.
Proof.
  unfold start_nats. intros E.
  assert (forall {A} e, always_fails (@nfail start_act W A e)) as Hf by (intros A e w0; by eexists _, _, _).
  assert (forall {A} b e, always_fails (@close_and_fail W A b e)) as Hc by (intros A b e w0; by eexists _, _, _).
  apply try_success in E as (u1 & l1 & w1 & k1 & _ & E & ->); [|by intros].
  apply try_success in E as (u2 & l2 & w2 & k2 & _ & E & ->); [|by intros].
  apply try_success in E as (u3 & l3 & w3 & k3 & _ & E & ->); [|by intros].
  apply try_success in E as (u4 & l4 & w4 & k4 & Ea & E & ->); [|by intros].
  apply try_success in E as (u5 & l5 & w5 & k5 & Es & E & ->); [|by intros].
  split.
  - intros Ha. rewrite Ha in Ea. apply try_success in Ea as (f & m1 & w6 & m2 & Ec & _ & ->); [|by intros].
    unfold find_consumer, nask in Ec. destruct (js_ConsumerInfo _ _ _) as [r w7]. injection Ec as -> <- <-. exists f. set_solver.
  - unfold find_stream, ndo in Es. destruct (js_StreamInfo _ _ _) as [[e|] w6]; [done|]. injection Es as <- <-. set_solver.
Qed.

(** The goroutines of a started processor, and its readiness. *)
Definition started (cfg : ProcConfig) (p : Processor) : list start_act :=
  match pr_retry p with Some c => [StartRetry c] | None => [] end
  ++ (if auditConsumptionEnabled cfg then map StartWorker (seq 0 (pr_workers p)) ++ [StartMonitor] else [])
  ++ match pr_events p with Some f => [StartEvents f] | None => [] end ++ [SetReady true].
Lemma say_inv l w r log w' : @nsay start_act W l w = (r, log, w') -> r = inr tt /\ log = l /\ w' = w.
Proof. by intros [= <- <- <-]. Qed.
(** Nothing but actions that serve, none of which touches a connection. *)
Definition serving (l : list start_act) : Prop := opened l = [] /\ closed l = [] /\ List.filter serves l = l.
Lemma serving_app a b : serving a -> serving b -> serving (a ++ b).
Proof. unfold serving. intros (A1 & A2 & A3) (A4 & A5 & A6). by rewrite opened_app, closed_app, List.filter_app, A1, A2, A3, A4, A5, A6. Qed.
Lemma serving_filters l : serving l -> List.filter looks_up l = [] /\ List.filter background l = [].
Proof.
  intros (_ & _ & Hl). apply plain_filters, Forall_forall. intros a Ha%list_elem_of_In. rewrite <- Hl in Ha.
  apply List.filter_In in Ha as [_ Ha]. by destruct a.
Qed.
Lemma serving_workers n : serving (map StartWorker n).
Proof. induction n as [|x n (A1 & A2 & A3)]; [done|]. split_and!; [exact A1|exact A2|]. cbn. by f_equal. Qed.

Lemma initDLQ_result cfg w r log w' : initDLQPublisher cfg w = (r, log, w') ->
  exists dlq res, r = inr dlq
    /\ log = (if Enabled (pc_DLQ cfg) then [StreamInfo (output_broker cfg) (StreamName (pc_DLQ cfg)) res] else [])
    /\ Enabled dlq = (Enabled (pc_DLQ cfg) && found res)%bool /\ (Enabled dlq = true -> dlq = pc_DLQ cfg /\ StreamInfo (output_broker cfg) (StreamName (pc_DLQ cfg)) None ∈ log).
Proof.
  unfold initDLQPublisher. destruct (Enabled (pc_DLQ cfg)) eqn:Ed.
  - intros (a & l1 & w1 & l2 & E1 & E2 & ->)%ntry_inv. unfold find_stream, ndo in E1. destruct (js_StreamInfo _ _ _) as [[e|] w2];
      injection E1 as <- <- <-; injection E2 as <- <- <-; eexists.
    + exists (Some e). by split_and!.
    + exists None. split_and!; [done|done|by rewrite Ed|]. split; [done|set_solver].
  - intros [= <- <- <-]. exists (pc_DLQ cfg), None. rewrite Ed. by split_and!.
Qed.
Lemma start_workers_result cfg w r log w' :
  start_workers cfg w = (r, log, w') -> (auditConsumptionEnabled cfg = true -> (0 <= pc_Workers cfg)%Z) ->
  exists p, r = inr p /\ opened log = [] /\ closed log = [] /\ List.filter serves log = started cfg p
    /\ pr_retry p = retry_config cfg (pr_dlq p) /\ pr_workers p = (if auditConsumptionEnabled cfg then Z.to_nat (pc_Workers cfg) else 0)%nat
    /\ pr_output p = usesSeparateOutputBroker cfg /\ pr_health p = negb (pc_HealthProbeAddr cfg =? "")%string
    /\ (Enabled (pr_dlq p) = true -> pr_dlq p = pc_DLQ cfg /\ StreamInfo (output_broker cfg) (StreamName (pc_DLQ cfg)) None ∈ log)
    /\ (forall f, pr_events p = Some f -> ConsumerInfo (pc_NATSEventStream cfg) (pc_NATSEventConsumer cfg) (inr f) ∈ log)
    /\ List.filter background log = []
    /\ exists res ev, List.filter looks_up log
         = (if Enabled (pc_DLQ cfg) then [StreamInfo (output_broker cfg) (StreamName (pc_DLQ cfg)) res] else [])
           ++ [ConsumerInfo (pc_NATSEventStream cfg) (pc_NATSEventConsumer cfg) ev]
         /\ pr_retry p = retries cfg res /\ pr_events p = match ev with inr f => Some f | inl _ => None end.
Proof.
  unfold start_workers. intros (a1 & l1 & w1 & k1 & E1 & E & ->)%ntry_inv Hw.
  destruct (initDLQPublisher_quiet cfg _ _ _ _ E1) as (O1 & C1 & S1). apply initDLQ_result in E1 as (dlq & res & -> & Hl1 & Hen & Hdlq).
  apply ntry_inv in E as (a2 & l2 & w2 & k2 & (-> & -> & ->)%say_inv & E & ->).
  apply ntry_inv in E as (a3 & l3 & w3 & k3 & E3 & E & ->).
  assert (a3 = inr tt /\ w3 = w1 /\ l3 = (if auditConsumptionEnabled cfg then map StartWorker (seq 0 (Z.to_nat (pc_Workers cfg))) ++ [StartMonitor] else [])) as (-> & -> & ->).
  { destruct (auditConsumptionEnabled cfg); [|by injection E3 as <- <- <-]. destruct (Z.ltb_spec (pc_Workers cfg) 0); [by specialize (Hw eq_refl); lia|].
    by apply say_inv in E3 as (-> & -> & ->). }
  apply ntry_inv in E as (a4 & l4 & w4 & k4 & E4 & E & ->).
  assert (exists ev r', a4 = inr ev /\ l4 = [ConsumerInfo (pc_NATSEventStream cfg) (pc_NATSEventConsumer cfg) r'] /\ ev = match r' with inr f => Some f | inl _ => None end) as (ev & r' & -> & -> & Hev).
  { apply ntry_inv in E4 as (a & m1 & w5 & m2 & Ec & Ef & ->). unfold find_consumer, nask in Ec. destruct (js_ConsumerInfo _ _ _) as [r' w6].
    injection Ec as <- <- <-. destruct r' as [e|f]; injection Ef as <- <- <-; eexists _, _; (split; [done|split; [done|]]); done. }
  apply ntry_inv in E as (a5 & l5 & w5 & k5 & (-> & -> & ->)%say_inv & E & ->).
  apply ntry_inv in E as (a6 & l6 & w6 & k6 & (-> & -> & ->)%say_inv & E & ->). injection E as <- <- <-.
  eexists. split; [done|]. cbn [pr_retry pr_workers pr_output pr_health pr_dlq pr_events].
  set (workers := if auditConsumptionEnabled cfg then _ ++ _ else []).
  set (retry := match retry_config cfg dlq with Some c => [StartRetry c] | None => [] end).
  set (events := match ev with Some f => [StartEvents f] | None => [] end).
  assert (serving retry) as V2 by (unfold retry; by destruct (retry_config cfg dlq)).
  assert (serving workers) as V3 by (unfold workers; destruct (auditConsumptionEnabled cfg); [by apply serving_app; [apply serving_workers|]|done]).
  assert (serving events) as V4 by (unfold events; by destruct ev).
  destruct (serving_filters _ V2) as [L2 B2], (serving_filters _ V3) as [L3 B3], (serving_filters _ V4) as [L4 B4].
  destruct V2 as (O2 & C2 & S2), V3 as (O3 & C3 & S3), V4 as (O4 & C4 & S4).
  rewrite !opened_app, !closed_app, !List.filter_app, O1, C1, S1, O2, C2, S2, O3, C3, S3, O4, C4, S4. cbn [app].
  split_and!; try done.
  - unfold started. cbn [pr_retry pr_workers pr_events]. fold retry events. unfold workers. by destruct (auditConsumptionEnabled cfg).
  - intros [-> Hin]%Hdlq. split; [done|set_solver].
  - intros f Hf. rewrite Hf in Hev. destruct r' as [|f']; [done|]. injection Hev as ->. set_solver.
  - rewrite Hl1, B2, B3, B4. by destruct (Enabled (pc_DLQ cfg)).
  - exists res, r'. rewrite Hl1, L2, L3, L4. split_and!; [by destruct (Enabled (pc_DLQ cfg))| |done].
    unfold retry_config, retries. rewrite Hen. by destruct (rc_Enabled _), (Enabled _).
Qed.
End StartLemmas.

(* ------------------------------------------------------------------ *)
(** ** Theorems *)

(** C28: Starting is all or nothing.  When [Start] fails, every NATS connection
    it opened has been closed again, nothing consumes messages and the processor
    was never reported ready.  When it succeeds - the number of audit workers not
    being negative - exactly the configured connections are left open, the
    consumer of the audit stream (when one is configured) and the output stream
    were found, and what runs is exactly what the configuration and what was
    found ask for, readiness coming last: the retries exactly when they are
    enabled and dead letters are kept on the input broker in a stream that was
    found, the configured number of audit workers and their monitor, the event
    processor exactly when its consumer was found, the health server exactly when
    it has an address, and the policy cache. *)
Theorem start_all_or_nothing {W} `{StartIO W} `{TLSLib} `{GoUnicode} (cfg : ProcConfig) (w : W) r log w' :
  Start cfg w = (r, log, w') -> (auditConsumptionEnabled cfg = true -> (0 <= pc_Workers cfg)%Z) ->
  match r with
  | inl _ => opened log ≡ₚ closed log /\ List.filter serves log = []
  | inr p =>
      opened log ≡ₚ closed log ++ conns (usesSeparateOutputBroker cfg) /\ checked cfg log
      /\ List.filter serves log = started cfg p
      /\ pr_workers p = (if auditConsumptionEnabled cfg then Z.to_nat (pc_Workers cfg) else 0)%nat
      /\ (forall c, pr_retry p = Some c ->
            c = pc_Retry cfg /\ rc_Enabled c = true /\ usesSeparateOutputBroker cfg = false
            /\ Enabled (pc_DLQ cfg) = true /\ StreamInfo InputConn (StreamName (pc_DLQ cfg)) None ∈ log)
      /\ (forall f, pr_events p = Some f -> ConsumerInfo (pc_NATSEventStream cfg) (pc_NATSEventConsumer cfg) (inr f) ∈ log)
      /\ pr_output p = usesSeparateOutputBroker cfg /\ pr_health p = negb (pc_HealthProbeAddr cfg =? "")%string
      /\ List.filter background log = (if pr_health p then [StartHealth] else []) ++ [StartCache]
      /\ exists audit dlq events, List.filter looks_up log = lookups cfg audit dlq events
           /\ pr_retry p = retries cfg dlq
           /\ pr_events p = match events with inr f => Some f | inl _ => None end
  end.
Proof.
  intros (a1 & l1 & w1 & k1 & E1 & E & ->)%ntry_inv Hw. destruct (start_cache_quiet cfg _ _ _ _ E1) as (O1 & C1 & S1).
  destruct a1 as [e|[]]; [injection E as <- <- <-; rewrite !app_nil_r, O1, C1; done|].
  destruct (start_cache_success _ _ _ _ _ E1) as [L1 B1].
  apply ntry_inv in E as (a2 & l2 & w2 & k2 & E2 & E & ->). destruct (start_nats_leaves cfg _ _ _ _ E2) as [S2 O2].
  rewrite !opened_app, !closed_app, !List.filter_app, O1, C1, S1, S2. cbn [app] in *.
  destruct a2 as [e|u]; [injection E as <- <- <-; cbn in *; by rewrite !app_nil_r in *|].
  destruct (start_nats_lookups _ _ _ _ _ E2) as (audit & L2 & B2). apply start_nats_checked in E2 as [Hc1 Hc2].
  destruct (start_workers_result _ _ _ _ _ E Hw) as (p & -> & O3 & C3 & S3 & Hr & Hn & Hout & Hh & Hd & Hev & B3 & dlq & ev & L3 & Hretry & Hevents).
  rewrite O2, O3, C3, L1, L2, L3, B1, B2, B3, !app_nil_r. split_and!; try done.
  - split; [|set_solver]. intros Ha. destruct (Hc1 Ha) as [f Hf]. exists f. set_solver.
  - intros c Hc. rewrite Hr in Hc. unfold retry_config in Hc. destruct (rc_Enabled (pc_Retry cfg)) eqn:E4; [|done].
    destruct (Enabled (pr_dlq p)) eqn:E5; [|done]. destruct (usesSeparateOutputBroker cfg) eqn:E6; [done|]. injection Hc as <-.
    destruct (Hd eq_refl) as [Heq Hin]. unfold output_broker in Hin. rewrite E6 in Hin. split_and!; try done; [by rewrite <- Heq|set_solver].
  - intros f Hf. specialize (Hev f Hf). set_solver.
  - rewrite Hh. by destruct (_ =? _)%string.
  - exists audit, dlq, ev. split; [unfold lookups; by rewrite <- app_assoc|done].
Qed.

(** Readiness says that the processor started, that it was not stopped, and
    that its connections are up; nothing of its workers. *)
Lemma readyz_spec nc outputNC ready :
  readyz_ok nc outputNC ready = true <-> nc = Some true /\ outputNC <> Some false /\ ready = true.
Proof. destruct nc as [[]|], outputNC as [[]|], ready; cbn; split; try done; by intros (? & ? & ?). Qed.

Module ToyStart.
#[export] Instance tls : TLSLib := {|
  LoadX509KeyPair _ _ := inl (Ext "none"); ReadFile _ := inl (Ext "none"); CertsFromPEM _ := None |}.
(** Everything is there but the streams of a list. *)
#[export] Instance io : StartIO (list string) := {|
  setup_api _ w := (None, w); WaitForCacheSync w := (true, w); nats_Connect _ _ _ w := (None, w); conn_JetStream _ w := (None, w);
  js_ConsumerInfo stream _ w := (if bool_decide (stream ∈ w) then inl (Ext "not found") else inr (stream +:+ ".>"), w);
  js_StreamInfo _ stream w := (if bool_decide (stream ∈ w) then Some (Ext "not found") else None, w) |}.
Definition two_brokers : ProcConfig := processor_config {|
  po_Kubeconfig := ""; po_MasterURL := ""; po_Input := po_Input NewProcessorOptions; po_NATSStreamName := "AUDIT_EVENTS";
  po_ConsumerName := "c"; po_NATSEventStream := "EVENTS"; po_NATSEventConsumer := "e"; po_OutputStreamName := "ACTIVITIES";
  po_OutputSubjectPrefix := "activities"; po_Output := {| ep_URL := "nats://out"; ep_TLS := no_tls |};
  po_DLQ := po_DLQ NewProcessorOptions; po_Retry := po_Retry NewProcessorOptions; po_Workers := 2; po_BatchSize := 10;
  po_AckWait := 0; po_HealthProbeAddr := "" |}.
Definition start (cfg : ProcConfig) (missing : list string) := @Start (list string) io tls latin cfg missing.
End ToyStart.

Lemma start_all_or_nothing_witness :
  (exists e log w', ToyStart.start ToyStart.two_brokers ["ACTIVITIES"] = (inl e, log, w')
     /\ opened log ≡ₚ closed log /\ length (opened log) = 2%nat)
  /\ exists p log w', ToyStart.start ToyStart.two_brokers ["EVENTS"] = (inr p, log, w')
     /\ List.filter serves log = [StartWorker 0; StartWorker 1; StartMonitor; SetReady true].
Proof.
  split.
  - destruct (ToyStart.start ToyStart.two_brokers ["ACTIVITIES"]) as [[r log] w'] eqn:E.
    pose proof (@start_all_or_nothing (list string) ToyStart.io ToyStart.tls latin ToyStart.two_brokers _ _ _ _ E) as H.
    assert (length (opened log) = 2%nat) as Hl by (vm_compute in E; by injection E as <- <- <-).
    destruct r as [e|p]; [|vm_compute in E; discriminate E]. exists e, log, w'. split_and!; [done|apply H; discriminate|done].
  - destruct (ToyStart.start ToyStart.two_brokers ["EVENTS"]) as [[r log] w'] eqn:E.
    pose proof (@start_all_or_nothing (list string) ToyStart.io ToyStart.tls latin ToyStart.two_brokers _ _ _ _ E) as H.
    destruct r as [e|p]; [vm_compute in E; discriminate E|]. exists p, log, w'. split; [done|].
    destruct H as (_ & _ & -> & _); [discriminate|]. vm_compute in E. injection E as <- <- <-. reflexivity.
Defined.

(** The default configuration has no subjects for the retries, unlike the
    default options: dead letters would be republished to the empty subject. *)
Lemma default_config_no_retry_subjects :
  AuditRetrySubject (pc_Retry DefaultConfig) = "" /\ AuditRetrySubject (pc_Retry (processor_config NewProcessorOptions)) = "audit.k8s.retry".
Proof. done. Qed.
