(* ===== verification/ProcLife.v ===== *)
(** * The life of a started activity processor

    internal/activityprocessor/processor.go, [worker], [monitorWorkers] and
    [Stop], with the goroutines [Start] leaves running; internal/processor/event.go,
    [Run] and [worker]; dlq_retry.go, the loop of [Start].  The processor is a
    step relation: each label is a step of one goroutine, or something its
    environment does, and any interleaving of them is a run. *)

From Stdlib Require Import Ascii String.
From stdpp Require Import base numbers list strings gmap pretty.
From Stdlib Require Import ZArith Lia.
From S2P Require Import Prelude GoLib Calls GoFmt Types TimeUtil CelPolicy Activity Dlq EventProc GoSlice PolicyCache AuditProc DlqRetry Nkeys ProcStart.

(* ------------------------------------------------------------------ *)
(** ** The workers *)

Inductive wkind := AuditWorker | EventWorker.
#[export] Instance wkind_eq_dec : EqDecision wkind.
Proof. solve_decision. Defined.
(** Where a worker is: subscribing, at the top of its loop, fetching, with the
    rest of a batch, or returned. *)
Inductive wpc := Subscribing | AtTop | Fetching | InBatch (rest : list string) | Exited.
Record worker := { w_kind : wkind; w_pc : wpc }.

(** What a handler sees: the clock, the policy cache, the JetStream context. *)
Record environment `{CelEngine} := { en_now : time; en_cache : PolicyCache; en_js : JetStream }.

(** A message settled by a worker: what handling it did and returned, and the
    answer it was given. *)
Record settled := {
  se_worker : nat; se_msg : string; se_effects : list effect; se_err : option error; se_disposition : disposition }.

Record pool := {
  k_workers : list worker;
  k_errors : list error;               (* the channel of worker errors *)
  k_fetched : list (nat * string);     (* all messages fetched so far, by worker *)
  k_settled : list settled }.

Section Workers.
Context `{CelEngine} `{ActivityLib} `{AuditIO} `{EvalJson} `{DlqJson}.
Context (cfg : ProcConfig) (dlq : DLQConfig) (rk : KindResolver).

(** [processMessage] of either processor. *)
Definition worker_process (k : wkind) (e : environment) (data : string) : list effect * option error :=
  let publisher := @NewDLQPublisher (en_js e) _ dlq in
  match k with
  | AuditWorker => @audit_processMessage _ _ (en_js e) _ publisher (pc_OutputSubjectPrefix cfg) rk (en_now e) (en_cache e) data
  | EventWorker =>
      let (log, r) := @processMessage _ _ (en_js e) (cache_lookup (en_cache e)) publisher (pc_OutputSubjectPrefix cfg) (en_now e) data in
      (map EPub log, r)
  end.

Inductive worker_label :=
| Subscribe (r : option error)
| Top
| Fetched (r : error + list string)
| Handle (e : environment).

Definition set_pc (i : nat) (w : worker) (pc : wpc) (p : pool) : pool :=
  {| k_workers := <[i := {| w_kind := w_kind w; w_pc := pc |}]> (k_workers p); k_errors := k_errors p;
     k_fetched := k_fetched p; k_settled := k_settled p |}.
Definition next_pc (rest : list string) : wpc := match rest with [] => AtTop | _ => InBatch rest end.

(** A step of worker [i]; the channel has room for one error per worker, and a
    worker blocks on a full one. *)
Definition worker_step (i : nat) (l : worker_label) (ctx_done : bool) (p : pool) : option pool :=
  match k_workers p !! i with
  | None => None
  | Some w =>
      match w_pc w, l with
      | Subscribing, Subscribe None => Some (set_pc i w AtTop p)
      | Subscribing, Subscribe (Some e) =>
          match w_kind w with
          | EventWorker => Some (set_pc i w Exited p)
          | AuditWorker =>
              if (Z.of_nat (length (k_errors p)) <? pc_Workers cfg)%Z then
                let p' := set_pc i w Exited p in
                Some {| k_workers := k_workers p';
                        k_errors := k_errors p ++ [wrap_with ("worker " +:+ pretty (Z.of_nat i) +:+ ": failed to create subscription: ") e];
                        k_fetched := k_fetched p; k_settled := k_settled p |}
              else None
          end
      | AtTop, Top => Some (set_pc i w (if ctx_done then Exited else Fetching) p)
      | Fetching, Fetched (inl _) => Some (set_pc i w AtTop p)
      | Fetching, Fetched (inr msgs) =>
          if (Z.of_nat (length msgs) <=? pc_BatchSize cfg)%Z then
            let p' := set_pc i w (next_pc msgs) p in
            Some {| k_workers := k_workers p'; k_errors := k_errors p;
                    k_fetched := k_fetched p ++ map (fun m => (i, m)) msgs; k_settled := k_settled p |}
          else None
      | InBatch (msg :: rest), Handle e =>
          let (log, err) := worker_process (w_kind w) e msg in
          let p' := set_pc i w (next_pc rest) p in
          Some {| k_workers := k_workers p'; k_errors := k_errors p; k_fetched := k_fetched p;
                  k_settled := k_settled p ++ [{| se_worker := i; se_msg := msg; se_effects := log; se_err := err;
                                                  se_disposition := match err with Some _ => Naked | None => Acked end |}] |}
      | _, _ => None
      end
  end.
End Workers.

Definition has_exited (w : worker) : bool := match w_pc w with Exited => true | _ => false end.
(** All workers of a kind have returned. *)
Definition all_exited (k : wkind) (p : pool) : bool :=
  forallb (fun w => negb (bool_decide (w_kind w = k)) || has_exited w)%bool (k_workers p).

(* ------------------------------------------------------------------ *)
(** ** The other goroutines *)

(** The cache, the retry controller (making its ticker, in a run, or at its
    select), [Run] of the event processor (waiting for the context, then for its
    workers), and the monitor of the workers. *)
Inductive retry_pc := RetryStarting | InRun | AtSelect | RetryDone.
#[export] Instance retry_pc_eq_dec : EqDecision retry_pc.
Proof. solve_decision. Defined.
Inductive events_pc := AwaitCtx | AwaitWorkers | EventsDone.
Record side := { d_cache : bool (* running *); d_retry : option retry_pc; d_events : option events_pc; d_monitor : bool }.

Inductive side_label := CacheReturns | RetryStarts | RetryRunEnds | RetryTick | RetryStops | EventsCtx | EventsJoined | MonitorStops.
#[export] Instance side_label_eq_dec : EqDecision side_label.
Proof. solve_decision. Defined.
(** [d_cache]: the cache may fail at any time; it stops with the context.
    [NewTicker] panics, and takes the process with it, when the interval is not
    positive: such a controller has no step, and the runs of the processor are
    those before the panic (see [retry_panics]). *)
Definition side_step (interval : Z) (l : side_label) (ctx_done events_exited : bool) (d : side) : option side :=
  let set_retry r := Some {| d_cache := d_cache d; d_retry := Some r; d_events := d_events d; d_monitor := d_monitor d |} in
  let set_events e := Some {| d_cache := d_cache d; d_retry := d_retry d; d_events := Some e; d_monitor := d_monitor d |} in
  match l, d_retry d, d_events d with
  | CacheReturns, _, _ =>
      if d_cache d then Some {| d_cache := false; d_retry := d_retry d; d_events := d_events d; d_monitor := d_monitor d |} else None
  | RetryStarts, Some RetryStarting, _ => if (0 <? interval)%Z then set_retry InRun else None
  | RetryRunEnds, Some InRun, _ => set_retry AtSelect
  | RetryTick, Some AtSelect, _ => set_retry InRun
  | RetryStops, Some AtSelect, _ => if ctx_done then set_retry RetryDone else None
  | EventsCtx, _, Some AwaitCtx => if ctx_done then set_events AwaitWorkers else None
  | EventsJoined, _, Some AwaitWorkers => if events_exited then set_events EventsDone else None
  | MonitorStops, _, _ =>
      if (d_monitor d && ctx_done)%bool
      then Some {| d_cache := d_cache d; d_retry := d_retry d; d_events := d_events d; d_monitor := false |} else None
  | _, _, _ => None
  end.
Definition side_done (d : side) : bool :=
  (negb (d_cache d) && match d_retry d with Some RetryStarting | Some InRun | Some AtSelect => false | _ => true end
   && match d_events d with Some AwaitCtx | Some AwaitWorkers => false | _ => true end)%bool.

(* ------------------------------------------------------------------ *)
(** ** [RunProcessor] and [Stop] *)

(** The end of [Start]; the wait for the signal; in [Stop]: the wait for the
    goroutines, the health server, the two connections; returned. *)
Inductive main_pc := Starting | Serving | Joining | ClosingHealth | DrainingInput | DrainingOutput | Stopped.
Inductive conn := ConnOpen | ConnDraining | ConnClosed.
Record main := {
  m_pc : main_pc; m_ready : bool;
  m_health : option bool;    (* the health server's goroutine, if any: running or returned *)
  m_shutdown : bool;         (* its [Shutdown] was called *)
  m_input : conn; m_output : option conn }.

Inductive drain_result := Drained | DrainFailed | DrainTimedOut.
(** A closed connection is left alone; one that fails to drain is closed. *)
Definition drain (r : drain_result) (c : conn) : conn :=
  match c, r with
  | ConnClosed, _ => ConnClosed
  | _, Drained => ConnDraining
  | _, _ => ConnClosed
  end.

Inductive main_label := StartReturns | StopCalled | Joined | HealthShutdown | HealthFails | HealthReturns | DrainInput (r : drain_result) | DrainOutput (r : drain_result).
Definition main_step (l : main_label) (ctx_done others_done : bool) (m : main) : option main :=
  let at_pc pc ready := Some {| m_pc := pc; m_ready := ready; m_health := m_health m; m_shutdown := m_shutdown m;
                                m_input := m_input m; m_output := m_output m |} in
  let health h s pc := Some {| m_pc := pc; m_ready := m_ready m; m_health := h; m_shutdown := s;
                               m_input := m_input m; m_output := m_output m |} in
  match l, m_pc m with
  | StartReturns, Starting => at_pc Serving true
  | StopCalled, Serving => if ctx_done then at_pc Joining false else None
  | Joined, Joining =>
      if (others_done && match m_health m with Some true => false | _ => true end)%bool then
        match m_health m with None => at_pc DrainingInput (m_ready m) | Some _ => at_pc ClosingHealth (m_ready m) end
      else None
  | HealthShutdown, ClosingHealth => health (m_health m) true DrainingInput
  | HealthFails, pc => match m_health m with Some true => health (Some false) (m_shutdown m) pc | _ => None end
  | HealthReturns, pc =>
      match m_health m with Some true => if m_shutdown m then health (Some false) true pc else None | _ => None end
  | DrainInput r, DrainingInput =>
      Some {| m_pc := match m_output m with Some _ => DrainingOutput | None => Stopped end; m_ready := m_ready m;
              m_health := m_health m; m_shutdown := m_shutdown m; m_input := drain r (m_input m); m_output := m_output m |}
  | DrainOutput r, DrainingOutput =>
      Some {| m_pc := Stopped; m_ready := m_ready m; m_health := m_health m; m_shutdown := m_shutdown m;
              m_input := m_input m; m_output := drain r <$> m_output m |}
  | _, _ => None
  end.

(* ------------------------------------------------------------------ *)
(** ** The whole *)

Record state := { s_ctx : bool (* the signal's context is done *); s_main : main; s_side : side; s_pool : pool }.

Section Life.
Context `{CelEngine} `{ActivityLib} `{AuditIO} `{EvalJson} `{DlqJson}.
Context (cfg : ProcConfig) (dlq : DLQConfig) (rk : KindResolver).

Inductive label := Signal | Main (l : main_label) | Side (l : side_label) | MonitorReads | Worker (i : nat) (l : worker_label).

(** [p.wg] at zero, the health server's goroutine apart. *)
Definition others_done (s : state) : bool := (side_done (s_side s) && all_exited AuditWorker (s_pool s))%bool.

Definition step (l : label) (s : state) : option state :=
  match l with
  | Signal => if s_ctx s then None else Some {| s_ctx := true; s_main := s_main s; s_side := s_side s; s_pool := s_pool s |}
  | Main l => (fun m => {| s_ctx := s_ctx s; s_main := m; s_side := s_side s; s_pool := s_pool s |})
                <$> main_step l (s_ctx s) (others_done s) (s_main s)
  | Side l => (fun d => {| s_ctx := s_ctx s; s_main := s_main s; s_side := d; s_pool := s_pool s |})
                <$> side_step (Interval (pc_Retry cfg)) l (s_ctx s) (all_exited EventWorker (s_pool s)) (s_side s)
  | MonitorReads =>
      match d_monitor (s_side s), k_errors (s_pool s) with
      | true, _ :: rest => Some {| s_ctx := s_ctx s; s_main := s_main s; s_side := s_side s;
                                   s_pool := {| k_workers := k_workers (s_pool s); k_errors := rest;
                                                k_fetched := k_fetched (s_pool s); k_settled := k_settled (s_pool s) |} |}
      | _, _ => None
      end
  | Worker i l => (fun p => {| s_ctx := s_ctx s; s_main := s_main s; s_side := s_side s; s_pool := p |})
                    <$> worker_step cfg dlq rk i l (s_ctx s) (s_pool s)
  end.

(** What [Start] has made when all its goroutines are started. *)
Definition launched (p : Processor) : state := {|
  s_ctx := false;
  s_main := {| m_pc := Starting; m_ready := false; m_health := if pr_health p then Some true else None; m_shutdown := false;
               m_input := ConnOpen; m_output := if pr_output p then Some ConnOpen else None |};
  s_side := {| d_cache := true; d_retry := (fun _ => RetryStarting) <$> pr_retry p; d_events := (fun _ => AwaitCtx) <$> pr_events p;
               d_monitor := auditConsumptionEnabled cfg |};
  s_pool := {| k_workers := replicate (pr_workers p) {| w_kind := AuditWorker; w_pc := Subscribing |}
                            ++ match pr_events p with
                               | Some _ => replicate (Z.to_nat (pc_Workers cfg)) {| w_kind := EventWorker; w_pc := Subscribing |}
                               | None => []
                               end;
               k_errors := []; k_fetched := []; k_settled := [] |} |}.

Fixpoint run (ls : list label) (s : state) : option state :=
  match ls with [] => Some s | l :: ls => match step l s with Some s' => run ls s' | None => None end end.
(** The ticker of the retry controller is about to panic. *)
Definition retry_panics (s : state) : Prop :=
  d_retry (s_side s) = Some RetryStarting /\ (Interval (pc_Retry cfg) <= 0)%Z.
Inductive reachable (p : Processor) : state -> Prop :=
| reachable_start : reachable p (launched p)
| reachable_next l s s' : reachable p s -> step l s = Some s' -> reachable p s'.
End Life.

(* ------------------------------------------------------------------ *)
(** ** Lemmas: the pool of workers *)

Definition fetched_by (i : nat) (p : pool) : list string := omap (fun '(j, m) => if (j =? i)%nat then Some m else None) (k_fetched p).
Definition settled_by (i : nat) (p : pool) : list string :=
  omap (fun e => if (se_worker e =? i)%nat then Some (se_msg e) else None) (k_settled p).
Definition in_hand (i : nat) (p : pool) : list string :=
  match k_workers p !! i with Some w => match w_pc w with InBatch rest => rest | _ => [] end | None => [] end.
(** An audit worker that may still report an error. *)
Definition awaits (w : worker) : bool := match w_kind w, w_pc w with AuditWorker, Subscribing => true | _, _ => false end.
Definition subscribing (p : pool) : nat :=
  length (List.filter awaits (k_workers p)).

Lemma all_exited_spec (k : wkind) (p : pool) :
  all_exited k p = true <-> forall i w, k_workers p !! i = Some w -> w_kind w = k -> w_pc w = Exited.
Proof.
  unfold all_exited. rewrite List.forallb_forall. split.
  - intros Hf i w Hw Hk. specialize (Hf w). rewrite <- list_elem_of_In in Hf. specialize (Hf (list_elem_of_lookup_2 _ _ _ Hw)).
    rewrite bool_decide_eq_true_2 in Hf by done. cbn in Hf. unfold has_exited in Hf. by destruct (w_pc w).
  - intros Hf w [i Hi]%list_elem_of_In%list_elem_of_lookup. destruct (decide (w_kind w = k)) as [Hk|Hk].
    + unfold has_exited. by rewrite (Hf i w Hi Hk), orb_true_r.
    + by rewrite bool_decide_eq_false_2.
Qed.
Lemma fetched_batch (i j : nat) (msgs : list string) :
  omap (fun '(j, m) => if (j =? i)%nat then Some m else None) (map (fun m => (j, m)) msgs) = if (j =? i)%nat then msgs else [].
Proof. induction msgs as [|m msgs IH]; cbn; [by destruct (j =? i)%nat|]. rewrite IH. by destruct (j =? i)%nat. Qed.
Lemma filter_insert_length {A} (f : A -> bool) (l : list A) i w w' :
  l !! i = Some w ->
  (length (List.filter f (<[i := w']> l)) + (if f w then 1 else 0) = length (List.filter f l) + (if f w' then 1 else 0))%nat.
Proof.
  revert i. induction l as [|x l IH]; intros i Hi; [done|]. destruct i as [|i].
  - injection Hi as ->. change (<[0%nat:=w']> (w :: l)) with (w' :: l). cbn [List.filter]. destruct (f w), (f w'); cbn [length]; lia.
  - change (<[S i:=w']> (x :: l)) with (x :: <[i:=w']> l). specialize (IH i Hi). cbn [List.filter]. destruct (f x); cbn [length]; lia.
Qed.

Section PoolLemmas.
Context `{CelEngine} `{ActivityLib} `{AuditIO} `{EvalJson} `{DlqJson}.
Context (cfg : ProcConfig) (dlq : DLQConfig) (rk : KindResolver).

(** What a step of a worker changes. *)
Lemma worker_step_shape i l ctx p p' :
  worker_step cfg dlq rk i l ctx p = Some p' ->
  exists w pc, k_workers p !! i = Some w /\ w_pc w <> Exited /\ pc <> Subscribing
    /\ k_workers p' = <[i := {| w_kind := w_kind w; w_pc := pc |}]> (k_workers p)
    /\ ((k_fetched p' = k_fetched p /\ k_settled p' = k_settled p /\ in_hand i p = [] /\ (forall rest, pc <> InBatch rest)
         /\ (k_errors p' = k_errors p
             \/ (Z.of_nat (length (k_errors p)) < pc_Workers cfg)%Z /\ length (k_errors p') = S (length (k_errors p)) /\ w_kind w = AuditWorker /\ w_pc w = Subscribing))
        \/ (exists msgs, k_fetched p' = k_fetched p ++ map (fun m => (i, m)) msgs /\ k_settled p' = k_settled p /\ k_errors p' = k_errors p
              /\ in_hand i p = [] /\ pc = next_pc msgs)
        \/ (exists msg rest e log err, worker_process cfg dlq rk (w_kind w) e msg = (log, err) /\ k_errors p' = k_errors p
              /\ in_hand i p = msg :: rest /\ pc = next_pc rest /\ k_fetched p' = k_fetched p
              /\ k_settled p' = k_settled p ++ [{| se_worker := i; se_msg := msg; se_effects := log; se_err := err;
                                                   se_disposition := match err with Some _ => Naked | None => Acked end |}])).
Proof.
  unfold worker_step, in_hand. destruct (k_workers p !! i) as [w|] eqn:Ew; [|done].
  destruct (w_pc w) as [| | |[|msg rest]|] eqn:Epc; try (by destruct l).
  - destruct l as [[e|]| | |]; try done.
    + destruct (w_kind w) eqn:Ek.
      * destruct (Z.ltb_spec (Z.of_nat (length (k_errors p))) (pc_Workers cfg)); [|done]. intros [= <-]. exists w, Exited.
        rewrite Epc, Ek. split_and!; try done. left. split_and!; try done. right. cbn [k_errors]. rewrite length_app. cbn [length]. split_and!; [done|lia|done|done].
      * intros [= <-]. exists w, Exited. rewrite Epc, Ek. cbn. rewrite Ek. split_and!; try done. left. split_and!; try done. by left.
    + intros [= <-]. exists w, AtTop. rewrite Epc. split_and!; try done. left. split_and!; try done. by left.
  - destruct l; try done. intros [= <-]. exists w, (if ctx then Exited else Fetching). rewrite Epc. split_and!; try done; [by destruct ctx|].
    left. split_and!; try done; [by destruct ctx|by left].
  - destruct l as [| |[e|msgs]|]; try done.
    + intros [= <-]. exists w, AtTop. rewrite Epc. split_and!; try done. left. split_and!; try done. by left.
    + destruct (_ <=? _)%Z; [|done]. intros [= <-]. exists w, (next_pc msgs). rewrite Epc. split_and!; try done; [by destruct msgs|].
      right; left. by exists msgs.
  - destruct l as [| | |e]; try done. destruct (worker_process _ _ _ _ _ _) as [log err] eqn:Ep. intros [= <-]. exists w, (next_pc rest). rewrite Epc.
    split_and!; try done; [by destruct rest|]. right; right. by exists msg, rest, e, log, err.
Qed.

Lemma worker_step_exited k i l ctx p p' :
  worker_step cfg dlq rk i l ctx p = Some p' -> all_exited k p = true -> all_exited k p' = true.
Proof.
  intros (w & pc & Hw & Hne & _ & Hk & _)%worker_step_shape. rewrite !all_exited_spec, Hk. intros Ha j w' Hj Hkind.
  destruct (decide (j = i)) as [->|Hji].
  - rewrite list_lookup_insert_eq in Hj by (by eapply lookup_lt_Some). injection Hj as <-. cbn in *. by destruct (Hne (Ha i w Hw Hkind)).
  - rewrite list_lookup_insert_ne in Hj by done. by apply (Ha j w').
Qed.

(** Each worker has settled what it fetched, in order, but what it holds. *)
Definition accounted (p : pool) : Prop := forall i, fetched_by i p = settled_by i p ++ in_hand i p.
Definition answered (e : settled) : Prop :=
  se_err e = None /\ se_disposition e = Acked \/ is_Some (se_err e) /\ se_disposition e = Naked.
Definition handled (p : pool) : Prop := Forall (fun e => exists w env,
  k_workers p !! se_worker e = Some w
  /\ worker_process cfg dlq rk (w_kind w) env (se_msg e) = (se_effects e, se_err e) /\ answered e) (k_settled p).

Lemma worker_step_accounted i l ctx p p' : worker_step cfg dlq rk i l ctx p = Some p' -> accounted p -> accounted p'.
Proof.
  intros (w & pc & Hw & Hne & _ & Hk & Hcase)%worker_step_shape Ha j. specialize (Ha j). unfold fetched_by, settled_by in *.
  assert (in_hand j p' = if (i =? j)%nat then match pc with InBatch rest => rest | _ => [] end else in_hand j p) as Hh.
  { unfold in_hand. rewrite Hk. destruct (Nat.eqb_spec i j) as [<-|Hij].
    - by rewrite list_lookup_insert_eq by (by eapply lookup_lt_Some).
    - by rewrite list_lookup_insert_ne. }
  rewrite Hh. destruct Hcase as [(-> & -> & Hi & Hpc & _)|[(msgs & -> & -> & _ & Hi & ->)|(msg & rest & e & log & err & _ & _ & Hi & -> & -> & ->)]].
  - destruct (Nat.eqb_spec i j) as [<-|]; [|done]. rewrite Ha, Hi. destruct pc; try done. by destruct (Hpc rest).
  - rewrite omap_app, fetched_batch, Ha. destruct (Nat.eqb_spec i j) as [<-|]; [|by rewrite app_nil_r].
    rewrite Hi, app_nil_r. f_equal. by destruct msgs.
  - rewrite omap_app, Ha. cbn. destruct (Nat.eqb_spec i j) as [<-|]; [|by rewrite app_nil_r].
    rewrite Hi, <- app_assoc. f_equal. by destruct rest.
Qed.
Lemma worker_step_handled i l ctx p p' : worker_step cfg dlq rk i l ctx p = Some p' -> handled p -> handled p'.
Proof.
  intros (w & pc & Hw & Hne & _ & Hk & Hcase)%worker_step_shape Ha. unfold handled in *.
  assert (forall j w0, k_workers p !! j = Some w0 -> exists w1, k_workers p' !! j = Some w1 /\ w_kind w1 = w_kind w0) as Hkind.
  { intros j w0 Hj. rewrite Hk. destruct (decide (j = i)) as [->|Hji].
    - rewrite list_lookup_insert_eq by (by eapply lookup_lt_Some). eexists. split; [done|]. cbn. by simplify_eq.
    - rewrite list_lookup_insert_ne by done. by exists w0. }
  assert (Forall (fun e => exists w env, k_workers p' !! se_worker e = Some w
      /\ worker_process cfg dlq rk (w_kind w) env (se_msg e) = (se_effects e, se_err e) /\ answered e) (k_settled p)) as Hold.
  { eapply Forall_impl; [exact Ha|]. intros e (w0 & env & Hj & Hp). destruct (Hkind _ _ Hj) as (w1 & H1j & H1k). exists w1, env. by rewrite H1k. }
  destruct Hcase as [(_ & -> & _)|[(msgs & _ & -> & _)|(msg & rest & e & log & err & Hp & _ & _ & _ & _ & ->)]]; [done|done|].
  apply Forall_app. split; [done|]. apply Forall_cons. split; [|done]. destruct (Hkind _ _ Hw) as (w1 & H1j & H1k).
  exists w1, e. cbn. rewrite H1k. split_and!; [done|done|]. destruct err; [by right|by left].
Qed.

(** The channel of errors never fills up before the last worker has sent. *)
Definition has_room (p : pool) : Prop := (Z.of_nat (length (k_errors p) + subscribing p) <= Z.max 0 (pc_Workers cfg))%Z.
Lemma worker_step_room i l ctx p p' : worker_step cfg dlq rk i l ctx p = Some p' -> has_room p -> has_room p'.
Proof.
  intros (w & pc & Hw & Hne & Hns & Hk & Hcase)%worker_step_shape Hr. unfold has_room, subscribing in *. rewrite Hk.
  pose proof (filter_insert_length awaits (k_workers p) i w {| w_kind := w_kind w; w_pc := pc |} Hw) as Hs.
  assert (awaits {| w_kind := w_kind w; w_pc := pc |} = false) as E by (unfold awaits; cbn; by destruct (w_kind w), pc).
  rewrite E in Hs.
  destruct Hcase as [(_ & _ & _ & _ & [->|(_ & -> & Ha & Hsub)])|[(msgs & _ & _ & -> & _)|(msg & rest & e & log & err & _ & -> & _)]].
  2: { unfold awaits at 2 in Hs. rewrite Hsub, Ha in Hs. rewrite Ha. lia. }
  all: destruct (awaits w) in Hs; lia.
Qed.
End PoolLemmas.

Lemma all_exited_false (k : wkind) (p : pool) :
  all_exited k p = false -> exists i w, k_workers p !! i = Some w /\ w_kind w = k /\ w_pc w <> Exited.
Proof.
  unfold all_exited. induction (k_workers p) as [|w l IH]; [done|]. cbn [forallb]. intros [Hw|Hl]%andb_false_iff.
  - exists 0%nat, w. apply orb_false_iff in Hw as [Hk He]. apply negb_false_iff, bool_decide_eq_true in Hk.
    split_and!; [done|done|]. intros Hx. unfold has_exited in He. by rewrite Hx in He.
  - destruct (IH Hl) as (i & w' & ? & ? & ?). by exists (S i), w'.
Qed.

(* ------------------------------------------------------------------ *)
(** ** Lemmas: the processor *)

(** Before [Stop] has waited for the goroutines. *)
Definition before_join (pc : main_pc) : bool := match pc with Starting | Serving | Joining => true | _ => false end.

Section LifeLemmas.
Context `{CelEngine} `{ActivityLib} `{AuditIO} `{EvalJson} `{DlqJson}.
Context (cfg : ProcConfig) (dlq : DLQConfig) (rk : KindResolver) (p : Processor).
(** [Start] made it. *)
Definition launchable : Prop := (pr_workers p <= Z.to_nat (pc_Workers cfg))%nat.

Record life_inv (s : state) : Prop := {
  inv_ready : m_ready (s_main s) = true <-> m_pc (s_main s) = Serving;
  inv_ctx : m_pc (s_main s) <> Starting -> m_pc (s_main s) <> Serving -> s_ctx s = true;
  inv_early : before_join (m_pc (s_main s)) = true ->
    m_input (s_main s) = ConnOpen /\ m_output (s_main s) = (if pr_output p then Some ConnOpen else None) /\ m_shutdown (s_main s) = false;
  inv_joined : before_join (m_pc (s_main s)) = false -> others_done s = true /\ m_health (s_main s) <> Some true;
  inv_events : match d_events (s_side s) with Some EventsDone | None => all_exited EventWorker (s_pool s) = true | _ => True end;
  inv_health : m_health (s_main s) <> None <-> pr_health p = true;
  inv_batch : forall i w, k_workers (s_pool s) !! i = Some w -> w_pc w <> InBatch [];
  inv_accounted : accounted (s_pool s);
  inv_handled : handled cfg dlq rk (s_pool s);
  inv_room : has_room cfg (s_pool s) }.

Lemma launched_workers i w : k_workers (s_pool (launched cfg p)) !! i = Some w ->
  w_pc w = Subscribing /\ (w_kind w = EventWorker -> pr_events p <> None).
Proof using Type.
  intros Hw%list_elem_of_lookup_2. cbn in Hw. apply elem_of_app in Hw as [->%elem_of_replicate_inv|Hw]; [done|].
  destruct (pr_events p); [by apply elem_of_replicate_inv in Hw as ->|by apply elem_of_nil in Hw].
Qed.
Lemma launched_subscribing : subscribing (s_pool (launched cfg p)) = pr_workers p.
Proof using Type.
  unfold subscribing. cbn [s_pool launched k_workers]. rewrite List.filter_app, length_app.
  assert (forall n, length (List.filter awaits (replicate n {| w_kind := AuditWorker; w_pc := Subscribing |})) = n) as ->
    by (induction n as [|n IH]; [done|cbn; by f_equal]).
  enough (forall l, Forall (fun w => w_kind w = EventWorker) l -> List.filter awaits l = []) as ->; [cbn; lia|..].
  - destruct (pr_events p); [|done]. apply Forall_forall. by intros w ->%elem_of_replicate_inv.
  - induction 1 as [|w l Hw _ IH]; [done|]. cbn. unfold awaits at 1. by rewrite Hw, IH.
Qed.

Lemma launched_inv : launchable -> life_inv (launched cfg p).
Proof using Type.
  intros Hl.
  assert (has_room cfg (s_pool (launched cfg p))) as Hroom.
  { unfold has_room. rewrite launched_subscribing. cbn. unfold launchable in Hl. lia. }
  split; cbn [launched s_main s_ctx s_side s_pool m_pc m_ready m_health m_input m_output m_shutdown d_events before_join]; try done.
  - destruct (pr_events p) eqn:Ee; [done|]. apply List.forallb_forall. intros w Hw%list_elem_of_In.
    cbn in Hw. rewrite app_nil_r in Hw. by apply elem_of_replicate_inv in Hw as ->.
  - destruct (pr_health p); split; congruence.
  - intros i w Hw. destruct (launched_workers i w Hw) as [-> _]. done.
  - intros i. unfold fetched_by, settled_by, in_hand. cbn [launched s_pool k_fetched k_settled omap]. cbn.
    match goal with |- context [?l !! i] => destruct (l !! i) as [w|] eqn:Ew; [|done] end.
    by destruct (launched_workers i w Ew) as [-> _].
  - apply Forall_nil. done.
Qed.

Lemma others_done_step s l s' : step cfg dlq rk l s = Some s' -> others_done s = true -> others_done s' = true.
Proof using Type.
  unfold others_done. intros Hs [Hd Ha]%andb_prop. destruct l as [|l|l| |i l]; cbn in Hs.
  - destruct (s_ctx s); [done|]. injection Hs as <-. cbn. by rewrite Hd.
  - apply fmap_Some in Hs as (m & _ & ->). cbn. by rewrite Hd.
  - apply fmap_Some in Hs as (d & Hs & ->). cbn. rewrite Ha, andb_true_r. revert Hd Hs. unfold side_done, side_step.
    destruct (d_cache (s_side s)); [done|]. destruct (d_retry (s_side s)) as [[]|], (d_events (s_side s)) as [[]|]; try done;
      destruct l; try done; destruct (d_monitor (s_side s)), (s_ctx s), (0 <? Interval (pc_Retry cfg))%Z; try done; intros _ [= <-]; done.
  - destruct (d_monitor (s_side s)); [|done]. destruct (k_errors (s_pool s)); [done|]. injection Hs as <-. cbn. by rewrite Hd.
  - apply fmap_Some in Hs as (q & Hs & ->). cbn. rewrite Hd. cbn. by eapply worker_step_exited.
Qed.

Lemma worker_step_batch i l ctx q q' : worker_step cfg dlq rk i l ctx q = Some q' ->
  (forall j w, k_workers q !! j = Some w -> w_pc w <> InBatch []) -> forall j w, k_workers q' !! j = Some w -> w_pc w <> InBatch [].
Proof using Type.
  intros (w & pc & Hw & _ & _ & Hk & Hcase)%worker_step_shape Hb j w'. rewrite Hk. destruct (decide (j = i)) as [->|Hji].
  - rewrite list_lookup_insert_eq by (by eapply lookup_lt_Some). intros [= <-]. cbn.
    destruct Hcase as [(_ & _ & _ & Hpc & _)|[(msgs & _ & _ & _ & _ & ->)|(msg & rest & e & log & err & _ & _ & _ & -> & _)]];
      [apply Hpc|by destruct msgs|by destruct rest].
  - rewrite list_lookup_insert_ne by done. apply Hb.
Qed.
Lemma side_step_events interval l ctx exited d d' : side_step interval l ctx exited d = Some d' ->
  d_events d' = d_events d \/ d_events d' = Some AwaitWorkers \/ (d_events d' = Some EventsDone /\ exited = true).
Proof using Type.
  unfold side_step. destruct (0 <? interval)%Z, l, (d_cache d), (d_retry d) as [[]|], (d_events d) as [[]|], ctx, exited, (d_monitor d); try done;
    intros [= <-]; cbn; tauto.
Qed.

(** The parts of the invariant about the main goroutine. *)
Definition main_inv (ctx others : bool) (m : main) : Prop :=
  (m_ready m = true <-> m_pc m = Serving)
  /\ (m_pc m <> Starting -> m_pc m <> Serving -> ctx = true)
  /\ (before_join (m_pc m) = true ->
        m_input m = ConnOpen /\ m_output m = (if pr_output p then Some ConnOpen else None) /\ m_shutdown m = false)
  /\ (before_join (m_pc m) = false -> others = true /\ m_health m <> Some true)
  /\ (m_health m <> None <-> pr_health p = true).
Lemma main_step_inv l ctx others m m' : main_step l ctx others m = Some m' -> main_inv ctx others m -> main_inv ctx others m'.
Proof using Type.
  unfold main_inv, main_step. destruct m as [pc ready h sh inp outp]. cbn. intros Hs (H1' & H2' & H3' & H4' & H5').
  destruct l, pc; try discriminate Hs; cbn in Hs; case_split_in Hs; try discriminate Hs; injection Hs as <-; cbn in *; subst;
    repeat match goal with H : (_ && _)%bool = true |- _ => apply andb_prop in H as [? ?] end;
    try match goal with H : (if ?b then false else true) = true |- _ => destruct b; [discriminate H|] end;
    (split; [|split; [|split; [|split]]]); first [done|tauto|intuition congruence].
Qed.

Lemma life_inv_step l s s' : step cfg dlq rk l s = Some s' -> life_inv s -> life_inv s'.
Proof using Type.
  intros Hs I. pose proof (others_done_step s l s' Hs) as Hod.
  assert (main_inv (s_ctx s) (others_done s) (s_main s)) as Hm by (destruct I; by split_and!).
  assert (main_inv (s_ctx s') (others_done s') (s_main s')
          /\ match d_events (s_side s') with Some EventsDone | None => all_exited EventWorker (s_pool s') = true | _ => True end
          /\ (forall i w, k_workers (s_pool s') !! i = Some w -> w_pc w <> InBatch [])
          /\ accounted (s_pool s') /\ handled cfg dlq rk (s_pool s') /\ has_room cfg (s_pool s')) as (A & B & C & D & E & F).
  2: { destruct A as (A1 & A2 & A3 & A4 & A5). by split. }
  destruct I as [I1 I2 I3 I4 I5 I6 I7 I8 I9 I10]. destruct l as [|l|l| |i l]; cbn in Hs.
  - destruct (s_ctx s) eqn:Ec; [done|]. injection Hs as <-. split; [|done]. destruct Hm as (M1 & M2 & M3 & M4 & M5).
    by split_and!.
  - apply fmap_Some in Hs as (m & Hs & ->). split; [|done]. exact (main_step_inv l _ _ _ _ Hs Hm).
  - apply fmap_Some in Hs as (d & Hs & ->). split; [|split; [|done]].
    + destruct Hm as (M1 & M2 & M3 & M4 & M5). split_and!; try done. intros Hb. destruct (M4 Hb). by split; [apply Hod|].
    + cbn. destruct (side_step_events _ _ _ _ _ _ Hs) as [->|[->|[-> He]]]; done.
  - destruct (d_monitor (s_side s)); [|done]. destruct (k_errors (s_pool s)) as [|e rest] eqn:Ee; [done|]. injection Hs as <-.
    split_and!; try done. unfold has_room, subscribing in *. cbn. rewrite Ee in I10. cbn in I10. lia.
  - apply fmap_Some in Hs as (q & Hs & ->). split_and!; cbn.
    + destruct Hm as (M1 & M2 & M3 & M4 & M5). split_and!; try done. intros Hb. destruct (M4 Hb). by split; [apply Hod|].
    + destruct (d_events (s_side s)) as [[]|]; try done; by eapply worker_step_exited.
    + by eapply worker_step_batch.
    + by eapply worker_step_accounted.
    + by eapply worker_step_handled.
    + by eapply worker_step_room.
Qed.
Lemma life_reachable_inv s : launchable -> reachable cfg dlq rk p s -> life_inv s.
Proof using Type. intros Hl. induction 1 as [|l s s' _ IH Hs]; [by apply launched_inv|by eapply life_inv_step]. Qed.

(** Once [Stop] has waited, nothing is left running. *)
Lemma joined_all_exited s i w : life_inv s -> before_join (m_pc (s_main s)) = false -> k_workers (s_pool s) !! i = Some w -> w_pc w = Exited.
Proof using Type.
  intros I Hb Hw. destruct (inv_joined s I Hb) as [Ho _]. pose proof (inv_events s I) as He.
  unfold others_done, side_done in Ho. apply andb_prop in Ho as [[[_ _]%andb_prop Hev]%andb_prop Ha].
  destruct (w_kind w) eqn:Ek; [by eapply all_exited_spec|].
  assert (all_exited EventWorker (s_pool s) = true) as Hall by (by destruct (d_events (s_side s)) as [[]|]).
  by eapply all_exited_spec.
Qed.
End LifeLemmas.

(** How much there is left to do once the context is done. *)
Definition worker_rank (cfg : ProcConfig) (w : worker) : nat :=
  match w_pc w with
  | Exited => 0 | AtTop => 1 | InBatch rest => 1 + length rest | Fetching => 2 + Z.to_nat (pc_BatchSize cfg) | Subscribing => 3
  end.
Definition pool_rank (cfg : ProcConfig) (q : pool) : nat := sum_list_with (worker_rank cfg) (k_workers q) + length (k_errors q).
Definition side_rank (d : side) : nat :=
  (if d_cache d then 1 else 0) + match d_retry d with Some RetryStarting => 3 | Some InRun => 2 | Some AtSelect => 1 | _ => 0 end
  + match d_events d with Some AwaitCtx => 2 | Some AwaitWorkers => 1 | _ => 0 end + (if d_monitor d then 1 else 0).
Definition main_rank (m : main) : nat :=
  match m_pc m with
  | Starting => 6 | Serving => 5 | Joining => 4 | ClosingHealth => 3 | DrainingInput => 2 | DrainingOutput => 1 | Stopped => 0
  end.
Definition rank (cfg : ProcConfig) (s : state) : nat := main_rank (s_main s) + side_rank (s_side s) + pool_rank cfg (s_pool s).

Lemma sum_list_insert {A} (f : A -> nat) (l : list A) i w w' :
  l !! i = Some w -> (sum_list_with f (<[i := w']> l) + f w = sum_list_with f l + f w')%nat.
Proof.
  revert i. induction l as [|x l IH]; intros i Hi; [done|]. destruct i as [|i].
  - injection Hi as ->. change (<[0%nat:=w']> (w :: l)) with (w' :: l). cbn. lia.
  - change (<[S i:=w']> (x :: l)) with (x :: <[i:=w']> l). specialize (IH i Hi). cbn. lia.
Qed.

Section RankLemmas.
Context `{CelEngine} `{ActivityLib} `{AuditIO} `{EvalJson} `{DlqJson}.
Context (cfg : ProcConfig) (dlq : DLQConfig) (rk : KindResolver).

Definition pc_rank (pc : wpc) : nat :=
  match pc with Exited => 0 | AtTop => 1 | InBatch rest => 1 + length rest | Fetching => 2 + Z.to_nat (pc_BatchSize cfg) | Subscribing => 3 end.
Lemma next_pc_rank rest : (pc_rank (next_pc rest) <= 1 + length rest)%nat.
Proof using Type. destruct rest; cbn; lia. Qed.
Lemma set_pc_rank i w pc q : k_workers q !! i = Some w ->
  (sum_list_with (worker_rank cfg) (<[i := {| w_kind := w_kind w; w_pc := pc |}]> (k_workers q)) + pc_rank (w_pc w) = sum_list_with (worker_rank cfg) (k_workers q) + pc_rank pc)%nat.
Proof using Type. intros Hw. exact (sum_list_insert (worker_rank cfg) _ i w {| w_kind := w_kind w; w_pc := pc |} Hw). Qed.
Lemma worker_step_rank i l q q' : worker_step cfg dlq rk i l true q = Some q' -> (pool_rank cfg q' < pool_rank cfg q)%nat.
Proof using Type.
  unfold worker_step, pool_rank. destruct (k_workers q !! i) as [w|] eqn:Ew; [|done].
  pose proof (fun pc => set_pc_rank i w pc q Ew) as Hs.
  destruct (w_pc w) as [| | |[|msg rest]|]; try (by destruct l).
  - destruct l as [[e|]| | |]; try done.
    + specialize (Hs Exited). destruct (w_kind w) eqn:Ek.
      * destruct (_ <? _)%Z; [|done]. intros [= <-]. cbn [set_pc k_workers k_errors]. rewrite length_app, Ek. cbn [length pc_rank] in *. lia.
      * intros [= <-]. cbn [pc_rank] in Hs. cbn [set_pc k_workers k_errors]. rewrite Ek. lia.
    + intros [= <-]. specialize (Hs AtTop). cbn [pc_rank] in Hs. cbn [set_pc k_workers k_errors]. lia.
  - destruct l; try done. intros [= <-]. specialize (Hs Exited). cbn [pc_rank] in Hs. cbn [set_pc k_workers k_errors]. lia.
  - destruct l as [| |[e|msgs]|]; try done.
    + intros [= <-]. specialize (Hs AtTop). cbn [pc_rank] in Hs. cbn [set_pc k_workers k_errors]. lia.
    + destruct (Z.leb_spec (Z.of_nat (length msgs)) (pc_BatchSize cfg)); [|done]. intros [= <-]. specialize (Hs (next_pc msgs)).
      pose proof (next_pc_rank msgs). cbn [set_pc k_workers k_errors pc_rank] in *. lia.
  - destruct l as [| | |e]; try done. destruct (worker_process _ _ _ _ _ _). intros [= <-]. specialize (Hs (next_pc rest)).
    pose proof (next_pc_rank rest). cbn [set_pc k_workers k_errors pc_rank length] in *. lia.
Qed.
Lemma side_step_rank interval l exited d d' : side_step interval l true exited d = Some d' -> l <> RetryTick -> (side_rank d' < side_rank d)%nat.
Proof using Type.
  unfold side_step, side_rank. destruct d as [c r e m]. cbn.
  destruct (0 <? interval)%Z, l, c, r as [[]|], e as [[]|], exited, m; try done; intros [= <-]; cbn; try lia; by intros [].
Qed.
Lemma main_step_rank l others m m' : main_step l true others m = Some m' -> m_health m <> Some true ->
  (main_rank m' < main_rank m)%nat /\ m_health m' <> Some true.
Proof using Type.
  unfold main_step, main_rank. destruct m as [pc ready h sh inp outp]. cbn. intros Hs Hh.
  destruct l, pc; try discriminate Hs; cbn in Hs; case_split_in Hs; try discriminate Hs; injection Hs as <-; cbn in *; subst;
    first [by destruct outp; split; [lia|]|by split; [lia|]|congruence].
Qed.

(** A worker that has not returned can always move. *)
Lemma worker_moves (env : environment) ctx (q : pool) i w :
  k_workers q !! i = Some w -> w_pc w <> Exited -> w_pc w <> InBatch [] -> exists l q', worker_step cfg dlq rk i l ctx q = Some q'.
Proof using Type.
  intros Hw He Hb. unfold worker_step. rewrite Hw. destruct (w_pc w) as [| | |[|msg rest]|]; try done.
  - exists (Subscribe None). by eexists.
  - exists Top. by eexists.
  - exists (Fetched (inl (Ext "nats: timeout"))). by eexists.
  - exists (Handle env). destruct (worker_process _ _ _ _ _ _). by eexists.
Qed.
End RankLemmas.

(* ------------------------------------------------------------------ *)
(** ** Lemmas: runs *)

Definition is_tick `{CelEngine} (l : label) : bool := match l with Side RetryTick => true | _ => false end.
Definition ticks `{CelEngine} (ls : list label) : nat := length (List.filter is_tick ls).
(** The context is done and no health server is left to wait for. *)
Definition stopping (s : state) : Prop := s_ctx s = true /\ m_health (s_main s) <> Some true.
Definition drained (m : main) : Prop :=
  match m_pc m with
  | DrainingOutput => m_input m <> ConnOpen
  | Stopped => m_input m <> ConnOpen /\ m_output m <> Some ConnOpen
  | _ => True
  end.

Lemma drain_not_open r c : drain r c <> ConnOpen.
Proof. by destruct r, c. Qed.
Lemma main_step_drained l ctx others m m' : main_step l ctx others m = Some m' -> drained m -> drained m'.
Proof.
  unfold main_step, drained. destruct m as [pc ready h sh inp outp]. cbn. intros Hs Hd.
  destruct l as [| | | | | |r|r], pc; try discriminate Hs; cbn in Hs; case_split_in Hs; try discriminate Hs; injection Hs as <-; cbn in *; try done.
  - apply drain_not_open.
  - split; [apply drain_not_open|done].
  - split; [done|]. destruct outp as [o|]; [|done]. intros [= Hc]. by destruct (drain_not_open r o).
Qed.

Section RunLemmas.
Context `{CelEngine} `{ActivityLib} `{AuditIO} `{EvalJson} `{DlqJson}.
Context (cfg : ProcConfig) (dlq : DLQConfig) (rk : KindResolver) (p : Processor).

Lemma step_main l s s' : step cfg dlq rk l s = Some s' ->
  s_main s' = s_main s \/ exists ml, l = Main ml /\ main_step ml (s_ctx s) (others_done s) (s_main s) = Some (s_main s').
Proof using Type.
  intros Hs. destruct l as [|l|l| |i l]; cbn in Hs.
  - destruct (s_ctx s); [done|]. injection Hs as <-. by left.
  - apply fmap_Some in Hs as (m & Hm & ->). right. by exists l.
  - apply fmap_Some in Hs as (d & _ & ->). by left.
  - destruct (d_monitor (s_side s)), (k_errors (s_pool s)); try done. injection Hs as <-. by left.
  - apply fmap_Some in Hs as (q & _ & ->). by left.
Qed.
Lemma step_drained l s s' : step cfg dlq rk l s = Some s' -> drained (s_main s) -> drained (s_main s').
Proof using Type. intros [->|(ml & _ & Hm)]%step_main; [done|]. by eapply main_step_drained. Qed.
Lemma reachable_drained s : reachable cfg dlq rk p s -> drained (s_main s).
Proof using Type. induction 1 as [|l s s' _ IH Hs]; [done|by eapply step_drained]. Qed.
Lemma life_run_reachable ls s s' : reachable cfg dlq rk p s -> run cfg dlq rk ls s = Some s' -> reachable cfg dlq rk p s'.
Proof using Type.
  revert s. induction ls as [|l ls IH]; cbn; intros s Hr; [by intros [= <-]|].
  destruct (step cfg dlq rk l s) as [t|] eqn:Es; [|done]. apply IH. by eapply reachable_next.
Qed.

(** Every step but a tick of the retries brings a stopping processor nearer
    to its end; a tick costs one. *)
Lemma step_rank l s s' : step cfg dlq rk l s = Some s' -> stopping s ->
  stopping s' /\ (if is_tick l then rank cfg s' = S (rank cfg s) else rank cfg s' < rank cfg s)%nat.
Proof using Type.
  intros Hs [Hc Hh]. unfold rank. destruct l as [|l|l| |i l]; cbn in Hs; rewrite Hc in Hs.
  - done.
  - apply fmap_Some in Hs as (m & Hm & ->). apply main_step_rank in Hm as [Hm Hh']; [|done]. split; [done|]. cbn. lia.
  - apply fmap_Some in Hs as (d & Hd & ->). split; [done|]. destruct (decide (l = RetryTick)) as [->|Hl].
    + cbn. unfold side_step, side_rank in *. destruct (d_retry (s_side s)) as [[]|]; try done. injection Hd as <-. cbn. lia.
    + pose proof (side_step_rank _ l _ _ _ Hd Hl). destruct l; try done; cbn; lia.
  - destruct (d_monitor (s_side s)), (k_errors (s_pool s)) as [|e rest] eqn:Ee; try done. injection Hs as <-. split; [done|].
    unfold pool_rank. cbn. rewrite Ee. cbn. lia.
  - apply fmap_Some in Hs as (q & Hq & ->). apply worker_step_rank in Hq. split; [done|]. cbn. lia.
Qed.
Lemma run_rank ls s s' : run cfg dlq rk ls s = Some s' -> stopping s ->
  stopping s' /\ (length ls + rank cfg s' <= rank cfg s + 2 * ticks ls)%nat.
Proof using Type.
  revert s. induction ls as [|l ls IH]; cbn; intros s; [intros [= <-] Hst; split; [done|lia]|].
  destruct (step cfg dlq rk l s) as [t|] eqn:Es; [|done]. intros Hr Hst.
  destruct (step_rank l s t Es Hst) as [Ht Hk]. destruct (IH t Hr Ht) as [Hs' Hle]. split; [done|].
  unfold ticks in *. cbn. destruct (is_tick l); cbn; lia.
Qed.

(** A processor that is stopping can always move until it has stopped. *)
Lemma stopping_moves (env : environment) s : life_inv cfg dlq rk p s -> stopping s -> m_pc (s_main s) <> Stopped ->
  retry_panics cfg s \/ exists l s', step cfg dlq rk l s = Some s' /\ is_tick l = false.
Proof using Type.
  intros I [Hc Hh] Hpc.
  assert (forall ml m', main_step ml true (others_done s) (s_main s) = Some m' -> exists l s', step cfg dlq rk l s = Some s' /\ is_tick l = false) as Hmain.
  { intros ml m' Hm. exists (Main ml). eexists. split; [|done]. cbn. by rewrite Hc, Hm. }
  assert (forall sl d, side_step (Interval (pc_Retry cfg)) sl true (all_exited EventWorker (s_pool s)) (s_side s) = Some d -> sl <> RetryTick ->
            exists l s', step cfg dlq rk l s = Some s' /\ is_tick l = false) as Hside.
  { intros sl d Hd Ht. exists (Side sl). eexists. split; [cbn; by rewrite Hc, Hd|by destruct sl]. }
  assert (forall k, all_exited k (s_pool s) = false -> exists l s', step cfg dlq rk l s = Some s' /\ is_tick l = false) as Hworker.
  { intros k (i & w & Hw & _ & He)%all_exited_false.
    destruct (worker_moves cfg dlq rk env (s_ctx s) _ i w Hw He (inv_batch _ _ _ _ s I i w Hw)) as (l & q & Hq).
    exists (Worker i l). eexists. split; [|done]. cbn. by rewrite Hq. }
  destruct (decide (d_retry (s_side s) = Some RetryStarting)) as [Est|Est].
  { destruct (Z.ltb_spec 0 (Interval (pc_Retry cfg))) as [Hpos|]; [right|by left].
    eapply (Hside RetryStarts); [|done]. unfold side_step. rewrite Est. apply Z.ltb_lt in Hpos. by rewrite Hpos. }
  right. unfold main_step in Hmain. destruct (m_pc (s_main s)) eqn:Ep; try done.
  - by eapply (Hmain StartReturns).
  - by eapply (Hmain StopCalled).
  - destruct (others_done s) eqn:Eo.
    + specialize (Hmain Joined). destruct (m_health (s_main s)) as [[]|]; [done|by eapply Hmain|by eapply Hmain].
    + apply andb_false_iff in Eo as [Ed|Ea]; [|by apply (Hworker AuditWorker)].
      unfold side_done, side_step in *. destruct (d_cache (s_side s)) eqn:E1; [by eapply (Hside CacheReturns)|].
      destruct (d_retry (s_side s)) as [[]|] eqn:E2; [done|..]; try (by eapply (Hside RetryRunEnds)); try (by eapply (Hside RetryStops));
        (destruct (d_events (s_side s)) as [[]|] eqn:E3; [by eapply (Hside EventsCtx)| |done|done];
         destruct (all_exited EventWorker (s_pool s)) eqn:E4; [by eapply (Hside EventsJoined)|by apply (Hworker EventWorker)]).
  - by eapply (Hmain HealthShutdown).
  - by eapply (Hmain (DrainInput Drained)).
  - by eapply (Hmain (DrainOutput Drained)).
Qed.

(** As long as the health server does not fail by itself, it is waited for. *)
Definition waiting (s : state) : Prop := m_health (s_main s) = Some true /\ before_join (m_pc (s_main s)) = true.
Lemma step_waiting l s s' : step cfg dlq rk l s = Some s' -> life_inv cfg dlq rk p s -> l <> Main HealthFails -> waiting s -> waiting s'.
Proof using Type.
  intros Hs I Hl [Hh Hb]. destruct (inv_early _ _ _ _ s I Hb) as (_ & _ & Hsh). unfold waiting. apply step_main in Hs as [->|(ml & -> & Hm)]; [done|].
  revert Hm. unfold main_step. rewrite Hh, Hsh. destruct ml, (m_pc (s_main s)); try done; try (by destruct Hl);
    try (destruct (others_done s)); try (destruct (s_ctx s)); try done; by intros [= <-].
Qed.
Lemma run_waiting ls s s' : launchable cfg p -> reachable cfg dlq rk p s -> run cfg dlq rk ls s = Some s' ->
  Main HealthFails ∉ ls -> waiting s -> waiting s'.
Proof using Type.
  intros Hla. revert s. induction ls as [|l ls IH]; cbn; intros s Hr; [by intros [= <-]|].
  destruct (step cfg dlq rk l s) as [t|] eqn:Es; [|done]. rewrite not_elem_of_cons. intros Hrun [Hl Hls] Hw.
  eapply (IH t); [by eapply reachable_next|done|done|]. eapply step_waiting; [exact Es|by apply life_reachable_inv|by intros ->|done].
Qed.
End RunLemmas.

(* ------------------------------------------------------------------ *)
(** ** Theorems *)

Section Theorems.
Context `{CelEngine} `{ActivityLib} `{AuditIO} `{EvalJson} `{DlqJson}.

(** C29: Every fetched message is settled once.  Whatever the interleaving of
    the workers, the monitor, the retries and [Stop], each worker has settled
    exactly the messages it fetched, in order, but those of the batch it is
    in; each was handled by [processMessage] of the worker's kind, and
    acknowledged when that returned no error, negatively acknowledged when it
    returned one.  A worker that has returned leaves no message unsettled; as
    long as a worker can move, the connections are open; and the channel of
    worker errors has room for a failed subscription, so that no worker blocks
    on it. *)
Theorem messages_settled_once cfg dlq rk p s :
  launchable cfg p -> reachable cfg dlq rk p s ->
  (forall i, fetched_by i (s_pool s) = settled_by i (s_pool s) ++ in_hand i (s_pool s))
  /\ (forall e, e ∈ k_settled (s_pool s) -> exists w env, k_workers (s_pool s) !! se_worker e = Some w
        /\ worker_process cfg dlq rk (w_kind w) env (se_msg e) = (se_effects e, se_err e)
        /\ (se_err e = None /\ se_disposition e = Acked \/ is_Some (se_err e) /\ se_disposition e = Naked))
  /\ (forall i w, k_workers (s_pool s) !! i = Some w -> w_pc w = Exited -> fetched_by i (s_pool s) = settled_by i (s_pool s))
  /\ (forall i l s', step cfg dlq rk (Worker i l) s = Some s' ->
        m_input (s_main s) = ConnOpen /\ m_output (s_main s) = (if pr_output p then Some ConnOpen else None))
  /\ (forall i w e, k_workers (s_pool s) !! i = Some w -> w_pc w = Subscribing -> is_Some (step cfg dlq rk (Worker i (Subscribe (Some e))) s)).
Proof.
  intros Hla I%life_reachable_inv; [|done]. split; [exact (inv_accounted _ _ _ _ s I)|]. split; [|split; [|split]].
  - intros e He. pose proof (inv_handled _ _ _ _ s I) as Hh. unfold handled in Hh. rewrite Forall_forall in Hh. by apply Hh.
  - intros i w Hw He. rewrite (inv_accounted _ _ _ _ s I i). unfold in_hand. by rewrite Hw, He, app_nil_r.
  - intros i l s' Hs. destruct (before_join (m_pc (s_main s))) eqn:Eb; [by destruct (inv_early _ _ _ _ s I Eb) as (? & ? & _)|].
    cbn in Hs. apply fmap_Some in Hs as (q & (w & pc & Hw & Hne & _)%worker_step_shape & _).
    by destruct (Hne (joined_all_exited _ _ _ _ s i w I Eb Hw)).
  - intros i w e Hw Hp. cbn. unfold worker_step. rewrite Hw, Hp. destruct (w_kind w) eqn:Ek; [|by eexists].
    pose proof (inv_room _ _ _ _ s I) as Hr. unfold has_room, subscribing in Hr.
    assert (0 < length (List.filter awaits (k_workers (s_pool s))))%nat as Hpos.
    { assert (w ∈ List.filter awaits (k_workers (s_pool s))) as Hin.
      { apply list_elem_of_In, List.filter_In. split; [by eapply list_elem_of_In, list_elem_of_lookup_2|]. unfold awaits. by rewrite Ek, Hp. }
      destruct (List.filter awaits _); [by apply elem_of_nil in Hin|cbn; lia]. }
    destruct (Z.ltb_spec (Z.of_nat (length (k_errors (s_pool s)))) (pc_Workers cfg)); [by eexists|lia].
Qed.

(** C30: [Stop] stops the processor.  Once the signal has come and no health
    server is left running, the steps a processor can still take are bounded,
    the ticks of the retry controller apart (each of which costs one more run
    of the retries): whatever the goroutines do, the run can go on, without a
    tick, until [Stop] has returned - or the ticker of the retry controller
    panics, its interval not being positive.  Then every worker has returned, no
    message is left unsettled, and both connections were drained or closed. *)
Theorem processor_stops cfg dlq rk p s ls s' (env : environment) :
  launchable cfg p -> reachable cfg dlq rk p s -> stopping s -> run cfg dlq rk ls s = Some s' ->
  (length ls <= rank cfg s + 2 * ticks ls)%nat
  /\ (m_pc (s_main s') <> Stopped ->
        retry_panics cfg s' \/ exists l s2, step cfg dlq rk l s' = Some s2 /\ is_tick l = false)
  /\ (m_pc (s_main s') = Stopped ->
        (forall i w, k_workers (s_pool s') !! i = Some w -> w_pc w = Exited /\ fetched_by i (s_pool s') = settled_by i (s_pool s'))
        /\ m_input (s_main s') <> ConnOpen /\ m_output (s_main s') <> Some ConnOpen /\ m_ready (s_main s') = false).
Proof.
  intros Hla Hr Hst Hrun. destruct (run_rank _ _ _ _ _ _ Hrun Hst) as [Hst' Hle].
  pose proof (life_run_reachable _ _ _ _ _ _ _ Hr Hrun) as Hr'. pose proof (life_reachable_inv _ _ _ _ _ Hla Hr') as I.
  split; [lia|]. split; [by eapply stopping_moves|]. intros Hpc.
  pose proof (reachable_drained _ _ _ _ _ Hr') as Hd. unfold drained in Hd. rewrite Hpc in Hd. destruct Hd as [Hd1 Hd2].
  split; [|split; [done|split; [done|]]].
  - intros i w Hw. assert (w_pc w = Exited) as He by (eapply joined_all_exited; [exact I|by rewrite Hpc|done]). split; [done|].
    rewrite (inv_accounted _ _ _ _ s' I i). unfold in_hand. by rewrite Hw, He, app_nil_r.
  - destruct (m_ready (s_main s')) eqn:Em; [|done]. by rewrite (proj1 (inv_ready _ _ _ _ s' I) Em) in Hpc.
Qed.

(** With a health server, [Stop] never gets past its wait.  [Stop] waits
    for all goroutines before it shuts the health server down, and the health
    server is one of them: in every run in which it does not fail by itself,
    [Stop] has not returned, and no connection has been drained. *)
Theorem stop_waits_for_health_server cfg dlq rk p ls s :
  launchable cfg p -> pr_health p = true -> run cfg dlq rk ls (launched cfg p) = Some s -> Main HealthFails ∉ ls ->
  before_join (m_pc (s_main s)) = true /\ m_shutdown (s_main s) = false /\ m_input (s_main s) = ConnOpen.
Proof.
  intros Hla Hh Hrun Hls. pose proof (reachable_start cfg dlq rk p) as Hr.
  destruct (run_waiting _ _ _ _ _ _ _ Hla Hr Hrun Hls) as [_ Hb]; [unfold waiting; cbn; by rewrite Hh|].
  destruct (inv_early _ _ _ _ s (life_reachable_inv _ _ _ _ _ Hla (life_run_reachable _ _ _ _ _ _ _ Hr Hrun)) Hb) as (Hi & _ & Hs). done.
Qed.
End Theorems.

(* ------------------------------------------------------------------ *)
(** ** Examples *)

Module ToyLife.
#[export] Existing Instances ToyCel.toy ToyLib.toy ToyAudit.io ToyServices.json ToyServices.dlqjson.
Definition cfg : ProcConfig := processor_config {|
  po_Kubeconfig := ""; po_MasterURL := ""; po_Input := po_Input NewProcessorOptions; po_NATSStreamName := "AUDIT_EVENTS";
  po_ConsumerName := "c"; po_NATSEventStream := "EVENTS"; po_NATSEventConsumer := "e"; po_OutputStreamName := "ACTIVITIES";
  po_OutputSubjectPrefix := "act"; po_Output := {| ep_URL := ""; ep_TLS := no_tls |};
  po_DLQ := po_DLQ NewProcessorOptions; po_Retry := po_Retry NewProcessorOptions; po_Workers := 1; po_BatchSize := 10;
  po_AckWait := 0; po_HealthProbeAddr := "" |}.
Definition env : environment := {| en_now := 7%Z; en_cache := ToyAudit.cache []; en_js := ToyServices.js |}.
(** One audit worker and one event worker. *)
Definition proc (health : bool) : Processor := {|
  pr_health := health; pr_output := false; pr_dlq := DefaultDLQConfig; pr_retry := None; pr_workers := 1; pr_events := Some "EVENTS.>" |}.
Definition go (health : bool) (ls : list label) : option state := run cfg DefaultDLQConfig ToyAudit.kinds ls (launched cfg (proc health)).
(** A batch of two messages, the second of which is not an audit event and has
    no dead letter, is cut by the signal. *)
Definition serving : list label :=
  [Main StartReturns; Worker 0 (Subscribe None); Worker 1 (Subscribe (Some (Ext "no responders")));
   Worker 0 Top; Worker 0 (Fetched (inr ["audit1"; "junk"])); Worker 0 (Handle env); Signal].
Definition stopping_run : list label :=
  [Main StopCalled; Worker 0 (Handle env); Worker 0 Top; Side CacheReturns; Side EventsCtx; Side EventsJoined;
   Main Joined; Main (DrainInput Drained)].
End ToyLife.
Import ToyLife.

Lemma messages_settled_once_witness :
  exists s, ToyLife.go false ToyLife.serving = Some s
    /\ fetched_by 0 (s_pool s) = settled_by 0 (s_pool s) ++ ["junk"] /\ settled_by 0 (s_pool s) = ["audit1"]
    /\ map se_disposition (k_settled (s_pool s)) = [Acked].
Proof.
  destruct (ToyLife.go false ToyLife.serving) as [s|] eqn:E; [|vm_compute in E; discriminate E]. exists s. split; [done|].
  pose proof (messages_settled_once ToyLife.cfg DefaultDLQConfig ToyAudit.kinds (ToyLife.proc false) s) as Hm.
  destruct Hm as (Ha & _); [cbn; unfold launchable; cbn; lia|by eapply life_run_reachable; [apply reachable_start|exact E]|].
  rewrite (Ha 0%nat). vm_compute in E. injection E as <-. split_and!; reflexivity.
Defined.
Lemma processor_stops_witness :
  exists s s', ToyLife.go false ToyLife.serving = Some s /\ run ToyLife.cfg DefaultDLQConfig ToyAudit.kinds ToyLife.stopping_run s = Some s'
    /\ m_pc (s_main s') = Stopped /\ m_input (s_main s') <> ConnOpen.
Proof.
  destruct (ToyLife.go false ToyLife.serving) as [s|] eqn:E; [|vm_compute in E; discriminate E].
  destruct (run ToyLife.cfg DefaultDLQConfig ToyAudit.kinds ToyLife.stopping_run s) as [s'|] eqn:E'.
  2: { vm_compute in E. injection E as <-. vm_compute in E'. discriminate E'. }
  exists s, s'. split; [done|]. split; [done|].
  assert (m_pc (s_main s') = Stopped) as Hpc by (vm_compute in E; injection E as <-; vm_compute in E'; injection E' as <-; reflexivity).
  split; [done|].
  apply (processor_stops ToyLife.cfg DefaultDLQConfig ToyAudit.kinds (ToyLife.proc false) s ToyLife.stopping_run s' ToyLife.env); try done.
  - unfold launchable; cbn; lia.
  - by eapply life_run_reachable; [apply reachable_start|exact E].
  - vm_compute in E. injection E as <-. by split.
Defined.
Lemma stop_waits_for_health_server_witness :
  exists s, ToyLife.go true (ToyLife.serving ++ [Main StopCalled; Worker 0 (Handle ToyLife.env); Worker 0 Top; Side CacheReturns; Side EventsCtx;
      Side EventsJoined; Side MonitorStops]) = Some s
    /\ before_join (m_pc (s_main s)) = true /\ m_pc (s_main s) = Joining /\ others_done s = true.
Proof.
  destruct (ToyLife.go true _) as [s|] eqn:E; [|vm_compute in E; discriminate E]. exists s. split; [done|]. split.
  - eapply (stop_waits_for_health_server ToyLife.cfg DefaultDLQConfig ToyAudit.kinds (ToyLife.proc true)); [unfold launchable; cbn; lia|done|exact E|].
    intros Hin%list_elem_of_In. repeat (destruct Hin as [Hin|Hin]; [discriminate Hin|]). done.
  - vm_compute in E. injection E as <-. by split.
Defined.

(** A processor all workers of which have returned, their subscriptions having
    failed, stays ready. *)
Example ready_without_workers :
  (fun s => (m_ready (s_main s), all_exited AuditWorker (s_pool s), all_exited EventWorker (s_pool s), length (k_errors (s_pool s)))) <$>
    ToyLife.go true [Worker 0 (Subscribe (Some (Ext "e"))); Worker 1 (Subscribe (Some (Ext "e"))); Main StartReturns; MonitorReads]
  = Some (true, true, true, 0%nat).
Proof. vm_compute. reflexivity. Qed.

(** Nothing checks the interval of the retries: with one that is not positive,
    the retry controller of a processor that has one panics, whatever else its
    goroutines do before. *)
Lemma retry_needs_interval `{CelEngine} `{ActivityLib} `{AuditIO} `{EvalJson} `{DlqJson} cfg dlq rk p ls s :
  (Interval (pc_Retry cfg) <= 0)%Z -> pr_retry p <> None ->
  run cfg dlq rk ls (launched cfg p) = Some s -> retry_panics cfg s.
Proof.
  intros Hi Hp. assert (d_retry (s_side (launched cfg p)) = Some RetryStarting) as Hs
    by (cbn; by destruct (pr_retry p)).
  revert Hs. generalize (launched cfg p). induction ls as [|l ls IH]; intros s0 Hs; cbn [run]; [by intros [= <-]|].
  destruct (step cfg dlq rk l s0) as [s1|] eqn:E; [|done]. apply IH. destruct l as [|l|l| |i l]; cbn in E.
  - destruct (s_ctx s0); [done|]. by injection E as <-.
  - by apply fmap_Some in E as (m & _ & ->).
  - apply fmap_Some in E as (d & E & ->). cbn. apply Z.ltb_ge in Hi. revert E. unfold side_step. rewrite Hs, Hi.
    destruct l, (d_events (s_side s0)) as [[]|]; try done;
      repeat (match goal with |- context [if ?b then _ else _] => destruct b end); try done; intros [= <-]; done.
  - destruct (d_monitor (s_side s0)), (k_errors (s_pool s0)); try done. by injection E as <-.
  - by apply fmap_Some in E as (q & _ & ->).
Qed.
