(* ===== verification/Server.v ===== *)
(** * The API server: options, start and what it serves

    cmd/activity/main.go ([ActivityServerOptions], [Run]),
    internal/apiserver/apiserver.go ([New], the installed API groups, [Run],
    the OpenAPI documents), and the connections it is made of:
    [NewClickHouseStorage], [NewNATSWatcher] and [NewEventsPublisher]. *)

From Stdlib Require Import Ascii String.
From stdpp Require Import base numbers list strings gmap sets.
From Stdlib Require Import ZArith Lia.
From S2P Require Import Prelude GoLib Calls Types TimeUtil CelPolicy Activity CelFilter Query EventStore Watch Rest ActivityRest Nkeys Connect.

(* ------------------------------------------------------------------ *)
(** ** Configuration *)

(** [ClickHouseConfig] with the limits in the record of [Query]. *)
Record ClickHouseConn := { cc_Address : string; cc_Username : string; cc_Password : string; cc_TLS : TLSFiles; cc_limits : ClickHouseConfig }.
(** [NATSConfig]; [EventsPublisherConfig] has the same fields. *)
Record NATSConfig := { nc_URL : string; nc_StreamName : string; nc_SubjectPrefix : string; nc_TLS : TLSFiles }.
Record ExtraConfig := { xc_ClickHouse : ClickHouseConn; xc_NATS : NATSConfig; xc_EventsNATS : NATSConfig }.

Record ActivityServerOptions := {
  so_ClickHouseAddress : string; so_ClickHouseDatabase : string; so_ClickHouseUsername : string; so_ClickHousePassword : string;
  so_ClickHouseTLS : TLSFiles; so_MaxQueryWindow : Z; so_MaxPageSize : Z;
  so_ActivitiesNATSURL : string; so_ActivitiesNATSStream : string; so_ActivitiesNATSSubjectPrefix : string; so_ActivitiesNATSTLS : TLSFiles;
  so_EventsNATSURL : string; so_EventsNATSStream : string; so_EventsNATSSubjectPrefix : string; so_EventsNATSTLS : TLSFiles }.
Definition no_files : TLSFiles := {| tls_Enabled := false; CertFile := ""; KeyFile := ""; CAFile := "" |}.
Definition NewActivityServerOptions : ActivityServerOptions := {|
  so_ClickHouseAddress := "localhost:9000"; so_ClickHouseDatabase := "audit"; so_ClickHouseUsername := "default"; so_ClickHousePassword := "";
  so_ClickHouseTLS := no_files; so_MaxQueryWindow := 30 * (24 * Hour); so_MaxPageSize := 1000;
  so_ActivitiesNATSURL := ""; so_ActivitiesNATSStream := ""; so_ActivitiesNATSSubjectPrefix := ""; so_ActivitiesNATSTLS := no_files;
  so_EventsNATSURL := ""; so_EventsNATSStream := ""; so_EventsNATSSubjectPrefix := ""; so_EventsNATSTLS := no_files |}.

(** The flags that are missing. *)
Definition server_Validate (o : ActivityServerOptions) : list string :=
  (if (so_ClickHouseAddress o =? "")%string then ["--clickhouse-address is required"] else [])
  ++ (if (so_ClickHouseDatabase o =? "")%string then ["--clickhouse-database is required"] else []).
(** [%v] of a slice of errors. *)
Definition validation_errors (missing : list string) : error :=
  Errorf [PStr "validation errors: "; PStr "["; PStr (String.concat " " missing); PStr "]"].

Definition server_config (o : ActivityServerOptions) : ExtraConfig := {|
  xc_ClickHouse := {| cc_Address := so_ClickHouseAddress o; cc_Username := so_ClickHouseUsername o; cc_Password := so_ClickHousePassword o;
                      cc_TLS := so_ClickHouseTLS o;
                      cc_limits := {| Database := so_ClickHouseDatabase o; MaxQueryWindow := so_MaxQueryWindow o; MaxPageSize := so_MaxPageSize o |} |};
  xc_NATS := {| nc_URL := so_ActivitiesNATSURL o; nc_StreamName := so_ActivitiesNATSStream o;
                nc_SubjectPrefix := so_ActivitiesNATSSubjectPrefix o; nc_TLS := so_ActivitiesNATSTLS o |};
  xc_EventsNATS := {| nc_URL := so_EventsNATSURL o; nc_StreamName := so_EventsNATSStream o;
                      nc_SubjectPrefix := so_EventsNATSSubjectPrefix o; nc_TLS := so_EventsNATSTLS o |} |}.

(* ------------------------------------------------------------------ *)
(** ** What the server does *)

Record ClickHouseOptions := {
  ch_Addr : list string; ch_Database : string; ch_Username : string; ch_Password : string;
  max_execution_time : Z; DialTimeout : Z; ch_tls : option TLSConfig }.
Inductive server_conn := ActivitiesWatch | EventsWatch | EventsPublish.

(** What serves a resource. *)
Inductive api_storage :=
| AuditLogQueries | AuditLogFacetsQueries | Policies (status : bool) | ReindexJobs (status : bool)
| Activities_ (watcher : option (option NATSWatcher))   (* an interface holding a pointer *)
| ActivityQueries | ActivityFacetQueries | PolicyPreviews | EventFacetQueries (b : EventsBackend) | EventQueries
| CoreEvents (b : EventsBackend) (watcher : option (option NATSWatcher))
| EventsV1 (b : EventsBackend) (watcher : option (option NATSWatcher)).

Inductive server_act :=
| ApplyLogging (r : option error) | SelfSignedCerts (r : option error) | ApplyOptions (r : option error)
| NewGenericServer (r : option error)
| OpenClickHouse (o : ClickHouseOptions) (r : option error) | PingClickHouse (r : option error)
| NatsConnect (c : server_conn) (url : string) (opts : list (nats_option nats_setting)) (r : option error)
| NatsJetStream (c : server_conn) (r : option error) | NatsClose (c : server_conn)
| CompleteStore (resource : string) (r : option error)
| InstallGroup (group version : string) (resources : list (string * api_storage)) (r : option error)
| ServeUntilDone (r : option error) | CloseClickHouse.

(** The generic server, ClickHouse, NATS and the etcd stores. *)
Class ServerIO (W : Type) := {
  logging_Apply : W -> option error * W;
  self_signed : W -> option error * W;
  options_ApplyTo : W -> option error * W;
  generic_New : W -> option error * W;
  clickhouse_Open : ClickHouseOptions -> W -> option error * W;
  clickhouse_Ping : W -> option error * W;
  server_nats_Connect : server_conn -> string -> list (nats_option nats_setting) -> W -> option error * W;
  server_JetStream : server_conn -> W -> option error * W;
  store_Complete : string -> W -> option error * W;
  api_Install : string -> string -> list (string * api_storage) -> W -> option error * W;
  server_Serve : W -> option error * W }.

Record ActivityServer := { as_watcher : option NATSWatcher; as_eventsWatcher : option NATSWatcher }.
Definition GroupName : string := "activity.miloapis.com".

Section Server.
Context {W : Type} `{ServerIO W} `{TLSLib}.
Abbreviation M := (Calls server_act W).

Definition checked_call (f : W -> option error * W) (c : option error -> server_act) (text : string) : M unit :=
  try! _ := ndo f c or (fun e => nfail (wrap_with text e)) in nret tt.
(** The TLS files, when TLS is enabled. *)
Definition tls_if_enabled (load : TLSFiles -> error + TLSConfig) (t : TLSFiles) (text : string) : M (option TLSConfig) :=
  if tls_Enabled t then
    try! c := nlift (load t) or (fun e => nfail (wrap_with text e)) in nret (Some c)
  else nret None.

Definition NewClickHouseStorage (config : ClickHouseConn) : M unit :=
  get! c := tls_if_enabled loadTLSConfig (cc_TLS config) "failed to load TLS configuration: " in
  let o := {| ch_Addr := [cc_Address config]; ch_Database := Database (cc_limits config); ch_Username := cc_Username config;
              ch_Password := cc_Password config; max_execution_time := 60; DialTimeout := 5 * Second; ch_tls := c |} in
  get! _ := checked_call (clickhouse_Open o) (OpenClickHouse o) "failed to connect to ClickHouse: " in
  checked_call clickhouse_Ping PingClickHouse "failed to ping ClickHouse: ".

Definition or_default (s d : string) : string := if (s =? "")%string then d else s.
Definition secure (c : option TLSConfig) : list (nats_option nats_setting) := match c with Some c => [OptSecure c] | None => [] end.
Definition reconnecting : list (nats_option nats_setting) := [OptExtra RetryOnFailedConnect; OptExtra (MaxReconnects (-1))].

(** The connection of both constructors: dial, then the JetStream context. *)
Definition nats_open (k : server_conn) (config : NATSConfig) (load : TLSFiles -> error + TLSConfig) (name : list (nats_option nats_setting))
    (no_tls no_conn no_js : string) : M unit :=
  get! c := tls_if_enabled load (nc_TLS config) no_tls in
  let opts := name ++ reconnecting ++ secure c in
  get! _ := checked_call (server_nats_Connect k (nc_URL config) opts) (NatsConnect k (nc_URL config) opts) no_conn in
  try! _ := ndo (server_JetStream k) (NatsJetStream k)
    or (fun e => get! _ := nsay [NatsClose k] in nfail (wrap_with no_js e)) in
  nret tt.

(** None: a nil watcher. *)
Definition NewNATSWatcher (k : server_conn) (config : NATSConfig) : M (option NATSWatcher) :=
  if (nc_URL config =? "")%string then nret None
  else
    get! _ := nats_open k config buildNATSTLSConfig [] "failed to build NATS TLS config: " "failed to connect to NATS: "
                "failed to create JetStream context: " in
    nret (Some {| nw_streamName := or_default (nc_StreamName config) "ACTIVITIES";
                  nw_subjectPrefix := or_default (nc_SubjectPrefix config) "activities"; nw_connected := true |}).

Definition NewEventsPublisher (config : NATSConfig) : M (option EventsPublisher) :=
  if (nc_URL config =? "")%string then nret None
  else
    get! _ := nats_open EventsPublish config buildEventsTLSConfig [OptName "activity-events-publisher"]
                "failed to build NATS TLS config for events publisher: " "failed to connect to NATS for events publishing: "
                "failed to create JetStream context for events publisher: " in
    nret (Some {| js_connected := true; subjectPrefix := or_default (nc_SubjectPrefix config) "events.k8s" |}).

Definition install (group version : string) (resources : list (string * api_storage)) : M unit :=
  ndo (api_Install group version resources) (InstallGroup group version resources).
(** The watcher is passed on when there is one. *)
Definition installLegacyCoreAPIGroup (s : ActivityServer) (b : EventsBackend) : M unit :=
  install "" "v1" [("events", CoreEvents b (Some <$> as_eventsWatcher s))].
Definition installEventsAPIGroup (s : ActivityServer) (b : EventsBackend) : M unit :=
  install "events.k8s.io" "v1" [("events", EventsV1 b (Some <$> as_eventsWatcher s))].

(** The resources of the activity group; the watcher of the activities is an
    interface that holds the pointer, nil or not. *)
Definition v1alpha1_resources (s : ActivityServer) (eventsBackend : EventsBackend) : list (string * api_storage) := [
  ("auditlogqueries", AuditLogQueries); ("auditlogfacetsqueries", AuditLogFacetsQueries);
  ("activitypolicies", Policies false); ("activitypolicies/status", Policies true);
  ("reindexjobs", ReindexJobs false); ("reindexjobs/status", ReindexJobs true);
  ("activities", Activities_ (Some (as_watcher s))); ("activityqueries", ActivityQueries);
  ("activityfacetqueries", ActivityFacetQueries); ("policypreviews", PolicyPreviews);
  ("eventfacetqueries", EventFacetQueries eventsBackend); ("eventqueries", EventQueries)].

(** [New]: the connections, the stores, the groups. *)
Definition New (c : ExtraConfig) : M ActivityServer :=
  get! _ := ndo generic_New NewGenericServer in
  try! _ := NewClickHouseStorage (xc_ClickHouse c) or (fun e => nfail (wrap_with "failed to create ClickHouse storage: " e)) in
  try! watcher := NewNATSWatcher ActivitiesWatch (xc_NATS c) or (fun e => nfail (wrap_with "failed to create NATS watcher: " e)) in
  try! eventsWatcher := NewNATSWatcher EventsWatch (xc_EventsNATS c)
    or (fun e => nfail (wrap_with "failed to create Events NATS watcher: " e)) in
  let s := {| as_watcher := watcher; as_eventsWatcher := eventsWatcher |} in
  get! _ := checked_call (store_Complete "activitypolicies") (CompleteStore "activitypolicies") "failed to create ActivityPolicy storage: " in
  get! _ := checked_call (store_Complete "reindexjobs") (CompleteStore "reindexjobs") "failed to create ReindexJob storage: " in
  let backend := {| eb_Database := Database (cc_limits (xc_ClickHouse c)); eb_publisher := None |} in
  get! publisher := (if (nc_URL (xc_EventsNATS c) =? "")%string then nret None
                     else try! p := NewEventsPublisher (xc_EventsNATS c)
                            or (fun e => nfail (wrap_with "failed to create events NATS publisher: " e)) in nret p) in
  let backend := match publisher with Some p => {| eb_Database := eb_Database backend; eb_publisher := Some p |} | None => backend end in
  get! _ := install GroupName "v1alpha1" (v1alpha1_resources s backend) in
  try! _ := installLegacyCoreAPIGroup s backend or (fun e => nfail (wrap_with "failed to install legacy core API group: " e)) in
  try! _ := installEventsAPIGroup s backend or (fun e => nfail (wrap_with "failed to install events.k8s.io API group: " e)) in
  nret s.

(** [ActivityServer.Run]: the deferred calls run last first. *)
Definition server_Run (s : ActivityServer) : M unit :=
  fun w => let (r, w') := server_Serve w in
           (match r with Some e => inl e | None => inr tt end,
            [ServeUntilDone r] ++ match as_watcher s with Some _ => [NatsClose ActivitiesWatch] | None => [] end ++ [CloseClickHouse], w').

(** The serve command: [Complete], [Validate], [Config], [New], [Run]. *)
Definition serve (o : ActivityServerOptions) : M unit :=
  match server_Validate o with
  | _ :: _ as missing => nfail (validation_errors missing)
  | [] =>
      get! _ := checked_call logging_Apply ApplyLogging "failed to apply logging configuration: " in
      get! _ := (try! _ := ndo self_signed SelfSignedCerts
                   or (fun e => nfail (Errorf [PStr "error creating self-signed certificates: "; PShow e])) in nret tt) in
      get! _ := checked_call options_ApplyTo ApplyOptions "failed to apply recommended options: " in
      get! s := New (server_config o) in
      server_Run s
  end.
End Server.

(** [publishOnlyOwnedOpenAPIV3]: the documents of the web services that are
    not of the activity group are deleted. *)
Definition owned (groupVersion : string) : bool :=
  let o := "apis/" +:+ GroupName in ((groupVersion =? o) || HasPrefix groupVersion (o +:+ "/"))%string%bool.
Definition publishOnlyOwnedOpenAPIV3 (roots : list string) (documents : gset string) : gset string :=
  foldl (fun docs root => let groupVersion := TrimPrefix root "/" in if owned groupVersion then docs else docs ∖ {[groupVersion]}) documents roots.

(* ------------------------------------------------------------------ *)
(** ** Lemmas *)

(** The connection and the prefix a configuration asks for. *)
Definition watcher_of (config : NATSConfig) : option NATSWatcher :=
  if (nc_URL config =? "")%string then None
  else Some {| nw_streamName := or_default (nc_StreamName config) "ACTIVITIES";
               nw_subjectPrefix := or_default (nc_SubjectPrefix config) "activities"; nw_connected := true |}.
Definition publisher_of (config : NATSConfig) : option EventsPublisher :=
  if (nc_URL config =? "")%string then None
  else Some {| js_connected := true; subjectPrefix := or_default (nc_SubjectPrefix config) "events.k8s" |}.
Definition events_backend (c : ExtraConfig) : EventsBackend :=
  {| eb_Database := Database (cc_limits (xc_ClickHouse c)); eb_publisher := publisher_of (xc_EventsNATS c) |}.

Definition installs (log : list server_act) : list (string * string * list (string * api_storage)) :=
  omap (fun a => match a with InstallGroup g v rs None => Some (g, v, rs) | _ => None end) log.
Definition no_install (a : server_act) : Prop := match a with InstallGroup _ _ _ _ => False | _ => True end.
Lemma installs_none log : Forall no_install log -> installs log = [].
Proof. induction 1 as [|a l Ha _ IH]; [done|]. by destruct a. Qed.
Lemma installs_app l l' : installs (l ++ l') = installs l ++ installs l'.
Proof. apply omap_app. Qed.

Lemma tokens_match_gt (p s : list string) : s <> [] -> tokens_match (p ++ [">"]) (p ++ s) = true.
Proof.
  intros Hs. induction p as [|t p IH]; [by destruct s|]. cbn. destruct (t =? ">")%string; [done|].
  by rewrite String.eqb_refl, andb_false_r.
Qed.
Lemma Split_nonempty c s : Split c s <> [].
Proof. by destruct (Split_cons_ne c s) as (t & ts & ->). Qed.
Lemma platform_subject_matches (prefix ns : string) : subjectMatches (prefix +:+ ".>") (EventSubject prefix "" ns) = true.
Proof.
  unfold subjectMatches, EventSubject. cbn [String.eqb].
  change (prefix +:+ "." +:+ ns) with (prefix +:+ String dot ns). change (prefix +:+ ".>") with (prefix +:+ String dot ">").
  rewrite !Split_append. by apply tokens_match_gt, Split_nonempty.
Qed.
(** A consumer receives a message of its stream's subjects that its filter
    matches; [captures] gives the subjects each stream is configured with. *)
Definition captured (captures : string -> list string) (stream subject : string) : bool :=
  existsb (fun p => subjectMatches p subject) (captures stream).
Definition receives (captures : string -> list string) (k : consumer) (subject : string) : bool :=
  (captured captures (co_stream k) subject && subjectMatches (co_subject k) subject)%bool.
Lemma default_subject_unmatched (ns : string) : subjectMatches "activities.>" (EventSubject "events.k8s" "" ns) = false.
Proof. done. Qed.

Lemma events_Watch_consumer `{WatchJS} w scope filter k :
  nw_connected w = true -> events_Watch (Some w) scope filter = Ok k ->
  co_stream k = (if (nw_streamName w =? "")%string then "EVENTS" else nw_streamName w)
  /\ co_subject k = events_buildSubject w scope filter.
Proof.
  intros Hc. unfold events_Watch. rewrite Hc. cbn [negb].
  destruct (js_AddConsumer _); [done|]. destruct (js_SubscribeSync _); [done|]. by intros [= <-].
Qed.

Section ServerLemmas.
Context {W : Type} `{ServerIO W} `{TLSLib}.

Lemma checked_call_quiet f c text : (forall r, no_install (c r)) -> logs no_install (checked_call (W:=W) f c text).
Proof. intros Hc. unfold checked_call. eauto with calls. Qed.
Lemma tls_if_enabled_quiet load t text : logs no_install (tls_if_enabled (W:=W) load t text).
Proof. unfold tls_if_enabled. destruct (tls_Enabled t); eauto with calls. Qed.
#[local] Hint Resolve checked_call_quiet tls_if_enabled_quiet : calls.
Lemma ClickHouse_quiet config : logs no_install (NewClickHouseStorage config).
Proof. unfold NewClickHouseStorage. apply logs_bind; [auto with calls|]. intros o. apply logs_bind; [|intros _]; by apply checked_call_quiet. Qed.
Lemma nats_open_quiet k config load name a b c : logs no_install (nats_open k config load name a b c).
Proof.
  unfold nats_open. apply logs_bind; [auto with calls|]. intros o. apply logs_bind; [by apply checked_call_quiet|]. intros _.
  apply logs_try; [by apply logs_do| |auto with calls]. intros e. apply logs_bind; [|auto with calls]. apply logs_say. by constructor.
Qed.
Lemma watcher_quiet k config : logs no_install (NewNATSWatcher k config).
Proof. unfold NewNATSWatcher. destruct (nc_URL config =? "")%string; [auto with calls|]. apply logs_bind; [apply nats_open_quiet|auto with calls]. Qed.
Lemma publisher_quiet config : logs no_install (NewEventsPublisher config).
Proof. unfold NewEventsPublisher. destruct (nc_URL config =? "")%string; [auto with calls|]. apply logs_bind; [apply nats_open_quiet|auto with calls]. Qed.

Lemma watcher_result k config w r log w' : NewNATSWatcher k config w = (inr r, log, w') -> r = watcher_of config.
Proof.
  unfold NewNATSWatcher, watcher_of. destruct (nc_URL config =? "")%string; [by intros [= <- <- <-]|].
  intros (a & l1 & w1 & l2 & _ & [= <- <- <-] & _)%bind_success. done.
Qed.
Lemma publisher_result config w r log w' : NewEventsPublisher config w = (inr r, log, w') -> r = publisher_of config.
Proof.
  unfold NewEventsPublisher, publisher_of. destruct (nc_URL config =? "")%string; [by intros [= <- <- <-]|].
  intros (a & l1 & w1 & l2 & _ & [= <- <- <-] & _)%bind_success. done.
Qed.
Lemma install_log g v rs w u log w' : install g v rs w = (inr u, log, w') -> installs log = [(g, v, rs)].
Proof. unfold install, ndo. destruct (api_Install g v rs w) as [[e|] w1]; [done|]. by intros [= <- <- <-]. Qed.

Lemma New_result c w s log w' : New c w = (inr s, log, w') ->
  s = {| as_watcher := watcher_of (xc_NATS c); as_eventsWatcher := watcher_of (xc_EventsNATS c) |}
  /\ installs log = [(GroupName, "v1alpha1", v1alpha1_resources s (events_backend c));
                     ("", "v1", [("events", CoreEvents (events_backend c) (Some <$> as_eventsWatcher s))]);
                     ("events.k8s.io", "v1", [("events", EventsV1 (events_backend c) (Some <$> as_eventsWatcher s))])].
Proof.
  unfold New. intros E.
  apply bind_success in E as (u1 & l1 & w1 & k1 & E1 & E & ->). apply (logs_do no_install) in E1; [|done].
  apply try_success in E as (u2 & l2 & w2 & k2 & E2 & E & ->); [|intros; apply nfail_fails]. apply ClickHouse_quiet in E2.
  apply try_success in E as (wt & l3 & w3 & k3 & E3 & E & ->); [|intros; apply nfail_fails].
  pose proof (watcher_quiet _ _ _ _ _ _ E3) as Q3. apply watcher_result in E3 as ->.
  apply try_success in E as (ewt & l4 & w4 & k4 & E4 & E & ->); [|intros; apply nfail_fails].
  pose proof (watcher_quiet _ _ _ _ _ _ E4) as Q4. apply watcher_result in E4 as ->.
  apply bind_success in E as (u5 & l5 & w5 & k5 & E5 & E & ->). apply checked_call_quiet in E5; [|done].
  apply bind_success in E as (u6 & l6 & w6 & k6 & E6 & E & ->). apply checked_call_quiet in E6; [|done].
  apply bind_success in E as (pub & l7 & w7 & k7 & E7 & E & ->).
  assert (pub = publisher_of (xc_EventsNATS c) /\ Forall no_install l7) as [-> Q7].
  { unfold publisher_of. destruct (nc_URL (xc_EventsNATS c) =? "")%string eqn:Eu; [by injection E7 as <- <- <-|].
    apply try_success in E7 as (p & m1 & w8 & m2 & Ep & [= <- <- <-] & ->); [|intros; apply nfail_fails]. rewrite app_nil_r.
    pose proof (publisher_quiet _ _ _ _ _ Ep) as Qp. apply publisher_result in Ep as ->. unfold publisher_of. by rewrite Eu. }
  apply bind_success in E as (u8 & l8 & w8 & k8 & E8 & E & ->).
  apply try_success in E as (u9 & l9 & w9 & k9 & E9 & E & ->); [|intros; apply nfail_fails].
  apply try_success in E as (u10 & l10 & w10 & k10 & E10 & [= <- <- <-] & ->); [|intros; apply nfail_fails].
  unfold installLegacyCoreAPIGroup, installEventsAPIGroup in *. apply install_log in E8, E9, E10. split; [done|].
  rewrite !installs_app, E8, E9, E10, !installs_none by done. cbn [app]. unfold events_backend.
  by destruct (publisher_of (xc_EventsNATS c)).
Qed.
End ServerLemmas.

Lemma owned_only roots docs d :
  d ∈ publishOnlyOwnedOpenAPIV3 roots docs <-> d ∈ docs /\ (owned d = true \/ forall root, root ∈ roots -> TrimPrefix root "/" <> d).
Proof.
  unfold publishOnlyOwnedOpenAPIV3. revert docs. induction roots as [|r roots IH]; intros docs; cbn [foldl].
  - split; [|by intros [? _]]. intros Hd. split; [done|]. right. intros root Hr. by apply elem_of_nil in Hr.
  - rewrite IH. setoid_rewrite elem_of_cons. destruct (owned (TrimPrefix r "/")) eqn:Eo.
    + split; intros [Hd Ho]; (split; [done|]); destruct Ho as [Ho|Hn]; [by left| |by left|right; intros root Hr; apply Hn; by right].
      destruct (owned d) eqn:Ed; [by left|]. right. intros root [->|Hr]; [congruence|by apply Hn].
    + rewrite elem_of_difference, elem_of_singleton. split.
      * intros [[Hd Hne] [Ho|Hn]]; (split; [done|]); [by left|]. right. intros root [->|Hr]; [congruence|by apply Hn].
      * intros [Hd [Ho|Hn]]; (split; [split; [done|]|]); [congruence|by left|by apply not_eq_sym, Hn; left|].
        right. intros root Hr. apply Hn. by right.
Qed.

(* ------------------------------------------------------------------ *)
(** ** Theorems *)

(** C31: What a started server serves.  When [New] succeeds it has installed
    exactly three API groups: the activity group with its twelve resources, and
    the events under the core and the events.k8s.io group, both with the same
    backend and the same watcher.  Without a NATS server for the events they are
    written to ClickHouse and cannot be watched.  With one they are published,
    and a watch of the platform is a consumer of the configured stream,
    [ACTIVITIES] when none is: whatever subjects the streams are configured
    with, it receives what is published, in any namespace, exactly when a
    subject prefix is configured and that stream captures the subject. *)
Theorem server_events_path {W} `{ServerIO W} `{TLSLib} (c : ExtraConfig) (w : W) s log w' :
  New c w = (inr s, log, w') ->
  exists b wt, installs log =
       [(GroupName, "v1alpha1", v1alpha1_resources s b); ("", "v1", [("events", CoreEvents b wt)]);
        ("events.k8s.io", "v1", [("events", EventsV1 b wt)])]
    /\ eb_Database b = Database (cc_limits (xc_ClickHouse c))
    /\ if (nc_URL (xc_EventsNATS c) =? "")%string then eb_publisher b = None /\ wt = None
       else exists pub watcher, eb_publisher b = Some pub /\ wt = Some (Some watcher) /\ js_connected pub = true /\ nw_connected watcher = true
            /\ forall (JS : WatchJS) scope filter k, sc_Type scope = "platform" ->
                 events_Watch (Some watcher) scope filter = Ok k ->
                 co_stream k = or_default (nc_StreamName (xc_EventsNATS c)) "ACTIVITIES"
                 /\ forall captures namespace, let subject := EventSubject (subjectPrefix pub) "" namespace in
                    receives captures k subject
                    = (negb (nc_SubjectPrefix (xc_EventsNATS c) =? "")%string && captured captures (co_stream k) subject)%bool.
Proof.
  intros [-> Hi]%New_result. cbn [as_eventsWatcher] in Hi. eexists _, _. split; [exact Hi|]. split; [done|].
  unfold events_backend, watcher_of, publisher_of. cbn [eb_publisher].
  destruct (nc_URL (xc_EventsNATS c) =? "")%string; [done|]. eexists _, _. repeat (split; [done|]).
  intros JS scope filter k Hs Hk. apply events_Watch_consumer in Hk as [Hst Hsub]; [|done].
  assert (or_default (nc_StreamName (xc_EventsNATS c)) "ACTIVITIES" <> "") as Hne
    by (unfold or_default; by destruct (String.eqb_spec (nc_StreamName (xc_EventsNATS c)) "")).
  cbn [nw_streamName] in Hst. apply String.eqb_neq in Hne. rewrite Hne in Hst. split; [exact Hst|]. intros captures ns.
  unfold receives. rewrite andb_comm. f_equal. rewrite Hsub.
  unfold events_buildSubject, or_default. rewrite Hs. cbn [nw_subjectPrefix subjectPrefix String.eqb Ascii.eqb Bool.eqb].
  destruct (String.eqb_spec (nc_SubjectPrefix (xc_EventsNATS c)) "") as [Hp|Hp]; [by apply default_subject_unmatched|].
  apply String.eqb_neq in Hp. rewrite Hp. apply (platform_subject_matches (nc_SubjectPrefix (xc_EventsNATS c)) ns).
Qed.

(** Only the documents of the activity group are published.  Of the
    documents of the registered web services those of the group and of its
    versions stay, and no other. *)
Theorem openapi_only_owned (roots : list string) (documents : gset string) (root : string) :
  root ∈ roots -> TrimPrefix root "/" ∈ publishOnlyOwnedOpenAPIV3 roots documents <->
  TrimPrefix root "/" ∈ documents /\ owned (TrimPrefix root "/") = true.
Proof.
  intros Hr. rewrite owned_only. split; [|by intros [Hd Ho]; split; [|left]].
  intros [Hd [Ho|Hn]]; [done|]. by destruct (Hn root Hr).
Qed.

(** A server without NATS holds a nil pointer in the interface of its
    activities' watcher: a watch passes the handler's check for nil, and is
    refused with an internal error instead of the service being unavailable. *)
Lemma watch_without_nats {W} `{ServerIO W} `{TLSLib} `{WatchJS} `{FilterLib} (c : ExtraConfig) (w : W) s log w' ns extra options :
  New c w = (inr s, log, w') -> nc_URL (xc_NATS c) = "" ->
  activity_Watch (Some (as_watcher s)) ns (Some extra) options
  = Refuse (Plain (Errorf [PStr "Watch API is not available: NATS not configured"])).
Proof. intros [-> _]%New_result Hu. cbn [as_watcher]. unfold watcher_of. by rewrite Hu. Qed.

Module ToyServer.
#[export] Instance tls : TLSLib := {|
  LoadX509KeyPair _ _ := inl (Ext "none"); ReadFile _ := inl (Ext "none"); CertsFromPEM _ := None |}.
Definition fine (w : unit) : option error * unit := (None, w).
#[export] Instance io : ServerIO unit := {|
  logging_Apply := fine; self_signed := fine; options_ApplyTo := fine; generic_New := fine; clickhouse_Open _ := fine;
  clickhouse_Ping := fine; server_nats_Connect _ _ _ := fine; server_JetStream _ := fine; store_Complete _ := fine;
  api_Install _ _ _ := fine; server_Serve := fine |}.
#[export] Instance js : WatchJS := {| js_AddConsumer _ := None; js_SubscribeSync _ := None |}.
(** The streams of config/components/nats-streams. *)
Definition deployed (stream : string) : list string :=
  if (stream =? "EVENTS")%string then ["events.>"] else if (stream =? "ACTIVITIES")%string then ["activities.>"] else [].
Definition config (stream prefix : string) : ExtraConfig := {|
  xc_ClickHouse := xc_ClickHouse (server_config NewActivityServerOptions); xc_NATS := xc_NATS (server_config NewActivityServerOptions);
  xc_EventsNATS := {| nc_URL := "nats://n:4222"; nc_StreamName := stream; nc_SubjectPrefix := prefix; nc_TLS := no_files |} |}.
(** Whether a watch of the platform on a new server receives what the same
    server publishes. *)
Definition delivered (stream prefix : string) : option bool :=
  match @New unit io tls (config stream prefix) tt with
  | (inr s, log, _) =>
      match as_eventsWatcher s, publisher_of (xc_EventsNATS (config stream prefix)) with
      | Some watcher, Some pub =>
          match events_Watch (Some watcher) {| sc_Type := "platform"; sc_Name := "" |}
            {| ewf_ResourceVersion := 0; ewf_Namespace := ""; ewf_InvolvedObjectKind := ""; ewf_InvolvedObjectNamespace := "";
               ewf_InvolvedObjectName := ""; ewf_InvolvedObjectUID := ""; ewf_Reason := ""; ewf_Type := ""; ewf_Source := "" |} with
          | Ok k => Some (receives deployed k (EventSubject (subjectPrefix pub) "" "default"))
          | _ => None
          end
      | _, _ => None
      end
  | _ => None
  end.
Definition platform : ScopeContext := {| sc_Type := "platform"; sc_Name := "" |}.
Definition all : EventsWatchFilter := {|
  ewf_ResourceVersion := 0; ewf_Namespace := ""; ewf_InvolvedObjectKind := ""; ewf_InvolvedObjectNamespace := "";
  ewf_InvolvedObjectName := ""; ewf_InvolvedObjectUID := ""; ewf_Reason := ""; ewf_Type := ""; ewf_Source := "" |}.
End ToyServer.

(** On the deployed streams, a watch receives what is published only with both
    names given. *)
Example events_delivered :
  ToyServer.delivered "EVENTS" "events" = Some true /\ ToyServer.delivered "" "events" = Some false
  /\ ToyServer.delivered "EVENTS" "" = Some false /\ ToyServer.delivered "" "" = Some false.
Proof. vm_compute. done. Qed.

Lemma server_events_path_witness :
  exists s log w' b pub watcher k, @New unit ToyServer.io ToyServer.tls (ToyServer.config "EVENTS" "events") tt = (inr s, log, w')
    /\ ("", "v1", [("events", CoreEvents b (Some (Some watcher)))]) ∈ installs log /\ eb_publisher b = Some pub
    /\ @events_Watch ToyServer.js (Some watcher) ToyServer.platform ToyServer.all = Ok k /\ co_stream k = "EVENTS"
    /\ receives ToyServer.deployed k (EventSubject "events" "" "default") = true.
Proof.
  destruct (@New unit ToyServer.io ToyServer.tls (ToyServer.config "EVENTS" "events") tt) as [[[e|s] log] w'] eqn:E;
    [vm_compute in E; discriminate E|].
  pose proof (@server_events_path unit ToyServer.io ToyServer.tls (ToyServer.config "EVENTS" "events") tt s log w' E)
    as (b & wt & Hi & _ & pub & watcher & Hb & -> & _ & Hw & Hm).
  destruct (@events_Watch ToyServer.js (Some watcher) ToyServer.platform ToyServer.all) as [k|e|m] eqn:Ek.
  - exists s, log, w', b, pub, watcher, k. split; [done|]. split; [rewrite Hi; set_solver|]. split; [done|]. split; [done|].
    destruct (Hm ToyServer.js ToyServer.platform ToyServer.all k eq_refl Ek) as [Hs Hr]. split; [exact Hs|].
    specialize (Hr ToyServer.deployed "default"). cbv zeta in Hr. rewrite Hs in Hr.
    assert (subjectPrefix pub = "events") as Hp.
    { apply New_result in E as [_ Hl]. rewrite Hl in Hi. injection Hi as Hb' _. rewrite <- Hb' in Hb. by injection Hb as <-. }
    rewrite Hp in Hr. exact Hr.
  - exfalso. revert Ek. unfold events_Watch. rewrite Hw. done.
  - exfalso. revert Ek. unfold events_Watch. rewrite Hw. done.
Defined.
Lemma openapi_only_owned_witness :
  "apis/activity.miloapis.com/v1alpha1" ∈ publishOnlyOwnedOpenAPIV3 ["/api/v1"; "/apis/activity.miloapis.com/v1alpha1"]
     {["api/v1"; "apis/activity.miloapis.com/v1alpha1"]}
  /\ "api/v1" ∉ publishOnlyOwnedOpenAPIV3 ["/api/v1"; "/apis/activity.miloapis.com/v1alpha1"]
     {["api/v1"; "apis/activity.miloapis.com/v1alpha1"]}.
Proof.
  split.
  - apply (openapi_only_owned _ _ "/apis/activity.miloapis.com/v1alpha1"); [set_solver|split; [set_solver|done]].
  - intros [_ Ho]%(openapi_only_owned _ _ "/api/v1"); [done|set_solver].
Defined.
