(* ===== verification/Manager.v ===== *)
(** * The controller manager

    cmd/activity/controller_manager.go ([RunControllerManager]) and
    internal/controller/manager.go ([NewManager]) with the set-up of the two
    controllers; and cmd/activity/reindex_worker.go, the flags of the worker a
    [ReindexJob] starts, which are given to it as the arguments of its container. *)

From Stdlib Require Import Ascii String.
From stdpp Require Import base numbers list strings gmap.
From Stdlib Require Import ZArith Lia.
From S2P Require Import Prelude GoLib Calls GoFmt Types ReindexJob JobController Nkeys Connect.

(* ------------------------------------------------------------------ *)
(** ** Options *)

Record ControllerManagerOptions := {
  cm_Kubeconfig : string; cm_JobKubeconfig : string; cm_MasterURL : string; cm_Workers : Z;
  cm_MetricsAddr : string; cm_HealthProbeAddr : string; cm_NATSURL : string; cm_NATSTLS : TLSFiles;
  cm_ReindexJobNamespace : string; cm_ReindexServiceAccount : string; cm_ReindexMemoryLimit : string; cm_ReindexCPULimit : string;
  cm_MaxConcurrentReindexJobs : Z; cm_ActivityImage : string; cm_JobTemplateConfigMap : string }.
Definition NewControllerManagerOptions : ControllerManagerOptions := {|
  cm_Kubeconfig := ""; cm_JobKubeconfig := ""; cm_MasterURL := ""; cm_Workers := 2; cm_MetricsAddr := ":8080"; cm_HealthProbeAddr := ":8081";
  cm_NATSURL := ""; cm_NATSTLS := {| tls_Enabled := false; CertFile := ""; KeyFile := ""; CAFile := "" |};
  cm_ReindexJobNamespace := "activity-system"; cm_ReindexServiceAccount := "activity-reindex-worker"; cm_ReindexMemoryLimit := "2Gi";
  cm_ReindexCPULimit := "1000m"; cm_MaxConcurrentReindexJobs := 1; cm_ActivityImage := "ghcr.io/milo-os/activity:latest";
  cm_JobTemplateConfigMap := "" |}.

(** [strings.SplitN(s, "/", 2)]: before and after the first slash. *)
Definition slash : ascii := "/"%char.
Fixpoint cut_at (sep : ascii) (s : string) : option (string * string) :=
  match s with
  | "" => None
  | String c rest => if Ascii.eqb c sep then Some ("", rest)
                     else match cut_at sep rest with Some (a, b) => Some (String c a, b) | None => None end
  end.
Definition parseNamespacedName `{GoUnicode} (s : string) : error + (string * string) :=
  match cut_at slash s with
  | None => inl (Errorf [PStr "expected format 'namespace/name', got "; PStr (Quote s)])
  | Some (namespace, name) =>
      if ((namespace =? "") || (name =? ""))%string%bool
      then inl (Errorf [PStr "namespace and name cannot be empty in "; PStr (Quote s)])
      else inr (namespace, name)
  end.

(** [ManagerOptions] and the reconciler made of it. *)
Definition reindex_reconciler (o : ControllerManagerOptions) (template : option PodTemplateSpec) : Reconciler := {|
  r_JobNamespace := cm_ReindexJobNamespace o; r_ActivityImage := cm_ActivityImage o; ReindexServiceAccount := cm_ReindexServiceAccount o;
  ReindexMemoryLimit := cm_ReindexMemoryLimit o; ReindexCPULimit := cm_ReindexCPULimit o; MaxConcurrentJobs := cm_MaxConcurrentReindexJobs o;
  JobTemplate := template; r_NATSURL := cm_NATSURL o; NATSTLSEnabled := tls_Enabled (cm_NATSTLS o); NATSTLSCertFile := CertFile (cm_NATSTLS o);
  NATSTLSKeyFile := KeyFile (cm_NATSTLS o); NATSTLSCAFile := CAFile (cm_NATSTLS o) |}.

(* ------------------------------------------------------------------ *)
(** ** Running *)

(** Where the configuration of a cluster comes from. *)
Inductive cluster_config := FromKubeconfig (master path : string) | InCluster.
Inductive manager_act :=
| BuildConfig (c : cluster_config) (r : option error)
| NewJobClient (c : cluster_config) (r : option error)
| GetConfigMap (namespace name : string) (r : error + gmap string string)
| ManagerDial (url : string) (opts : list (nats_option nats_setting)) (r : option error)
| ManagerJetStream (r : option error) | ManagerClose
| RegisterControllerMetrics (r : option error) | NewCtrlManager (c : cluster_config) (metrics health : string) (r : option error)
| AddHealthz (r : option error) | AddReadyz (r : option error)
| ReindexStream (r : option error)
| SetupPolicy (workers : Z) (r : option error) | SetupReindex (c : Reconciler) (job : cluster_config) (workers : Z) (r : option error)
| StartManager (r : option error).

Class ManagerIO (W : Type) := {
  build_config : cluster_config -> W -> option error * W;
  new_job_client : cluster_config -> W -> option error * W;
  get_ConfigMap : string -> string -> W -> (error + gmap string string) * W;
  template_Unmarshal : string -> error + PodTemplateSpec;
  manager_nats_Connect : string -> list (nats_option nats_setting) -> W -> option error * W;
  manager_JetStream : W -> option error * W;
  controller_registerMetrics : W -> option error * W;
  ctrl_NewManager : cluster_config -> string -> string -> W -> option error * W;
  add_healthz : W -> option error * W;
  add_readyz : W -> option error * W;
  reindex_StreamInfo : W -> option error * W;
  setup_policy : Z -> W -> option error * W;
  setup_reindex : Reconciler -> cluster_config -> Z -> W -> option error * W;
  manager_Start : W -> option error * W }.

Section Manager.
Context {W : Type} `{ManagerIO W} `{TLSLib} `{GoUnicode}.
Abbreviation M := (Calls manager_act W).

Definition or_fail (f : W -> option error * W) (c : option error -> manager_act) (text : string) : M unit :=
  try! _ := ndo f c or (fun e => nfail (wrap_with text e)) in nret tt.

(** [SetupWithManager] of the two controllers. *)
Definition SetupPolicyWithManager (workers : Z) : M unit := ndo (setup_policy workers) (SetupPolicy workers).
Definition SetupReindexWithManager (r : Reconciler) (job : cluster_config) (workers : Z) : M unit :=
  get! _ := or_fail reindex_StreamInfo ReindexStream "ACTIVITIES_REINDEX stream not found - run Phase 0 infrastructure setup: " in
  ndo (setup_reindex r job workers) (SetupReindex r job workers).

Definition NewManager (config job : cluster_config) (o : ControllerManagerOptions) (template : option PodTemplateSpec) : M unit :=
  get! _ := or_fail controller_registerMetrics RegisterControllerMetrics "failed to register controller metrics: " in
  get! _ := or_fail (ctrl_NewManager config (cm_MetricsAddr o) (cm_HealthProbeAddr o))
              (NewCtrlManager config (cm_MetricsAddr o) (cm_HealthProbeAddr o)) "failed to create manager: " in
  get! _ := or_fail add_healthz AddHealthz "failed to add healthz check: " in
  get! _ := or_fail add_readyz AddReadyz "failed to add readyz check: " in
  try! _ := SetupPolicyWithManager (cm_Workers o) or (fun e => nfail (wrap_with "failed to create ActivityPolicy controller: " e)) in
  try! _ := SetupReindexWithManager (reindex_reconciler o template) job (cm_Workers o)
    or (fun e => nfail (wrap_with "failed to create ReindexJob controller: " e)) in
  nret tt.

(** The cluster the worker Jobs run in. *)
Definition job_config (o : ControllerManagerOptions) (config : cluster_config) : M cluster_config :=
  if negb (cm_JobKubeconfig o =? "")%string then
    let c := FromKubeconfig "" (cm_JobKubeconfig o) in
    get! _ := or_fail (build_config c) (BuildConfig c) "failed to build config from --job-kubeconfig: " in nret c
  else
    try! _ := ndo (build_config InCluster) (BuildConfig InCluster) or (fun _ => nret config) in nret InCluster.

Definition load_template (o : ControllerManagerOptions) : M (option PodTemplateSpec) :=
  if (cm_JobTemplateConfigMap o =? "")%string then nret None
  else
    try! (namespace, name) := nlift (parseNamespacedName (cm_JobTemplateConfigMap o))
      or (fun e => nfail (wrap_with "invalid --reindex-job-template-configmap value: " e)) in
    get! cm := (fun w => let (r, w') := get_ConfigMap namespace name w in (inr r, [GetConfigMap namespace name r], w')) in
    match LoadJobTemplate template_Unmarshal cm namespace name with
    | Ok t => nret (Some t)
    | Err e => nfail (wrap_with "failed to load job template: " e)
    | Panic why => nfail (Ext why)
    end.

Definition RunControllerManager (o : ControllerManagerOptions) : M unit :=
  if (cm_NATSURL o =? "")%string then nfail (Errorf [PStr "--nats-url is required"])
  else
    let config := if negb (cm_Kubeconfig o =? "")%string then FromKubeconfig (cm_MasterURL o) (cm_Kubeconfig o) else InCluster in
    get! _ := or_fail (build_config config) (BuildConfig config) "failed to build config for Milo API server: " in
    get! job := job_config o config in
    get! _ := or_fail (new_job_client job) (NewJobClient job) "failed to create Job client: " in
    get! template := load_template o in
    get! opts := nlift (manager_nats_options (cm_NATSTLS o)) in
    get! _ := or_fail (manager_nats_Connect (cm_NATSURL o) opts) (ManagerDial (cm_NATSURL o) opts) "failed to connect to NATS: " in
    try! _ := ndo manager_JetStream ManagerJetStream
      or (fun e => get! _ := nsay [ManagerClose] in nfail (wrap_with "failed to get JetStream context: " e)) in
    get! _ := NewManager config job o template in
    try! _ := ndo manager_Start StartManager or (fun e => get! _ := nsay [ManagerClose] in nfail e) in
    nsay [ManagerClose].
End Manager.

(* ------------------------------------------------------------------ *)
(** ** The flags of the worker *)

(** An argument of a command line, as it is written. *)
Inductive cli_arg := Flag (name value : string) | Word (s : string).
Definition render (a : cli_arg) : string := match a with Flag n v => "--" +:+ n +:+ "=" +:+ v | Word s => s end.
(** Names of flags do not start with a dash and have no equals sign; words do
    not start like flags. *)
Definition equals : ascii := "="%char.
Definition written (a : cli_arg) : Prop :=
  match a with Flag n _ => n <> "" /\ HasPrefix n "-" = false /\ has_byte equals n = false | Word s => HasPrefix s "-" = false end.

(** pflag: the flags with their values, in order, and the other arguments;
    and the flags the logging library declares. *)
Class FlagLib := {
  pflag_Parse : list string -> option (list (string * string) * list string);
  logging_flag : string -> bool }.
(** The documented behaviour: flags may be written [--flag=value], anywhere. *)
Definition pflag_documented `{FlagLib} : Prop :=
  (forall args, Forall written args ->
     pflag_Parse (map render args) = Some (omap (fun a => match a with Flag n v => Some (n, v) | _ => None end) args,
                                           omap (fun a => match a with Word s => Some s | _ => None end) args))
  /\ logging_flag "logging-format" = true.

Record WorkerFlags := { wk_JobName : string; wk_Kubeconfig : string; wk_NATSURL : string; wk_NATSTLS : TLSFiles }.
Definition no_worker_flags : WorkerFlags := {|
  wk_JobName := ""; wk_Kubeconfig := ""; wk_NATSURL := ""; wk_NATSTLS := {| tls_Enabled := false; CertFile := ""; KeyFile := ""; CAFile := "" |} |}.

(** A flag that [AddFlags] declares sets its field. *)
Definition set_flag `{FlagLib} (w : WorkerFlags) (flag : string * string) : option WorkerFlags :=
  let (n, v) := flag in
  let t := wk_NATSTLS w in
  let tls t := Some {| wk_JobName := wk_JobName w; wk_Kubeconfig := wk_Kubeconfig w; wk_NATSURL := wk_NATSURL w; wk_NATSTLS := t |} in
  if (n =? "kubeconfig")%string
  then Some {| wk_JobName := wk_JobName w; wk_Kubeconfig := v; wk_NATSURL := wk_NATSURL w; wk_NATSTLS := t |}
  else if (n =? "nats-url")%string
  then Some {| wk_JobName := wk_JobName w; wk_Kubeconfig := wk_Kubeconfig w; wk_NATSURL := v; wk_NATSTLS := t |}
  else if (n =? "nats-tls-enabled")%string
  then match ParseBool v with
       | Some b => tls {| tls_Enabled := b; CertFile := CertFile t; KeyFile := KeyFile t; CAFile := CAFile t |}
       | None => None
       end
  else if (n =? "nats-tls-cert-file")%string
  then tls {| tls_Enabled := tls_Enabled t; CertFile := v; KeyFile := KeyFile t; CAFile := CAFile t |}
  else if (n =? "nats-tls-key-file")%string
  then tls {| tls_Enabled := tls_Enabled t; CertFile := CertFile t; KeyFile := v; CAFile := CAFile t |}
  else if (n =? "nats-tls-ca-file")%string
  then tls {| tls_Enabled := tls_Enabled t; CertFile := CertFile t; KeyFile := KeyFile t; CAFile := v |}
  else if logging_flag n then Some w else None.
Fixpoint set_flags `{FlagLib} (w : WorkerFlags) (flags : list (string * string)) : option WorkerFlags :=
  match flags with [] => Some w | f :: rest => match set_flag w f with Some w => set_flags w rest | None => None end end.

(** The command line after [activity]: the command, one argument, the flags. *)
Definition NewReindexWorkerCommand `{FlagLib} (args : list string) : option WorkerFlags :=
  match pflag_Parse args with
  | Some (flags, ["reindex-worker"; job]) =>
      (fun w => {| wk_JobName := job; wk_Kubeconfig := wk_Kubeconfig w; wk_NATSURL := wk_NATSURL w; wk_NATSTLS := wk_NATSTLS w |})
        <$> set_flags no_worker_flags flags
  | _ => None
  end.

(* ------------------------------------------------------------------ *)
(** ** Lemmas *)

Lemma cut_at_spec sep s a b : cut_at sep s = Some (a, b) <-> (s = a +:+ String sep b) /\ has_byte sep a = false.
Proof.
  revert a. induction s as [|c s IH]; intros a; cbn [cut_at].
  - split; [done|]. intros [E _]. by destruct a.
  - destruct (Ascii.eqb_spec c sep) as [->|Hc].
    + split; [by intros [= <- <-]|]. intros [E Ha]. destruct a as [|x a]; [by injection E as ->|].
      injection E as <- E. cbn in Ha. by rewrite Ascii.eqb_refl in Ha.
    + destruct (cut_at sep s) as [[a' b']|] eqn:Ec.
      * split.
        -- intros [= <- <-]. destruct (proj1 (IH a')) as [-> Hn]; [done|]. split; [done|]. cbn. rewrite Hn, orb_false_r. by apply Ascii.eqb_neq.
        -- intros [E Ha]. destruct a as [|x a]; [by injection E as -> _|]. injection E as <- E. cbn in Ha. apply orb_false_iff in Ha as [_ Ha].
           assert (Some (a', b') = Some (a, b)) as [= -> ->] by (apply IH; done). done.
      * split; [done|]. intros [E Ha]. destruct a as [|x a]; [by injection E as -> _|]. injection E as <- E. cbn in Ha.
        apply orb_false_iff in Ha as [_ Ha]. assert (None = Some (a, b)) as [=] by (apply IH; done).
Qed.

(** Exactly the strings with a name before and after a first slash are taken. *)
Lemma parseNamespacedName_spec `{GoUnicode} s namespace name :
  parseNamespacedName s = inr (namespace, name)
  <-> (s = namespace +:+ "/" +:+ name) /\ has_byte slash namespace = false /\ namespace <> "" /\ name <> "".
Proof.
  unfold parseNamespacedName. pose proof (cut_at_spec slash s namespace name) as Hc. split.
  - destruct (cut_at slash s) as [[a b]|]; [|done]. destruct ((a =? "") || (b =? ""))%string%bool eqn:Ee; [done|]. intros [= -> ->].
    apply orb_false_iff in Ee as [Ha%String.eqb_neq Hb%String.eqb_neq]. destruct Hc as [Hc _]. by destruct (Hc eq_refl) as [-> ?].
  - intros (Hs & Hb & Hn & Hm). rewrite (proj2 Hc (conj Hs Hb)). apply String.eqb_neq in Hn, Hm. by rewrite Hn, Hm.
Qed.

Definition no_start (a : manager_act) : Prop := match a with StartManager _ | ManagerClose => False | _ => True end.

Section ManagerLemmas.
Context {W : Type} `{ManagerIO W} `{TLSLib} `{GoUnicode}.

Lemma or_fail_quiet f c text : (forall r, no_start (c r)) -> logs no_start (or_fail (W:=W) f c text).
Proof. intros Hc. unfold or_fail. eauto with calls. Qed.
Lemma or_fail_ok f c text w u log w' : or_fail (W:=W) f c text w = (inr u, log, w') -> log = [c None].
Proof.
  unfold or_fail. intros (a & l1 & w1 & l2 & E1 & [= <- <- <-] & ->)%try_success; [|intros; apply nfail_fails].
  unfold ndo in E1. destruct (f w) as [[e|] w2]; [done|]. by injection E1 as <- <- <-.
Qed.
Lemma job_config_quiet o config : logs no_start (job_config o config).
Proof.
  unfold job_config. destruct (negb _); [apply logs_bind; [by apply or_fail_quiet|auto with calls]|].
  apply logs_try; [by apply logs_do|auto with calls..].
Qed.
Lemma load_template_quiet o : logs no_start (load_template o).
Proof.
  unfold load_template. destruct (cm_JobTemplateConfigMap o =? "")%string; [auto with calls|].
  apply logs_try; [auto with calls..|]. intros [ns n]. apply logs_bind.
  - intros w r l w' E. destruct (get_ConfigMap ns n w). injection E as <- <- <-. by constructor.
  - intros cm. destruct (LoadJobTemplate _ _ _ _); auto with calls.
Qed.
Lemma NewManager_quiet config job o t : logs no_start (NewManager config job o t).
Proof.
  unfold NewManager. repeat (apply logs_bind; [by apply or_fail_quiet|intros _]).
  apply logs_try; [by apply logs_do|auto with calls|intros _]. apply logs_try; [|auto with calls..].
  unfold SetupReindexWithManager. apply logs_bind; [by apply or_fail_quiet|intros _]. by apply logs_do.
Qed.
Lemma NewManager_ok config job o t w u log w' : NewManager config job o t w = (inr u, log, w') ->
  SetupPolicy (cm_Workers o) None ∈ log /\ ReindexStream None ∈ log /\ SetupReindex (reindex_reconciler o t) job (cm_Workers o) None ∈ log.
Proof.
  unfold NewManager. intros E.
  do 4 (apply bind_success in E as (? & ? & ? & ? & _ & E & ->)).
  apply try_success in E as (? & l1 & ? & l2 & E1 & E & ->); [|intros; apply nfail_fails].
  apply try_success in E as (? & l3 & ? & l4 & E3 & [= <- <- <-] & ->); [|intros; apply nfail_fails].
  unfold SetupPolicyWithManager, ndo in E1. destruct (setup_policy _ _) as [[e|] ?]; [done|]. injection E1 as _ <- _.
  unfold SetupReindexWithManager in E3. apply bind_success in E3 as (? & l5 & ? & l6 & E5 & E6 & ->). apply or_fail_ok in E5 as ->.
  unfold ndo in E6. destruct (setup_reindex _ _ _ _) as [[e|] ?]; [done|]. injection E6 as _ <- _.
  split_and!; set_solver.
Qed.

(** A run that starts the manager, step by step. *)
Lemma no_start_not r log : Forall no_start log -> (StartManager r ∉ log) /\ (ManagerClose ∉ log).
Proof. intros Hf. rewrite Forall_forall in Hf. split; intros Hin; by apply Hf in Hin. Qed.
Lemma started_bind {A B} (m : Calls manager_act W A) (f : A -> Calls manager_act W B) w r log w' r' :
  nbind m f w = (r, log, w') -> logs no_start m -> StartManager r' ∈ log ->
  exists a l1 w1 l2, m w = (inr a, l1, w1) /\ f a w1 = (r, l2, w') /\ log = l1 ++ l2 /\ StartManager r' ∈ l2.
Proof.
  intros (a & l1 & w1 & l2 & E1 & E2 & ->)%ntry_inv Hq Hin. pose proof (Hq _ _ _ _ E1) as Hl.
  apply elem_of_app in Hin as [Hin|Hin]; [by apply (no_start_not r') in Hl as [? _]|].
  destruct a as [e|a]; [injection E2 as <- <- <-; by apply elem_of_nil in Hin|]. by exists a, l1, w1, l2.
Qed.
End ManagerLemmas.

Section WorkerLemmas.
Context `{FlagLib}.
(** The arguments of the worker, as flags and words. *)
Definition worker_args (r : Reconciler) (job : ReindexJob) : list cli_arg :=
  let opt n v := if (v =? "")%string then [] else [Flag n v] in
  [Word "reindex-worker"; Word (rj_Name job); Flag "nats-url" (r_NATSURL r); Flag "logging-format" "json"]
  ++ (if NATSTLSEnabled r then
        [Flag "nats-tls-enabled" "true"] ++ opt "nats-tls-cert-file" (NATSTLSCertFile r)
        ++ opt "nats-tls-key-file" (NATSTLSKeyFile r) ++ opt "nats-tls-ca-file" (NATSTLSCAFile r)
      else []).
Lemma controller_args_render r job : controller_args r job = map render (worker_args r job).
Proof.
  unfold controller_args, worker_args. destruct (NATSTLSEnabled r), (NATSTLSCertFile r), (NATSTLSKeyFile r), (NATSTLSCAFile r); reflexivity.
Qed.
Lemma worker_args_written r job : HasPrefix (rj_Name job) "-" = false -> Forall written (worker_args r job).
Proof.
  intros Hn. unfold worker_args. destruct (NATSTLSEnabled r), (NATSTLSCertFile r), (NATSTLSKeyFile r), (NATSTLSCAFile r); cbn;
    repeat constructor; done.
Qed.
End WorkerLemmas.

(* ------------------------------------------------------------------ *)
(** ** Theorems *)

(** The manager starts with everything in place, and its connection is
    closed after it.  Whenever the manager is started, the two controllers were
    set up before, the stream of re-indexed activities was found, the
    reconciler of the jobs has the options given and the template loaded; and
    when the manager returns the NATS connection is closed, last, and the
    command returns what the manager returned. *)
Theorem manager_runs {W} `{ManagerIO W} `{TLSLib} `{GoUnicode} (o : ControllerManagerOptions) (w : W) r log w' r' :
  RunControllerManager o w = (r, log, w') -> StartManager r' ∈ log ->
  exists before template job, log = before ++ [StartManager r'; ManagerClose]
    /\ ManagerDial (cm_NATSURL o) (match manager_nats_options (cm_NATSTLS o) with inr opts => opts | inl _ => [] end) None ∈ before
    /\ SetupPolicy (cm_Workers o) None ∈ before /\ ReindexStream None ∈ before
    /\ SetupReindex (reindex_reconciler o template) job (cm_Workers o) None ∈ before
    /\ Forall no_start before /\ r = match r' with None => inr tt | Some e => inl e end.
Proof.
  unfold RunControllerManager. destruct (cm_NATSURL o =? "")%string; [intros [= <- <- <-]; intros Hin; by apply elem_of_nil in Hin|].
  set (config := if negb (cm_Kubeconfig o =? "")%string then _ else _). intros E Hin.
  apply started_bind with (r' := r') in E as (u1 & l1 & w1 & k1 & E1 & E & -> & Hin'); [clear Hin|by apply or_fail_quiet|done].
  apply started_bind with (r' := r') in E as (job & l2 & w2 & k2 & E2 & E & -> & Hin); [clear Hin'|apply job_config_quiet|done].
  apply started_bind with (r' := r') in E as (u3 & l3 & w3 & k3 & E3 & E & -> & Hin'); [clear Hin|by apply or_fail_quiet|done].
  apply started_bind with (r' := r') in E as (t & l4 & w4 & k4 & E4 & E & -> & Hin); [clear Hin'|apply load_template_quiet|done].
  apply started_bind with (r' := r') in E as (opts & l5 & w5 & k5 & E5 & E & -> & Hin'); [clear Hin|auto with calls|done].
  apply started_bind with (r' := r') in E as (u6 & l6 & w6 & k6 & E6 & E & -> & Hin); [clear Hin'|by apply or_fail_quiet|done].
  unfold nlift in E5. injection E5 as Eo <- <-. rewrite Eo.
  pose proof (or_fail_ok _ _ _ _ _ _ _ E6) as ->.
  apply ntry_inv in E as (u7 & l7 & w7 & k7 & E7 & E & ->).
  assert (exists x, l7 = [ManagerJetStream x]) as [x ->] by (unfold ndo in E7; destruct (manager_JetStream w6); injection E7 as _ <- _; by eexists).
  destruct u7 as [e|u7]; [injection E as <- <- <-; set_solver|].
  apply started_bind with (r' := r') in E as (u8 & l8 & w8 & k8 & E8 & E & -> & Hin'); [clear Hin|apply NewManager_quiet|set_solver].
  apply ntry_inv in E as (u9 & l9 & w9 & k9 & E9 & E & ->). unfold ndo in E9. destruct (manager_Start w8) as [x' w10].
  injection E9 as <- <- <-.
  assert (x' = r' /\ k9 = [ManagerClose] /\ r = match x' with None => inr tt | Some e => inl e end) as (-> & -> & ->).
  { destruct x' as [e|]; injection E as <- <- <-; cbn in Hin'; repeat apply elem_of_cons in Hin' as [[= ->]|Hin']; try done; by apply elem_of_nil in Hin'. }
  destruct (NewManager_ok _ _ _ _ _ _ _ _ E8) as (Hp & Hs & Hr).
  exists (l1 ++ l2 ++ l3 ++ l4 ++ [ManagerDial (cm_NATSURL o) opts None; ManagerJetStream x] ++ l8), t, job.
  split; [by rewrite <- !app_assoc|].
  assert (forall a, a ∈ l8 -> a ∈ l1 ++ l2 ++ l3 ++ l4 ++ [ManagerDial (cm_NATSURL o) opts None; ManagerJetStream x] ++ l8) as Hl8
    by (intros a Ha; rewrite !elem_of_app; tauto).
  split; [rewrite !elem_of_app; do 4 right; left; by left|]. do 3 (split; [by apply Hl8|]). split; [|done].
  rewrite !Forall_app. split_and!; try by repeat constructor.
  - by eapply or_fail_quiet, E1.
  - by eapply job_config_quiet, E2.
  - by eapply or_fail_quiet, E3.
  - by eapply load_template_quiet, E4.
  - by eapply NewManager_quiet, E8.
Qed.

(** C32: A worker connects as the manager does.  The arguments the manager gives
    to the container of a job, after those of a template that may give a
    kubeconfig, are parsed by the worker command into the job's name, that
    kubeconfig, the server of the manager, and TLS files from which the worker
    makes the very connection options of the manager. *)
Theorem worker_connects_like_manager `{FlagLib} `{TLSLib} (o : ControllerManagerOptions) template (job : ReindexJob) (kubeconfig : option string) :
  pflag_documented -> HasPrefix (rj_Name job) "-" = false ->
  let template_args := match kubeconfig with Some k => ["--kubeconfig=" +:+ k] | None => [] end in
  exists worker,
    NewReindexWorkerCommand (template_args ++ controller_args (reindex_reconciler o template) job) = Some worker
    /\ wk_JobName worker = rj_Name job /\ wk_NATSURL worker = cm_NATSURL o /\ wk_Kubeconfig worker = default "" kubeconfig
    /\ buildNATSOptions (wk_NATSTLS worker) = manager_nats_options (cm_NATSTLS o).
Proof.
  intros [Hp Hl] Hn. cbn zeta.
  set (targs := match kubeconfig with Some k => [Flag "kubeconfig" k] | None => [] end).
  assert (match kubeconfig with Some k => ["--kubeconfig=" +:+ k] | None => [] end = map render targs) as -> by (by destruct kubeconfig).
  rewrite controller_args_render, <- map_app. unfold NewReindexWorkerCommand. rewrite Hp.
  2: { apply Forall_app. split; [unfold targs; destruct kubeconfig; by repeat constructor|by apply worker_args_written]. }
  unfold worker_args, targs, reindex_reconciler. cbn [r_NATSURL NATSTLSEnabled NATSTLSCertFile NATSTLSKeyFile NATSTLSCAFile].
  unfold buildNATSOptions, manager_nats_options. destruct (cm_NATSTLS o) as [[] cert key ca]; cbn [tls_Enabled CertFile KeyFile CAFile];
    destruct kubeconfig as [k|]; try (destruct (String.eqb_spec cert "") as [->|Hc], (String.eqb_spec key "") as [->|Hk], (String.eqb_spec ca "") as [->|Hca]);
    cbn; rewrite ?Hl; cbn; eexists; split; [reflexivity|..]; done.
Qed.

Module ToyManager.
#[export] Instance tls : TLSLib := {|
  LoadX509KeyPair c _ := inr c; ReadFile _ := inl (Ext "none"); CertsFromPEM _ := None |}.
Definition fine (w : unit) : option error * unit := (None, w).
#[export] Instance io : ManagerIO unit := {|
  build_config _ := fine; new_job_client _ := fine; get_ConfigMap _ _ w := (inr ∅, w); template_Unmarshal _ := inl (Ext "yaml");
  manager_nats_Connect _ _ := fine; manager_JetStream := fine; controller_registerMetrics := fine; ctrl_NewManager _ _ _ := fine;
  add_healthz := fine; add_readyz := fine; reindex_StreamInfo := fine; setup_policy _ := fine; setup_reindex _ _ _ := fine;
  manager_Start := fine |}.
Definition options : ControllerManagerOptions := {|
  cm_Kubeconfig := "/milo"; cm_JobKubeconfig := ""; cm_MasterURL := ""; cm_Workers := 2; cm_MetricsAddr := ":8080"; cm_HealthProbeAddr := ":8081";
  cm_NATSURL := "nats://n"; cm_NATSTLS := {| tls_Enabled := true; CertFile := "c"; KeyFile := "k"; CAFile := "" |};
  cm_ReindexJobNamespace := "activity-system"; cm_ReindexServiceAccount := ""; cm_ReindexMemoryLimit := ""; cm_ReindexCPULimit := "";
  cm_MaxConcurrentReindexJobs := 1; cm_ActivityImage := "img"; cm_JobTemplateConfigMap := "" |}.
(** A parser of flags. *)
Fixpoint parse (args : list string) : option (list (string * string) * list string) :=
  match args with
  | [] => Some ([], [])
  | a :: rest =>
      match parse rest with
      | None => None
      | Some (flags, words) =>
          if HasPrefix a "-" then match cut_at equals (drop_str 2 a) with Some f => Some (f :: flags, words) | None => None end
          else Some (flags, a :: words)
      end
  end.
#[export] Instance flags : FlagLib := {| pflag_Parse := parse; logging_flag n := (n =? "logging-format")%string |}.
Lemma documented : pflag_documented.
Proof.
  split; [|done]. intros args Ha. induction Ha as [|a args Hw _ IH]; [done|]. cbn [map pflag_Parse flags parse] in *.
  rewrite IH. destruct a as [n v|s]; cbn [render].
  - destruct Hw as (Hn & _ & He). change (HasPrefix ("--" +:+ n +:+ "=" +:+ v) "-") with true. cbv iota.
    change (drop_str 2 ("--" +:+ n +:+ "=" +:+ v)) with (n +:+ String equals v).
    by rewrite (proj2 (cut_at_spec equals (n +:+ String equals v) n v) (conj eq_refl He)).
  - unfold written in Hw. by rewrite Hw.
Qed.
Definition job : ReindexJob := ToyCluster.rj "Pending" None None.
End ToyManager.

Lemma manager_runs_witness :
  exists log w', @RunControllerManager unit ToyManager.io ToyManager.tls latin ToyManager.options tt = (inr tt, log, w')
    /\ ReindexStream None ∈ log /\ StartManager None ∈ log.
Proof.
  destruct (@RunControllerManager unit ToyManager.io ToyManager.tls latin ToyManager.options tt) as [[r log] w'] eqn:E.
  assert (StartManager None ∈ log) as Hin.
  { vm_compute in E. injection E as <- <- <-. apply list_elem_of_In. cbn. tauto. }
  destruct (@manager_runs unit ToyManager.io ToyManager.tls latin ToyManager.options tt r log w' None E Hin)
    as (before & t & job & -> & _ & _ & Hs & _ & _ & ->).
  exists (before ++ [StartManager None; ManagerClose]), w'. split; [done|]. split; [by apply elem_of_app; left|done].
Defined.
Lemma worker_connects_like_manager_witness :
  exists worker, @NewReindexWorkerCommand ToyManager.flags
      (["--kubeconfig=/etc/k"] ++ controller_args (reindex_reconciler ToyManager.options None) ToyManager.job) = Some worker
    /\ wk_Kubeconfig worker = "/etc/k" /\ @buildNATSOptions ToyManager.tls (wk_NATSTLS worker) = @manager_nats_options ToyManager.tls (cm_NATSTLS ToyManager.options).
Proof.
  destruct (@worker_connects_like_manager ToyManager.flags ToyManager.tls ToyManager.options None ToyManager.job (Some "/etc/k")
              ToyManager.documented eq_refl) as (worker & Hw & _ & _ & Hk & Ht).
  by exists worker.
Defined.
