(* ===== verification/ExportRun.v ===== *)
(** * Running the event exporter

    cmd/activity/event_exporter.go (options from the environment, [Validate])
    and [Run] of internal/eventexporter/exporter.go: the clients, the NATS
    connection, the goroutines of [Exporter], the health server, and the order
    in which they are shut down. *)

From Stdlib Require Import Ascii String.
From stdpp Require Import base numbers list strings gmap.
From Stdlib Require Import ZArith Lia.
From S2P Require Import Prelude GoLib Calls GoFmt Types TimeUtil CelPolicy Activity EventStore Exporter Nkeys.

(* ------------------------------------------------------------------ *)
(** ** Options *)

Record EventExporterOptions := {
  eo_NATS : Endpoint; eo_SubjectPrefix : string; eo_ScopeType : string; eo_ScopeName : string; eo_Kubeconfig : string;
  eo_ResyncPeriod : Z; eo_HealthProbeAddr : string; eo_PlaneType : string; eo_ClusterName : string; eo_ClusterRegion : string;
  eo_LocationName : string }.

Section Environment.
(** [os.Getenv] *)
Context (Getenv : string -> string).
Definition getEnvOrDefault (key defaultValue : string) : string := if (Getenv key =? "")%string then defaultValue else Getenv key.
Definition getEnvBool (key : string) (defaultValue : bool) : bool := default defaultValue (ParseBool (Getenv key)).
Definition NewEventExporterOptions : EventExporterOptions := {|
  eo_NATS := {| ep_URL := getEnvOrDefault "NATS_URL" "nats://nats.nats-system.svc.cluster.local:4222";
                ep_TLS := {| tls_Enabled := getEnvBool "NATS_TLS_ENABLED" false; CertFile := Getenv "NATS_TLS_CERT_FILE";
                             KeyFile := Getenv "NATS_TLS_KEY_FILE"; CAFile := Getenv "NATS_TLS_CA_FILE" |} |};
  eo_SubjectPrefix := getEnvOrDefault "SUBJECT_PREFIX" "activity.federated"; eo_ScopeType := getEnvOrDefault "SCOPE_TYPE" "organization";
  eo_ScopeName := getEnvOrDefault "SCOPE_NAME" "dev-org"; eo_Kubeconfig := Getenv "KUBECONFIG"; eo_ResyncPeriod := 30 * Minute;
  eo_HealthProbeAddr := getEnvOrDefault "HEALTH_PROBE_ADDR" ":8081"; eo_PlaneType := Getenv "PLANE_TYPE";
  eo_ClusterName := Getenv "CLUSTER_NAME"; eo_ClusterRegion := Getenv "CLUSTER_REGION"; eo_LocationName := Getenv "LOCATION_NAME" |}.
End Environment.

(** The part of the configuration [Exporter] models. *)
Definition exporter_config (o : EventExporterOptions) : ExporterConfig := {|
  cf_SubjectPrefix := eo_SubjectPrefix o; cf_ScopeType := eo_ScopeType o; cf_ScopeName := eo_ScopeName o;
  cf_PlaneType := eo_PlaneType o; cf_ClusterName := eo_ClusterName o; cf_ClusterRegion := eo_ClusterRegion o |}.

(* ------------------------------------------------------------------ *)
(** ** [Run] *)

Inductive export_act :=
| ExportLogging (r : option error)
| ExportMetricsRegistered (r : option error) | ExportBuildConfig (kubeconfig : string) (r : option error)
| ExportClient (r : option error) | ExportLocationsClient (r : option error) | StartCity
| ExportDial (url : string) (opts : list (nats_option nats_setting)) (r : option error)
| ExportJetStream (maxPending ackTimeout : Z) (r : option error)
| StartDrain | StartExportHealth (addr : string) | StartInformer (resync : Z) | ExportSynced (namespaces ok : bool)
| AwaitDone | AwaitDrained | ShutdownHealth | CloseExport.

Class ExportIO (W : Type) := {
  export_logging : W -> option error * W;
  export_register : W -> option error * W;
  export_build_config : string -> W -> option error * W;
  export_new_client : W -> option error * W;
  export_locations_client : W -> option error * W;
  export_nats_Connect : string -> list (nats_option nats_setting) -> W -> option error * W;
  export_JetStream : W -> option error * W;
  export_WaitForCacheSync : bool -> W -> bool * W }.

Definition natsClientName : string := "k8s-event-exporter".
Definition natsOptions (cfg : ExporterConfig) : list nats_setting :=
  [ReconnectWait (2 * Second); MaxReconnects (-1)]
  ++ match custom_inbox cfg with Some p => [CustomInboxPrefix p] | None => [] end.
Definition publishAsyncMaxPending : Z := 256.
Definition publishAckTimeout : Z := (30 * Second)%Z.

Section Run.
Context {W : Type} `{ExportIO W} `{TLSLib} `{GoUnicode}.
Abbreviation M := (Calls export_act W).

(** [defer], around the rest of the function. *)
Definition deferred {A} (l : list export_act) (m : M A) : M A := fun w => let '(r, log, w') := m w in (r, log ++ l, w').
Definition checked_export (f : W -> option error * W) (c : option error -> export_act) (text : string) : M unit :=
  try! _ := ndo f c or (fun e => nfail (wrap_with text e)) in nret tt.

(** After the connection is made: the goroutines, the health server, the
    informers, and the wait for the end. *)
Definition export_events (o : EventExporterOptions) : M unit :=
  get! _ := nsay [StartDrain; StartExportHealth (eo_HealthProbeAddr o)] in
  deferred [ShutdownHealth] (
    get! _ := nsay [StartInformer (eo_ResyncPeriod o)] in
    let edge := (eo_PlaneType o =? planeTypeEdge)%string in
    get! synced := (fun w => let (ok, w') := export_WaitForCacheSync edge w in (inr ok, [ExportSynced edge ok], w')) in
    if negb synced then nfail (Errorf [PStr "failed to sync informer cache"])
    else nsay [AwaitDone; AwaitDrained]).

Definition export_Run (o : EventExporterOptions) : M unit :=
  get! _ := checked_export export_register ExportMetricsRegistered "failed to register exporter metrics: " in
  get! _ := checked_export (export_build_config (eo_Kubeconfig o)) (ExportBuildConfig (eo_Kubeconfig o))
              "failed to build Kubernetes client config: " in
  get! _ := checked_export export_new_client ExportClient "failed to create Kubernetes client: failed to create client: " in
  get! _ := (if (eo_PlaneType o =? planeTypeEdge)%string then
               get! _ := checked_export export_locations_client ExportLocationsClient "failed to create locations client: " in nsay [StartCity]
             else nret tt) in
  try! _ := (get! opts := nlift (endpoint_options (eo_NATS o) natsClientName (natsOptions (exporter_config o))) in
             ndo (export_nats_Connect (ep_URL (eo_NATS o)) opts) (ExportDial (ep_URL (eo_NATS o)) opts))
    or (fun e => nfail (wrap_with "failed to connect to NATS: " e)) in
  deferred [CloseExport] (
    get! _ := checked_export export_JetStream (ExportJetStream publishAsyncMaxPending publishAckTimeout) "failed to get JetStream context: " in
    export_events o).

(** The command. *)
Definition cluster_name_error (cluster : string) : error :=
  Errorf [PStr "--cluster-name "; PStr (Quote cluster);
          PStr " is not usable in NATS subjects: it must be a single DNS-1123 label (lowercase alphanumerics and '-', no dots)"].
Definition export_command (o : EventExporterOptions) : M unit :=
  get! _ := checked_export export_logging ExportLogging "failed to apply logging configuration: " in
  if options_Validate (exporter_config o) then export_Run o
  else nfail (cluster_name_error (FederatedCluster (eo_PlaneType o) (eo_ClusterName o))).
End Run.

(** The health checks. *)
Definition exporter_nats_check (nc : option bool) : option error :=
  match nc with
  | None => Some (Errorf [PStr "NATS connection not initialized"])
  | Some false => Some (Errorf [PStr "NATS connection is disconnected"])
  | Some true => None
  end.
Definition informerSyncedChecker (synced : bool) : option error := if synced then None else Some (Errorf [PStr "informer cache not synced"]).
Definition exporter_readyz (nc : option bool) (synced : bool) : bool :=
  match exporter_nats_check nc, informerSyncedChecker synced with None, None => true | _, _ => false end.

(* ------------------------------------------------------------------ *)
(** ** Lemmas *)

(** Before the connection is made. *)
Definition unconnected (a : export_act) : Prop :=
  match a with ExportDial _ _ None | StartDrain | AwaitDrained | CloseExport | ShutdownHealth => False | _ => True end.

(** What is done between the connection and its closing, and the result of the
    run: JetStream is refused, or the goroutine that publishes and the health
    server are started before the informers, and the run waits for the informers
    to be filled, for the end of the context, and for that goroutine to
    return. *)
Definition export_ended (o : EventExporterOptions) (after : list export_act) (r : error + unit) : Prop :=
  (exists e, after = [ExportJetStream publishAsyncMaxPending publishAckTimeout (Some e)]
     /\ r = inl (wrap_with "failed to get JetStream context: " e))
  \/ exists synced,
       after = [ExportJetStream publishAsyncMaxPending publishAckTimeout None;
                StartDrain; StartExportHealth (eo_HealthProbeAddr o); StartInformer (eo_ResyncPeriod o);
                ExportSynced (eo_PlaneType o =? planeTypeEdge)%string synced]
               ++ (if synced then [AwaitDone; AwaitDrained] else []) ++ [ShutdownHealth]
       /\ r = if synced then inr tt else inl (Errorf [PStr "failed to sync informer cache"]).

Lemma endpoint_options_extra `{TLSLib} {Extra} e name (extra : list Extra) opts x :
  endpoint_options e name extra = inr opts -> x ∈ map OptExtra extra -> x ∈ opts.
Proof.
  unfold endpoint_options. intros Eo Hin. destruct (tls_Enabled (ep_TLS e)); [destruct (tls_Config (ep_TLS e)); [done|]|];
    injection Eo as <-; right; [apply elem_of_app; by left|done].
Qed.

Section RunLemmas.
Context {W : Type} `{ExportIO W} `{TLSLib}.

Lemma checked_export_quiet f c text : (forall r, unconnected (c r)) -> logs unconnected (checked_export (W:=W) f c text).
Proof. intros Hc. unfold checked_export. eauto with calls. Qed.

(** Every run that makes the connection ends like this. *)
Lemma export_events_log o w r log w' : export_events o w = (r, log, w') ->
  exists ok, log = [StartDrain; StartExportHealth (eo_HealthProbeAddr o); StartInformer (eo_ResyncPeriod o);
                    ExportSynced (eo_PlaneType o =? planeTypeEdge)%string ok]
                   ++ (if ok then [AwaitDone; AwaitDrained] else []) ++ [ShutdownHealth]
    /\ r = if ok then inr tt else inl (Errorf [PStr "failed to sync informer cache"]).
Proof.
  unfold export_events, deferred, nbind, ntry, nsay. cbn. destruct (export_WaitForCacheSync _ w) as [ok w1]. cbn.
  destruct ok; cbn; intros [= <- <- <-]; [by exists true|by exists false].
Qed.

Lemma connected_run_ended o w r log w' :
  (get! _ := checked_export export_JetStream (ExportJetStream publishAsyncMaxPending publishAckTimeout)
               "failed to get JetStream context: " in export_events o) w = (r, log, w') ->
  export_ended o log r.
Proof.
  intros E. apply ntry_inv in E as (a & l & w1 & k & E1 & E & ->).
  unfold checked_export, nbind, ntry, ndo, nret, nfail in E1.
  destruct (export_JetStream w) as [[e|] w2]; cbn in E1; injection E1 as <- <- <-.
  - injection E as <- <- <-. left. by exists e.
  - apply export_events_log in E as (ok & -> & ->). right. by exists ok.
Qed.

Lemma closes_last o r before after :
  Forall unconnected before -> export_ended o after r -> CloseExport ∉ (before ++ after).
Proof.
  rewrite Forall_forall. intros Hb Ha [Hin%Hb|Hin]%elem_of_app; [done|].
  destruct Ha as [(e & -> & _)|([] & -> & _)]; set_solver.
Qed.
End RunLemmas.

(* ------------------------------------------------------------------ *)
(** ** Theorems *)

(** C33: The exporter closes what it opens, last, and waits for its publishing
    goroutine before it.  A run that does not make the connection fails, starts
    nothing that publishes and closes nothing.  A run that makes it, with the
    inbox of the hub's grant for the cluster if it is federated, closes it once,
    as the last thing done; what is done in between is all of [export_ended]: a
    run that returns without an error has waited for the end of the context,
    then for the publishing goroutine to return, and only then shut the health
    server down.  The one way to leave with that goroutine running is a failed
    sync of the informers. *)
Theorem exporter_run_order {W} `{ExportIO W} `{TLSLib} (o : EventExporterOptions) (w : W) r log w' :
  export_Run o w = (r, log, w') ->
  (Forall unconnected log /\ r <> inr tt)
  \/ exists before opts after, log = before ++ [ExportDial (ep_URL (eo_NATS o)) opts None] ++ after ++ [CloseExport]
       /\ Forall unconnected before /\ export_ended o after r /\ CloseExport ∉ (before ++ after)
       /\ (forall cluster, FederatedCluster (eo_PlaneType o) (eo_ClusterName o) = cluster -> cluster <> "" ->
             OptExtra (CustomInboxPrefix (EventInboxPrefix cluster)) ∈ opts)
       /\ (r = inr tt -> exists early, after = early ++ [AwaitDone; AwaitDrained; ShutdownHealth])
       /\ (AwaitDrained ∉ after -> StartDrain ∈ after -> r = inl (Errorf [PStr "failed to sync informer cache"])).
Proof.
  unfold export_Run. intros E.
  apply ntry_inv in E as (a1 & l1 & w1 & k1 & E1 & E & ->). apply checked_export_quiet in E1; [|done].
  destruct a1 as [e|_]; [injection E as <- <- <-; left; by rewrite app_nil_r|].
  apply ntry_inv in E as (a2 & l2 & w2 & k2 & E2 & E & ->). apply checked_export_quiet in E2; [|done].
  destruct a2 as [e|_]; [injection E as <- <- <-; left; rewrite app_nil_r, Forall_app; done|].
  apply ntry_inv in E as (a3 & l3 & w3 & k3 & E3 & E & ->). apply checked_export_quiet in E3; [|done].
  destruct a3 as [e|_]; [injection E as <- <- <-; left; rewrite app_nil_r, !Forall_app; done|].
  apply ntry_inv in E as (a4 & l4 & w4 & k4 & E4 & E & ->).
  assert (Forall unconnected l4) as Q4.
  { destruct (eo_PlaneType o =? planeTypeEdge)%string; [|by injection E4 as _ <- _]. revert E4. apply logs_bind.
    - by apply checked_export_quiet.
    - intros _. apply logs_say. by constructor. }
  destruct a4 as [e|u4]; [injection E as <- <- <-; left; rewrite app_nil_r, !Forall_app; done|].
  apply ntry_inv in E as (a5 & l5 & w5 & k5 & E5 & E & ->). apply ntry_inv in E5 as (a6 & l6 & w6 & k6 & E6 & E5 & ->).
  injection E6 as Eo <- <-. destruct a6 as [e|opts].
  { injection E5 as <- <- <-. injection E as <- <- <-. left. rewrite !app_nil_r, !Forall_app. done. }
  unfold ndo in E5. destruct (export_nats_Connect _ _ w4) as [[e|] w7].
  { injection E5 as <- <- <-. injection E as <- <- <-. left. rewrite !Forall_app. split_and!; try done. by repeat constructor. }
  injection E5 as <- <- <-. right. unfold deferred in E.
  destruct (nbind _ _ w7) as [[r' after] w8] eqn:E8. injection E as <- <- <-.
  set (before := l1 ++ l2 ++ l3 ++ l4). assert (Forall unconnected before) as Qb by (unfold before; by rewrite !Forall_app).
  exists before, opts, after. split; [unfold before; by rewrite <- !app_assoc|]. split; [done|].
  apply connected_run_ended in E8. split; [done|]. split; [by apply closes_last with o r'|]. split.
  { intros cluster Hc Hne.
    assert (OptExtra (CustomInboxPrefix (EventInboxPrefix cluster)) ∈ map OptExtra (natsOptions (exporter_config o))) as Hin.
    { apply list_elem_of_In, in_map. unfold natsOptions, custom_inbox. cbn [cf_PlaneType cf_ClusterName exporter_config]. rewrite Hc.
      apply String.eqb_neq in Hne. rewrite Hne. cbn. tauto. }
    by eapply endpoint_options_extra. }
  destruct E8 as [(e & -> & ->)|(ok & -> & ->)]; [split; [done|]; intros _ Hin; set_solver|].
  destruct ok; cbn [app]; [|by split]. split; [|intros Hn; exfalso; apply Hn; set_solver].
  intros _. by eexists [_; _; _; _; _].
Qed.

(** A cancelled start: the queue may hold events and publishes be in flight
    when the connection is closed. *)
Module ToyExportRun.
#[export] Instance tls : TLSLib := {|
  LoadX509KeyPair c _ := inr c; ReadFile _ := inl (Ext "none"); CertsFromPEM _ := None |}.
Definition fine (w : bool) : option error * bool := (None, w).
(** The state tells whether the informers sync. *)
#[export] Instance io : ExportIO bool := {|
  export_logging := fine; export_register := fine; export_build_config _ := fine; export_new_client := fine;
  export_locations_client := fine; export_nats_Connect _ _ := fine; export_JetStream := fine; export_WaitForCacheSync _ w := (w, w) |}.
Definition options : EventExporterOptions :=
  NewEventExporterOptions (fun k => if (k =? "PLANE_TYPE")%string then "edge" else if (k =? "CLUSTER_NAME")%string then "c1" else "").
Definition run (synced : bool) := @export_Run bool io tls options synced.
End ToyExportRun.

Lemma exporter_run_order_witness :
  exists log w', ToyExportRun.run true = (inr tt, log, w')
    /\ exists opts after, [ExportDial "nats://nats.nats-system.svc.cluster.local:4222" opts None] ++ after ++ [CloseExport] `suffix_of` log
         /\ OptExtra (CustomInboxPrefix "_INBOX_c1") ∈ opts /\ [AwaitDone; AwaitDrained; ShutdownHealth] `suffix_of` after.
Proof.
  destruct (ToyExportRun.run true) as [[r log] w'] eqn:E.
  assert (r = inr tt) as -> by (vm_compute in E; by injection E as <- _ _).
  exists log, w'. split; [done|].
  destruct (@exporter_run_order bool ToyExportRun.io ToyExportRun.tls ToyExportRun.options true _ _ _ E)
    as [[_ []]|(before & opts & after & -> & _ & _ & _ & Hi & Hd & _)]; [done|].
  exists opts, after. split; [by exists before|]. split; [by apply (Hi "c1")|]. destruct (Hd eq_refl) as [early ->]. by exists early.
Defined.
Example failed_sync_closes_undrained :
  (fun x => drop 10 (snd (fst x))) (ToyExportRun.run false) = [ExportSynced true false; ShutdownHealth; CloseExport].
Proof. vm_compute. reflexivity. Qed.
